(* ===== verification/_CoqProject ===== *)
-Q . S2P
Prelude.v
ByteOrder.v
Protocol.v
WireFrames.v
WireStream.v
WireAck.v
WireAckProofs.v
WireAckParse.v
WireHeader.v
PacketUnpacker.v
MinMax.v
AckReceived.v
AckReceivedProofs.v
ConnParams.v
FlowControl.v
FlowControlProofs.v
StreamSorter.v
StreamSorterProofs.v
Stream.v
StreamDelivery.v
StreamsMap.v
StreamsMapProofs.v
StreamFramer.v
StreamFramerProofs.v
Float.v
RTTStats.v
SentPackets.v
SentPacketsProofs.v
GoFloat.v
Cubic.v
CubicProofs.v
Olia.v
OliaProofs.v
Path.v
PacketPacker.v
PackerProofs.v
Session.v
Scheduler.v
SchedulerProofs.v
HandshakeMessage.v
Fnv.v
Gcm.v
AesTables.v
Aes.v
AesProofs.v
Aead.v
ServerConfig.v
CryptoSetup.v
CryptoSetupProofs.v
Handshake.v
SessionStreams.v
SessionProofs.v
SessionLoop.v
SessionLoopProofs.v
Endpoints.v
EndpointsProofs.v
CertCompression.v
CertChain.v
Mint.v
TlsSetup.v
PconnManager.v
Http.v
