(* ===== verification/Prelude.v ===== *)
(** * Verification of a multipath QUIC implementation

    The program is the multipath fork of quic-go under
    [src/repository/lucas-clemente/quic-go]: a QUIC transport (versions 37 to 39
    and the multipath version) that sends over several network paths and has
    unreliable streams besides the reliable ones.  File names below are relative
    to that directory.

    ** The parts of the program and how they interact

    Received packets: a socket hands a packet to the session, which finds the path
    named in the public header (or creates it); the path infers the packet number,
    decrypts and unpacks the payload, registers the packet for its ACKs, and the
    session dispatches the frames to the streams, the flow control and the sent
    packet handlers of the paths.  Sent packets: the scheduler collects
    retransmissions, picks a path, and lets the packet packer compose a packet
    from control frames and from the STREAM frames that the stream framer takes
    from the streams, within the windows of flow control and congestion control;
    the packet is registered with the sent packet handler of its path, which
    declares it acknowledged or lost later.  Around this stand the handshake, which
    exchanges hellos over a stream of its own and yields the keys of the packets;
    the loop of the session with its timer, the goroutines of the paths and the
    path manager; and the server and the client, which give the packets of their
    sockets to sessions and agree on a version.

    ** Files

    - This file: machine integers, errors and results, readers and writers of byte
      strings, the tactics and the hint databases of the development.
    - [ByteOrder], [Protocol], [MinMax]: [internal/utils] and [internal/protocol].
    - [WireFrames], [WireStream], [WireAck], [WireHeader]: [internal/wire], a
      module per frame with [Parse], [Write] and [MinLength] as in the code;
      [WireAckProofs] and [WireAckParse] are about ACK and CLOSE_PATH frames.
    - [PacketUnpacker]: [packet_unpacker.go]; the AEAD is the class [QuicAEAD].
    - [AckReceived], [AckReceivedProofs]: [ackhandler/received_packet_*.go].
    - [ConnParams], [FlowControl], [FlowControlProofs]: the negotiated parameters
      and [internal/flowcontrol].
    - [StreamSorter], [StreamSorterProofs]: [stream_frame_sorter.go] and
      [StreamFrameBuffer.go]; [Stream], [StreamDelivery]: [stream.go] and what its
      reader gets; [StreamsMap], [StreamsMapProofs]: [streams_map.go];
      [StreamFramer], [StreamFramerProofs]: [stream_framer.go].
    - [Float], [RTTStats]: [congestion/rtt_stats.go]; [SentPackets],
      [SentPacketsProofs]: [ackhandler/sent_packet_handler.go] and its helpers,
      against the class [SendAlgorithm] of congestion controllers.
    - [GoFloat], [Cubic], [CubicProofs]: the CUBIC controller of the initial path,
      an instance of [SendAlgorithm]; [Olia], [OliaProofs]: the coupled controllers
      of the additional paths, [congestion/olia.go] and [olia_sender.go].
    - [Path]: [path.go]; [PacketPacker], [PackerProofs]: [packet_packer.go]; the
      crypto setup is the class [CryptoSetup].
    - [Session]: what [session.go] and [path_manager.go] do for a packet or a call;
      [Scheduler], [SchedulerProofs]: [scheduler.go].  [SessionStreams] and
      [SessionProofs] hold the invariant of a session.
    - [SessionLoop], [SessionLoopProofs]: the loop of [session.go], the goroutines
      of [path.go] and [path_manager.go], [internal/utils/timer.go], and the calls
      of the application.
    - [Endpoints], [EndpointsProofs]: [server.go] and [client.go]; sessions are used
      through the class [PacketHandler], of which [SessionLoop] is an instance.
    - [HandshakeMessage]: the messages of the handshake and the public reset; [Fnv],
      [Gcm], [AesTables], [Aes], [AesProofs]: the hash and the cipher
      ([../fnv128a], [../aes12]); [Aead]: [internal/crypto] from keys to sealed
      packets; [ServerConfig]: server configs, cookies, the client's certificates.
    - [CryptoSetup], [CryptoSetupProofs]: the two ends of the handshake,
      [internal/handshake/crypto_setup_*.go]; [Handshake]: the two ends connected.
      [CertCompression], [CertChain]: the certificates and signatures of a server
      and how the client gets them, [internal/crypto/cert_*.go] and
      [server_proof.go], instances of what the handshake uses.  [TlsSetup]: the
      handshake of the version with TLS, [crypto_setup_tls.go] and the keys it uses,
      over [Mint], the connections of the TLS stack ([bifurcation/mint]).
    - [PconnManager]: the sockets, [pconn_manager.go], [conn.go], [buffer_pool.go].
    - [Http]: the headers of requests and responses, [h2quic].

    The state of a component is a record [t] with the fields of its struct, an
    operation a function from the state and the arguments to the new state and
    the results.  A run-time panic is a value ([Panic]) of the result type [res],
    an error another ([Err]).  A reader of bytes is a function from the unread
    bytes, a writer a function that extends the bytes written so far.  Maps are
    [gmap]s; where the code iterates over a map, the order is an input.  The clock
    and random numbers are arguments; a zero [time.Time] is [None] or [0] as
    the component says.  Objects that the code shares by pointer are passed in
    and out, or kept in a store where the aliasing matters ([StreamFramer.closure]).

    ** What the theorems show

    - Wire format: every frame and header within the limits that its theorem states
      is written with the length that was computed for it and read back by the peer
      ([AckFrame_roundtrip], [ClosePathFrame_roundtrip], [StreamFrame_roundtrip],
      [PublicHeader_roundtrip], [VersionNegotiation_roundtrip], [Unpack_written]);
      no input makes the unpacker panic or loop ([Unpack_total]), what the ACK
      parser accepts is valid ([AckFrame_Parse_valid]), unencrypted stream data is
      refused ([Unpack_unencrypted]); handshake messages are read as they were
      written ([HandshakeMessage_roundtrip]).
    - Receiving: the sorter and the reader of a stream deliver exactly the bytes
      of the stream in order ([sorter_delivers], [sorter_delivers_all],
      [read_delivers]); ACKs name exactly the received
      packets and are sent in time ([PacketHistory_refines_set],
      [GetAckFrame_exact], [ack_within_delay]).
    - Sending: every packet is in flight, acknowledged, or queued for
      retransmission ([sent_packets_accounted], [ack_walk_exact],
      [alarm_while_outstanding]); the framer neither loses nor invents stream data
      ([framer_pops_content]); a packed packet fits, and the peer's path gets
      exactly its frames ([packed_packet_handled]); the scheduler's choice of a
      path ([path_selected]); the windows of CUBIC and OLIA ([cubic_window],
      [olia_windows], [olia_weights_balance]), the RTT estimates
      ([rtt_estimates]), flow control ([send_window_respected],
      [connection_counts_streams], [MaybeUpdateWindow_spec]), the books of the
      streams map ([streams_map_books], [round_robin_fair]).
    - Cryptography: the table-driven cipher is AES of FIPS-197 and decrypts what
      it encrypts ([aes_encrypts], [aes_decrypts]); the multiplication of GHASH is
      the one of GF(2^128) ([mul_is_field_multiplication]); what is sealed can be
      opened ([gcm_roundtrip]); the 128-bit hash on four words is FNV-1a
      ([fnv128a_correct]).
    - Handshake: a client that knows nothing of the server and a server finish the
      handshake with matching keys and parameters in three hellos
      ([handshake_completes]); the level at which packets are opened never falls
      ([levels_never_drop]); certificates reach the client unchanged, unless a read of
      zlib is short ([cert_chain_roundtrip]), and then matching keys give the trust
      that the handshake needs ([certChain_trusted]).  Connected ends of the TLS
      variant derive matching keys ([tls_keys_match]), but its handler never gets a
      connection ([tls_handshake_never_completes]).
    - Sessions: whatever packets arrive, whatever the application does and whichever
      event the loop takes first, a session stays well formed: the invariants of all
      its components hold together ([session_wellformed]); it ends when it is closed,
      with the right error and packet ([session_closes]); the timer of a path is an
      alarm clock that every round of its goroutine sets again ([path_timer_fires]).
    - Endpoints: no bytes make the server panic or reach another session
      ([server_serves]); a client and a server with a common version agree on one
      ([version_negotiated]), and the client keeps it ([client_version_settles]);
      there is a socket for every address of the machine
      ([sockets_follow_interfaces]); an HTTP request is read as it was written
      ([request_roundtrip], [response_roundtrip]).
    - Defects of the code, as theorems about the same definitions:
      [close_path_strands_packets], [fin_kept_on_cut_frame],
      [unreliable_Head_panics], [receive_window_can_shrink],
      [StreamFrame_two_byte_id_lost], [AckFrame_long_gap_not_writable],
      [frame_sent_under_wrong_id], [ping_lost], [unreliable_stall_panics],
      [idle_timer_lost], [short_read_corrupts], [tls_handshake_never_completes],
      [path_change_lost], [invalid_request_sent], [malformed_response_panics].

    ** Fuel

    The loop of the unpacker has the length of the payload as fuel (every round
    consumes a byte, [Unpack_total]); [Stream.readLoop] one round more than the
    bytes asked for ([read_delivers] proves that it ends); [StreamsMap.openLoop] a
    round per stream up to the ID; [Cubic.renoLoop] the acknowledged packets and
    the number of connections ([cubic_window] proves that it ends);
    [Scheduler.retransmissionLoop] the packets that are queued for
    retransmission, of which every round takes one; [Scheduler.sendLoop], which the
    code ends when nothing can be sent, has its fuel as an argument.  The loops over
    bytes in [Gcm], [ServerConfig], [WireHeader] and [CertCompression.readEntries]
    have the length of the data as fuel, [CertCompression.readCerts] the number of
    entries and one more ([readCerts_fuel_enough]), [Mint.expandLoop] the length of its
    output ([expandLoop_length]).  The loops of the session and of
    the goroutines are lists of events: theorems hold for every list.

    ** Not modelled

    - The kernel's side of the sockets: a packet comes in as bytes with two addresses
      and leaves as an element of a list; writing to a socket does not fail.  Mutexes:
      an operation is atomic, but for [PconnManager.Interleaved].  The send on
      [path.sentPacket] in [sendPackedPacket] does not block: the goroutine of the path
      sees it as the event [SentPacket] of [PathRun].
    - Of the TLS stack, what its states compute from the messages of the peer and its
      record layer: [Mint] takes the answers of the states, in the order that the state
      machines allow, as inputs.
    - X.509, zlib, the HKDF of the QUIC handshake, Curve25519, SHA-256 and the signature schemes are packages
      of Go or of third parties, and classes here; the assembly for amd64 in
      [../aes12] is another implementation of the cipher that is modelled from Go.
    - The sessions and sent packet handlers are proved for every controller of the
      class [SendAlgorithm]; the OLIA controllers, which share a map, have their own
      theorems over all paths at once.
    - Of [h2quic], listening, dialing and the calls of handlers; HPACK and the frames of
      HTTP/2 are third-party packages.  Logging and the programs under [src] that use
      the library are applications; the other directories of [src/repository] hold
      third-party packages. *)

From Stdlib Require Export ZArith Lia Bool String.
From stdpp Require Export prelude list numbers strings gmap sorting.

#[global] Open Scope Z_scope.

(** ** Machine integers

    Go's unsigned integers are modelled by [Z] in their range; a conversion or
    an arithmetic operation that can leave the range is wrapped with the
    function of its width.  [int] and [int64] are 64-bit two's complement. *)

Definition u8 (z : Z) : Z := z mod 2 ^ 8.
Definition u16 (z : Z) : Z := z mod 2 ^ 16.
Definition u32 (z : Z) : Z := z mod 2 ^ 32.
Definition u64 (z : Z) : Z := z mod 2 ^ 64.
Definition i64 (z : Z) : Z := (z + 2 ^ 63) mod 2 ^ 64 - 2 ^ 63.

(** A value is in the range of an unsigned integer of [w] bits. *)
Definition in_width (w z : Z) : Prop := 0 <= z < 2 ^ w.

#[global] Instance in_width_dec w z : Decision (in_width w z).
Proof. unfold in_width. apply _. Defined.

(** ** Errors and results

    [errors.New] values are identified by their message, [fmt.Errorf] values by
    their format and numbers, [qerr.QuicError]
    values by code and message, where the message is a literal, a [Sprintf] of a
    format and numbers, or [err.Error()] of another error; a [qerr.ErrorCode]
    used as an error is identified by its code.  A run-time panic is a result of its own, so that "does not panic" is
    a statement about the model. *)

Inductive error : Type :=
| EOF
| ErrUnexpectedEOF
| ErrorsNew (msg : string)
| Errorf (format : string) (args : list Z)
| QuicError (code : Z) (msg : string)
| QuicErrorf (code : Z) (format : string) (args : list Z)
| QuicErrorOf (code : Z) (cause : error)
| ErrorCode (code : Z).

#[global] Instance error_eq_dec : EqDecision error.
Proof.
  intros x. induction x as [| | | | | |code e IH|]; intros [| | | | | |code' e'|];
    try (right; discriminate); try (by left); try solve_decision.
Defined.

Inductive res (A : Type) : Type :=
| Ok (a : A)
| Err (e : error)
| Panic.
Arguments Ok {A} a.
Arguments Err {A} e.
Arguments Panic {A}.

#[global] Instance res_ret : MRet res := fun A a => Ok a.
#[global] Instance res_bind : MBind res := fun A B k m =>
  match m with Ok a => k a | Err e => Err e | Panic => Panic end.

Definition is_Ok {A} (r : res A) : Prop := exists a, r = Ok a.
Definition is_Panic {A} (r : res A) : bool :=
  match r with Panic => true | _ => false end.

(** ** Readers

    A [bytes.Reader] is the list of the bytes not read yet.  A parser returns
    its value and the reader after it; when a parser fails the caller drops the
    reader, so the error result carries no position. *)

Definition Reader (A : Type) : Type := list Z -> res (A * list Z).

#[global] Instance reader_ret : MRet Reader := fun A a r => Ok (a, r).
#[global] Instance reader_bind : MBind Reader := fun A B k m r =>
  match m r with
  | Ok (a, r') => k a r'
  | Err e => Err e
  | Panic => Panic
  end.

Definition rfail {A} (e : error) : Reader A := fun _ => Err e.
Definition rpanic {A} : Reader A := fun _ => Panic.
(** [if cond { return nil, e }] *)
Definition rguard (cond : bool) (e : error) : Reader unit :=
  fun r => if cond then Err e else Ok (tt, r).

(** [bytes.Reader.ReadByte] *)
Definition ReadByte : Reader Z := fun r =>
  match r with [] => Err EOF | b :: r' => Ok (b, r') end.

(** [io.ReadFull(r, buf)] with [len(buf) = n]: [EOF] when nothing could be
    read, [ErrUnexpectedEOF] when the reader ended early. *)
Definition ReadFull (n : nat) : Reader (list Z) := fun r =>
  if decide (n <= length r)%nat then Ok (take n r, drop n r)
  else match r with [] => Err EOF | _ => Err ErrUnexpectedEOF end.

(** [r.Len()] *)
Definition RLen : Reader Z := fun r => Ok (Z.of_nat (length r), r).

(** ** Writers

    A [bytes.Buffer] is the list of the bytes written so far.  A writer that
    returns an error leaves in the buffer what it wrote before the error. *)

Inductive wres : Type :=
| WOk (b : list Z)
| WErr (e : error) (b : list Z)
| WPanic.

Definition Writer : Type := list Z -> wres.

Definition wseq (w1 w2 : Writer) : Writer := fun b =>
  match w1 b with WOk b' => w2 b' | WErr e b' => WErr e b' | WPanic => WPanic end.

Declare Scope writer_scope.
Delimit Scope writer_scope with writer.
Notation "w1 ;;; w2" := (wseq w1 w2) (at level 100, right associativity) : writer_scope.
Open Scope writer_scope.

Definition wskip : Writer := fun b => WOk b.
Definition wfail (e : error) : Writer := fun b => WErr e b.
Definition wpanic : Writer := fun _ => WPanic.
Definition wguard (cond : bool) (e : error) : Writer :=
  fun b => if cond then WErr e b else WOk b.
(** [if cond { ... }] *)
Definition wwhen (cond : bool) (w : Writer) : Writer := if cond then w else wskip.
(** [b.Write(l)] *)
Definition Write (l : list Z) : Writer := fun b => WOk (b ++ l).
(** [b.WriteByte(c)] *)
Definition WriteByte (c : Z) : Writer := Write [c].

(** A writer that appends exactly [l]: what every successful frame writer is. *)
Definition writes (w : Writer) (l : list Z) : Prop := forall b, w b = WOk (b ++ l).

(** A list of bytes. *)
Definition bytes_ok (l : list Z) : Prop := Forall (in_width 8) l.

#[global] Instance bytes_ok_dec l : Decision (bytes_ok l).
Proof. unfold bytes_ok. apply _. Defined.

(** ** Generic lemmas on machine integers *)

Create HintDb width.

Lemma u8_range z : in_width 8 (u8 z).
Proof. apply Z.mod_pos_bound; lia. Qed.
Lemma u16_range z : in_width 16 (u16 z).
Proof. apply Z.mod_pos_bound; lia. Qed.
Lemma u32_range z : in_width 32 (u32 z).
Proof. apply Z.mod_pos_bound; lia. Qed.
Lemma u64_range z : in_width 64 (u64 z).
Proof. apply Z.mod_pos_bound; lia. Qed.

Lemma u8_small z : 0 <= z < 2 ^ 8 -> u8 z = z.
Proof. apply Z.mod_small. Qed.
Lemma u16_small z : 0 <= z < 2 ^ 16 -> u16 z = z.
Proof. apply Z.mod_small. Qed.
Lemma u32_small z : 0 <= z < 2 ^ 32 -> u32 z = z.
Proof. apply Z.mod_small. Qed.
Lemma u64_small z : 0 <= z < 2 ^ 64 -> u64 z = z.
Proof. apply Z.mod_small. Qed.

#[export] Hint Resolve u8_range u16_range u32_range u64_range : width.

Lemma in_width_weaken w w' z : 0 <= w <= w' -> in_width w z -> in_width w' z.
Proof.
  intros [Hw Hle] [Hz Hlt]. split; [done|].
  eapply Z.lt_le_trans; [exact Hlt|]. by apply Z.pow_le_mono_r.
Qed.

(** Unfolds the wrap-around functions whose argument is provably in range. *)
Ltac unwrap :=
  repeat first
    [ rewrite u8_small by (unfold in_width in *; lia)
    | rewrite u16_small by (unfold in_width in *; lia)
    | rewrite u32_small by (unfold in_width in *; lia)
    | rewrite u64_small by (unfold in_width in *; lia) ].

(** Case analysis on the boolean comparisons of the goal and hypotheses. *)
Ltac zcases :=
  repeat match goal with
  | |- context [Z.ltb ?a ?b] => destruct (Z.ltb_spec a b)
  | |- context [Z.leb ?a ?b] => destruct (Z.leb_spec a b)
  | |- context [Z.eqb ?a ?b] => destruct (Z.eqb_spec a b)
  end.

Ltac zcases_in H :=
  repeat match type of H with
  | context [Z.ltb ?a ?b] => destruct (Z.ltb_spec a b)
  | context [Z.leb ?a ?b] => destruct (Z.leb_spec a b)
  | context [Z.eqb ?a ?b] => destruct (Z.eqb_spec a b)
  end.

(** Linear arithmetic with divisions and remainders by constants. *)
Ltac lia_div := Z.to_euclidean_division_equations; lia.

Lemma land_disjoint k a b :
  0 <= k -> 0 <= a < 2 ^ k -> Z.land a (b * 2 ^ k) = 0.
Proof.
  intros Hk Ha. apply Z.bits_inj'. intros i Hi.
  rewrite Z.land_spec, Z.bits_0, <- Z.shiftl_mul_pow2 by lia.
  destruct (Z.lt_ge_cases i k).
  - rewrite Z.shiftl_spec_low by lia. apply andb_false_r.
  - destruct (Z.eq_dec a 0) as [->|Hne]; [by rewrite Z.bits_0|].
    rewrite (Z.bits_above_log2 a i); [done|lia|].
    eapply Z.lt_le_trans; [|eassumption]. apply Z.log2_lt_pow2; lia.
Qed.

(** Exclusive or of two numbers whose bits do not overlap is their sum. *)
Lemma lxor_disjoint k a b :
  0 <= k -> 0 <= a < 2 ^ k -> Z.lxor a (b * 2 ^ k) = a + b * 2 ^ k.
Proof. intros. symmetry. apply Z.add_nocarry_lxor. by apply land_disjoint. Qed.

Lemma lxor_range k x y : 0 <= k -> 0 <= x < 2 ^ k -> 0 <= y < 2 ^ k -> 0 <= Z.lxor x y < 2 ^ k.
Proof.
  intros Hk Hx Hy.
  assert (E : Z.lxor x y mod 2 ^ k = Z.lxor x y).
  { rewrite <- Z.land_ones by done. rewrite (Z.land_comm (Z.lxor x y)). apply Z.bits_inj'. intros i Hi.
    rewrite Z.land_spec, Z.lxor_spec. destruct (Z.lt_ge_cases i k) as [Hlt|Hge].
    - by rewrite Z.ones_spec_low by lia.
    - rewrite Z.ones_spec_high by lia. rewrite <- (Z.mod_small x (2 ^ k)), <- (Z.mod_small y (2 ^ k)) by done.
      by rewrite !Z.mod_pow2_bits_high by lia. }
  rewrite <- E. apply Z.mod_pos_bound, Z.pow_pos_nonneg; lia.
Qed.

Lemma lor_disjoint k a b :
  0 <= k -> 0 <= a < 2 ^ k -> Z.lor a (b * 2 ^ k) = a + b * 2 ^ k.
Proof.
  intros. rewrite <- Z.lxor_lor, lxor_disjoint by (done || by apply land_disjoint). done.
Qed.

(** ** Lemmas on readers and writers *)

Create HintDb wire.

(** A parser never panics. *)
Definition no_panic {A} (m : Reader A) : Prop := forall r, m r <> Panic.

Lemma rbind_Ok {A B} (m : Reader A) (k : A -> Reader B) r a r' :
  m r = Ok (a, r') -> (m ≫= k) r = k a r'.
Proof. intros H. unfold mbind, reader_bind. by rewrite H. Qed.

Lemma rbind_Ok_inv {A B} (m : Reader A) (k : A -> Reader B) r p :
  (m ≫= k) r = Ok p -> exists a r', m r = Ok (a, r') /\ k a r' = Ok p.
Proof.
  unfold mbind, reader_bind. destruct (m r) as [[a r']| |]; [eauto|done..].
Qed.

(** Inverts every read of a successful parser. *)
Ltac rinv H := repeat (apply rbind_Ok_inv in H as (? & ? & ? & H)).

Lemma ReadByte_cons b r : ReadByte (b :: r) = Ok (b, r).
Proof. done. Qed.

Lemma rguard_false c e r : c = false -> rguard c e r = Ok (tt, r).
Proof. by intros ->. Qed.

Lemma rguard_Ok_inv c e r p : rguard c e r = Ok p -> c = false /\ p = (tt, r).
Proof. unfold rguard. destruct c; [done|]. by intros [= <-]. Qed.

Lemma ReadFull_app (l r : list Z) : ReadFull (length l) (l ++ r) = Ok (l, r).
Proof.
  unfold ReadFull. rewrite decide_True by (rewrite length_app; lia).
  by rewrite take_app_length, drop_app_length.
Qed.

Lemma ReadFull_app_len n (l r : list Z) : n = length l -> ReadFull n (l ++ r) = Ok (l, r).
Proof. intros ->. apply ReadFull_app. Qed.

(** An optional field: present or absent on both sides. *)
Lemma optional_read {A} (c : bool) (m : Reader A) d x l r :
  (c = true -> m (l ++ r) = Ok (x, r)) -> (c = false -> x = d) ->
  (if c then m else mret d) ((if c then l else []) ++ r) = Ok (x, r).
Proof. destruct c; intros Hm Hd; [by apply Hm|by rewrite Hd]. Qed.

Lemma writes_seq w1 w2 l1 l2 :
  writes w1 l1 -> writes w2 l2 -> writes (w1 ;;; w2) (l1 ++ l2).
Proof. intros H1 H2 b. unfold wseq. by rewrite H1, H2, app_assoc. Qed.

Lemma writes_Write l : writes (Write l) l.
Proof. done. Qed.

Lemma writes_WriteByte c : writes (WriteByte c) [c].
Proof. done. Qed.

Lemma writes_wskip : writes wskip [].
Proof. intros b. by rewrite app_nil_r. Qed.

Lemma writes_wguard c e : c = false -> writes (wguard c e) [].
Proof. intros -> b. by rewrite app_nil_r. Qed.

Lemma writes_wwhen (c : bool) w l :
  writes w l -> writes (wwhen c w) (if c then l else []).
Proof. destruct c; [done|]. intros _. apply writes_wskip. Qed.

Lemma writes_eq w l l' : l = l' -> writes w l -> writes w l'.
Proof. by intros ->. Qed.

#[export] Hint Resolve writes_Write writes_WriteByte writes_wskip : wire.

Lemma no_panic_ret {A} (a : A) : no_panic (mret a).
Proof. done. Qed.
Lemma no_panic_fail {A} e : no_panic (@rfail A e).
Proof. done. Qed.
Lemma no_panic_bind {A B} (m : Reader A) (k : A -> Reader B) :
  no_panic m -> (forall a, no_panic (k a)) -> no_panic (m ≫= k).
Proof.
  intros Hm Hk r. unfold mbind, reader_bind. specialize (Hm r).
  destruct (m r) as [[a r']| |]; [apply Hk|done..].
Qed.
Lemma no_panic_if {A} (c : bool) (m1 m2 : Reader A) :
  no_panic m1 -> no_panic m2 -> no_panic (if c then m1 else m2).
Proof. by destruct c. Qed.
Lemma no_panic_ReadByte : no_panic ReadByte.
Proof. by intros [|]. Qed.
Lemma no_panic_ReadFull n : no_panic (ReadFull n).
Proof. intros r. unfold ReadFull. case_decide; [done|]. by destruct r. Qed.
Lemma no_panic_RLen : no_panic RLen.
Proof. done. Qed.
Lemma no_panic_rguard c e : no_panic (rguard c e).
Proof. intros r. by destruct c. Qed.

#[export] Hint Resolve no_panic_ret no_panic_fail no_panic_bind no_panic_if
  no_panic_ReadByte no_panic_ReadFull no_panic_RLen no_panic_rguard : wire.

(** Proves [no_panic] of a parser built from the combinators above. *)
Ltac solve_no_panic :=
  repeat first
    [ progress intros
    | apply no_panic_bind
    | apply no_panic_if
    | solve [eauto 2 with wire] ].

(** ** What a parser leaves is a suffix of its input *)

Definition reads_on {A} (m : Reader A) : Prop :=
  forall r a r', m r = Ok (a, r') -> r' `suffix_of` r.

Lemma reads_on_ret {A} (a : A) : reads_on (mret a).
Proof. intros r x r' [= <- <-]. done. Qed.
Lemma reads_on_fail {A} e : reads_on (@rfail A e).
Proof. done. Qed.
Lemma reads_on_panic {A} : reads_on (@rpanic A).
Proof. done. Qed.
Lemma reads_on_bind {A B} (m : Reader A) (k : A -> Reader B) :
  reads_on m -> (forall a, reads_on (k a)) -> reads_on (m ≫= k).
Proof. intros Hm Hk r b r' (a & r1 & H1 & H2)%rbind_Ok_inv. etransitivity; [by eapply Hk|by eapply Hm]. Qed.
Lemma reads_on_if {A} (c : bool) (m1 m2 : Reader A) :
  reads_on m1 -> reads_on m2 -> reads_on (if c then m1 else m2).
Proof. by destruct c. Qed.
Lemma reads_on_ReadByte : reads_on ReadByte.
Proof. intros [|b r] x r' H; simplify_eq/=. by apply suffix_cons_r. Qed.
Lemma reads_on_ReadFull n : reads_on (ReadFull n).
Proof.
  intros r x r'. unfold ReadFull. case_decide; [|by destruct r].
  intros [= <- <-]. exists (take n r). by rewrite take_drop.
Qed.
Lemma reads_on_RLen : reads_on RLen.
Proof. intros r x r' [= <- <-]. done. Qed.
Lemma reads_on_rguard c e : reads_on (rguard c e).
Proof. intros r x r' [_ [= -> ->]]%rguard_Ok_inv. done. Qed.

#[export] Hint Resolve reads_on_ret reads_on_fail reads_on_panic reads_on_ReadByte reads_on_ReadFull
  reads_on_RLen reads_on_rguard : wire.

(** Proves [reads_on] of a parser built from the combinators above. *)
Ltac solve_reads_on :=
  repeat first
    [ progress intros
    | solve [eauto 2 with wire]
    | apply reads_on_bind
    | apply reads_on_if ].

(** A parser that starts with a byte reads at least that byte. *)
Lemma reads_byte_first {A} (k : Z -> Reader A) r a r' :
  (forall b, reads_on (k b)) -> (ReadByte ≫= k) r = Ok (a, r') ->
  (length r' < length r)%nat /\ r' `suffix_of` r.
Proof.
  intros Hk H. apply rbind_Ok_inv in H as (b & r1 & Hb & H). destruct r; simplify_eq/=.
  apply Hk in H. pose proof (suffix_length _ _ H). split; [lia|by apply suffix_cons_r].
Qed.

(** ** Generic lemmas on lists *)

Lemma StronglySorted_reverse {A} (R : relation A) (l : list A) :
  StronglySorted R l -> StronglySorted (flip R) (reverse l).
Proof.
  induction 1 as [|x l Hl IH Hx]; [constructor|]. rewrite reverse_cons.
  apply StronglySorted_app_2; [|done|repeat constructor].
  intros y z Hy ->%list_elem_of_singleton.
  rewrite Forall_forall in Hx. unfold flip. by apply Hx, (proj1 (elem_of_reverse _ _)).
Qed.

Lemma Forall_suffix {A} (P : A -> Prop) (l l' : list A) :
  l' `suffix_of` l -> Forall P l -> Forall P l'.
Proof. intros [k ->]. rewrite Forall_app. tauto. Qed.

Lemma Forall_prefix {A} (P : A -> Prop) (l l' : list A) :
  l' `prefix_of` l -> Forall P l -> Forall P l'.
Proof. intros [k ->]. rewrite Forall_app. tauto. Qed.

Lemma filter_none {A} (P : A -> Prop) `{!forall x, Decision (P x)} (l : list A) :
  Forall (fun x => ~ P x) l -> filter P l = [].
Proof. induction 1; [done|]. by rewrite filter_cons_False. Qed.

Lemma filter_all {A} (P : A -> Prop) `{!forall x, Decision (P x)} (l : list A) :
  Forall P l -> filter P l = l.
Proof. induction 1 as [|x l Hx Hl IH]; [done|]. by rewrite filter_cons_True, IH. Qed.

Lemma Forall_filter_of {A} (P Q : A -> Prop) `{!forall x, Decision (P x)} (l : list A) :
  Forall Q l -> Forall Q (filter P l).
Proof. rewrite !Forall_forall. intros Hl x [_ Hx]%list_elem_of_filter. by apply Hl. Qed.

Lemma filter_ext_in {A} (P Q : A -> Prop) `{!forall x, Decision (P x)} `{!forall x, Decision (Q x)} (l : list A) :
  Forall (fun x => P x <-> Q x) l -> filter P l = filter Q l.
Proof.
  induction 1 as [|x l Hx Hl IH]; [done|]. rewrite !filter_cons, IH.
  destruct (decide (P x)), (decide (Q x)); tauto.
Qed.

(** ** Parsers on arbitrary input

    [rspec Q m r]: on the bytes [r] the parser [m] does not panic, and what it
    returns satisfies [Q]. *)

Definition rspec {A} (Q : A -> list Z -> Prop) (m : Reader A) (r : list Z) : Prop :=
  match m r with Ok (a, r') => Q a r' | Err _ => True | Panic => False end.

Lemma rspec_bind {A B} (P : A -> list Z -> Prop) (Q : B -> list Z -> Prop) m (k : A -> Reader B) r :
  rspec P m r -> (forall a r', P a r' -> rspec Q (k a) r') -> rspec Q (m ≫= k) r.
Proof.
  unfold rspec, mbind, reader_bind. destruct (m r) as [[a r']| |]; [|done..].
  intros HP Hk. by apply Hk.
Qed.

Lemma rspec_ret {A} (Q : A -> list Z -> Prop) a r : Q a r -> rspec Q (mret a) r.
Proof. done. Qed.

Lemma rspec_mono {A} (P Q : A -> list Z -> Prop) m r :
  rspec P m r -> (forall a r', P a r' -> Q a r') -> rspec Q m r.
Proof. unfold rspec. destruct (m r) as [[a r']| |]; auto. Qed.

Lemma rspec_guard {A} (Q : A -> list Z -> Prop) c e (k : unit -> Reader A) r :
  (c = false -> rspec Q (k tt) r) -> rspec Q (rguard c e ≫= k) r.
Proof. unfold rspec, mbind, reader_bind, rguard. destruct c; [done|]. intros H. by apply H. Qed.

Lemma rspec_if {A} (Q : A -> list Z -> Prop) (c : bool) (m1 m2 : Reader A) r :
  (c = true -> rspec Q m1 r) -> (c = false -> rspec Q m2 r) -> rspec Q (if c then m1 else m2) r.
Proof. destruct c; auto. Qed.

Lemma rspec_ReadByte r :
  bytes_ok r -> rspec (fun b r' => in_width 8 b /\ bytes_ok r') ReadByte r.
Proof. by destruct 1. Qed.

Lemma rspec_inv {A} (Q : A -> list Z -> Prop) m r :
  rspec Q m r -> m r <> Panic /\ forall a r', m r = Ok (a, r') -> Q a r'.
Proof.
  unfold rspec. destruct (m r) as [[a r']| |]; [|done..].
  intros HQ. split; [done|]. by intros ? ? [= <- <-].
Qed.
