(* ===== verification/ByteOrder.v ===== *)
(** * Byte orders and the 16-bit float of [internal/utils]

    [byteorder.go], [byteorder_big_endian.go], [byteorder_little_endian.go] and
    [float16.go].  The Go interface [ByteOrder] is the record [ByteOrder]; its
    two implementations are [BigEndian] and [LittleEndian].  What the frame
    parsers and writers rely on is the class [ByteOrderSpec], proved for both
    implementations; the theorems of the wire files are proved against it. *)

From S2P Require Import Prelude.

(** ** The interface *)

Record ByteOrder : Type := {
  ReadUintN : Z -> Reader Z;
  ReadUint64 : Reader Z;
  ReadUint32 : Reader Z;
  ReadUint16 : Reader Z;
  WriteUint64 : Z -> Writer;
  WriteUint56 : Z -> Writer;
  WriteUint48 : Z -> Writer;
  WriteUint40 : Z -> Writer;
  WriteUint32 : Z -> Writer;
  WriteUint24 : Z -> Writer;
  WriteUint16 : Z -> Writer
}.

(** ** The big-endian implementation *)

Module BE.

(** One iteration per byte left: [res ^= uint64(bt) << ((length-1-i)*8)],
    the shift count computed in [uint8]. *)
Fixpoint ReadUintN_loop (k : nat) (length i res : Z) : Reader Z :=
  match k with
  | O => mret res
  | S k =>
      bt ← ReadByte;
      ReadUintN_loop k length (u8 (i + 1))
        (Z.lxor res (u64 (Z.shiftl bt (u8 ((length - 1 - i) * 8)))))
  end.

Definition ReadUintN (length : Z) : Reader Z :=
  ReadUintN_loop (Z.to_nat length) length 0 0.

Definition ReadUint64 : Reader Z :=
  b8 ← ReadByte; b7 ← ReadByte; b6 ← ReadByte; b5 ← ReadByte;
  b4 ← ReadByte; b3 ← ReadByte; b2 ← ReadByte; b1 ← ReadByte;
  mret (u64 (b1 + Z.shiftl b2 8 + Z.shiftl b3 16 + Z.shiftl b4 24 + Z.shiftl b5 32
             + Z.shiftl b6 40 + Z.shiftl b7 48 + Z.shiftl b8 56)).

Definition ReadUint32 : Reader Z :=
  b4 ← ReadByte; b3 ← ReadByte; b2 ← ReadByte; b1 ← ReadByte;
  mret (u32 (b1 + Z.shiftl b2 8 + Z.shiftl b3 16 + Z.shiftl b4 24)).

Definition ReadUint16 : Reader Z :=
  b2 ← ReadByte; b1 ← ReadByte;
  mret (u16 (b1 + Z.shiftl b2 8)).

Definition WriteUint64 (i : Z) : Writer :=
  Write [u8 (Z.shiftr i 56); u8 (Z.shiftr i 48); u8 (Z.shiftr i 40); u8 (Z.shiftr i 32);
         u8 (Z.shiftr i 24); u8 (Z.shiftr i 16); u8 (Z.shiftr i 8); u8 i].

Definition WriteUint56 (i : Z) : Writer :=
  if Z.shiftl 1 56 <=? i then wpanic else
  Write [u8 (Z.shiftr i 48); u8 (Z.shiftr i 40); u8 (Z.shiftr i 32);
         u8 (Z.shiftr i 24); u8 (Z.shiftr i 16); u8 (Z.shiftr i 8); u8 i].

Definition WriteUint48 (i : Z) : Writer :=
  if Z.shiftl 1 48 <=? i then wpanic else
  Write [u8 (Z.shiftr i 40); u8 (Z.shiftr i 32);
         u8 (Z.shiftr i 24); u8 (Z.shiftr i 16); u8 (Z.shiftr i 8); u8 i].

Definition WriteUint40 (i : Z) : Writer :=
  if Z.shiftl 1 40 <=? i then wpanic else
  Write [u8 (Z.shiftr i 32);
         u8 (Z.shiftr i 24); u8 (Z.shiftr i 16); u8 (Z.shiftr i 8); u8 i].

Definition WriteUint32 (i : Z) : Writer :=
  Write [u8 (Z.shiftr i 24); u8 (Z.shiftr i 16); u8 (Z.shiftr i 8); u8 i].

Definition WriteUint24 (i : Z) : Writer :=
  if Z.shiftl 1 24 <=? i then wpanic else
  Write [u8 (Z.shiftr i 16); u8 (Z.shiftr i 8); u8 i].

Definition WriteUint16 (i : Z) : Writer :=
  Write [u8 (Z.shiftr i 8); u8 i].

End BE.

Definition BigEndian : ByteOrder := {|
  ReadUintN := BE.ReadUintN; ReadUint64 := BE.ReadUint64;
  ReadUint32 := BE.ReadUint32; ReadUint16 := BE.ReadUint16;
  WriteUint64 := BE.WriteUint64; WriteUint56 := BE.WriteUint56;
  WriteUint48 := BE.WriteUint48; WriteUint40 := BE.WriteUint40;
  WriteUint32 := BE.WriteUint32; WriteUint24 := BE.WriteUint24;
  WriteUint16 := BE.WriteUint16 |}.

(** ** The little-endian implementation *)

Module LE.

Fixpoint ReadUintN_loop (k : nat) (i res : Z) : Reader Z :=
  match k with
  | O => mret res
  | S k =>
      bt ← ReadByte;
      ReadUintN_loop k (u8 (i + 1)) (Z.lxor res (u64 (Z.shiftl bt (u8 (i * 8)))))
  end.

Definition ReadUintN (length : Z) : Reader Z :=
  ReadUintN_loop (Z.to_nat length) 0 0.

Definition ReadUint64 : Reader Z :=
  b1 ← ReadByte; b2 ← ReadByte; b3 ← ReadByte; b4 ← ReadByte;
  b5 ← ReadByte; b6 ← ReadByte; b7 ← ReadByte; b8 ← ReadByte;
  mret (u64 (b1 + Z.shiftl b2 8 + Z.shiftl b3 16 + Z.shiftl b4 24 + Z.shiftl b5 32
             + Z.shiftl b6 40 + Z.shiftl b7 48 + Z.shiftl b8 56)).

Definition ReadUint32 : Reader Z :=
  b1 ← ReadByte; b2 ← ReadByte; b3 ← ReadByte; b4 ← ReadByte;
  mret (u32 (b1 + Z.shiftl b2 8 + Z.shiftl b3 16 + Z.shiftl b4 24)).

Definition ReadUint16 : Reader Z :=
  b1 ← ReadByte; b2 ← ReadByte;
  mret (u16 (b1 + Z.shiftl b2 8)).

Definition WriteUint64 (i : Z) : Writer :=
  Write [u8 i; u8 (Z.shiftr i 8); u8 (Z.shiftr i 16); u8 (Z.shiftr i 24);
         u8 (Z.shiftr i 32); u8 (Z.shiftr i 40); u8 (Z.shiftr i 48); u8 (Z.shiftr i 56)].

Definition WriteUint56 (i : Z) : Writer :=
  if Z.shiftl 1 56 <=? i then wpanic else
  Write [u8 i; u8 (Z.shiftr i 8); u8 (Z.shiftr i 16); u8 (Z.shiftr i 24);
         u8 (Z.shiftr i 32); u8 (Z.shiftr i 40); u8 (Z.shiftr i 48)].

Definition WriteUint48 (i : Z) : Writer :=
  if Z.shiftl 1 48 <=? i then wpanic else
  Write [u8 i; u8 (Z.shiftr i 8); u8 (Z.shiftr i 16); u8 (Z.shiftr i 24);
         u8 (Z.shiftr i 32); u8 (Z.shiftr i 40)].

Definition WriteUint40 (i : Z) : Writer :=
  if Z.shiftl 1 40 <=? i then wpanic else
  Write [u8 i; u8 (Z.shiftr i 8); u8 (Z.shiftr i 16);
         u8 (Z.shiftr i 24); u8 (Z.shiftr i 32)].

Definition WriteUint32 (i : Z) : Writer :=
  Write [u8 i; u8 (Z.shiftr i 8); u8 (Z.shiftr i 16); u8 (Z.shiftr i 24)].

Definition WriteUint24 (i : Z) : Writer :=
  if Z.shiftl 1 24 <=? i then wpanic else
  Write [u8 i; u8 (Z.shiftr i 8); u8 (Z.shiftr i 16)].

Definition WriteUint16 (i : Z) : Writer :=
  Write [u8 i; u8 (Z.shiftr i 8)].

End LE.

Definition LittleEndian : ByteOrder := {|
  ReadUintN := LE.ReadUintN; ReadUint64 := LE.ReadUint64;
  ReadUint32 := LE.ReadUint32; ReadUint16 := LE.ReadUint16;
  WriteUint64 := LE.WriteUint64; WriteUint56 := LE.WriteUint56;
  WriteUint48 := LE.WriteUint48; WriteUint40 := LE.WriteUint40;
  WriteUint32 := LE.WriteUint32; WriteUint24 := LE.WriteUint24;
  WriteUint16 := LE.WriteUint16 |}.

(** ** The choice of the byte order by version *)

Definition Version39 : Z := 39.

Definition GetByteOrder (v : Z) : ByteOrder :=
  if v <? Version39 then LittleEndian else BigEndian.

(** The switch over the length of a packet number that the frame writers and the
    public header repeat: one byte, or the write of the length's width;
    [WriteUint48] gets the value masked to 48 bits where [masked] is set. *)
Definition write_by_length (masked : bool) (version len x : Z) (default : Writer) : Writer :=
  if len =? 1 then WriteByte (u8 x)
  else if len =? 2 then WriteUint16 (GetByteOrder version) (u16 x)
  else if len =? 4 then WriteUint32 (GetByteOrder version) (u32 x)
  else if len =? 6 then
    WriteUint48 (GetByteOrder version) (if masked then Z.land x (Z.shiftl 1 48 - 1) else x)
  else default.

(** ** The QUIC 16-bit float *)

Definition uFloat16ExponentBits : Z := 5.
Definition uFloat16MaxExponent : Z := Z.shiftl 1 uFloat16ExponentBits - 2.
Definition uFloat16MantissaBits : Z := 16 - uFloat16ExponentBits.
Definition uFloat16MantissaEffectiveBits : Z := uFloat16MantissaBits + 1.
Definition uFloat16MaxValue : Z :=
  Z.shiftl (Z.shiftl 1 uFloat16MantissaEffectiveBits - 1) uFloat16MaxExponent.

(** The value of the 16 bits [val], after [ReadUint16]. *)
Definition ufloat16_decode (val : Z) : Z :=
  let res := val in
  if res <? Z.shiftl 1 uFloat16MantissaEffectiveBits then res
  else
    let exponent := u16 (Z.shiftr val uFloat16MantissaBits - 1) in
    let res := u64 (res - u64 (Z.shiftl exponent uFloat16MantissaBits)) in
    u64 (Z.shiftl res exponent).

Definition readUfloat16 (byteOrder : ByteOrder) : Reader Z :=
  val ← ReadUint16 byteOrder;
  mret (ufloat16_decode val).

(** [for offset := uint16(16); offset > 0; offset /= 2], one list entry per
    iteration; the state is [(exponent, value)]. *)
Fixpoint writeUfloat16_loop (offsets : list Z) (exponent value : Z) : Z * Z :=
  match offsets with
  | [] => (exponent, value)
  | offset :: offsets =>
      if Z.shiftl 1 (uFloat16MantissaBits + offset) <=? value
      then writeUfloat16_loop offsets (u16 (exponent + offset)) (Z.shiftr value offset)
      else writeUfloat16_loop offsets exponent value
  end.

Definition ufloat16_encode (value : Z) : Z :=
  if value <? Z.shiftl 1 uFloat16MantissaEffectiveBits then u16 value
  else if uFloat16MaxValue <=? value then 2 ^ 16 - 1
  else
    let '(exponent, value) := writeUfloat16_loop [16; 8; 4; 2; 1] 0 value in
    u16 (u16 value + u16 (Z.shiftl exponent uFloat16MantissaBits)).

Definition writeUfloat16 (byteOrder : ByteOrder) (value : Z) : Writer :=
  WriteUint16 byteOrder (ufloat16_encode value).

(** ** Byte strings as numbers *)

Fixpoint le_split (n : nat) (x : Z) : list Z :=
  match n with
  | O => []
  | S n => u8 x :: le_split n (Z.shiftr x 8)
  end.

Fixpoint le_combine (l : list Z) : Z :=
  match l with
  | [] => 0
  | b :: l => b + 2 ^ 8 * le_combine l
  end.

Lemma length_le_split n x : length (le_split n x) = n.
Proof. revert x; induction n; intros; simpl; auto. Qed.

Lemma le_split_ok n x : bytes_ok (le_split n x).
Proof.
  revert x; induction n; intros; constructor; [apply u8_range|apply IHn].
Qed.

Lemma pow8_succ (n : nat) : 2 ^ (8 * Z.of_nat (S n)) = 2 ^ 8 * 2 ^ (8 * Z.of_nat n).
Proof. rewrite <- Z.pow_add_r by lia. f_equal. lia. Qed.

Lemma pow8_pos (n : nat) : 0 < 2 ^ (8 * Z.of_nat n).
Proof. apply Z.pow_pos_nonneg; lia. Qed.

Lemma le_combine_split n x : le_combine (le_split n x) = x mod 2 ^ (8 * Z.of_nat n).
Proof.
  revert x; induction n as [|n IH]; intros x; [by rewrite Z.mod_1_r|].
  cbn [le_split le_combine]. rewrite IH, pow8_succ.
  rewrite Z.rem_mul_r by (pose proof (pow8_pos n); lia).
  unfold u8. rewrite Z.shiftr_div_pow2 by lia. done.
Qed.

Lemma le_combine_bound l : bytes_ok l -> 0 <= le_combine l < 2 ^ (8 * Z.of_nat (length l)).
Proof.
  induction 1 as [|b l Hb Hl IH]; [simpl; lia|].
  cbn [le_combine length]. rewrite pow8_succ. unfold in_width in Hb. nia.
Qed.

Lemma le_combine_app l1 l2 :
  le_combine (l1 ++ l2) = le_combine l1 + 2 ^ (8 * Z.of_nat (length l1)) * le_combine l2.
Proof.
  induction l1 as [|b l1 IH]; [simpl; lia|].
  cbn [app le_combine length]. rewrite IH, pow8_succ. lia.
Qed.

Lemma le_split_combine l : bytes_ok l -> le_split (length l) (le_combine l) = l.
Proof.
  induction 1 as [|b l Hb Hl IH]; [done|].
  cbn [length le_combine le_split]. unfold in_width in Hb. f_equal.
  - unfold u8. rewrite Z.mul_comm, Z_mod_plus_full. by apply Z.mod_small.
  - rewrite Z.shiftr_div_pow2, Z.mul_comm, Z.div_add, Z.div_small, Z.add_0_l by lia.
    exact IH.
Qed.

Lemma bytes_ok_rev l : bytes_ok l -> bytes_ok (rev l).
Proof. apply List.Forall_rev. Qed.

(** ** What a byte order promises

    [bo_enc n x] are the [n] bytes of [x], [bo_dec] the number that bytes
    stand for. *)

Class ByteOrderSpec (bo : ByteOrder) : Type := {
  bo_enc : nat -> Z -> list Z;
  bo_dec : list Z -> Z;
  bo_enc_length n x : length (bo_enc n x) = n;
  bo_enc_ok n x : bytes_ok (bo_enc n x);
  bo_enc_0 x : bo_enc 0 x = [];
  bo_enc_1 x : bo_enc 1 x = [u8 x];
  bo_dec_enc n x : in_width (8 * Z.of_nat n) x -> bo_dec (bo_enc n x) = x;
  bo_enc_dec l : bytes_ok l -> bo_enc (length l) (bo_dec l) = l;
  bo_dec_bound l : bytes_ok l -> in_width (8 * Z.of_nat (length l)) (bo_dec l);
  bo_ReadUintN l r : bytes_ok l -> (length l <= 8)%nat ->
    ReadUintN bo (Z.of_nat (length l)) (l ++ r) = Ok (bo_dec l, r);
  bo_ReadUint64 l r : bytes_ok l -> length l = 8%nat ->
    ReadUint64 bo (l ++ r) = Ok (bo_dec l, r);
  bo_ReadUint32 l r : bytes_ok l -> length l = 4%nat ->
    ReadUint32 bo (l ++ r) = Ok (bo_dec l, r);
  bo_ReadUint16 l r : bytes_ok l -> length l = 2%nat ->
    ReadUint16 bo (l ++ r) = Ok (bo_dec l, r);
  bo_ReadUintN_short n r : (length r < n)%nat -> ReadUintN bo (Z.of_nat n) r = Err EOF;
  bo_ReadUint64_short r : (length r < 8)%nat -> ReadUint64 bo r = Err EOF;
  bo_ReadUint32_short r : (length r < 4)%nat -> ReadUint32 bo r = Err EOF;
  bo_ReadUint16_short r : (length r < 2)%nat -> ReadUint16 bo r = Err EOF;
  bo_ReadUintN_no_panic n : no_panic (ReadUintN bo n);
  bo_ReadUint64_no_panic : no_panic (ReadUint64 bo);
  bo_ReadUint32_no_panic : no_panic (ReadUint32 bo);
  bo_ReadUint16_no_panic : no_panic (ReadUint16 bo);
  bo_WriteUint64 x : writes (WriteUint64 bo x) (bo_enc 8 x);
  bo_WriteUint56 x : in_width 56 x -> writes (WriteUint56 bo x) (bo_enc 7 x);
  bo_WriteUint48 x : in_width 48 x -> writes (WriteUint48 bo x) (bo_enc 6 x);
  bo_WriteUint40 x : in_width 40 x -> writes (WriteUint40 bo x) (bo_enc 5 x);
  bo_WriteUint32 x : writes (WriteUint32 bo x) (bo_enc 4 x);
  bo_WriteUint24 x : in_width 24 x -> writes (WriteUint24 bo x) (bo_enc 3 x);
  bo_WriteUint16 x : writes (WriteUint16 bo x) (bo_enc 2 x)
}.

(** ** Both implementations keep the promise *)

Lemma shiftl_byte_range b k :
  in_width 8 b -> 0 <= k <= 56 -> u64 (Z.shiftl b k) = b * 2 ^ k.
Proof.
  intros [Hb Hb'] Hk. rewrite Z.shiftl_mul_pow2 by lia. apply u64_small.
  pose proof (Z.pow_pos_nonneg 2 k ltac:(lia) ltac:(lia)).
  assert (2 ^ k <= 2 ^ 56) by (apply Z.pow_le_mono_r; lia). nia.
Qed.

Module LEspec.

Lemma LE_loop_spec l : forall r i res,
  bytes_ok l -> (length l + i <= 8)%nat -> in_width (8 * Z.of_nat i) res ->
  LE.ReadUintN_loop (length l) (Z.of_nat i) res (l ++ r)
  = Ok (res + 2 ^ (8 * Z.of_nat i) * le_combine l, r).
Proof.
  induction l as [|b l IH]; intros r i res Hok Hlen Hres.
  - simpl. rewrite Z.mul_0_r, Z.add_0_r. done.
  - apply Forall_cons in Hok as [Hb Hok]. cbn [length] in Hlen.
    cbn [length LE.ReadUintN_loop app].
    rewrite (rbind_Ok _ _ _ b (l ++ r)) by done.
    unwrap. rewrite shiftl_byte_range by (done || lia).
    replace (Z.of_nat i * 8) with (8 * Z.of_nat i) by lia.
    rewrite lxor_disjoint by (done || lia).
    replace (Z.of_nat i + 1) with (Z.of_nat (S i)) by lia.
    pose proof (pow8_succ i). pose proof (pow8_pos i). unfold in_width in Hb, Hres.
    rewrite IH by (done || lia || (unfold in_width; nia)).
    cbn [le_combine]. do 2 f_equal. nia.
Qed.

Lemma LE_loop_short k : forall r i res,
  (length r < k)%nat -> LE.ReadUintN_loop k i res r = Err EOF.
Proof.
  induction k as [|k IH]; intros r i res Hlt; [lia|].
  destruct r as [|b r]; [done|]. cbn [length] in Hlt. cbn [LE.ReadUintN_loop].
  rewrite (rbind_Ok _ _ _ b r) by done. apply IH. lia.
Qed.

Lemma LE_loop_no_panic k : forall i res, no_panic (LE.ReadUintN_loop k i res).
Proof. induction k; simpl; solve_no_panic; apply IHk. Qed.

End LEspec.

Module BEspec.

Lemma BE_loop_spec l : forall r i res,
  bytes_ok l -> (length l + i <= 8)%nat -> in_width 64 res ->
  (2 ^ (8 * Z.of_nat (length l)) | res) ->
  BE.ReadUintN_loop (length l) (Z.of_nat (length l + i)) (Z.of_nat i) res (l ++ r)
  = Ok (res + le_combine (rev l), r).
Proof.
  induction l as [|b l IH]; intros r i res Hok Hlen Hres [q Hq].
  - simpl. rewrite Z.add_0_r. done.
  - apply Forall_cons in Hok as [Hb Hok]. cbn [length] in *.
    cbn [BE.ReadUintN_loop app].
    rewrite (rbind_Ok _ _ _ b (l ++ r)) by done.
    replace ((Z.of_nat (S (length l) + i) - 1 - Z.of_nat i) * 8)
      with (8 * Z.of_nat (length l)) by lia.
    unwrap. rewrite shiftl_byte_range by (done || lia).
    rewrite pow8_succ in Hq. pose proof (pow8_pos (length l)) as Hpos.
    set (P := 2 ^ (8 * Z.of_nat (length l))) in *. unfold in_width in Hb.
    assert (Hx : Z.lxor res (b * P) = res + b * P).
    { symmetry. apply Z.add_nocarry_lxor. rewrite Z.land_comm.
      replace res with (q * 2 ^ (8 + 8 * Z.of_nat (length l)))
        by (rewrite Z.pow_add_r by lia; fold P; lia).
      apply land_disjoint; [lia|]. rewrite Z.pow_add_r by lia. fold P. nia. }
    rewrite Hx.
    replace (Z.of_nat i + 1) with (Z.of_nat (S i)) by lia.
    replace (S (length l) + i)%nat with (length l + S i)%nat by lia.
    assert (Hb64 : in_width 64 (res + b * P)).
    { unfold in_width in *.
      assert (HR : P * 2 ^ 8 * 2 ^ (8 * (7 - Z.of_nat (length l))) = 2 ^ 64)
        by (unfold P; rewrite <- !Z.pow_add_r by lia; f_equal; lia).
      set (R := 2 ^ (8 * (7 - Z.of_nat (length l)))) in *.
      assert (0 <= q < R) by nia.
      assert ((q + 1) * (P * 2 ^ 8) <= R * (P * 2 ^ 8)) by (apply Z.mul_le_mono_nonneg_r; lia).
      nia. }
    rewrite IH by (done || lia || (exists (q * 2 ^ 8 + b); lia)).
    cbn [rev]. rewrite le_combine_app, length_rev. fold P. cbn [le_combine].
    do 2 f_equal. lia.
Qed.

Lemma BE_loop_short k : forall len r i res,
  (length r < k)%nat -> BE.ReadUintN_loop k len i res r = Err EOF.
Proof.
  induction k as [|k IH]; intros len r i res Hlt; [lia|].
  destruct r as [|b r]; [done|]. cbn [length] in Hlt. cbn [BE.ReadUintN_loop].
  rewrite (rbind_Ok _ _ _ b r) by done. apply IH. lia.
Qed.

Lemma BE_loop_no_panic k : forall len i res, no_panic (BE.ReadUintN_loop k len i res).
Proof. induction k; simpl; solve_no_panic; apply IHk. Qed.

End BEspec.

(** A fixed-width read is the chain of its [ReadByte]s. *)
Ltac read_bytes l :=
  repeat (destruct l as [|? l]; [done|]); destruct l; [|done].

(** Splits [bytes_ok] of an explicit list. *)
Ltac split_bytes_ok H :=
  repeat (apply Forall_cons in H; destruct H as [? H]); clear H.

(** The sum of shifted bytes that a fixed-width read returns. *)
Ltac solve_combine :=
  rewrite ?Z.shiftl_mul_pow2 by lia; unfold in_width in *;
  cbn [le_combine rev app]; unwrap; lia.

Ltac solve_short r :=
  repeat (destruct r as [|? r]; [done|]); simpl in *; lia.

Lemma writes_guarded k i w l :
  in_width k i -> 0 <= k -> writes w l -> writes (if Z.shiftl 1 k <=? i then wpanic else w) l.
Proof.
  intros [_ Hi] Hk Hw. rewrite Z.shiftl_mul_pow2, Z.mul_1_l by done.
  destruct (Z.leb_spec (2 ^ k) i); [lia|done].
Qed.

Ltac solve_fixed_read l Hl op :=
  read_bytes l; split_bytes_ok Hl; unfold op;
  cbv [app mbind reader_bind ReadByte mret reader_ret]; do 2 f_equal; solve_combine.

Ltac solve_fixed_write :=
  intros; try (apply writes_guarded; [done|lia|]);
  eapply writes_eq; [|apply writes_Write];
  cbn [le_split rev app]; by rewrite ?Z.shiftr_shiftr by lia.

#[export] Instance LittleEndian_spec : ByteOrderSpec LittleEndian.
Proof.
  refine {| bo_enc := le_split; bo_dec := le_combine |}; cbn -[Z.pow].
  - apply length_le_split.
  - apply le_split_ok.
  - done.
  - done.
  - intros n x Hx. rewrite le_combine_split. by apply Z.mod_small.
  - apply le_split_combine.
  - intros l Hl. by apply le_combine_bound.
  - intros l r Hl Hlen. unfold LE.ReadUintN. rewrite Nat2Z.id.
    etransitivity; [apply (LEspec.LE_loop_spec l r 0 0); done || lia|].
    do 2 f_equal. change (2 ^ (8 * Z.of_nat 0)) with 1. lia.
  - intros l r Hl Hlen. solve_fixed_read l Hl LE.ReadUint64.
  - intros l r Hl Hlen. solve_fixed_read l Hl LE.ReadUint32.
  - intros l r Hl Hlen. solve_fixed_read l Hl LE.ReadUint16.
  - intros n r Hn. unfold LE.ReadUintN. rewrite Nat2Z.id. by apply LEspec.LE_loop_short.
  - intros r Hr. solve_short r.
  - intros r Hr. solve_short r.
  - intros r Hr. solve_short r.
  - intros n. apply LEspec.LE_loop_no_panic.
  - unfold LE.ReadUint64. solve_no_panic.
  - unfold LE.ReadUint32. solve_no_panic.
  - unfold LE.ReadUint16. solve_no_panic.
  - unfold LE.WriteUint64. solve_fixed_write.
  - unfold LE.WriteUint56. solve_fixed_write.
  - unfold LE.WriteUint48. solve_fixed_write.
  - unfold LE.WriteUint40. solve_fixed_write.
  - unfold LE.WriteUint32. solve_fixed_write.
  - unfold LE.WriteUint24. solve_fixed_write.
  - unfold LE.WriteUint16. solve_fixed_write.
Defined.

Definition be_split (n : nat) (x : Z) : list Z := rev (le_split n x).
Definition be_combine (l : list Z) : Z := le_combine (rev l).

#[export] Instance BigEndian_spec : ByteOrderSpec BigEndian.
Proof.
  refine {| bo_enc := be_split; bo_dec := be_combine |}; unfold be_split, be_combine;
    cbn -[Z.pow].
  - intros. by rewrite length_rev, length_le_split.
  - intros. apply bytes_ok_rev, le_split_ok.
  - done.
  - done.
  - intros n x Hx. rewrite rev_involutive, le_combine_split. by apply Z.mod_small.
  - intros l Hl. rewrite <- (length_rev l), le_split_combine by by apply bytes_ok_rev.
    apply rev_involutive.
  - intros l Hl. rewrite <- length_rev. by apply le_combine_bound, bytes_ok_rev.
  - intros l r Hl Hlen. unfold BE.ReadUintN. rewrite Nat2Z.id.
    pose proof (BEspec.BE_loop_spec l r 0 0 Hl) as H. rewrite Nat.add_0_r in H.
    apply H; [lia|done|apply Z.divide_0_r].
  - intros l r Hl Hlen. solve_fixed_read l Hl BE.ReadUint64.
  - intros l r Hl Hlen. solve_fixed_read l Hl BE.ReadUint32.
  - intros l r Hl Hlen. solve_fixed_read l Hl BE.ReadUint16.
  - intros n r Hn. unfold BE.ReadUintN. rewrite Nat2Z.id. by apply BEspec.BE_loop_short.
  - intros r Hr. solve_short r.
  - intros r Hr. solve_short r.
  - intros r Hr. solve_short r.
  - intros n. apply BEspec.BE_loop_no_panic.
  - unfold BE.ReadUint64. solve_no_panic.
  - unfold BE.ReadUint32. solve_no_panic.
  - unfold BE.ReadUint16. solve_no_panic.
  - unfold BE.WriteUint64. solve_fixed_write.
  - unfold BE.WriteUint56. solve_fixed_write.
  - unfold BE.WriteUint48. solve_fixed_write.
  - unfold BE.WriteUint40. solve_fixed_write.
  - unfold BE.WriteUint32. solve_fixed_write.
  - unfold BE.WriteUint24. solve_fixed_write.
  - unfold BE.WriteUint16. solve_fixed_write.
Defined.

#[export] Instance GetByteOrder_spec v : ByteOrderSpec (GetByteOrder v).
Proof. unfold GetByteOrder. destruct (v <? Version39); apply _. Defined.

#[export] Hint Extern 1 (no_panic (ReadUintN _ _)) => apply bo_ReadUintN_no_panic : wire.
#[export] Hint Extern 1 (no_panic (ReadUint64 _)) => apply bo_ReadUint64_no_panic : wire.
#[export] Hint Extern 1 (no_panic (ReadUint32 _)) => apply bo_ReadUint32_no_panic : wire.
#[export] Hint Extern 1 (no_panic (ReadUint16 _)) => apply bo_ReadUint16_no_panic : wire.

(** Reading an integer leaves a suffix of the input. *)
Lemma LE_loop_reads_on k : forall i res, reads_on (LE.ReadUintN_loop k i res).
Proof. induction k; simpl; solve_reads_on; apply IHk. Qed.
Lemma BE_loop_reads_on k : forall len i res, reads_on (BE.ReadUintN_loop k len i res).
Proof. induction k; simpl; solve_reads_on; apply IHk. Qed.

Lemma ReadUintN_reads_on v n : reads_on (ReadUintN (GetByteOrder v) n).
Proof.
  unfold GetByteOrder. case_match; [apply LE_loop_reads_on|apply BE_loop_reads_on].
Qed.
Lemma ReadUint64_reads_on v : reads_on (ReadUint64 (GetByteOrder v)).
Proof. unfold GetByteOrder. case_match; cbv [ReadUint64 LittleEndian BigEndian LE.ReadUint64 BE.ReadUint64]; solve_reads_on. Qed.
Lemma ReadUint32_reads_on v : reads_on (ReadUint32 (GetByteOrder v)).
Proof. unfold GetByteOrder. case_match; cbv [ReadUint32 LittleEndian BigEndian LE.ReadUint32 BE.ReadUint32]; solve_reads_on. Qed.
Lemma ReadUint16_reads_on v : reads_on (ReadUint16 (GetByteOrder v)).
Proof. unfold GetByteOrder. case_match; cbv [ReadUint16 LittleEndian BigEndian LE.ReadUint16 BE.ReadUint16]; solve_reads_on. Qed.

#[export] Hint Resolve ReadUintN_reads_on ReadUint64_reads_on ReadUint32_reads_on ReadUint16_reads_on : wire.
#[export] Hint Resolve bo_WriteUint64 bo_WriteUint56 bo_WriteUint48 bo_WriteUint40
  bo_WriteUint32 bo_WriteUint24 bo_WriteUint16 bo_enc_ok : wire.

(** ** Reading back what was written *)

Section ReadBack.
Context (bo : ByteOrder) `{!ByteOrderSpec bo}.

Lemma ReadUintN_enc n x r k :
  k = Z.of_nat n -> (n <= 8)%nat -> in_width (8 * Z.of_nat n) x ->
  ReadUintN bo k (bo_enc n x ++ r) = Ok (x, r).
Proof.
  intros -> Hn Hx. pose proof (bo_ReadUintN (bo_enc n x) r (bo_enc_ok n x)) as H.
  rewrite bo_enc_length, bo_dec_enc in H by done. by apply H.
Qed.

Lemma ReadUint64_enc x r : in_width 64 x -> ReadUint64 bo (bo_enc 8 x ++ r) = Ok (x, r).
Proof.
  intros Hx. rewrite bo_ReadUint64 by (apply bo_enc_ok || apply bo_enc_length).
  by rewrite bo_dec_enc.
Qed.

Lemma ReadUint32_enc x r : in_width 32 x -> ReadUint32 bo (bo_enc 4 x ++ r) = Ok (x, r).
Proof.
  intros Hx. rewrite bo_ReadUint32 by (apply bo_enc_ok || apply bo_enc_length).
  by rewrite bo_dec_enc.
Qed.

Lemma ReadUint16_enc x r : in_width 16 x -> ReadUint16 bo (bo_enc 2 x ++ r) = Ok (x, r).
Proof.
  intros Hx. rewrite bo_ReadUint16 by (apply bo_enc_ok || apply bo_enc_length).
  by rewrite bo_dec_enc.
Qed.

(** A read of [n] bytes succeeds exactly when [n] bytes are left, takes [n]
    bytes, and returns a number of [n] bytes. *)
Lemma ReadUintN_inv n r x r' :
  bytes_ok r -> (n <= 8)%nat -> ReadUintN bo (Z.of_nat n) r = Ok (x, r') ->
  in_width (8 * Z.of_nat n) x /\ r' = drop n r /\ (n <= length r)%nat.
Proof.
  intros Hr Hn H. destruct (le_lt_dec n (length r)) as [Hle|Hlt].
  2:{ by rewrite bo_ReadUintN_short in H by done. }
  assert (Hl : length (take n r) = n) by (rewrite length_take; lia).
  assert (Hok : bytes_ok (take n r)) by by apply Forall_take.
  rewrite <- (take_drop n r) in H. rewrite <- Hl in H at 1.
  rewrite bo_ReadUintN in H by (done || lia). injection H as <- <-.
  split; [|done]. rewrite <- Hl at 1. by apply bo_dec_bound.
Qed.

Lemma rspec_ReadUintN n r :
  bytes_ok r -> (n <= 8)%nat ->
  rspec (fun x r' => in_width (8 * Z.of_nat n) x /\ bytes_ok r') (ReadUintN bo (Z.of_nat n)) r.
Proof.
  intros Hr Hn. unfold rspec. pose proof (bo_ReadUintN_no_panic (Z.of_nat n) r).
  destruct (ReadUintN bo _ r) as [[x r']| |] eqn:H'; [|done|done].
  destruct (ReadUintN_inv n r x r') as (? & -> & _); [done..|]. split; [done|by apply Forall_drop].
Qed.

Lemma rspec_ReadUint16 r :
  bytes_ok r -> rspec (fun x r' => in_width 16 x /\ bytes_ok r') (ReadUint16 bo) r.
Proof.
  intros Hr. unfold rspec. destruct (le_lt_dec 2 (length r)) as [Hle|Hlt].
  - rewrite <- (take_drop 2 r).
    assert (Hl : length (take 2 r) = 2%nat) by (rewrite length_take; lia).
    assert (Hok : bytes_ok (take 2 r)) by by apply Forall_take.
    rewrite bo_ReadUint16 by done. split; [|by apply Forall_drop].
    pose proof (bo_dec_bound _ Hok) as Hb. by rewrite Hl in Hb.
  - by rewrite bo_ReadUint16_short.
Qed.

Lemma rspec_readUfloat16 r :
  bytes_ok r -> rspec (fun _ r' => bytes_ok r') (readUfloat16 bo) r.
Proof.
  intros Hr. eapply rspec_bind; [by apply rspec_ReadUint16|]. intros x r' [_ ?]. done.
Qed.

End ReadBack.

Lemma bo_enc_mod (bo : ByteOrder) `{!ByteOrderSpec bo} n x :
  bo_enc n (bo_dec (bo_enc n x)) = bo_enc n x.
Proof. rewrite <- (bo_enc_length n x) at 1. apply bo_enc_dec, bo_enc_ok. Qed.

Lemma land_ones48 x : Z.land x (Z.shiftl 1 48 - 1) = x mod 2 ^ 48.
Proof. change (Z.shiftl 1 48 - 1) with (Z.ones 48). by apply Z.land_ones. Qed.

Lemma writes_by_length masked version len x default :
  (len = 1 \/ len = 2 \/ len = 4 \/ len = 6) -> in_width (8 * len) x ->
  writes (write_by_length masked version len x default)
    (bo_enc (bo:=GetByteOrder version) (Z.to_nat len) x).
Proof.
  unfold write_by_length.
  intros [->|[->|[->| ->]]] Hx; cbn [Z.eqb Pos.eqb]; unfold in_width in Hx.
  - rewrite u8_small by lia. change (Z.to_nat 1) with 1%nat. rewrite bo_enc_1.
    rewrite u8_small by lia. apply writes_WriteByte.
  - rewrite u16_small by lia. apply bo_WriteUint16.
  - rewrite u32_small by lia. apply bo_WriteUint32.
  - assert (Hm : (if masked then Z.land x (Z.shiftl 1 48 - 1) else x) = x).
    { destruct masked; [|done]. rewrite land_ones48. by apply Z.mod_small. }
    rewrite Hm. by apply bo_WriteUint48.
Qed.

(** A masked write never panics and always has its length. *)
Lemma writes_by_length_masked version len x default :
  (len = 1 \/ len = 2 \/ len = 4 \/ len = 6) ->
  exists l, length l = Z.to_nat len /\ writes (write_by_length true version len x default) l.
Proof.
  unfold write_by_length. intros [->|[->|[->| ->]]]; cbn [Z.eqb Pos.eqb].
  - by exists [u8 x].
  - eexists. split; [|apply bo_WriteUint16]. apply bo_enc_length.
  - eexists. split; [|apply bo_WriteUint32]. apply bo_enc_length.
  - eexists. split; [|apply bo_WriteUint48; rewrite land_ones48; apply Z.mod_pos_bound; lia].
    apply bo_enc_length.
Qed.

(** ** The 16-bit float *)

Module UFloat16.

Lemma MaxValue_eq : uFloat16MaxValue = (2 ^ 12 - 1) * 2 ^ 30.
Proof. done. Qed.

(** One iteration of the binary search halves the range of the highest bit. *)
Lemma search_step offset v :
  0 <= offset -> 2 ^ 11 <= v < 2 ^ (11 + 2 * offset) ->
  2 ^ (11 + offset) <= v -> 2 ^ 11 <= Z.shiftr v offset < 2 ^ (11 + offset).
Proof.
  intros Ho Hv Hge. rewrite Z.shiftr_div_pow2 by done.
  pose proof (Z.pow_pos_nonneg 2 offset ltac:(lia) Ho). split.
  - apply Z.div_le_lower_bound; [lia|]. rewrite <- Z.pow_add_r by lia. rewrite Z.add_comm. done.
  - apply Z.div_lt_upper_bound; [lia|]. rewrite <- Z.pow_add_r by lia.
    replace (offset + (11 + offset)) with (11 + 2 * offset) by lia. apply Hv.
Qed.

(** The offsets of the loop, each half of the one before, ending at 1. *)
Fixpoint halving (top : Z) (offsets : list Z) : Prop :=
  match offsets with
  | [] => top = 1
  | o :: rest => top = 2 * o /\ 0 <= o /\ halving o rest
  end.

Lemma loop_spec offsets : forall top e v,
  halving top offsets -> 0 <= e -> e + Z.of_nat (sum_list_with Z.to_nat offsets) < 2 ^ 16 ->
  2 ^ 11 <= v < 2 ^ (11 + top) ->
  exists s, writeUfloat16_loop offsets e v = (e + s, Z.shiftr v s)
    /\ 0 <= s <= Z.of_nat (sum_list_with Z.to_nat offsets) /\ 2 ^ 11 <= Z.shiftr v s < 2 ^ 12.
Proof.
  induction offsets as [|o offsets IH]; intros top e v Hh He Hsum Hv.
  - simpl in Hh. subst. exists 0. rewrite Z.shiftr_0_r. simpl. rewrite Z.add_0_r.
    split; [done|]. split; [lia|]. exact Hv.
  - destruct Hh as (-> & Ho & Hh). cbn [sum_list_with] in *.
    cbn [writeUfloat16_loop]. rewrite Z.shiftl_mul_pow2, Z.mul_1_l
      by (unfold uFloat16MantissaBits, uFloat16ExponentBits; lia).
    change uFloat16MantissaBits with 11.
    destruct (Z.leb_spec (2 ^ (11 + o)) v) as [Hge|Hlt].
    + rewrite u16_small by lia.
      destruct (IH o (e + o) (Z.shiftr v o)) as (s & -> & Hs & Hv');
        [done|lia|lia|by apply search_step|].
      exists (o + s). rewrite Z.shiftr_shiftr in * by lia.
      rewrite Z.add_assoc. split; [done|]. split; [lia|done].
    + destruct (IH o e v) as (s & -> & Hs & Hv'); [done|lia|lia|lia|].
      exists s. split; [done|]. split; [lia|done].
Qed.

(** The encoding of a value that is neither denormal nor clamped. *)
Lemma encode_normal v :
  2 ^ 12 <= v < uFloat16MaxValue ->
  exists s, 1 <= s <= 30 /\ 2 ^ 11 <= Z.shiftr v s < 2 ^ 12 /\
    ufloat16_encode v = Z.shiftr v s + s * 2 ^ 11.
Proof.
  rewrite MaxValue_eq. intros Hv. unfold ufloat16_encode.
  change (Z.shiftl 1 uFloat16MantissaEffectiveBits) with (2 ^ 12).
  rewrite MaxValue_eq. destruct (Z.ltb_spec v (2 ^ 12)); [lia|].
  destruct (Z.leb_spec ((2 ^ 12 - 1) * 2 ^ 30) v); [lia|].
  destruct (loop_spec [16; 8; 4; 2; 1] 32 0 v) as (s & -> & Hs & Hv').
  { simpl; lia. } { lia. } { simpl; lia. } { lia. }
  rewrite Z.add_0_l. change (Z.of_nat _) with 31 in Hs.
  assert (1 <= s <= 30).
  { rewrite Z.shiftr_div_pow2 in Hv' by lia. split.
    - destruct (Z.eq_dec s 0) as [->|]; [|lia]. rewrite Z.div_1_r in Hv'. lia.
    - destruct (Z.eq_dec s 31) as [->|]; [|lia].
      assert (v / 2 ^ 31 < 2 ^ 11) by (apply Z.div_lt_upper_bound; lia). lia. }
  exists s. split; [done|]. split; [done|].
  change uFloat16MantissaBits with 11. rewrite Z.shiftl_mul_pow2 by lia.
  rewrite (u16_small (Z.shiftr v s)), (u16_small (s * 2 ^ 11)), u16_small by lia. done.
Qed.

Lemma decode_normal s m :
  1 <= s <= 30 -> 2 ^ 11 <= m < 2 ^ 12 -> ufloat16_decode (m + s * 2 ^ 11) = m * 2 ^ s.
Proof.
  intros Hs Hm. unfold ufloat16_decode.
  change (Z.shiftl 1 uFloat16MantissaEffectiveBits) with (2 ^ 12).
  destruct (Z.ltb_spec (m + s * 2 ^ 11) (2 ^ 12)); [lia|].
  change uFloat16MantissaBits with 11.
  assert (Hsh : Z.shiftr (m + s * 2 ^ 11) 11 = s + 1).
  { rewrite Z.shiftr_div_pow2 by lia. symmetry. apply (Z.div_unique _ _ _ (m - 2 ^ 11)); lia. }
  rewrite Hsh. replace (s + 1 - 1) with s by lia. rewrite u16_small by lia.
  rewrite (Z.shiftl_mul_pow2 s) by lia. rewrite (u64_small (s * _)) by lia.
  replace (m + s * 2 ^ 11 - s * 2 ^ 11) with m by lia. rewrite (u64_small m) by lia.
  rewrite Z.shiftl_mul_pow2 by lia. apply u64_small.
  assert (0 < 2 ^ s <= 2 ^ 30)
    by (split; [apply Z.pow_pos_nonneg|apply Z.pow_le_mono_r]; lia). nia.
Qed.

Lemma encode_range v : 0 <= v -> in_width 16 (ufloat16_encode v).
Proof.
  intros Hv. destruct (Z.lt_ge_cases v (2 ^ 12)) as [Hlt|Hge].
  { unfold ufloat16_encode. change (Z.shiftl 1 uFloat16MantissaEffectiveBits) with (2 ^ 12).
    destruct (Z.ltb_spec v (2 ^ 12)); [apply u16_range|lia]. }
  destruct (Z.lt_ge_cases v uFloat16MaxValue) as [Hlt|Hmax].
  - destruct (encode_normal v) as (s & Hs & Hv' & ->); [done|]. unfold in_width. lia.
  - unfold ufloat16_encode. rewrite MaxValue_eq in *.
    change (Z.shiftl 1 uFloat16MantissaEffectiveBits) with (2 ^ 12).
    destruct (Z.ltb_spec v (2 ^ 12)); [lia|].
    destruct (Z.leb_spec ((2 ^ 12 - 1) * 2 ^ 30) v); [done|lia].
Qed.

Lemma encode_small v : 0 <= v < 2 ^ 12 -> ufloat16_encode v = v.
Proof.
  intros Hv. unfold ufloat16_encode.
  change (Z.shiftl 1 uFloat16MantissaEffectiveBits) with (2 ^ 12).
  destruct (Z.ltb_spec v (2 ^ 12)); [unwrap; done|lia].
Qed.

Lemma decode_small w : w < 2 ^ 12 -> ufloat16_decode w = w.
Proof.
  intros Hw. unfold ufloat16_decode.
  change (Z.shiftl 1 uFloat16MantissaEffectiveBits) with (2 ^ 12).
  destruct (Z.ltb_spec w (2 ^ 12)); [done|lia].
Qed.

(** The exponent of a number with a 12-bit mantissa is unique. *)
Lemma exponent_unique s s' m :
  0 <= s -> 0 <= s' -> 2 ^ 11 <= m < 2 ^ 12 ->
  2 ^ 11 <= Z.shiftr (m * 2 ^ s) s' < 2 ^ 12 -> s' = s.
Proof.
  intros Hs Hs' Hm. rewrite Z.shiftr_div_pow2 by done. intros Hd.
  pose proof (Z.pow_pos_nonneg 2 s ltac:(lia) Hs). pose proof (Z.pow_pos_nonneg 2 s' ltac:(lia) Hs').
  pose proof (Z.mul_div_le (m * 2 ^ s) (2 ^ s') ltac:(lia)).
  pose proof (Z.mul_succ_div_gt (m * 2 ^ s) (2 ^ s') ltac:(lia)).
  destruct (Z.lt_trichotomy s s') as [Hlt|[->|Hlt]]; [|done|]; exfalso.
  - assert (2 ^ (s + 1) <= 2 ^ s') by (apply Z.pow_le_mono_r; lia).
    rewrite Z.pow_add_r in * by lia. nia.
  - assert (2 ^ (s' + 1) <= 2 ^ s) by (apply Z.pow_le_mono_r; lia).
    rewrite Z.pow_add_r in * by lia. nia.
Qed.

(** Encoding a decoded 16-bit float gives back the same 16 bits, so that
    every bit pattern of the format stands for a different value. *)
Theorem ufloat16_encode_decode w :
  in_width 16 w -> ufloat16_encode (ufloat16_decode w) = w.
Proof.
  intros [Hw0 Hw]. destruct (Z.lt_ge_cases w (2 ^ 12)) as [Hlt|Hge].
  { rewrite decode_small by lia. by apply encode_small. }
  set (s := w / 2 ^ 11 - 1). set (m := w mod 2 ^ 11 + 2 ^ 11).
  assert (Hm : 2 ^ 11 <= m < 2 ^ 12)
    by (unfold m; pose proof (Z.mod_pos_bound w (2 ^ 11)); lia).
  assert (Heq : w = m + s * 2 ^ 11)
    by (unfold m, s; pose proof (Z.div_mod w (2 ^ 11)); lia).
  assert (Hs : 1 <= s <= 30) by lia.
  rewrite Heq at 1. rewrite decode_normal by done.
  assert (Hp : 2 ^ 1 <= 2 ^ s <= 2 ^ 30) by (split; apply Z.pow_le_mono_r; lia).
  destruct (Z.lt_ge_cases (m * 2 ^ s) uFloat16MaxValue) as [Hlt|Hmax].
  - destruct (encode_normal (m * 2 ^ s)) as (s' & Hs' & Hr & ->); [nia|].
    rewrite (exponent_unique s s' m) in * by (done || lia).
    rewrite Z.shiftr_div_pow2, Z.div_mul by lia. done.
  - rewrite MaxValue_eq in Hmax.
    assert (Hmm : m = 2 ^ 12 - 1 /\ 2 ^ s = 2 ^ 30) by nia. destruct Hmm as [Hmm Hss].
    apply Z.pow_inj_r in Hss; [|lia..]. rewrite Heq, Hmm, Hss. done.
Qed.

Lemma ufloat16_encode_decode_witness :
  in_width 16 40000 /\ ufloat16_encode (ufloat16_decode 40000) = 40000.
Proof. split; [by vm_compute|]. apply (ufloat16_encode_decode 40000). by vm_compute. Defined.

(** A value below the maximum is rounded down by less than one part in
    2048 by a trip over the wire, values below 4096 are exact, and larger ones
    are clamped to the maximum. *)
Theorem ufloat16_decode_encode v :
  in_width 64 v ->
  let d := ufloat16_decode (ufloat16_encode v) in
  (v < 2 ^ 12 -> d = v) /\
  (v < uFloat16MaxValue -> 0 <= 2048 * (v - d) <= v) /\
  (uFloat16MaxValue <= v -> d = uFloat16MaxValue).
Proof.
  intros [Hv0 Hv] d. destruct (Z.lt_ge_cases v (2 ^ 12)) as [Hlt|Hge].
  { assert (Hd : d = v).
    { unfold d. rewrite encode_small by lia. by apply decode_small. }
    split; [done|]. rewrite MaxValue_eq. split; lia. }
  split; [lia|]. destruct (Z.lt_ge_cases v uFloat16MaxValue) as [Hlt|Hmax].
  - split; [|lia]. intros _. unfold d.
    destruct (encode_normal v) as (s & Hs & Hr & ->); [done|].
    rewrite decode_normal by done. rewrite Z.shiftr_div_pow2 in * by lia.
    pose proof (Z.pow_pos_nonneg 2 s ltac:(lia) ltac:(lia)).
    pose proof (Z.mod_pos_bound v (2 ^ s)). pose proof (Z.div_mod v (2 ^ s)). nia.
  - split; [lia|]. intros _. unfold d, ufloat16_encode. rewrite MaxValue_eq in *.
    change (Z.shiftl 1 uFloat16MantissaEffectiveBits) with (2 ^ 12).
    destruct (Z.ltb_spec v (2 ^ 12)); [lia|].
    destruct (Z.leb_spec ((2 ^ 12 - 1) * 2 ^ 30) v); [done|lia].
Qed.

Lemma ufloat16_decode_encode_witness :
  in_width 64 123456789 /\
  (123456789 < uFloat16MaxValue ->
   0 <= 2048 * (123456789 - ufloat16_decode (ufloat16_encode 123456789)) <= 123456789).
Proof.
  split; [by vm_compute|]. apply (ufloat16_decode_encode 123456789). by vm_compute.
Defined.

End UFloat16.
