(* ===== verification/Protocol.v ===== *)
(** * Packet numbers and versions ([internal/protocol])

    [packet_number.go] and [version.go]: the truncated packet numbers of the
    public header and how the receiver recovers the full number, the length of
    a packet number, and the version negotiation helpers.  [PacketNumber] is a
    [uint64], so every subtraction and addition wraps. *)

From S2P Require Import Prelude ByteOrder.

(** ** Packet number lengths *)

Definition PacketNumberLenInvalid : Z := 0.
Definition PacketNumberLen1 : Z := 1.
Definition PacketNumberLen2 : Z := 2.
Definition PacketNumberLen4 : Z := 4.
Definition PacketNumberLen6 : Z := 6.
Definition InitialPathID : Z := 0.
(** [internal/protocol/server_parameters.go] *)
Definition MaxPacketSize : Z := 1350.

Definition delta (a b : Z) : Z :=
  if a <? b then u64 (b - a) else u64 (a - b).

Definition closestTo (target a b : Z) : Z :=
  if delta target a <? delta target b then a else b.

(** [^x] on a [uint64] is [2^64 - 1 - x]. *)
Definition InferPacketNumber (packetNumberLength lastPacketNumber wirePacketNumber : Z) : Z :=
  let epochDelta := u64 (Z.shiftl 1 (u8 (packetNumberLength * 8))) in
  let epoch := Z.land lastPacketNumber (2 ^ 64 - 1 - u64 (epochDelta - 1)) in
  let prevEpochBegin := u64 (epoch - epochDelta) in
  let nextEpochBegin := u64 (epoch + epochDelta) in
  closestTo (u64 (lastPacketNumber + 1))
    (u64 (epoch + wirePacketNumber))
    (closestTo (u64 (lastPacketNumber + 1))
       (u64 (prevEpochBegin + wirePacketNumber))
       (u64 (nextEpochBegin + wirePacketNumber))).

Definition GetPacketNumberLengthForPublicHeader (packetNumber leastUnacked : Z) : Z :=
  let diff := u64 (packetNumber - leastUnacked) in
  if diff <? Z.shiftl 2 (PacketNumberLen2 * 8 - 2) then PacketNumberLen2
  else if diff <? Z.shiftl 2 (PacketNumberLen4 * 8 - 2) then PacketNumberLen4
  else PacketNumberLen6.

Definition GetPacketNumberLength (packetNumber : Z) : Z :=
  if packetNumber <? Z.shiftl 1 (PacketNumberLen1 * 8) then PacketNumberLen1
  else if packetNumber <? Z.shiftl 1 (PacketNumberLen2 * 8) then PacketNumberLen2
  else if packetNumber <? Z.shiftl 1 (PacketNumberLen4 * 8) then PacketNumberLen4
  else PacketNumberLen6.

(** ** Versions *)

Definition Version37 : Z := 37.
Definition Version38 : Z := 38.
Definition VersionTLS : Z := 101.
Definition VersionWhatever : Z := 0.
Definition VersionUnsupported : Z := -1.
Definition VersionUnknown : Z := -2.
Definition VersionMP : Z := 512.
Definition SupportedVersions : list Z := [VersionMP; Version39; Version38; Version37].

Definition UsesTLS (vn : Z) : bool := vn =? VersionTLS.

(** 'Q' is 81 and '0' is 48; the arithmetic is on [uint32]. *)
Definition VersionNumberToTag (vn : Z) : Z :=
  let v := u32 vn in
  u32 (81 + Z.shiftl (u32 (v / 100 mod 10 + 48)) 8 + Z.shiftl (u32 (v / 10 mod 10 + 48)) 16
       + Z.shiftl (u32 (v mod 10 + 48)) 24).

Definition VersionTagToNumber (v : Z) : Z :=
  u32 (u32 (Z.land (Z.shiftr v 8) 255 - 48) * 100 + u32 (Z.land (Z.shiftr v 16) 255 - 48) * 10
       + u32 (Z.land (Z.shiftr v 24) 255 - 48)).

Fixpoint IsSupportedVersion (supported : list Z) (v : Z) : bool :=
  match supported with
  | [] => false
  | t :: supported => if t =? v then true else IsSupportedVersion supported v
  end.

(** The inner loop of [ChooseSupportedVersion] over the peer's versions. *)
Fixpoint offered (theirs : list Z) (ourVer : Z) : bool :=
  match theirs with
  | [] => false
  | theirVer :: theirs => if ourVer =? theirVer then true else offered theirs ourVer
  end.

Fixpoint ChooseSupportedVersion (ours theirs : list Z) : Z :=
  match ours with
  | [] => VersionUnsupported
  | ourVer :: ours => if offered theirs ourVer then ourVer else ChooseSupportedVersion ours theirs
  end.

(** ** Properties of packet numbers *)

(** The packet number lengths of the public header. *)
Definition pnlen_ok (l : Z) : Prop := l = 1 \/ l = 2 \/ l = 4 \/ l = 6.

#[global] Instance pnlen_ok_dec l : Decision (pnlen_ok l).
Proof. unfold pnlen_ok. apply _. Defined.

Lemma delta_abs a b : in_width 64 a -> in_width 64 b -> delta a b = Z.abs (a - b).
Proof. intros Ha Hb. unfold delta, in_width in *. zcases; unwrap; lia. Qed.

(** [lastPacketNumber & ^(epochDelta - 1)] clears the low bits. *)
Lemma land_not_low k x :
  0 <= k <= 64 -> in_width 64 x ->
  Z.land x (2 ^ 64 - 1 - (2 ^ k - 1)) = x - x mod 2 ^ k.
Proof.
  intros Hk Hx.
  assert (Hm : 2 ^ 64 - 1 - (2 ^ k - 1) = Z.shiftl (Z.ones (64 - k)) k).
  { rewrite Z.shiftl_mul_pow2, Z.ones_equiv by lia. unfold Z.pred.
    assert (2 ^ (64 - k) * 2 ^ k = 2 ^ 64) by (rewrite <- Z.pow_add_r by lia; f_equal; lia). lia. }
  rewrite Hm. transitivity (Z.ldiff x (Z.ones k)).
  - apply Z.bits_inj'. intros i Hi. rewrite Z.land_spec, Z.ldiff_spec.
    rewrite Z.shiftl_spec, !Z.testbit_ones by lia.
    destruct (Z.lt_ge_cases i 64) as [Hlt|Hge].
    + f_equal. destruct (Z.leb_spec 0 (i - k)), (Z.ltb_spec (i - k) (64 - k)),
        (Z.leb_spec 0 i), (Z.ltb_spec i k); simpl; lia.
    + assert (Hz : Z.testbit x i = false); [|by rewrite Hz].
      destruct (Z.eq_dec x 0) as [->|]; [by rewrite Z.bits_0|].
      apply Z.bits_above_log2; [apply Hx|]. unfold in_width in Hx.
      eapply Z.lt_le_trans; [|exact Hge]. apply Z.log2_lt_pow2; lia.
  - rewrite Z.ldiff_ones_r, Z.shiftl_mul_pow2, Z.shiftr_div_pow2 by lia.
    pose proof (Z.pow_pos_nonneg 2 k ltac:(lia) ltac:(lia)).
    pose proof (Z.div_mod x (2 ^ k)). lia.
Qed.

(** What [InferPacketNumber] computes, without the wrap-around, when the last
    packet number is small enough that the next epoch does not overflow. *)
Lemma closestTo_abs t a b :
  in_width 64 t -> in_width 64 a -> in_width 64 b ->
  closestTo t a b = if Z.abs (t - a) <? Z.abs (t - b) then a else b.
Proof. intros. unfold closestTo. by rewrite !delta_abs by done. Qed.

Lemma closestTo_range t a b :
  in_width 64 a -> in_width 64 b -> in_width 64 (closestTo t a b).
Proof. unfold closestTo. by destruct (_ <? _). Qed.

Section Infer.
Variables l last pn : Z.
Hypothesis Hl : pnlen_ok l.
Hypothesis Hlast : 0 <= last < 2 ^ 62.
Hypothesis Hpn : 0 <= pn.

Let E := 2 ^ (8 * l).

Lemma epochDelta_eq : u64 (Z.shiftl 1 (u8 (l * 8))) = E.
Proof.
  unfold E. destruct Hl as [->|[->|[->| ->]]]; reflexivity.
Qed.

Lemma E_bounds : 2 ^ 8 <= E <= 2 ^ 48 /\ E = 2 * (E / 2).
Proof. unfold E. destruct Hl as [->|[->|[->| ->]]]; split; reflexivity || lia. Qed.

(** The packet number is the candidate of the previous, the same or the next
    epoch. *)
Lemma epoch_cases :
  Z.abs (pn - (last + 1)) < E / 2 ->
  let epoch := last - last mod E in
  let wire := pn mod E in
  (pn = epoch - E + wire \/ pn = epoch + wire \/ pn = epoch + E + wire).
Proof.
  intros H epoch wire. pose proof E_bounds as [HE HE2].
  pose proof (Z.div_mod last E). pose proof (Z.div_mod pn E).
  pose proof (Z.mod_pos_bound last E). pose proof (Z.mod_pos_bound pn E).
  assert (Hq : last / E - 1 <= pn / E <= last / E + 1) by nia.
  unfold epoch, wire. assert (pn / E = last / E - 1 \/ pn / E = last / E \/ pn / E = last / E + 1) by lia.
  destruct H4 as [H4|[H4|H4]]; rewrite H4 in *; lia.
Qed.

Lemma infer_correct :
  Z.abs (pn - (last + 1)) < E / 2 ->
  InferPacketNumber l last (pn mod E) = pn.
Proof.
  intros Hd. pose proof E_bounds as [HE HE2]. pose proof (epoch_cases Hd) as Hc. cbn zeta in Hc.
  unfold InferPacketNumber. rewrite epochDelta_eq.
  assert (Hland : Z.land last (2 ^ 64 - 1 - u64 (E - 1)) = last - last mod E).
  { rewrite u64_small by lia. unfold E. apply land_not_low; [|unfold in_width; lia].
    destruct Hl as [->|[->|[->| ->]]]; lia. }
  rewrite Hland. pose proof (Z.mod_pos_bound last E). pose proof (Z.mod_pos_bound pn E).
  set (epoch := last - last mod E) in *. set (wire := pn mod E) in *.
  assert (He : 0 <= epoch <= last) by (unfold epoch; pose proof (Z.mod_le last E); lia).
  rewrite (u64_small (last + 1)), (u64_small (epoch + wire)), (u64_small (epoch + E)),
    (u64_small (epoch + E + wire)) by lia.
  assert (Hprev : u64 (u64 (epoch - E) + wire) = u64 (epoch - E + wire))
    by (unfold u64; apply Zplus_mod_idemp_l).
  rewrite Hprev.
  assert (in_width 64 (last + 1) /\ in_width 64 (epoch + wire) /\ in_width 64 (epoch + E + wire))
    as (? & ? & ?) by (unfold in_width; lia).
  rewrite closestTo_abs by auto using closestTo_range, u64_range.
  rewrite closestTo_abs by auto using u64_range.
  clear Hland Hprev.
  destruct (Z.lt_ge_cases (epoch - E + wire) 0).
  - assert (Hw : u64 (epoch - E + wire) = epoch - E + wire + 2 ^ 64).
    { unfold u64. rewrite <- (Z_mod_plus_full _ 1). apply Z.mod_small. lia. }
    rewrite Hw. destruct (Z.ltb_spec (Z.abs (last + 1 - (epoch - E + wire + 2 ^ 64)))
      (Z.abs (last + 1 - (epoch + E + wire)))); zcases; lia.
  - rewrite (u64_small (epoch - E + wire)) by lia.
    destruct (Z.ltb_spec (Z.abs (last + 1 - (epoch - E + wire)))
      (Z.abs (last + 1 - (epoch + E + wire)))); zcases; lia.
Qed.

End Infer.

(** The receiver recovers the full packet number from the truncated one of
    the public header whenever the packet number is less than half an epoch
    away from the next expected one, also when it lies in the epoch before or
    after. *)
Theorem InferPacketNumber_correct l last pn :
  pnlen_ok l -> 0 <= last < 2 ^ 62 -> 0 <= pn ->
  Z.abs (pn - (last + 1)) < 2 ^ (8 * l) / 2 ->
  InferPacketNumber l last (pn mod 2 ^ (8 * l)) = pn.
Proof. intros. by apply infer_correct. Qed.

Lemma InferPacketNumber_correct_witness :
  pnlen_ok 2 /\ InferPacketNumber 2 65500 (65540 mod 2 ^ (8 * 2)) = 65540.
Proof.
  split; [right; left; reflexivity|].
  apply (InferPacketNumber_correct 2 65500 65540); [right; left; reflexivity|lia|lia|].
  vm_compute. reflexivity.
Defined.

Lemma public_header_len_cases pn lu :
  0 <= lu <= pn -> pn - lu < 2 ^ 47 -> in_width 64 pn ->
  let l := GetPacketNumberLengthForPublicHeader pn lu in
  pnlen_ok l /\ 2 <= l /\ pn - lu < 2 ^ (8 * l) / 2.
Proof.
  intros Hlu Hd Hpn. unfold in_width in Hpn. cbn zeta. unfold GetPacketNumberLengthForPublicHeader.
  rewrite u64_small by lia.
  change (Z.shiftl 2 (PacketNumberLen2 * 8 - 2)) with (2 ^ 15).
  change (Z.shiftl 2 (PacketNumberLen4 * 8 - 2)) with (2 ^ 31).
  unfold pnlen_ok, PacketNumberLen2, PacketNumberLen4, PacketNumberLen6.
  zcases; (split; [lia|]); (split; [lia|]); [change (2 ^ (8 * 2) / 2) with (2 ^ 15)
    |change (2 ^ (8 * 4) / 2) with (2 ^ 31)|change (2 ^ (8 * 6) / 2) with (2 ^ 47)]; lia.
Qed.

(** The length that the sender chooses for the public header from its least
    unacknowledged packet is enough: a receiver that has seen everything up to
    the least unacknowledged packet recovers the number, also of a packet that
    is overtaken by up to 2^15 - 1 later ones. *)
Theorem header_packet_number_recovered pn leastUnacked last :
  0 <= leastUnacked <= pn -> pn - leastUnacked < 2 ^ 47 -> pn < 2 ^ 61 ->
  leastUnacked <= last + 1 -> 0 <= last < pn + 2 ^ 15 - 1 ->
  let l := GetPacketNumberLengthForPublicHeader pn leastUnacked in
  InferPacketNumber l last (pn mod 2 ^ (8 * l)) = pn.
Proof.
  intros Hlu Hd Hpn Hle Hlast l.
  destruct (public_header_len_cases pn leastUnacked) as (Hok & H2 & Hlt);
    [done|done|unfold in_width; lia|]. fold l in Hok, H2, Hlt.
  apply infer_correct; [done|lia|lia|].
  assert (2 ^ (8 * 2) / 2 <= 2 ^ (8 * l) / 2)
    by (apply Z.div_le_mono; [lia|]; apply Z.pow_le_mono_r; lia).
  change (2 ^ (8 * 2) / 2) with (2 ^ 15) in *. lia.
Qed.

Lemma header_packet_number_recovered_witness :
  let l := GetPacketNumberLengthForPublicHeader 70000 30000 in
  l = 4 /\ InferPacketNumber l 69000 (70000 mod 2 ^ (8 * l)) = 70000.
Proof.
  split; [reflexivity|].
  apply (header_packet_number_recovered 70000 30000 69000); lia.
Defined.

(** [GetPacketNumberLength] is the shortest header length that holds the number. *)
Lemma GetPacketNumberLength_spec pn :
  in_width 48 pn ->
  let l := GetPacketNumberLength pn in
  pnlen_ok l /\ in_width (8 * l) pn /\ (forall l', pnlen_ok l' -> in_width (8 * l') pn -> l <= l').
Proof.
  intros Hpn. unfold GetPacketNumberLength, pnlen_ok, in_width, PacketNumberLen1,
    PacketNumberLen2, PacketNumberLen4, PacketNumberLen6 in *.
  change (Z.shiftl 1 (1 * 8)) with (2 ^ 8). change (Z.shiftl 1 (2 * 8)) with (2 ^ 16).
  change (Z.shiftl 1 (4 * 8)) with (2 ^ 32).
  zcases; (split; [lia|]); (split; [lia|]); intros l' [->|[->|[->| ->]]] Hl'; lia.
Qed.

Lemma GetPacketNumberLength_ok pn : pnlen_ok (GetPacketNumberLength pn).
Proof.
  unfold GetPacketNumberLength, pnlen_ok, PacketNumberLen1, PacketNumberLen2,
    PacketNumberLen4, PacketNumberLen6. zcases; lia.
Qed.

(** Byte [i] of a sum of bytes at their places. *)
Lemma tag_bytes a b c d :
  0 <= a < 2 ^ 8 -> 0 <= b < 2 ^ 8 -> 0 <= c < 2 ^ 8 -> 0 <= d < 2 ^ 8 ->
  let t := a + b * 2 ^ 8 + c * 2 ^ 16 + d * 2 ^ 24 in
  Z.land (Z.shiftr t 8) 255 = b /\ Z.land (Z.shiftr t 16) 255 = c /\ Z.land (Z.shiftr t 24) 255 = d.
Proof.
  intros. assert (Hl : forall x, Z.land x 255 = x mod 2 ^ 8)
    by (intros; change 255 with (Z.ones 8); by rewrite Z.land_ones).
  rewrite !Hl, !Z.shiftr_div_pow2 by lia. subst t.
  split; [|split].
  - rewrite <- (Z.mod_unique_pos (_ / _) (2 ^ 8) (c + d * 2 ^ 8) b); [done|lia|].
    symmetry. apply (Z.div_unique_pos _ _ _ a); lia.
  - rewrite <- (Z.mod_unique_pos (_ / _) (2 ^ 8) d c); [done|lia|].
    symmetry. apply (Z.div_unique_pos _ _ _ (a + b * 2 ^ 8)); lia.
  - rewrite <- (Z.mod_unique_pos (_ / _) (2 ^ 8) 0 d); [done|lia|].
    symmetry. apply (Z.div_unique_pos _ _ _ (a + b * 2 ^ 8 + c * 2 ^ 16)); lia.
Qed.

(** A version of up to three digits survives the trip through its tag. *)
Lemma version_tag_roundtrip v : 0 <= v < 1000 -> VersionTagToNumber (VersionNumberToTag v) = v.
Proof.
  intros Hv. unfold VersionTagToNumber, VersionNumberToTag. cbn zeta.
  rewrite (u32_small v) by lia.
  pose proof (Z.mod_pos_bound (v / 100) 10). pose proof (Z.mod_pos_bound (v / 10) 10).
  pose proof (Z.mod_pos_bound v 10).
  rewrite (u32_small (v / 100 mod 10 + 48)), (u32_small (v / 10 mod 10 + 48)),
    (u32_small (v mod 10 + 48)) by lia.
  rewrite !Z.shiftl_mul_pow2 by lia.
  destruct (tag_bytes 81 (v / 100 mod 10 + 48) (v / 10 mod 10 + 48) (v mod 10 + 48))
    as (H8 & H16 & H24); [lia..|].
  rewrite (u32_small (81 + _ + _ + _)) by lia. rewrite H8, H16, H24. unwrap.
  rewrite (u32_small (v / 100 mod 10 + 48 - 48)), (u32_small (v / 10 mod 10 + 48 - 48)),
    (u32_small (v mod 10 + 48 - 48)), u32_small by lia.
  pose proof (Z.div_mod v 10). pose proof (Z.div_mod (v / 10) 10).
  assert (v / 100 = v / 10 / 10) by (rewrite Z.div_div by lia; done).
  rewrite (Z.mod_small (v / 100) 10) by (split; [apply Z.div_pos|apply Z.div_lt_upper_bound]; lia).
  lia.
Qed.

Lemma VersionNumberToTag_range v : in_width 32 (VersionNumberToTag v).
Proof. apply u32_range. Qed.

Lemma offered_In theirs v : offered theirs v = true <-> v ∈ theirs.
Proof.
  induction theirs as [|t theirs IH]; simpl; [split; [done|by intros ?%elem_of_nil]|].
  rewrite elem_of_cons. destruct (Z.eqb_spec v t) as [->|]; [by split; [left|]|].
  rewrite IH. split; [by right|by intros [?|?]].
Qed.

Lemma IsSupportedVersion_In supported v : IsSupportedVersion supported v = true <-> v ∈ supported.
Proof.
  induction supported as [|t l IH]; simpl; [split; [done|by intros ?%elem_of_nil]|].
  rewrite elem_of_cons. destruct (Z.eqb_spec t v) as [->|]; [by split; [left|]|].
  rewrite IH. split; [by right|by intros [?|?]].
Qed.

(** Version negotiation picks the first of our versions that the peer
    offers too, and reports [VersionUnsupported] exactly when there is none. *)
Theorem ChooseSupportedVersion_spec ours theirs :
  (exists pre v post, ours = pre ++ v :: post /\ v ∈ theirs /\ (forall x, x ∈ pre -> x ∉ theirs)
     /\ ChooseSupportedVersion ours theirs = v)
  \/ ((forall x, x ∈ ours -> x ∉ theirs) /\ ChooseSupportedVersion ours theirs = VersionUnsupported).
Proof.
  induction ours as [|o ours IH]; simpl.
  - right. split; [by intros x ?%elem_of_nil|done].
  - destruct (offered theirs o) eqn:Ho.
    + left. exists [], o, ours. rewrite offered_In in Ho.
      split; [done|]. split; [done|]. split; [by intros x ?%elem_of_nil|done].
    + assert (Hn : o ∉ theirs) by (rewrite <- offered_In, Ho; done).
      destruct IH as [(pre & v & post & -> & Hv & Hpre & Heq)|[Hall Heq]].
      * left. exists (o :: pre), v, post. split; [done|]. split; [done|]. split; [|done].
        intros x [->|Hx]%elem_of_cons; [done|by apply Hpre].
      * right. split; [|done]. intros x [->|Hx]%elem_of_cons; [done|by apply Hall].
Qed.
