(* ===== verification/WireFrames.v ===== *)
(** * Control frames ([internal/wire])

    RST_STREAM, CONNECTION_CLOSE, GOAWAY, WINDOW_UPDATE, BLOCKED, STOP_WAITING,
    PING and the multipath frames ADD_ADDRESS and PATHS: one [Module] per frame
    file, with the struct as [t], [Write], [MinLength] and the parser [Parse].
    Each module proves that the writer emits the bytes [enc], that the parser
    reads them back, and that the parser never panics. *)

From S2P Require Import Prelude ByteOrder Protocol.

(** ** Error codes of [qerr/error_codes.go] used by the parsers *)
Definition InvalidConnectionCloseData : Z := 7.
Definition InvalidGoawayData : Z := 8.
Definition InvalidStreamData : Z := 46.
Definition EmptyStreamFrameNoFin : Z := 50.
Definition InvalidStopWaitingData : Z := 60.

(** ** Proof automation for parsers and writers *)

Ltac solve_width := first [ solve [eauto with width] | unfold in_width in *; lia ].

(** One step of a parser on known input. *)
Ltac rstep :=
  first
    [ rewrite (rbind_Ok _ _ _ _ _ (ReadByte_cons _ _))
    | erewrite rbind_Ok; [|by apply ReadUint64_enc; solve_width]
    | erewrite rbind_Ok; [|by apply ReadUint32_enc; solve_width]
    | erewrite rbind_Ok; [|by apply ReadUint16_enc; solve_width]
    | erewrite rbind_Ok; [|by apply rguard_false; zcases; (done || lia)]
    | erewrite rbind_Ok; [|by apply ReadFull_app_len; lia] ].

Ltac rsteps := repeat (rewrite <- ?app_assoc; cbn [app]; rstep).

(** Splits a sequence of writes and closes the ones with a known output. *)
Ltac wsteps :=
  repeat first
    [ apply writes_seq | progress eauto 2 with wire ].

Module RstStreamFrame.

Record t : Type := mk { StreamID : Z; ErrorCode : Z; ByteOffset : Z }.

Definition Write (f : t) (version : Z) : Writer :=
  WriteByte 1 ;;;
  WriteUint32 (GetByteOrder version) (u32 f.(StreamID)) ;;;
  WriteUint64 (GetByteOrder version) (u64 f.(ByteOffset)) ;;;
  WriteUint32 (GetByteOrder version) f.(ErrorCode).

Definition MinLength (f : t) (version : Z) : res Z := Ok (1 + 4 + 8 + 4).

Definition Parse (version : Z) : Reader t :=
  _ ← ReadByte;
  sid ← ReadUint32 (GetByteOrder version);
  byteOffset ← ReadUint64 (GetByteOrder version);
  errorCode ← ReadUint32 (GetByteOrder version);
  mret (mk sid errorCode byteOffset).

Definition wf (f : t) : Prop :=
  in_width 32 f.(StreamID) /\ in_width 32 f.(ErrorCode) /\ in_width 64 f.(ByteOffset).

Definition enc (f : t) (version : Z) : list Z :=
  [1] ++ bo_enc (bo:=GetByteOrder version) 4 (u32 f.(StreamID))
  ++ bo_enc (bo:=GetByteOrder version) 8 (u64 f.(ByteOffset))
  ++ bo_enc (bo:=GetByteOrder version) 4 f.(ErrorCode).

Lemma rst_Write_enc f version : writes (Write f version) (enc f version).
Proof. unfold Write, enc. wsteps. Qed.

Lemma rst_Parse_enc f version r : wf f -> Parse version (enc f version ++ r) = Ok (f, r).
Proof.
  destruct f as [sid ec bo]. intros (H1 & H2 & H3). unfold enc, Parse. simpl in *. unwrap.
  rsteps. done.
Qed.

Lemma rst_Parse_no_panic version : no_panic (Parse version).
Proof. unfold Parse. solve_no_panic. Qed.

End RstStreamFrame.

Module ConnectionCloseFrame.

Record t : Type := mk { ErrorCode : Z; ReasonPhrase : list Z }.

Definition Write (f : t) (version : Z) : Writer :=
  WriteByte 2 ;;;
  WriteUint32 (GetByteOrder version) (u32 f.(ErrorCode)) ;;;
  wguard (2 ^ 16 - 1 <? Z.of_nat (length f.(ReasonPhrase)))
    (ErrorsNew "ConnectionFrame: ReasonPhrase too long") ;;;
  WriteUint16 (GetByteOrder version) (u16 (Z.of_nat (length f.(ReasonPhrase)))) ;;;
  Prelude.Write f.(ReasonPhrase).

Definition MinLength (f : t) (version : Z) : res Z :=
  Ok (1 + 4 + 2 + Z.of_nat (length f.(ReasonPhrase))).

Definition Parse (version : Z) : Reader t :=
  _ ← ReadByte;
  errorCode ← ReadUint32 (GetByteOrder version);
  reasonPhraseLen ← ReadUint16 (GetByteOrder version);
  _ ← rguard (u16 MaxPacketSize <? reasonPhraseLen)
        (QuicError InvalidConnectionCloseData "reason phrase too long");
  reasonPhrase ← ReadFull (Z.to_nat reasonPhraseLen);
  mret (mk errorCode reasonPhrase).

Definition wf (f : t) : Prop :=
  in_width 32 f.(ErrorCode) /\ Z.of_nat (length f.(ReasonPhrase)) <= MaxPacketSize.

Definition enc (f : t) (version : Z) : list Z :=
  [2] ++ bo_enc (bo:=GetByteOrder version) 4 (u32 f.(ErrorCode))
  ++ bo_enc (bo:=GetByteOrder version) 2 (u16 (Z.of_nat (length f.(ReasonPhrase))))
  ++ f.(ReasonPhrase).

Lemma cc_Write_enc f version :
  Z.of_nat (length f.(ReasonPhrase)) < 2 ^ 16 -> writes (Write f version) (enc f version).
Proof.
  intros H. unfold Write, enc.
  apply writes_seq; [auto with wire|]. apply writes_seq; [auto with wire|].
  eapply writes_eq; [apply app_nil_l|]. apply writes_seq; [apply writes_wguard; zcases; lia || done|].
  wsteps.
Qed.

Lemma cc_Parse_enc f version r : wf f -> Parse version (enc f version ++ r) = Ok (f, r).
Proof.
  destruct f as [ec rp]. intros (H1 & H2). unfold enc, Parse, MaxPacketSize in *. simpl in *.
  unwrap. rsteps. done.
Qed.

Lemma cc_Parse_no_panic version : no_panic (Parse version).
Proof. unfold Parse. solve_no_panic. Qed.

End ConnectionCloseFrame.

Module GoawayFrame.

Record t : Type := mk { ErrorCode : Z; LastGoodStream : Z; ReasonPhrase : list Z }.

Definition Parse (version : Z) : Reader t :=
  _ ← ReadByte;
  errorCode ← ReadUint32 (GetByteOrder version);
  lastGoodStream ← ReadUint32 (GetByteOrder version);
  reasonPhraseLen ← ReadUint16 (GetByteOrder version);
  _ ← rguard (u16 MaxPacketSize <? reasonPhraseLen)
        (QuicError InvalidGoawayData "reason phrase too long");
  reasonPhrase ← ReadFull (Z.to_nat reasonPhraseLen);
  mret (mk errorCode lastGoodStream reasonPhrase).

Definition Write (f : t) (version : Z) : Writer :=
  WriteByte 3 ;;;
  WriteUint32 (GetByteOrder version) (u32 f.(ErrorCode)) ;;;
  WriteUint32 (GetByteOrder version) (u32 f.(LastGoodStream)) ;;;
  WriteUint16 (GetByteOrder version) (u16 (Z.of_nat (length f.(ReasonPhrase)))) ;;;
  Prelude.Write f.(ReasonPhrase).

Definition MinLength (f : t) (version : Z) : res Z :=
  Ok (1 + 4 + 4 + 2 + Z.of_nat (length f.(ReasonPhrase))).

Definition wf (f : t) : Prop :=
  in_width 32 f.(ErrorCode) /\ in_width 32 f.(LastGoodStream)
  /\ Z.of_nat (length f.(ReasonPhrase)) <= MaxPacketSize.

Definition enc (f : t) (version : Z) : list Z :=
  [3] ++ bo_enc (bo:=GetByteOrder version) 4 (u32 f.(ErrorCode))
  ++ bo_enc (bo:=GetByteOrder version) 4 (u32 f.(LastGoodStream))
  ++ bo_enc (bo:=GetByteOrder version) 2 (u16 (Z.of_nat (length f.(ReasonPhrase))))
  ++ f.(ReasonPhrase).

Lemma ga_Write_enc f version : writes (Write f version) (enc f version).
Proof. unfold Write, enc. wsteps. Qed.

Lemma ga_Parse_enc f version r : wf f -> Parse version (enc f version ++ r) = Ok (f, r).
Proof.
  destruct f as [ec lg rp]. intros (H1 & H2 & H3). unfold enc, Parse, MaxPacketSize in *.
  simpl in *. unwrap. rsteps. done.
Qed.

Lemma ga_Parse_no_panic version : no_panic (Parse version).
Proof. unfold Parse. solve_no_panic. Qed.

End GoawayFrame.

Module WindowUpdateFrame.

Record t : Type := mk { StreamID : Z; ByteOffset : Z }.

Definition Write (f : t) (version : Z) : Writer :=
  WriteByte 4 ;;;
  WriteUint32 (GetByteOrder version) (u32 f.(StreamID)) ;;;
  WriteUint64 (GetByteOrder version) (u64 f.(ByteOffset)).

Definition MinLength (f : t) (version : Z) : res Z := Ok (1 + 4 + 8).

Definition Parse (version : Z) : Reader t :=
  _ ← ReadByte;
  sid ← ReadUint32 (GetByteOrder version);
  byteOffset ← ReadUint64 (GetByteOrder version);
  mret (mk sid byteOffset).

Definition wf (f : t) : Prop := in_width 32 f.(StreamID) /\ in_width 64 f.(ByteOffset).

Definition enc (f : t) (version : Z) : list Z :=
  [4] ++ bo_enc (bo:=GetByteOrder version) 4 (u32 f.(StreamID))
  ++ bo_enc (bo:=GetByteOrder version) 8 (u64 f.(ByteOffset)).

Lemma wu_Write_enc f version : writes (Write f version) (enc f version).
Proof. unfold Write, enc. wsteps. Qed.

Lemma wu_Parse_enc f version r : wf f -> Parse version (enc f version ++ r) = Ok (f, r).
Proof.
  destruct f as [sid bo]. intros (H1 & H2). unfold enc, Parse. simpl in *. unwrap. rsteps. done.
Qed.

Lemma wu_Parse_no_panic version : no_panic (Parse version).
Proof. unfold Parse. solve_no_panic. Qed.

End WindowUpdateFrame.

Module BlockedFrame.

Record t : Type := mk { StreamID : Z }.

Definition Write (f : t) (version : Z) : Writer :=
  WriteByte 5 ;;; WriteUint32 (GetByteOrder version) (u32 f.(StreamID)).

Definition MinLength (f : t) (version : Z) : res Z := Ok (1 + 4).

Definition Parse (version : Z) : Reader t :=
  _ ← ReadByte;
  sid ← ReadUint32 (GetByteOrder version);
  mret (mk sid).

Definition wf (f : t) : Prop := in_width 32 f.(StreamID).

Definition enc (f : t) (version : Z) : list Z :=
  [5] ++ bo_enc (bo:=GetByteOrder version) 4 (u32 f.(StreamID)).

Lemma bl_Write_enc f version : writes (Write f version) (enc f version).
Proof. unfold Write, enc. wsteps. Qed.

Lemma bl_Parse_enc f version r : wf f -> Parse version (enc f version ++ r) = Ok (f, r).
Proof.
  destruct f as [sid]. intros H1. unfold enc, Parse, wf in *. simpl in *. unwrap. rsteps. done.
Qed.

Lemma bl_Parse_no_panic version : no_panic (Parse version).
Proof. unfold Parse. solve_no_panic. Qed.

End BlockedFrame.

Module StopWaitingFrame.

Record t : Type := mk { LeastUnacked : Z; PacketNumberLen : Z; PacketNumber : Z }.

Definition errLeastUnackedHigherThanPacketNumber : error :=
  ErrorsNew "StopWaitingFrame: LeastUnacked can't be greater than the packet number".
Definition errPacketNumberNotSet : error := ErrorsNew "StopWaitingFrame: PacketNumber not set".
Definition errPacketNumberLenNotSet : error := ErrorsNew "StopWaitingFrame: PacketNumberLen not set".

Definition Write (f : t) (version : Z) : Writer :=
  wguard (f.(PacketNumber) =? 0) errPacketNumberNotSet ;;;
  wguard (f.(PacketNumber) <? f.(LeastUnacked)) errLeastUnackedHigherThanPacketNumber ;;;
  WriteByte 6 ;;;
  let leastUnackedDelta := u64 (f.(PacketNumber) - f.(LeastUnacked)) in
  write_by_length true version f.(PacketNumberLen) leastUnackedDelta
    (wfail errPacketNumberLenNotSet).

Definition MinLength (f : t) (version : Z) : res Z :=
  if f.(PacketNumberLen) =? PacketNumberLenInvalid then Err errPacketNumberLenNotSet
  else Ok (1 + f.(PacketNumberLen)).

Definition Parse (packetNumber packetNumberLen version : Z) : Reader t :=
  _ ← ReadByte;
  leastUnackedDelta ← ReadUintN (GetByteOrder version) packetNumberLen;
  _ ← rguard (packetNumber <=? leastUnackedDelta)
        (QuicError InvalidStopWaitingData "invalid LeastUnackedDelta");
  mret (mk (u64 (packetNumber - leastUnackedDelta)) 0 0).

(** The frame is sent with the packet [PacketNumber], its delta fits into the
    packet number length. *)
Definition wf (f : t) : Prop :=
  1 <= f.(LeastUnacked) <= f.(PacketNumber) /\ f.(PacketNumber) < 2 ^ 64
  /\ pnlen_ok f.(PacketNumberLen)
  /\ in_width (8 * f.(PacketNumberLen)) (f.(PacketNumber) - f.(LeastUnacked)).

Definition enc (f : t) (version : Z) : list Z :=
  [6] ++ bo_enc (bo:=GetByteOrder version) (Z.to_nat f.(PacketNumberLen))
    (f.(PacketNumber) - f.(LeastUnacked)).

Lemma sw_Write_enc f version : wf f -> writes (Write f version) (enc f version).
Proof.
  intros (H1 & H2 & H3 & H4). unfold Write, enc. cbn zeta.
  eapply writes_eq; [apply app_nil_l|]. apply writes_seq; [apply writes_wguard; zcases; lia || done|].
  eapply writes_eq; [apply app_nil_l|]. apply writes_seq; [apply writes_wguard; zcases; lia || done|].
  apply writes_seq; [auto with wire|]. unwrap. by apply writes_by_length.
Qed.

(** The parser knows the packet number from the public header; the frame it
    returns leaves the two sender-side fields unset. *)
Lemma sw_Parse_enc f version r :
  wf f ->
  Parse f.(PacketNumber) f.(PacketNumberLen) version (enc f version ++ r)
  = Ok (mk f.(LeastUnacked) 0 0, r).
Proof.
  destruct f as [lu pl pn]. intros (H1 & H2 & H3 & H4). unfold enc, Parse. simpl in *. rstep.
  erewrite rbind_Ok.
  2:{ apply ReadUintN_enc; unfold pnlen_ok in *; try lia.
      rewrite Z2Nat.id by lia. exact H4. }
  erewrite rbind_Ok; [|apply rguard_false; zcases; lia || done].
  unfold mret, reader_ret. unwrap. do 3 f_equal. lia.
Qed.

Lemma sw_Parse_no_panic pn pl version : no_panic (Parse pn pl version).
Proof. unfold Parse. solve_no_panic. Qed.

End StopWaitingFrame.

Module PingFrame.

Record t : Type := mk { }.

Definition Parse (version : Z) : Reader t := _ ← ReadByte; mret mk.

Definition Write (f : t) (version : Z) : Writer := WriteByte 7.

Definition MinLength (f : t) (version : Z) : res Z := Ok 1.

Definition enc : list Z := [7].

End PingFrame.

(** ** ADD_ADDRESS *)

Module AddAddressFrame.

(** The parts of [net.IP] that the frame uses: an address is 4 or 16 bytes, and
    a 4-byte address has the 16-byte form [::ffff:a.b.c.d]. *)
Definition v4InV6Prefix : list Z := [0; 0; 0; 0; 0; 0; 0; 0; 0; 0; 255; 255].

Definition To4 (ip : list Z) : option (list Z) :=
  if decide (length ip = 4%nat) then Some ip
  else if decide (length ip = 16%nat /\ take 12 ip = v4InV6Prefix) then Some (drop 12 ip)
  else None.

Definition To16 (ip : list Z) : option (list Z) :=
  if decide (length ip = 4%nat) then Some (v4InV6Prefix ++ ip)
  else if decide (length ip = 16%nat) then Some ip
  else None.

Definition IPv4 (a b c d : Z) : list Z := v4InV6Prefix ++ [a; b; c; d].

(** [IPVersion] and the [IP] and [Port] of the [net.UDPAddr]. *)
Record t : Type := mk { IPVersion : Z; IP : list Z; Port : Z }.

Definition ErrUnknownIPVersion : error := ErrorsNew "AddAddressFrame: unknown IP version".
Definition errInconsistentAddrIPVersion : error :=
  ErrorsNew "internal inconsistency: Addr does not match IP version".

Definition Write (f : t) (version : Z) : Writer :=
  WriteByte 16 ;;;
  WriteByte f.(IPVersion) ;;;
  (if f.(IPVersion) =? 4 then
     match To4 f.(IP) with
     | None => wfail errInconsistentAddrIPVersion
     | Some ip => Prelude.Write ip
     end
   else if f.(IPVersion) =? 6 then
     match To16 f.(IP) with
     | None => wfail errInconsistentAddrIPVersion
     | Some ip => Prelude.Write ip
     end
   else wfail ErrUnknownIPVersion) ;;;
  WriteUint16 (GetByteOrder version) (u16 f.(Port)).

(** [for i := 0; i < n; i++ { b, err := r.ReadByte(); ...; ip[i] = b }] *)
Fixpoint readBytes (n : nat) : Reader (list Z) :=
  match n with
  | O => mret []
  | S n => b ← ReadByte; l ← readBytes n; mret (b :: l)
  end.

Definition Parse (version : Z) : Reader t :=
  _ ← ReadByte;
  ipv ← ReadByte;
  ip ← (if ipv =? 4 then
          a ← ReadByte; b ← ReadByte; c ← ReadByte; d ← ReadByte;
          mret (IPv4 a b c d)
        else if ipv =? 6 then readBytes 16
        else rfail ErrUnknownIPVersion);
  port ← ReadUint16 (GetByteOrder version);
  mret (mk ipv ip port).

Definition MinLength (f : t) (version : Z) : res Z :=
  if f.(IPVersion) =? 4 then Ok (1 + 1 + 4 + 2)
  else if f.(IPVersion) =? 6 then Ok (1 + 1 + 16 + 2)
  else Err ErrUnknownIPVersion.

(** The address as it is on the wire, for the version of the frame. *)
Definition wireIP (f : t) : option (list Z) :=
  if f.(IPVersion) =? 4 then To4 f.(IP)
  else if f.(IPVersion) =? 6 then To16 f.(IP) else None.

Definition wf (f : t) : Prop := is_Some (wireIP f) /\ in_width 16 f.(Port).

Definition enc (f : t) (version : Z) : list Z :=
  [16; f.(IPVersion)] ++ default [] (wireIP f)
  ++ bo_enc (bo:=GetByteOrder version) 2 f.(Port).

(** The frame the peer gets: the address in its 16-byte form. *)
Definition canonical (f : t) : t := mk f.(IPVersion) (default [] (To16 f.(IP))) f.(Port).

Lemma To4_length ip l : To4 ip = Some l -> length l = 4%nat.
Proof.
  unfold To4. case_decide; [by intros [= <-]|]. case_decide as H'; [|done].
  intros [= <-]. rewrite length_drop. lia.
Qed.

Lemma To16_length ip l : To16 ip = Some l -> length l = 16%nat.
Proof.
  unfold To16. case_decide as H'; [intros [= <-]; simpl; lia|]. case_decide; [|done].
  by intros [= <-].
Qed.

Lemma To4_To16 ip l : To4 ip = Some l -> To16 ip = Some (v4InV6Prefix ++ l).
Proof.
  unfold To4, To16. case_decide; [by intros [= <-]|]. case_decide as H'; [|done].
  destruct H' as [Hl Hp]. intros [= <-]. rewrite decide_True by done. f_equal.
  rewrite <- Hp. symmetry. apply take_drop.
Qed.

Lemma readBytes_app l r : readBytes (length l) (l ++ r) = Ok (l, r).
Proof.
  induction l as [|b l IH]; [done|]. cbn [length readBytes app]. rstep.
  erewrite rbind_Ok; [|exact IH]. done.
Qed.

Lemma readBytes_no_panic n : no_panic (readBytes n).
Proof. induction n; simpl; solve_no_panic. Qed.

Lemma aa_Write_enc f version : wf f -> writes (Write f version) (enc f version).
Proof.
  destruct f as [ipv ip port]. intros [[l Hl] Hp]. unfold Write, enc, wireIP in *.
  cbn [IPVersion IP Port] in *.
  change [16; ipv] with ([16] ++ [ipv]). rewrite <- app_assoc. rewrite Hl. unwrap.
  apply writes_seq; [auto with wire|]. apply writes_seq; [auto with wire|].
  apply writes_seq; [|auto with wire].
  destruct (ipv =? 4); [by rewrite Hl; apply writes_Write|].
  destruct (ipv =? 6); [by rewrite Hl; apply writes_Write|done].
Qed.

Lemma aa_Parse_enc f version r : wf f -> Parse version (enc f version ++ r) = Ok (canonical f, r).
Proof.
  destruct f as [ipv ip port]. intros [[l Hl] Hp]. unfold Parse, enc, canonical, wireIP in *.
  cbn [IPVersion IP Port app] in *. rstep. rstep. rewrite Hl. cbn [default]. rewrite <- app_assoc.
  destruct (ipv =? 4).
  - pose proof (To4_length _ _ Hl) as Hlen. rewrite (To4_To16 _ _ Hl).
    read_bytes l. cbn [app]. erewrite rbind_Ok; [|by repeat rstep]. rsteps. done.
  - destruct (ipv =? 6); [|done]. pose proof (To16_length _ _ Hl) as Hlen. rewrite Hl.
    erewrite rbind_Ok; [|rewrite <- Hlen; apply readBytes_app]. rsteps. done.
Qed.

Lemma aa_Parse_no_panic version : no_panic (Parse version).
Proof. unfold Parse. solve_no_panic; try apply readBytes_no_panic. Qed.

End AddAddressFrame.

(** ** PATHS *)

Module PathsFrame.

Record t : Type := mk {
  MaxNumPaths : Z; NumPaths : Z; PathIDs : list Z; RemoteRTTs : list Z (* ns *)
}.

Definition ErrTooManyPaths : error :=
  ErrorsNew "PathsFrame: more paths than the maximum enabled".
Definition ErrPathsNumber : error :=
  ErrorsNew "PathsFrame: number of paths advertised and # of paths do not match".
Definition ErrMissingRTT : error :=
  ErrorsNew "PathsFrame: number of paths IDs and number of remote RTTs do not match".

(** [time.Microsecond] in nanoseconds. *)
Definition Microsecond : Z := 1000.

(** The loop over the path IDs; after the guards the two lists have the same
    length, so [f.RemoteRTTs[i]] is in range. *)
Fixpoint writePaths (version : Z) (ids rtts : list Z) : Writer :=
  match ids with
  | [] => wskip
  | id :: ids =>
      match rtts with
      | [] => wpanic
      | rtt :: rtts =>
          WriteByte (u8 id) ;;;
          writeUfloat16 (GetByteOrder version) (u64 (Z.quot rtt Microsecond)) ;;;
          writePaths version ids rtts
      end
  end.

Definition Write (f : t) (version : Z) : Writer :=
  WriteByte 18 ;;;
  WriteByte f.(MaxNumPaths) ;;;
  WriteByte f.(NumPaths) ;;;
  wguard (negb (f.(NumPaths) =? Z.of_nat (length f.(PathIDs)))) ErrPathsNumber ;;;
  wguard (negb (length f.(PathIDs) =? length f.(RemoteRTTs))%nat) ErrMissingRTT ;;;
  writePaths version f.(PathIDs) f.(RemoteRTTs).

Fixpoint readPaths (version : Z) (n : nat) : Reader (list Z * list Z) :=
  match n with
  | O => mret ([], [])
  | S n =>
      pathID ← ReadByte;
      remoteRTT ← readUfloat16 (GetByteOrder version);
      rest ← readPaths version n;
      mret (pathID :: rest.1, i64 (remoteRTT * Microsecond) :: rest.2)
  end.

Definition Parse (version : Z) : Reader t :=
  _ ← ReadByte;
  maxNum ← ReadByte;
  num ← ReadByte;
  _ ← rguard (maxNum <? num) ErrTooManyPaths;
  p ← readPaths version (Z.to_nat num);
  mret (mk maxNum num p.1 p.2).

(** The sum is computed in [uint8], the type of [NumPaths]. *)
Definition MinLength (f : t) (version : Z) : res Z :=
  Ok (u8 (1 + 1 + 1 + u8 (3 * f.(NumPaths)))).

Definition wf (f : t) : Prop :=
  in_width 8 f.(MaxNumPaths) /\ f.(NumPaths) <= f.(MaxNumPaths)
  /\ f.(NumPaths) = Z.of_nat (length f.(PathIDs)) /\ length f.(PathIDs) = length f.(RemoteRTTs)
  /\ bytes_ok f.(PathIDs) /\ Forall (fun d => 0 <= d < 2 ^ 63) f.(RemoteRTTs).

(** A duration after a trip through the 16-bit float, in microseconds. *)
Definition rtt_wire (d : Z) : Z := ufloat16_encode (u64 (Z.quot d Microsecond)).
Definition rtt_rounded (d : Z) : Z := i64 (ufloat16_decode (rtt_wire d) * Microsecond).

Fixpoint encPaths (version : Z) (ids rtts : list Z) : list Z :=
  match ids, rtts with
  | id :: ids, rtt :: rtts =>
      [id] ++ bo_enc (bo:=GetByteOrder version) 2 (rtt_wire rtt) ++ encPaths version ids rtts
  | _, _ => []
  end.

Definition enc (f : t) (version : Z) : list Z :=
  [18] ++ [f.(MaxNumPaths)] ++ [f.(NumPaths)] ++ encPaths version f.(PathIDs) f.(RemoteRTTs).

Lemma rtt_wire_range d : in_width 16 (rtt_wire d).
Proof. apply UFloat16.encode_range, u64_range. Qed.

Lemma writePaths_enc version ids : forall rtts,
  bytes_ok ids -> length ids = length rtts ->
  writes (writePaths version ids rtts) (encPaths version ids rtts).
Proof.
  induction ids as [|id ids IH]; intros [|rtt rtts] Hok Hlen; try done; [apply writes_wskip|].
  apply Forall_cons in Hok as [Hid Hok]. cbn [writePaths encPaths]. injection Hlen as Hlen.
  unwrap. apply writes_seq; [auto with wire|]. apply writes_seq; [|by apply IH].
  apply bo_WriteUint16.
Qed.

Lemma readPaths_enc version ids : forall rtts r,
  length ids = length rtts ->
  readPaths version (length ids) (encPaths version ids rtts ++ r) = Ok ((ids, rtt_rounded <$> rtts), r).
Proof.
  induction ids as [|id ids IH]; intros [|rtt rtts] r Hlen; try done.
  injection Hlen as Hlen. cbn [length readPaths encPaths]. cbn [app]. rstep.
  rewrite <- app_assoc. unfold readUfloat16.
  erewrite rbind_Ok; [|erewrite rbind_Ok; [|apply ReadUint16_enc, rtt_wire_range]; done].
  erewrite rbind_Ok; [|by apply IH]. done.
Qed.

Lemma paths_Write_enc f version : wf f -> writes (Write f version) (enc f version).
Proof.
  intros (H1 & H2 & H3 & H4 & H5 & H6). unfold Write, enc.
  apply writes_seq; [auto with wire|]. apply writes_seq; [auto with wire|].
  apply writes_seq; [auto with wire|].
  eapply writes_eq; [apply app_nil_l|]. apply writes_seq; [apply writes_wguard; rewrite H3, Z.eqb_refl; done|].
  eapply writes_eq; [apply app_nil_l|]. apply writes_seq; [apply writes_wguard; rewrite H4, Nat.eqb_refl; done|].
  by apply writePaths_enc.
Qed.

Lemma paths_Parse_enc f version r :
  wf f ->
  Parse version (enc f version ++ r)
  = Ok (mk f.(MaxNumPaths) f.(NumPaths) f.(PathIDs) (rtt_rounded <$> f.(RemoteRTTs)), r).
Proof.
  destruct f as [mx num ids rtts]. intros (H1 & H2 & H3 & H4 & H5 & H6). unfold Parse, enc.
  cbn [MaxNumPaths NumPaths PathIDs RemoteRTTs app] in *. rstep. rstep. rstep.
  erewrite rbind_Ok; [|apply rguard_false; zcases; lia || done].
  rewrite H3, Nat2Z.id. erewrite rbind_Ok; [|by apply readPaths_enc]. done.
Qed.

Lemma readPaths_no_panic version n : no_panic (readPaths version n).
Proof. induction n; simpl; unfold readUfloat16; solve_no_panic. Qed.

Lemma paths_Parse_no_panic version : no_panic (Parse version).
Proof. unfold Parse. solve_no_panic; apply readPaths_no_panic. Qed.

End PathsFrame.
