(* ===== verification/WireStream.v ===== *)
(** * STREAM and DATAGRAM frames ([internal/wire])

    [stream_frame.go] and [datagram_frame.go].  The two frames share the layout
    of the type byte; the STREAM frame of this multipath fork additionally puts
    the unreliable marker into the lowest bit of the type byte, and its parser
    clears that bit before it decodes the stream ID length from the two lowest
    bits. *)

From S2P Require Import Prelude ByteOrder Protocol WireFrames.

(** ** Field lengths *)

Definition errInvalidStreamIDLen : error := ErrorsNew "StreamFrame: Invalid StreamID length".
Definition errInvalidOffsetLen : error := ErrorsNew "StreamFrame: Invalid offset length".

Module StreamFrame.

Record t : Type := mk {
  StreamID : Z; UnreliableMarker : bool; FinBit : bool; DataLenPresent : bool;
  Offset : Z; Data : list Z
}.

Definition DataLen (f : t) : Z := Z.of_nat (length f.(Data)).

Definition calculateStreamIDLength (f : t) : Z :=
  if f.(StreamID) <? Z.shiftl 1 8 then 1
  else if f.(StreamID) <? Z.shiftl 1 16 then 2
  else if f.(StreamID) <? Z.shiftl 1 24 then 3
  else 4.

Definition getOffsetLength (f : t) : Z :=
  if f.(Offset) =? 0 then 0
  else if f.(Offset) <? Z.shiftl 1 16 then 2
  else if f.(Offset) <? Z.shiftl 1 24 then 3
  else if f.(Offset) <? Z.shiftl 1 32 then 4
  else if f.(Offset) <? Z.shiftl 1 40 then 5
  else if f.(Offset) <? Z.shiftl 1 48 then 6
  else if f.(Offset) <? Z.shiftl 1 56 then 7
  else 8.

(** The fields after the type byte. *)
Definition Parse_fields (version typeByte : Z) : Reader t :=
  let finBit := 0 <? Z.land typeByte 0x40 in
  let dataLenPresent := 0 <? Z.land typeByte 0x20 in
  let offsetLen := Z.shiftr (Z.land typeByte 0x1c) 2 in
  let offsetLen := if negb (offsetLen =? 0) then u8 (offsetLen + 1) else offsetLen in
  let streamIDLen := u8 (Z.land typeByte 0x3 + 1) in
  sid ← ReadUintN (GetByteOrder version) streamIDLen;
  offset ← ReadUintN (GetByteOrder version) offsetLen;
  dataLen ← (if dataLenPresent then ReadUint16 (GetByteOrder version) else mret 0);
  _ ← rguard (u16 MaxPacketSize <? dataLen) (QuicError InvalidStreamData "data len too large");
  rlen ← RLen;
  let dataLen := if negb dataLenPresent then u16 rlen else dataLen in
  data ← (if negb (dataLen =? 0) then ReadFull (Z.to_nat dataLen) else mret []);
  let frame := mk (u32 sid) false finBit dataLenPresent offset data in
  _ ← rguard (u64 (offset + DataLen frame) <? offset)
        (QuicError InvalidStreamData "data overflows maximum offset");
  _ ← rguard (negb finBit && (DataLen frame =? 0)) (Prelude.ErrorCode EmptyStreamFrameNoFin);
  mret frame.

Definition Parse (version : Z) : Reader t :=
  typeByte ← ReadByte;
  Parse_fields version (Z.land typeByte 0xFE).

Definition typeByte (f : t) : Z :=
  let b := 0x80 in
  let b := if f.(UnreliableMarker) then Z.lxor b 0x01 else b in
  let b := if f.(FinBit) then Z.lxor b 0x40 else b in
  let b := if f.(DataLenPresent) then Z.lxor b 0x20 else b in
  let offsetLength := getOffsetLength f in
  let b := if 0 <? offsetLength then Z.lxor b (u8 (Z.shiftl (u8 (u8 offsetLength - 1)) 2)) else b in
  Z.lxor b (u8 (calculateStreamIDLength f - 1)).

Definition writeStreamID (version streamIDLen sid : Z) : Writer :=
  if streamIDLen =? 1 then WriteByte (u8 sid)
  else if streamIDLen =? 2 then WriteUint16 (GetByteOrder version) (u16 sid)
  else if streamIDLen =? 3 then WriteUint24 (GetByteOrder version) (u32 sid)
  else if streamIDLen =? 4 then WriteUint32 (GetByteOrder version) (u32 sid)
  else wfail errInvalidStreamIDLen.

Definition writeOffset (version offsetLength offset : Z) : Writer :=
  if offsetLength =? 0 then wskip
  else if offsetLength =? 2 then WriteUint16 (GetByteOrder version) (u16 offset)
  else if offsetLength =? 3 then WriteUint24 (GetByteOrder version) (u32 offset)
  else if offsetLength =? 4 then WriteUint32 (GetByteOrder version) (u32 offset)
  else if offsetLength =? 5 then WriteUint40 (GetByteOrder version) (u64 offset)
  else if offsetLength =? 6 then WriteUint48 (GetByteOrder version) (u64 offset)
  else if offsetLength =? 7 then WriteUint56 (GetByteOrder version) (u64 offset)
  else if offsetLength =? 8 then WriteUint64 (GetByteOrder version) (u64 offset)
  else wfail errInvalidOffsetLen.

Definition Write (f : t) (version : Z) : Writer :=
  wguard ((DataLen f =? 0) && negb f.(FinBit))
    (ErrorsNew "StreamFrame: attempting to write empty frame without FIN") ;;;
  WriteByte (typeByte f) ;;;
  writeStreamID version (calculateStreamIDLength f) f.(StreamID) ;;;
  writeOffset version (getOffsetLength f) f.(Offset) ;;;
  wwhen f.(DataLenPresent) (WriteUint16 (GetByteOrder version) (u16 (DataLen f))) ;;;
  Prelude.Write f.(Data).

Definition MinLength (f : t) (version : Z) : res Z :=
  let length := 1 + calculateStreamIDLength f + getOffsetLength f in
  Ok (if f.(DataLenPresent) then length + 2 else length).

End StreamFrame.

(** ** The unused DATAGRAM frame: a STREAM frame without the marker *)

Module DatagramFrame.

Record t : Type := mk {
  StreamID : Z; FinBit : bool; DataLenPresent : bool; Offset : Z; Data : list Z
}.

Definition DataLen (f : t) : Z := Z.of_nat (length f.(Data)).

Definition calculateStreamIDLength (f : t) : Z :=
  if f.(StreamID) <? Z.shiftl 1 8 then 1
  else if f.(StreamID) <? Z.shiftl 1 16 then 2
  else if f.(StreamID) <? Z.shiftl 1 24 then 3
  else 4.

Definition getOffsetLength (f : t) : Z :=
  if f.(Offset) =? 0 then 0
  else if f.(Offset) <? Z.shiftl 1 16 then 2
  else if f.(Offset) <? Z.shiftl 1 24 then 3
  else if f.(Offset) <? Z.shiftl 1 32 then 4
  else if f.(Offset) <? Z.shiftl 1 40 then 5
  else if f.(Offset) <? Z.shiftl 1 48 then 6
  else if f.(Offset) <? Z.shiftl 1 56 then 7
  else 8.

Definition Parse (version : Z) : Reader t :=
  typeByte ← ReadByte;
  let finBit := 0 <? Z.land typeByte 0x40 in
  let dataLenPresent := 0 <? Z.land typeByte 0x20 in
  let offsetLen := Z.shiftr (Z.land typeByte 0x1c) 2 in
  let offsetLen := if negb (offsetLen =? 0) then u8 (offsetLen + 1) else offsetLen in
  let streamIDLen := u8 (Z.land typeByte 0x3 + 1) in
  sid ← ReadUintN (GetByteOrder version) streamIDLen;
  offset ← ReadUintN (GetByteOrder version) offsetLen;
  dataLen ← (if dataLenPresent then ReadUint16 (GetByteOrder version) else mret 0);
  _ ← rguard (u16 MaxPacketSize <? dataLen) (QuicError InvalidStreamData "data len too large");
  rlen ← RLen;
  let dataLen := if negb dataLenPresent then u16 rlen else dataLen in
  data ← (if negb (dataLen =? 0) then ReadFull (Z.to_nat dataLen) else mret []);
  let frame := mk (u32 sid) finBit dataLenPresent offset data in
  _ ← rguard (u64 (offset + DataLen frame) <? offset)
        (QuicError InvalidStreamData "data overflows maximum offset");
  _ ← rguard (negb finBit && (DataLen frame =? 0)) (Prelude.ErrorCode EmptyStreamFrameNoFin);
  mret frame.

Definition typeByte (f : t) : Z :=
  let b := 0x80 in
  let b := if f.(FinBit) then Z.lxor b 0x40 else b in
  let b := if f.(DataLenPresent) then Z.lxor b 0x20 else b in
  let offsetLength := getOffsetLength f in
  let b := if 0 <? offsetLength then Z.lxor b (u8 (Z.shiftl (u8 (u8 offsetLength - 1)) 2)) else b in
  Z.lxor b (u8 (calculateStreamIDLength f - 1)).

(** The two switches are those of the STREAM frame. *)
Definition Write (f : t) (version : Z) : Writer :=
  wguard ((DataLen f =? 0) && negb f.(FinBit))
    (ErrorsNew "StreamFrame: attempting to write empty frame without FIN") ;;;
  WriteByte (typeByte f) ;;;
  StreamFrame.writeStreamID version (calculateStreamIDLength f) f.(StreamID) ;;;
  StreamFrame.writeOffset version (getOffsetLength f) f.(Offset) ;;;
  wwhen f.(DataLenPresent) (WriteUint16 (GetByteOrder version) (u16 (DataLen f))) ;;;
  Prelude.Write f.(Data).

Definition MinLength (f : t) (version : Z) : res Z :=
  let length := 1 + calculateStreamIDLength f + getOffsetLength f in
  Ok (if f.(DataLenPresent) then length + 2 else length).

(** The same frame as a STREAM frame. *)
Definition to_stream (f : t) : StreamFrame.t :=
  StreamFrame.mk f.(StreamID) false f.(FinBit) f.(DataLenPresent) f.(Offset) f.(Data).
Definition of_stream (f : StreamFrame.t) : t :=
  mk f.(StreamFrame.StreamID) f.(StreamFrame.FinBit) f.(StreamFrame.DataLenPresent)
    f.(StreamFrame.Offset) f.(StreamFrame.Data).

Lemma dg_Write_stream f version : Write f version = StreamFrame.Write (to_stream f) version.
Proof. done. Qed.

(** The parser is the STREAM parser without the cleared bit. *)
Lemma dg_Parse_stream version tb r f r' :
  StreamFrame.Parse_fields version tb r = Ok (f, r') ->
  Parse version (tb :: r) = Ok (of_stream f, r').
Proof.
  unfold StreamFrame.Parse_fields, Parse. intros H. rstep. revert H.
  intros (sid & r1 & Hsid & H)%rbind_Ok_inv. erewrite rbind_Ok; [|exact Hsid].
  apply rbind_Ok_inv in H as (off & r2 & Hoff & H). erewrite rbind_Ok; [|exact Hoff].
  apply rbind_Ok_inv in H as (dl & r3 & Hdl & H). erewrite rbind_Ok; [|exact Hdl].
  apply rbind_Ok_inv in H as ([] & r4 & Hg & H). erewrite rbind_Ok; [|exact Hg].
  apply rbind_Ok_inv in H as (rl & r5 & Hrl & H). erewrite rbind_Ok; [|exact Hrl].
  apply rbind_Ok_inv in H as (data & r6 & Hd & H). erewrite rbind_Ok; [|exact Hd].
  apply rbind_Ok_inv in H as ([] & r7 & Hg1 & H). erewrite rbind_Ok; [|exact Hg1].
  apply rbind_Ok_inv in H as ([] & r8 & Hg2 & H). erewrite rbind_Ok; [|exact Hg2].
  by injection H as <- <-.
Qed.

End DatagramFrame.

(** ** The type byte *)

Module StreamProofs.
Import StreamFrame.

(** The type byte as a function of what it encodes. *)
Definition tb (m fin dlp : bool) (ol sl : Z) : Z :=
  let b := 0x80 in
  let b := if m then Z.lxor b 0x01 else b in
  let b := if fin then Z.lxor b 0x40 else b in
  let b := if dlp then Z.lxor b 0x20 else b in
  let b := if 0 <? ol then Z.lxor b (u8 (Z.shiftl (u8 (u8 ol - 1)) 2)) else b in
  Z.lxor b (u8 (sl - 1)).

Definition offset_len_ok (ol : Z) : Prop := ol = 0 \/ 2 <= ol <= 8.

Lemma calculateStreamIDLength_range f : 1 <= calculateStreamIDLength f <= 4.
Proof. unfold calculateStreamIDLength. zcases; lia. Qed.

Lemma getOffsetLength_ok f : offset_len_ok (getOffsetLength f).
Proof. unfold getOffsetLength, offset_len_ok. zcases; lia. Qed.

Lemma sid_fits f :
  in_width 32 f.(StreamID) -> in_width (8 * calculateStreamIDLength f) f.(StreamID).
Proof.
  unfold calculateStreamIDLength, in_width. rewrite !Z.shiftl_mul_pow2, !Z.mul_1_l by lia.
  zcases; lia.
Qed.

Lemma offset_fits f :
  in_width 64 f.(Offset) -> in_width (8 * getOffsetLength f) f.(Offset).
Proof.
  unfold getOffsetLength, in_width. rewrite !Z.shiftl_mul_pow2, !Z.mul_1_l by lia.
  zcases; subst; try lia.
Qed.

(** What a decoder of the type byte sees in each field. *)
Definition tb_fields (b : Z) : bool * bool * Z * Z :=
  (0 <? Z.land b 0x40, 0 <? Z.land b 0x20,
   (let ol := Z.shiftr (Z.land b 0x1c) 2 in if negb (ol =? 0) then u8 (ol + 1) else ol),
   u8 (Z.land b 0x3 + 1)).

Lemma tb_cases (P : Z -> Z -> Prop) ol sl :
  offset_len_ok ol -> 1 <= sl <= 4 ->
  Forall (fun ol => Forall (P ol) [1; 2; 3; 4]) [0; 2; 3; 4; 5; 6; 7; 8] -> P ol sl.
Proof.
  intros Hol Hsl. rewrite Forall_forall. intros H.
  assert (Ho : In ol [0; 2; 3; 4; 5; 6; 7; 8]) by (unfold offset_len_ok in Hol; simpl; lia).
  assert (Hs : In sl [1; 2; 3; 4]) by (simpl; lia).
  specialize (H ol). rewrite <- list_elem_of_In in Ho, Hs.
  specialize (H Ho). rewrite Forall_forall in H. by apply H.
Qed.

(** Without the marker every field is read back from the whole type byte. *)
Lemma tb_fields_unmarked fin dlp ol sl :
  offset_len_ok ol -> 1 <= sl <= 4 -> tb_fields (tb false fin dlp ol sl) = (fin, dlp, ol, sl).
Proof.
  intros Hol Hsl. apply (tb_cases (fun ol sl => tb_fields (tb false fin dlp ol sl) = (fin, dlp, ol, sl)));
    [done..|]. repeat constructor; destruct fin, dlp; reflexivity.
Qed.

(** With the lowest bit cleared, as the STREAM parser does, the marker has no
    effect and the stream ID length loses its lowest bit. *)
Lemma tb_fields_masked m fin dlp ol sl :
  offset_len_ok ol -> 1 <= sl <= 4 ->
  tb_fields (Z.land (tb m fin dlp ol sl) 0xFE) = (fin, dlp, ol, 2 * ((sl - 1) / 2) + 1).
Proof.
  intros Hol Hsl.
  apply (tb_cases (fun ol sl => tb_fields (Z.land (tb m fin dlp ol sl) 0xFE)
                                = (fin, dlp, ol, 2 * ((sl - 1) / 2) + 1))); [done..|].
  repeat constructor; destruct m, fin, dlp; reflexivity.
Qed.

(** ** Round trip *)

(** The frame can be written: a valid stream ID, an end offset that does not
    overflow, not empty without FIN, and a data length that fits. *)
Definition wf (f : t) : Prop :=
  in_width 32 f.(StreamID) /\ 0 <= f.(Offset) /\ f.(Offset) + DataLen f < 2 ^ 64
  /\ (f.(FinBit) = true \/ 0 < DataLen f)
  /\ (if f.(DataLenPresent) then DataLen f <= MaxPacketSize else DataLen f < 2 ^ 16).

Definition enc_fields (f : t) (version : Z) : list Z :=
  bo_enc (bo:=GetByteOrder version) (Z.to_nat (calculateStreamIDLength f)) f.(StreamID)
  ++ bo_enc (bo:=GetByteOrder version) (Z.to_nat (getOffsetLength f)) f.(Offset)
  ++ (if f.(DataLenPresent) then bo_enc (bo:=GetByteOrder version) 2 (u16 (DataLen f)) else [])
  ++ f.(Data).

Definition enc (f : t) (version : Z) : list Z := [typeByte f] ++ enc_fields f version.

Lemma writeStreamID_enc version sl sid :
  1 <= sl <= 4 -> in_width (8 * sl) sid ->
  writes (writeStreamID version sl sid) (bo_enc (bo:=GetByteOrder version) (Z.to_nat sl) sid).
Proof.
  intros Hsl Hsid. unfold writeStreamID, in_width in *.
  assert (Hc : sl = 1 \/ sl = 2 \/ sl = 3 \/ sl = 4) by lia.
  destruct Hc as [->|[->|[->| ->]]]; cbn [Z.eqb Pos.eqb].
  - change (Z.to_nat 1) with 1%nat. rewrite bo_enc_1. apply writes_WriteByte.
  - unwrap. apply bo_WriteUint16.
  - unwrap. by apply bo_WriteUint24.
  - unwrap. apply bo_WriteUint32.
Qed.

Lemma writeOffset_enc version ol off :
  offset_len_ok ol -> in_width (8 * ol) off ->
  writes (writeOffset version ol off) (bo_enc (bo:=GetByteOrder version) (Z.to_nat ol) off).
Proof.
  intros Hol Hoff. unfold writeOffset, in_width, offset_len_ok in *.
  assert (Hc : ol = 0 \/ ol = 2 \/ ol = 3 \/ ol = 4 \/ ol = 5 \/ ol = 6 \/ ol = 7 \/ ol = 8) by lia.
  destruct Hc as [->|[->|[->|[->|[->|[->|[->| ->]]]]]]]; cbn [Z.eqb Pos.eqb]; unwrap;
    auto with wire.
  change (Z.to_nat 0) with 0%nat. rewrite bo_enc_0. apply writes_wskip.
Qed.

Lemma Write_enc f version : wf f -> writes (Write f version) (enc f version).
Proof.
  intros (H1 & H2 & H3 & H4 & H5). unfold Write, enc, enc_fields.
  eapply writes_eq; [apply app_nil_l|]. apply writes_seq.
  { apply writes_wguard. destruct (Z.eqb_spec (DataLen f) 0); [|done].
    destruct H4 as [->|]; [done|lia]. }
  apply writes_seq; [auto with wire|].
  apply writes_seq; [apply writeStreamID_enc;
    [apply calculateStreamIDLength_range|by apply sid_fits]|].
  apply writes_seq; [apply writeOffset_enc;
    [apply getOffsetLength_ok|apply offset_fits; unfold in_width, DataLen in *; lia]|].
  apply writes_seq; [|auto with wire].
  apply writes_wwhen. auto with wire.
Qed.

Definition unmark (f : t) : t :=
  mk f.(StreamID) false f.(FinBit) f.(DataLenPresent) f.(Offset) f.(Data).

(** Reading the data: the explicit length, or the rest of the packet. *)
Lemma read_data_enc f version r k :
  wf f -> (f.(DataLenPresent) = false -> r = []) ->
  (dataLen ← (if f.(DataLenPresent) then ReadUint16 (GetByteOrder version) else mret 0);
   _ ← rguard (u16 MaxPacketSize <? dataLen) (QuicError InvalidStreamData "data len too large");
   rlen ← RLen;
   let dataLen := if negb f.(DataLenPresent) then u16 rlen else dataLen in
   data ← (if negb (dataLen =? 0) then ReadFull (Z.to_nat dataLen) else mret []);
   k data : Reader t)
    ((if f.(DataLenPresent) then bo_enc (bo:=GetByteOrder version) 2 (u16 (DataLen f)) else [])
     ++ f.(Data) ++ r) = k f.(Data) r.
Proof.
  intros (_ & _ & _ & _ & H5) Hr. unfold DataLen in *. change (u16 MaxPacketSize) with 1350.
  change MaxPacketSize with 1350 in H5.
  destruct f.(DataLenPresent); cbn [negb].
  - rewrite (u16_small (Z.of_nat _)) by lia.
    erewrite rbind_Ok; [|apply ReadUint16_enc; solve_width].
    erewrite rbind_Ok; [|apply rguard_false; zcases; lia || done].
    erewrite rbind_Ok; [|done].
    destruct (Z.eqb_spec (Z.of_nat (length f.(Data))) 0) as [H0|H0]; cbn [negb].
    + assert (Hd : f.(Data) = []) by (apply nil_length_inv; lia). by rewrite Hd.
    + erewrite rbind_Ok; [|apply ReadFull_app_len; lia]. done.
  - rewrite (Hr eq_refl), app_nil_r. cbn [app].
    erewrite rbind_Ok; [|done]. erewrite rbind_Ok; [|by apply rguard_false].
    erewrite rbind_Ok; [|done]. rewrite u16_small by lia.
    destruct (Z.eqb_spec (Z.of_nat (length f.(Data))) 0) as [H0|H0]; cbn [negb].
    + assert (Hd : f.(Data) = []) by (apply nil_length_inv; lia). by rewrite Hd.
    + rewrite <- (app_nil_r f.(Data)) at 2.
      erewrite rbind_Ok; [|apply ReadFull_app_len; lia]. done.
Qed.

Lemma Parse_fields_enc f version b r :
  wf f -> (f.(DataLenPresent) = false -> r = []) ->
  tb_fields b = (f.(FinBit), f.(DataLenPresent), getOffsetLength f, calculateStreamIDLength f) ->
  Parse_fields version b (enc_fields f version ++ r) = Ok (unmark f, r).
Proof.
  intros Hwf Hr Hb. injection Hb as Hfin Hdlp Hol Hsl.
  unfold Parse_fields. cbn zeta in *. rewrite Hfin, Hdlp, Hol, Hsl.
  pose proof Hwf as (H1 & H2 & H3 & H4 & _).
  assert (Ho : in_width 64 f.(Offset)) by (unfold in_width, DataLen in *; lia).
  unfold enc_fields. rewrite <- !app_assoc.
  pose proof (calculateStreamIDLength_range f). pose proof (getOffsetLength_ok f) as Hok.
  unfold offset_len_ok in Hok.
  erewrite rbind_Ok; [|apply ReadUintN_enc; [lia|lia|rewrite Z2Nat.id by lia; by apply sid_fits]].
  erewrite rbind_Ok; [|apply ReadUintN_enc; [lia|lia|rewrite Z2Nat.id by lia; by apply offset_fits]].
  rewrite read_data_enc by done. cbn beta. rewrite u32_small by apply H1.
  unfold DataLen in *. cbn [Data].
  erewrite rbind_Ok; [|apply rguard_false; rewrite u64_small by lia; zcases; lia || done].
  erewrite rbind_Ok; [done|]. apply rguard_false.
  destruct H4 as [->|]; [done|]. zcases; [lia|apply andb_false_r].
Qed.

Lemma Parse_fields_no_panic version b : no_panic (Parse_fields version b).
Proof. unfold Parse_fields. solve_no_panic. Qed.

Lemma Parse_no_panic version : no_panic (Parse version).
Proof. unfold Parse. solve_no_panic. Qed.

(** The stream ID length survives the cleared bit: one or three bytes. *)
Definition sid_len_odd (f : t) : Prop :=
  f.(StreamID) < 2 ^ 8 \/ 2 ^ 16 <= f.(StreamID) < 2 ^ 24.

Lemma sid_len_odd_len f :
  in_width 32 f.(StreamID) -> sid_len_odd f ->
  2 * ((calculateStreamIDLength f - 1) / 2) + 1 = calculateStreamIDLength f.
Proof.
  unfold sid_len_odd, calculateStreamIDLength, in_width.
  rewrite !Z.shiftl_mul_pow2, !Z.mul_1_l by lia. zcases; intros; (reflexivity || lia).
Qed.

Lemma Parse_enc f version r :
  wf f -> sid_len_odd f -> (f.(DataLenPresent) = false -> r = []) ->
  Parse version (enc f version ++ r) = Ok (unmark f, r).
Proof.
  intros Hwf Hs Hr. unfold Parse, enc. cbn [app]. rstep.
  apply Parse_fields_enc; [done..|].
  change (typeByte f) with (tb f.(UnreliableMarker) f.(FinBit) f.(DataLenPresent)
    (getOffsetLength f) (calculateStreamIDLength f)).
  rewrite tb_fields_masked by (apply getOffsetLength_ok || apply calculateStreamIDLength_range).
  rewrite sid_len_odd_len; [done|apply Hwf|done].
Qed.

Lemma length_enc f version :
  wf f -> MinLength f version = Ok (Z.of_nat (length (enc f version)) - DataLen f).
Proof.
  intros Hwf. unfold MinLength, enc, enc_fields. rewrite !length_app, !bo_enc_length.
  pose proof (calculateStreamIDLength_range f). pose proof (getOffsetLength_ok f) as Hok.
  unfold offset_len_ok, DataLen in *. f_equal.
  destruct f.(DataLenPresent); rewrite ?bo_enc_length; simpl length; lia.
Qed.

(** A STREAM frame whose stream ID takes one or three bytes on the wire is
    read back as it was written: stream, offset, FIN bit, data.  The unreliable
    marker is not part of the parsed frame; it stays in the type byte. *)
Theorem StreamFrame_roundtrip f version b r :
  wf f -> sid_len_odd f -> (f.(DataLenPresent) = false -> r = []) ->
  exists bytes, Write f version b = WOk (b ++ bytes)
    /\ Parse version (bytes ++ r) = Ok (unmark f, r)
    /\ MinLength f version = Ok (Z.of_nat (length bytes) - DataLen f).
Proof.
  intros Hwf Hs Hr. exists (enc f version). split; [by apply Write_enc|].
  split; [by apply Parse_enc|by apply length_enc].
Qed.

Lemma StreamFrame_roundtrip_witness :
  let f := mk 5 true false true 70000 [1; 2; 3] in
  exists bytes, Write f Version39 [] = WOk ([] ++ bytes)
    /\ Parse Version39 (bytes ++ [9]) = Ok (unmark f, [9])
    /\ MinLength f Version39 = Ok (Z.of_nat (length bytes) - DataLen f).
Proof.
  intros f. apply (StreamFrame_roundtrip f Version39 [] [9]).
  - vm_compute. repeat split; try discriminate; try (right; reflexivity).
  - left. vm_compute. reflexivity.
  - intros H. discriminate H.
Defined.

(** A stream ID of two bytes is never read back: the bit of its length that
    the parser clears as the unreliable marker makes it read one byte, so the
    frame is attributed to a stream below 256. *)
Theorem StreamFrame_two_byte_id_lost f version r f' r' :
  wf f -> 2 ^ 8 <= f.(StreamID) < 2 ^ 16 -> bytes_ok (f.(Data) ++ r) ->
  Parse version (enc f version ++ r) = Ok (f', r') ->
  f'.(StreamID) < 2 ^ 8 /\ f'.(StreamID) <> f.(StreamID).
Proof.
  intros Hwf Hs Hbytes HP. assert (Hlt : f'.(StreamID) < 2 ^ 8); [|split; lia].
  assert (Hsl : calculateStreamIDLength f = 2).
  { unfold calculateStreamIDLength. rewrite !Z.shiftl_mul_pow2 by lia. zcases; lia. }
  unfold Parse, enc in HP. cbn [app] in HP. rewrite (rbind_Ok _ _ _ _ _ (ReadByte_cons _ _)) in HP.
  pose proof (tb_fields_masked f.(UnreliableMarker) f.(FinBit) f.(DataLenPresent)
    (getOffsetLength f) (calculateStreamIDLength f) (getOffsetLength_ok f)
    (calculateStreamIDLength_range f)) as Htb.
  change (tb _ _ _ _ _) with (typeByte f) in Htb. rewrite Hsl in Htb.
  change (2 * ((2 - 1) / 2) + 1) with 1 in Htb. injection Htb as Hfin Hdlp Hol Hsl'.
  unfold Parse_fields in HP. cbn zeta in HP. rewrite Hsl' in HP.
  apply rbind_Ok_inv in HP as (sid & r1 & Hsid & HP).
  apply (ReadUintN_inv _ 1) in Hsid as (Hw & _); [|..|lia].
  2:{ unfold enc_fields. rewrite <- !app_assoc. apply Forall_app. split; [apply bo_enc_ok|].
      apply Forall_app. split; [apply bo_enc_ok|]. apply Forall_app. split; [|done].
      destruct f.(DataLenPresent); [apply bo_enc_ok|constructor]. }
  repeat (apply rbind_Ok_inv in HP as (? & ? & _ & HP)). injection HP as <- _.
  cbn [StreamID]. unfold in_width in Hw. rewrite u32_small; lia.
Qed.

Lemma StreamFrame_two_byte_id_lost_witness :
  let f := mk 257 false true false 0 [7] in
  exists f' r', Parse Version39 (enc f Version39) = Ok (f', r') /\ f'.(StreamID) <> f.(StreamID).
Proof.
  intros f. eexists _, _. split; [vm_compute; reflexivity|].
  apply (StreamFrame_two_byte_id_lost f Version39 [] _ []).
  - vm_compute. repeat split; try discriminate; try (left; reflexivity).
  - vm_compute. split; [discriminate|reflexivity].
  - vm_compute. repeat constructor; discriminate.
  - vm_compute. reflexivity.
Defined.

End StreamProofs.
