(* ===== verification/WireAck.v ===== *)
(** * ACK and CLOSE_PATH frames ([internal/wire])

    [ack_range.go], [ack_frame.go] and [close_path_frame.go].  Both frames carry
    a list of ACK ranges, highest first, encoded as a first block and then pairs
    of a gap and a block length; a gap of more than 255 packets is split into
    several blocks of length 0.  The code of the two files is the same for the
    ranges, so the range functions are defined once ([Section Ranges]) and each
    frame's [Module] has its header, its writer and its parser. *)

From S2P Require Import Prelude ByteOrder Protocol WireFrames.

Record AckRange : Type := mkRange { First : Z; Last : Z }.

#[global] Instance AckRange_eq_dec : EqDecision AckRange.
Proof. solve_decision. Defined.

Definition ErrInvalidAckRanges : error :=
  ErrorsNew "AckFrame: ACK frame contains invalid ACK ranges".
Definition ErrInvalidFirstAckRange : error :=
  ErrorsNew "AckFrame: ACK frame has invalid first ACK range".
Definition errInconsistentAckLargestAcked : error :=
  ErrorsNew "internal inconsistency: LargestAcked does not match ACK ranges".
Definition errInconsistentAckLowestAcked : error :=
  ErrorsNew "internal inconsistency: LowestAcked does not match ACK ranges".

(** ** The range list *)

Definition HasMissingRanges (ranges : list AckRange) : bool :=
  negb (length ranges =? 0)%nat.

(** The loop [for _, ackRange := range f.AckRanges] over single ranges. *)
Fixpoint rangesNonEmpty (ranges : list AckRange) : bool :=
  match ranges with
  | [] => true
  | r :: ranges => if r.(Last) <? r.(First) then false else rangesNonEmpty ranges
  end.

(** The loop over consecutive ranges. *)
Fixpoint rangesConsistent (lastAckRange : AckRange) (ranges : list AckRange) : bool :=
  match ranges with
  | [] => true
  | r :: ranges =>
      if lastAckRange.(First) <=? r.(First) then false
      else if lastAckRange.(First) <=? u64 (r.(Last) + 1) then false
      else rangesConsistent r ranges
  end.

Definition validateAckRanges (largestAcked : Z) (ranges : list AckRange) : bool :=
  match ranges with
  | [] => true
  | [_] => false
  | r0 :: rest =>
      if negb (r0.(Last) =? largestAcked) then false
      else if negb (rangesNonEmpty ranges) then false
      else rangesConsistent r0 rest
  end.

(** Blocks that a gap takes: [1 + gap/0xFF], one less for a multiple of 0xFF. *)
Definition rangeBlocks (gap : Z) : Z :=
  if gap mod 255 =? 0 then u64 (1 + gap / 255 - 1) else 1 + gap / 255.

Definition rangeGap (lastAckRange r : AckRange) : Z :=
  u64 (lastAckRange.(First) - r.(Last) - 1).

Fixpoint numWritable_loop (lastAckRange : AckRange) (ranges : list AckRange) (numRanges : Z) : Z :=
  match ranges with
  | [] => numRanges
  | r :: ranges =>
      let rangeLength := rangeBlocks (rangeGap lastAckRange r) in
      if numRanges + rangeLength <? 255
      then numWritable_loop r ranges (numRanges + rangeLength)
      else numRanges
  end.

Definition numWritableNackRanges (ranges : list AckRange) : Z :=
  match ranges with
  | [] => 0
  | r0 :: rest => numWritable_loop r0 rest 0 + 1
  end.

Definition rangeLen (r : AckRange) : Z := u64 (r.(Last) - r.(First) + 1).

Fixpoint maxRangeLength (ranges : list AckRange) (m : Z) : Z :=
  match ranges with
  | [] => m
  | r :: ranges => maxRangeLength ranges (if m <? rangeLen r then rangeLen r else m)
  end.

Definition getMissingSequenceNumberDeltaLen (largestAcked lowestAcked : Z)
    (ranges : list AckRange) : Z :=
  let m := if HasMissingRanges ranges then maxRangeLength ranges 0
           else u64 (largestAcked - lowestAcked + 1) in
  if m <=? 0xFF then PacketNumberLen1
  else if m <=? 0xFFFF then PacketNumberLen2
  else if m <=? 0xFFFFFFFF then PacketNumberLen4
  else PacketNumberLen6.

Fixpoint inRanges (p : Z) (ranges : list AckRange) : bool :=
  match ranges with
  | [] => false
  | r :: ranges => if (r.(First) <=? p) && (p <=? r.(Last)) then true else inRanges p ranges
  end.

Definition acksPacket (largestAcked lowestAcked : Z) (ranges : list AckRange) (p : Z) : bool :=
  if (p <? lowestAcked) || (largestAcked <? p) then false
  else if HasMissingRanges ranges then inRanges p ranges
  else (lowestAcked <=? p) && (p <=? largestAcked).

(** ** Parsing the blocks

    The state of the loop is [frame.AckRanges] with the two flags;
    [frame.AckRanges[len-1]] of an empty list is a run-time panic. *)

Definition setLast (ranges : list AckRange) (r : AckRange) : list AckRange :=
  removelast ranges ++ [r].

Definition parseBlock (ranges : list AckRange) (inLongBlock lastRangeComplete : bool)
    (gap len : Z) : option (list AckRange * bool) :=
  match last ranges with
  | None => None
  | Some r =>
      let '(ranges, complete) :=
        if inLongBlock then
          (setLast ranges (mkRange (u64 (r.(First) - u64 (gap + len))) (u64 (r.(Last) - gap))),
           lastRangeComplete)
        else
          let l := u64 (r.(First) - gap - 1) in
          (ranges ++ [mkRange (u64 (l - len + 1)) l], false) in
      Some (ranges, if 0 <? len then true else complete)
  end.

Fixpoint parseBlocks (version deltaLen : Z) (n : nat) (ranges : list AckRange)
    (inLongBlock lastRangeComplete : bool) : Reader (list AckRange * bool) :=
  match n with
  | O => mret (ranges, lastRangeComplete)
  | S n =>
      gap ← ReadByte;
      ackBlockLength ← ReadUintN (GetByteOrder version) deltaLen;
      match parseBlock ranges inLongBlock lastRangeComplete gap ackBlockLength with
      | None => rpanic
      | Some (ranges, complete) =>
          parseBlocks version deltaLen n ranges (ackBlockLength =? 0) complete
      end
  end.

(** From the first block on: the ranges and [LowestAcked]. *)
Definition parseRanges (version deltaLen : Z) (hasMissingRanges : bool)
    (numAckBlocks largestAcked ackBlockLength : Z) : Reader (list AckRange * Z) :=
  if hasMissingRanges then
    let ackRange := mkRange (u64 (u64 (largestAcked - ackBlockLength) + 1)) largestAcked in
    p ← parseBlocks version deltaLen (Z.to_nat numAckBlocks) [ackRange] false false;
    let ranges : list AckRange := if (p : list AckRange * bool).2 then p.1 else removelast p.1 in
    match last ranges with
    | None => rpanic
    | Some r => mret (ranges, r.(First))
    end
  else mret ([], if largestAcked =? 0 then 0 else u64 (largestAcked + 1 - ackBlockLength)).

(** ** Writing the blocks *)

(** The loop over the [num] blocks of a long gap; [n] blocks are left. *)
Fixpoint writeLongGap (masked : bool) (version deltaLen : Z) (n : nat) (gap len : Z) : Writer :=
  match n with
  | O => wskip
  | S n =>
      let isLast := (n =? 0)%nat in
      WriteByte (if isLast then u8 (1 + (u64 (gap - 1)) mod 255) else 0xFF) ;;;
      write_by_length masked version deltaLen (if isLast then len else 0) wskip ;;;
      writeLongGap masked version deltaLen n gap len
  end.

(** The loop over the ranges; [k] is what the writer does after the loop, with
    the number of ranges written. *)
Fixpoint writeBlocks (masked : bool) (version deltaLen numRanges : Z) (lastAckRange : AckRange)
    (ranges : list AckRange) (numRangesWritten : Z) (k : Z -> Writer) : Writer :=
  match ranges with
  | [] => k numRangesWritten
  | r :: ranges =>
      let len := rangeLen r in
      let gap := rangeGap lastAckRange r in
      let num := if gap mod 255 =? 0 then u64 (gap / 255 + 1 - 1) else gap / 255 + 1 in
      (if num =? 1 then
         WriteByte (u8 gap) ;;; write_by_length masked version deltaLen len wskip
       else writeLongGap masked version deltaLen (Z.to_nat num) gap len) ;;;
      let numRangesWritten := u64 (numRangesWritten + num) in
      if numRanges <=? numRangesWritten then k numRangesWritten
      else writeBlocks masked version deltaLen numRanges r ranges numRangesWritten k
  end.

(** The first block length and the blocks, with the consistency checks;
    [tail] ends the frame. *)
Definition writeRanges (masked : bool) (version deltaLen : Z) (errBug : error)
    (largestAcked lowestAcked : Z) (ranges : list AckRange) (numRanges : Z) (tail : Writer) : Writer :=
  let finish numRangesWritten :=
    wguard (negb (numRanges =? numRangesWritten)) errBug ;;; tail in
  match ranges with
  | [] =>
      write_by_length masked version deltaLen (u64 (largestAcked - lowestAcked + 1)) wskip ;;;
      finish 0
  | r0 :: rest =>
      wguard (negb (largestAcked =? r0.(Last))) errInconsistentAckLargestAcked ;;;
      wguard (negb (lowestAcked =? (default r0 (last ranges)).(First))) errInconsistentAckLowestAcked ;;;
      write_by_length masked version deltaLen (u64 (largestAcked - r0.(First) + 1)) wskip ;;;
      writeBlocks masked version deltaLen numRanges r0 rest 1 finish
  end.

(** ** The ACK frame *)

Module AckFrame.

(** Times and durations are in nanoseconds. *)
Record t : Type := mk {
  PathID : Z; LargestAcked : Z; LowestAcked : Z; AckRanges : list AckRange;
  PacketReceivedTime : Z; DelayTime : Z
}.

Fixpoint skipTimestamps (version : Z) (n : nat) : Reader unit :=
  match n with
  | O => mret tt
  | S n => _ ← ReadByte; _ ← ReadUint16 (GetByteOrder version); skipTimestamps version n
  end.

Definition parseTimestamps (version : Z) : Reader unit :=
  numTimestamp ← ReadByte;
  if 0 <? numTimestamp then
    _ ← ReadByte;
    _ ← ReadUint32 (GetByteOrder version);
    skipTimestamps version (Z.to_nat (numTimestamp - 1))
  else mret tt.

Definition Parse (version : Z) : Reader t :=
  typeByte ← ReadByte;
  let hasMissingRanges := Z.land typeByte 0x20 =? 0x20 in
  let largestAckedLen := u8 (2 * Z.shiftr (Z.land typeByte 0x0C) 2) in
  let largestAckedLen := if largestAckedLen =? 0 then 1 else largestAckedLen in
  let deltaLen := u8 (2 * Z.land typeByte 0x03) in
  let deltaLen := if deltaLen =? 0 then 1 else deltaLen in
  pathID ← (if Z.land typeByte 0x10 =? 0x10 then ReadByte else mret 0);
  largestAcked ← ReadUintN (GetByteOrder version) largestAckedLen;
  delay ← readUfloat16 (GetByteOrder version);
  numAckBlocks ← (if hasMissingRanges then ReadByte else mret 0);
  _ ← rguard (hasMissingRanges && (numAckBlocks =? 0)) ErrInvalidAckRanges;
  ackBlockLength ← ReadUintN (GetByteOrder version) deltaLen;
  _ ← rguard ((0 <? largestAcked) && (ackBlockLength <? 1)) ErrInvalidFirstAckRange;
  _ ← rguard (largestAcked <? ackBlockLength) ErrInvalidAckRanges;
  p ← parseRanges version deltaLen hasMissingRanges numAckBlocks largestAcked ackBlockLength;
  _ ← rguard (negb (validateAckRanges largestAcked p.1)) ErrInvalidAckRanges;
  _ ← parseTimestamps version;
  mret (mk pathID largestAcked p.2 p.1 0 (i64 (delay * PathsFrame.Microsecond))).

Definition getDeltaLen (f : t) : Z :=
  getMissingSequenceNumberDeltaLen f.(LargestAcked) f.(LowestAcked) f.(AckRanges).

Definition typeByte (f : t) : Z :=
  let largestAckedLen := GetPacketNumberLength f.(LargestAcked) in
  let b := 0x40 in
  let b := if negb (largestAckedLen =? PacketNumberLen1)
           then Z.lxor b (u8 (Z.shiftl (largestAckedLen / 2) 2)) else b in
  let b := if negb (getDeltaLen f =? PacketNumberLen1) then Z.lxor b (getDeltaLen f / 2) else b in
  let b := if HasMissingRanges f.(AckRanges) then Z.lor b 0x20 else b in
  if negb (f.(PathID) =? InitialPathID) then Z.lor b 0x10 else b.

Definition errBug : error := ErrorsNew "BUG: Inconsistent number of ACK ranges written".

(** The bytes that [Write] appends at time [now]. *)
Definition writeBytes (f : t) (version now : Z) : Writer :=
  let deltaLen := getDeltaLen f in
  let delayTime := now - f.(PacketReceivedTime) in
  let numRanges := if HasMissingRanges f.(AckRanges) then numWritableNackRanges f.(AckRanges) else 0 in
  WriteByte (typeByte f) ;;;
  wwhen (negb (f.(PathID) =? InitialPathID)) (WriteByte (u8 f.(PathID))) ;;;
  write_by_length true version (GetPacketNumberLength f.(LargestAcked)) f.(LargestAcked) wskip ;;;
  writeUfloat16 (GetByteOrder version) (u64 (Z.quot delayTime PathsFrame.Microsecond)) ;;;
  wwhen (HasMissingRanges f.(AckRanges))
    (if 0xFF <? numRanges then wpanic else WriteByte (u8 (numRanges - 1))) ;;;
  writeRanges true version deltaLen errBug f.(LargestAcked) f.(LowestAcked) f.(AckRanges) numRanges
    (WriteByte 0).

(** [Write] at time [now]: it also sets [DelayTime]. *)
Definition Write (f : t) (version now : Z) (b : list Z) : t * wres :=
  (mk f.(PathID) f.(LargestAcked) f.(LowestAcked) f.(AckRanges) f.(PacketReceivedTime)
     (now - f.(PacketReceivedTime)),
   writeBytes f version now b).

Definition MinLength (f : t) (version : Z) : res Z :=
  let length := 1 + 2 + 1 in
  let length := length + GetPacketNumberLength f.(LargestAcked) in
  let deltaLen := getDeltaLen f in
  let length :=
    if HasMissingRanges f.(AckRanges)
    then length + (1 + deltaLen) * numWritableNackRanges f.(AckRanges)
    else length + deltaLen in
  Ok (if negb (f.(PathID) =? InitialPathID) then length + 1 else length).

Definition AcksPacket (f : t) (p : Z) : bool :=
  acksPacket f.(LargestAcked) f.(LowestAcked) f.(AckRanges) p.

End AckFrame.

(** ** The CLOSE_PATH frame *)

Module ClosePathFrame.

Record t : Type := mk {
  PathID : Z; LargestAcked : Z; LowestAcked : Z; AckRanges : list AckRange
}.

Definition getDeltaLen (f : t) : Z :=
  getMissingSequenceNumberDeltaLen f.(LargestAcked) f.(LowestAcked) f.(AckRanges).

Definition flags (f : t) : Z :=
  let largestAckedLen := GetPacketNumberLength f.(LargestAcked) in
  let b := 0x00 in
  let b := if HasMissingRanges f.(AckRanges) then Z.lor b 0x10 else b in
  let b := if negb (largestAckedLen =? PacketNumberLen1)
           then Z.lxor b (u8 (Z.shiftl (largestAckedLen / 2) 2)) else b in
  if negb (getDeltaLen f =? PacketNumberLen1) then Z.lxor b (getDeltaLen f / 2) else b.

Definition errBug : error := ErrorsNew "BUG: Inconsistent number of ACK ranges written in ClosePath".

Definition Write (f : t) (version : Z) : Writer :=
  let numRanges := if HasMissingRanges f.(AckRanges) then numWritableNackRanges f.(AckRanges) else 0 in
  WriteByte 0x11 ;;;
  WriteByte (u8 f.(PathID)) ;;;
  WriteByte (flags f) ;;;
  wwhen (HasMissingRanges f.(AckRanges))
    (if 0xFF <? numRanges then wpanic else WriteByte (u8 (numRanges - 1))) ;;;
  write_by_length false version (GetPacketNumberLength f.(LargestAcked)) f.(LargestAcked) wskip ;;;
  writeRanges false version (getDeltaLen f) errBug f.(LargestAcked) f.(LowestAcked) f.(AckRanges)
    numRanges wskip.

Definition Parse (version : Z) : Reader t :=
  _ ← ReadByte;
  pathID ← ReadByte;
  flags ← ReadByte;
  let hasMissingRanges := Z.land flags 0x10 =? 0x10 in
  let largestAckedLen := u8 (2 * Z.shiftr (Z.land flags 0x0C) 2) in
  let largestAckedLen := if largestAckedLen =? 0 then 1 else largestAckedLen in
  let deltaLen := u8 (2 * Z.land flags 0x03) in
  let deltaLen := if deltaLen =? 0 then 1 else deltaLen in
  numAckBlocks ← (if hasMissingRanges then ReadByte else mret 0);
  _ ← rguard (hasMissingRanges && (numAckBlocks =? 0)) ErrInvalidAckRanges;
  largestAcked ← ReadUintN (GetByteOrder version) largestAckedLen;
  ackBlockLength ← ReadUintN (GetByteOrder version) deltaLen;
  _ ← rguard ((0 <? largestAcked) && (ackBlockLength <? 1)) ErrInvalidFirstAckRange;
  _ ← rguard (largestAcked <? ackBlockLength) ErrInvalidAckRanges;
  p ← parseRanges version deltaLen hasMissingRanges numAckBlocks largestAcked ackBlockLength;
  _ ← rguard (negb (validateAckRanges largestAcked p.1)) ErrInvalidAckRanges;
  mret (mk pathID largestAcked p.2 p.1).

Definition MinLength (f : t) (version : Z) : res Z :=
  let length := 1 + 1 + 1 in
  let length := length + GetPacketNumberLength f.(LargestAcked) in
  let deltaLen := getDeltaLen f in
  Ok (if HasMissingRanges f.(AckRanges)
      then length + (1 + deltaLen) * numWritableNackRanges f.(AckRanges)
      else length + deltaLen).

Definition AcksPacket (f : t) (p : Z) : bool :=
  acksPacket f.(LargestAcked) f.(LowestAcked) f.(AckRanges) p.

End ClosePathFrame.
