(* ===== verification/WireAckProofs.v ===== *)
(** * Properties of the ACK and CLOSE_PATH frames

    The range list as a set of packet numbers, the block encoding of the gaps
    and its inverse, the round trips of both frames, and the validity of every
    frame that the parsers accept. *)

From S2P Require Import Prelude ByteOrder Protocol WireFrames WireAck.

(** ** Well-formed range lists *)

(** Ranges below [prev]: each not empty and at least one missing packet below
    the one before. *)
Fixpoint chain (prev : AckRange) (rs : list AckRange) : Prop :=
  match rs with
  | [] => True
  | r :: rs => r.(First) <= r.(Last) /\ r.(Last) + 1 < prev.(First) /\ chain r rs
  end.

(** Packet numbers start at 1 and fit into the six bytes of the wire. *)
Definition range_bounds (r : AckRange) : Prop := 1 <= r.(First) /\ r.(Last) < 2 ^ 48.

Definition ranges_wf (largest lowest : Z) (rs : list AckRange) : Prop :=
  match rs with
  | [] => 1 <= lowest <= largest /\ largest < 2 ^ 48
  | r0 :: rest => rest <> [] /\ r0.(Last) = largest /\ r0.(First) <= r0.(Last) /\ chain r0 rest
      /\ Forall range_bounds rs /\ (default r0 (last rs)).(First) = lowest
  end.

Lemma rangesNonEmpty_Forall rs :
  rangesNonEmpty rs = true <-> Forall (fun r => r.(First) <= r.(Last)) rs.
Proof.
  induction rs as [|r rs IH]; simpl; [by split|]. rewrite Forall_cons.
  destruct (Z.ltb_spec r.(Last) r.(First)); [split; [done|lia]|]. rewrite IH. tauto.
Qed.

Lemma chain_consistent rs : forall prev,
  Forall (fun r => 0 <= r.(First) /\ r.(Last) < 2 ^ 48) rs ->
  rangesNonEmpty rs = true /\ rangesConsistent prev rs = true <-> chain prev rs.
Proof.
  induction rs as [|r rs IH]; intros prev Hb; simpl; [tauto|].
  apply Forall_cons in Hb as [[Hr0 Hr] Hb]. specialize (IH r Hb).
  destruct (Z.ltb_spec r.(Last) r.(First)).
  { split; [intros [? _]; discriminate|intros (? & _); lia]. }
  rewrite <- IH. rewrite u64_small by lia.
  destruct (Z.leb_spec prev.(First) r.(First)).
  { split; [intros [_ ?]; discriminate|intros (? & ? & _); lia]. }
  destruct (Z.leb_spec prev.(First) (r.(Last) + 1)).
  { split; [intros [_ ?]; discriminate|intros (? & ? & _); lia]. }
  tauto.
Qed.

Lemma ranges_wf_validate largest lowest rs :
  ranges_wf largest lowest rs -> validateAckRanges largest rs = true.
Proof.
  destruct rs as [|r0 [|r1 rest]]; [done|by intros (? & _)|].
  intros (_ & HL & H0 & Hc & Hb & _). unfold validateAckRanges.
  rewrite HL, Z.eqb_refl. cbn [negb].
  assert (Hb' : Forall (fun r => 0 <= r.(First) /\ r.(Last) < 2 ^ 48) (r1 :: rest)).
  { apply Forall_cons in Hb as [_ Hb]. eapply Forall_impl; [exact Hb|].
    unfold range_bounds; simpl; lia. }
  apply (chain_consistent _ r0 Hb') in Hc as [Hn Hc].
  assert (Hne : rangesNonEmpty (r0 :: r1 :: rest) = true).
  { apply rangesNonEmpty_Forall. constructor; [lia|]. by apply rangesNonEmpty_Forall. }
  by rewrite Hne, Hc.
Qed.

(** ** The number of blocks of a gap *)

Lemma rangeBlocks_spec gap :
  1 <= gap < 2 ^ 63 ->
  1 <= rangeBlocks gap /\ 255 * (rangeBlocks gap - 1) < gap <= 255 * rangeBlocks gap
  /\ rangeBlocks gap < 2 ^ 60.
Proof.
  intros Hg. unfold rangeBlocks.
  pose proof (Z.div_mod gap 255). pose proof (Z.mod_pos_bound gap 255).
  destruct (Z.eqb_spec (gap mod 255) 0); [rewrite u64_small by lia|]; lia.
Qed.

(** The gap byte of the last block. *)
Definition lastGap (gap : Z) : Z := u8 (1 + (u64 (gap - 1)) mod 255).

Lemma lastGap_spec gap :
  1 <= gap < 2 ^ 63 -> lastGap gap = gap - 255 * (rangeBlocks gap - 1) /\ 1 <= lastGap gap <= 255.
Proof.
  intros Hg. pose proof (rangeBlocks_spec gap Hg) as (H1 & H2 & _). unfold lastGap.
  rewrite u64_small by lia.
  assert (Hm : (gap - 1) mod 255 = gap - 1 - 255 * (rangeBlocks gap - 1)).
  { symmetry. apply (Z.mod_unique_pos _ _ (rangeBlocks gap - 1)); lia. }
  rewrite Hm, u8_small by lia. lia.
Qed.

Lemma rangeGap_eq prev r :
  r.(First) <= r.(Last) -> r.(Last) + 1 < prev.(First) -> 0 <= r.(First) -> prev.(First) < 2 ^ 48 ->
  rangeGap prev r = prev.(First) - r.(Last) - 1 /\ 1 <= rangeGap prev r < 2 ^ 48.
Proof. intros. unfold rangeGap. rewrite u64_small by lia. lia. Qed.

Lemma rangeLen_eq r :
  r.(First) <= r.(Last) -> range_bounds r ->
  rangeLen r = r.(Last) - r.(First) + 1 /\ 1 <= rangeLen r < 2 ^ 48.
Proof. unfold range_bounds, rangeLen. intros. rewrite u64_small by lia. lia. Qed.

Lemma rangeBlocks_gap_nonneg r r' : 0 <= rangeBlocks (rangeGap r r').
Proof.
  unfold rangeBlocks, rangeGap. pose proof (u64_range (First r - Last r' - 1)) as [H _].
  pose proof (Z.div_pos _ 255 H). destruct (_ =? 0); [apply u64_range|lia].
Qed.

(** ** The ranges that fit into a frame *)

Fixpoint writable (prev : AckRange) (rs : list AckRange) (n : Z) : list AckRange :=
  match rs with
  | [] => []
  | r :: rs =>
      let n' := n + rangeBlocks (rangeGap prev r) in
      if n' <? 255 then r :: writable r rs n' else []
  end.

Fixpoint totalBlocks (prev : AckRange) (rs : list AckRange) : Z :=
  match rs with
  | [] => 0
  | r :: rs => rangeBlocks (rangeGap prev r) + totalBlocks r rs
  end.

Lemma numWritable_writable rs : forall prev n,
  numWritable_loop prev rs n = n + totalBlocks prev (writable prev rs n).
Proof.
  induction rs as [|r rs IH]; intros prev n; simpl; [lia|].
  destruct (_ <? 255); simpl; [rewrite IH; lia|lia].
Qed.

Lemma writable_prefix rs : forall prev n, writable prev rs n `prefix_of` rs.
Proof.
  induction rs as [|r rs IH]; intros prev n; simpl; [done|].
  destruct (_ <? 255); [by apply prefix_cons|apply prefix_nil].
Qed.

Lemma writable_bound rs : forall prev n,
  n < 255 -> n + totalBlocks prev (writable prev rs n) < 255.
Proof.
  induction rs as [|r rs IH]; intros prev n Hn; simpl; [lia|].
  destruct (Z.ltb_spec (n + rangeBlocks (rangeGap prev r)) 255) as [Hlt|]; simpl; [|lia].
  specialize (IH r _ Hlt). lia.
Qed.

Lemma totalBlocks_nonneg rs : forall prev, 0 <= totalBlocks prev rs.
Proof.
  induction rs as [|r rs IH]; intros prev; simpl; [lia|].
  specialize (IH r). pose proof (rangeBlocks_gap_nonneg prev r). lia.
Qed.

(** All the ranges fit when their blocks do. *)
Lemma writable_all rs : forall prev n,
  0 <= n -> n + totalBlocks prev rs < 255 -> writable prev rs n = rs.
Proof.
  induction rs as [|r rs IH]; intros prev n Hn Hlt; simpl in *; [done|].
  pose proof (rangeBlocks_gap_nonneg prev r). pose proof (totalBlocks_nonneg rs r).
  destruct (Z.ltb_spec (n + rangeBlocks (rangeGap prev r)) 255); [|lia].
  rewrite IH by lia. done.
Qed.

Lemma chain_prefix rs : forall prev rs', rs' `prefix_of` rs -> chain prev rs -> chain prev rs'.
Proof.
  induction rs as [|r rs IH]; intros prev rs' Hp Hc.
  - by apply prefix_nil_inv in Hp as ->.
  - destruct rs' as [|r' rs']; [done|]. pose proof (prefix_cons_inv_1 _ _ _ _ Hp) as ->.
    apply prefix_cons_inv_2 in Hp. destruct Hc as (H1 & H2 & Hc).
    split; [done|]. split; [done|]. by apply IH.
Qed.

(** ** The block encoding *)

Section Blocks.
Variables version deltaLen : Z.
Hypothesis HdeltaLen : pnlen_ok deltaLen.

Fixpoint encLongGap (n : nat) (gap len : Z) : list Z :=
  match n with
  | O => []
  | S n =>
      [if (n =? 0)%nat then lastGap gap else 0xFF]
      ++ bo_enc (bo:=GetByteOrder version) (Z.to_nat deltaLen) (if (n =? 0)%nat then len else 0)
      ++ encLongGap n gap len
  end.

Definition encRange (prev r : AckRange) : list Z :=
  let gap := rangeGap prev r in encLongGap (Z.to_nat (rangeBlocks gap)) gap (rangeLen r).

Fixpoint encBlocks (prev : AckRange) (rs : list AckRange) : list Z :=
  match rs with
  | [] => []
  | r :: rs => encRange prev r ++ encBlocks r rs
  end.

Lemma length_encLongGap n gap len :
  Z.of_nat (length (encLongGap n gap len)) = (1 + deltaLen) * Z.of_nat n.
Proof.
  assert (0 <= deltaLen) by (unfold pnlen_ok in HdeltaLen; lia).
  induction n as [|n IH]; [simpl; lia|]. cbn [encLongGap].
  rewrite !length_app, bo_enc_length. cbn [length]. nia.
Qed.

Lemma length_encBlocks rs : forall prev,
  Z.of_nat (length (encBlocks prev rs)) = (1 + deltaLen) * totalBlocks prev rs.
Proof.
  induction rs as [|r rs IH]; intros prev; [simpl; lia|]. cbn [encBlocks totalBlocks].
  rewrite length_app, Nat2Z.inj_add, IH. unfold encRange. cbn zeta.
  rewrite length_encLongGap, Z2Nat.id by apply rangeBlocks_gap_nonneg. lia.
Qed.

Lemma writeLongGap_enc masked n gap len :
  in_width (8 * deltaLen) len ->
  writes (writeLongGap masked version deltaLen n gap len) (encLongGap n gap len).
Proof.
  intros Hlen. induction n as [|n IH]; [apply writes_wskip|].
  cbn [writeLongGap encLongGap]. cbn zeta.
  apply writes_seq; [destruct (n =? 0)%nat; apply writes_WriteByte|].
  apply writes_seq; [|exact IH]. apply writes_by_length; [done|].
  destruct (n =? 0)%nat; [done|]. unfold in_width, pnlen_ok in *. split; [lia|].
  apply Z.pow_pos_nonneg; lia.
Qed.

(** One block or many: the code's two branches write the same blocks. *)
Lemma write_range_enc masked prev r :
  1 <= rangeGap prev r < 2 ^ 63 -> in_width (8 * deltaLen) (rangeLen r) ->
  let gap := rangeGap prev r in
  writes
    (if rangeBlocks gap =? 1 then
       WriteByte (u8 gap) ;;; write_by_length masked version deltaLen (rangeLen r) wskip
     else writeLongGap masked version deltaLen (Z.to_nat (rangeBlocks gap)) gap (rangeLen r))
    (encRange prev r).
Proof.
  intros Hg Hlen gap. unfold encRange. fold gap.
  destruct (Z.eqb_spec (rangeBlocks gap) 1) as [H1|H1]; [|by apply writeLongGap_enc].
  rewrite H1. change (Z.to_nat 1) with 1%nat. cbn [encLongGap Nat.eqb].
  pose proof (lastGap_spec gap Hg) as [Hlg ?].
  rewrite app_nil_r, Hlg, H1. replace (gap - 255 * (1 - 1)) with gap by lia.
  rewrite u8_small by lia. apply writes_seq; [apply writes_WriteByte|]. by apply writes_by_length.
Qed.

Lemma num_eq gap :
  (if gap mod 255 =? 0 then u64 (gap / 255 + 1 - 1) else gap / 255 + 1) = rangeBlocks gap.
Proof.
  unfold rangeBlocks. rewrite (Z.add_comm 1 (gap / 255)). done.
Qed.

Definition fits (r : AckRange) : Prop := in_width (8 * deltaLen) (rangeLen r).

Lemma chain_gap prev r rs :
  chain prev (r :: rs) -> range_bounds r -> prev.(First) < 2 ^ 48 ->
  rangeGap prev r = prev.(First) - r.(Last) - 1 /\ 1 <= rangeGap prev r < 2 ^ 48.
Proof.
  intros (H1 & H2 & _) [H3 H4] H5. apply rangeGap_eq; lia.
Qed.

Lemma totalBlocks_pos rs : forall prev,
  chain prev rs -> Forall range_bounds rs -> prev.(First) < 2 ^ 48 ->
  Z.of_nat (length rs) <= totalBlocks prev rs.
Proof.
  induction rs as [|r rs IH]; intros prev Hc Hb Hp; simpl; [lia|].
  apply Forall_cons in Hb as [Hr Hb]. pose proof (chain_gap _ _ _ Hc Hr Hp) as [_ Hg].
  destruct (rangeBlocks_spec (rangeGap prev r)) as (? & _); [lia|].
  destruct Hc as (H1 & H2 & Hc). specialize (IH r Hc Hb). unfold range_bounds in Hr. lia.
Qed.

(** ** Writing the blocks *)

(** The loop writes the ranges that fit, and stops exactly after the last of
    them, provided at least one fits. *)
Lemma writeBlocks_enc masked rs : forall prev written k b,
  chain prev rs -> Forall range_bounds rs -> Forall fits rs -> prev.(First) < 2 ^ 48 ->
  1 <= written -> writable prev rs (written - 1) <> [] ->
  let n := numWritable_loop prev rs (written - 1) + 1 in
  writeBlocks masked version deltaLen n prev rs written k b
  = k n (b ++ encBlocks prev (writable prev rs (written - 1))).
Proof.
  induction rs as [|r rs IH]; intros prev written k b Hc Hb Hf Hp Hw Hne n; [done|].
  apply Forall_cons in Hb as [Hr Hb]. apply Forall_cons in Hf as [Hfr Hf].
  pose proof (chain_gap _ _ _ Hc Hr Hp) as [_ Hg].
  destruct (rangeBlocks_spec (rangeGap prev r)) as (Hb1 & Hb2 & Hb3); [lia|].
  destruct Hc as (Hc1 & Hc2 & Hc).
  cbn [writable] in *. cbn [writeBlocks]. cbn zeta. subst n. cbn [numWritable_loop]. cbn zeta.
  destruct (Z.ltb_spec (written - 1 + rangeBlocks (rangeGap prev r)) 255) as [Hlt|]; [|done].
  rewrite num_eq. unfold wseq at 1. rewrite write_range_enc by (done || lia).
  replace (written - 1 + rangeBlocks (rangeGap prev r))
    with (written + rangeBlocks (rangeGap prev r) - 1) by lia.
  rewrite u64_small by lia. set (w' := written + rangeBlocks (rangeGap prev r)) in *.
  assert (Hp' : First r < 2 ^ 48) by (unfold range_bounds in Hr; lia).
  cbn [encBlocks]. rewrite app_assoc.
  destruct (Z.leb_spec (numWritable_loop r rs (w' - 1) + 1) w') as [Hle|Hgt].
  - rewrite numWritable_writable in Hle.
    assert (Hnil : writable r rs (w' - 1) = []).
    { pose proof (totalBlocks_pos (writable r rs (w' - 1)) r) as Hpos.
      destruct (writable r rs (w' - 1)) eqn:Hwr; [done|]. exfalso. simpl length in Hpos.
      pose proof (writable_prefix rs r (w' - 1)) as Hpre. rewrite Hwr in Hpre.
      specialize (Hpos (chain_prefix _ _ _ Hpre Hc) (Forall_prefix _ _ _ Hpre Hb) Hp'). lia. }
    rewrite Hnil, numWritable_writable, Hnil. simpl. rewrite app_nil_r. f_equal. lia.
  - apply IH; [done..|lia|]. intros Hnil. rewrite numWritable_writable, Hnil in Hgt.
    simpl in Hgt. lia.
Qed.

(** ** Parsing the blocks *)

Lemma parseBlocks_step n rs inLong complete gap len r rs' complete' :
  in_width (8 * deltaLen) len ->
  parseBlock rs inLong complete gap len = Some (rs', complete') ->
  parseBlocks version deltaLen (S n) rs inLong complete
    (gap :: bo_enc (bo:=GetByteOrder version) (Z.to_nat deltaLen) len ++ r)
  = parseBlocks version deltaLen n rs' (len =? 0) complete' r.
Proof.
  intros Hlen Hblock. cbn [parseBlocks]. rstep.
  erewrite rbind_Ok.
  2:{ apply ReadUintN_enc; unfold pnlen_ok in *; [lia|lia|]. rewrite Z2Nat.id by lia. exact Hlen. }
  by rewrite Hblock.
Qed.

Lemma zero_fits : in_width (8 * deltaLen) 0.
Proof. unfold in_width, pnlen_ok in *. split; [lia|]. apply Z.pow_pos_nonneg; lia. Qed.

(** The blocks that continue a long gap. *)
Lemma parse_inLong n : forall m acc l gap len r,
  (0 < n)%nat -> 1 <= len -> in_width (8 * deltaLen) len -> 1 <= lastGap gap <= 255 ->
  l < 2 ^ 63 -> 0 <= l - 255 * Z.of_nat (n - 1) - lastGap gap - len + 1 ->
  parseBlocks version deltaLen (n + m) (acc ++ [mkRange (l + 1) l]) true false
    (encLongGap n gap len ++ r)
  = let last := l - 255 * Z.of_nat (n - 1) - lastGap gap in
    parseBlocks version deltaLen m (acc ++ [mkRange (last - len + 1) last]) false true r.
Proof.
  induction n as [|n IH]; intros m acc l gap len r Hn Hlen Hfit Hlg Hl Hlow; [lia|].
  cbn zeta. cbn [encLongGap]. rewrite <- !app_assoc. cbn [app Nat.add].
  destruct (Nat.eqb_spec n 0) as [->|Hn0].
  - erewrite parseBlocks_step; [|done|].
    2:{ unfold parseBlock. rewrite last_snoc. unfold setLast. rewrite removelast_last.
        cbn [First Last]. destruct (Z.ltb_spec 0 len); [done|lia]. }
    destruct (Z.eqb_spec len 0); [lia|]. cbn [Nat.add encLongGap app].
    rewrite !u64_small by (rewrite ?u64_small; lia). do 4 f_equal; lia.
  - erewrite parseBlocks_step; [|apply zero_fits|].
    2:{ unfold parseBlock. rewrite last_snoc. unfold setLast. rewrite removelast_last.
        cbn [First Last]. done. }
    cbn [Z.eqb]. rewrite !u64_small by (rewrite ?u64_small; lia).
    replace (l + 1 - (255 + 0)) with (l - 255 + 1) by lia.
    rewrite IH by (done || lia). cbn zeta. do 4 f_equal; lia.
Qed.

(** The blocks of one range, after a complete range. *)
Lemma parse_range m ranges prev r c rest :
  last ranges = Some prev -> chain prev [r] -> range_bounds r -> fits r -> prev.(First) < 2 ^ 48 ->
  parseBlocks version deltaLen (Z.to_nat (rangeBlocks (rangeGap prev r)) + m) ranges false c
    (encRange prev r ++ rest)
  = parseBlocks version deltaLen m (ranges ++ [r]) false true rest.
Proof.
  intros Hlast Hc Hr Hfit Hp. pose proof (chain_gap _ _ _ Hc Hr Hp) as [Hgeq Hg].
  destruct Hc as (Hc1 & Hc2 & _). destruct Hr as [Hr1 Hr2].
  destruct (rangeBlocks_spec (rangeGap prev r)) as (Hb1 & Hb2 & Hb3); [lia|].
  destruct (lastGap_spec (rangeGap prev r)) as [Hlg Hlg2]; [lia|].
  destruct (rangeLen_eq r Hc1) as [Hlen Hlen2]; [done|].
  unfold encRange. cbn zeta. set (n := rangeBlocks (rangeGap prev r)) in *.
  destruct (Z.to_nat n) as [|n'] eqn:Hn; [lia|]. cbn [encLongGap].
  rewrite <- !app_assoc. cbn [app Nat.add].
  destruct (Nat.eqb_spec n' 0) as [->|Hn0].
  - erewrite parseBlocks_step; [|done|].
    2:{ unfold parseBlock. rewrite Hlast. cbn [First Last].
        destruct (Z.ltb_spec 0 (rangeLen r)); [done|lia]. }
    destruct (Z.eqb_spec (rangeLen r) 0); [lia|]. cbn [Nat.add encLongGap app].
    rewrite !u64_small by (rewrite ?u64_small; lia). do 4 f_equal.
    destruct r as [f l]. cbn [First Last] in *. f_equal; lia.
  - erewrite parseBlocks_step; [|apply zero_fits|].
    2:{ unfold parseBlock. rewrite Hlast. cbn [First Last]. done. }
    cbn [Z.eqb]. rewrite !u64_small by (rewrite ?u64_small; lia).
    replace (First prev - 255 - 1 - 0 + 1) with (First prev - 255 - 1 + 1) by lia.
    rewrite parse_inLong by (done || lia). cbn zeta. do 4 f_equal.
    destruct r as [f l]. cbn [First Last] in *. f_equal; lia.
Qed.

(** All the blocks. *)
Lemma parseBlocks_enc rs : forall acc prev c rest,
  chain prev rs -> Forall range_bounds rs -> Forall fits rs -> prev.(First) < 2 ^ 48 ->
  parseBlocks version deltaLen (Z.to_nat (totalBlocks prev rs)) (acc ++ [prev]) false c
    (encBlocks prev rs ++ rest)
  = Ok ((acc ++ prev :: rs, match rs with [] => c | _ => true end), rest).
Proof.
  induction rs as [|r rs IH]; intros acc prev c rest Hc Hb Hf Hp; [done|].
  apply Forall_cons in Hb as [Hr Hb]. apply Forall_cons in Hf as [Hfr Hf].
  destruct Hc as (Hc1 & Hc2 & Hc). cbn [totalBlocks encBlocks].
  rewrite Z2Nat.inj_add by (apply rangeBlocks_gap_nonneg || apply totalBlocks_nonneg).
  rewrite <- app_assoc, (parse_range _ _ prev) by (rewrite ?last_snoc; done || lia).
  rewrite IH by (done || (unfold range_bounds in Hr; lia)).
  rewrite <- !app_assoc. by destruct rs.
Qed.

End Blocks.

(** ** Length of the block length field *)

Lemma maxRangeLength_ge rs : forall m,
  m <= maxRangeLength rs m /\ Forall (fun r => rangeLen r <= maxRangeLength rs m) rs.
Proof.
  induction rs as [|r rs IH]; intros m; simpl; [split; [lia|constructor]|].
  set (m' := if m <? rangeLen r then rangeLen r else m).
  assert (Hm : m <= m' /\ rangeLen r <= m') by (unfold m'; zcases; lia).
  destruct (IH m') as [H1 H2]. split; [lia|]. constructor; [lia|done].
Qed.

Lemma maxRangeLength_lt rs k : forall m,
  m < k -> Forall (fun r => rangeLen r < k) rs -> maxRangeLength rs m < k.
Proof.
  induction rs as [|r rs IH]; intros m Hm Hrs; simpl; [done|].
  apply Forall_cons in Hrs as [Hr Hrs]. apply IH; [|done]. zcases; lia.
Qed.

(** The lengths of the first block and of all the ranges fit into the field. *)
Definition firstBlockLen (largest lowest : Z) (rs : list AckRange) : Z :=
  match rs with [] => largest - lowest + 1 | r0 :: _ => largest - r0.(First) + 1 end.

Lemma delta_len_width m :
  0 <= m < 2 ^ 48 ->
  let l := if m <=? 0xFF then PacketNumberLen1 else if m <=? 0xFFFF then PacketNumberLen2
           else if m <=? 0xFFFFFFFF then PacketNumberLen4 else PacketNumberLen6 in
  pnlen_ok l /\ m < 2 ^ (8 * l).
Proof.
  intros Hm. cbn zeta. unfold PacketNumberLen1, PacketNumberLen2, PacketNumberLen4, PacketNumberLen6,
    pnlen_ok. zcases; split; lia.
Qed.

Lemma chain_nonempty rs : forall prev, chain prev rs -> Forall (fun r => r.(First) <= r.(Last)) rs.
Proof.
  induction rs as [|r rs IH]; intros prev; [constructor|]. intros (H1 & _ & H). constructor; eauto.
Qed.

Lemma ranges_wf_nonempty largest lowest rs :
  ranges_wf largest lowest rs -> Forall (fun r => r.(First) <= r.(Last)) rs.
Proof.
  destruct rs as [|r0 rest]; [constructor|]. intros (_ & _ & H0 & Hc & _).
  constructor; [done|]. by eapply chain_nonempty.
Qed.

Lemma ranges_wf_bounds largest lowest rs : ranges_wf largest lowest rs -> Forall range_bounds rs.
Proof. destruct rs; [constructor|]. by intros (_ & _ & _ & _ & ? & _). Qed.

Lemma deltaLen_fits largest lowest rs :
  ranges_wf largest lowest rs ->
  let l := getMissingSequenceNumberDeltaLen largest lowest rs in
  pnlen_ok l /\ Forall (fits l) rs /\ in_width (8 * l) (firstBlockLen largest lowest rs)
  /\ 1 <= firstBlockLen largest lowest rs <= largest.
Proof.
  intros Hwf l. pose proof (ranges_wf_nonempty _ _ _ Hwf) as Hne.
  pose proof (ranges_wf_bounds _ _ _ Hwf) as Hb.
  assert (Hlen : Forall (fun r => 1 <= rangeLen r < 2 ^ 48) rs).
  { rewrite Forall_forall in *. intros r Hr.
    by destruct (rangeLen_eq r (Hne r Hr) (Hb r Hr)). }
  unfold l, getMissingSequenceNumberDeltaLen. destruct rs as [|r0 rest].
  - destruct Hwf as [H1 H2]. cbn [HasMissingRanges length Nat.eqb negb firstBlockLen].
    rewrite u64_small by lia.
    destruct (delta_len_width (largest - lowest + 1)) as [Hok Hlt]; [lia|].
    split; [done|]. split; [constructor|]. unfold in_width. split; [split; [lia|exact Hlt]|lia].
  - cbn [HasMissingRanges length Nat.eqb negb firstBlockLen].
    pose proof (maxRangeLength_ge (r0 :: rest) 0) as [Hm0 Hm].
    assert (Hmlt : maxRangeLength (r0 :: rest) 0 < 2 ^ 48).
    { apply maxRangeLength_lt; [lia|]. eapply Forall_impl; [exact Hlen|]. simpl. lia. }
    destruct (delta_len_width (maxRangeLength (r0 :: rest) 0)) as [Hok Hlt]; [lia|].
    set (dl := if maxRangeLength (r0 :: rest) 0 <=? 0xFF then _ else _) in *.
    assert (Hfit : Forall (fits dl) (r0 :: rest)).
    { rewrite Forall_forall in *. intros r Hr. specialize (Hm r Hr). specialize (Hlen r Hr).
      unfold fits, in_width. lia. }
    split; [done|]. split; [done|].
    apply Forall_cons in Hfit as [Hf0 _]. apply Forall_cons in Hne as [Hn0 _].
    apply Forall_cons in Hb as [Hb0 _]. destruct (rangeLen_eq r0 Hn0 Hb0) as [Heq _].
    destruct Hwf as (_ & HL & _). unfold fits in Hf0. rewrite Heq in Hf0. rewrite <- HL.
    split; [done|]. unfold range_bounds in Hb0. lia.
Qed.

(** ** The ranges on the wire *)

Definition writtenRanges (rs : list AckRange) : list AckRange :=
  match rs with [] => [] | r0 :: rest => r0 :: writable r0 rest 0 end.

Definition writtenLowest (lowest : Z) (rs : list AckRange) : Z :=
  match writtenRanges rs with [] => lowest | r0 :: rest => (default r0 (last (r0 :: rest))).(First) end.

(** The first gap takes fewer than 255 blocks, so that the writer can write at
    least one range after the first. *)
Definition first_gap_fits (rs : list AckRange) : Prop :=
  match rs with
  | r0 :: r1 :: _ => r0.(First) - r1.(Last) - 1 <= 255 * 254
  | _ => True
  end.

Definition encRanges (version deltaLen largest lowest : Z) (rs : list AckRange) : list Z :=
  bo_enc (bo:=GetByteOrder version) (Z.to_nat deltaLen) (firstBlockLen largest lowest rs)
  ++ match rs with [] => [] | r0 :: rest => encBlocks version deltaLen r0 (writable r0 rest 0) end.

Lemma writable_first r0 r1 rest :
  first_gap_fits (r0 :: r1 :: rest) -> chain r0 (r1 :: rest) -> range_bounds r1 ->
  r0.(First) < 2 ^ 48 -> writable r0 (r1 :: rest) 0 <> [].
Proof.
  intros Hf Hc Hr Hp. destruct (chain_gap _ _ _ Hc Hr Hp) as [Heq Hg]. simpl in Hf.
  destruct (rangeBlocks_spec (rangeGap r0 r1)) as (H1 & H2 & _); [lia|].
  cbn [writable]. cbn zeta. destruct (Z.ltb_spec (0 + rangeBlocks (rangeGap r0 r1)) 255); [done|lia].
Qed.

Lemma first_block_bound largest lowest r0 rest :
  ranges_wf largest lowest (r0 :: rest) -> r0.(First) < 2 ^ 48 /\ range_bounds r0.
Proof.
  intros (_ & _ & H0 & _ & Hb & _). apply Forall_cons in Hb as [Hr0 _].
  split; [unfold range_bounds in Hr0; lia|done].
Qed.

Lemma writeRanges_enc masked version largest lowest rs errBug tail tl :
  ranges_wf largest lowest rs -> first_gap_fits rs -> writes tail tl ->
  let l := getMissingSequenceNumberDeltaLen largest lowest rs in
  writes (writeRanges masked version l errBug largest lowest rs (numWritableNackRanges rs) tail)
    (encRanges version l largest lowest rs ++ tl).
Proof.
  intros Hwf Hgap Htail l. destruct (deltaLen_fits _ _ _ Hwf) as (Hok & Hfit & Hfst & Hfst1).
  fold l in Hok, Hfit, Hfst. unfold writeRanges, encRanges. destruct rs as [|r0 rest].
  - cbn [numWritableNackRanges]. rewrite app_nil_r. cbn [firstBlockLen] in *.
    destruct Hwf as [H1 H2]. rewrite u64_small by lia.
    apply writes_seq; [by apply writes_by_length|].
    eapply writes_eq; [apply app_nil_l|]. apply writes_seq; [by apply writes_wguard|done].
  - pose proof (first_block_bound _ _ _ _ Hwf) as [Hp Hr0].
    destruct Hwf as (Hne & HL & H0 & Hc & Hb & Hlow).
    cbn [firstBlockLen] in *. intros b.
    unfold wseq at 1. rewrite HL, Z.eqb_refl. cbn [negb wguard].
    unfold wseq at 1. rewrite Hlow, Z.eqb_refl. cbn [negb wguard].
    unfold wseq at 1. rewrite u64_small by (unfold range_bounds in Hr0; lia).
    rewrite writes_by_length by done.
    destruct rest as [|r1 rest]; [done|].
    apply Forall_cons in Hb as [_ Hb]. apply Forall_cons in Hfit as [_ Hfit].
    assert (Hw : writable r0 (r1 :: rest) 0 <> []).
    { apply writable_first; [done..| |done]. by apply Forall_cons in Hb as [? _]. }
    cbn [numWritableNackRanges].
    pose proof (writeBlocks_enc version l Hok masked (r1 :: rest) r0 1) as Hwb.
    change (1 - 1) with 0 in Hwb. rewrite Hwb by (done || lia).
    unfold wseq. rewrite Z.eqb_refl. cbn [negb wguard]. rewrite Htail.
    by rewrite <- !app_assoc.
Qed.

Lemma parseRanges_enc version largest lowest rs r :
  ranges_wf largest lowest rs -> first_gap_fits rs ->
  let l := getMissingSequenceNumberDeltaLen largest lowest rs in
  parseRanges version l (HasMissingRanges rs) (numWritableNackRanges rs - 1) largest
    (firstBlockLen largest lowest rs)
    (match rs with [] => [] | r0 :: rest => encBlocks version l r0 (writable r0 rest 0) end ++ r)
  = Ok ((writtenRanges rs, writtenLowest lowest rs), r).
Proof.
  intros Hwf Hgap l. destruct (deltaLen_fits _ _ _ Hwf) as (Hok & Hfit & Hfst & Hfst1).
  fold l in Hok, Hfit, Hfst. unfold parseRanges. destruct rs as [|r0 rest].
  - cbn [HasMissingRanges length Nat.eqb negb app writtenLowest writtenRanges firstBlockLen].
    destruct Hwf as [H1 H2]. destruct (Z.eqb_spec largest 0); [lia|].
    unfold mret, reader_ret. rewrite u64_small by lia. do 3 f_equal. lia.
  - pose proof (first_block_bound _ _ _ _ Hwf) as [Hp Hr0].
    destruct Hwf as (Hne & HL & H0 & Hc & Hb & Hlow).
    destruct rest as [|r1 rest]; [done|].
    cbn [HasMissingRanges length Nat.eqb negb firstBlockLen numWritableNackRanges].
    apply Forall_cons in Hb as [_ Hb]. apply Forall_cons in Hfit as [_ Hfit].
    assert (Hw : writable r0 (r1 :: rest) 0 <> []).
    { apply writable_first; [done..| |done]. by apply Forall_cons in Hb as [? _]. }
    pose proof (writable_prefix (r1 :: rest) r0 0) as Hpre.
    rewrite numWritable_writable, Z.add_0_l, Z.add_simpl_r.
    assert (Hfirst : mkRange (u64 (u64 (largest - (largest - First r0 + 1)) + 1)) largest = r0).
    { destruct r0 as [f l0]. unfold range_bounds in Hr0. cbn [First Last] in *.
      rewrite (u64_small (largest - _)), u64_small by lia. f_equal; lia. }
    cbn zeta. rewrite Hfirst. change [r0] with ([] ++ [r0]).
    erewrite rbind_Ok.
    2:{ apply parseBlocks_enc; [done|by eapply chain_prefix|by eapply Forall_prefix|
        by eapply Forall_prefix|done]. }
    cbn [app fst snd]. unfold writtenLowest, writtenRanges.
    destruct (writable r0 (r1 :: rest) 0) as [|w ws] eqn:Hweq; [done|].
    destruct (last (r0 :: w :: ws)) as [x|] eqn:Hlast; [done|].
    by apply last_None in Hlast.
Qed.

Lemma ranges_wf_written largest lowest rs :
  ranges_wf largest lowest rs -> first_gap_fits rs ->
  ranges_wf largest (writtenLowest lowest rs) (writtenRanges rs).
Proof.
  intros Hwf Hgap. destruct rs as [|r0 [|r1 rest]]; [done|by destruct Hwf as [? _]|].
  pose proof (first_block_bound _ _ _ _ Hwf) as [Hp Hr0].
  destruct Hwf as (_ & HL & H0 & Hc & Hb & _).
  pose proof (writable_prefix (r1 :: rest) r0 0) as Hpre.
  apply Forall_cons in Hb as [_ Hb].
  split; [apply writable_first; [done..|by apply Forall_cons in Hb as [? _]|done]|].
  split; [done|]. split; [done|]. split; [by eapply chain_prefix|].
  split; [constructor; [done|by eapply Forall_prefix]|done].
Qed.

(** All the ranges are written when their blocks fit into one byte. *)
Lemma writtenRanges_all rs :
  match rs with [] => True | r0 :: rest => totalBlocks r0 rest < 255 end -> writtenRanges rs = rs.
Proof. destruct rs as [|r0 rest]; [done|]. intros H. simpl. by rewrite writable_all by lia. Qed.

(** ** Header bytes *)

Lemma pnlen_cases (P : Z -> Prop) l : pnlen_ok l -> P 1 -> P 2 -> P 4 -> P 6 -> P l.
Proof. by intros [->|[->|[->| ->]]]. Qed.

(** The length fields that the parsers decode from the low bits of a header. *)
Definition len_fields (b : Z) : Z * Z :=
  let ll := u8 (2 * Z.shiftr (Z.land b 0x0C) 2) in
  let dl := u8 (2 * Z.land b 0x03) in
  (if ll =? 0 then 1 else ll, if dl =? 0 then 1 else dl).

Definition ack_tb (ll dl : Z) (miss path : bool) : Z :=
  let b := 0x40 in
  let b := if negb (ll =? PacketNumberLen1) then Z.lxor b (u8 (Z.shiftl (ll / 2) 2)) else b in
  let b := if negb (dl =? PacketNumberLen1) then Z.lxor b (dl / 2) else b in
  let b := if miss then Z.lor b 0x20 else b in
  if path then Z.lor b 0x10 else b.

Lemma ack_tb_fields ll dl miss path :
  pnlen_ok ll -> pnlen_ok dl ->
  len_fields (ack_tb ll dl miss path) = (ll, dl)
  /\ (Z.land (ack_tb ll dl miss path) 0x20 =? 0x20) = miss
  /\ (Z.land (ack_tb ll dl miss path) 0x10 =? 0x10) = path
  /\ Z.land (ack_tb ll dl miss path) 0xc0 = 0x40.
Proof.
  intros Hll Hdl. pattern ll. apply pnlen_cases; [done|..]; pattern dl;
    (apply pnlen_cases; [done|..]); destruct miss, path; vm_compute; auto.
Qed.

Definition cp_flags (ll dl : Z) (miss : bool) : Z :=
  let b := 0x00 in
  let b := if miss then Z.lor b 0x10 else b in
  let b := if negb (ll =? PacketNumberLen1) then Z.lxor b (u8 (Z.shiftl (ll / 2) 2)) else b in
  if negb (dl =? PacketNumberLen1) then Z.lxor b (dl / 2) else b.

Lemma cp_flags_fields ll dl miss :
  pnlen_ok ll -> pnlen_ok dl ->
  len_fields (cp_flags ll dl miss) = (ll, dl)
  /\ (Z.land (cp_flags ll dl miss) 0x10 =? 0x10) = miss.
Proof.
  intros Hll Hdl. pattern ll. apply pnlen_cases; [done|..]; pattern dl;
    (apply pnlen_cases; [done|..]); destruct miss; vm_compute; auto.
Qed.

Lemma ranges_wf_largest largest lowest rs :
  ranges_wf largest lowest rs -> 1 <= largest < 2 ^ 48.
Proof.
  intros Hwf. pose proof (deltaLen_fits _ _ _ Hwf) as (_ & _ & _ & H).
  destruct rs as [|r0 rest]; [destruct Hwf; lia|].
  destruct (first_block_bound _ _ _ _ Hwf) as [_ Hr0]. destruct Hwf as (_ & <- & _).
  unfold range_bounds in Hr0. lia.
Qed.

Lemma numWritable_range r0 rest :
  0 <= numWritableNackRanges (r0 :: rest) - 1 < 255.
Proof.
  cbn [numWritableNackRanges]. rewrite numWritable_writable.
  pose proof (totalBlocks_nonneg (writable r0 rest 0) r0).
  pose proof (writable_bound rest r0 0). lia.
Qed.

Lemma numWritable_pos largest lowest r0 rest :
  ranges_wf largest lowest (r0 :: rest) -> first_gap_fits (r0 :: rest) ->
  1 <= numWritableNackRanges (r0 :: rest) - 1.
Proof.
  intros Hwf Hgap. pose proof (ranges_wf_written _ _ _ Hwf Hgap) as (Hne & _ & _ & Hc & Hb & _).
  pose proof (first_block_bound _ _ _ _ Hwf) as [Hp _].
  cbn [numWritableNackRanges]. rewrite numWritable_writable. apply Forall_cons in Hb as [_ Hb].
  pose proof (totalBlocks_pos _ _ Hc Hb Hp). destruct (writable r0 rest 0); [done|].
  simpl length in *. lia.
Qed.

(** ** The frames on the wire *)

Lemma numRanges_eq rs :
  (if HasMissingRanges rs then numWritableNackRanges rs else 0) = numWritableNackRanges rs.
Proof. by destruct rs. Qed.

Lemma writes_numRanges rs :
  writes (wwhen (HasMissingRanges rs)
    (if 0xFF <? numWritableNackRanges rs then wpanic
     else WriteByte (u8 (numWritableNackRanges rs - 1))))
    (if HasMissingRanges rs then [numWritableNackRanges rs - 1] else []).
Proof.
  destruct rs as [|r0 rest]; [apply writes_wskip|].
  pose proof (numWritable_range r0 rest). cbn [HasMissingRanges length Nat.eqb negb wwhen].
  destruct (Z.ltb_spec 0xFF (numWritableNackRanges (r0 :: rest))); [lia|].
  rewrite u8_small by lia. auto with wire.
Qed.

(** The number of blocks as the parsers read it. *)
Definition numBlocks (rs : list AckRange) : Z :=
  if HasMissingRanges rs then numWritableNackRanges rs - 1 else 0.

Lemma read_numRanges rs r :
  (if HasMissingRanges rs then ReadByte else mret 0)
    ((if HasMissingRanges rs then [numWritableNackRanges rs - 1] else []) ++ r)
  = Ok (numBlocks rs, r).
Proof. unfold numBlocks. by destruct (HasMissingRanges rs). Qed.

Lemma numRanges_guard largest lowest rs :
  ranges_wf largest lowest rs -> first_gap_fits rs ->
  HasMissingRanges rs && (numBlocks rs =? 0) = false.
Proof.
  intros Hwf Hgap. unfold numBlocks. destruct rs as [|r0 rest]; [done|].
  pose proof (numWritable_pos _ _ _ _ Hwf Hgap). cbn [HasMissingRanges length Nat.eqb negb andb].
  zcases; [lia|done].
Qed.

Lemma parseRanges_enc' version largest lowest rs r :
  ranges_wf largest lowest rs -> first_gap_fits rs ->
  let l := getMissingSequenceNumberDeltaLen largest lowest rs in
  parseRanges version l (HasMissingRanges rs) (numBlocks rs) largest
    (firstBlockLen largest lowest rs)
    (match rs with [] => [] | r0 :: rest => encBlocks version l r0 (writable r0 rest 0) end ++ r)
  = Ok ((writtenRanges rs, writtenLowest lowest rs), r).
Proof.
  intros Hwf Hgap l. pose proof (parseRanges_enc version _ _ _ r Hwf Hgap) as H.
  unfold numBlocks. destruct rs; exact H.
Qed.

Lemma length_encRanges version largest lowest rs :
  ranges_wf largest lowest rs ->
  let l := getMissingSequenceNumberDeltaLen largest lowest rs in
  Z.of_nat (length (encRanges version l largest lowest rs))
  = if HasMissingRanges rs then (1 + l) * numWritableNackRanges rs - 1 else l.
Proof.
  intros Hwf l. destruct (deltaLen_fits _ _ _ Hwf) as (Hok & _). fold l in Hok.
  pose proof Hok as Hok'. unfold pnlen_ok in Hok'. unfold encRanges.
  rewrite length_app, bo_enc_length, Nat2Z.inj_add, Z2Nat.id by lia.
  destruct rs as [|r0 rest]; cbn [HasMissingRanges length Nat.eqb negb numWritableNackRanges]; [lia|].
  rewrite length_encBlocks, numWritable_writable by done. lia.
Qed.

Module AckProofs.
Import AckFrame.

Definition wf (f : t) : Prop :=
  in_width 8 f.(PathID) /\ ranges_wf f.(LargestAcked) f.(LowestAcked) f.(AckRanges)
  /\ first_gap_fits f.(AckRanges).

Definition enc (f : t) (version now : Z) : list Z :=
  [typeByte f]
  ++ (if negb (f.(PathID) =? InitialPathID) then [f.(PathID)] else [])
  ++ bo_enc (bo:=GetByteOrder version) (Z.to_nat (GetPacketNumberLength f.(LargestAcked))) f.(LargestAcked)
  ++ bo_enc (bo:=GetByteOrder version) 2 (PathsFrame.rtt_wire (now - f.(PacketReceivedTime)))
  ++ (if HasMissingRanges f.(AckRanges) then [numWritableNackRanges f.(AckRanges) - 1] else [])
  ++ encRanges version (getDeltaLen f) f.(LargestAcked) f.(LowestAcked) f.(AckRanges)
  ++ [0].

(** The frame that the peer gets. *)
Definition received (f : t) (now : Z) : t :=
  mk f.(PathID) f.(LargestAcked) (writtenLowest f.(LowestAcked) f.(AckRanges))
    (writtenRanges f.(AckRanges)) 0 (PathsFrame.rtt_rounded (now - f.(PacketReceivedTime))).

Lemma ack_Write_enc f version now :
  wf f -> writes (writeBytes f version now) (enc f version now).
Proof.
  intros (Hp & Hwf & Hgap). pose proof (ranges_wf_largest _ _ _ Hwf) as HL.
  destruct (GetPacketNumberLength_spec f.(LargestAcked)) as (Hok & Hfit & _);
    [unfold in_width; lia|].
  unfold writeBytes, enc. cbn zeta. rewrite numRanges_eq.
  apply writes_seq; [auto with wire|].
  apply writes_seq; [apply writes_wwhen; unwrap; auto with wire|].
  apply writes_seq; [by apply writes_by_length|].
  apply writes_seq; [apply bo_WriteUint16|].
  apply writes_seq; [apply writes_numRanges|]. apply writeRanges_enc; auto with wire.
Qed.

Lemma ack_Parse_enc f version now r :
  wf f -> Parse version (enc f version now ++ r) = Ok (received f now, r).
Proof.
  intros (Hp & Hwf & Hgap). unfold Parse, enc.
  pose proof (ranges_wf_largest _ _ _ Hwf) as HL.
  destruct (GetPacketNumberLength_spec f.(LargestAcked)) as (Hok & Hfit & _);
    [unfold in_width; lia|].
  destruct (deltaLen_fits _ _ _ Hwf) as (Hdok & _ & Hdfit & Hfst).
  change (getMissingSequenceNumberDeltaLen _ _ _) with (getDeltaLen f) in Hdok, Hdfit.
  destruct (ack_tb_fields _ _ (HasMissingRanges f.(AckRanges)) (negb (f.(PathID) =? InitialPathID))
    Hok Hdok) as (Htb & Hmiss & Hpath & _).
  change (ack_tb _ _ _ _) with (typeByte f) in Htb, Hmiss, Hpath.
  injection Htb as Hll Hdl.
  cbn [app]. rstep. cbn zeta. rewrite Hmiss, Hpath, Hll, Hdl. rewrite <- !app_assoc.
  erewrite rbind_Ok.
  2:{ instantiate (2 := f.(PathID)). destruct (Z.eqb_spec f.(PathID) InitialPathID) as [->|]; done. }
  unfold pnlen_ok in Hok, Hdok.
  erewrite rbind_Ok; [|apply ReadUintN_enc; [lia|lia|rewrite Z2Nat.id by lia; exact Hfit]].
  unfold readUfloat16.
  erewrite rbind_Ok;
    [|erewrite rbind_Ok; [|apply ReadUint16_enc, PathsFrame.rtt_wire_range]; done].
  erewrite rbind_Ok; [|apply read_numRanges].
  erewrite rbind_Ok; [|apply rguard_false; by eapply numRanges_guard].
  unfold encRanges. rewrite <- !app_assoc.
  erewrite rbind_Ok; [|apply ReadUintN_enc; [lia|lia|rewrite Z2Nat.id by lia; exact Hdfit]].
  erewrite rbind_Ok; [|apply rguard_false; zcases; (done || lia)].
  erewrite rbind_Ok; [|apply rguard_false; zcases; (done || lia)].
  erewrite rbind_Ok; [|by apply parseRanges_enc'].
  cbn [fst snd].
  pose proof (ranges_wf_validate _ _ _ (ranges_wf_written _ _ _ Hwf Hgap)) as Hval.
  erewrite rbind_Ok; [|apply rguard_false; by rewrite Hval].
  erewrite rbind_Ok; [|done]. done.
Qed.

Lemma length_ack_enc f version now :
  wf f -> MinLength f version = Ok (Z.of_nat (length (enc f version now))).
Proof.
  intros (Hp & Hwf & Hgap). unfold MinLength, enc. cbn zeta.
  pose proof (length_encRanges version _ _ _ Hwf) as Hl.
  change (getMissingSequenceNumberDeltaLen _ _ _) with (getDeltaLen f) in Hl.
  pose proof (GetPacketNumberLength_ok f.(LargestAcked)) as Hok. unfold pnlen_ok in Hok.
  rewrite !length_app, !bo_enc_length, !Nat2Z.inj_add, Z2Nat.id by lia. f_equal.
  destruct (HasMissingRanges (AckRanges f)), (f.(PathID) =? InitialPathID);
    cbn [negb length] in *; lia.
Qed.

(** C15: an ACK frame is read back with the same path, the same largest packet
    and exactly the ranges that fit into one frame (at most 254 blocks after
    the first), also when gaps are longer than 255 packets; the delay is
    rounded to the 16-bit float, and [MinLength] is the length written. *)
Theorem AckFrame_roundtrip f version now b r :
  wf f ->
  exists bytes, (Write f version now b).2 = WOk (b ++ bytes)
    /\ Parse version (bytes ++ r) = Ok (received f now, r)
    /\ MinLength f version = Ok (Z.of_nat (length bytes)).
Proof.
  intros Hwf. exists (enc f version now).
  split; [by apply (ack_Write_enc f version now Hwf)|]. split; [by apply ack_Parse_enc|by apply length_ack_enc].
Qed.

Lemma AckFrame_roundtrip_witness :
  let f := mk 3 1000 5 [mkRange 900 1000; mkRange 20 30; mkRange 5 7] 0 0 in
  exists bytes, (Write f Version39 5000000 []).2 = WOk ([] ++ bytes)
    /\ Parse Version39 (bytes ++ [9]) = Ok (received f 5000000, [9])
    /\ MinLength f Version39 = Ok (Z.of_nat (length bytes)).
Proof.
  intros f. apply (AckFrame_roundtrip f Version39 5000000 [] [9]).
  unfold wf, f, in_width, range_bounds. cbn. repeat split; try lia; try discriminate.
  repeat constructor; cbn; lia.
Defined.

End AckProofs.

Module ClosePathProofs.
Import ClosePathFrame.

Definition wf (f : t) : Prop :=
  in_width 8 f.(PathID) /\ ranges_wf f.(LargestAcked) f.(LowestAcked) f.(AckRanges)
  /\ first_gap_fits f.(AckRanges).

Definition enc (f : t) (version : Z) : list Z :=
  [0x11] ++ [f.(PathID)] ++ [flags f]
  ++ (if HasMissingRanges f.(AckRanges) then [numWritableNackRanges f.(AckRanges) - 1] else [])
  ++ bo_enc (bo:=GetByteOrder version) (Z.to_nat (GetPacketNumberLength f.(LargestAcked))) f.(LargestAcked)
  ++ encRanges version (getDeltaLen f) f.(LargestAcked) f.(LowestAcked) f.(AckRanges).

Definition received (f : t) : t :=
  mk f.(PathID) f.(LargestAcked) (writtenLowest f.(LowestAcked) f.(AckRanges))
    (writtenRanges f.(AckRanges)).

Lemma cp_Write_enc f version : wf f -> writes (Write f version) (enc f version).
Proof.
  intros (Hp & Hwf & Hgap). pose proof (ranges_wf_largest _ _ _ Hwf) as HL.
  destruct (GetPacketNumberLength_spec f.(LargestAcked)) as (Hok & Hfit & _);
    [unfold in_width; lia|].
  unfold Write, enc. cbn zeta. rewrite numRanges_eq.
  apply writes_seq; [auto with wire|].
  apply writes_seq; [unwrap; auto with wire|].
  apply writes_seq; [auto with wire|].
  apply writes_seq; [apply writes_numRanges|].
  apply writes_seq; [by apply writes_by_length|].
  eapply writes_eq; [apply app_nil_r|]. apply writeRanges_enc; auto with wire.
Qed.

Lemma cp_Parse_enc f version r :
  wf f -> Parse version (enc f version ++ r) = Ok (received f, r).
Proof.
  intros (Hp & Hwf & Hgap). unfold Parse, enc.
  pose proof (ranges_wf_largest _ _ _ Hwf) as HL.
  destruct (GetPacketNumberLength_spec f.(LargestAcked)) as (Hok & Hfit & _);
    [unfold in_width; lia|].
  destruct (deltaLen_fits _ _ _ Hwf) as (Hdok & _ & Hdfit & Hfst).
  change (getMissingSequenceNumberDeltaLen _ _ _) with (getDeltaLen f) in Hdok, Hdfit.
  destruct (cp_flags_fields _ _ (HasMissingRanges f.(AckRanges)) Hok Hdok) as (Htb & Hmiss).
  change (cp_flags _ _ _) with (flags f) in Htb, Hmiss. injection Htb as Hll Hdl.
  cbn [app]. rstep. rstep. rstep. cbn zeta. rewrite Hmiss, Hll, Hdl. rewrite <- !app_assoc.
  erewrite rbind_Ok; [|apply read_numRanges].
  erewrite rbind_Ok; [|apply rguard_false; by eapply numRanges_guard].
  unfold pnlen_ok in Hok, Hdok.
  erewrite rbind_Ok; [|apply ReadUintN_enc; [lia|lia|rewrite Z2Nat.id by lia; exact Hfit]].
  unfold encRanges. rewrite <- !app_assoc.
  erewrite rbind_Ok; [|apply ReadUintN_enc; [lia|lia|rewrite Z2Nat.id by lia; exact Hdfit]].
  erewrite rbind_Ok; [|apply rguard_false; zcases; (done || lia)].
  erewrite rbind_Ok; [|apply rguard_false; zcases; (done || lia)].
  erewrite rbind_Ok; [|by apply parseRanges_enc'].
  cbn [fst snd].
  pose proof (ranges_wf_validate _ _ _ (ranges_wf_written _ _ _ Hwf Hgap)) as Hval.
  erewrite rbind_Ok; [|apply rguard_false; by rewrite Hval]. done.
Qed.

Lemma length_cp_enc f version :
  wf f -> MinLength f version = Ok (Z.of_nat (length (enc f version))).
Proof.
  intros (Hp & Hwf & Hgap). unfold MinLength, enc. cbn zeta.
  pose proof (length_encRanges version _ _ _ Hwf) as Hl.
  change (getMissingSequenceNumberDeltaLen _ _ _) with (getDeltaLen f) in Hl.
  pose proof (GetPacketNumberLength_ok f.(LargestAcked)) as Hok. unfold pnlen_ok in Hok.
  rewrite !length_app, !bo_enc_length, !Nat2Z.inj_add, Z2Nat.id by lia. f_equal.
  destruct (HasMissingRanges (AckRanges f)); cbn [length] in *; lia.
Qed.

(** A CLOSE_PATH frame is read back with its path, its largest packet and
    the ranges that fit, and [MinLength] is the length written. *)
Theorem ClosePathFrame_roundtrip f version b r :
  wf f ->
  exists bytes, Write f version b = WOk (b ++ bytes)
    /\ Parse version (bytes ++ r) = Ok (received f, r)
    /\ MinLength f version = Ok (Z.of_nat (length bytes)).
Proof.
  intros Hwf. exists (enc f version). split; [by apply cp_Write_enc|].
  split; [by apply cp_Parse_enc|by apply length_cp_enc].
Qed.

Lemma ClosePathFrame_roundtrip_witness :
  let f := mk 1 100000 7 [mkRange 90000 100000; mkRange 7 65000] in
  exists bytes, Write f Version39 [] = WOk ([] ++ bytes)
    /\ Parse Version39 (bytes ++ []) = Ok (received f, [])
    /\ MinLength f Version39 = Ok (Z.of_nat (length bytes)).
Proof.
  intros f. apply (ClosePathFrame_roundtrip f Version39 [] []).
  unfold wf, f, in_width, range_bounds. cbn. repeat split; try lia; try discriminate.
  repeat constructor; cbn; lia.
Defined.

End ClosePathProofs.

(** ** A gap that is too long *)

Lemma writeRanges_long_gap version largest lowest r0 r1 rest errBug tail b :
  ranges_wf largest lowest (r0 :: r1 :: rest) -> 255 * 254 < r0.(First) - r1.(Last) - 1 ->
  let rs := r0 :: r1 :: rest in
  let l := getMissingSequenceNumberDeltaLen largest lowest rs in
  exists b', writeRanges true version l errBug largest lowest rs (numWritableNackRanges rs) tail b
             = WErr errBug b'.
Proof.
  intros Hwf Hgap rs l. destruct (deltaLen_fits _ _ _ Hwf) as (Hok & Hfit & Hfst & _).
  fold rs l in Hok, Hfit, Hfst. pose proof (first_block_bound _ _ _ _ Hwf) as [Hp Hr0].
  destruct Hwf as (_ & HL & H0 & Hc & Hb & Hlow).
  apply Forall_cons in Hb as [_ Hb]. apply Forall_cons in Hb as [Hr1 _].
  apply Forall_cons in Hfit as [_ Hfit]. apply Forall_cons in Hfit as [Hf1 _].
  destruct (chain_gap _ _ _ Hc Hr1 Hp) as [Heq Hg].
  destruct (rangeBlocks_spec (rangeGap r0 r1)) as (_ & Hb2 & Hb3); [lia|].
  assert (Hn : numWritableNackRanges rs = 1).
  { unfold rs. cbn [numWritableNackRanges numWritable_loop]. cbn zeta.
    destruct (Z.ltb_spec (0 + rangeBlocks (rangeGap r0 r1)) 255); [lia|done]. }
  rewrite Hn. unfold rs, writeRanges.
  unfold wseq at 1. rewrite HL, Z.eqb_refl. cbn [negb wguard].
  unfold wseq at 1. rewrite Hlow, Z.eqb_refl. cbn [negb wguard].
  unfold wseq at 1. unfold rs in Hfst. cbn [firstBlockLen] in Hfst.
  rewrite u64_small by (unfold range_bounds in Hr0; lia).
  rewrite writes_by_length by done. cbn [writeBlocks]. cbn zeta. rewrite num_eq.
  unfold wseq at 1. rewrite write_range_enc by (done || lia). rewrite u64_small by lia.
  destruct (Z.leb_spec 1 (1 + rangeBlocks (rangeGap r0 r1))); [|lia].
  unfold wseq, wguard. destruct (Z.eqb_spec 1 (1 + rangeBlocks (rangeGap r0 r1))); [lia|].
  cbn [negb]. eauto.
Qed.

(** When more than 64770 packets are missing right below the highest range,
    no ACK frame can be sent at all: the writer writes that range although its
    blocks do not fit, and then fails its own consistency check. *)
Theorem AckFrame_long_gap_not_writable f version now r0 r1 rest b :
  ranges_wf f.(AckFrame.LargestAcked) f.(AckFrame.LowestAcked) f.(AckFrame.AckRanges) ->
  f.(AckFrame.AckRanges) = r0 :: r1 :: rest -> 64770 < r0.(First) - r1.(Last) - 1 ->
  exists b', (AckFrame.Write f version now b).2 = WErr AckFrame.errBug b'.
Proof.
  intros Hwf Hrs Hgap. pose proof (ranges_wf_largest _ _ _ Hwf) as HL.
  destruct (GetPacketNumberLength_spec f.(AckFrame.LargestAcked)) as (Hok & Hfit & _);
    [unfold in_width; lia|].
  cbn [AckFrame.Write snd]. unfold AckFrame.writeBytes. cbn zeta. rewrite numRanges_eq.
  unfold wseq at 1. rewrite writes_WriteByte.
  unfold wseq at 1. rewrite (writes_wwhen _ _ [u8 (AckFrame.PathID f)]) by apply writes_WriteByte.
  unfold wseq at 1. rewrite writes_by_length by done.
  unfold wseq at 1. unfold writeUfloat16. rewrite bo_WriteUint16.
  unfold wseq at 1. rewrite writes_numRanges.
  unfold AckFrame.getDeltaLen. rewrite Hrs in *. by apply writeRanges_long_gap.
Qed.

Lemma AckFrame_long_gap_not_writable_witness :
  let f := AckFrame.mk 0 70000 1 [mkRange 70000 70000; mkRange 1 1] 0 0 in
  exists b', (AckFrame.Write f Version39 0 []).2 = WErr AckFrame.errBug b'.
Proof.
  intros f.
  apply (AckFrame_long_gap_not_writable f Version39 0 (mkRange 70000 70000) (mkRange 1 1) [] []).
  - unfold f, range_bounds. cbn. repeat split; try lia; try discriminate.
    repeat constructor; cbn; lia.
  - reflexivity.
  - cbn. lia.
Defined.
