(* ===== verification/WireAckParse.v ===== *)
(** * What the ACK and CLOSE_PATH parsers accept

    For every byte string, the parsers of [ack_frame.go] and
    [close_path_frame.go] do not panic, and an accepted frame has a strictly
    valid range list although its arithmetic is on wrapping [uint64]s; the test
    whether a frame acknowledges a packet is membership in the ranges. *)

From S2P Require Import Prelude ByteOrder Protocol WireFrames WireAck WireAckProofs.

(** ** Frames accepted by the parsers *)

(** What the receiver of an ACK relies on: the ranges are disjoint, not
    adjacent, in descending order, and span from the lowest to the largest. *)
Definition parsed_ok (largest lowest : Z) (rs : list AckRange) : Prop :=
  0 <= largest < 2 ^ 48 /\
  match rs with
  | [] => (largest = 0 /\ lowest = 0) \/ 1 <= lowest <= largest
  | r0 :: rest => rest <> [] /\ r0.(Last) = largest /\ r0.(First) <= r0.(Last) /\ chain r0 rest
      /\ Forall (fun r => 0 <= r.(First)) rs /\ (default r0 (last rs)).(First) = lowest
  end.

(** How a range follows from the one before: a total gap [G] and a length [L]. *)
Definition link (prev r : AckRange) (G L : Z) : Prop :=
  r.(Last) = u64 (prev.(First) - G - 1) /\ r.(First) = u64 (r.(Last) - L + 1)
  /\ 0 <= G /\ 0 <= L < 2 ^ 48.

(** The ranges after [prev]; all are complete except the last one when
    [complete] is false, whose length is still 0. *)
Fixpoint links (maxG : Z) (prev : AckRange) (rs : list AckRange) (complete : bool) : Prop :=
  match rs with
  | [] => True
  | r :: rest =>
      (exists G L, link prev r G L /\ G <= maxG
        /\ match rest with [] => (complete = true -> 1 <= L) /\ (complete = false -> L = 0)
           | _ => 1 <= L end)
      /\ links maxG r rest complete
  end.

Lemma links_weaken maxG maxG' rs c : forall prev,
  maxG <= maxG' -> links maxG prev rs c -> links maxG' prev rs c.
Proof.
  induction rs as [|r rs IH]; intros prev Hle; [done|].
  intros [(G & L & H1 & H2 & H3) H]. split; [|by apply IH].
  exists G, L. split; [done|]. split; [lia|done].
Qed.

Lemma links_snoc maxG rs r G L c : forall prev p,
  links maxG prev rs true -> last (prev :: rs) = Some p -> link p r G L -> G <= maxG ->
  (c = true -> 1 <= L) -> (c = false -> L = 0) -> links maxG prev (rs ++ [r]) c.
Proof.
  induction rs as [|x rs IH]; intros prev p Hl Hp Hlink HG Hc1 Hc2.
  - injection Hp as ->. split; [|done]. exists G, L. auto.
  - destruct Hl as [(G' & L' & H1 & H2 & H3) Hl]. split.
    + exists G', L'. split; [done|]. split; [done|].
      destruct rs; [by apply (proj1 H3)|exact H3].
    + by apply (IH x p).
Qed.

(** Continuing a long gap. *)
Lemma links_extend maxG rs r gap len : forall prev,
  links maxG prev rs false -> rs <> [] -> last rs = Some r ->
  0 <= gap <= 255 -> 0 <= len < 2 ^ 48 ->
  let r' := mkRange (u64 (r.(First) - u64 (gap + len))) (u64 (r.(Last) - gap)) in
  links (maxG + 255) prev (removelast rs ++ [r']) (0 <? len).
Proof.
  induction rs as [|x rs IH]; intros prev Hl Hne Hlast Hgap Hlen r'; [done|].
  destruct Hl as [(G & L & Hlink & HG & HL) Hl]. destruct rs as [|y rs].
  - injection Hlast as ->. destruct HL as [_ HL]. specialize (HL eq_refl). subst L.
    cbn [removelast app links]. split; [|done]. exists (G + gap), len.
    destruct Hlink as (Hl1 & Hl2 & HG0 & _). split; [|split; [lia|]].
    + unfold link, r'. cbn [First Last]. rewrite Hl2, Hl1. unfold u64.
      split; [rewrite Zminus_mod_idemp_l; f_equal; lia|].
      split; [|lia]. rewrite !Zminus_mod_idemp_r, !Zminus_mod_idemp_l.
      Z.to_euclidean_division_equations; lia.
    + split; zcases; (done || lia).
  - change (removelast (x :: y :: rs)) with (x :: removelast (y :: rs)). cbn [app].
    assert (Hl' : links (maxG + 255) x (removelast (y :: rs) ++ [r']) (0 <? len)) by by apply IH.
    cbn [links]. split; [|exact Hl'].
    exists G, L. split; [done|]. split; [lia|].
    by destruct (removelast (y :: rs) ++ [r']) eqn:E; [apply app_eq_nil in E as [_ ?]|].
Qed.

(** ** The loop over the blocks *)

Lemma pnlen_width n x : pnlen_ok n -> in_width (8 * n) x -> 0 <= x < 2 ^ 48.
Proof.
  intros Hn [H0 H1]. split; [done|]. eapply Z.lt_le_trans; [exact H1|].
  apply Z.pow_le_mono_r; [lia|]. unfold pnlen_ok in Hn. lia.
Qed.

Lemma rspec_ReadPN version n r :
  bytes_ok r -> pnlen_ok n ->
  rspec (fun x r' => 0 <= x < 2 ^ 48 /\ bytes_ok r') (ReadUintN (GetByteOrder version) n) r.
Proof.
  intros Hr Hn. pose proof Hn as Hn'. unfold pnlen_ok in Hn'.
  rewrite <- (Z2Nat.id n) by lia.
  eapply rspec_mono; [apply (rspec_ReadUintN (GetByteOrder version)); [done|lia]|].
  intros x r' [Hw ?]. rewrite Z2Nat.id in Hw by lia. split; [by eapply pnlen_width|done].
Qed.

(** The state of the loop: [inLongBlock] is set exactly while the last range is
    incomplete. *)
Definition loop_inv (maxG : Z) (r0 : AckRange) (rs : list AckRange) (inLong complete : bool) : Prop :=
  links maxG r0 rs complete /\ (rs = [] -> inLong = false) /\ (rs <> [] -> inLong = negb complete).

Lemma parseBlock_inv maxG r0 rs inLong complete gap len rs' complete' :
  loop_inv maxG r0 rs inLong complete -> 0 <= gap <= 255 -> 255 <= maxG -> 0 <= len < 2 ^ 48 ->
  parseBlock (r0 :: rs) inLong complete gap len = Some (rs', complete') ->
  exists rs1, rs' = r0 :: rs1 /\ rs1 <> [] /\ loop_inv (maxG + 255) r0 rs1 (len =? 0) complete'.
Proof.
  intros (Hl & Hnil & Hne) Hgap HG Hlen H. unfold parseBlock in H.
  destruct (last (r0 :: rs)) as [p|] eqn:Hlast; [|done]. destruct inLong.
  - assert (Hrs : rs <> []) by (intros E; specialize (Hnil E); done).
    assert (complete = false) as -> by (specialize (Hne Hrs); by destruct complete).
    injection H as <- <-.
    destruct rs as [|x rs]; [done|]. change (last (r0 :: x :: rs)) with (last (x :: rs)) in Hlast.
    pose proof (links_extend _ _ _ gap len _ Hl Hrs Hlast Hgap Hlen) as Hl'. cbn zeta in Hl'.
    unfold setLast. change (removelast (r0 :: x :: rs)) with (r0 :: removelast (x :: rs)).
    eexists. split; [reflexivity|]. split; [by intros [_ ?]%app_eq_nil|].
    destruct (Z.ltb_spec 0 len); (split; [exact Hl'|split; [by intros [_ ?]%app_eq_nil|]]);
      intros _; zcases; (done || lia).
  - injection H as <- <-. exists (rs ++ [mkRange (u64 (u64 (First p - gap - 1) - len + 1)) (u64 (First p - gap - 1))]).
    split; [done|]. split; [by intros [_ ?]%app_eq_nil|].
    assert (Hl' : links maxG r0 rs true).
    { destruct rs as [|x rs]; [done|].
      assert (complete = true) as -> by (specialize (Hne ltac:(done)); by destruct complete). done. }
    split; [|split; [by intros [_ ?]%app_eq_nil|intros _; zcases; (done || lia)]].
    eapply (links_snoc _ _ _ gap len); [eapply links_weaken; [|exact Hl']; lia|exact Hlast| |lia|..].
    + unfold link. cbn [First Last]. lia.
    + zcases; (done || lia).
    + zcases; (done || lia).
Qed.

Lemma parseBlock_Some r0 rs inLong complete gap len :
  parseBlock (r0 :: rs) inLong complete gap len <> None.
Proof.
  unfold parseBlock. destruct (last (r0 :: rs)) eqn:Hlast; [by destruct inLong|].
  by apply last_None in Hlast.
Qed.

Lemma parseBlocks_inv version dl n : forall maxG r0 rs inLong complete r,
  pnlen_ok dl -> bytes_ok r -> 255 <= maxG -> loop_inv maxG r0 rs inLong complete ->
  rspec (fun p r' => exists rs1, p.1 = r0 :: rs1 /\ links (maxG + 255 * Z.of_nat n) r0 rs1 p.2
           /\ bytes_ok r' /\ (rs1 = [] -> n = 0%nat /\ rs = []))
    (parseBlocks version dl n (r0 :: rs) inLong complete) r.
Proof.
  induction n as [|n IH]; intros maxG r0 rs inLong complete r Hdl Hr HG Hinv.
  - exists rs. split; [done|]. destruct Hinv as [Hl _].
    split; [eapply links_weaken; [|exact Hl]; lia|]. done.
  - cbn [parseBlocks]. eapply rspec_bind; [by apply rspec_ReadByte|]. intros gap r1 [Hg Hr1].
    eapply rspec_bind; [by apply rspec_ReadPN|]. intros len r2 [Hlen Hr2].
    destruct (parseBlock _ _ _ _ _) as [[rs1 c1]|] eqn:Hb; [|by apply parseBlock_Some in Hb].
    unfold in_width in Hg.
    apply (parseBlock_inv maxG) in Hb as (rs2 & -> & Hne & Hinv'); [|done|lia|done|done].
    eapply rspec_mono; [apply (IH (maxG + 255)); [done|done|lia|done]|].
    intros p r' (rs3 & Hp & Hl & Hr' & Hnil). exists rs3. split; [done|].
    split; [eapply links_weaken; [|exact Hl]; lia|]. split; [done|].
    intros E. destruct (Hnil E) as [_ ?]. done.
Qed.

(** ** Accepted range lists are strictly valid *)

(** A complete range that passes the checks did not wrap. *)
Lemma link_strict prev r G L :
  link prev r G L -> 0 <= prev.(First) < 2 ^ 48 + 2 -> G <= 2 ^ 17 -> 1 <= L ->
  r.(First) <= r.(Last) -> r.(First) < prev.(First) ->
  r.(Last) = prev.(First) - G - 1 /\ 0 <= r.(First).
Proof.
  intros (HL & HF & HG & HLb) Hp HG' HL1 Hle Hlt.
  pose proof (u64_range (r.(Last) - L + 1)) as [HF0 _]. rewrite <- HF in HF0.
  split; [|lia]. unfold u64 in *. Z.to_euclidean_division_equations. lia.
Qed.

Lemma links_chain maxG rs : forall prev,
  links maxG prev rs true -> maxG <= 2 ^ 17 -> 0 <= prev.(First) < 2 ^ 48 + 2 ->
  rangesNonEmpty rs = true -> rangesConsistent prev rs = true ->
  chain prev rs /\ Forall (fun r => 0 <= r.(First)) rs.
Proof.
  induction rs as [|r rs IH]; intros prev Hl HG Hp Hne Hc; [by split|].
  destruct Hl as [(G & L & Hlink & HGm & HL) Hl]. cbn [rangesNonEmpty rangesConsistent] in *.
  destruct (Z.ltb_spec r.(Last) r.(First)); [done|].
  destruct (Z.leb_spec prev.(First) r.(First)); [done|].
  destruct (Z.leb_spec prev.(First) (u64 (r.(Last) + 1))) as [|Hadj]; [done|].
  assert (HL1 : 1 <= L) by (destruct rs; [by apply (proj1 HL)|done]).
  destruct (link_strict _ _ _ _ Hlink Hp) as [Heq HF0]; [lia..|].
  destruct Hlink as (_ & _ & HG0 & _).
  destruct (IH r) as [Hch Hf]; [done|done|lia|done|done|].
  rewrite u64_small in Hadj by lia.
  split; [split; [lia|split; [lia|done]]|constructor; done].
Qed.

(** Dropping the incomplete last range leaves complete ones. *)
Lemma links_removelast maxG rs : forall prev c, links maxG prev rs c -> links maxG prev (removelast rs) true.
Proof.
  induction rs as [|r rs IH]; intros prev c Hl; [done|].
  destruct Hl as [(G & L & H1 & H2 & H3) Hl]. destruct rs as [|x rs]; [done|].
  change (removelast (r :: x :: rs)) with (r :: removelast (x :: rs)).
  split; [|by eapply IH]. exists G, L. split; [done|]. split; [done|].
  by destruct (removelast (x :: rs)).
Qed.

Lemma links_validated largest r0 rs :
  links (2 ^ 17) r0 rs true -> 0 <= r0.(First) < 2 ^ 48 + 2 ->
  validateAckRanges largest (r0 :: rs) = true ->
  rs <> [] /\ r0.(Last) = largest /\ r0.(First) <= r0.(Last) /\ chain r0 rs
  /\ Forall (fun r => 0 <= r.(First)) (r0 :: rs).
Proof.
  intros Hl Hp Hval. destruct rs as [|r1 rs]; [done|]. unfold validateAckRanges in Hval.
  destruct (Z.eqb_spec (Last r0) largest); [|done]. cbn [negb] in Hval.
  destruct (rangesNonEmpty (r0 :: r1 :: rs)) eqn:Hne; [|done]. cbn [negb] in Hval.
  pose proof Hne as Hne'. apply rangesNonEmpty_Forall, Forall_cons in Hne' as [H0 Hrest].
  apply rangesNonEmpty_Forall in Hrest.
  destruct (links_chain (2 ^ 17) (r1 :: rs) r0) as [Hch Hpos]; [done|lia|done|done|done|].
  split; [done|]. split; [done|]. split; [done|]. split; [done|]. constructor; [lia|done].
Qed.

Lemma parseRanges_inv version dl miss n largest fbl r :
  pnlen_ok dl -> bytes_ok r -> 0 <= n <= 255 -> miss && (n =? 0) = false ->
  0 <= largest < 2 ^ 48 -> 0 <= fbl <= largest -> (0 < largest -> 1 <= fbl) ->
  rspec (fun p r' => (validateAckRanges largest p.1 = true -> parsed_ok largest p.2 p.1) /\ bytes_ok r')
    (parseRanges version dl miss n largest fbl) r.
Proof.
  intros Hdl Hr Hn Hg HL Hf Hf1. unfold parseRanges. destruct miss.
  2:{ split; [|done]. intros _. split; [done|]. cbn [fst snd].
      destruct (Z.eqb_spec largest 0); [by left|]. right. rewrite u64_small; lia. }
  cbn [andb] in Hg. apply Z.eqb_neq in Hg.
  rewrite (u64_small (largest - fbl)), u64_small by lia.
  set (r0 := mkRange (largest - fbl + 1) largest).
  eapply rspec_bind; [apply (parseBlocks_inv version dl _ 255); [done|done|lia|done]|].
  intros [rs0 c] r1 (rs1 & Hrs & Hl & Hr1 & Hnil). cbn [fst snd] in *. subst rs0.
  destruct rs1 as [|x1 rs1]; [destruct (Hnil eq_refl); lia|].
  eapply (links_weaken _ (2 ^ 17)) in Hl; [|lia].
  assert (Hkeep : exists rs2, (if c then r0 :: x1 :: rs1 else removelast (r0 :: x1 :: rs1)) = r0 :: rs2
    /\ links (2 ^ 17) r0 rs2 true).
  { destruct c; [eauto|]. exists (removelast (x1 :: rs1)). split; [done|]. by eapply links_removelast. }
  destruct Hkeep as (rs2 & -> & Hl2).
  destruct (last (r0 :: rs2)) as [x|] eqn:Hlast; [|by apply last_None in Hlast].
  split; [|done]. cbn [fst snd]. intros Hval. split; [done|].
  destruct (links_validated largest r0 rs2 Hl2) as (? & ? & ? & ? & ?); [cbn; lia|exact Hval|].
  split; [done|]. split; [done|]. split; [done|]. split; [done|]. split; [done|].
  by rewrite Hlast.
Qed.

(** ** The header bytes *)

(** The length fields of any byte are lengths of packet numbers. *)
Lemma len_fields_ok b : pnlen_ok (len_fields b).1 /\ pnlen_ok (len_fields b).2.
Proof.
  unfold len_fields. cbn [fst snd].
  assert (Hl : forall x, Z.land x 3 = x mod 2 ^ 2)
    by (intros; change 3 with (Z.ones 2); by rewrite Z.land_ones).
  assert (Hs : Z.shiftr (Z.land b 12) 2 = (Z.shiftr b 2) mod 2 ^ 2).
  { rewrite Z.shiftr_land. change (Z.shiftr 12 2) with 3. apply Hl. }
  rewrite Hs, Hl. pose proof (Z.mod_pos_bound (Z.shiftr b 2) (2 ^ 2)). pose proof (Z.mod_pos_bound b (2 ^ 2)).
  rewrite !u8_small by lia. unfold pnlen_ok. zcases; lia.
Qed.

Lemma rspec_numAckBlocks (miss : bool) r :
  bytes_ok r ->
  rspec (fun n r' => 0 <= n <= 255 /\ bytes_ok r') (if miss then ReadByte else mret 0) r.
Proof.
  intros Hr. apply rspec_if; intros _; [|apply rspec_ret; split; [lia|done]].
  eapply rspec_mono; [by apply rspec_ReadByte|]. intros b r' [Hb ?]. unfold in_width in Hb.
  split; [lia|done].
Qed.

(** ** The two parsers *)

(** From the length of the first block on, as both parsers continue; [k] builds
    the frame. *)
Lemma rspec_tail {A} (Q : A -> list Z -> Prop) version dl n largest miss k r :
  pnlen_ok dl -> 0 <= n <= 255 -> 0 <= largest < 2 ^ 48 -> miss && (n =? 0) = false -> bytes_ok r ->
  (forall p r', parsed_ok largest p.2 p.1 -> bytes_ok r' -> rspec Q (k p) r') ->
  rspec Q
    (ackBlockLength ← ReadUintN (GetByteOrder version) dl;
     _ ← rguard ((0 <? largest) && (ackBlockLength <? 1)) ErrInvalidFirstAckRange;
     _ ← rguard (largest <? ackBlockLength) ErrInvalidAckRanges;
     p ← parseRanges version dl miss n largest ackBlockLength;
     _ ← rguard (negb (validateAckRanges largest p.1)) ErrInvalidAckRanges;
     k p) r.
Proof.
  intros Hdl Hn HL Hg Hr Hk. eapply rspec_bind; [by apply rspec_ReadPN|]. intros fbl r1 [Hf Hr1].
  apply rspec_guard. intros Hg1. apply rspec_guard. intros Hg2. apply Z.ltb_ge in Hg2.
  eapply rspec_bind; [apply parseRanges_inv; [done..|lia|]|].
  { intros Hpos. destruct (Z.ltb_spec 0 largest); [|lia]. cbn [andb] in Hg1.
    apply Z.ltb_ge in Hg1. lia. }
  intros p r2 [Hp Hr2]. apply rspec_guard. intros Hval. apply negb_false_iff in Hval. auto.
Qed.

Lemma skipTimestamps_no_panic version n : no_panic (AckFrame.skipTimestamps version n).
Proof. induction n; simpl; solve_no_panic. Qed.

Lemma parseTimestamps_no_panic version : no_panic (AckFrame.parseTimestamps version).
Proof. unfold AckFrame.parseTimestamps. solve_no_panic. apply skipTimestamps_no_panic. Qed.

Lemma rspec_no_panic {A B} (Q : B -> list Z -> Prop) (m : Reader A) k r :
  no_panic m -> (forall a r', rspec Q (k a) r') -> rspec Q (m ≫= k) r.
Proof.
  intros Hm Hk. unfold rspec, mbind, reader_bind. specialize (Hm r).
  destruct (m r) as [[a r']| |]; [apply Hk|done..].
Qed.

Lemma AckFrame_Parse_rspec version r :
  bytes_ok r ->
  rspec (fun f _ => parsed_ok f.(AckFrame.LargestAcked) f.(AckFrame.LowestAcked) f.(AckFrame.AckRanges))
    (AckFrame.Parse version) r.
Proof.
  intros Hr. unfold AckFrame.Parse.
  eapply rspec_bind; [by apply rspec_ReadByte|]. intros tb r1 [_ Hr1]. cbn zeta.
  destruct (len_fields_ok tb) as [Hll Hdl].
  eapply (rspec_bind (fun _ r' => bytes_ok r')).
  { apply rspec_if; intros _; [|done]. eapply rspec_mono; [by apply rspec_ReadByte|]. by intros ? ? [_ ?]. }
  intros path r2 Hr2. eapply rspec_bind; [by apply rspec_ReadPN|]. intros la r3 [Hla Hr3].
  eapply rspec_bind; [by apply (rspec_readUfloat16 (GetByteOrder version))|]. intros delay r4 Hr4. cbn beta in Hr4.
  eapply rspec_bind; [by apply rspec_numAckBlocks|]. intros n r5 [Hn Hr5].
  apply rspec_guard. intros Hg. apply rspec_tail; [done..|]. intros p r6 Hp _.
  apply rspec_no_panic; [apply parseTimestamps_no_panic|]. intros _ r7. exact Hp.
Qed.

(** The ACK parser does not panic, and whatever bytes the peer sends, an
    ACK frame it accepts has disjoint, descending ranges between its lowest and
    its largest packet: no range has wrapped around. *)
Theorem AckFrame_Parse_valid version r :
  bytes_ok r ->
  AckFrame.Parse version r <> Panic /\
  forall f r', AckFrame.Parse version r = Ok (f, r') ->
    parsed_ok f.(AckFrame.LargestAcked) f.(AckFrame.LowestAcked) f.(AckFrame.AckRanges).
Proof.
  intros Hr. destruct (rspec_inv _ _ _ (AckFrame_Parse_rspec version r Hr)) as [H1 H2]. eauto.
Qed.

Lemma AckFrame_Parse_valid_witness :
  let r := [0x60; 20; 0; 5; 1; 3; 2; 4; 0] in
  exists f, AckFrame.Parse Version39 r = Ok (f, []) /\
    parsed_ok f.(AckFrame.LargestAcked) f.(AckFrame.LowestAcked) f.(AckFrame.AckRanges).
Proof.
  intros r. eexists. split; [vm_compute; reflexivity|].
  apply (AckFrame_Parse_valid Version39 r) with (r' := []).
  - unfold r, bytes_ok. repeat constructor; vm_compute; discriminate.
  - vm_compute. reflexivity.
Defined.

Lemma ClosePathFrame_Parse_rspec version r :
  bytes_ok r ->
  rspec (fun f _ => parsed_ok f.(ClosePathFrame.LargestAcked)
    f.(ClosePathFrame.LowestAcked) f.(ClosePathFrame.AckRanges)) (ClosePathFrame.Parse version) r.
Proof.
  intros Hr. unfold ClosePathFrame.Parse.
  eapply rspec_bind; [by apply rspec_ReadByte|]. intros tb r1 [_ Hr1].
  eapply rspec_bind; [by apply rspec_ReadByte|]. intros path r2 [_ Hr2].
  eapply rspec_bind; [by apply rspec_ReadByte|]. intros fl r3 [_ Hr3]. cbn zeta.
  destruct (len_fields_ok fl) as [Hll Hdl].
  eapply rspec_bind; [by apply rspec_numAckBlocks|]. intros n r4 [Hn Hr4].
  apply rspec_guard. intros Hg. eapply rspec_bind; [by apply rspec_ReadPN|]. intros la r5 [Hla Hr5].
  apply rspec_tail; [done..|]. intros p r6 Hp _. exact Hp.
Qed.

(** The CLOSE_PATH parser does not panic and accepts only strictly valid
    range lists, for whatever bytes the peer sends. *)
Theorem ClosePathFrame_Parse_valid version r :
  bytes_ok r ->
  ClosePathFrame.Parse version r <> Panic /\
  forall f r', ClosePathFrame.Parse version r = Ok (f, r') ->
    parsed_ok f.(ClosePathFrame.LargestAcked) f.(ClosePathFrame.LowestAcked)
      f.(ClosePathFrame.AckRanges).
Proof.
  intros Hr. destruct (rspec_inv _ _ _ (ClosePathFrame_Parse_rspec version r Hr)) as [H1 H2]. eauto.
Qed.

Lemma ClosePathFrame_Parse_valid_witness :
  let r := [0x11; 2; 0x10; 1; 20; 3; 2; 4] in
  exists f, ClosePathFrame.Parse Version39 r = Ok (f, []) /\
    parsed_ok f.(ClosePathFrame.LargestAcked) f.(ClosePathFrame.LowestAcked)
      f.(ClosePathFrame.AckRanges).
Proof.
  intros r. eexists. split; [vm_compute; reflexivity|].
  apply (ClosePathFrame_Parse_valid Version39 r) with (r' := []).
  - unfold r, bytes_ok. repeat constructor; vm_compute; discriminate.
  - vm_compute. reflexivity.
Defined.

(** ** Acknowledged packets *)

Lemma inRanges_spec p rs :
  inRanges p rs = true <-> exists r, r ∈ rs /\ r.(First) <= p <= r.(Last).
Proof.
  induction rs as [|r rs IH]; simpl.
  - split; [done|]. by intros (r & ?%elem_of_nil & _).
  - destruct (Z.leb_spec r.(First) p), (Z.leb_spec p r.(Last)); cbn [andb].
    1: { split; [intros _; exists r; split; [by left|lia]|done]. }
    all: rewrite IH; split; intros (r' & Hr' & Hp); exists r';
      (split; [|done]); [by right|apply elem_of_cons in Hr' as [->|]; [lia|done]].
Qed.

(** The lowest and the largest packet bound all the ranges. *)
Lemma chain_bounds rs : forall prev r,
  prev.(First) <= prev.(Last) -> chain prev rs -> r ∈ prev :: rs ->
  (default prev (last (prev :: rs))).(First) <= r.(First) /\ r.(Last) <= prev.(Last).
Proof.
  induction rs as [|x rs IH]; intros prev r Hp Hc Hr.
  - apply elem_of_cons in Hr as [->|?%elem_of_nil]; [simpl; lia|done].
  - destruct Hc as (H1 & H2 & Hc).
    change (last (prev :: x :: rs)) with (last (x :: rs)).
    assert (Hd : default prev (last (x :: rs)) = default x (last (x :: rs)))
      by (destruct (last (x :: rs)) eqn:E; [done|by apply last_None in E]).
    rewrite Hd. apply elem_of_cons in Hr as [->|Hr].
    + pose proof (IH x x H1 Hc ltac:(by left)). lia.
    + pose proof (IH x r H1 Hc Hr). lia.
Qed.

(** The shortcut over the lowest and largest packet changes nothing. *)
Lemma acksPacket_ranges largest lowest rs p :
  match rs with
  | [] => True
  | r0 :: rest => r0.(Last) = largest /\ r0.(First) <= r0.(Last) /\ chain r0 rest
      /\ (default r0 (last rs)).(First) = lowest
  end ->
  acksPacket largest lowest rs p = true <->
  if HasMissingRanges rs then exists r, r ∈ rs /\ r.(First) <= p <= r.(Last)
  else lowest <= p <= largest.
Proof.
  unfold acksPacket. destruct rs as [|r0 rest].
  - intros _. cbn [HasMissingRanges length Nat.eqb negb].
    destruct (Z.ltb_spec p lowest), (Z.ltb_spec largest p); cbn [orb]; try (split; [done|lia]).
  - intros (HL & H0 & Hc & Hlow). cbn [HasMissingRanges length Nat.eqb negb].
    rewrite <- inRanges_spec.
    destruct (Z.ltb_spec p lowest), (Z.ltb_spec largest p); cbn [orb]; try done.
    all: split; [done|]; intros (r & Hr & Hp)%inRanges_spec;
      pose proof (chain_bounds rest r0 r H0 Hc Hr); lia.
Qed.

(** On a frame that the parser accepts, the shortcut over the lowest and
    largest packet does not change the answer: a packet is acknowledged exactly
    when it lies in one of the ranges (or in the single range of a frame
    without missing packets). *)
Theorem AcksPacket_spec f p :
  parsed_ok f.(AckFrame.LargestAcked) f.(AckFrame.LowestAcked) f.(AckFrame.AckRanges) ->
  AckFrame.AcksPacket f p = true <->
  if HasMissingRanges f.(AckFrame.AckRanges)
  then exists r, r ∈ f.(AckFrame.AckRanges) /\ r.(First) <= p <= r.(Last)
  else f.(AckFrame.LowestAcked) <= p <= f.(AckFrame.LargestAcked).
Proof.
  intros Hok. apply acksPacket_ranges.
  destruct (AckFrame.AckRanges f) as [|r0 rest]; [done|].
  destruct Hok as (_ & _ & HL & H0 & Hc & _ & Hlow). done.
Qed.

Lemma AcksPacket_spec_witness :
  let f := AckFrame.mk 0 20 12 [mkRange 18 20; mkRange 12 15] 0 0 in
  AckFrame.AcksPacket f 13 = true.
Proof.
  intros f. apply (AcksPacket_spec f 13).
  - unfold f, parsed_ok. cbn. repeat split; try lia; try discriminate.
    all: repeat constructor; cbn; lia.
  - cbn. exists (mkRange 12 15). split; [right; left|cbn; lia].
Defined.
