(* ===== verification/WireHeader.v ===== *)
(** * The public header ([internal/wire/public_header.go], [version_negotiation.go])

    Writing, parsing and measuring the public header of a packet, with the
    multipath flag and path ID of this fork, and the version negotiation packet
    of the server. *)

From S2P Require Import Prelude ByteOrder Protocol WireFrames.

(** [internal/protocol/perspective.go] *)
Inductive Perspective : Type := PerspectiveServer | PerspectiveClient.

#[global] Instance Perspective_eq_dec : EqDecision Perspective.
Proof. solve_decision. Defined.

Definition isServer (p : Perspective) : bool :=
  match p with PerspectiveServer => true | PerspectiveClient => false end.
Definition isClient (p : Perspective) : bool := negb (isServer p).

Definition InvalidPacketHeader : Z := 3.
Definition InvalidVersionNegotiationPacket : Z := 10.

Definition ErrPacketWithUnknownVersion : error := ErrorsNew
  "PublicHeader: Received a packet without version number, that we don't know the version for".
Definition errResetAndVersionFlagSet : error :=
  ErrorsNew "PublicHeader: Reset Flag and Version Flag should not be set at the same time".
Definition errReceivedTruncatedConnectionID : error :=
  QuicError InvalidPacketHeader "receiving packets with truncated ConnectionID is not supported".
Definition errInvalidConnectionID : error :=
  QuicError InvalidPacketHeader "connection ID cannot be 0".
Definition errGetLengthNotForVersionNegotiation : error :=
  ErrorsNew "PublicHeader: GetLength cannot be called for VersionNegotiation packets".

Module PublicHeader.

Record t : Type := mk {
  Raw : list Z;
  ConnectionID : Z;
  PathID : Z;
  VersionFlag : bool;
  ResetFlag : bool;
  TruncateConnectionID : bool;
  MultipathFlag : bool;
  PacketNumberLen : Z;
  PacketNumber : Z;
  VersionNumber : Z;
  SupportedVersions : list Z;
  DiversificationNonce : list Z
}.

Definition hasPacketNumber_flags (resetFlag versionFlag : bool) (packetSentBy : Perspective) : bool :=
  if resetFlag then false
  else if versionFlag && isServer packetSentBy then false
  else true.

Definition hasPacketNumber (h : t) (packetSentBy : Perspective) : bool :=
  hasPacketNumber_flags h.(ResetFlag) h.(VersionFlag) packetSentBy.

Definition nonceLen (h : t) : Z := Z.of_nat (length h.(DiversificationNonce)).

Definition publicFlagByte (h : t) (pers : Perspective) : Z :=
  let b := 0x00 in
  let b := if h.(VersionFlag) then Z.lor b 0x01 else b in
  let b := if h.(ResetFlag) then Z.lor b 0x02 else b in
  let b := if negb h.(TruncateConnectionID) then Z.lor b 0x08 else b in
  let b := if 0 <? nonceLen h then Z.lor b 0x04 else b in
  let b :=
    if hasPacketNumber h pers then
      if h.(PacketNumberLen) =? PacketNumberLen1 then Z.lor b 0x00
      else if h.(PacketNumberLen) =? PacketNumberLen2 then Z.lor b 0x10
      else if h.(PacketNumberLen) =? PacketNumberLen4 then Z.lor b 0x20
      else if h.(PacketNumberLen) =? PacketNumberLen6 then Z.lor b 0x30
      else b
    else b in
  if h.(MultipathFlag) then Z.lor b 0x40 else b.

Definition Write (h : t) (version : Z) (pers : Perspective) : Writer :=
  wguard (h.(VersionFlag) && h.(ResetFlag)) errResetAndVersionFlagSet ;;;
  wguard ((0 <? nonceLen h) && negb (nonceLen h =? 32))
    (ErrorsNew "invalid diversification nonce length") ;;;
  WriteByte (publicFlagByte h pers) ;;;
  wwhen (negb h.(TruncateConnectionID)) (WriteUint64 LittleEndian (u64 h.(ConnectionID))) ;;;
  wwhen (h.(VersionFlag) && isClient pers)
    (WriteUint32 LittleEndian (VersionNumberToTag h.(VersionNumber))) ;;;
  wwhen (0 <? nonceLen h) (Prelude.Write h.(DiversificationNonce)) ;;;
  wwhen h.(MultipathFlag) (WriteByte (u8 h.(PathID))) ;;;
  if negb (hasPacketNumber h pers) then wskip
  else write_by_length true version h.(PacketNumberLen) h.(PacketNumber)
         (wfail (ErrorsNew "PublicHeader: PacketNumberLen not set")).

(** The read position is restored when no error occurs. *)
Definition PeekConnectionID (packetSentBy : Perspective) : Reader Z := fun b =>
  match ReadByte b with
  | Ok (publicFlagByte, b1) =>
      let truncateConnectionID := Z.land publicFlagByte 0x08 =? 0 in
      if truncateConnectionID && isClient packetSentBy then Err errReceivedTruncatedConnectionID
      else if negb truncateConnectionID then
        match ReadUint64 LittleEndian b1 with
        | Ok (connID, _) => Ok (connID, b)
        | Err e => Err e
        | Panic => Panic
        end
      else Ok (0, b)
  | Err e => Err e
  | Panic => Panic
  end.

(** [for { versionTag, err = ReadUint32(b); if err != nil { break }; ... }];
    each iteration reads four bytes, so the length of the input is enough fuel.
    The failed last read leaves nothing in the reader. *)
Fixpoint readVersions (fuel : nat) (b : list Z) : list Z :=
  match fuel with
  | O => []
  | S fuel =>
      match ReadUint32 LittleEndian b with
      | Ok (versionTag, b) => VersionTagToNumber versionTag :: readVersions fuel b
      | _ => []
      end
  end.

Definition readVersionList : Reader (list Z) := fun b => Ok (readVersions (length b) b, []).

Definition readPacketNumberLen (publicFlagByte : Z) : Z :=
  let bits := Z.land publicFlagByte 0x30 in
  if bits =? 0x30 then PacketNumberLen6
  else if bits =? 0x20 then PacketNumberLen4
  else if bits =? 0x10 then PacketNumberLen2
  else PacketNumberLen1.

Definition Parse (packetSentBy : Perspective) (version : Z) : Reader t :=
  publicFlagByte ← ReadByte;
  let resetFlag := 0 <? Z.land publicFlagByte 0x02 in
  let versionFlag := 0 <? Z.land publicFlagByte 0x01 in
  _ ← rguard ((version =? VersionUnknown) && negb (versionFlag || resetFlag))
        ErrPacketWithUnknownVersion;
  let truncateConnectionID := Z.land publicFlagByte 0x08 =? 0 in
  _ ← rguard (truncateConnectionID && isClient packetSentBy) errReceivedTruncatedConnectionID;
  let hasPN := hasPacketNumber_flags resetFlag versionFlag packetSentBy in
  let packetNumberLen := if hasPN then readPacketNumberLen publicFlagByte else 0 in
  let multipathFlag := 0 <? Z.land publicFlagByte 0x40 in
  connID ← (if negb truncateConnectionID then ReadUint64 LittleEndian else mret 0);
  _ ← rguard (negb truncateConnectionID && (connID =? 0)) errInvalidConnectionID;
  nonce ← (if isServer packetSentBy && (0 <? Z.land publicFlagByte 0x04)
              && (negb versionFlag && negb resetFlag)
           then ReadFull 32 else mret []);
  if negb resetFlag && versionFlag && isServer packetSentBy then
    len ← RLen;
    _ ← rguard (negb (len mod 4 =? 0)) (Prelude.ErrorCode InvalidVersionNegotiationPacket);
    supportedVersions ← readVersionList;
    mret (mk [] connID 0 versionFlag resetFlag truncateConnectionID multipathFlag packetNumberLen 0 0
            supportedVersions nonce)
  else
    versionNumber ← (if negb resetFlag && versionFlag then
                       versionTag ← ReadUint32 LittleEndian;
                       mret (VersionTagToNumber versionTag)
                     else mret 0);
    let version := if negb resetFlag && versionFlag then versionNumber else version in
    pathID ← (if multipathFlag then ReadByte else mret 0);
    packetNumber ← (if hasPN then ReadUintN (GetByteOrder version) packetNumberLen else mret 0);
    mret (mk [] connID pathID versionFlag resetFlag truncateConnectionID multipathFlag
            packetNumberLen packetNumber versionNumber [] nonce).

Definition GetLength (h : t) (pers : Perspective) : res Z :=
  if h.(VersionFlag) && h.(ResetFlag) then Err errResetAndVersionFlagSet
  else if h.(VersionFlag) && isServer pers then Err errGetLengthNotForVersionNegotiation
  else if hasPacketNumber h pers
          && negb (h.(PacketNumberLen) =? PacketNumberLen1) && negb (h.(PacketNumberLen) =? PacketNumberLen2)
          && negb (h.(PacketNumberLen) =? PacketNumberLen4) && negb (h.(PacketNumberLen) =? PacketNumberLen6)
  then Err StopWaitingFrame.errPacketNumberLenNotSet
  else
    let length := 1 in
    let length := if hasPacketNumber h pers then length + h.(PacketNumberLen) else length in
    let length := if negb h.(TruncateConnectionID) then length + 8 else length in
    let length := if h.(VersionFlag) then length + 4 else length in
    let length := length + nonceLen h in
    Ok (if h.(MultipathFlag) then length + 1 else length).

End PublicHeader.

(** [ComposeVersionNegotiation]; an error of the header writer is only logged,
    what it wrote stays in the buffer. *)
Definition writeVersionTags (versions : list Z) : Writer :=
  foldr (fun v w => WriteUint32 LittleEndian (VersionNumberToTag v) ;;; w) wskip versions.

Definition ComposeVersionNegotiation (connectionID : Z) (versions : list Z) : wres :=
  let responsePublicHeader :=
    PublicHeader.mk [] connectionID 0 true false false false 0 1 0 [] [] in
  match PublicHeader.Write responsePublicHeader VersionWhatever PerspectiveServer [] with
  | WOk b | WErr _ b => writeVersionTags versions b
  | WPanic => WPanic
  end.

(** ** Proofs *)

Module HeaderProofs.
Import PublicHeader.

(** A regular packet: not a public reset, and not a version negotiation. *)
Definition regular (h : t) (pers : Perspective) : Prop :=
  h.(ResetFlag) = false /\ (h.(VersionFlag) = true -> pers = PerspectiveClient)
  /\ pnlen_ok h.(PacketNumberLen) /\ in_width 48 h.(PacketNumber)
  /\ (if h.(TruncateConnectionID) then pers = PerspectiveServer /\ h.(ConnectionID) = 0
      else 1 <= h.(ConnectionID) < 2 ^ 64)
  /\ (if h.(MultipathFlag) then in_width 8 h.(PathID) else h.(PathID) = 0)
  /\ (h.(DiversificationNonce) = [] \/
      (pers = PerspectiveServer /\ length h.(DiversificationNonce) = 32%nat))
  /\ (if h.(VersionFlag) then 0 <= h.(VersionNumber) < 1000 else h.(VersionNumber) = 0)
  /\ h.(Raw) = [] /\ h.(SupportedVersions) = [].

(** The version that decides the byte order of the packet number: for a packet
    with a version flag the receiver takes the one in the header. *)
Definition pn_version (h : t) (version : Z) : Z :=
  if h.(VersionFlag) then h.(VersionNumber) else version.

Definition wirePN (h : t) : Z := h.(PacketNumber) mod 2 ^ (8 * h.(PacketNumberLen)).

Definition enc (h : t) (version : Z) (pers : Perspective) : list Z :=
  [publicFlagByte h pers]
  ++ (if negb h.(TruncateConnectionID) then bo_enc (bo:=LittleEndian) 8 (u64 h.(ConnectionID)) else [])
  ++ (if h.(VersionFlag) && isClient pers
      then bo_enc (bo:=LittleEndian) 4 (VersionNumberToTag h.(VersionNumber)) else [])
  ++ (if 0 <? nonceLen h then h.(DiversificationNonce) else [])
  ++ (if h.(MultipathFlag) then [u8 h.(PathID)] else [])
  ++ bo_enc (bo:=GetByteOrder version) (Z.to_nat h.(PacketNumberLen)) (wirePN h).

(** What the receiver gets: the packet number truncated to its length. *)
Definition received (h : t) : t :=
  mk [] h.(ConnectionID) h.(PathID) h.(VersionFlag) h.(ResetFlag) h.(TruncateConnectionID)
    h.(MultipathFlag) h.(PacketNumberLen) (wirePN h) h.(VersionNumber) [] h.(DiversificationNonce).

Lemma regular_hasPN h pers : regular h pers -> hasPacketNumber h pers = true.
Proof.
  intros (Hr & Hv & _). unfold hasPacketNumber, hasPacketNumber_flags. rewrite Hr.
  destruct (VersionFlag h); [by rewrite (Hv eq_refl)|done].
Qed.

Lemma mod_pow_width k x : 0 <= k -> in_width k (x mod 2 ^ k).
Proof. intros. apply Z.mod_pos_bound, Z.pow_pos_nonneg; lia. Qed.

(** The switch truncates the packet number to its length. *)
Lemma writes_truncated version len x default :
  pnlen_ok len -> writes (write_by_length true version len x default)
    (bo_enc (bo:=GetByteOrder version) (Z.to_nat len) (x mod 2 ^ (8 * len))).
Proof.
  intros Hlen. pose proof (mod_pow_width (8 * len) x) as Hw. unfold write_by_length.
  destruct Hlen as [->|[->|[->| ->]]]; cbn [Z.eqb Pos.eqb].
  - change (Z.to_nat 1) with 1%nat. rewrite bo_enc_1. unfold u8.
    change (8 * 1) with 8. rewrite Z.mod_mod by lia. apply writes_WriteByte.
  - apply bo_WriteUint16.
  - apply bo_WriteUint32.
  - rewrite land_ones48. apply bo_WriteUint48, Hw. lia.
Qed.

(** The flags, the lengths of the packet number and of the nonce decide whether a
    header is written. *)
Lemma header_Write_flags h version pers :
  h.(ResetFlag) = false -> hasPacketNumber h pers = true -> pnlen_ok h.(PacketNumberLen) ->
  h.(DiversificationNonce) = [] \/ length h.(DiversificationNonce) = 32%nat ->
  writes (Write h version pers) (enc h version pers).
Proof.
  intros Hr HPN Hlen Hn. unfold Write, enc.
  eapply writes_eq; [apply app_nil_l|]. apply writes_seq;
    [apply writes_wguard; rewrite Hr; apply andb_false_r|].
  eapply writes_eq; [apply app_nil_l|]. apply writes_seq.
  { apply writes_wguard. unfold nonceLen. by destruct Hn as [->| ->]. }
  rewrite HPN. cbn [negb].
  repeat (apply writes_seq; [first [apply writes_WriteByte|apply writes_wwhen; auto with wire]|]).
  by apply writes_truncated.
Qed.

Lemma enc_short h version pers : pnlen_ok h.(PacketNumberLen) ->
  h.(DiversificationNonce) = [] \/ length h.(DiversificationNonce) = 32%nat ->
  (length (enc h version pers) <= 52)%nat.
Proof.
  intros Hlen Hn. unfold enc. rewrite !length_app, bo_enc_length.
  assert (length h.(DiversificationNonce) <= 32)%nat by (destruct Hn as [->| ->]; cbn; lia).
  assert (Z.to_nat h.(PacketNumberLen) <= 6)%nat by (unfold pnlen_ok in Hlen; lia).
  repeat case_match; rewrite ?bo_enc_length; cbn [length]; lia.
Qed.

Lemma header_Write_enc h version pers :
  regular h pers -> writes (Write h version pers) (enc h version pers).
Proof.
  intros Hreg. pose proof (regular_hasPN _ _ Hreg) as HPN.
  destruct Hreg as (Hr & Hv & Hlen & Hpn & Hc & Hp & Hn & _). apply header_Write_flags; [done..|].
  destruct Hn as [|[_ ?]]; auto.
Qed.

(** The receiver reads back every flag of the first byte. *)
Lemma flag_bits h pers :
  regular h pers ->
  (0 <? Z.land (publicFlagByte h pers) 0x02) = h.(ResetFlag)
  /\ (0 <? Z.land (publicFlagByte h pers) 0x01) = h.(VersionFlag)
  /\ (Z.land (publicFlagByte h pers) 0x08 =? 0) = h.(TruncateConnectionID)
  /\ (0 <? Z.land (publicFlagByte h pers) 0x04) = (0 <? nonceLen h)
  /\ (0 <? Z.land (publicFlagByte h pers) 0x40) = h.(MultipathFlag)
  /\ readPacketNumberLen (publicFlagByte h pers) = h.(PacketNumberLen).
Proof.
  intros Hreg. pose proof (regular_hasPN _ _ Hreg) as HPN.
  destruct Hreg as (Hr & _ & Hlen & _). unfold publicFlagByte. rewrite HPN, Hr.
  destruct (VersionFlag h), (TruncateConnectionID h), (MultipathFlag h), (0 <? nonceLen h),
    Hlen as [->|[->|[->| ->]]]; by vm_compute.
Qed.

Lemma nonce_empty h : (0 <? nonceLen h) = false -> h.(DiversificationNonce) = [].
Proof. unfold nonceLen. destruct (DiversificationNonce h); [done|cbn; zcases; lia]. Qed.

(** Only clients send a version, only servers a nonce. *)
Lemma nonce_excludes_version h pers :
  regular h pers -> (0 <? nonceLen h) = true -> h.(VersionFlag) = true -> False.
Proof.
  intros (_ & Hv & _ & _ & _ & _ & Hn & _) Hpos Hvf. specialize (Hv Hvf) as ->.
  unfold nonceLen in Hpos. destruct Hn as [Hn|[? _]]; [by rewrite Hn in Hpos|done].
Qed.

(** The conditions under which the optional fields are read and written. *)
Lemma present_fields h pers :
  regular h pers ->
  isServer pers && (0 <? nonceLen h) && (negb h.(VersionFlag) && negb false) = (0 <? nonceLen h)
  /\ h.(VersionFlag) && isClient pers = h.(VersionFlag)
  /\ h.(VersionFlag) && isServer pers = false.
Proof.
  intros (_ & Hv & _ & _ & _ & _ & Hn & _). unfold nonceLen. repeat split.
  - destruct Hn as [->|[-> ->]]; [by destruct pers|].
    destruct (VersionFlag h); [by specialize (Hv eq_refl)|done].
  - destruct (VersionFlag h); [by rewrite (Hv eq_refl)|done].
  - destruct (VersionFlag h); [by rewrite (Hv eq_refl)|done].
Qed.

Lemma optional_swap (c1 c2 : bool) (l1 l2 r : list Z) :
  (c2 = true -> c1 = true -> False) ->
  (if c1 then l1 else []) ++ (if c2 then l2 else []) ++ r
  = (if c2 then l2 else []) ++ (if c1 then l1 else []) ++ r.
Proof. destruct c1, c2; naive_solver. Qed.

Lemma header_Parse_enc h version pers r :
  regular h pers -> version <> VersionUnknown ->
  GetByteOrder (pn_version h version) = GetByteOrder version ->
  Parse pers version (enc h version pers ++ r) = Ok (received h, r).
Proof.
  intros Hreg Hver Hbo. pose proof (regular_hasPN _ _ Hreg) as HPN.
  pose proof (nonce_excludes_version _ _ Hreg) as Hnv.
  destruct (present_fields _ _ Hreg) as (Hni & Hvi & Hvs).
  destruct (flag_bits _ _ Hreg) as (F2 & F1 & F8 & F4 & F40 & FL).
  destruct Hreg as (Hr & Hv & Hlen & Hpn & Hc & Hp & Hn & Hvn & _ & _).
  unfold hasPacketNumber in HPN. unfold Parse, enc. rewrite Hvi, <- !app_assoc. cbn [app].
  rewrite (rbind_Ok _ _ _ _ _ (ReadByte_cons _ _)). cbv zeta.
  rewrite F2, F1, F8, F4, F40, FL, HPN, Hr, Hni. cbn [negb andb].
  erewrite rbind_Ok; [|apply rguard_false; zcases; done].
  erewrite rbind_Ok; [|apply rguard_false; by destruct (TruncateConnectionID h), pers; destruct Hc].
  erewrite rbind_Ok; [|apply (optional_read _ _ _ h.(ConnectionID))].
  2:{ destruct (TruncateConnectionID h); [done|]. intros _. rewrite u64_small by lia.
      apply ReadUint64_enc. unfold in_width; lia. }
  2:{ by destruct (TruncateConnectionID h); [destruct Hc|]. }
  erewrite rbind_Ok; [|apply rguard_false; destruct (TruncateConnectionID h); [done|cbn; zcases; lia]].
  rewrite (optional_swap (VersionFlag h)) by done.
  erewrite rbind_Ok; [|apply (optional_read _ _ _ h.(DiversificationNonce))].
  2:{ intros Hpos. apply ReadFull_app_len. unfold nonceLen in Hpos.
      destruct Hn as [Hn|[_ Hn]]; [by rewrite Hn in Hpos|done]. }
  2:{ by apply nonce_empty. }
  rewrite Hvs.
  erewrite rbind_Ok; [|apply (optional_read _ _ _ h.(VersionNumber))].
  2:{ intros Hvf. rewrite Hvf in Hvn. erewrite rbind_Ok;
        [|apply ReadUint32_enc, VersionNumberToTag_range].
      by rewrite version_tag_roundtrip. }
  2:{ intros Hvf. by rewrite Hvf in Hvn. }
  erewrite rbind_Ok; [|apply (optional_read _ _ _ h.(PathID))].
  2:{ intros Hmf. rewrite Hmf in Hp. by rewrite u8_small by apply Hp. }
  2:{ intros Hmf. by rewrite Hmf in Hp. }
  fold (pn_version h version). rewrite Hbo.
  erewrite rbind_Ok; [|apply (ReadUintN_enc (GetByteOrder version))].
  - unfold received. by rewrite Hr.
  - destruct Hlen as [->|[->|[->| ->]]]; lia.
  - destruct Hlen as [->|[->|[->| ->]]]; lia.
  - replace (Z.of_nat (Z.to_nat (PacketNumberLen h))) with (PacketNumberLen h);
      [apply mod_pow_width|]; destruct Hlen as [->|[->|[->| ->]]]; lia.
Qed.

Lemma header_GetLength_enc h version pers :
  regular h pers -> GetLength h pers = Ok (Z.of_nat (length (enc h version pers))).
Proof.
  intros Hreg. pose proof (regular_hasPN _ _ Hreg) as HPN.
  destruct (present_fields _ _ Hreg) as (_ & Hvi & Hvs).
  assert (Hn : length (if 0 <? nonceLen h then h.(DiversificationNonce) else [])
               = length h.(DiversificationNonce)).
  { destruct (0 <? nonceLen h) eqn:Hn; [done|]. by rewrite nonce_empty. }
  destruct Hreg as (Hr & _ & Hlen & _). unfold GetLength, enc. rewrite HPN, Hr, Hvi, Hvs, andb_false_r.
  rewrite !length_app, Hn, (bo_enc_length (bo:=GetByteOrder version)). unfold nonceLen.
  destruct Hlen as [->|[->|[->| ->]]], (TruncateConnectionID h), (VersionFlag h), (MultipathFlag h);
    cbn [negb andb Z.eqb Pos.eqb]; f_equal; rewrite ?bo_enc_length; cbn [length]; lia.
Qed.

(** For every regular packet (any flags and packet number length a sender
    uses) the header writer produces a byte string of exactly the length
    [GetLength] computes, and the peer's parser reads back the connection ID, the
    path ID, all flags, the version, the nonce and the packet number truncated to
    its length, leaving the payload; for a packet with a version flag this needs
    the announced version to have the byte order the sender wrote with. *)
Theorem PublicHeader_roundtrip h version pers payload :
  regular h pers -> version <> VersionUnknown ->
  GetByteOrder (pn_version h version) = GetByteOrder version ->
  exists b, Write h version pers [] = WOk b
    /\ GetLength h pers = Ok (Z.of_nat (length b))
    /\ Parse pers version (b ++ payload) = Ok (received h, payload).
Proof.
  intros Hreg Hver Hbo. exists (enc h version pers). split_and!.
  - apply (header_Write_enc _ _ _ Hreg []).
  - by apply header_GetLength_enc.
  - by apply header_Parse_enc.
Qed.

Definition example_header : t :=
  mk [] 0x1122334455667788 5 false false false true PacketNumberLen2 0x12345 0 [] [].

Lemma PublicHeader_roundtrip_witness :
  exists b, Write example_header Version39 PerspectiveServer [] = WOk b
    /\ GetLength example_header PerspectiveServer = Ok (Z.of_nat (length b))
    /\ Parse PerspectiveServer Version39 (b ++ [0xAA]) = Ok (received example_header, [0xAA]).
Proof.
  apply (PublicHeader_roundtrip example_header Version39 PerspectiveServer [0xAA]).
  - unfold regular, pnlen_ok, in_width, PacketNumberLen2; cbn; repeat split; (lia || by auto).
  - done.
  - reflexivity.
Defined.

(** The server's demultiplexer peeks the connection ID before the session
    parses the header: whenever the full parser accepts a packet, the peeked
    connection ID is the one it finds, and peeking leaves the packet unread. *)
Theorem PeekConnectionID_agrees pers version b h r :
  Parse pers version b = Ok (h, r) -> PeekConnectionID pers b = Ok (h.(ConnectionID), b).
Proof.
  intros HP. unfold Parse in HP.
  apply rbind_Ok_inv in HP as (fb & b1 & HB & HP). cbv zeta in HP.
  apply rbind_Ok_inv in HP as (? & ? & [_ [= -> ->]]%rguard_Ok_inv & HP).
  apply rbind_Ok_inv in HP as (? & ? & [HT [= -> ->]]%rguard_Ok_inv & HP).
  apply rbind_Ok_inv in HP as (connID & b2 & HC & HP).
  apply rbind_Ok_inv in HP as (? & ? & [_ [= -> ->]]%rguard_Ok_inv & HP).
  apply rbind_Ok_inv in HP as (nonce & b3 & _ & HP).
  assert (ConnectionID h = connID) as ->.
  { case_match; rinv HP; cbv [mret reader_ret] in HP; by simplify_eq. }
  unfold PeekConnectionID. rewrite HB, HT.
  destruct (negb (Z.land fb 8 =? 0)); [by rewrite HC|].
  cbv [mret reader_ret] in HC. by simplify_eq.
Qed.

Lemma PeekConnectionID_agrees_witness :
  Parse PerspectiveClient Version39 [8; 1; 0; 0; 0; 0; 0; 0; 0; 7; 99]
  = Ok (mk [] 1 0 false false false false 1 7 0 [] [], [99])
  /\ PeekConnectionID PerspectiveClient [8; 1; 0; 0; 0; 0; 0; 0; 0; 7; 99]
     = Ok (1, [8; 1; 0; 0; 0; 0; 0; 0; 0; 7; 99]).
Proof.
  split; [reflexivity|].
  apply (PeekConnectionID_agrees PerspectiveClient Version39 _
           (mk [] 1 0 false false false false 1 7 0 [] []) [99]). reflexivity.
Defined.

(** *** Version negotiation *)

Definition tags (versions : list Z) : list Z :=
  concat (map (fun v => bo_enc (bo:=LittleEndian) 4 (VersionNumberToTag v)) versions).

Lemma writeVersionTags_tags versions : writes (writeVersionTags versions) (tags versions).
Proof.
  induction versions as [|v vs IH]; [apply writes_wskip|].
  apply writes_seq; [|apply IH]. auto with wire.
Qed.

Lemma length_tags versions : length (tags versions) = (4 * length versions)%nat.
Proof.
  induction versions as [|v vs IH]; [done|].
  unfold tags in *. cbn [map concat length]. rewrite length_app, IH, (bo_enc_length (bo:=LittleEndian)). lia.
Qed.

Lemma readVersions_tags versions : forall fuel,
  (length versions <= fuel)%nat -> Forall (fun v => 0 <= v < 1000) versions ->
  readVersions fuel (tags versions) = versions.
Proof.
  induction versions as [|v vs IH]; intros [|fuel] Hf Hv; cbn [length] in Hf; [done|done|lia|].
  apply Forall_cons in Hv as [Hv Hvs]. unfold tags; cbn [map concat readVersions].
  rewrite (ReadUint32_enc LittleEndian) by apply VersionNumberToTag_range.
  rewrite version_tag_roundtrip by done. f_equal. apply IH; [lia|done].
Qed.

(** Version negotiation: the client reads from the server's version
    negotiation packet the connection ID and exactly the offered versions, in the
    server's order, whatever version it was using. *)
Theorem VersionNegotiation_roundtrip connectionID versions version :
  1 <= connectionID < 2 ^ 64 -> Forall (fun v => 0 <= v < 1000) versions ->
  exists b, ComposeVersionNegotiation connectionID versions = WOk b
    /\ Parse PerspectiveServer version b
       = Ok (mk [] connectionID 0 true false false false 0 0 0 versions [], []).
Proof.
  intros Hc Hv.
  exists ([0x09] ++ bo_enc (bo:=LittleEndian) 8 connectionID ++ tags versions). split.
  - unfold ComposeVersionNegotiation.
    assert (HW : PublicHeader.Write (mk [] connectionID 0 true false false false 0 1 0 [] []) VersionWhatever
               PerspectiveServer [] = WOk ([0x09] ++ bo_enc (bo:=LittleEndian) 8 connectionID)).
    { rewrite <- (u64_small connectionID) at 2 by lia. reflexivity. }
    rewrite HW, (writeVersionTags_tags versions). by rewrite <- app_assoc.
  - unfold Parse. cbn [app]. rewrite (rbind_Ok _ _ _ _ _ (ReadByte_cons _ _)). cbv zeta.
    erewrite rbind_Ok; [|apply rguard_false; apply andb_false_r].
    erewrite rbind_Ok; [|by apply rguard_false].
    erewrite rbind_Ok; [|apply (ReadUint64_enc LittleEndian); unfold in_width; lia].
    erewrite rbind_Ok; [|apply rguard_false; cbn; zcases; lia].
    erewrite rbind_Ok; [|reflexivity].
    change (negb (0 <? Z.land 9 2) && (0 <? Z.land 9 1) && isServer PerspectiveServer) with true.
    cbv iota.
    erewrite rbind_Ok; [|reflexivity].
    erewrite rbind_Ok; [|apply rguard_false].
    2:{ rewrite length_tags, Nat2Z.inj_mul, Z.mul_comm, Z.mod_mul by lia. done. }
    erewrite rbind_Ok; [|reflexivity]. rewrite readVersions_tags; [done| |done].
    rewrite length_tags. lia.
Qed.

Lemma VersionNegotiation_roundtrip_witness :
  exists b, ComposeVersionNegotiation 0x1234 [Version39; 38; 37] = WOk b
    /\ Parse PerspectiveServer VersionUnknown b
       = Ok (mk [] 0x1234 0 true false false false 0 0 0 [Version39; 38; 37] [], []).
Proof.
  apply (VersionNegotiation_roundtrip 0x1234 [Version39; 38; 37] VersionUnknown).
  - lia.
  - repeat constructor; unfold Version39; lia.
Defined.

End HeaderProofs.
