(* ===== verification/PacketUnpacker.v ===== *)
(** * Frames and packet payloads ([internal/wire/frame.go], [packet_unpacker.go])

    The frames of a packet as one sum type with the dispatching [Write] and
    [MinLength] of the [wire.Frame] interface, and the unpacker: decryption and
    the loop that dispatches on the type byte.  The AEAD is not part of the
    repository's packet layer; it is an interface of the model. *)

From S2P Require Import Prelude ByteOrder Protocol WireFrames WireStream WireAck.
From S2P Require Import WireAckProofs WireAckParse WireHeader.

(** ** The [wire.Frame] interface *)

Inductive Frame : Type :=
| FStream (f : StreamFrame.t)
| FAck (f : AckFrame.t)
| FRstStream (f : RstStreamFrame.t)
| FConnectionClose (f : ConnectionCloseFrame.t)
| FGoaway (f : GoawayFrame.t)
| FWindowUpdate (f : WindowUpdateFrame.t)
| FBlocked (f : BlockedFrame.t)
| FStopWaiting (f : StopWaitingFrame.t)
| FPing (f : PingFrame.t)
| FAddAddress (f : AddAddressFrame.t)
| FClosePath (f : ClosePathFrame.t)
| FPaths (f : PathsFrame.t).

(** [now] is the clock that [AckFrame.Write] reads. *)
Definition WriteFrame (fr : Frame) (version now : Z) : Writer := fun b =>
  match fr with
  | FStream f => StreamFrame.Write f version b
  | FAck f => (AckFrame.Write f version now b).2
  | FRstStream f => RstStreamFrame.Write f version b
  | FConnectionClose f => ConnectionCloseFrame.Write f version b
  | FGoaway f => GoawayFrame.Write f version b
  | FWindowUpdate f => WindowUpdateFrame.Write f version b
  | FBlocked f => BlockedFrame.Write f version b
  | FStopWaiting f => StopWaitingFrame.Write f version b
  | FPing f => PingFrame.Write f version b
  | FAddAddress f => AddAddressFrame.Write f version b
  | FClosePath f => ClosePathFrame.Write f version b
  | FPaths f => PathsFrame.Write f version b
  end.

Definition MinLengthFrame (fr : Frame) (version : Z) : res Z :=
  match fr with
  | FStream f => StreamFrame.MinLength f version
  | FAck f => AckFrame.MinLength f version
  | FRstStream f => RstStreamFrame.MinLength f version
  | FConnectionClose f => ConnectionCloseFrame.MinLength f version
  | FGoaway f => GoawayFrame.MinLength f version
  | FWindowUpdate f => WindowUpdateFrame.MinLength f version
  | FBlocked f => BlockedFrame.MinLength f version
  | FStopWaiting f => StopWaitingFrame.MinLength f version
  | FPing f => PingFrame.MinLength f version
  | FAddAddress f => AddAddressFrame.MinLength f version
  | FClosePath f => ClosePathFrame.MinLength f version
  | FPaths f => PathsFrame.MinLength f version
  end.

(** The loop over the payload frames in [packetPacker.writeAndSealPacket]. *)
Definition writeFrames (fs : list Frame) (version now : Z) : Writer :=
  foldr (fun fr w => WriteFrame fr version now ;;; w) wskip fs.

(** ** Encryption levels and the AEAD *)

Definition EncryptionUnspecified : Z := 0.
Definition EncryptionUnencrypted : Z := 1.
Definition EncryptionSecure : Z := 2.
Definition EncryptionForwardSecure : Z := 3.

(** [quicAEAD]: the decrypted payload and its encryption level, or an error. *)
Class QuicAEAD : Type := {
  Open : list Z -> Z -> list Z -> error + (list Z * Z)
}.

Definition InvalidFrameData : Z := 4.
Definition InvalidRstStreamData : Z := 6.
Definition InvalidAckData : Z := 9.
Definition DecryptionFailure : Z := 12.
Definition MissingPayload : Z := 48.
Definition InvalidWindowUpdateData : Z := 57.
Definition InvalidBlockedData : Z := 58.
Definition UnencryptedStreamData : Z := 61.

(** ** The unpacker *)

Module PacketUnpacker.

(** [if err != nil { err = qerr.Error(code, err.Error()) }] *)
Definition wrapped {A} (code : Z) (mk : A -> Frame) (m : Reader A) : Reader Frame := fun r =>
  match m r with
  | Ok (f, r') => Ok (mk f, r')
  | Err e => Err (QuicErrorOf code e)
  | Panic => Panic
  end.

Definition plain {A} (mk : A -> Frame) (m : Reader A) : Reader Frame :=
  f ← m; mret (mk f).

(** All frames but STREAM; the type byte is not consumed yet. *)
Definition parseOther (version hdrPN hdrPNLen typeByte : Z) : Reader Frame :=
  if Z.land typeByte 0xc0 =? 0x40 then wrapped InvalidAckData FAck (AckFrame.Parse version)
  else if Z.land typeByte 0xe0 =? 0x20 then rfail (ErrorsNew "unimplemented: CONGESTION_FEEDBACK")
  else if typeByte =? 0x01 then wrapped InvalidRstStreamData FRstStream (RstStreamFrame.Parse version)
  else if typeByte =? 0x02 then
    wrapped InvalidConnectionCloseData FConnectionClose (ConnectionCloseFrame.Parse version)
  else if typeByte =? 0x03 then wrapped InvalidGoawayData FGoaway (GoawayFrame.Parse version)
  else if typeByte =? 0x04 then
    wrapped InvalidWindowUpdateData FWindowUpdate (WindowUpdateFrame.Parse version)
  else if typeByte =? 0x05 then wrapped InvalidBlockedData FBlocked (BlockedFrame.Parse version)
  else if typeByte =? 0x06 then
    wrapped InvalidStopWaitingData FStopWaiting (StopWaitingFrame.Parse hdrPN hdrPNLen version)
  else if typeByte =? 0x07 then plain FPing (PingFrame.Parse version)
  else if typeByte =? 0x10 then plain FAddAddress (AddAddressFrame.Parse version)
  else if typeByte =? 0x11 then plain FClosePath (ClosePathFrame.Parse version)
  else if typeByte =? 0x12 then plain FPaths (PathsFrame.Parse version)
  else rfail (QuicErrorf InvalidFrameData "unknown type byte 0x%x" [typeByte]).

(** A STREAM frame; [marks] is [sess.streamsMap.unreliableStreamMark], which is
    updated even when the packet is then rejected as unencrypted. *)
Definition parseStream (version encryptionLevel typeByte : Z) (marks : gmap Z bool) (r : list Z)
  : gmap Z bool * res (Frame * list Z) :=
  match StreamFrame.Parse version r with
  | Ok (f, r') =>
      let streamID := f.(StreamFrame.StreamID) in
      let result :=
        if negb (streamID =? 1) && (encryptionLevel <=? EncryptionUnencrypted)
        then Err (QuicErrorf UnencryptedStreamData "received unencrypted stream data on stream %d" [streamID])
        else Ok (FStream f, r') in
      let marks := if Z.land typeByte 0x01 =? 0x01 then <[streamID := true]> marks else marks in
      (marks, result)
  | Err e => (marks, Err (QuicErrorOf InvalidStreamData e))
  | Panic => (marks, Panic)
  end.

Definition parseFrame (version hdrPN hdrPNLen encryptionLevel typeByte : Z) (marks : gmap Z bool)
  (r : list Z) : gmap Z bool * res (Frame * list Z) :=
  if Z.land typeByte 0x80 =? 0x80 then parseStream version encryptionLevel typeByte marks r
  else (marks, parseOther version hdrPN hdrPNLen typeByte r).

(** [for r.Len() > 0 { ... }]: [None] when the fuel is used up. *)
Fixpoint unpackFrames (fuel : nat) (version hdrPN hdrPNLen encryptionLevel : Z)
  (marks : gmap Z bool) (fs : list Frame) (r : list Z) : option (gmap Z bool * res (list Frame)) :=
  match r with
  | [] => Some (marks, Ok fs)
  | typeByte :: r1 =>
      match fuel with
      | O => None
      | S fuel =>
          if typeByte =? 0x0 then
            unpackFrames fuel version hdrPN hdrPNLen encryptionLevel marks fs r1
          else
            match parseFrame version hdrPN hdrPNLen encryptionLevel typeByte marks r with
            | (marks, Ok (f, r2)) =>
                unpackFrames fuel version hdrPN hdrPNLen encryptionLevel marks (fs ++ [f]) r2
            | (marks, Err e) => Some (marks, Err e)
            | (marks, Panic) => Some (marks, Panic)
            end
      end
  end.

(** [Unpack]: the frames with the encryption level, and the marks. *)
Definition Unpack `{aead : QuicAEAD} (version : Z) (marks : gmap Z bool) (publicHeaderBinary : list Z)
  (hdr : PublicHeader.t) (data : list Z) : option (gmap Z bool * res (Z * list Frame)) :=
  match Open data hdr.(PublicHeader.PacketNumber) publicHeaderBinary with
  | inl e => Some (marks, Err (QuicErrorOf DecryptionFailure e))
  | inr (decrypted, encryptionLevel) =>
      if (length decrypted =? 0)%nat then Some (marks, Err (Prelude.ErrorCode MissingPayload))
      else
        match unpackFrames (length decrypted) version hdr.(PublicHeader.PacketNumber)
                hdr.(PublicHeader.PacketNumberLen) encryptionLevel marks [] decrypted with
        | Some (marks, Ok fs) => Some (marks, Ok (encryptionLevel, fs))
        | Some (marks, Err e) => Some (marks, Err e)
        | Some (marks, Panic) => Some (marks, Panic)
        | None => None
        end
  end.

End PacketUnpacker.

(** ** Proofs *)

Module UnpackerProofs.
Import PacketUnpacker.

(** *** The loop terminates

    Every parser consumes the type byte and leaves a suffix of its input. *)

Definition advances {A} (m : Reader A) : Prop :=
  forall r a r', m r = Ok (a, r') -> (length r' < length r)%nat /\ r' `suffix_of` r.

Lemma advances_byte {A} (k : Z -> Reader A) : (forall b, reads_on (k b)) -> advances (ReadByte ≫= k).
Proof. intros Hk r a r'. by apply reads_byte_first. Qed.

Lemma advances_wrapped {A} code (mk : A -> Frame) m : advances m -> advances (wrapped code mk m).
Proof.
  intros Hm r f r'. unfold wrapped. destruct (m r) as [[a r1]| |] eqn:E; [|done..].
  intros [= <- <-]. by eapply Hm.
Qed.

Lemma advances_plain {A} (mk : A -> Frame) m : advances m -> advances (plain mk m).
Proof. intros Hm r f r' (a & r1 & H & [= <- <-])%rbind_Ok_inv. by eapply Hm. Qed.

Lemma advances_fail {A} e : advances (@rfail A e).
Proof. done. Qed.

Lemma advances_if {A} (c : bool) (m1 m2 : Reader A) :
  advances m1 -> advances m2 -> advances (if c then m1 else m2).
Proof. by destruct c. Qed.

Lemma parseBlocks_reads_on version deltaLen n : forall rs l c,
  reads_on (parseBlocks version deltaLen n rs l c).
Proof.
  induction n as [|n IH]; intros rs l c; cbn [parseBlocks]; solve_reads_on.
  case_match; [|auto with wire]. case_match. apply IH.
Qed.

Lemma parseRanges_reads_on version deltaLen miss n la bl :
  reads_on (parseRanges version deltaLen miss n la bl).
Proof.
  unfold parseRanges. solve_reads_on; [apply parseBlocks_reads_on|]. case_match; auto with wire.
Qed.

Lemma skipTimestamps_reads_on version n : reads_on (AckFrame.skipTimestamps version n).
Proof. induction n; simpl; solve_reads_on. Qed.

Lemma readPaths_reads_on version n : reads_on (PathsFrame.readPaths version n).
Proof. induction n; simpl; unfold readUfloat16; solve_reads_on. Qed.

Lemma readBytes_reads_on n : reads_on (AddAddressFrame.readBytes n).
Proof. induction n; simpl; solve_reads_on. Qed.

#[local] Hint Resolve parseRanges_reads_on skipTimestamps_reads_on readPaths_reads_on
  readBytes_reads_on : wire.

Lemma StreamFrame_advances version : advances (StreamFrame.Parse version).
Proof. apply advances_byte. intros b. unfold StreamFrame.Parse_fields. solve_reads_on. Qed.

Lemma AckFrame_advances version : advances (AckFrame.Parse version).
Proof.
  apply advances_byte. intros b. unfold readUfloat16, AckFrame.parseTimestamps. solve_reads_on.
Qed.

Lemma ClosePathFrame_advances version : advances (ClosePathFrame.Parse version).
Proof. apply advances_byte. solve_reads_on. Qed.

Lemma parseOther_advances version pn pnl tb : advances (parseOther version pn pnl tb).
Proof.
  unfold parseOther.
  repeat (apply advances_if; [first [apply advances_wrapped | apply advances_plain | apply advances_fail]
                             |]); try apply advances_fail;
    try apply AckFrame_advances; try apply ClosePathFrame_advances;
    apply advances_byte; solve_reads_on.
Qed.

Lemma parseFrame_advances version pn pnl enc tb marks r marks' f r' :
  parseFrame version pn pnl enc tb marks r = (marks', Ok (f, r')) ->
  (length r' < length r)%nat /\ r' `suffix_of` r.
Proof.
  unfold parseFrame, parseStream. case_match; [|intros [= _ HP]; by eapply parseOther_advances].
  destruct (StreamFrame.Parse version r) as [[f' r1]| |] eqn:E; [|done..].
  destruct (_ && _); intros [= _ <- <-]. by eapply StreamFrame_advances.
Qed.

(** *** No input makes the unpacker panic *)

Lemma wrapped_no_panic {A} code (mk : A -> Frame) (m : Reader A) r :
  m r <> Panic -> wrapped code mk m r <> Panic.
Proof. unfold wrapped. by destruct (m r) as [[]| |]. Qed.

Lemma plain_no_panic {A} (mk : A -> Frame) (m : Reader A) r :
  m r <> Panic -> plain mk m r <> Panic.
Proof. unfold plain, mbind, reader_bind. by destruct (m r) as [[]| |]. Qed.

Lemma PingFrame_no_panic version : no_panic (PingFrame.Parse version).
Proof. unfold PingFrame.Parse. solve_no_panic. Qed.

Lemma parseOther_no_panic version pn pnl tb r :
  bytes_ok r -> parseOther version pn pnl tb r <> Panic.
Proof.
  intros Hr. pose proof (rspec_inv _ _ _ (AckFrame_Parse_rspec version r Hr)) as [Ha _].
  pose proof (rspec_inv _ _ _ (ClosePathFrame_Parse_rspec version r Hr)) as [Hc _].
  unfold parseOther.
  repeat (case_match; [first [ apply wrapped_no_panic | apply plain_no_panic | done ]; first
    [ done | apply RstStreamFrame.rst_Parse_no_panic | apply ConnectionCloseFrame.cc_Parse_no_panic
    | apply GoawayFrame.ga_Parse_no_panic | apply WindowUpdateFrame.wu_Parse_no_panic
    | apply BlockedFrame.bl_Parse_no_panic | apply StopWaitingFrame.sw_Parse_no_panic
    | apply PingFrame_no_panic | apply AddAddressFrame.aa_Parse_no_panic
    | apply PathsFrame.paths_Parse_no_panic ]|]). done.
Qed.

Lemma parseFrame_no_panic version pn pnl enc tb marks r :
  bytes_ok r -> (parseFrame version pn pnl enc tb marks r).2 <> Panic.
Proof.
  intros Hr. unfold parseFrame, parseStream. case_match; [|by apply parseOther_no_panic].
  pose proof (StreamProofs.Parse_no_panic version r).
  destruct (StreamFrame.Parse version r) as [[f r']| |]; [|done..]. cbn. by case_match.
Qed.

Lemma unpackFrames_total version pn pnl enc fuel : forall marks fs r,
  (length r <= fuel)%nat -> bytes_ok r ->
  exists marks' x, unpackFrames fuel version pn pnl enc marks fs r = Some (marks', x) /\ x <> Panic.
Proof.
  induction fuel as [|fuel IH]; intros marks fs [|tb r] Hf Hr; cbn [unpackFrames]; eauto;
    [simpl in Hf; lia|].
  pose proof (proj2 (proj1 (Forall_cons _ _ _) Hr)) as Hr1. cbn [length] in Hf.
  case_match; [apply IH; [lia|done]|].
  pose proof (parseFrame_no_panic version pn pnl enc tb marks _ Hr) as HP.
  destruct (parseFrame _ _ _ _ _ _ _) as [marks' [[f r2]| |]] eqn:E; [|by eauto|done].
  apply parseFrame_advances in E as [Hlen Hsuf]. cbn [length] in Hlen.
  apply IH; [lia|by eapply Forall_suffix].
Qed.

(** C23: whatever bytes the decrypted payload holds, the unpacker comes to an
    end without a run-time panic: every iteration consumes a byte, so the length
    of the payload bounds the loop, and each packet gives frames or an error. *)
Theorem Unpack_total `{aead : QuicAEAD} version marks phb hdr data :
  (forall payload level, Open data hdr.(PublicHeader.PacketNumber) phb = inr (payload, level) ->
     bytes_ok payload) ->
  exists marks' x, Unpack version marks phb hdr data = Some (marks', x) /\ x <> Panic.
Proof.
  intros Hopen. unfold Unpack. destruct (Open _ _ _) as [e|[payload level]]; [by eexists _, _|].
  case_match; [by eexists _, _|].
  destruct (unpackFrames_total version hdr.(PublicHeader.PacketNumber) hdr.(PublicHeader.PacketNumberLen)
    level (length payload) marks [] payload) as (marks' & x & -> & Hx); [done|by apply (Hopen _ level)|].
  destruct x; [by eexists _, _..|done].
Qed.

Lemma Unpack_total_witness :
  let aead := {| Open := fun data _ _ => inr (data, EncryptionForwardSecure) |} in
  exists marks' x, Unpack (aead:=aead) Version39 ∅ [] HeaderProofs.example_header [0x60; 7; 255]
                   = Some (marks', x) /\ x <> Panic.
Proof.
  intros aead. apply (Unpack_total (aead:=aead) Version39 ∅ [] HeaderProofs.example_header [0x60; 7; 255]).
  intros payload level [= <- <-]. repeat constructor; vm_compute; discriminate.
Defined.

(** *** Stream data is only accepted encrypted *)

(** Below [EncryptionSecure] only the crypto stream may carry data. *)
Definition level_ok (level : Z) (fr : Frame) : Prop :=
  match fr with
  | FStream f => EncryptionUnencrypted < level \/ f.(StreamFrame.StreamID) = 1
  | _ => True
  end.

Lemma wrapped_level {A} code (mk : A -> Frame) (m : Reader A) level r fr r' :
  (forall a, level_ok level (mk a)) -> wrapped code mk m r = Ok (fr, r') -> level_ok level fr.
Proof. unfold wrapped. destruct (m r) as [[a r1]| |]; [|done..]. by intros Hm [= <- <-]. Qed.

Lemma plain_level {A} (mk : A -> Frame) (m : Reader A) level r fr r' :
  (forall a, level_ok level (mk a)) -> plain mk m r = Ok (fr, r') -> level_ok level fr.
Proof. intros Hm (a & r1 & _ & [= <- <-])%rbind_Ok_inv. apply Hm. Qed.

Lemma parseOther_not_stream version pn pnl tb r fr r' level :
  parseOther version pn pnl tb r = Ok (fr, r') -> level_ok level fr.
Proof.
  unfold parseOther.
  repeat (case_match; [first [by apply wrapped_level|by apply plain_level|done]|]). done.
Qed.

Lemma parseFrame_level version pn pnl level tb marks r marks' fr r' :
  parseFrame version pn pnl level tb marks r = (marks', Ok (fr, r')) -> level_ok level fr.
Proof.
  unfold parseFrame, parseStream. case_match; [|intros [= _ HP]; by eapply parseOther_not_stream].
  destruct (StreamFrame.Parse version r) as [[f r1]| |]; [|done..].
  destruct (Z.eqb_spec f.(StreamFrame.StreamID) 1), (Z.leb_spec level EncryptionUnencrypted);
    cbn [negb andb]; intros [= _ <- <-]; simpl; lia || auto.
Qed.

Lemma unpackFrames_level version pn pnl level fuel : forall marks fs r marks' fs',
  Forall (level_ok level) fs ->
  unpackFrames fuel version pn pnl level marks fs r = Some (marks', Ok fs') ->
  Forall (level_ok level) fs'.
Proof.
  induction fuel as [|fuel IH]; intros marks fs [|tb r] marks' fs' Hfs; cbn [unpackFrames];
    [by intros [= <- <-]|done|by intros [= <- <-]|].
  case_match; [by apply IH|].
  destruct (parseFrame _ _ _ _ _ _ _) as [marks1 [[f r2]| |]] eqn:E; [|done..].
  apply IH, Forall_app_2; [done|]. apply Forall_singleton. by eapply parseFrame_level.
Qed.

(** No stream data is accepted without encryption: when [Unpack] succeeds
    at the unencrypted level, every STREAM frame it returns is on the crypto
    stream. *)
Theorem Unpack_unencrypted `{aead : QuicAEAD} version marks phb hdr data marks' level fs f :
  Unpack version marks phb hdr data = Some (marks', Ok (level, fs)) ->
  level <= EncryptionUnencrypted -> FStream f ∈ fs -> f.(StreamFrame.StreamID) = 1.
Proof.
  unfold Unpack. intros HU Hlevel Hf.
  destruct (Open _ _ _) as [|[payload level']]; [done|]. case_match; [done|].
  destruct (unpackFrames _ _ _ _ _ _ _ _) as [[m [fs0| |]]|] eqn:E; [|done..].
  injection HU as <- <- <-. apply unpackFrames_level in E; [|constructor].
  rewrite Forall_forall in E. destruct (E _ Hf); [lia|done].
Qed.

Lemma Unpack_unencrypted_witness :
  let aead := {| Open := fun data _ _ => inr (data, EncryptionUnencrypted) |} in
  let f := StreamFrame.mk 1 false false false 0 [42; 43] in
  Unpack (aead:=aead) Version39 ∅ [] HeaderProofs.example_header [0x80; 1; 42; 43]
  = Some (∅, Ok (EncryptionUnencrypted, [FStream f])) /\ f.(StreamFrame.StreamID) = 1.
Proof.
  intros aead f. split; [vm_compute; reflexivity|].
  apply (Unpack_unencrypted (aead:=aead) Version39 ∅ [] HeaderProofs.example_header [0x80; 1; 42; 43]
           ∅ EncryptionUnencrypted [FStream f] f); [vm_compute; reflexivity|reflexivity|by left].
Defined.

(** *** A written payload is unpacked to the same frames *)

(** The frames of a packet with the given packet number can be written. *)
Definition frame_ok (pn pnl : Z) (fr : Frame) : Prop :=
  match fr with
  | FStream f => StreamProofs.wf f /\ StreamProofs.sid_len_odd f
  | FAck f => AckProofs.wf f
  | FRstStream f => RstStreamFrame.wf f
  | FConnectionClose f => ConnectionCloseFrame.wf f
  | FGoaway f => GoawayFrame.wf f
  | FWindowUpdate f => WindowUpdateFrame.wf f
  | FBlocked f => BlockedFrame.wf f
  | FStopWaiting f => StopWaitingFrame.wf f /\ f.(StopWaitingFrame.PacketNumber) = pn
                      /\ f.(StopWaitingFrame.PacketNumberLen) = pnl
  | FPing f => True
  | FAddAddress f => AddAddressFrame.wf f
  | FClosePath f => ClosePathProofs.wf f
  | FPaths f => PathsFrame.wf f
  end.

(** A STREAM frame without a length takes the rest of the packet. *)
Definition open_ended (fr : Frame) : bool :=
  match fr with FStream f => negb f.(StreamFrame.DataLenPresent) | _ => false end.

Fixpoint payload_ok (pn pnl : Z) (fs : list Frame) : Prop :=
  match fs with
  | [] => True
  | fr :: fs => frame_ok pn pnl fr /\ (open_ended fr = true -> fs = []) /\ payload_ok pn pnl fs
  end.

(** The frame that the peer gets. *)
Definition receivedFrame (now : Z) (fr : Frame) : Frame :=
  match fr with
  | FStream f => FStream (StreamProofs.unmark f)
  | FAck f => FAck (AckProofs.received f now)
  | FStopWaiting f => FStopWaiting (StopWaitingFrame.mk f.(StopWaitingFrame.LeastUnacked) 0 0)
  | FAddAddress f => FAddAddress (AddAddressFrame.canonical f)
  | FClosePath f => FClosePath (ClosePathProofs.received f)
  | FPaths f => FPaths (PathsFrame.mk f.(PathsFrame.MaxNumPaths) f.(PathsFrame.NumPaths)
      f.(PathsFrame.PathIDs) (PathsFrame.rtt_rounded <$> f.(PathsFrame.RemoteRTTs)))
  | _ => fr
  end.

(** The streams that the peer marks as unreliable. *)
Definition markFrame (marks : gmap Z bool) (fr : Frame) : gmap Z bool :=
  match fr with
  | FStream f => if f.(StreamFrame.UnreliableMarker) then <[f.(StreamFrame.StreamID) := true]> marks
                 else marks
  | _ => marks
  end.

Definition encFrame (version now : Z) (fr : Frame) : list Z :=
  match fr with
  | FStream f => StreamProofs.enc f version
  | FAck f => AckProofs.enc f version now
  | FRstStream f => RstStreamFrame.enc f version
  | FConnectionClose f => ConnectionCloseFrame.enc f version
  | FGoaway f => GoawayFrame.enc f version
  | FWindowUpdate f => WindowUpdateFrame.enc f version
  | FBlocked f => BlockedFrame.enc f version
  | FStopWaiting f => StopWaitingFrame.enc f version
  | FPing f => PingFrame.enc
  | FAddAddress f => AddAddressFrame.enc f version
  | FClosePath f => ClosePathProofs.enc f version
  | FPaths f => PathsFrame.enc f version
  end.

Lemma WriteFrame_enc pn pnl version now fr :
  frame_ok pn pnl fr -> writes (WriteFrame fr version now) (encFrame version now fr).
Proof.
  destruct fr; cbn [frame_ok encFrame]; intros Hok b; unfold WriteFrame.
  - apply StreamProofs.Write_enc, Hok.
  - by apply (AckProofs.ack_Write_enc f version now Hok).
  - apply RstStreamFrame.rst_Write_enc.
  - apply ConnectionCloseFrame.cc_Write_enc. destruct Hok as [_ Hl].
    change MaxPacketSize with 1350 in Hl. lia.
  - apply GoawayFrame.ga_Write_enc.
  - apply WindowUpdateFrame.wu_Write_enc.
  - apply BlockedFrame.bl_Write_enc.
  - apply StopWaitingFrame.sw_Write_enc, Hok.
  - apply writes_WriteByte.
  - by apply AddAddressFrame.aa_Write_enc.
  - by apply ClosePathProofs.cp_Write_enc.
  - by apply PathsFrame.paths_Write_enc.
Qed.

(** The type byte of a STREAM frame is recognised, and carries the marker. *)
Lemma stream_type_byte f :
  StreamProofs.wf f -> StreamProofs.sid_len_odd f ->
  Z.land (StreamFrame.typeByte f) 0x80 = 0x80
  /\ (Z.land (StreamFrame.typeByte f) 0x01 =? 0x01) = f.(StreamFrame.UnreliableMarker).
Proof.
  intros Hwf Hodd.
  pose proof (StreamProofs.sid_len_odd_len f (proj1 Hwf) Hodd) as Hl.
  change (StreamFrame.typeByte f) with (StreamProofs.tb f.(StreamFrame.UnreliableMarker)
    f.(StreamFrame.FinBit) f.(StreamFrame.DataLenPresent) (StreamFrame.getOffsetLength f)
    (StreamFrame.calculateStreamIDLength f)).
  revert Hl. apply (StreamProofs.tb_cases (fun ol sl => 2 * ((sl - 1) / 2) + 1 = sl ->
    Z.land (StreamProofs.tb _ _ _ ol sl) 0x80 = 0x80
    /\ (Z.land (StreamProofs.tb _ _ _ ol sl) 0x01 =? 0x01) = f.(StreamFrame.UnreliableMarker))).
  - apply StreamProofs.getOffsetLength_ok.
  - apply StreamProofs.calculateStreamIDLength_range.
  - repeat first [apply Forall_nil_2|apply Forall_cons_2];
      try (intros Hc; vm_compute in Hc; discriminate Hc); intros _;
      destruct (StreamFrame.UnreliableMarker f), (StreamFrame.FinBit f), (StreamFrame.DataLenPresent f);
      by vm_compute.
Qed.

Lemma ack_type_byte f :
  AckProofs.wf f ->
  Z.land (AckFrame.typeByte f) 0x80 = 0 /\ Z.land (AckFrame.typeByte f) 0xc0 = 0x40.
Proof.
  intros (_ & Hwf & _).
  destruct (deltaLen_fits _ _ _ Hwf) as (Hdok & _).
  assert (Hb : Z.land (AckFrame.typeByte f) 0xc0 = 0x40).
  { apply (ack_tb_fields (GetPacketNumberLength f.(AckFrame.LargestAcked)) (AckFrame.getDeltaLen f)
      (HasMissingRanges f.(AckFrame.AckRanges)) (negb (f.(AckFrame.PathID) =? InitialPathID)));
      [apply GetPacketNumberLength_ok|done]. }
  split; [|done]. change 0x80 with (Z.land 0xc0 0x80). by rewrite Z.land_assoc, Hb.
Qed.

Lemma wrapped_Ok {A} code (mk : A -> Frame) (m : Reader A) r f r' :
  m r = Ok (f, r') -> wrapped code mk m r = Ok (mk f, r').
Proof. unfold wrapped. by intros ->. Qed.

Lemma plain_Ok {A} (mk : A -> Frame) (m : Reader A) r f r' :
  m r = Ok (f, r') -> plain mk m r = Ok (mk f, r').
Proof. intros H. unfold plain. by rewrite (rbind_Ok _ _ _ _ _ H). Qed.

(** A frame of fixed type byte: its branch of the dispatch, then its parser. *)
Ltac other_frame parsed :=
  split; [done|]; cbn [receivedFrame markFrame]; apply (f_equal (pair _));
  first [apply wrapped_Ok|apply plain_Ok]; by apply parsed.

(** One frame of the payload. *)
Lemma parseFrame_enc pn pnl version now level marks fr r :
  frame_ok pn pnl fr -> level_ok level fr -> (open_ended fr = true -> r = []) ->
  exists tb l, encFrame version now fr = tb :: l /\ tb <> 0 /\
    parseFrame version pn pnl level tb marks (encFrame version now fr ++ r)
    = (markFrame marks fr, Ok (receivedFrame now fr, r)).
Proof.
  destruct fr; cbn [frame_ok level_ok open_ended encFrame]; intros Hok Hlevel Hr;
    (eexists _, _; split; [reflexivity|]).
  - destruct Hok as [Hwf Hodd]. destruct (stream_type_byte f Hwf Hodd) as [H80 H1].
    split; [by intros H0; rewrite H0 in H80|].
    unfold parseFrame, parseStream. rewrite H80, Z.eqb_refl.
    rewrite H1.
    rewrite StreamProofs.Parse_enc; [|done..|by destruct (StreamFrame.DataLenPresent f); auto].
    change (StreamFrame.StreamID (StreamProofs.unmark f)) with f.(StreamFrame.StreamID).
    destruct Hlevel as [Hl|Hs];
      [destruct (Z.leb_spec level EncryptionUnencrypted); [lia|]; by rewrite andb_false_r|].
    by rewrite (proj2 (Z.eqb_eq _ _) Hs).
  - destruct (ack_type_byte f Hok) as [H80 Hc0].
    split; [by intros H0; rewrite H0 in Hc0|].
    unfold parseFrame, parseOther. rewrite H80, Hc0. cbn [Z.eqb Pos.eqb]. unfold wrapped.
    change (_ :: _) with (AckProofs.enc f version now). by rewrite AckProofs.ack_Parse_enc.
  - other_frame RstStreamFrame.rst_Parse_enc.
  - other_frame ConnectionCloseFrame.cc_Parse_enc.
  - other_frame GoawayFrame.ga_Parse_enc.
  - other_frame WindowUpdateFrame.wu_Parse_enc.
  - other_frame BlockedFrame.bl_Parse_enc.
  - destruct Hok as (Hwf & <- & <-).
    other_frame StopWaitingFrame.sw_Parse_enc.
  - split; [done|]. by destruct f.
  - other_frame AddAddressFrame.aa_Parse_enc.
  - other_frame ClosePathProofs.cp_Parse_enc.
  - other_frame PathsFrame.paths_Parse_enc.
Qed.

Definition encPayload (version now : Z) (fs : list Frame) : list Z :=
  concat (map (encFrame version now) fs).

Lemma writeFrames_enc pn pnl version now fs :
  payload_ok pn pnl fs -> writes (writeFrames fs version now) (encPayload version now fs).
Proof.
  induction fs as [|fr fs IH]; [intros _; apply writes_wskip|]. intros (Hok & _ & Hfs).
  apply writes_seq; [by eapply WriteFrame_enc|by apply IH].
Qed.

Lemma unpackFrames_enc pn pnl version now level fs : forall fuel marks done,
  payload_ok pn pnl fs -> Forall (level_ok level) fs ->
  (length (encPayload version now fs) <= fuel)%nat ->
  unpackFrames fuel version pn pnl level marks done (encPayload version now fs)
  = Some (foldl markFrame marks fs, Ok (done ++ map (receivedFrame now) fs)).
Proof.
  induction fs as [|fr fs IH]; intros fuel marks done Hok Hlevel Hfuel.
  { destruct fuel; cbn [encPayload map concat unpackFrames foldl]; by rewrite app_nil_r. }
  destruct Hok as (Hok & Hopen & Hfs). apply Forall_cons in Hlevel as [Hl Hlevel].
  change (encPayload version now (fr :: fs)) with (encFrame version now fr ++ encPayload version now fs) in *.
  destruct (parseFrame_enc pn pnl version now level marks fr (encPayload version now fs))
    as (tb & l & Henc & Htb & HP); [done..|intros Ho; by rewrite (Hopen Ho)|].
  rewrite length_app in Hfuel. rewrite Henc in HP, Hfuel |- *. cbn [app length] in *.
  destruct fuel as [|fuel]; [lia|]. cbn [unpackFrames].
  destruct (Z.eqb_spec tb 0x0); [done|]. rewrite HP, IH by (done || lia).
  by rewrite <- app_assoc.
Qed.

(** Unpacking what was written. *)
Lemma Unpack_frames `{aead : QuicAEAD} version now hdr marks phb data level fs :
  fs <> [] ->
  payload_ok hdr.(PublicHeader.PacketNumber) hdr.(PublicHeader.PacketNumberLen) fs ->
  Forall (level_ok level) fs ->
  (forall payload, writeFrames fs version now [] = WOk payload ->
     Open data hdr.(PublicHeader.PacketNumber) phb = inr (payload, level)) ->
  (exists payload, writeFrames fs version now [] = WOk payload) /\
  Unpack version marks phb hdr data
  = Some (foldl markFrame marks fs, Ok (level, map (receivedFrame now) fs)).
Proof.
  intros Hne Hok Hlevel Hopen.
  pose proof (writeFrames_enc _ _ version now fs Hok []) as Hw. cbn [app] in Hw.
  split; [by eexists|]. unfold Unpack. rewrite (Hopen _ Hw).
  assert (Hlen : (0 < length (encPayload version now fs))%nat).
  { destruct fs as [|fr fs]; [done|]. destruct Hok as (Hok & Hopen' & _). apply Forall_cons in Hlevel as [Hl _].
    destruct (parseFrame_enc _ _ version now level marks fr [] Hok Hl) as (tb & l & Henc & _); [done|].
    unfold encPayload. cbn [map concat]. rewrite Henc. cbn. lia. }
  destruct (Nat.eqb_spec (length (encPayload version now fs)) 0); [lia|].
  by rewrite (unpackFrames_enc _ _ version now level fs _ marks []).
Qed.

(** C14: sender and receiver agree on every payload: frames that the packer
    may put into a packet, with stream IDs of one or three bytes and ACK frames whose
    first gap fits, are written without an error, and the peer that opens
    the packet gets exactly these frames in order (with the losses of the wire format:
    the delay and RTT rounding and the ACK ranges that do not fit), and marks exactly
    the streams whose frames carry the unreliable marker. *)
Theorem Unpack_written `{aead : QuicAEAD} version now hdr marks phb data level fs :
  fs <> [] ->
  payload_ok hdr.(PublicHeader.PacketNumber) hdr.(PublicHeader.PacketNumberLen) fs ->
  Forall (level_ok level) fs ->
  (forall payload, writeFrames fs version now [] = WOk payload ->
     Open data hdr.(PublicHeader.PacketNumber) phb = inr (payload, level)) ->
  (exists payload, writeFrames fs version now [] = WOk payload) /\
  Unpack version marks phb hdr data
  = Some (foldl markFrame marks fs, Ok (level, map (receivedFrame now) fs)).
Proof. apply Unpack_frames. Qed.

Definition example_payload : list Frame :=
  [FPing PingFrame.mk; FWindowUpdate (WindowUpdateFrame.mk 3 70000);
   FStream (StreamFrame.mk 5 true true false 12 [1; 2; 3])].

Lemma Unpack_written_witness :
  let aead := {| Open := fun data _ _ => inr (data, EncryptionForwardSecure) |} in
  let data := [7; 4; 0; 0; 0; 3; 0; 0; 0; 0; 0; 1; 17; 112; 197; 5; 0; 12; 1; 2; 3] in
  (exists payload, writeFrames example_payload Version39 0 [] = WOk payload) /\
  Unpack (aead:=aead) Version39 ∅ [] HeaderProofs.example_header data
  = Some (foldl markFrame ∅ example_payload,
          Ok (EncryptionForwardSecure, map (receivedFrame 0) example_payload)).
Proof.
  intros aead data.
  apply (Unpack_written (aead:=aead) Version39 0 HeaderProofs.example_header ∅ [] data
           EncryptionForwardSecure example_payload).
  - discriminate.
  - vm_compute. repeat split; try discriminate; auto.
  - repeat constructor.
  - intros payload Hw. vm_compute in Hw. injection Hw as <-. reflexivity.
Defined.

End UnpackerProofs.
