(* ===== verification/MinMax.v ===== *)
(** * Minimum and maximum helpers ([internal/utils/minmax.go])

    Go has one function per type; on values in range they are [Z.min] and
    [Z.max].  A [time.Time] and a [time.Duration] are nanoseconds. *)

From S2P Require Import Prelude.

Definition MaxPacketNumber (a b : Z) : Z := if b <? a then a else b.
Definition MinPacketNumber (a b : Z) : Z := if a <? b then a else b.
Definition MinByteCount (a b : Z) : Z := if a <? b then a else b.
Definition MaxByteCount (a b : Z) : Z := if b <? a then a else b.
Definition MaxUint64 (a b : Z) : Z := if a <? b then b else a.
Definition MinUint64 (a b : Z) : Z := if a <? b then a else b.
Definition MaxInt64 (a b : Z) : Z := if b <? a then a else b.
Definition MinInt64 (a b : Z) : Z := if a <? b then a else b.
Definition MaxDuration (a b : Z) : Z := if b <? a then a else b.
Definition MinDuration (a b : Z) : Z := if b <? a then b else a.
Definition AbsDuration (d : Z) : Z := if 0 <=? d then d else i64 (- d).
Definition MinTime (a b : Z) : Z := if b <? a then b else a.
Definition MaxTime (a b : Z) : Z := if b <? a then a else b.
(** [time.Duration(math.MaxInt64)] *)
Definition InfDuration : Z := 2 ^ 63 - 1.

Lemma MaxPacketNumber_max a b : MaxPacketNumber a b = Z.max a b.
Proof. unfold MaxPacketNumber. zcases; lia. Qed.
Lemma MinPacketNumber_min a b : MinPacketNumber a b = Z.min a b.
Proof. unfold MinPacketNumber. zcases; lia. Qed.
Lemma MinByteCount_min a b : MinByteCount a b = Z.min a b.
Proof. unfold MinByteCount. zcases; lia. Qed.
Lemma MaxByteCount_max a b : MaxByteCount a b = Z.max a b.
Proof. unfold MaxByteCount. zcases; lia. Qed.
Lemma MaxUint64_max a b : MaxUint64 a b = Z.max a b.
Proof. unfold MaxUint64. zcases; lia. Qed.
Lemma MinUint64_min a b : MinUint64 a b = Z.min a b.
Proof. unfold MinUint64. zcases; lia. Qed.
Lemma MaxInt64_max a b : MaxInt64 a b = Z.max a b.
Proof. unfold MaxInt64. zcases; lia. Qed.
Lemma MinInt64_min a b : MinInt64 a b = Z.min a b.
Proof. unfold MinInt64. zcases; lia. Qed.
Lemma MaxDuration_max a b : MaxDuration a b = Z.max a b.
Proof. unfold MaxDuration. zcases; lia. Qed.
Lemma MinDuration_min a b : MinDuration a b = Z.min a b.
Proof. unfold MinDuration. zcases; lia. Qed.
Lemma AbsDuration_abs d : - 2 ^ 63 < d < 2 ^ 63 -> AbsDuration d = Z.abs d.
Proof.
  intros Hd. unfold AbsDuration. zcases; [lia|]. unfold i64. rewrite Z.mod_small by lia. lia.
Qed.

Create Rewrite HintDb minmax.
#[export] Hint Rewrite MaxPacketNumber_max MinPacketNumber_min MinByteCount_min MaxByteCount_max
  MaxUint64_max MinUint64_min MaxInt64_max MinInt64_min MaxDuration_max MinDuration_min : minmax.
