(* ===== verification/AckReceived.v ===== *)
(** * Received packets and the ACKs sent for them ([ackhandler])

    [received_packet_history.go] and [received_packet_handler.go]: the interval
    list of received packet numbers and the state machine that decides when an
    ACK frame is due.  Times are nanoseconds; the zero [time.Time] of the ACK
    alarm is [None]. *)

From S2P Require Import Prelude ByteOrder Protocol WireFrames WireAck WireAckProofs WireAckParse MinMax.

(** ** The interval list

    [utils.PacketIntervalList] from [Front] to [Back]. *)

Record PacketInterval : Type := mkInterval { Start : Z; End_ : Z }.

#[global] Instance PacketInterval_eq_dec : EqDecision PacketInterval.
Proof. solve_decision. Defined.

Definition MaxTrackedReceivedAckRanges : Z := 2500.
Definition TooManyOutstandingReceivedPackets : Z := 69.
Definition errTooManyOutstandingReceivedAckRanges : error :=
  QuicError TooManyOutstandingReceivedPackets "Too many outstanding received ACK ranges".

Module PacketHistory.

Record t : Type := mk { ranges : list PacketInterval; lowestInReceivedPacketNumbers : Z }.

Definition new : t := mk [] 0.

(** The loop from [Back] to [Front]; the list is the current element followed
    by its predecessors. *)
Fixpoint receivedLoop (p : Z) (els : list PacketInterval) : list PacketInterval :=
  match els with
  | [] => [mkInterval p p]
  | el :: prevs =>
      if (el.(Start) <=? p) && (p <=? el.(End_)) then els
      else
        let extended :=
          if el.(End_) =? u64 (p - 1) then Some (mkInterval el.(Start) p)
          else if el.(Start) =? u64 (p + 1) then Some (mkInterval p el.(End_))
          else None in
        match extended with
        | Some el' =>
            match prevs with
            | prev :: prevs' =>
                if u64 (prev.(End_) + 1) =? el'.(Start)
                then mkInterval prev.(Start) el'.(End_) :: prevs'
                else el' :: prevs
            | [] => [el']
            end
        | None =>
            if el.(End_) <? p then mkInterval p p :: els
            else el :: receivedLoop p prevs
        end
  end.

Definition ReceivedPacket (h : t) (p : Z) : t * option error :=
  if MaxTrackedReceivedAckRanges <=? Z.of_nat (length h.(ranges))
  then (h, Some errTooManyOutstandingReceivedAckRanges)
  else if (length h.(ranges) =? 0)%nat
  then (mk (h.(ranges) ++ [mkInterval p p]) h.(lowestInReceivedPacketNumbers), None)
  else (mk (reverse (receivedLoop p (reverse h.(ranges)))) h.(lowestInReceivedPacketNumbers), None).

(** The loop from [Front]; it stops at the first range above [p]. *)
Fixpoint deleteLoop (p : Z) (els : list PacketInterval) : list PacketInterval :=
  match els with
  | [] => []
  | el :: nextEls =>
      if (el.(Start) <=? p) && (p <? el.(End_))
      then mkInterval (u64 (p + 1)) el.(End_) :: deleteLoop p nextEls
      else if el.(End_) <=? p then deleteLoop p nextEls
      else els
  end.

Definition DeleteUpTo (h : t) (p : Z) : t :=
  mk (deleteLoop p h.(ranges)) (MaxPacketNumber h.(lowestInReceivedPacketNumbers) (u64 (p + 1))).

Definition GetAckRanges (h : t) : list AckRange :=
  map (fun el => mkRange el.(Start) el.(End_)) (reverse h.(ranges)).

Definition GetHighestAckRange (h : t) : AckRange :=
  match last h.(ranges) with
  | Some r => mkRange r.(Start) r.(End_)
  | None => mkRange 0 0
  end.

End PacketHistory.

(** ** The received packet handler *)

Definition errInvalidPacketNumber : error :=
  ErrorsNew "ReceivedPacketHandler: Invalid packet number".
Definition AckSendDelay : Z := 25000000.
Definition MaxPacketsReceivedBeforeAckSend : Z := 20.
Definition RetransmittablePacketsBeforeAck : Z := 2.

Module ReceivedPacketHandler.

Record t : Type := mk {
  largestObserved : Z;
  lowerLimit : Z;
  largestObservedReceivedTime : Z;
  packetHistory : PacketHistory.t;
  ackSendDelay : Z;
  packetsReceivedSinceLastAck : Z;
  retransmittablePacketsReceivedSinceLastAck : Z;
  ackQueued : bool;
  ackAlarm : option Z;
  lastAck : option AckFrame.t;
  version : Z;
  packets : Z
}.

Definition New (version : Z) : t :=
  mk 0 0 0 PacketHistory.new AckSendDelay 0 0 false None None version 0.

Definition GetStatistics (h : t) : Z := h.(packets).
Definition GetAlarmTimeout (h : t) : option Z := h.(ackAlarm).

(** The conditions that queue an ACK right away, in the order of the code. *)
Definition queueNow (h : t) (packetNumber packetsSince : Z) : bool :=
  let queued := h.(ackQueued) in
  let queued := match h.(lastAck) with None => true | Some _ => queued end in
  let queued :=
    if h.(version) <? Version39 then
      if MaxPacketsReceivedBeforeAckSend <=? packetsSince then true else queued
    else queued in
  match h.(lastAck) with
  | None => queued
  | Some ack =>
      let queued := if packetNumber <? ack.(AckFrame.LargestAcked) then true else queued in
      if ack.(AckFrame.LargestAcked) <? (PacketHistory.GetHighestAckRange h.(packetHistory)).(First)
      then true else queued
  end.

Definition maybeQueueAck (h : t) (packetNumber : Z) (shouldInstigateAck : bool) (now : Z) : t :=
  let packetsSince := i64 (h.(packetsReceivedSinceLastAck) + 1) in
  let retransSince :=
    if shouldInstigateAck then i64 (h.(retransmittablePacketsReceivedSinceLastAck) + 1)
    else h.(retransmittablePacketsReceivedSinceLastAck) in
  let queued := queueNow h packetNumber packetsSince in
  let '(queued, alarm) :=
    if negb queued && shouldInstigateAck then
      if RetransmittablePacketsBeforeAck <=? retransSince then (true, h.(ackAlarm))
      else (queued, match h.(ackAlarm) with
                    | None => Some (now + h.(ackSendDelay))
                    | Some a => Some a
                    end)
    else (queued, h.(ackAlarm)) in
  let alarm := if queued then None else alarm in
  mk h.(largestObserved) h.(lowerLimit) h.(largestObservedReceivedTime) h.(packetHistory)
    h.(ackSendDelay) packetsSince retransSince queued alarm h.(lastAck) h.(version) h.(packets).

Definition ReceivedPacket (h : t) (packetNumber : Z) (shouldInstigateAck : bool) (now : Z)
  : t * option error :=
  if packetNumber =? 0 then (h, Some errInvalidPacketNumber)
  else
    let packets' := u64 (h.(packets) + 1) in
    let '(largest, time) :=
      if h.(largestObserved) <? packetNumber then (packetNumber, now)
      else (h.(largestObserved), h.(largestObservedReceivedTime)) in
    let h1 hist := mk largest h.(lowerLimit) time hist h.(ackSendDelay)
      h.(packetsReceivedSinceLastAck) h.(retransmittablePacketsReceivedSinceLastAck)
      h.(ackQueued) h.(ackAlarm) h.(lastAck) h.(version) packets' in
    if packetNumber <=? h.(lowerLimit) then (h1 h.(packetHistory), None)
    else
      match PacketHistory.ReceivedPacket h.(packetHistory) packetNumber with
      | (hist, Some err) => (h1 hist, Some err)
      | (hist, None) => (maybeQueueAck (h1 hist) packetNumber shouldInstigateAck now, None)
      end.

Definition SetLowerLimit (h : t) (p : Z) : t :=
  mk h.(largestObserved) p h.(largestObservedReceivedTime) (PacketHistory.DeleteUpTo h.(packetHistory) p)
    h.(ackSendDelay) h.(packetsReceivedSinceLastAck) h.(retransmittablePacketsReceivedSinceLastAck)
    h.(ackQueued) h.(ackAlarm) h.(lastAck) h.(version) h.(packets).

(** [!h.ackQueued && (h.ackAlarm.IsZero() || h.ackAlarm.After(now))] *)
Definition notDue (h : t) (now : Z) : bool :=
  negb h.(ackQueued) && match h.(ackAlarm) with None => true | Some a => now <? a end.

(** [ackRanges[len(ackRanges)-1]] panics when no range is left. *)
Definition GetAckFrame (h : t) (now : Z) : res (t * option AckFrame.t) :=
  if notDue h now then Ok (h, None)
  else
    let ackRanges := PacketHistory.GetAckRanges h.(packetHistory) in
    match last ackRanges with
    | None => Panic
    | Some lowest =>
        let ack := AckFrame.mk 0 h.(largestObserved) lowest.(First)
                     (if (1 <? length ackRanges)%nat then ackRanges else [])
                     h.(largestObservedReceivedTime) 0 in
        Ok (mk h.(largestObserved) h.(lowerLimit) h.(largestObservedReceivedTime) h.(packetHistory)
              h.(ackSendDelay) 0 0 false None (Some ack) h.(version) h.(packets), Some ack)
    end.

Definition GetClosePathFrame (h : t) : res ClosePathFrame.t :=
  let ackRanges := PacketHistory.GetAckRanges h.(packetHistory) in
  match last ackRanges with
  | None => Panic
  | Some lowest =>
      Ok (ClosePathFrame.mk 0 h.(largestObserved) lowest.(First)
            (if (1 <? length ackRanges)%nat then ackRanges else []))
  end.

End ReceivedPacketHandler.
