(* ===== verification/AckReceivedProofs.v ===== *)
(** * Correctness of the received packet history and of the ACKs

    The interval list implements a set of packet numbers, and the handler's ACK
    frames acknowledge exactly the packets of that set. *)

From S2P Require Import Prelude ByteOrder Protocol WireFrames WireAck WireAckProofs.
From S2P Require Import WireAckParse MinMax AckReceived.

(** ** The interval list as a set *)

Definition valid (i : PacketInterval) : Prop := 1 <= i.(Start) <= i.(End_) /\ i.(End_) < 2 ^ 48.

(** Two ranges in order, with at least one packet missing between them. *)
Definition sep (i j : PacketInterval) : Prop := i.(End_) + 1 < j.(Start).

Definition hist_ok (rs : list PacketInterval) : Prop := StronglySorted sep rs /\ Forall valid rs.

Definition covers (rs : list PacketInterval) (q : Z) : Prop :=
  exists i, i ∈ rs /\ i.(Start) <= q <= i.(End_).

Lemma covers_nil q : covers [] q <-> False.
Proof. split; [|done]. by intros (i & ?%elem_of_nil & _). Qed.

Lemma covers_cons i rs q : covers (i :: rs) q <-> i.(Start) <= q <= i.(End_) \/ covers rs q.
Proof.
  unfold covers. setoid_rewrite elem_of_cons. split.
  - intros (j & [->|Hj] & Hq); [by left|right; by exists j].
  - intros [Hq|(j & Hj & Hq)]; [exists i|exists j]; auto.
Qed.

Lemma covers_reverse rs q : covers (reverse rs) q <-> covers rs q.
Proof. unfold covers. by setoid_rewrite elem_of_reverse. Qed.

(** The ends of the ranges are covered, so a bound on the covered numbers is a
    bound on the ranges. *)
Lemma below_all hi rs :
  Forall valid rs -> (forall q, covers rs q -> q + 1 < hi) -> Forall (fun i => i.(End_) + 1 < hi) rs.
Proof.
  rewrite !Forall_forall. intros Hv Hq i Hi. apply Hq. exists i. specialize (Hv i Hi).
  unfold valid in Hv. split; [done|lia].
Qed.

Lemma above_all lo rs :
  Forall valid rs -> (forall q, covers rs q -> lo + 1 < q) -> Forall (fun i => lo + 1 < i.(Start)) rs.
Proof.
  rewrite !Forall_forall. intros Hv Hq i Hi. apply Hq. exists i. specialize (Hv i Hi).
  unfold valid in Hv. split; [done|lia].
Qed.

Lemma covers_below hi rs q :
  Forall (fun i => i.(End_) + 1 < hi) rs -> covers rs q -> q + 1 < hi.
Proof. rewrite Forall_forall. intros H (i & Hi & Hq). specialize (H i Hi). simpl in H. lia. Qed.

Lemma covers_above lo rs q :
  Forall (fun i => lo + 1 < i.(Start)) rs -> covers rs q -> lo + 1 < q.
Proof. rewrite Forall_forall. intros H (i & Hi & Hq). specialize (H i Hi). simpl in H. lia. Qed.

(** ** Registering a packet *)

Definition desc_ok (rs : list PacketInterval) : Prop :=
  StronglySorted (flip sep) rs /\ Forall valid rs.

Lemma desc_ok_cons i rs :
  desc_ok (i :: rs) <-> Forall (fun j => j.(End_) + 1 < i.(Start)) rs /\ valid i /\ desc_ok rs.
Proof. unfold desc_ok. rewrite StronglySorted_cons, Forall_cons. unfold flip, sep. tauto. Qed.

Lemma hist_ok_reverse rs : hist_ok rs <-> desc_ok (reverse rs).
Proof.
  unfold hist_ok, desc_ok. rewrite Forall_reverse. split; intros [Hs Hv]; split; try done.
  - by apply StronglySorted_reverse.
  - apply StronglySorted_reverse in Hs. by rewrite reverse_involutive in Hs.
Qed.

(** Merging an extended range with its predecessor. *)
Definition merge (el : PacketInterval) (prevs : list PacketInterval) : list PacketInterval :=
  match prevs with
  | prev :: prevs' =>
      if u64 (prev.(End_) + 1) =? el.(Start) then mkInterval prev.(Start) el.(End_) :: prevs'
      else el :: prevs
  | [] => [el]
  end.

Lemma merge_spec el prevs :
  valid el -> desc_ok prevs -> Forall (fun j => j.(End_) + 1 <= el.(Start)) prevs ->
  desc_ok (merge el prevs) /\
  forall q, covers (merge el prevs) q <-> el.(Start) <= q <= el.(End_) \/ covers prevs q.
Proof.
  intros Hel Hprevs Hle. unfold merge. destruct prevs as [|prev prevs].
  { split; [by apply desc_ok_cons|intros q; apply covers_cons]. }
  apply desc_ok_cons in Hprevs as (Hb & Hprev & Hprevs). apply Forall_cons in Hle as [Hle Hles].
  unfold valid in *. rewrite u64_small by lia.
  destruct (Z.eqb_spec (prev.(End_) + 1) el.(Start)) as [Heq|Hne].
  - split; [apply desc_ok_cons; split; [done|split; [unfold valid; simpl; lia|done]]|].
    intros q. rewrite !covers_cons. cbn [Start End_]. intuition lia.
  - split; [|intros q; apply covers_cons].
    assert (Hlt : prev.(End_) + 1 < el.(Start)) by lia.
    rewrite !desc_ok_cons. split_and!; try done.
    constructor; [done|]. eapply Forall_impl; [exact Hb|]. simpl. intros j Hj. lia.
Qed.

Lemma receivedLoop_spec p rs :
  1 <= p < 2 ^ 48 -> desc_ok rs ->
  desc_ok (PacketHistory.receivedLoop p rs) /\
  forall q, covers (PacketHistory.receivedLoop p rs) q <-> q = p \/ covers rs q.
Proof.
  intros Hp. induction rs as [|el prevs IH]; intros Hrs; cbn [PacketHistory.receivedLoop].
  { split; [apply desc_ok_cons; unfold valid; simpl; split_and!; auto; lia|].
    intros q. rewrite covers_cons. cbn [Start End_]. intuition lia. }
  pose proof Hrs as (Hbelow & Hel & Hprevs)%desc_ok_cons. unfold valid in Hel.
  destruct (Z.leb_spec el.(Start) p), (Z.leb_spec p el.(End_)); cbn [andb].
  { split; [done|]. intros q. rewrite covers_cons. intuition lia. }
  all: rewrite (u64_small (p - 1)), (u64_small (p + 1)) by lia.
  all: destruct (Z.eqb_spec el.(End_) (p - 1)) as [He|He]; try lia.
  - apply (merge_spec (mkInterval el.(Start) p)) in Hprevs as [Hd Hc];
      [|unfold valid; simpl; lia|eapply Forall_impl; [exact Hbelow|simpl; lia]].
    split; [exact Hd|]. intros q. etransitivity; [apply Hc|]. rewrite covers_cons. cbn [Start End_].
    intuition lia.
  - destruct (Z.eqb_spec el.(Start) (p + 1)); [lia|].
    destruct (Z.ltb_spec el.(End_) p); [|lia].
    split; [|intros q; rewrite covers_cons; cbn [Start End_]; intuition lia].
    rewrite desc_ok_cons. split_and!; [|unfold valid; simpl; lia|done].
    constructor; [simpl; lia|]. eapply Forall_impl; [exact Hbelow|simpl; lia].
  - destruct (Z.eqb_spec el.(Start) (p + 1)) as [Hs|Hs].
    + apply (merge_spec (mkInterval p el.(End_))) in Hprevs as [Hd Hc];
        [|unfold valid; simpl; lia|eapply Forall_impl; [exact Hbelow|simpl; lia]].
      split; [exact Hd|]. intros q. etransitivity; [apply Hc|]. rewrite covers_cons. cbn [Start End_].
      intuition lia.
    + destruct (Z.ltb_spec el.(End_) p); [lia|]. destruct (IH Hprevs) as [Hd Hc].
      split; [|intros q; rewrite !covers_cons, Hc; tauto].
      rewrite desc_ok_cons. split_and!; [|done|done]. apply below_all; [apply Hd|].
      intros q [->|Hq]%Hc; [lia|by eapply covers_below].
Qed.

(** ** Deleting old packets *)

Lemma hist_ok_cons i rs :
  hist_ok (i :: rs) <-> Forall (fun j => i.(End_) + 1 < j.(Start)) rs /\ valid i /\ hist_ok rs.
Proof. unfold hist_ok. rewrite StronglySorted_cons, Forall_cons. unfold sep. tauto. Qed.

Lemma deleteLoop_spec p rs :
  0 <= p < 2 ^ 48 -> hist_ok rs ->
  hist_ok (PacketHistory.deleteLoop p rs) /\
  forall q, covers (PacketHistory.deleteLoop p rs) q <-> covers rs q /\ p < q.
Proof.
  intros Hp. induction rs as [|el rs IH]; intros Hrs; cbn [PacketHistory.deleteLoop].
  { split; [done|]. intros q. rewrite covers_nil. tauto. }
  pose proof Hrs as (Habove & Hel & Hok)%hist_ok_cons. destruct (IH Hok) as [Hd Hc].
  unfold valid in Hel. rewrite u64_small by lia.
  assert (Hgt : forall q, covers rs q -> el.(End_) + 1 < q) by (intros q; by apply covers_above).
  destruct (Z.leb_spec el.(Start) p), (Z.ltb_spec p el.(End_)), (Z.leb_spec el.(End_) p);
    cbn [andb]; try lia.
  - split.
    + rewrite hist_ok_cons. split_and!; [|unfold valid; simpl; lia|done].
      apply above_all; [apply Hd|]. intros q [Hq _]%Hc. by apply Hgt.
    + intros q. rewrite !covers_cons, Hc. cbn [Start End_].
      split; [|intuition lia]. intros [?|[??]]; [split; [left; lia|lia]|tauto].
  - split; [done|]. intros q. rewrite covers_cons, Hc. intuition lia.
  - split; [done|]. intros q. split; [|tauto]. intros Hq. split; [done|].
    rewrite covers_cons in Hq. destruct Hq as [?|?%Hgt]; lia.
Qed.

(** ** The history refines a set

    The abstract history is the finite set of the packet numbers to be
    acknowledged. *)

Definition represents (h : PacketHistory.t) (S : gset Z) : Prop :=
  hist_ok h.(PacketHistory.ranges) /\ forall q, q ∈ S <-> covers h.(PacketHistory.ranges) q.

Lemma represents_new : represents PacketHistory.new ∅.
Proof. split; [split; constructor|]. intros q. rewrite covers_nil. set_solver. Qed.

Lemma represents_ReceivedPacket h S p h' :
  represents h S -> 1 <= p < 2 ^ 48 -> PacketHistory.ReceivedPacket h p = (h', None) ->
  represents h' ({[p]} ∪ S).
Proof.
  intros [Hok HS] Hp. unfold PacketHistory.ReceivedPacket.
  destruct (_ <=? _); [done|]. destruct (Nat.eqb_spec (length h.(PacketHistory.ranges)) 0) as [H0|_].
  - intros [= <-]. apply nil_length_inv in H0. rewrite H0 in *.
    split; cbn [PacketHistory.ranges app]; [apply hist_ok_cons; unfold valid; simpl; split_and!; auto; lia|].
    intros q. rewrite elem_of_union, elem_of_singleton, HS, covers_cons. cbn. intuition lia.
  - intros [= <-]. apply hist_ok_reverse in Hok.
    destruct (receivedLoop_spec p _ Hp Hok) as [Hd Hc].
    split; cbn [PacketHistory.ranges]; [by apply hist_ok_reverse; rewrite reverse_involutive|].
    intros q. by rewrite elem_of_union, elem_of_singleton, HS, covers_reverse, Hc, covers_reverse.
Qed.

Lemma represents_DeleteUpTo h S p :
  represents h S -> 0 <= p < 2 ^ 48 ->
  represents (PacketHistory.DeleteUpTo h p) (filter (fun q => p < q) S).
Proof.
  intros [Hok HS] Hp. destruct (deleteLoop_spec p _ Hp Hok) as [Hd Hc].
  split; [exact Hd|]. intros q. rewrite elem_of_filter, HS. cbn [PacketHistory.ranges PacketHistory.DeleteUpTo].
  rewrite Hc. tauto.
Qed.

(** C18: registering packets and deleting old ones implements a finite set of
    packet numbers: [ReceivedPacket] adds the packet and nothing else, whether it
    extends a range, merges two or opens a new one, [DeleteUpTo] removes exactly
    the packets up to its argument, and the ranges stay sorted, disjoint and
    maximal. *)
Theorem PacketHistory_refines_set h S :
  represents h S ->
  (forall p h', 1 <= p < 2 ^ 48 -> PacketHistory.ReceivedPacket h p = (h', None) ->
     represents h' ({[p]} ∪ S)) /\
  (forall p, 0 <= p < 2 ^ 48 ->
     represents (PacketHistory.DeleteUpTo h p) (filter (fun q => p < q) S)).
Proof.
  intros HR. split; intros; [by eapply represents_ReceivedPacket|by apply represents_DeleteUpTo].
Qed.

Lemma PacketHistory_refines_set_witness :
  let h := PacketHistory.mk [mkInterval 3 4; mkInterval 6 9] 0 in
  PacketHistory.ReceivedPacket h 5 = (PacketHistory.mk [mkInterval 3 9] 0, None) /\
  represents (PacketHistory.mk [mkInterval 3 9] 0) ({[5]} ∪ {[3; 4; 6; 7; 8; 9]}).
Proof.
  intros h. split; [vm_compute; reflexivity|].
  apply (PacketHistory_refines_set h {[3; 4; 6; 7; 8; 9]}) with (p := 5).
  - split; [repeat constructor; unfold sep; simpl; lia|]. intros q. unfold h. cbn [PacketHistory.ranges].
    rewrite !covers_cons, covers_nil. cbn [Start End_]. set_unfold. lia.
  - lia.
  - vm_compute. reflexivity.
Defined.

(** ** The handler

    The reachable states of a handler: packets are received, a STOP_WAITING
    frame of the packet that is being handled ([cur]) lowers the limit below
    that packet's number (its parser guarantees it), and ACK frames are
    fetched.  [S] is the set of the packets that are to be acknowledged. *)

Module HandlerProofs.
Import ReceivedPacketHandler.

Inductive reachable (v : Z) : t -> gset Z -> Z -> Prop :=
| reach_new : reachable v (New v) ∅ 0
| reach_recv h S cur pn ack now h' :
    reachable v h S cur -> 1 <= pn < 2 ^ 48 -> ReceivedPacket h pn ack now = (h', None) ->
    reachable v h' (if pn <=? h.(lowerLimit) then S else {[pn]} ∪ S) pn
| reach_stop h S cur q :
    reachable v h S cur -> 0 <= q < cur ->
    reachable v (SetLowerLimit h q) (filter (fun x => q < x) S) cur
| reach_ack h S cur now h' f :
    reachable v h S cur -> GetAckFrame h now = Ok (h', f) -> reachable v h' S cur.

Definition due (h : t) : Prop := h.(ackQueued) = true \/ is_Some h.(ackAlarm).

Record inv (h : t) (S : gset Z) (cur : Z) : Prop := {
  inv_hist : represents h.(packetHistory) S;
  inv_limit : forall q, q ∈ S -> h.(lowerLimit) < q;
  inv_cur : 0 <= cur <= h.(largestObserved) /\ h.(largestObserved) < 2 ^ 48 /\ 0 <= h.(lowerLimit);
  inv_largest :
    (h.(largestObserved) = 0 /\ S = ∅ /\ h.(lowerLimit) = 0 /\ ~ due h) \/
    (h.(largestObserved) ∈ S /\ h.(lowerLimit) < h.(largestObserved)
     /\ forall q, q ∈ S -> q <= h.(largestObserved))
}.

Lemma inv_new v : inv (New v) ∅ 0.
Proof.
  split; [apply represents_new|set_solver|cbn; lia|].
  left. split_and!; [done..|]. by intros [?|[]].
Qed.

(** What [maybeQueueAck] leaves alone. *)
Lemma maybeQueueAck_same h pn ack now :
  let h' := maybeQueueAck h pn ack now in
  h'.(packetHistory) = h.(packetHistory) /\ h'.(lowerLimit) = h.(lowerLimit)
  /\ h'.(largestObserved) = h.(largestObserved).
Proof. unfold maybeQueueAck. by repeat case_match. Qed.

Lemma inv_ReceivedPacket h S cur pn ack now h' :
  inv h S cur -> 1 <= pn < 2 ^ 48 -> ReceivedPacket h pn ack now = (h', None) ->
  inv h' (if pn <=? h.(lowerLimit) then S else {[pn]} ∪ S) pn.
Proof.
  intros [Hh Hl (Hc1 & Hc2 & Hc3) HL] Hpn HR. unfold ReceivedPacket in HR.
  destruct (Z.eqb_spec pn 0); [lia|].
  destruct (if largestObserved h <? pn then _ else _) as [largest time] eqn:El.
  assert (Hlg : largest = Z.max (largestObserved h) pn)
    by (destruct (Z.ltb_spec (largestObserved h) pn); simplify_eq; lia).
  destruct (Z.leb_spec pn h.(lowerLimit)).
  - injection HR as <-. destruct HL as [(? & _ & ? & _)|(HL1 & HL2 & HL3)]; [lia|].
    assert (largest = largestObserved h) as -> by lia.
    split; [done|done|cbn; lia|]. right. done.
  - destruct (PacketHistory.ReceivedPacket _ _) as [hist [e|]] eqn:EH; [done|]. injection HR as <-.
    set (h1 := mk _ _ _ _ _ _ _ _ _ _ _ _). destruct (maybeQueueAck_same h1 pn ack now) as (E1 & E2 & E3).
    pose proof (represents_ReceivedPacket _ _ _ _ Hh Hpn EH) as Hh'.
    split; rewrite ?E1, ?E2, ?E3; unfold h1; cbn [packetHistory lowerLimit largestObserved].
    + done.
    + intros q [->%elem_of_singleton|Hq]%elem_of_union; [done|by apply Hl].
    + lia.
    + right. destruct HL as [(H0 & -> & H3 & _)|(HL1 & HL2 & HL3)].
      * rewrite Hlg, Z.max_r by lia. split_and!; [by apply elem_of_union_l, elem_of_singleton|lia|].
        intros q. rewrite right_id_L, elem_of_singleton by apply _. lia.
      * split_and!; [|lia|].
        -- rewrite elem_of_union, elem_of_singleton, Hlg.
           destruct (Z.max_spec (largestObserved h) pn) as [[_ ->]|[_ ->]]; auto.
        -- intros q Hq. apply elem_of_union in Hq as [Hq|Hq];
             [apply elem_of_singleton in Hq|apply HL3 in Hq]; lia.
Qed.

Lemma inv_SetLowerLimit h S cur q :
  inv h S cur -> 0 <= q < cur -> inv (SetLowerLimit h q) (filter (fun x => q < x) S) cur.
Proof.
  intros [Hh Hl (Hc1 & Hc2 & Hc3) HL] Hq.
  split; cbn [SetLowerLimit packetHistory lowerLimit largestObserved].
  - apply represents_DeleteUpTo; [done|lia].
  - intros x [??]%elem_of_filter. done.
  - lia.
  - right. destruct HL as [(? & _)|(HL1 & HL2 & HL3)]; [lia|].
    split_and!; [apply elem_of_filter; split; [lia|done]|lia|].
    intros x [_ Hx]%elem_of_filter. by apply HL3.
Qed.

Lemma GetAckFrame_same h now h' f :
  GetAckFrame h now = Ok (h', f) ->
  h'.(packetHistory) = h.(packetHistory) /\ h'.(lowerLimit) = h.(lowerLimit)
  /\ h'.(largestObserved) = h.(largestObserved) /\ (due h' -> due h).
Proof.
  unfold GetAckFrame. case_match; [by intros [= <- <-]|]. case_match; [|done].
  intros [= <- <-]. split_and!; try done. by intros [?|[]].
Qed.

Lemma inv_GetAckFrame h S cur now h' f :
  inv h S cur -> GetAckFrame h now = Ok (h', f) -> inv h' S cur.
Proof.
  intros [Hh Hl Hc HL] (E1 & E2 & E3 & E4)%GetAckFrame_same.
  split; rewrite ?E1, ?E2, ?E3; try done. destruct HL as [(? & ? & ? & ?)|?]; [left|by right].
  split_and!; try done. by intros ?%E4.
Qed.

Lemma reachable_inv v h S cur : reachable v h S cur -> inv h S cur.
Proof.
  induction 1; eauto using inv_new, inv_ReceivedPacket, inv_SetLowerLimit, inv_GetAckFrame.
Qed.

(** *** The ACK frame *)

Definition conv (i : PacketInterval) : AckRange := mkRange i.(Start) i.(End_).

Lemma desc_chain prevs : forall el, desc_ok (el :: prevs) -> chain (conv el) (map conv prevs).
Proof.
  induction prevs as [|i prevs IH]; intros el Hok; [done|].
  apply desc_ok_cons in Hok as (Hb & _ & Hok). apply Forall_cons in Hb as [Hb _].
  pose proof (IH i Hok) as Hc. apply desc_ok_cons in Hok as (_ & [Hi _] & _).
  cbn [map chain conv First Last]. split_and!; [lia|lia|done].
Qed.

Lemma in_conv rs q :
  (exists r, r ∈ map conv rs /\ r.(First) <= q <= r.(Last)) <-> covers rs q.
Proof.
  unfold covers. split.
  - intros (r & (i & -> & Hi)%list_elem_of_fmap & Hq). by exists i.
  - intros (i & Hi & Hq). exists (conv i). split; [by apply list_elem_of_fmap_2|done].
Qed.

(** The highest range ends at the largest packet. *)
Lemma desc_largest el prevs largest :
  desc_ok (el :: prevs) -> covers (el :: prevs) largest ->
  (forall q, covers (el :: prevs) q -> q <= largest) -> el.(End_) = largest.
Proof.
  intros (Hb & [Hel _] & Hok)%desc_ok_cons Hc Hmax.
  pose proof (Hmax el.(End_)) as H1. rewrite covers_cons in H1, Hc.
  destruct Hc as [?|Hc]; [lia|]. apply (covers_below el.(Start)) in Hc; [lia|done].
Qed.

(** The ranges that both frames carry: nothing when there is a single range. *)
Definition frameRanges (rs : list AckRange) : list AckRange :=
  if (1 <? length rs)%nat then rs else [].

Lemma GetAckRanges_spec h S largest :
  represents h S -> largest ∈ S -> (forall q, q ∈ S -> q <= largest) ->
  exists lowest, last (PacketHistory.GetAckRanges h) = Some lowest
    /\ ranges_wf largest lowest.(First) (frameRanges (PacketHistory.GetAckRanges h))
    /\ forall q, acksPacket largest lowest.(First) (frameRanges (PacketHistory.GetAckRanges h)) q = true
                <-> q ∈ S.
Proof.
  intros [Hok HS] Hl Hmax. unfold PacketHistory.GetAckRanges. change (fun el => mkRange el.(Start) el.(End_)) with conv.
  assert (HS' : forall q, q ∈ S <-> covers (reverse h.(PacketHistory.ranges)) q)
    by (intros q; by rewrite covers_reverse).
  apply hist_ok_reverse in Hok. set (l := reverse _) in *. clearbody l.
  destruct l as [|el prevs]; [by apply HS', covers_nil in Hl|].
  assert (He : el.(End_) = largest).
  { eapply desc_largest; [done|by apply HS'|intros q Hq; by apply Hmax, HS']. }
  pose proof (desc_chain _ _ Hok) as Hch. pose proof Hok as (_ & [Hel Hel'] & _)%desc_ok_cons.
  destruct prevs as [|i prevs].
  - exists (conv el). split; [done|]. split; [cbn; lia|]. intros q.
    rewrite acksPacket_ranges by done. cbn. rewrite HS', covers_cons, covers_nil. subst. intuition lia.
  - assert (Hlast : is_Some (last (map conv (el :: i :: prevs)))) by (by apply last_is_Some).
    destruct Hlast as [lowest Hlast]. exists lowest. split; [done|].
    unfold frameRanges. cbn [map length Nat.ltb Nat.leb] in *.
    split; [cbn [ranges_wf]; rewrite Hlast; split_and!; try done; try (cbn; lia)|].
    + change (Forall range_bounds (conv <$> (el :: i :: prevs))). apply Forall_fmap.
      destruct Hok as [_ Hv]. eapply Forall_impl; [exact Hv|]. intros j [Hj1 Hj2]. unfold range_bounds, conv; simpl. lia.
    + intros q. rewrite acksPacket_ranges; [|rewrite Hlast; split_and!; try done; cbn; lia].
      rewrite HS'. cbn [HasMissingRanges length Nat.eqb negb].
      apply (in_conv (el :: i :: prevs)).
Qed.

Lemma GetAckFrame_frame h now :
  GetAckFrame h now
  = if notDue h now then Ok (h, None)
    else match last (PacketHistory.GetAckRanges h.(packetHistory)) with
         | None => Panic
         | Some lowest =>
             let ack := AckFrame.mk 0 h.(largestObserved) lowest.(First)
               (frameRanges (PacketHistory.GetAckRanges h.(packetHistory)))
               h.(largestObservedReceivedTime) 0 in
             Ok (mk h.(largestObserved) h.(lowerLimit) h.(largestObservedReceivedTime) h.(packetHistory)
                   h.(ackSendDelay) 0 0 false None (Some ack) h.(version) h.(packets), Some ack)
         end.
Proof. done. Qed.

(** C16: on every reachable state fetching an ACK frame does not panic, and a
    frame that is sent is well formed (so that it survives the wire) and
    acknowledges exactly the packets that were received above the limits set by
    the peer: no packet is acknowledged that was not received, and none that was
    received is left out. *)
Theorem GetAckFrame_exact v h S cur now :
  reachable v h S cur ->
  exists h' f, GetAckFrame h now = Ok (h', f) /\
    forall ack, f = Some ack ->
      ranges_wf ack.(AckFrame.LargestAcked) ack.(AckFrame.LowestAcked) ack.(AckFrame.AckRanges)
      /\ forall q, AckFrame.AcksPacket ack q = true <-> q ∈ S.
Proof.
  intros [Hh Hl Hc HL]%reachable_inv. rewrite GetAckFrame_frame. destruct (notDue h now) eqn:Hdue.
  { exists h, None. by split. }
  destruct HL as [(_ & _ & _ & Hnd)|(HL1 & HL2 & HL3)].
  { destruct Hnd. unfold due. unfold notDue in Hdue. destruct (ackQueued h); [by left|].
    right. destruct (ackAlarm h); [by eexists|done]. }
  destruct (GetAckRanges_spec _ _ _ Hh HL1 HL3) as (lowest & -> & Hwf & HS).
  eexists _, _. split; [reflexivity|]. intros ack [= <-]. split; [exact Hwf|exact HS].
Qed.

(** A run with a gap, a reordered packet and a STOP_WAITING frame. *)
Definition example_handler1 : t := (ReceivedPacket (New Version39) 3 true 100).1.
Definition example_handler2 : t := (ReceivedPacket example_handler1 9 true 200).1.
Definition example_handler3 : t := (ReceivedPacket example_handler2 5 true 300).1.
Definition example_handler : t := SetLowerLimit example_handler3 3.

Lemma GetAckFrame_exact_witness :
  exists h' f, GetAckFrame example_handler 400 = Ok (h', f) /\
    forall ack, f = Some ack ->
      ranges_wf ack.(AckFrame.LargestAcked) ack.(AckFrame.LowestAcked) ack.(AckFrame.AckRanges)
      /\ forall q, AckFrame.AcksPacket ack q = true
                  <-> q ∈ (filter (fun x => 3 < x) ({[5]} ∪ ({[9]} ∪ ({[3]} ∪ ∅))) : gset Z).
Proof.
  apply (GetAckFrame_exact Version39 example_handler
           (filter (fun x => 3 < x) ({[5]} ∪ ({[9]} ∪ ({[3]} ∪ ∅))) : gset Z) 5 400).
  apply reach_stop; [|lia].
  apply (reach_recv Version39 example_handler2 ({[9]} ∪ ({[3]} ∪ ∅)) 9 5 true 300); [|lia|reflexivity].
  apply (reach_recv Version39 example_handler1 ({[3]} ∪ ∅) 3 9 true 200); [|lia|reflexivity].
  apply (reach_recv Version39 (New Version39) ∅ 0 3 true 100); [constructor|lia|reflexivity].
Defined.

(** *** ACKs are not delayed too long *)

(** C22: every packet that must be acknowledged is acknowledged in time: once a
    retransmittable packet above the limit was registered, an ACK frame is
    returned by any call from the end of the ACK delay on, unless one was fetched
    before; and the alarm that wakes the sender up is never later than that. *)
Theorem ack_within_delay h pn now h' :
  ReceivedPacket h pn true now = (h', None) -> h.(lowerLimit) < pn ->
  0 <= h.(ackSendDelay) ->
  (forall a, h.(ackAlarm) = Some a -> a <= now + h.(ackSendDelay)) ->
  (forall a, h'.(ackAlarm) = Some a -> a <= now + h.(ackSendDelay)) /\
  due h' /\ forall later, now + h.(ackSendDelay) <= later -> notDue h' later = false.
Proof.
  intros HR Hpn Hd Ha. unfold ReceivedPacket in HR.
  destruct (pn =? 0); [done|]. destruct (if largestObserved h <? pn then _ else _) as [largest time].
  destruct (Z.leb_spec pn h.(lowerLimit)); [lia|].
  destruct (PacketHistory.ReceivedPacket _ _) as [hist [e|]]; [done|]. injection HR as <-.
  unfold maybeQueueAck. cbn [ackAlarm ackSendDelay ackQueued].
  destruct (queueNow _ _ _); cbn [negb andb].
  { split_and!; [done|by left|done]. }
  destruct (_ <=? _).
  { split_and!; [done|by left|done]. }
  destruct (ackAlarm h) as [a|] eqn:E; unfold due, notDue; cbn [ackAlarm ackQueued negb andb].
  - split_and!; [by apply Ha|right; by eexists|]. intros later Hl. specialize (Ha a eq_refl).
    apply Z.ltb_ge. lia.
  - split_and!; [intros a [= <-]; lia|right; by eexists|]. intros later Hl. apply Z.ltb_ge. lia.
Qed.

Lemma ack_within_delay_witness :
  let h := mk 7 0 50 (PacketHistory.mk [mkInterval 1 7] 0) AckSendDelay 0 0 false None
             (Some (AckFrame.mk 0 7 1 [] 50 0)) Version39 7 in
  due (ReceivedPacket h 8 true 1000).1 /\
  forall later, 1000 + AckSendDelay <= later -> notDue (ReceivedPacket h 8 true 1000).1 later = false.
Proof.
  intros h. apply (ack_within_delay h 8 1000 (ReceivedPacket h 8 true 1000).1).
  - reflexivity.
  - reflexivity.
  - discriminate.
  - discriminate.
Defined.

End HandlerProofs.
