(* ===== verification/ConnParams.v ===== *)
(** * Connection parameters ([internal/handshake/connection_parameters_manager.go])

    The negotiated limits of a connection: what a hello message carries and what
    the peer takes from it.  A tag is its 32-bit value, a hello message a map
    from tags to bytes; durations are nanoseconds. *)

From S2P Require Import Prelude ByteOrder Protocol WireHeader MinMax.

(** The values of [tags.go]: four ASCII characters in little-endian order. *)
Definition tag4 (a b c d : Z) : Z := a + Z.shiftl b 8 + Z.shiftl c 16 + Z.shiftl d 24.
Definition TagTCID : Z := tag4 84 67 73 68.
Definition TagMSPC : Z := tag4 77 83 80 67.
Definition TagMIDS : Z := tag4 77 73 68 83.
Definition TagICSL : Z := tag4 73 67 83 76.
Definition TagSFCW : Z := tag4 83 70 67 87.
Definition TagCFCW : Z := tag4 67 70 67 87.

Definition InvalidCryptoMessageParameter : Z := 34.
Definition ErrMalformedTag : error := QuicError InvalidCryptoMessageParameter "malformed Tag value".
Definition ErrFlowControlRenegotiationNotSupported : error :=
  QuicError InvalidCryptoMessageParameter "renegotiation of flow control parameters not supported".

Definition InitialStreamFlowControlWindow : Z := Z.shiftl 1 14.
Definition InitialConnectionFlowControlWindow : Z := Z.shiftl 1 14.
Definition ReceiveStreamFlowControlWindow : Z := Z.shiftl 1 10 * 10000.
Definition ReceiveConnectionFlowControlWindow : Z := Z.shiftl 1 10 * 100000.
Definition MaxStreamsPerConnection : Z := 100.
Definition MaxIncomingDynamicStreamsPerConnection : Z := 100.
Definition MaxStreamsMinimumIncrement : Z := 10.
Definition Second : Z := 1000000000.

Definition MinUint32 (a b : Z) : Z := if a <? b then a else b.
Definition MaxUint32 (a b : Z) : Z := if a <? b then b else a.

Module ConnParams.

Record t : Type := mk {
  version : Z;
  perspective : Perspective;
  flowControlNegotiated : bool;
  truncateConnectionID : bool;
  maxStreamsPerConnection : Z;
  maxIncomingDynamicStreamsPerConnection : Z;
  idleConnectionStateLifetime : Z;
  sendStreamFlowControlWindow : Z;
  sendConnectionFlowControlWindow : Z;
  receiveStreamFlowControlWindow : Z;
  receiveConnectionFlowControlWindow : Z;
  maxReceiveStreamFlowControlWindow : Z;
  maxReceiveConnectionFlowControlWindow : Z
}.

Definition New (pers : Perspective) (v maxStreamWindow maxConnectionWindow idleTimeout : Z) : t :=
  mk v pers false false MaxStreamsPerConnection MaxStreamsPerConnection idleTimeout
    InitialStreamFlowControlWindow InitialConnectionFlowControlWindow
    ReceiveStreamFlowControlWindow ReceiveConnectionFlowControlWindow
    maxStreamWindow maxConnectionWindow.

Definition negotiateMaxStreamsPerConnection (clientValue : Z) : Z :=
  MinUint32 clientValue MaxStreamsPerConnection.
Definition negotiateMaxIncomingDynamicStreamsPerConnection (clientValue : Z) : Z :=
  MinUint32 clientValue MaxIncomingDynamicStreamsPerConnection.
Definition negotiateIdleConnectionStateLifetime (h : t) (clientValue : Z) : Z :=
  MinDuration clientValue h.(idleConnectionStateLifetime).

(** [if value, ok := params[tag]; ok { ... ReadUint32 ... }] *)
Definition readParam (params : gmap Z (list Z)) (tag : Z) (h : t) (set : t -> Z -> t) : t * option error :=
  match params !! tag with
  | None => (h, None)
  | Some value =>
      match ReadUint32 LittleEndian value with
      | Ok (clientValue, _) => (set h clientValue, None)
      | _ => (h, Some ErrMalformedTag)
      end
  end.

(** The flow control windows may be set only once. *)
Definition readWindow (params : gmap Z (list Z)) (tag : Z) (h : t) (set : t -> Z -> t) : t * option error :=
  match params !! tag with
  | None => (h, None)
  | Some _ =>
      if h.(flowControlNegotiated) then (h, Some ErrFlowControlRenegotiationNotSupported)
      else readParam params tag h set
  end.

Definition setTruncate (h : t) (v : Z) : t :=
  mk h.(version) h.(perspective) h.(flowControlNegotiated) (v =? 0) h.(maxStreamsPerConnection)
    h.(maxIncomingDynamicStreamsPerConnection) h.(idleConnectionStateLifetime)
    h.(sendStreamFlowControlWindow) h.(sendConnectionFlowControlWindow)
    h.(receiveStreamFlowControlWindow) h.(receiveConnectionFlowControlWindow)
    h.(maxReceiveStreamFlowControlWindow) h.(maxReceiveConnectionFlowControlWindow).
Definition setMSPC (h : t) (v : Z) : t :=
  mk h.(version) h.(perspective) h.(flowControlNegotiated) h.(truncateConnectionID)
    (negotiateMaxStreamsPerConnection v)
    h.(maxIncomingDynamicStreamsPerConnection) h.(idleConnectionStateLifetime)
    h.(sendStreamFlowControlWindow) h.(sendConnectionFlowControlWindow)
    h.(receiveStreamFlowControlWindow) h.(receiveConnectionFlowControlWindow)
    h.(maxReceiveStreamFlowControlWindow) h.(maxReceiveConnectionFlowControlWindow).
Definition setMIDS (h : t) (v : Z) : t :=
  mk h.(version) h.(perspective) h.(flowControlNegotiated) h.(truncateConnectionID)
    h.(maxStreamsPerConnection)
    (negotiateMaxIncomingDynamicStreamsPerConnection v) h.(idleConnectionStateLifetime)
    h.(sendStreamFlowControlWindow) h.(sendConnectionFlowControlWindow)
    h.(receiveStreamFlowControlWindow) h.(receiveConnectionFlowControlWindow)
    h.(maxReceiveStreamFlowControlWindow) h.(maxReceiveConnectionFlowControlWindow).
Definition setICSL (h : t) (v : Z) : t :=
  mk h.(version) h.(perspective) h.(flowControlNegotiated) h.(truncateConnectionID)
    h.(maxStreamsPerConnection) h.(maxIncomingDynamicStreamsPerConnection)
    (negotiateIdleConnectionStateLifetime h (i64 (v * Second)))
    h.(sendStreamFlowControlWindow) h.(sendConnectionFlowControlWindow)
    h.(receiveStreamFlowControlWindow) h.(receiveConnectionFlowControlWindow)
    h.(maxReceiveStreamFlowControlWindow) h.(maxReceiveConnectionFlowControlWindow).
Definition setSFCW (h : t) (v : Z) : t :=
  mk h.(version) h.(perspective) h.(flowControlNegotiated) h.(truncateConnectionID)
    h.(maxStreamsPerConnection) h.(maxIncomingDynamicStreamsPerConnection)
    h.(idleConnectionStateLifetime) v h.(sendConnectionFlowControlWindow)
    h.(receiveStreamFlowControlWindow) h.(receiveConnectionFlowControlWindow)
    h.(maxReceiveStreamFlowControlWindow) h.(maxReceiveConnectionFlowControlWindow).
Definition setCFCW (h : t) (v : Z) : t :=
  mk h.(version) h.(perspective) h.(flowControlNegotiated) h.(truncateConnectionID)
    h.(maxStreamsPerConnection) h.(maxIncomingDynamicStreamsPerConnection)
    h.(idleConnectionStateLifetime) h.(sendStreamFlowControlWindow) v
    h.(receiveStreamFlowControlWindow) h.(receiveConnectionFlowControlWindow)
    h.(maxReceiveStreamFlowControlWindow) h.(maxReceiveConnectionFlowControlWindow).
Definition setNegotiated (h : t) (params : gmap Z (list Z)) : t :=
  mk h.(version) h.(perspective)
    (if bool_decide (is_Some (params !! TagCFCW) \/ is_Some (params !! TagSFCW)) then true
     else h.(flowControlNegotiated))
    h.(truncateConnectionID) h.(maxStreamsPerConnection) h.(maxIncomingDynamicStreamsPerConnection)
    h.(idleConnectionStateLifetime) h.(sendStreamFlowControlWindow) h.(sendConnectionFlowControlWindow)
    h.(receiveStreamFlowControlWindow) h.(receiveConnectionFlowControlWindow)
    h.(maxReceiveStreamFlowControlWindow) h.(maxReceiveConnectionFlowControlWindow).

(** The next parameter is read only when the one before was well formed; what
    was set before an error stays set. *)
Definition andThen (r : t * option error) (k : t -> t * option error) : t * option error :=
  match r with (h, None) => k h | (h, Some e) => (h, Some e) end.

Definition SetFromMap (h : t) (params : gmap Z (list Z)) : t * option error :=
  andThen (if isServer h.(perspective) then readParam params TagTCID h setTruncate else (h, None)) (fun h =>
  andThen (readParam params TagMSPC h setMSPC) (fun h =>
  andThen (readParam params TagMIDS h setMIDS) (fun h =>
  andThen (readParam params TagICSL h setICSL) (fun h =>
  andThen (readWindow params TagSFCW h setSFCW) (fun h =>
  andThen (readWindow params TagCFCW h setCFCW) (fun h =>
  (setNegotiated h params, None))))))).

(** [buf := bytes.NewBuffer; WriteUint32(buf, v); buf.Bytes()] *)
Definition uint32Bytes (v : Z) : list Z :=
  match WriteUint32 LittleEndian v [] with WOk b | WErr _ b => b | WPanic => [] end.

Definition GetHelloMap (h : t) : gmap Z (list Z) :=
  <[TagICSL := uint32Bytes (u32 (Z.quot h.(idleConnectionStateLifetime) Second))]>
  (<[TagMSPC := uint32Bytes h.(maxStreamsPerConnection)]>
  (<[TagMIDS := uint32Bytes MaxIncomingDynamicStreamsPerConnection]>
  (<[TagCFCW := uint32Bytes (u32 h.(receiveConnectionFlowControlWindow))]>
  (<[TagSFCW := uint32Bytes (u32 h.(receiveStreamFlowControlWindow))]> ∅)))).

Definition GetSendStreamFlowControlWindow (h : t) : Z := h.(sendStreamFlowControlWindow).
Definition GetSendConnectionFlowControlWindow (h : t) : Z := h.(sendConnectionFlowControlWindow).
Definition GetReceiveStreamFlowControlWindow (h : t) : Z := h.(receiveStreamFlowControlWindow).
Definition GetMaxReceiveStreamFlowControlWindow (h : t) : Z := h.(maxReceiveStreamFlowControlWindow).
Definition GetReceiveConnectionFlowControlWindow (h : t) : Z := h.(receiveConnectionFlowControlWindow).
Definition GetMaxReceiveConnectionFlowControlWindow (h : t) : Z := h.(maxReceiveConnectionFlowControlWindow).
Definition GetMaxOutgoingStreams (h : t) : Z := h.(maxIncomingDynamicStreamsPerConnection).
(** [uint32(float64(100) * 1.1)] is 110: the float product is 110.00000000000001. *)
Definition GetMaxIncomingStreams (h : t) : Z :=
  MaxUint32 (u32 (MaxIncomingDynamicStreamsPerConnection + MaxStreamsMinimumIncrement)) 110.
Definition GetIdleConnectionStateLifetime (h : t) : Z := h.(idleConnectionStateLifetime).
Definition TruncateConnectionID (h : t) : bool :=
  if isClient h.(perspective) then false else h.(truncateConnectionID).

End ConnParams.

(** ** Both sides agree after the hello messages *)

Module ConnParamsProofs.
Import ConnParams.

Lemma uint32Bytes_read v r : in_width 32 v -> ReadUint32 LittleEndian (uint32Bytes v ++ r) = Ok (v, r).
Proof. intros Hv. unfold uint32Bytes. rewrite bo_WriteUint32. by apply ReadUint32_enc. Qed.

Lemma uint32Bytes_read0 v : in_width 32 v -> ReadUint32 LittleEndian (uint32Bytes v) = Ok (v, []).
Proof. intros Hv. rewrite <- (app_nil_r (uint32Bytes v)). by apply uint32Bytes_read. Qed.

Lemma readParam_Some params tag h set v :
  params !! tag = Some (uint32Bytes v) -> in_width 32 v -> readParam params tag h set = (set h v, None).
Proof. intros Ht Hv. unfold readParam. by rewrite Ht, uint32Bytes_read0. Qed.

Lemma readParam_None params tag h set : params !! tag = None -> readParam params tag h set = (h, None).
Proof. intros Ht. unfold readParam. by rewrite Ht. Qed.

Lemma readWindow_Some params tag h set v :
  params !! tag = Some (uint32Bytes v) -> in_width 32 v -> h.(flowControlNegotiated) = false ->
  readWindow params tag h set = (set h v, None).
Proof. intros Ht Hv Hn. unfold readWindow. rewrite Ht, Hn. by apply readParam_Some. Qed.

(** The parameters of our hello message, as the peer finds them. *)
Lemma hello_lookup h :
  GetHelloMap h !! TagTCID = None
  /\ GetHelloMap h !! TagMSPC = Some (uint32Bytes h.(maxStreamsPerConnection))
  /\ GetHelloMap h !! TagMIDS = Some (uint32Bytes MaxIncomingDynamicStreamsPerConnection)
  /\ GetHelloMap h !! TagICSL = Some (uint32Bytes (u32 (Z.quot h.(idleConnectionStateLifetime) Second)))
  /\ GetHelloMap h !! TagSFCW = Some (uint32Bytes (u32 h.(receiveStreamFlowControlWindow)))
  /\ GetHelloMap h !! TagCFCW = Some (uint32Bytes (u32 h.(receiveConnectionFlowControlWindow))).
Proof.
  unfold GetHelloMap.
  split_and!; repeat first [rewrite lookup_insert_ne by discriminate|rewrite lookup_insert_eq]; done.
Qed.

Lemma hello_accepted ours theirs :
  theirs.(flowControlNegotiated) = false ->
  in_width 32 ours.(maxStreamsPerConnection) ->
  in_width 32 ours.(receiveStreamFlowControlWindow) ->
  in_width 32 ours.(receiveConnectionFlowControlWindow) ->
  0 <= ours.(idleConnectionStateLifetime) < 2 ^ 32 * Second ->
  exists h, SetFromMap theirs (GetHelloMap ours) = (h, None)
    /\ GetSendStreamFlowControlWindow h = GetReceiveStreamFlowControlWindow ours
    /\ GetSendConnectionFlowControlWindow h = GetReceiveConnectionFlowControlWindow ours
    /\ h.(maxStreamsPerConnection) = Z.min ours.(maxStreamsPerConnection) MaxStreamsPerConnection
    /\ GetIdleConnectionStateLifetime h
       = Z.min (ours.(idleConnectionStateLifetime) / Second * Second) theirs.(idleConnectionStateLifetime)
    /\ h.(flowControlNegotiated) = true
    /\ h.(receiveStreamFlowControlWindow) = theirs.(receiveStreamFlowControlWindow)
    /\ h.(receiveConnectionFlowControlWindow) = theirs.(receiveConnectionFlowControlWindow).
Proof.
  intros Hneg Hms Hrs Hrc Hidle.
  destruct (hello_lookup ours) as (L1 & L2 & L3 & L4 & L5 & L6).
  assert (Hquot : Z.quot (idleConnectionStateLifetime ours) Second = idleConnectionStateLifetime ours / Second)
    by (apply Z.quot_div_nonneg; unfold Second; lia).
  assert (Hdiv : in_width 32 (idleConnectionStateLifetime ours / Second))
    by (split; [apply Z.div_pos|apply Z.div_lt_upper_bound]; unfold Second in *; lia).
  rewrite Hquot, u32_small in L4 by apply Hdiv. rewrite u32_small in L5 by apply Hrs.
  rewrite u32_small in L6 by apply Hrc. unfold SetFromMap.
  assert (E1 : (if isServer theirs.(perspective) then readParam (GetHelloMap ours) TagTCID theirs setTruncate
                else (theirs, None)) = (theirs, None)) by (case_match; [by apply readParam_None|done]).
  rewrite E1. cbn [andThen].
  rewrite (readParam_Some _ _ _ _ _ L2) by done. cbn [andThen].
  rewrite (readParam_Some _ _ _ _ _ L3) by (unfold in_width, MaxIncomingDynamicStreamsPerConnection; lia).
  cbn [andThen].
  rewrite (readParam_Some _ _ _ _ _ L4) by done. cbn [andThen].
  rewrite (readWindow_Some _ _ _ _ _ L5) by done. cbn [andThen].
  rewrite (readWindow_Some _ _ _ _ _ L6) by done. cbn [andThen].
  eexists. split; [reflexivity|]. cbn. split_and!; try done.
  - unfold negotiateMaxStreamsPerConnection, MinUint32. zcases; lia.
  - unfold negotiateIdleConnectionStateLifetime. rewrite MinDuration_min. cbn.
    assert (Hi : 0 <= idleConnectionStateLifetime ours / Second * Second < 2 ^ 63)
      by (unfold in_width, Second in *; lia).
    unfold i64. rewrite Z.mod_small by lia. lia.
Qed.

(** [SetFromMap] looks at the six parameters only; a request to truncate the
    connection ID is read by a server first. *)
Definition same_params (m m' : gmap Z (list Z)) : Prop :=
  m !! TagMSPC = m' !! TagMSPC /\ m !! TagMIDS = m' !! TagMIDS /\ m !! TagICSL = m' !! TagICSL
  /\ m !! TagSFCW = m' !! TagSFCW /\ m !! TagCFCW = m' !! TagCFCW.

Lemma readParam_same m m' tag h set : m !! tag = m' !! tag -> readParam m tag h set = readParam m' tag h set.
Proof. intros H. unfold readParam. by rewrite H. Qed.
Lemma readWindow_same m m' tag h set : m !! tag = m' !! tag -> readWindow m tag h set = readWindow m' tag h set.
Proof. intros H. unfold readWindow. rewrite H. by rewrite (readParam_same m m'). Qed.
Lemma setNegotiated_same m m' h : m !! TagCFCW = m' !! TagCFCW -> m !! TagSFCW = m' !! TagSFCW ->
  setNegotiated h m = setNegotiated h m'.
Proof. intros H1 H2. unfold setNegotiated. by rewrite H1, H2. Qed.

Lemma SetFromMap_hello theirs ours m :
  same_params m (GetHelloMap ours) -> m !! TagTCID = None \/ m !! TagTCID = Some [0; 0; 0; 0] ->
  exists theirs', SetFromMap theirs m = SetFromMap theirs' (GetHelloMap ours)
    /\ theirs'.(flowControlNegotiated) = theirs.(flowControlNegotiated)
    /\ theirs'.(idleConnectionStateLifetime) = theirs.(idleConnectionStateLifetime)
    /\ theirs'.(receiveStreamFlowControlWindow) = theirs.(receiveStreamFlowControlWindow)
    /\ theirs'.(receiveConnectionFlowControlWindow) = theirs.(receiveConnectionFlowControlWindow).
Proof.
  intros (H1 & H2 & H3 & H4 & H5) Ht.
  exists (if isServer theirs.(perspective) then match m !! TagTCID with None => theirs | Some _ => setTruncate theirs 0 end
          else theirs).
  destruct (hello_lookup ours) as [L1 _].
  assert (E : forall h, h = theirs \/ h = setTruncate theirs 0 ->
    (if isServer h.(perspective) then readParam (GetHelloMap ours) TagTCID h setTruncate else (h, None)) = (h, None))
    by (intros h _; case_match; [by apply readParam_None|done]).
  assert (Hk : forall h,
    andThen (readParam m TagMSPC h setMSPC) (fun h => andThen (readParam m TagMIDS h setMIDS) (fun h =>
      andThen (readParam m TagICSL h setICSL) (fun h => andThen (readWindow m TagSFCW h setSFCW) (fun h =>
      andThen (readWindow m TagCFCW h setCFCW) (fun h => (setNegotiated h m, None))))))
    = andThen (readParam (GetHelloMap ours) TagMSPC h setMSPC) (fun h =>
      andThen (readParam (GetHelloMap ours) TagMIDS h setMIDS) (fun h =>
      andThen (readParam (GetHelloMap ours) TagICSL h setICSL) (fun h =>
      andThen (readWindow (GetHelloMap ours) TagSFCW h setSFCW) (fun h =>
      andThen (readWindow (GetHelloMap ours) TagCFCW h setCFCW) (fun h => (setNegotiated h (GetHelloMap ours), None))))))).
  { intros h. rewrite (readParam_same m (GetHelloMap ours)) by done.
    destruct (readParam _ TagMSPC _ _) as [h1 [e|]]; cbn [andThen]; [done|].
    rewrite (readParam_same m (GetHelloMap ours)) by done.
    destruct (readParam _ TagMIDS _ _) as [h2 [e|]]; cbn [andThen]; [done|].
    rewrite (readParam_same m (GetHelloMap ours)) by done.
    destruct (readParam _ TagICSL _ _) as [h3 [e|]]; cbn [andThen]; [done|].
    rewrite (readWindow_same m (GetHelloMap ours)) by done.
    destruct (readWindow _ TagSFCW _ _) as [h4 [e|]]; cbn [andThen]; [done|].
    rewrite (readWindow_same m (GetHelloMap ours)) by done.
    destruct (readWindow _ TagCFCW _ _) as [h5 [e|]]; cbn [andThen]; [done|].
    by rewrite (setNegotiated_same m (GetHelloMap ours)). }
  unfold SetFromMap. destruct (isServer (perspective theirs)) eqn:Ep.
  - destruct Ht as [Ht|Ht]; rewrite Ht.
    + rewrite (readParam_None _ _ _ _ Ht), E by (by left). cbn [andThen]. split; [apply Hk|by split_and!].
    + assert (Er : readParam m TagTCID theirs setTruncate = (setTruncate theirs 0, None))
        by (unfold readParam; rewrite Ht; reflexivity).
      rewrite Er, E by (by right). cbn [andThen]. split; [apply Hk|by split_and!].
  - rewrite Ep. cbn [andThen]. split; [apply Hk|by split_and!].
Qed.

(** Parameters that fit in a hello message. *)
Definition params_ok (p : t) : Prop :=
  in_width 32 p.(maxStreamsPerConnection) /\ in_width 32 p.(receiveStreamFlowControlWindow)
  /\ in_width 32 p.(receiveConnectionFlowControlWindow)
  /\ 0 <= p.(idleConnectionStateLifetime) < 2 ^ 32 * Second.

(** A hello message that carries our parameters is accepted; the result fits in
    a hello message again. *)
Lemma SetFromMap_ok theirs ours m :
  theirs.(flowControlNegotiated) = false -> params_ok ours -> params_ok theirs ->
  same_params m (GetHelloMap ours) -> m !! TagTCID = None \/ m !! TagTCID = Some [0; 0; 0; 0] ->
  exists h, SetFromMap theirs m = (h, None) /\ params_ok h
    /\ h.(sendStreamFlowControlWindow) = ours.(receiveStreamFlowControlWindow)
    /\ h.(sendConnectionFlowControlWindow) = ours.(receiveConnectionFlowControlWindow)
    /\ h.(receiveStreamFlowControlWindow) = theirs.(receiveStreamFlowControlWindow)
    /\ h.(receiveConnectionFlowControlWindow) = theirs.(receiveConnectionFlowControlWindow)
    /\ h.(idleConnectionStateLifetime)
       = Z.min (ours.(idleConnectionStateLifetime) / Second * Second) theirs.(idleConnectionStateLifetime).
Proof.
  intros Hneg (O1 & O2 & O3 & O4) (T1 & T2 & T3 & T4) Hm Ht.
  destruct (SetFromMap_hello theirs ours m Hm Ht) as (theirs' & -> & E1 & E2 & E3 & E4). rewrite Hneg in E1.
  destruct (hello_accepted ours theirs') as (h & HS & H1 & H2 & H3 & H4 & _ & H6 & H7); [done..|].
  unfold GetIdleConnectionStateLifetime in H4. rewrite E2 in H4. rewrite E3 in H6. rewrite E4 in H7.
  exists h. split_and!; [done| |done..]. unfold params_ok. rewrite H3, H4, H6, H7.
  unfold in_width, MaxStreamsPerConnection in *. split_and!; unfold Second in *; try lia; lia_div.
Qed.

(** Reading four bytes always succeeds. *)
Lemma readParam_total params tag h set v :
  params !! tag = Some (uint32Bytes v) -> exists v', readParam params tag h set = (set h v', None).
Proof.
  intros Ht. unfold readParam. rewrite Ht. unfold uint32Bytes. rewrite bo_WriteUint32. cbn [app].
  rewrite <- (app_nil_r (bo_enc 4 v)). rewrite bo_ReadUint32 by (apply bo_enc_ok || apply bo_enc_length).
  by eexists.
Qed.

Lemma hello_refused h later :
  h.(flowControlNegotiated) = true ->
  exists h', SetFromMap h (GetHelloMap later) = (h', Some ErrFlowControlRenegotiationNotSupported)
    /\ GetSendStreamFlowControlWindow h' = GetSendStreamFlowControlWindow h
    /\ GetSendConnectionFlowControlWindow h' = GetSendConnectionFlowControlWindow h.
Proof.
  intros Hneg. destruct (hello_lookup later) as (L1 & L2 & L3 & L4 & L5 & _). unfold SetFromMap.
  assert (E1 : (if isServer h.(perspective) then readParam (GetHelloMap later) TagTCID h setTruncate
                else (h, None)) = (h, None)) by (case_match; [by apply readParam_None|done]).
  rewrite E1. cbn [andThen].
  destruct (readParam_total _ _ h setMSPC _ L2) as [v1 ->]. cbn [andThen].
  destruct (readParam_total _ _ (setMSPC h v1) setMIDS _ L3) as [v2 ->]. cbn [andThen].
  destruct (readParam_total _ _ (setMIDS (setMSPC h v1) v2) setICSL _ L4) as [v3 ->]. cbn [andThen].
  unfold readWindow at 1. rewrite L5. cbn [setICSL setMIDS setMSPC flowControlNegotiated]. rewrite Hneg.
  eexists. by split_and!.
Qed.

(** After a peer processed our hello message its sending windows are our
    receive windows, its stream limit is the smaller one and its idle timeout
    the smaller one (ours in whole seconds); a second hello with flow control
    windows is refused and changes neither window. *)
Theorem hello_negotiates ours theirs :
  theirs.(flowControlNegotiated) = false ->
  in_width 32 ours.(maxStreamsPerConnection) ->
  in_width 32 ours.(receiveStreamFlowControlWindow) ->
  in_width 32 ours.(receiveConnectionFlowControlWindow) ->
  0 <= ours.(idleConnectionStateLifetime) < 2 ^ 32 * Second ->
  exists h, SetFromMap theirs (GetHelloMap ours) = (h, None)
    /\ GetSendStreamFlowControlWindow h = GetReceiveStreamFlowControlWindow ours
    /\ GetSendConnectionFlowControlWindow h = GetReceiveConnectionFlowControlWindow ours
    /\ h.(maxStreamsPerConnection) = Z.min ours.(maxStreamsPerConnection) MaxStreamsPerConnection
    /\ GetIdleConnectionStateLifetime h
       = Z.min (ours.(idleConnectionStateLifetime) / Second * Second) theirs.(idleConnectionStateLifetime)
    /\ forall later, exists h', SetFromMap h (GetHelloMap later) = (h', Some ErrFlowControlRenegotiationNotSupported)
         /\ GetSendStreamFlowControlWindow h' = GetSendStreamFlowControlWindow h
         /\ GetSendConnectionFlowControlWindow h' = GetSendConnectionFlowControlWindow h.
Proof.
  intros Hneg Hms Hrs Hrc Hidle.
  destruct (hello_accepted ours theirs) as (h & HS & H1 & H2 & H3 & H4 & Hfc & _); [done..|].
  exists h. split_and!; [done..|]. intros later. by apply hello_refused.
Qed.

Definition example_params : t := New PerspectiveServer Version39 1048576 1572864 (30 * Second).

Lemma hello_negotiates_witness :
  exists h, SetFromMap (New PerspectiveClient Version39 16777216 25165824 (10 * Second))
              (GetHelloMap example_params) = (h, None)
    /\ GetSendStreamFlowControlWindow h = 10240000
    /\ GetIdleConnectionStateLifetime h = 10 * Second.
Proof.
  destruct (hello_negotiates example_params (New PerspectiveClient Version39 16777216 25165824 (10 * Second)))
    as (h & HS & H1 & _ & _ & H4 & _).
  - reflexivity.
  - vm_compute. split; [discriminate|reflexivity].
  - vm_compute. split; [discriminate|reflexivity].
  - vm_compute. split; [discriminate|reflexivity].
  - vm_compute. split; [discriminate|reflexivity].
  - exists h. split; [exact HS|]. split; [rewrite H1; reflexivity|rewrite H4; reflexivity].
Defined.

End ConnParamsProofs.
