(* ===== verification/FlowControl.v ===== *)
(** * Flow control ([internal/flowcontrol])

    [flow_controller.go] (one controller per stream and one for the connection)
    and [flow_control_manager.go].  The clock, the smoothed RTT and the RTTs that
    the peer reported per path are arguments; the zero [time.Time] is [None].
    The operations of the manager run under its mutex, so each is one step. *)

From S2P Require Import Prelude ByteOrder Protocol WireHeader MinMax ConnParams.

Definition ErrReceivedSmallerByteOffset : error := ErrorsNew "Received a smaller byte offset".
Definition errMapAccess : error := ErrorsNew "Error accessing the flowController map.".
Definition StreamDataAfterTermination : Z := 2.
Definition FlowControlReceivedTooMuchData : Z := 59.

Module FlowController.

Record t : Type := mk {
  streamID : Z;
  contributesToConnection : bool;
  bytesSent : Z;
  sendWindow : Z;
  bytesRetrans : Z;
  lastWindowUpdateTime : option Z;
  bytesRead : Z;
  highestReceived : Z;
  receiveWindow : Z;
  receiveWindowIncrement : Z;
  maxReceiveWindowIncrement : Z
}.

Definition New (streamID : Z) (contributes : bool) (params : ConnParams.t) : t :=
  if streamID =? 0 then
    let w := ConnParams.GetReceiveConnectionFlowControlWindow params in
    mk streamID contributes 0 0 0 None 0 0 w w (ConnParams.GetMaxReceiveConnectionFlowControlWindow params)
  else
    let w := ConnParams.GetReceiveStreamFlowControlWindow params in
    mk streamID contributes 0 0 0 None 0 0 w w (ConnParams.GetMaxReceiveStreamFlowControlWindow params).

Definition ContributesToConnection (c : t) : bool := c.(contributesToConnection).

Definition getSendWindow (c : t) (params : ConnParams.t) : Z :=
  if c.(sendWindow) =? 0 then
    if c.(streamID) =? 0 then ConnParams.GetSendConnectionFlowControlWindow params
    else ConnParams.GetSendStreamFlowControlWindow params
  else c.(sendWindow).

Definition setSent (c : t) (sent window retrans : Z) : t :=
  mk c.(streamID) c.(contributesToConnection) sent window retrans c.(lastWindowUpdateTime)
    c.(bytesRead) c.(highestReceived) c.(receiveWindow) c.(receiveWindowIncrement)
    c.(maxReceiveWindowIncrement).

Definition setReceived (c : t) (time : option Z) (read highest window increment : Z) : t :=
  mk c.(streamID) c.(contributesToConnection) c.(bytesSent) c.(sendWindow) c.(bytesRetrans) time
    read highest window increment c.(maxReceiveWindowIncrement).

Definition AddBytesSent (c : t) (n : Z) : t :=
  setSent c (u64 (c.(bytesSent) + n)) c.(sendWindow) c.(bytesRetrans).
Definition GetBytesSent (c : t) : Z := c.(bytesSent).
Definition AddBytesRetrans (c : t) (n : Z) : t :=
  setSent c c.(bytesSent) c.(sendWindow) (u64 (c.(bytesRetrans) + n)).
Definition GetBytesRetrans (c : t) : Z := c.(bytesRetrans).

Definition UpdateSendWindow (c : t) (newOffset : Z) : t * bool :=
  if c.(sendWindow) <? newOffset then (setSent c c.(bytesSent) newOffset c.(bytesRetrans), true)
  else (c, false).

Definition SendWindowSize (c : t) (params : ConnParams.t) : Z :=
  let sendWindow := getSendWindow c params in
  if sendWindow <? c.(bytesSent) then 0 else sendWindow - c.(bytesSent).

Definition SendWindowOffset (c : t) (params : ConnParams.t) : Z := getSendWindow c params.

(** The increment, or the error of a smaller offset (with increment 0). *)
Definition UpdateHighestReceived (c : t) (byteOffset : Z) : t * Z * option error :=
  if byteOffset =? c.(highestReceived) then (c, 0, None)
  else if c.(highestReceived) <? byteOffset then
    (setReceived c c.(lastWindowUpdateTime) c.(bytesRead) byteOffset c.(receiveWindow)
       c.(receiveWindowIncrement), byteOffset - c.(highestReceived), None)
  else (c, 0, Some ErrReceivedSmallerByteOffset).

Definition IncrementHighestReceived (c : t) (increment : Z) : t :=
  setReceived c c.(lastWindowUpdateTime) c.(bytesRead) (u64 (c.(highestReceived) + increment))
    c.(receiveWindow) c.(receiveWindowIncrement).

Definition AddBytesRead (c : t) (n now : Z) : t :=
  setReceived c (if c.(bytesRead) =? 0 then Some now else c.(lastWindowUpdateTime))
    (u64 (c.(bytesRead) + n)) c.(highestReceived) c.(receiveWindow) c.(receiveWindowIncrement).

(** [for _, remoteRTT := range c.remoteRTTs { max = MaxDuration(max, remoteRTT) }] *)
Definition maxRemoteRTT (remoteRTTs : list Z) : Z := foldl MaxDuration 0 remoteRTTs.

Definition maybeAdjustWindowIncrement (c : t) (rtt : Z) (remoteRTTs : list Z) (now : Z) : t :=
  match c.(lastWindowUpdateTime) with
  | None => c
  | Some last =>
      if rtt =? 0 then c
      else if i64 (2 * MaxDuration rtt (maxRemoteRTT remoteRTTs)) <=? now - last then c
      else
        setReceived c c.(lastWindowUpdateTime) c.(bytesRead) c.(highestReceived) c.(receiveWindow)
          (MinByteCount (u64 (2 * c.(receiveWindowIncrement))) c.(maxReceiveWindowIncrement))
  end.

(** Whether an update is necessary, the new increment, the new offset. *)
Definition MaybeUpdateWindow (c : t) (rtt : Z) (remoteRTTs : list Z) (now : Z) : t * (bool * Z * Z) :=
  let diff := u64 (c.(receiveWindow) - c.(bytesRead)) in
  if diff <? c.(receiveWindowIncrement) / 2 then
    let c1 := maybeAdjustWindowIncrement c rtt remoteRTTs now in
    let newWindowIncrement :=
      if negb (c1.(receiveWindowIncrement) =? c.(receiveWindowIncrement))
      then c1.(receiveWindowIncrement) else 0 in
    let window := u64 (c1.(bytesRead) + c1.(receiveWindowIncrement)) in
    (setReceived c1 (Some now) c1.(bytesRead) c1.(highestReceived) window c1.(receiveWindowIncrement),
     (true, newWindowIncrement, window))
  else (c, (false, c.(receiveWindowIncrement), c.(receiveWindow))).

Definition EnsureMinimumWindowIncrement (c : t) (inc : Z) : t :=
  if c.(receiveWindowIncrement) <? inc then
    setReceived c None c.(bytesRead) c.(highestReceived) c.(receiveWindow)
      (MinByteCount inc c.(maxReceiveWindowIncrement))
  else c.

Definition CheckFlowControlViolation (c : t) : bool := c.(receiveWindow) <? c.(highestReceived).

End FlowController.

(** ** The manager *)

Module FlowControlManager.
Import FlowController.

Record mgr : Type := mkMgr {
  params : ConnParams.t;
  streams : gmap Z FlowController.t;
  conn : FlowController.t
}.

Definition NewFlowControlManager (p : ConnParams.t) : mgr := mkMgr p ∅ (FlowController.New 0 false p).

Definition setStream (f : mgr) (id : Z) (c : FlowController.t) : mgr :=
  mkMgr f.(params) (<[id := c]> f.(streams)) f.(conn).
Definition setConn (f : mgr) (c : FlowController.t) : mgr := mkMgr f.(params) f.(streams) c.

Definition NewStream (f : mgr) (id : Z) (contributes : bool) : mgr :=
  match f.(streams) !! id with
  | Some _ => f
  | None => setStream f id (FlowController.New id contributes f.(params))
  end.

Definition RemoveStream (f : mgr) (id : Z) : mgr := mkMgr f.(params) (delete id f.(streams)) f.(conn).

(** Adding the increment of a stream to the connection, and the check. *)
Definition incrementConn (f : mgr) (c : FlowController.t) (increment : Z) : mgr * option error :=
  if ContributesToConnection c then
    let conn' := IncrementHighestReceived f.(conn) increment in
    (setConn f conn',
     if CheckFlowControlViolation conn'
     then Some (QuicErrorf FlowControlReceivedTooMuchData
                  "Received %d bytes for the connection, allowed %d bytes"
                  [conn'.(highestReceived); conn'.(receiveWindow)])
     else None)
  else (f, None).

Definition streamViolation (byteOffset id : Z) (c : FlowController.t) : error :=
  QuicErrorf FlowControlReceivedTooMuchData "Received %d bytes on stream %d, allowed %d bytes"
    [byteOffset; id; c.(receiveWindow)].

Definition ResetStream (f : mgr) (id byteOffset : Z) : mgr * option error :=
  match f.(streams) !! id with
  | None => (f, Some errMapAccess)
  | Some c =>
      let '(c', increment, err) := FlowController.UpdateHighestReceived c byteOffset in
      match err with
      | Some _ => (setStream f id c', Some (Prelude.ErrorCode StreamDataAfterTermination))
      | None =>
          if CheckFlowControlViolation c' then (setStream f id c', Some (streamViolation byteOffset id c'))
          else incrementConn (setStream f id c') c' increment
      end
  end.

Definition UpdateHighestReceived (f : mgr) (id byteOffset : Z) : mgr * option error :=
  match f.(streams) !! id with
  | None => (f, Some errMapAccess)
  | Some c =>
      let '(c', increment, _) := FlowController.UpdateHighestReceived c byteOffset in
      if CheckFlowControlViolation c' then (setStream f id c', Some (streamViolation byteOffset id c'))
      else incrementConn (setStream f id c') c' increment
  end.

Definition AddBytesRead (f : mgr) (id n now : Z) : mgr * option error :=
  match f.(streams) !! id with
  | None => (f, Some errMapAccess)
  | Some c =>
      let f1 := setStream f id (FlowController.AddBytesRead c n now) in
      (if ContributesToConnection c then setConn f1 (FlowController.AddBytesRead f.(conn) n now) else f1, None)
  end.

Definition AddBytesSent (f : mgr) (id n : Z) : mgr * option error :=
  match f.(streams) !! id with
  | None => (f, Some errMapAccess)
  | Some c =>
      let f1 := setStream f id (FlowController.AddBytesSent c n) in
      (if ContributesToConnection c then setConn f1 (FlowController.AddBytesSent f.(conn) n) else f1, None)
  end.

Definition AddBytesRetrans (f : mgr) (id n : Z) : mgr * option error :=
  match f.(streams) !! id with
  | None => (f, Some errMapAccess)
  | Some c =>
      let f1 := setStream f id (FlowController.AddBytesRetrans c n) in
      (if ContributesToConnection c then setConn f1 (FlowController.AddBytesRetrans f.(conn) n) else f1, None)
  end.

Definition GetBytesSent (f : mgr) (id : Z) : res Z :=
  match f.(streams) !! id with None => Err errMapAccess | Some c => Ok (FlowController.GetBytesSent c) end.
Definition GetBytesRetrans (f : mgr) (id : Z) : res Z :=
  match f.(streams) !! id with None => Err errMapAccess | Some c => Ok (FlowController.GetBytesRetrans c) end.

(** [float64(newIncrement) * 1.5], truncated: exact for increments below 2^52. *)
Definition connectionIncrement (newIncrement : Z) : Z := 3 * newIncrement / 2.

(** The loop over the streams; Go visits the map in an arbitrary [order]. *)
Fixpoint streamUpdates (order : list Z) (force : bool) (rtt : Z) (remoteRTTs : list Z) (now : Z) (f : mgr)
  : mgr * list (Z * Z) :=
  match order with
  | [] => (f, [])
  | id :: order =>
      match f.(streams) !! id with
      | None => streamUpdates order force rtt remoteRTTs now f
      | Some c =>
          let '(c', (necessary, newIncrement, offset)) := MaybeUpdateWindow c rtt remoteRTTs now in
          let f1 := setStream f id c' in
          if force || necessary then
            let f2 :=
              if ContributesToConnection c' && negb (newIncrement =? 0)
              then setConn f1 (EnsureMinimumWindowIncrement f1.(conn) (connectionIncrement newIncrement))
              else f1 in
            let '(f3, res) := streamUpdates order force rtt remoteRTTs now f2 in (f3, (id, offset) :: res)
          else streamUpdates order force rtt remoteRTTs now f1
      end
  end.

Definition GetWindowUpdates (order : list Z) (force : bool) (rtt : Z) (remoteRTTs : list Z) (now : Z) (f : mgr)
  : mgr * list (Z * Z) :=
  let '(f1, res) := streamUpdates order force rtt remoteRTTs now f in
  let '(conn', (necessary, _, offset)) := MaybeUpdateWindow f1.(conn) rtt remoteRTTs now in
  (setConn f1 conn', if force || necessary then res ++ [(0, offset)] else res).

Definition GetReceiveWindow (f : mgr) (id : Z) : res Z :=
  if id =? 0 then Ok f.(conn).(receiveWindow)
  else match f.(streams) !! id with None => Err errMapAccess | Some c => Ok c.(receiveWindow) end.

Definition SendWindowSize (f : mgr) (id : Z) : res Z :=
  match f.(streams) !! id with
  | None => Err errMapAccess
  | Some c =>
      let res := FlowController.SendWindowSize c f.(params) in
      Ok (if ContributesToConnection c
          then MinByteCount res (FlowController.SendWindowSize f.(conn) f.(params)) else res)
  end.

Definition RemainingConnectionWindowSize (f : mgr) : Z := FlowController.SendWindowSize f.(conn) f.(params).

Definition UpdateWindow (f : mgr) (id offset : Z) : res (mgr * bool) :=
  if id =? 0 then
    let '(c, updated) := UpdateSendWindow f.(conn) offset in Ok (setConn f c, updated)
  else
    match f.(streams) !! id with
    | None => Err errMapAccess
    | Some c => let '(c', updated) := UpdateSendWindow c offset in Ok (setStream f id c', updated)
    end.

End FlowControlManager.
