(* ===== verification/FlowControlProofs.v ===== *)
(** * Correctness of flow control

    The sender stays within the windows of the peer, the connection counts every
    received byte once, and the receive window moves as it should, with the
    cases in which it does not. *)

From S2P Require Import Prelude ByteOrder Protocol WireHeader MinMax ConnParams FlowControl.

Module FlowProofs.
Import FlowController FlowControlManager.

(** ** Sending *)

(** A controller has not sent more than it may. *)
Definition sent_ok (p : ConnParams.t) (c : FlowController.t) : Prop :=
  0 <= c.(bytesSent) <= getSendWindow c p /\ getSendWindow c p < 2 ^ 64.

Definition send_ok (f : mgr) : Prop :=
  sent_ok f.(params) f.(conn) /\ map_Forall (fun _ c => sent_ok f.(params) c) f.(streams).

Lemma sent_ok_size p c :
  sent_ok p c -> FlowController.SendWindowSize c p = getSendWindow c p - c.(bytesSent).
Proof. intros [H _]. unfold FlowController.SendWindowSize. zcases; lia. Qed.

Lemma sent_ok_AddBytesSent p c n :
  sent_ok p c -> 0 <= n <= getSendWindow c p - c.(bytesSent) ->
  sent_ok p (FlowController.AddBytesSent c n)
  /\ getSendWindow (FlowController.AddBytesSent c n) p = getSendWindow c p
  /\ (FlowController.AddBytesSent c n).(bytesSent) = c.(bytesSent) + n.
Proof.
  intros [H1 H2] Hn. assert (E : (FlowController.AddBytesSent c n).(bytesSent) = c.(bytesSent) + n).
  { cbn. rewrite u64_small; lia. }
  unfold sent_ok. rewrite E. unfold getSendWindow in *. cbn. split_and!; lia || done.
Qed.

(** C20: a sender that never adds more than the window size it was told never
    exceeds the peer's limits: on the stream and on the connection the bytes sent
    stay within the advertised offsets, and the remaining window shrinks by
    exactly the bytes sent. *)
Theorem send_window_respected f id w n f' :
  send_ok f -> FlowControlManager.SendWindowSize f id = Ok w -> 0 <= n <= w ->
  FlowControlManager.AddBytesSent f id n = (f', None) ->
  send_ok f' /\ FlowControlManager.SendWindowSize f' id = Ok (w - n).
Proof.
  intros [Hconn Hs]. unfold FlowControlManager.SendWindowSize, FlowControlManager.AddBytesSent.
  destruct (streams f !! id) as [c|] eqn:Hc; [|done]. pose proof (Hs id c Hc) as Hok.
  rewrite (sent_ok_size _ _ Hok), (sent_ok_size _ _ Hconn), MinByteCount_min.
  unfold ContributesToConnection. destruct (contributesToConnection c) eqn:Ec;
    intros [= <-] Hn [= <-].
  all: destruct (sent_ok_AddBytesSent (params f) c n Hok ltac:(lia)) as (Hok' & Hw & Hb).
  1: destruct (sent_ok_AddBytesSent (params f) (conn f) n Hconn ltac:(lia)) as (Hcok & Hcw & Hcb).
  all: split; [split; [done|by apply map_Forall_insert_2]|].
  all: cbn [streams setStream setConn conn params]; rewrite lookup_insert_eq.
  all: cbn [contributesToConnection FlowController.AddBytesSent setSent]; rewrite ?Ec.
  all: rewrite ?MinByteCount_min, ?(sent_ok_size _ _ Hok'), ?(sent_ok_size _ _ Hcok),
    ?(sent_ok_size _ _ Hconn); f_equal; lia.
Qed.

Definition example_params : ConnParams.t :=
  ConnParams.New PerspectiveServer Version39 1048576 1572864 30000000000.
Definition example_mgr : mgr := NewStream (NewFlowControlManager example_params) 5 true.

Lemma send_window_respected_witness :
  send_ok (FlowControlManager.AddBytesSent example_mgr 5 1000).1
  /\ FlowControlManager.SendWindowSize (FlowControlManager.AddBytesSent example_mgr 5 1000).1 5
     = Ok (16384 - 1000).
Proof.
  apply (send_window_respected example_mgr 5 16384 1000
           (FlowControlManager.AddBytesSent example_mgr 5 1000).1).
  - split; [vm_compute; repeat split; discriminate|].
    apply map_Forall_insert_2; [vm_compute; repeat split; discriminate|apply map_Forall_empty].
  - vm_compute. reflexivity.
  - lia.
  - reflexivity.
Defined.

(** ** Receiving: the connection counts the bytes of its streams *)

Definition contrib (c : FlowController.t) : Z :=
  if c.(contributesToConnection) then c.(highestReceived) else 0.

Definition total (m : gmap Z FlowController.t) : Z := map_fold (fun _ c acc => contrib c + acc) 0 m.

Lemma total_insert_new m i c : m !! i = None -> total (<[i := c]> m) = contrib c + total m.
Proof. intros Hi. unfold total. by rewrite map_fold_insert_L by (done || (intros; lia)). Qed.

Lemma total_delete m i c : m !! i = Some c -> total (delete i m) = total m - contrib c.
Proof.
  intros Hi. rewrite <- (insert_delete_id m i c Hi) at 2.
  rewrite total_insert_new by apply lookup_delete_eq. lia.
Qed.

Lemma total_update m i c c' :
  m !! i = Some c -> total (<[i := c']> m) = total m - contrib c + contrib c'.
Proof.
  intros Hi. rewrite <- insert_delete_eq, total_insert_new by apply lookup_delete_eq.
  rewrite (total_delete _ _ _ Hi). lia.
Qed.

(** Nothing was received beyond a window. *)
Definition received_ok (c : FlowController.t) : Prop :=
  0 <= c.(highestReceived) <= c.(receiveWindow) /\ c.(receiveWindow) < 2 ^ 63.

(** [removed]: what the closed streams had contributed. *)
Definition recv_inv (f : mgr) (removed : Z) : Prop :=
  f.(conn).(highestReceived) = total f.(streams) + removed
  /\ received_ok f.(conn) /\ map_Forall (fun _ c => received_ok c) f.(streams).

(** The controller's update: the increment is what the counter grew by. *)
Lemma UpdateHighestReceived_spec c off c' inc err :
  FlowController.UpdateHighestReceived c off = (c', inc, err) ->
  c'.(highestReceived) = Z.max c.(highestReceived) off
  /\ inc = c'.(highestReceived) - c.(highestReceived)
  /\ c'.(receiveWindow) = c.(receiveWindow)
  /\ c'.(contributesToConnection) = c.(contributesToConnection).
Proof. unfold FlowController.UpdateHighestReceived. zcases; intros; simplify_eq/=; lia || (split_and!; lia || done). Qed.

Lemma incrementConn_inv f id c c' inc removed f' :
  recv_inv f removed -> f.(streams) !! id = Some c ->
  c'.(highestReceived) = c.(highestReceived) + inc -> 0 <= inc ->
  c'.(contributesToConnection) = c.(contributesToConnection) -> received_ok c' ->
  incrementConn (setStream f id c') c' inc = (f', None) ->
  recv_inv f' removed.
Proof.
  intros (Hsum & Hconn & Hs) Hc Hh Hinc Hcon Hok. pose proof (Hs _ _ Hc) as [Hcok _].
  unfold incrementConn, ContributesToConnection. rewrite Hcon.
  assert (Htot : total (<[id := c']> f.(streams)) = total f.(streams) + (if c.(contributesToConnection) then inc else 0)).
  { rewrite (total_update _ _ _ _ Hc). unfold contrib. rewrite Hcon. case_match; lia. }
  destruct (contributesToConnection c).
  - destruct (CheckFlowControlViolation _) eqn:Hv; [done|]. intros [= <-].
    unfold CheckFlowControlViolation in Hv. apply Z.ltb_ge in Hv.
    unfold received_ok in *. cbn in Hv. rewrite u64_small in Hv by lia.
    split_and!; cbn; rewrite ?u64_small, ?Htot by lia; try (unfold received_ok; cbn; rewrite ?u64_small); try lia.
    by apply map_Forall_insert_2.
  - intros [= <-]. split_and!; cbn; [lia|done|by apply map_Forall_insert_2].
Qed.

(** Connection-level flow control counts each received byte exactly once:
    whenever data or a reset is accepted, the connection's counter stays the sum
    of the highest offsets of all streams that contribute to it, open or closed,
    and neither a stream nor the connection has received more than its window. *)
Theorem connection_counts_streams f removed id off f' :
  recv_inv f removed ->
  FlowControlManager.UpdateHighestReceived f id off = (f', None) \/ ResetStream f id off = (f', None) ->
  recv_inv f' removed /\
  exists c c', f.(streams) !! id = Some c /\ f'.(streams) !! id = Some c'
    /\ c'.(highestReceived) = Z.max c.(highestReceived) off.
Proof.
  intros Hinv HU.
  assert (Hstep : exists c c' inc err, f.(streams) !! id = Some c
    /\ FlowController.UpdateHighestReceived c off = (c', inc, err)
    /\ CheckFlowControlViolation c' = false /\ incrementConn (setStream f id c') c' inc = (f', None)).
  { unfold FlowControlManager.UpdateHighestReceived, ResetStream in HU.
    destruct (streams f !! id) as [c|]; [|by destruct HU].
    destruct (FlowController.UpdateHighestReceived c off) as [[c' inc] err] eqn:E.
    exists c, c', inc, err. destruct (CheckFlowControlViolation c'), err, HU; try done; auto. }
  destruct Hstep as (c & c' & inc & err & Hc & HU' & Hv & HI).
  apply UpdateHighestReceived_spec in HU' as (Hmax & Hinc & Hw & Hcon).
  pose proof (proj2 (proj2 Hinv) _ _ Hc) as [Hok1 Hok2].
  apply Z.ltb_ge in Hv. split.
  - eapply incrementConn_inv; [exact Hinv|exact Hc| | | | |exact HI]; try lia || done.
    unfold received_ok. lia.
  - exists c, c'. split_and!; [done| |done].
    unfold incrementConn in HI. destruct (ContributesToConnection c'); [destruct (CheckFlowControlViolation _)|];
      simplify_eq; cbn; by rewrite lookup_insert_eq.
Qed.

Lemma connection_counts_streams_witness :
  recv_inv (FlowControlManager.UpdateHighestReceived example_mgr 5 4711).1 0 /\
  exists c c', example_mgr.(streams) !! 5 = Some c
    /\ (FlowControlManager.UpdateHighestReceived example_mgr 5 4711).1.(streams) !! 5 = Some c'
    /\ c'.(highestReceived) = Z.max c.(highestReceived) 4711.
Proof.
  apply (connection_counts_streams example_mgr 0 5 4711
           (FlowControlManager.UpdateHighestReceived example_mgr 5 4711).1).
  - split_and!; [reflexivity|vm_compute; repeat split; discriminate|].
    apply map_Forall_insert_2; [vm_compute; repeat split; discriminate|apply map_Forall_empty].
  - left. reflexivity.
Defined.

(** ** The receive window *)

(** The increment of a controller within its limit. *)
Definition window_ok (c : FlowController.t) : Prop :=
  0 <= c.(bytesRead) <= c.(receiveWindow) /\ c.(receiveWindow) < 2 ^ 62
  /\ 0 < c.(receiveWindowIncrement) <= c.(maxReceiveWindowIncrement)
  /\ c.(maxReceiveWindowIncrement) < 2 ^ 62.

Lemma adjust_spec c rtt rtts now :
  window_ok c ->
  let c' := maybeAdjustWindowIncrement c rtt rtts now in
  c' = setReceived c c.(lastWindowUpdateTime) c.(bytesRead) c.(highestReceived) c.(receiveWindow)
         c'.(receiveWindowIncrement)
  /\ (c'.(receiveWindowIncrement) = c.(receiveWindowIncrement) \/
      c'.(receiveWindowIncrement) = Z.min (2 * c.(receiveWindowIncrement)) c.(maxReceiveWindowIncrement)).
Proof.
  intros (_ & _ & Hi & Hm). unfold maybeAdjustWindowIncrement. destruct c as [? ? ? ? ? last ? ? ? inc max].
  cbn in *. destruct last; [|by auto]. zcases; try (by auto).
  cbn. split; [done|]. right. rewrite MinByteCount_min, u64_small by lia. done.
Qed.

(** With an increment within its maximum, updating the receive window never
    takes back an offset that was advertised: the window only grows, an update
    happens exactly when less than half of the increment is left, it leaves at
    least the old increment of credit, and the increment is doubled at most and
    capped by the configured maximum. *)
Theorem MaybeUpdateWindow_spec c rtt rtts now c' necessary newInc offset :
  window_ok c -> MaybeUpdateWindow c rtt rtts now = (c', (necessary, newInc, offset)) ->
  offset = c'.(receiveWindow) /\ c.(receiveWindow) <= offset /\ c'.(bytesRead) = c.(bytesRead)
  /\ (necessary = true <-> c.(receiveWindow) - c.(bytesRead) < c.(receiveWindowIncrement) / 2)
  /\ (necessary = true -> offset = c.(bytesRead) + c'.(receiveWindowIncrement))
  /\ c.(receiveWindowIncrement) <= c'.(receiveWindowIncrement)
     <= Z.min (2 * c.(receiveWindowIncrement)) c.(maxReceiveWindowIncrement).
Proof.
  intros Hok HM. pose proof Hok as (Hr & Hw & Hi & Hm).
  destruct (adjust_spec c rtt rtts now Hok) as [Hc1 Hinc]. unfold MaybeUpdateWindow in HM.
  set (c1 := maybeAdjustWindowIncrement c rtt rtts now) in *.
  assert (Hread : c1.(bytesRead) = c.(bytesRead)) by (rewrite Hc1; done).
  rewrite u64_small in HM by lia.
  assert (Hhalf : c.(receiveWindowIncrement) / 2 <= c.(receiveWindowIncrement))
    by (apply Z.div_le_upper_bound; lia).
  destruct (Z.ltb_spec (c.(receiveWindow) - c.(bytesRead)) (c.(receiveWindowIncrement) / 2)).
  - injection HM as <- <- <- <-. cbn. rewrite Hread, u64_small by lia.
    split_and!; try lia; try done.
  - injection HM as <- <- <- <-. split_and!; try lia; try done.
Qed.

(** A client's stream after it read 5 200 000 bytes in a short time. *)
Definition example_controller (max read : Z) : FlowController.t :=
  mk 5 true 0 0 0 (Some 1000) read read ReceiveStreamFlowControlWindow ReceiveStreamFlowControlWindow max.

Lemma MaybeUpdateWindow_spec_witness :
  let c := example_controller 16777216 5200000 in
  c.(receiveWindow) <= (MaybeUpdateWindow c 50000 [] 2000).2.2 /\
  (MaybeUpdateWindow c 50000 [] 2000).2.2 = 5200000 + 16777216.
Proof.
  intros c. split; [|vm_compute; reflexivity].
  apply (MaybeUpdateWindow_spec c 50000 [] 2000 (MaybeUpdateWindow c 50000 [] 2000).1 true 16777216
           (MaybeUpdateWindow c 50000 [] 2000).2.2).
  - vm_compute. repeat split; discriminate.
  - vm_compute. reflexivity.
Defined.

(** An increment above its maximum makes the window shrink: the auto-tuning
    caps the increment, so the new offset can lie below the one the peer was
    already told, and the peer that uses its old credit then violates flow
    control.  The default server parameters are such a case. *)
Theorem receive_window_can_shrink c rtt rtts now last :
  c.(lastWindowUpdateTime) = Some last -> rtt <> 0 ->
  now - last < i64 (2 * MaxDuration rtt (maxRemoteRTT rtts)) ->
  0 <= c.(bytesRead) -> c.(receiveWindow) < 2 ^ 62 -> 0 < c.(maxReceiveWindowIncrement) ->
  0 <= c.(highestReceived) < c.(receiveWindow) ->
  c.(maxReceiveWindowIncrement) < c.(receiveWindow) - c.(bytesRead) < c.(receiveWindowIncrement) / 2 ->
  c.(receiveWindowIncrement) < 2 ^ 62 ->
  let c' := (MaybeUpdateWindow c rtt rtts now).1 in
  c'.(receiveWindow) < c.(receiveWindow)
  /\ CheckFlowControlViolation (FlowController.UpdateHighestReceived c' c.(receiveWindow)).1.1 = true.
Proof.
  intros Hlast Hrtt Htime Hr Hw Hm Hh Hd Hi. unfold MaybeUpdateWindow.
  assert (Hhalf : 2 * (c.(receiveWindowIncrement) / 2) <= c.(receiveWindowIncrement))
    by (apply Z.mul_div_le; lia).
  rewrite u64_small by lia.
  destruct (Z.ltb_spec (c.(receiveWindow) - c.(bytesRead)) (c.(receiveWindowIncrement) / 2)); [|lia].
  unfold maybeAdjustWindowIncrement. rewrite Hlast.
  destruct (Z.eqb_spec rtt 0); [done|].
  destruct (Z.leb_spec (i64 (2 * MaxDuration rtt (maxRemoteRTT rtts))) (now - last)); [lia|].
  cbn [fst]. cbn. rewrite MinByteCount_min, (u64_small (2 * _)) by lia. rewrite u64_small by lia.
  split; [lia|]. unfold FlowController.UpdateHighestReceived, CheckFlowControlViolation. cbn.
  destruct (Z.eqb_spec (receiveWindow c) (highestReceived c)); [lia|].
  destruct (Z.ltb_spec (highestReceived c) (receiveWindow c)); [|lia].
  cbn. apply Z.ltb_lt. lia.
Qed.

Lemma receive_window_can_shrink_witness :
  let c := example_controller 1048576 5200000 in
  (MaybeUpdateWindow c 50000 [] 2000).1.(receiveWindow) = 6248576 /\
  (MaybeUpdateWindow c 50000 [] 2000).1.(receiveWindow) < c.(receiveWindow)
  /\ CheckFlowControlViolation
       (FlowController.UpdateHighestReceived (MaybeUpdateWindow c 50000 [] 2000).1 c.(receiveWindow)).1.1 = true.
Proof.
  intros c. split; [vm_compute; reflexivity|].
  apply (receive_window_can_shrink c 50000 [] 2000 1000).
  - reflexivity.
  - discriminate.
  - vm_compute. reflexivity.
  - vm_compute. discriminate.
  - vm_compute. reflexivity.
  - vm_compute. reflexivity.
  - vm_compute. split; [discriminate|reflexivity].
  - vm_compute. split; reflexivity.
  - vm_compute. reflexivity.
Defined.

End FlowProofs.
