(* ===== verification/StreamSorter.v ===== *)
(** * Reordering of received stream data ([stream_frame_sorter.go], [StreamFrameBuffer.go])

    The queue of received STREAM frames of one stream, indexed by offset, with
    the list of the gaps that are still missing; and the zero filling that this
    fork adds for unreliable streams.  Logging is left out.  The clock is an
    argument. *)

From S2P Require Import Prelude ByteOrder Protocol WireFrames WireStream.

Record ByteInterval : Type := mkGap { GStart : Z; GEnd : Z }.

#[global] Instance ByteInterval_eq_dec : EqDecision ByteInterval.
Proof. solve_decision. Defined.

Definition MaxByteCount : Z := 2 ^ 64 - 1.
Definition MaxStreamFrameSorterGaps : Z := 2500.

Definition errTooManyGapsInReceivedStreamData : error :=
  ErrorsNew "Too many gaps in received StreamFrame data".
Definition errDuplicateStreamData : error := ErrorsNew "Duplicate Stream Data".
Definition errEmptyStreamData : error := ErrorsNew "Stream Data empty".

(** ** The gap list: [utils.ByteIntervalList] from [Front] to [Back] *)

(** The search for the first gap that the frame meets: [before] are the gaps
    that were skipped, [after] the ones that follow. *)
Inductive search : Type :=
| Duplicate
| NotFound
| Found (before : list ByteInterval) (gap : ByteInterval) (after : list ByteInterval).

Fixpoint findGap (start end_ : Z) (before gaps : list ByteInterval) : search :=
  match gaps with
  | [] => NotFound
  | gap :: after =>
      if end_ <=? gap.(GStart) then Duplicate
      else if (gap.(GStart) <? end_) && (start <=? gap.(GEnd)) then Found before gap after
      else findGap start end_ (before ++ [gap]) after
  end.

(** The search for [endGap], the last gap that the frame meets.  [same] tells
    that [endGap] still is [gap]; the gaps between the two are removed, and so
    are the frames queued at their ends.  [Stop]: the queue, [endGap] when it is
    not [gap] (with the flag that it was removed from the list), and the gaps
    after it.  [NoEnd]: the queue and the gaps left after [gap]. *)
Inductive endSearch : Type :=
| Stop (queue : gmap Z StreamFrame.t) (endGap : option (ByteInterval * bool)) (after : list ByteInterval)
| NoEnd (queue : gmap Z StreamFrame.t) (leftover : list ByteInterval).

Fixpoint findEnd (end_ : Z) (same : bool) (endGap : ByteInterval) (after : list ByteInterval)
    (queue : gmap Z StreamFrame.t) : endSearch :=
  if endGap.(GEnd) <=? end_ then
    match after with
    | [] => NoEnd queue (if same then [] else [endGap])
    | next :: after' =>
        if end_ <=? next.(GStart) then Stop queue (if same then None else Some (endGap, true)) after
        else findEnd end_ false next after' (delete endGap.(GEnd) queue)
    end
  else Stop queue (if same then None else Some (endGap, false)) after.

(** What remains of [gap] and [endGap] once [start, end_) is received. *)
Definition closeGaps (start end_ : Z) (gap : ByteInterval) (endGap : option (ByteInterval * bool))
  : list ByteInterval :=
  match endGap with
  | None =>
      if start =? gap.(GStart) then
        if gap.(GEnd) <=? end_ then [] else [mkGap end_ gap.(GEnd)]
      else if end_ =? gap.(GEnd) then [mkGap gap.(GStart) start]
      else [mkGap gap.(GStart) start; mkGap end_ gap.(GEnd)]
  | Some (eg, removed) =>
      if start =? gap.(GStart) then
        (if gap.(GEnd) <=? end_ then [] else [gap])
        ++ (if removed then [] else if end_ <? eg.(GEnd) then [mkGap end_ eg.(GEnd)] else [eg])
      else if end_ =? eg.(GEnd) then
        mkGap gap.(GStart) start :: (if removed then [] else [eg])
      else mkGap gap.(GStart) start :: (if removed then [] else [mkGap end_ eg.(GEnd)])
  end.

(** ** Storing a frame

    The part that the sorter and the buffer share: the queue, the gaps and the
    frame that is to be queued, cut to the bytes that are new. *)

Definition withData (f : StreamFrame.t) (offset : Z) (data : list Z) : StreamFrame.t :=
  StreamFrame.mk f.(StreamFrame.StreamID) f.(StreamFrame.UnreliableMarker) f.(StreamFrame.FinBit)
    f.(StreamFrame.DataLenPresent) offset data.

Record store : Type := mkStore { queued : gmap Z StreamFrame.t; gaps : list ByteInterval }.

Inductive outcome : Type :=
| Stored (st : store) (frame : StreamFrame.t)
| QueuedFin (st : store)
| Rejected (st : store) (err : error).

(** [frame.Data[n:]] and the offset moved with it. *)
Definition cutFront (f : StreamFrame.t) (n : Z) : StreamFrame.t :=
  withData f (u64 (f.(StreamFrame.Offset) + n)) (drop (Z.to_nat n) f.(StreamFrame.Data)).

(** [frame.Data[:len]] *)
Definition cutBack (f : StreamFrame.t) (len : Z) : StreamFrame.t :=
  withData f f.(StreamFrame.Offset) (take (Z.to_nat len) f.(StreamFrame.Data)).

(** From the search for the end gap on. *)
Definition fillGap (noEnd : error) (st : store) (before : list ByteInterval) (gap : ByteInterval)
    (after : list ByteInterval) (frame : StreamFrame.t) (start end_ : Z) : outcome :=
  match findEnd end_ true gap after st.(queued) with
  | NoEnd queue leftover => Rejected (mkStore queue (before ++ gap :: leftover)) noEnd
  | Stop queue endGap rest =>
      let endOfEndGap := match endGap with None => gap.(GEnd) | Some (eg, _) => eg.(GEnd) end in
      let '(frame, end_) :=
        if endOfEndGap <? end_ then
          let cutLen := end_ - endOfEndGap in
          (cutBack frame (StreamFrame.DataLen frame - cutLen), end_ - cutLen)
        else (frame, end_) in
      let st := mkStore queue (before ++ closeGaps start end_ gap endGap ++ rest) in
      if MaxStreamFrameSorterGaps <? Z.of_nat (length st.(gaps))
      then Rejected st errTooManyGapsInReceivedStreamData
      else Stored (mkStore (<[frame.(StreamFrame.Offset) := frame]> queue) st.(gaps)) frame
  end.

Definition pushStore (noGap noEnd : error) (st : store) (frame : StreamFrame.t) : outcome :=
  if StreamFrame.DataLen frame =? 0 then
    if frame.(StreamFrame.FinBit)
    then QueuedFin (mkStore (<[frame.(StreamFrame.Offset) := frame]> st.(queued)) st.(gaps))
    else Rejected st errEmptyStreamData
  else
    let cut :=
      match st.(queued) !! frame.(StreamFrame.Offset) with
      | Some oldFrame =>
          if StreamFrame.DataLen frame <=? StreamFrame.DataLen oldFrame then None
          else Some (cutFront frame (StreamFrame.DataLen oldFrame))
      | None => Some frame
      end in
    match cut with
    | None => Rejected st errDuplicateStreamData
    | Some frame =>
        let start := frame.(StreamFrame.Offset) in
        let end_ := u64 (frame.(StreamFrame.Offset) + StreamFrame.DataLen frame) in
        match findGap start end_ [] st.(gaps) with
        | Duplicate => Rejected st errDuplicateStreamData
        | NotFound => Rejected st noGap
        | Found before gap after =>
            if start <? gap.(GStart)
            then fillGap noEnd st before gap after (cutFront frame (gap.(GStart) - start)) gap.(GStart) end_
            else fillGap noEnd st before gap after frame start end_
        end
    end.

Definition newStore : store := mkStore ∅ [mkGap 0 MaxByteCount].

(** ** The sorter *)

Module StreamFrameSorter.

Record t : Type := mk {
  st : store;
  maxOffset : Z;
  queuedTime : gmap Z Z;
  sortedOffset : list Z;
  cnt : Z;
  cntZero : Z;
  readPosition : Z;
  unreliableMarker : bool
}.

Definition new (unreliable : bool) : t := mk newStore 0 ∅ [] 0 0 0 unreliable.

Definition errNoGap : error := ErrorsNew "StreamFrameSorter BUG: no gap found".
Definition errNoEndGap : error := ErrorsNew "StreamFrameSorter BUG: no end gap found".

Definition setStore (s : t) (st : store) : t :=
  mk st s.(maxOffset) s.(queuedTime) s.(sortedOffset) s.(cnt) s.(cntZero) s.(readPosition)
    s.(unreliableMarker).

Definition Push (s : t) (frame : StreamFrame.t) (flag : bool) (now : Z) : t * option error :=
  match pushStore errNoGap errNoEndGap s.(st) frame with
  | QueuedFin st => (setStore s st, None)
  | Rejected st err => (setStore s st, Some err)
  | Stored st frame =>
      let off := frame.(StreamFrame.Offset) in
      let cnt := u64 (s.(cnt) + StreamFrame.DataLen frame) in
      if flag && (s.(maxOffset) <=? off)
      then (mk st off (<[off := now]> s.(queuedTime)) (s.(sortedOffset) ++ [off]) cnt s.(cntZero)
              s.(readPosition) s.(unreliableMarker), None)
      else (mk st s.(maxOffset) s.(queuedTime) s.(sortedOffset) cnt s.(cntZero)
              s.(readPosition) s.(unreliableMarker), None)
  end.

(** 70 milliseconds *)
Definition lenTime : Z := 70000000.

(** The time between the oldest and the newest entry of [sortedOffset]; an
    entry without a time counts as the zero time. *)
Definition queuedSpan (s : t) : option Z :=
  match s.(sortedOffset), last s.(sortedOffset) with
  | oldest :: _ :: _, Some newest =>
      Some (default 0 (s.(queuedTime) !! newest) - default 0 (s.(queuedTime) !! oldest))
  | _, _ => None
  end.

(** [make([]byte, n)] panics when [n] does not fit an [int]; [s.gaps.Front()] of
    an empty list is dereferenced. *)
Definition Head (s : t) (now : Z) : res (t * option StreamFrame.t) :=
  match s.(st).(queued) !! s.(readPosition) with
  | Some frame => Ok (s, Some frame)
  | None =>
      if s.(unreliableMarker) then
        match queuedSpan s with
        | None => Ok (s, None)
        | Some val =>
            if val <=? lenTime then Ok (s, None)
            else
              match s.(st).(gaps) with
              | [] => Panic
              | elem :: _ =>
                  let n := u64 (- elem.(GStart) + elem.(GEnd) + 1) in
                  if 2 ^ 63 <=? n then Panic
                  else
                    let s1 := mk s.(st) s.(maxOffset) s.(queuedTime) s.(sortedOffset) s.(cnt)
                                (u64 (s.(cntZero) + n)) s.(readPosition) s.(unreliableMarker) in
                    let padding := StreamFrame.mk 0 false false false elem.(GStart)
                                     (replicate (Z.to_nat n) 0) in
                    let s2 := (Push s1 padding false now).1 in
                    Ok (s2, s2.(st).(queued) !! s2.(readPosition))
              end
        end
      else Ok (s, None)
  end.

Definition Pop (s : t) (now : Z) : res (t * option StreamFrame.t) :=
  match Head s now with
  | Ok (s, Some frame) =>
      let len := StreamFrame.DataLen frame in
      let st := mkStore (delete frame.(StreamFrame.Offset) s.(st).(queued)) s.(st).(gaps) in
      let '(times, sorted) :=
        match s.(sortedOffset) with
        | o :: rest => if o =? frame.(StreamFrame.Offset) then (delete o s.(queuedTime), rest)
                       else (s.(queuedTime), s.(sortedOffset))
        | [] => (s.(queuedTime), [])
        end in
      Ok (mk st s.(maxOffset) times sorted (u64 (s.(cnt) - len)) s.(cntZero)
            (u64 (s.(readPosition) + len)) s.(unreliableMarker), Some frame)
  | Ok (s, None) => Ok (s, None)
  | Err e => Err e
  | Panic => Panic
  end.

End StreamFrameSorter.

(** ** The unused buffer: the sorter without the times, filling 100 zeros *)

Module StreamFrameBuffer.

Record t : Type := mk { st : store; readPosition : Z; unreliableMarker : bool }.

Definition new (unreliable : bool) : t := mk newStore 0 unreliable.

Definition errNoGap : error := ErrorsNew "StreamFrameBuffer BUG: no gap found".
Definition errNoEndGap : error := ErrorsNew "StreamFrameBuffer BUG: no end gap found".

Definition Push (s : t) (frame : StreamFrame.t) : t * option error :=
  match pushStore errNoGap errNoEndGap s.(st) frame with
  | QueuedFin st | Stored st _ => (mk st s.(readPosition) s.(unreliableMarker), None)
  | Rejected st err => (mk st s.(readPosition) s.(unreliableMarker), Some err)
  end.

Definition Head (s : t) : res (t * option StreamFrame.t) :=
  match s.(st).(queued) !! s.(readPosition) with
  | Some frame => Ok (s, Some frame)
  | None =>
      if s.(unreliableMarker) then
        match s.(st).(gaps) with
        | [] => Panic
        | elem :: _ =>
            let padding := StreamFrame.mk 0 false false false elem.(GStart) (replicate 100 0) in
            let s1 := (Push s padding).1 in
            Ok (s1, s1.(st).(queued) !! s1.(readPosition))
        end
      else Ok (s, None)
  end.

Definition Pop (s : t) : res (t * option StreamFrame.t) :=
  match Head s with
  | Ok (s, Some frame) =>
      Ok (mk (mkStore (delete frame.(StreamFrame.Offset) s.(st).(queued)) s.(st).(gaps))
            (u64 (s.(readPosition) + StreamFrame.DataLen frame)) s.(unreliableMarker), Some frame)
  | Ok (s, None) => Ok (s, None)
  | Err e => Err e
  | Panic => Panic
  end.

End StreamFrameBuffer.
