(* ===== verification/StreamSorterProofs.v ===== *)
(** * The sorter delivers the stream

    The gap list is the complement of the received bytes, the queue tiles what
    was received, and a reliable stream is read back byte for byte. *)

From S2P Require Import Prelude ByteOrder Protocol WireFrames WireStream StreamSorter.

(** ** The gap list as a set *)

Definition inGap (gs : list ByteInterval) (x : Z) : Prop :=
  exists g, g ∈ gs /\ g.(GStart) <= x < g.(GEnd).

(** Two gaps in order, with received bytes between them. *)
Definition gapsep (a b : ByteInterval) : Prop := a.(GEnd) < b.(GStart).

Definition gap_valid (g : ByteInterval) : Prop := 0 <= g.(GStart) < g.(GEnd) /\ g.(GEnd) <= MaxByteCount.

Lemma inGap_nil x : inGap [] x <-> False.
Proof. split; [|done]. by intros (g & ?%elem_of_nil & _). Qed.

Lemma inGap_cons g gs x : inGap (g :: gs) x <-> g.(GStart) <= x < g.(GEnd) \/ inGap gs x.
Proof.
  unfold inGap. setoid_rewrite elem_of_cons. split.
  - intros (j & [->|Hj] & Hq); [by left|right; by exists j].
  - intros [Hq|(j & Hj & Hq)]; [exists g|exists j]; auto.
Qed.

Lemma inGap_app gs1 gs2 x : inGap (gs1 ++ gs2) x <-> inGap gs1 x \/ inGap gs2 x.
Proof.
  induction gs1 as [|g gs1 IH]; cbn [app]; [rewrite inGap_nil; tauto|].
  rewrite !inGap_cons, IH. tauto.
Qed.

Lemma inGap_above lo gs x : Forall (fun g => lo <= g.(GStart)) gs -> inGap gs x -> lo <= x.
Proof. rewrite Forall_forall. intros H (g & Hg & Hx). specialize (H g Hg). simpl in H. lia. Qed.

Lemma inGap_below hi gs x : Forall (fun g => g.(GEnd) <= hi) gs -> inGap gs x -> x < hi.
Proof. rewrite Forall_forall. intros H (g & Hg & Hx). specialize (H g Hg). simpl in H. lia. Qed.

(** ** The searches *)

Lemma findGap_spec start end_ gs : forall before r,
  findGap start end_ before gs = r ->
  Forall (fun g => g.(GEnd) < start) before ->
  match r with
  | Duplicate => exists skipped g after, gs = skipped ++ g :: after
      /\ Forall (fun g => g.(GEnd) < start) skipped /\ end_ <= g.(GStart)
  | NotFound => Forall (fun g => g.(GEnd) < start) gs
  | Found b g after => before ++ gs = b ++ g :: after /\ Forall (fun g => g.(GEnd) < start) b
      /\ g.(GStart) < end_ /\ start <= g.(GEnd)
  end.
Proof.
  induction gs as [|g gs IH]; intros before r <- Hb; cbn [findGap]; [done|].
  destruct (Z.leb_spec end_ g.(GStart)).
  { exists [], g, gs. by split_and!. }
  destruct (Z.ltb_spec g.(GStart) end_); [|lia]. cbn [andb].
  destruct (Z.leb_spec start g.(GEnd)); [by split_and!|].
  specialize (IH (before ++ [g]) _ eq_refl). rewrite <- app_assoc in IH.
  assert (Hb' : Forall (fun g => g.(GEnd) < start) (before ++ [g])) by (apply Forall_app_2; auto).
  specialize (IH Hb'). destruct (findGap _ _ _ gs) as [| |b g' after].
  - destruct IH as (sk & g' & after & -> & Hsk & He). exists (g :: sk), g', after.
    split_and!; [done|by constructor|done].
  - by constructor.
  - done.
Qed.

(** The gaps from [gap] to [endGap]: [l] the ones that are removed. *)
Lemma findEnd_spec end_ after : forall same endGap queue,
  StronglySorted gapsep (endGap :: after) -> Forall gap_valid (endGap :: after) ->
  endGap.(GStart) < end_ ->
  (exists g, g ∈ endGap :: after /\ end_ < g.(GEnd)) ->
  exists l eg rest queue' removed,
    endGap :: after = l ++ eg :: rest
    /\ findEnd end_ same endGap after queue
       = Stop queue' (if same && bool_decide (l = []) then None else Some (eg, removed)) rest
    /\ Forall (fun g => g.(GEnd) < end_) l /\ eg.(GStart) < end_
    /\ removed = (eg.(GEnd) <=? end_)
    /\ (eg.(GEnd) <= end_ -> Forall (fun g => end_ <= g.(GStart)) rest)
    /\ (forall k, queue' !! k = if bool_decide (k ∈ GEnd <$> l) then None else queue !! k).
Proof.
  induction after as [|next after IH]; intros same endGap queue Hs Hv Hlt (g & Hg & He); cbn [findEnd].
  - apply list_elem_of_singleton in Hg as ->. destruct (Z.leb_spec endGap.(GEnd) end_); [lia|].
    exists [], endGap, [], queue, false. rewrite (proj2 (Z.leb_gt _ _)) by lia.
    by split_and!; destruct same.
  - pose proof Hs as [Hs' Hsep]%StronglySorted_inv. apply Forall_cons in Hv as [Hv Hvs].
    destruct (Z.leb_spec endGap.(GEnd) end_) as [Hle|Hgt].
    2:{ exists [], endGap, (next :: after), queue, false. rewrite (proj2 (Z.leb_gt _ _)) by lia.
        split_and!; try done; [by destruct same|lia]. }
    destruct (Z.leb_spec end_ next.(GStart)) as [Hstop|Hgo].
    { exists [], endGap, (next :: after), queue, true. rewrite (proj2 (Z.leb_le _ _)) by lia.
      split_and!; try done; [by destruct same|]. intros _. constructor; [done|].
      apply StronglySorted_inv in Hs' as [_ Hn]. apply Forall_cons in Hvs as [Hnv _].
      eapply Forall_impl; [exact Hn|]. unfold gapsep, gap_valid in *. simpl. lia. }
    apply Forall_cons in Hsep as [Hsep _]. unfold gapsep in Hsep.
    destruct (IH false next (delete endGap.(GEnd) queue) Hs' Hvs Hgo) as
      (l & eg & rest & queue' & removed & E1 & E2 & Hl & Heg & Hrem & Hrest & Hq).
    { exists g. split; [|done]. apply elem_of_cons in Hg as [->|]; [lia|done]. }
    exists (endGap :: l), eg, rest, queue', removed. rewrite E1, E2. cbn [andb].
    split_and!; try done.
    + by rewrite andb_false_r.
    + constructor; [lia|done].
    + intros k. rewrite Hq, fmap_cons. destruct (decide (k = endGap.(GEnd))) as [->|Hne].
      * rewrite lookup_delete_eq, (bool_decide_true (_ ∈ _ :: _)) by (apply elem_of_cons; by left).
        destruct (bool_decide (endGap.(GEnd) ∈ GEnd <$> l)); reflexivity.
      * rewrite lookup_delete_ne by done.
        rewrite (bool_decide_ext (k ∈ endGap.(GEnd) :: _) (k ∈ GEnd <$> l)); [done|].
        rewrite elem_of_cons. naive_solver.
Qed.

(** ** Well-formed gap lists *)

Definition gaps_wf (gs : list ByteInterval) : Prop := StronglySorted gapsep gs /\ Forall gap_valid gs.

Lemma gaps_wf_app gs1 gs2 :
  gaps_wf (gs1 ++ gs2) <->
  gaps_wf gs1 /\ gaps_wf gs2 /\ (forall a b, a ∈ gs1 -> b ∈ gs2 -> gapsep a b).
Proof. unfold gaps_wf. rewrite StronglySorted_app, Forall_app. naive_solver. Qed.

Lemma gaps_wf_cons g gs :
  gaps_wf (g :: gs) <-> gap_valid g /\ gaps_wf gs /\ Forall (gapsep g) gs.
Proof.
  unfold gaps_wf. rewrite Forall_cons. split.
  - intros [[? ?]%StronglySorted_inv ?]. tauto.
  - intros (? & [? ?] & ?). split; [by constructor|tauto].
Qed.

(** The end of a gap is received. *)
Lemma gap_end_received gs g : gaps_wf gs -> g ∈ gs -> ~ inGap gs g.(GEnd).
Proof.
  intros Hwf Hg (h & Hh & Hx). apply list_elem_of_split in Hg as (l1 & l2 & ->).
  apply gaps_wf_app in Hwf as (H1 & (Hv & H2 & Hs)%gaps_wf_cons & Hsep).
  apply elem_of_app in Hh as [Hh|[->|Hh]%elem_of_cons]; [|lia|].
  - specialize (Hsep h g Hh ltac:(by left)). unfold gapsep in Hsep. unfold gap_valid in Hv. lia.
  - rewrite Forall_forall in Hs. specialize (Hs h Hh). unfold gapsep in Hs. lia.
Qed.

(** What remains of the gaps from [gap] to [eg]. *)
Definition loGap (s : Z) (gap : ByteInterval) : list ByteInterval :=
  if gap.(GStart) <? s then [mkGap gap.(GStart) s] else [].
Definition hiGap (e : Z) (eg : ByteInterval) : list ByteInterval :=
  if e <? eg.(GEnd) then [mkGap e eg.(GEnd)] else [].

Lemma closeGaps_same s e gap :
  gap.(GStart) <= s < gap.(GEnd) -> s < e -> e <= gap.(GEnd) ->
  closeGaps s e gap None = loGap s gap ++ hiGap e gap.
Proof. intros. unfold closeGaps, loGap, hiGap. zcases; try lia; done. Qed.

Lemma closeGaps_other s e gap eg :
  gap.(GStart) <= s < gap.(GEnd) -> gap.(GEnd) < e -> e <= eg.(GEnd) ->
  closeGaps s e gap (Some (eg, eg.(GEnd) <=? e)) = loGap s gap ++ hiGap e eg.
Proof. intros. unfold closeGaps, loGap, hiGap. zcases; try lia; done. Qed.

Lemma loGap_elem s gap g : g ∈ loGap s gap -> g = mkGap gap.(GStart) s /\ gap.(GStart) < s.
Proof. unfold loGap. zcases; [intros ->%list_elem_of_singleton|intros ?%elem_of_nil]; done. Qed.
Lemma hiGap_elem e eg g : g ∈ hiGap e eg -> g = mkGap e eg.(GEnd) /\ e < eg.(GEnd).
Proof. unfold hiGap. zcases; [intros ->%list_elem_of_singleton|intros ?%elem_of_nil]; done. Qed.

Lemma inGap_loGap s gap x : inGap (loGap s gap) x <-> gap.(GStart) <= x < s.
Proof. unfold loGap. zcases; rewrite ?inGap_cons, inGap_nil; simpl; lia. Qed.
Lemma inGap_hiGap e eg x : inGap (hiGap e eg) x <-> e <= x < eg.(GEnd).
Proof. unfold hiGap. zcases; rewrite ?inGap_cons, inGap_nil; simpl; lia. Qed.

Lemma gaps_wf_loGap s gap : 0 <= gap.(GStart) -> s <= MaxByteCount -> gaps_wf (loGap s gap).
Proof.
  intros. unfold loGap. zcases; split; repeat constructor; simpl; lia.
Qed.
Lemma gaps_wf_hiGap e eg : 0 <= e -> eg.(GEnd) <= MaxByteCount -> gaps_wf (hiGap e eg).
Proof.
  intros. unfold hiGap. zcases; split; repeat constructor; simpl; lia.
Qed.

(** The gaps [gap .. eg] are [l ++ [eg]]; the bytes of [s, e) are received. *)
Lemma shrink_order before l eg rest gap :
  gaps_wf (before ++ l ++ eg :: rest) -> head (l ++ [eg]) = Some gap ->
  (forall b, b ∈ before -> b.(GEnd) < gap.(GStart))
  /\ (forall h, h ∈ l -> gap.(GStart) <= h.(GStart) /\ gap.(GEnd) <= h.(GEnd) /\ h.(GEnd) < eg.(GStart))
  /\ (forall r, r ∈ rest -> eg.(GEnd) < r.(GStart))
  /\ gap_valid gap /\ gap_valid eg /\ gap.(GStart) <= eg.(GStart)
  /\ (l = [] -> gap = eg) /\ (l <> [] -> gap.(GEnd) < eg.(GStart)).
Proof.
  rewrite gaps_wf_app, gaps_wf_app, gaps_wf_cons.
  intros (Hb & ((Hl & (Heg & Hr & Her) & Hle) & Hbl)) Hhd.
  assert (Hgap : gap ∈ l ++ eg :: rest).
  { destruct l; simplify_eq/=; left. }
  assert (Hleg : forall h, h ∈ l -> h.(GEnd) < eg.(GStart)) by (intros h Hh; apply Hle; [done|left]).
  refine (conj _ (conj _ (conj _ _))).
  - intros b Hin. by apply Hbl.
  - intros h Hh. specialize (Hleg h Hh). destruct l as [|g l]; [by apply elem_of_nil in Hh|].
    simplify_eq/=. apply gaps_wf_cons in Hl as (Hv & [_ Hv'] & Hs).
    apply elem_of_cons in Hh as [->|Hh]; [lia|].
    rewrite Forall_forall in Hs, Hv'. specialize (Hs h Hh). specialize (Hv' h Hh).
    unfold gapsep, gap_valid in *. lia.
  - rewrite Forall_forall in Her. intros r Hr'. by apply Her.
  - destruct l as [|g l]; simplify_eq/=; [split_and!; try done; lia|].
    apply gaps_wf_cons in Hl as (Hv & _). specialize (Hleg gap ltac:(left)).
    destruct Hv. split_and!; try done; lia.
Qed.

Lemma shrink_wf before l eg rest gap s e :
  gaps_wf (before ++ l ++ eg :: rest) -> head (l ++ [eg]) = Some gap ->
  gap.(GStart) <= s < gap.(GEnd) -> s < e -> eg.(GStart) < e <= eg.(GEnd) ->
  gaps_wf (before ++ loGap s gap ++ hiGap e eg ++ rest).
Proof.
  intros Hwf Hhd Hs Hse He.
  destruct (shrink_order _ _ _ _ _ Hwf Hhd) as (Hb & Hl & Hr & Hgv & Hev & Hge & _).
  rewrite !gaps_wf_app, gaps_wf_cons in Hwf. destruct Hwf as (Hwb & (_ & (_ & Hwr & _) & _) & Hbr).
  unfold gap_valid in *. rewrite !gaps_wf_app. split_and!; try done.
  - apply gaps_wf_loGap; lia.
  - apply gaps_wf_hiGap; lia.
  - intros a r [-> ?]%hiGap_elem Hin. apply (Hr r Hin).
  - intros a r [-> ?]%loGap_elem [[-> ?]%hiGap_elem|Hin]%elem_of_app; unfold gapsep; simpl; [lia|].
    specialize (Hr r Hin). lia.
  - intros b r Hin [[-> ?]%loGap_elem|[[-> ?]%hiGap_elem|Hin']%elem_of_app]%elem_of_app;
      unfold gapsep; simpl; [by apply Hb|specialize (Hb b Hin); lia|].
    apply Hbr; [done|]. rewrite elem_of_app, elem_of_cons. tauto.
Qed.

Lemma shrink_inGap before l eg rest gap s e x :
  gaps_wf (before ++ l ++ eg :: rest) -> head (l ++ [eg]) = Some gap ->
  gap.(GStart) <= s < gap.(GEnd) -> s < e -> eg.(GStart) < e <= eg.(GEnd) ->
  inGap (before ++ loGap s gap ++ hiGap e eg ++ rest) x
  <-> inGap (before ++ l ++ eg :: rest) x /\ ~ (s <= x < e).
Proof.
  intros Hwf Hhd Hs Hse He.
  destruct (shrink_order _ _ _ _ _ Hwf Hhd) as (Hb & Hl & Hr & Hgv & Hev & Hge & Hnil & Hcons).
  unfold gap_valid in *. rewrite !inGap_app, inGap_loGap, inGap_hiGap, inGap_cons.
  assert (Hbx : inGap before x -> x < gap.(GStart)).
  { apply inGap_below, Forall_forall. intros b Hin. specialize (Hb b Hin). lia. }
  assert (Hrx : inGap rest x -> eg.(GEnd) <= x).
  { apply inGap_above, Forall_forall. intros r Hin. specialize (Hr r Hin). lia. }
  assert (Hlx : inGap l x -> x < s -> x < gap.(GEnd) -> gap.(GStart) <= x).
  { intros Hx _ _. revert Hx. apply inGap_above, Forall_forall. intros h Hin. by apply Hl. }
  assert (Hle : inGap l x -> x < eg.(GStart)).
  { apply inGap_below, Forall_forall. intros h Hin. specialize (Hl h Hin). lia. }
  assert (Hgx : gap.(GStart) <= x < gap.(GEnd) -> inGap l x \/ eg.(GStart) <= x < eg.(GEnd)).
  { intros Hx. destruct l as [|g l]; simplify_eq/=; [by right|left]. rewrite inGap_cons. by left. }
  assert (eg.(GStart) <= s \/ gap.(GEnd) < eg.(GStart)) as Hcase.
  { destruct l; [rewrite (Hnil eq_refl) in *; lia|right; by apply Hcons]. }
  destruct Hcase as [Hc|Hc].
  - assert (Hl0 : l = []) by (destruct l; [done|]; specialize (Hcons ltac:(done)); lia).
    subst l. rewrite inGap_nil in *. rewrite (Hnil eq_refl) in *.
    destruct (Z.le_gt_cases s x), (Z.lt_ge_cases x e); naive_solver lia.
  - destruct (Z.le_gt_cases s x), (Z.lt_ge_cases x e); naive_solver lia.
Qed.

(** ** Storing a frame *)

(** The frame carries bytes of the stream [D]; a FIN marks its end. *)
Definition sent (D : list Z) (f : StreamFrame.t) : Prop :=
  0 <= f.(StreamFrame.Offset)
  /\ f.(StreamFrame.Offset) + StreamFrame.DataLen f <= Z.of_nat (length D)
  /\ f.(StreamFrame.Data) = take (length f.(StreamFrame.Data)) (drop (Z.to_nat f.(StreamFrame.Offset)) D).

Definition fin_at_end (D : list Z) (f : StreamFrame.t) : Prop :=
  f.(StreamFrame.FinBit) = true ->
  f.(StreamFrame.Offset) + StreamFrame.DataLen f = Z.of_nat (length D).

Definition covers (f : StreamFrame.t) (x : Z) : Prop :=
  f.(StreamFrame.Offset) <= x < f.(StreamFrame.Offset) + StreamFrame.DataLen f.

(** The frames queued from the boundaries [B] on tile the received bytes. *)
Definition tiled (st : store) (rp : Z) (B : Z -> Prop) : Prop :=
  B rp
  /\ (forall g, g ∈ st.(gaps) -> g.(GEnd) < MaxByteCount -> B g.(GEnd))
  /\ (forall x, B x -> rp <= x < MaxByteCount -> ~ inGap st.(gaps) x ->
        exists f, st.(queued) !! x = Some f /\ 0 < StreamFrame.DataLen f
          /\ B (x + StreamFrame.DataLen f)).

Definition entry_ok (D : list Z) (gs : list ByteInterval) (k : Z) (f : StreamFrame.t) : Prop :=
  f.(StreamFrame.Offset) = k /\ sent D f
  /\ (StreamFrame.DataLen f = 0 -> f.(StreamFrame.FinBit) = true)
  /\ (forall x, covers f x -> ~ inGap gs x).

Definition store_inv (D : list Z) (st : store) (rp : Z) : Prop :=
  gaps_wf st.(gaps)
  /\ (forall x, Z.of_nat (length D) <= x < MaxByteCount -> inGap st.(gaps) x)
  /\ (forall x, inGap st.(gaps) x -> rp <= x)
  /\ (forall k f, st.(queued) !! k = Some f -> entry_ok D st.(gaps) k f)
  /\ exists B, tiled st rp B.

Lemma newStore_inv D : Z.of_nat (length D) < MaxByteCount -> store_inv D newStore 0.
Proof.
  intros HD. assert (Hin : forall x, inGap newStore.(gaps) x <-> 0 <= x < MaxByteCount).
  { intros x. cbn [newStore gaps]. rewrite inGap_cons, inGap_nil. cbn [GStart GEnd]. tauto. }
  split_and!.
  - apply gaps_wf_cons. split_and!; [|split|]; by constructor.
  - intros x Hx. apply Hin. lia.
  - intros x Hx%Hin. lia.
  - intros k f. cbn [newStore queued]. by rewrite lookup_empty.
  - exists (fun x => x = 0). split_and!; [done| |].
    + intros g ->%list_elem_of_singleton. cbn [GEnd]. lia.
    + intros x -> Hx []. apply Hin. lia.
Qed.

Lemma sent_cutFront D f n :
  Z.of_nat (length D) < MaxByteCount -> sent D f -> 0 <= n <= StreamFrame.DataLen f ->
  sent D (cutFront f n) /\ (cutFront f n).(StreamFrame.Offset) = f.(StreamFrame.Offset) + n
  /\ StreamFrame.DataLen (cutFront f n) = StreamFrame.DataLen f - n.
Proof.
  intros HD (H0 & Hle & Hd) Hn. unfold MaxByteCount, StreamFrame.DataLen in *.
  unfold sent, cutFront, withData, StreamFrame.DataLen. simpl. rewrite !length_drop. unwrap.
  split_and!; try lia. rewrite Hd at 1. rewrite skipn_firstn_comm, drop_drop.
  f_equal. f_equal. lia.
Qed.

Lemma sent_cutBack D f n :
  sent D f -> 0 <= n <= StreamFrame.DataLen f ->
  sent D (cutBack f n) /\ (cutBack f n).(StreamFrame.Offset) = f.(StreamFrame.Offset)
  /\ StreamFrame.DataLen (cutBack f n) = n.
Proof.
  intros (H0 & Hle & Hd) Hn. unfold StreamFrame.DataLen in *.
  unfold sent, cutBack, withData, StreamFrame.DataLen. simpl. rewrite !length_take.
  split_and!; try lia. rewrite Hd at 1. rewrite take_take. f_equal; lia.
Qed.

(** A received interval [s, e) with its frame: the tiling is extended. *)
Lemma tiled_fill D st rp before l eg rest gap s e queue' f :
  gaps_wf (before ++ l ++ eg :: rest) -> head (l ++ [eg]) = Some gap ->
  gap.(GStart) <= s < gap.(GEnd) -> s < e -> eg.(GStart) < e <= eg.(GEnd) ->
  st.(gaps) = before ++ l ++ eg :: rest ->
  (forall k, queue' !! k = if bool_decide (k ∈ GEnd <$> l) then None else st.(queued) !! k) ->
  f.(StreamFrame.Offset) = s -> StreamFrame.DataLen f = e - s ->
  (exists B, tiled st rp B) -> rp <= gap.(GStart) ->
  (forall k f, st.(queued) !! k = Some f -> entry_ok D st.(gaps) k f) ->
  exists B, tiled (mkStore (<[s := f]> queue') (before ++ loGap s gap ++ hiGap e eg ++ rest)) rp B.
Proof.
  intros Hwf Hhd Hs Hse He Hgs Hq' Hoff Hlen (B & HB0 & HBg & HBt) Hrp Hent.
  destruct (shrink_order _ _ _ _ _ Hwf Hhd) as (Hb & Hl & Hr & Hgv & Hev & Hge & Hnil & Hcons).
  unfold gap_valid in *.
  assert (Hdel : forall k, k <= s \/ e <= k -> queue' !! k = st.(queued) !! k).
  { intros k Hk. rewrite Hq'. case_bool_decide as Hin; [|done]. exfalso.
    apply list_elem_of_fmap in Hin as (h & -> & Hin). specialize (Hl h Hin). lia. }
  assert (Hsin : inGap st.(gaps) s).
  { rewrite Hgs, !inGap_app, inGap_cons. destruct l as [|h l]; simplify_eq/=; [by right; right; left|].
    right; left. rewrite inGap_cons. by left. }
  exists (fun x => (B x /\ ~ (s < x < e)) \/ x = s \/ x = e). split_and!; cbn [gaps queued].
  - left. split; [done|lia].
  - intros g [Hg|[[-> ?]%loGap_elem|[[-> ?]%hiGap_elem|Hg]%elem_of_app]%elem_of_app]%elem_of_app Hm;
      simpl in *; auto.
    + left. split; [apply HBg; [rewrite Hgs; set_solver|done]|]. specialize (Hb g Hg). lia.
    + left. split; [apply HBg; [rewrite Hgs; set_solver|done]|]. lia.
    + left. split; [apply HBg; [rewrite Hgs; set_solver|done]|]. specialize (Hr g Hg).
      assert (gap_valid g) as [??]; [|lia].
      destruct Hwf as [_ Hv]. rewrite Forall_forall in Hv. apply Hv. set_solver.
  - intros x HBx Hx Hnot.
    rewrite (shrink_inGap _ l eg _ gap s e x) in Hnot by done. rewrite <- Hgs in Hnot.
    destruct (decide (x = s)) as [->|Hxs].
    { exists f. rewrite lookup_insert_eq. split_and!; [done|lia|]. right; right. lia. }
    assert (Hxr : x < s \/ e <= x) by (destruct HBx as [[_ ?]|[?|?]]; lia).
    assert (Hng : ~ inGap st.(gaps) x) by (intros ?; apply Hnot; split; [done|lia]).
    assert (HBx' : B x).
    { destruct HBx as [[? _]|[?| -> ]]; [done..|]. destruct (Z.eq_dec e eg.(GEnd)) as [->|Hne].
      - apply HBg; [rewrite Hgs; set_solver|lia].
      - destruct Hng. rewrite Hgs, !inGap_app, inGap_cons. right; right; left. lia. }
    destruct (HBt x HBx' Hx Hng) as (fx & Hfx & Hpos & HBn). exists fx.
    rewrite lookup_insert_ne, Hdel by lia. split_and!; [done|done|]. left. split; [done|].
    destruct (Hent _ _ Hfx) as (Ho & _ & _ & Hfree). intros Hin.
    apply (Hfree s); [|done]. unfold covers. lia.
Qed.

(** What storing the bytes [s, e) means for the gaps. *)
Definition received (gs gs' : list ByteInterval) (s e : Z) : Prop :=
  forall x, inGap gs' x <-> inGap gs x /\ ~ (s <= x < e).

(** The frame that is being read stays where it is. *)
Definition keeps_head (st st' : store) (rp : Z) : Prop :=
  forall f, st.(queued) !! rp = Some f -> 0 < StreamFrame.DataLen f -> st'.(queued) !! rp = Some f.

(** The last gap reaches to the largest offset. *)
Lemma last_gap D st rp before gap after end_ :
  store_inv D st rp -> st.(gaps) = before ++ gap :: after -> Z.of_nat (length D) < MaxByteCount ->
  end_ <= Z.of_nat (length D) -> exists g, g ∈ gap :: after /\ end_ < g.(GEnd).
Proof.
  intros (Hwf & Htail & _) Hgs HD Hend.
  destruct (Htail (MaxByteCount - 1) ltac:(lia)) as (g & Hg & Hx). exists g. split; [|lia].
  rewrite Hgs in *. apply gaps_wf_app in Hwf as (_ & (Hv & _)%gaps_wf_cons & Hsep).
  apply elem_of_app in Hg as [Hg|Hg]; [|done]. specialize (Hsep g gap Hg ltac:(left)).
  unfold gapsep, gap_valid in *. lia.
Qed.

(** The invariant after the interval [s, e) was received and its frame queued. *)
Lemma fill_inv D st rp before l eg rest gap s e queue' f :
  store_inv D st rp -> st.(gaps) = before ++ l ++ eg :: rest -> head (l ++ [eg]) = Some gap ->
  gap.(GStart) <= s < gap.(GEnd) -> s < e -> eg.(GStart) < e <= eg.(GEnd) -> e <= Z.of_nat (length D) ->
  (forall k, queue' !! k = if bool_decide (k ∈ GEnd <$> l) then None else st.(queued) !! k) ->
  sent D f -> f.(StreamFrame.Offset) = s -> StreamFrame.DataLen f = e - s ->
  let gs' := before ++ loGap s gap ++ hiGap e eg ++ rest in
  store_inv D (mkStore (<[s := f]> queue') gs') rp /\ received st.(gaps) gs' s e
  /\ keeps_head st (mkStore (<[s := f]> queue') gs') rp.
Proof.
  intros (Hwf & Htail & Habove & Hent & HB) Hgs Hhd Hs Hse He HeD Hq Hf Hoff Hlen gs'.
  rewrite Hgs in Hwf.
  assert (Hrec : received st.(gaps) gs' s e).
  { intros x. rewrite Hgs. by apply shrink_inGap. }
  destruct (shrink_order _ _ _ _ _ Hwf Hhd) as (_ & _ & _ & Hgv & _).
  assert (Hgap : gap ∈ st.(gaps)) by (rewrite Hgs; destruct l; simplify_eq/=; set_solver).
  assert (Hrp : rp <= gap.(GStart)) by (apply Habove; exists gap; destruct Hgv; split; [done|lia]).
  split; [|split; [done|]]; cycle 1.
  { intros h Hh Hpos. destruct (Hent _ _ Hh) as (Ho & _ & _ & Hfree). cbn [queued].
    rewrite lookup_insert_ne, Hq, bool_decide_false; [done| |].
    - intros (g & Hg & Hgl)%list_elem_of_fmap.
      assert (g ∈ st.(gaps)) by (rewrite Hgs; set_solver).
      destruct Hwf as [_ Hv]. rewrite Forall_forall in Hv. rewrite <- Hgs in Hv.
      destruct (Hv g ltac:(done)) as [? _]. specialize (Habove g.(GStart)).
      assert (rp <= g.(GStart)) by (apply Habove; exists g; split; [done|lia]). lia.
    - intros Heq. apply (Hfree s); [unfold covers; lia|]. exists gap. split; [done|lia]. }
  split_and!; cbn [gaps queued].
  - by apply (shrink_wf before l).
  - intros x Hx. apply Hrec. split; [by apply Htail|lia].
  - intros x [Hx _]%Hrec. by apply Habove.
  - intros k fk [[<- <-]|[Hne Hk]]%lookup_insert_Some.
    + split_and!; [done..|lia|]. intros x Hx [_ Hn]%Hrec. apply Hn. unfold covers in Hx. lia.
    + rewrite Hq in Hk. case_bool_decide; [done|]. destruct (Hent _ _ Hk) as (? & ? & ? & Hfree).
      split_and!; [done..|]. intros x Hx [Hin _]%Hrec. by apply (Hfree x).
  - by eapply (tiled_fill D st rp before l).
Qed.

(** The end gap is the last one that the frame meets. *)
Lemma received_beyond before l eg rest gap gs' s e end_ :
  gaps_wf (before ++ l ++ eg :: rest) -> head (l ++ [eg]) = Some gap -> gap.(GStart) <= s ->
  e = Z.min end_ eg.(GEnd) -> s < e ->
  (eg.(GEnd) <= end_ -> Forall (fun g => end_ <= g.(GStart)) rest) ->
  received (before ++ l ++ eg :: rest) gs' s e -> received (before ++ l ++ eg :: rest) gs' s end_.
Proof.
  intros Hwf Hhd Hs -> Hse Hrest Hr x. rewrite (Hr x).
  split; [|intros [? ?]; split; [done|lia]]. intros [Hin Hn]. split; [done|]. intros Hx. apply Hn.
  split; [lia|]. destruct (Z.lt_ge_cases x eg.(GEnd)); [lia|exfalso]. specialize (Hrest ltac:(lia)).
  destruct (shrink_order _ _ _ _ _ Hwf Hhd) as (Hb & Hl & _ & _ & [? _] & ? & _).
  rewrite !inGap_app, inGap_cons in Hin. destruct Hin as [Hin|[Hin|[?|Hin]]]; [| |lia|].
  - apply (inGap_below gap.(GStart)) in Hin; [lia|]. apply Forall_forall. intros b Hin'.
    specialize (Hb b Hin'). lia.
  - apply (inGap_below eg.(GStart)) in Hin; [lia|]. apply Forall_forall. intros b Hin'.
    specialize (Hl b Hin'). lia.
  - apply (inGap_above end_) in Hin; [lia|done].
Qed.

(** What a push of the bytes [s, e) does to a store that satisfies the invariant. *)
Definition push_ok (D : list Z) (st : store) (rp s e : Z) (o : outcome) : Prop :=
  match o with
  | Stored st' _ => store_inv D st' rp /\ received st.(gaps) st'.(gaps) s e /\ keeps_head st st' rp
  | QueuedFin st' => store_inv D st' rp /\ st'.(gaps) = st.(gaps) /\ e <= s /\ keeps_head st st' rp
  | Rejected st' err =>
      err = errTooManyGapsInReceivedStreamData
      \/ st' = st /\ (err = errDuplicateStreamData \/ err = errEmptyStreamData)
         /\ forall x, s <= x < e -> ~ inGap st.(gaps) x
  end.

(** The frame after the second cut. *)
Definition fitFrame (frame : StreamFrame.t) (end_ endOfEndGap : Z) : StreamFrame.t :=
  if endOfEndGap <? end_
  then cutBack frame (StreamFrame.DataLen frame - (end_ - endOfEndGap)) else frame.

Lemma sent_fitFrame D f end_ e :
  sent D f -> end_ = f.(StreamFrame.Offset) + StreamFrame.DataLen f -> f.(StreamFrame.Offset) <= e ->
  sent D (fitFrame f end_ e)
  /\ (fitFrame f end_ e).(StreamFrame.Offset) = f.(StreamFrame.Offset)
  /\ StreamFrame.DataLen (fitFrame f end_ e) = Z.min end_ e - f.(StreamFrame.Offset).
Proof.
  intros Hf -> He. unfold fitFrame. destruct (Z.ltb_spec e (f.(StreamFrame.Offset) + StreamFrame.DataLen f)).
  - edestruct (sent_cutBack D f) as (? & ? & Hl); [exact Hf| |split_and!; [done..|]]; [|rewrite Hl]; lia.
  - split_and!; [done..|lia].
Qed.

Lemma fillGap_eq noEnd st before gap after frame start end_ l eg rest queue' :
  gaps_wf (before ++ l ++ eg :: rest) -> head (l ++ [eg]) = Some gap ->
  findEnd end_ true gap after st.(queued)
  = Stop queue' (if true && bool_decide (l = []) then None else Some (eg, eg.(GEnd) <=? end_)) rest ->
  gap.(GStart) <= start < gap.(GEnd) -> start < end_ -> eg.(GStart) < end_ ->
  let f' := fitFrame frame end_ eg.(GEnd) in
  let gs' := before ++ loGap start gap ++ hiGap (Z.min end_ eg.(GEnd)) eg ++ rest in
  fillGap noEnd st before gap after frame start end_
  = if MaxStreamFrameSorterGaps <? Z.of_nat (length gs')
    then Rejected (mkStore queue' gs') errTooManyGapsInReceivedStreamData
    else Stored (mkStore (<[f'.(StreamFrame.Offset) := f']> queue') gs') f'.
Proof.
  intros Hwf Hhd Hfind Hs Hse Heg f' gs'. unfold fillGap. rewrite Hfind. subst gs'.
  set (e := Z.min end_ eg.(GEnd)).
  destruct (shrink_order _ _ _ _ _ Hwf Hhd) as (_ & _ & _ & Hgv & Hev & _ & Hnil & Hc).
  set (eo := if true && bool_decide (l = []) then None else Some (eg, eg.(GEnd) <=? end_)).
  assert (Heo : match eo with Some (eg, _) => GEnd eg | None => GEnd gap end = eg.(GEnd)).
  { subst eo. destruct l; simplify_eq/=; done. }
  assert (Hpair : (if eg.(GEnd) <? end_
                   then (cutBack frame (StreamFrame.DataLen frame - (end_ - eg.(GEnd))), end_ - (end_ - eg.(GEnd)))
                   else (frame, end_)) = (f', e)).
  { subst f' e. unfold fitFrame. zcases; f_equal; lia. }
  assert (Hclose : closeGaps start e gap eo = loGap start gap ++ hiGap e eg).
  { subst eo e. destruct l as [|g l]; simplify_eq/=.
    - apply closeGaps_same; lia.
    - replace (eg.(GEnd) <=? end_) with (eg.(GEnd) <=? Z.min end_ eg.(GEnd)) by (zcases; lia).
      specialize (Hc ltac:(done)). destruct Hev. apply closeGaps_other; lia. }
  cbv zeta. rewrite Heo, Hpair, Hclose, <- app_assoc. done.
Qed.

Lemma fillGap_spec D noEnd st rp before gap after frame start end_ :
  store_inv D st rp -> st.(gaps) = before ++ gap :: after -> Z.of_nat (length D) < MaxByteCount ->
  sent D frame -> frame.(StreamFrame.Offset) = start -> end_ = start + StreamFrame.DataLen frame ->
  gap.(GStart) <= start < gap.(GEnd) -> 0 < StreamFrame.DataLen frame ->
  push_ok D st rp start end_ (fillGap noEnd st before gap after frame start end_).
Proof.
  intros Hinv Hgs HD Hf Hoff Hen Hs Hpos.
  assert (Hend : end_ <= Z.of_nat (length D)) by (destruct Hf as (_ & ? & _); lia).
  pose proof (last_gap _ _ _ _ _ _ end_ Hinv Hgs HD Hend) as Hlast.
  pose proof Hinv as (Hwf & _). rewrite Hgs in Hwf. pose proof Hwf as (_ & [Hsorted Hval] & _)%gaps_wf_app.
  destruct (findEnd_spec end_ after true gap st.(queued) Hsorted Hval ltac:(lia) Hlast)
    as (l & eg & rest & queue' & removed & E1 & E2 & Hl & Heg & -> & Hrest & Hq).
  rewrite E1 in Hgs, Hwf.
  assert (Hhd : head (l ++ [eg]) = Some gap) by (destruct l; simplify_eq/=; done).
  destruct (shrink_order _ _ _ _ _ Hwf Hhd) as (_ & _ & _ & Hgv & Hev & Hge & Hn & Hc).
  assert (start < eg.(GEnd)).
  { destruct l; [rewrite (Hn eq_refl) in *|specialize (Hc ltac:(done))]; destruct Hev; lia. }
  rewrite (fillGap_eq noEnd st before gap after frame start end_ l eg rest queue') by (done || lia).
  destruct (_ <? _); [by left|].
  destruct (sent_fitFrame D frame end_ eg.(GEnd)) as (? & Ho & ?); [done|lia..|]. rewrite Ho, Hoff.
  destruct (fill_inv D st rp before l eg rest gap start (Z.min end_ eg.(GEnd)) queue'
              (fitFrame frame end_ eg.(GEnd))) as (Hi & Hr & Hk); try done; try lia.
  { destruct Hev. lia. }
  split_and!; [done| |done]. cbn [gaps]. rewrite Hgs in *.
  eapply received_beyond; try done; lia.
Qed.

(** The rest of [pushStore] once a frame queued at the same offset was cut off. *)
Definition pushCut (noGap noEnd : error) (st : store) (frame : StreamFrame.t) : outcome :=
  let start := frame.(StreamFrame.Offset) in
  let end_ := u64 (frame.(StreamFrame.Offset) + StreamFrame.DataLen frame) in
  match findGap start end_ [] st.(gaps) with
  | Duplicate => Rejected st errDuplicateStreamData
  | NotFound => Rejected st noGap
  | Found before gap after =>
      if start <? gap.(GStart)
      then fillGap noEnd st before gap after (cutFront frame (gap.(GStart) - start)) gap.(GStart) end_
      else fillGap noEnd st before gap after frame start end_
  end.

(** Bytes that were received before make no difference. *)
Lemma push_ok_extend D st rp s s' e o :
  s <= s' -> (forall x, s <= x < s' -> ~ inGap st.(gaps) x) -> s' < e ->
  push_ok D st rp s' e o -> push_ok D st rp s e o.
Proof.
  intros Hs Hfree He. destruct o as [st' f|st'|st' err]; cbn [push_ok].
  - intros (Hi & Hr & Hk). split_and!; [done| |done]. intros x. rewrite (Hr x). specialize (Hfree x).
    split; intros [? ?]; (split; [done|]); [|lia]. intros ?. apply Hfree; [|done]. lia.
  - intros (? & ? & ? & _). lia.
  - intros [->|(-> & Herr & Hx)]; [by left|right]. split_and!; [done..|]. intros x Hxx.
    destruct (Z.lt_ge_cases x s'); [apply Hfree|apply Hx]; lia.
Qed.

(** Between the gaps that end before [s] and the next gap everything is received. *)
Lemma before_gap_free skipped g after s x :
  gaps_wf (skipped ++ g :: after) -> Forall (fun g => g.(GEnd) < s) skipped -> s <= x < g.(GStart) ->
  ~ inGap (skipped ++ g :: after) x.
Proof.
  intros (_ & (Hv & _ & Hs)%gaps_wf_cons & _)%gaps_wf_app Hsk Hx. rewrite inGap_app. intros [Hin|Hin].
  - apply (inGap_below s) in Hin; [lia|]. eapply Forall_impl; [exact Hsk|]. simpl. lia.
  - apply (inGap_above g.(GStart)) in Hin; [lia|]. constructor; [lia|].
    eapply Forall_impl; [exact Hs|]. unfold gapsep, gap_valid in *. simpl. lia.
Qed.

Lemma pushCut_ok D noGap noEnd st rp f :
  store_inv D st rp -> Z.of_nat (length D) < MaxByteCount -> sent D f -> 0 < StreamFrame.DataLen f ->
  (forall g, g ∈ st.(gaps) -> g.(GEnd) <> f.(StreamFrame.Offset)) ->
  push_ok D st rp f.(StreamFrame.Offset) (f.(StreamFrame.Offset) + StreamFrame.DataLen f)
    (pushCut noGap noEnd st f).
Proof.
  intros Hinv HD Hf Hpos Hends. unfold pushCut. pose proof Hf as (Ho & Hle & _).
  set (s := f.(StreamFrame.Offset)) in *. set (n := StreamFrame.DataLen f) in *.
  rewrite (u64_small (s + n)) by (unfold MaxByteCount in HD; lia). pose proof Hinv as (Hwf & Htail & _).
  pose proof (findGap_spec s (s + n) st.(gaps) [] _ eq_refl ltac:(constructor)) as Hfind.
  destruct (findGap s (s + n) [] st.(gaps)) as [| |before gap after].
  - right. split_and!; [done|by left|]. destruct Hfind as (sk & g & after & Hgs & Hsk & Hg).
    rewrite Hgs in *. intros x Hx. eapply before_gap_free; [done..|lia].
  - exfalso. destruct (Htail (MaxByteCount - 1)) as (g & Hg & Hx); [lia|].
    rewrite Forall_forall in Hfind. specialize (Hfind g Hg). simpl in Hfind. lia.
  - cbn [app] in Hfind. destruct Hfind as (Hgs & Hb & Hgap & Hsg).
    assert (Hlt : s < gap.(GEnd)).
    { specialize (Hends gap). rewrite Hgs in Hends. specialize (Hends ltac:(set_solver)). lia. }
    destruct (Z.ltb_spec s gap.(GStart)) as [Hcut|Hin].
    + destruct (sent_cutFront D f (gap.(GStart) - s) HD Hf ltac:(subst n; lia)) as (Hc & Hco & Hcl).
      apply (push_ok_extend _ _ _ _ gap.(GStart)); [lia| |lia|].
      { intros x Hx. rewrite Hgs in *. by eapply before_gap_free. }
      rewrite Hgs in Hwf. apply gaps_wf_app in Hwf as (_ & ([Hv _] & _)%gaps_wf_cons & _).
      subst s n. eapply fillGap_spec; try done; lia.
    + subst s n. eapply fillGap_spec; try done; lia.
Qed.

(** The bytes after a gap are queued. *)
Lemma queued_after_gap D st rp g :
  store_inv D st rp -> g ∈ st.(gaps) -> g.(GEnd) < MaxByteCount ->
  gap_valid g /\ exists f, st.(queued) !! g.(GEnd) = Some f /\ 0 < StreamFrame.DataLen f.
Proof.
  intros (Hwf & _ & Habove & _ & B & _ & HBg & HBt) Hg Hm.
  assert (Hv : gap_valid g) by (destruct Hwf as [_ Hv]; rewrite Forall_forall in Hv; by apply Hv).
  assert (rp <= g.(GStart)) by (apply Habove; exists g; destruct Hv; split; [done|lia]).
  split; [done|]. destruct (HBt g.(GEnd)) as (f & ? & ? & _); [by apply HBg|destruct Hv; lia| |by exists f].
  by apply gap_end_received.
Qed.

Lemma pushStore_ok D noGap noEnd st rp f :
  store_inv D st rp -> Z.of_nat (length D) < MaxByteCount -> sent D f -> fin_at_end D f ->
  push_ok D st rp f.(StreamFrame.Offset) (f.(StreamFrame.Offset) + StreamFrame.DataLen f)
    (pushStore noGap noEnd st f).
Proof.
  intros Hinv HD Hf Hfin. unfold pushStore. pose proof Hf as (Ho & Hle & _).
  pose proof Hinv as (Hwf & Htail & Habove & Hent & B & HB0 & HBg & HBt).
  assert (Hn0 : 0 <= StreamFrame.DataLen f) by (unfold StreamFrame.DataLen; lia).
  destruct (Z.eqb_spec (StreamFrame.DataLen f) 0) as [Hz|Hnz].
  - destruct f.(StreamFrame.FinBit) eqn:Hb.
    2:{ right. split_and!; [done|by right|]. intros x Hx. lia. }
    specialize (Hfin Hb). split_and!; [|done|lia|].
    2:{ intros g Hg Hpos. destruct (Hent _ _ Hg) as (Hgo & (_ & ? & _) & _). cbn [queued].
        rewrite lookup_insert_ne; [done|]. lia. }
    split_and!; cbn [queued gaps]; try done.
    + intros k g [[<- <-]|[_ Hk]]%lookup_insert_Some; [|by apply Hent].
      split_and!; [done..|]. unfold covers. intros x. lia.
    + exists B. split_and!; [done..|]. cbn [queued gaps]. intros x HBx Hx Hng.
      destruct (HBt x HBx Hx Hng) as (g & Hg & ? & ?). exists g.
      rewrite lookup_insert_ne; [done|]. intros <-. apply Hng, Htail. lia.
  - destruct (st.(queued) !! f.(StreamFrame.Offset)) as [old|] eqn:Hold.
    + destruct (Hent _ _ Hold) as (Hoo & (_ & Hol & _) & _ & Hfree). unfold covers in Hfree. rewrite Hoo in *.
      destruct (Z.leb_spec (StreamFrame.DataLen f) (StreamFrame.DataLen old)).
      { right. split_and!; [done|by left|]. intros x Hx. apply Hfree. lia. }
      assert (Hold0 : 0 <= StreamFrame.DataLen old) by (unfold StreamFrame.DataLen; lia).
      destruct (sent_cutFront D f (StreamFrame.DataLen old) HD Hf ltac:(lia)) as (Hc & Hco & Hcl).
      apply (push_ok_extend _ _ _ _ (f.(StreamFrame.Offset) + StreamFrame.DataLen old)); [lia|done|lia|].
      rewrite <- Hco. replace (f.(StreamFrame.Offset) + StreamFrame.DataLen f) with
        ((cutFront f (StreamFrame.DataLen old)).(StreamFrame.Offset)
         + StreamFrame.DataLen (cutFront f (StreamFrame.DataLen old))) by lia.
      apply pushCut_ok; [done..|lia|]. intros g Hg He. rewrite Hco in He.
      destruct (queued_after_gap _ _ _ _ Hinv Hg ltac:(lia)) as ([Hv _] & g' & Hg' & Hpos).
      rewrite He in Hg'. destruct (decide (StreamFrame.DataLen old = 0)) as [Hz|].
      { rewrite Hz, Z.add_0_r in Hg'. simplify_eq. lia. }
      apply (Hfree (g.(GEnd) - 1)); [lia|]. exists g. split; [done|lia].
    + apply pushCut_ok; [done..|lia|]. intros g Hg He.
      destruct (queued_after_gap _ _ _ _ Hinv Hg ltac:(lia)) as (_ & g' & Hg' & _). congruence.
Qed.

(** ** Runs of a reliable sorter *)

Module SorterProofs.
Import StreamFrameSorter.

Inductive op : Type :=
| OpPush (f : StreamFrame.t) (flag : bool) (now : Z)
| OpPop (now : Z).

(** One operation, with the bytes it delivers.  As in [stream.AddStreamFrame] an
    error other than a duplicate ends the run. *)
Definition step (s : t) (o : op) : res (t * list Z) :=
  match o with
  | OpPush f flag now =>
      match Push s f flag now with
      | (s', None) => Ok (s', [])
      | (s', Some e) => if decide (e = errDuplicateStreamData) then Ok (s', []) else Err e
      end
  | OpPop now =>
      match Pop s now with
      | Ok (s', Some f) => Ok (s', f.(StreamFrame.Data))
      | Ok (s', None) => Ok (s', [])
      | Err e => Err e
      | Panic => Panic
      end
  end.

Fixpoint run (s : t) (ops : list op) : res (t * list Z) :=
  match ops with
  | [] => Ok (s, [])
  | o :: ops =>
      p ← step s o; q ← run p.1 ops; Ok (q.1, p.2 ++ q.2)
  end.

(** The peer sends bytes of the stream [D]. *)
Definition honest (D : list Z) (o : op) : Prop :=
  match o with OpPush f _ _ => sent D f /\ fin_at_end D f | OpPop _ => True end.

Definition pushed (ops : list op) (x : Z) : Prop :=
  exists f flag now, OpPush f flag now ∈ ops /\ covers f x.

Definition sorter_inv (D : list Z) (s : t) : Prop :=
  store_inv D s.(st) s.(readPosition) /\ s.(unreliableMarker) = false
  /\ 0 <= s.(readPosition) <= Z.of_nat (length D).

Definition slice (D : list Z) (from to : Z) : list Z :=
  take (Z.to_nat (to - from)) (drop (Z.to_nat from) D).

Lemma slice_app D a b c : 0 <= a <= b -> b <= c -> slice D a b ++ slice D b c = slice D a c.
Proof.
  intros. unfold slice. replace (Z.to_nat (c - a)) with (Z.to_nat (b - a) + Z.to_nat (c - b))%nat by lia.
  rewrite <- take_take_drop, drop_drop. repeat f_equal. lia.
Qed.

Lemma slice_nil D a : slice D a a = [].
Proof. unfold slice. by rewrite Z.sub_diag. Qed.

(** One operation keeps the invariant; a push fills gaps, a pop delivers the next bytes. *)
Lemma Push_inv D s f flag now s' err :
  Z.of_nat (length D) < MaxByteCount -> sorter_inv D s -> sent D f -> fin_at_end D f ->
  Push s f flag now = (s', err) ->
  err = Some errTooManyGapsInReceivedStreamData
  \/ (err = None \/ err = Some errDuplicateStreamData \/ err = Some errEmptyStreamData)
     /\ sorter_inv D s' /\ s'.(readPosition) = s.(readPosition)
     /\ received s.(st).(gaps) s'.(st).(gaps) f.(StreamFrame.Offset)
          (f.(StreamFrame.Offset) + StreamFrame.DataLen f)
     /\ keeps_head s.(st) s'.(st) s.(readPosition).
Proof.
  intros HD (Hinv & Hu & Hrp) Hf Hfin. unfold Push.
  pose proof (pushStore_ok D errNoGap errNoEndGap s.(st) s.(readPosition) f Hinv HD Hf Hfin) as Hok.
  destruct (pushStore _ _ _ f) as [st' f'|st'|st' e]; cbn [push_ok] in Hok.
  - destruct Hok as (Hi & Hr & Hk). case_match; intros [= <- <-]; right; split_and!; auto; try split_and!; simpl; done || lia.
  - destruct Hok as (Hi & Hg & He & Hk). intros [= <- <-]. right. split_and!; [by left|split_and!; simpl; done || lia|done| |done].
    simpl. rewrite Hg. intros x. split; [intros; split; [done|lia]|tauto].
  - intros [= <- <-]. destruct Hok as [->|(-> & He & Hfree)]; [by left|right].
    split_and!; [destruct He; subst; auto|split_and!; simpl; done || lia|done| |by intros ? ?].
    simpl. intros x. specialize (Hfree x). tauto.
Qed.

(** The store once the frame at the read position is taken out. *)
Lemma popStore_inv D s f :
  Z.of_nat (length D) < MaxByteCount -> store_inv D s.(st) s.(readPosition) ->
  s.(readPosition) <= Z.of_nat (length D) ->
  s.(st).(queued) !! s.(readPosition) = Some f ->
  store_inv D (mkStore (delete s.(readPosition) s.(st).(queued)) s.(st).(gaps))
    (s.(readPosition) + StreamFrame.DataLen f)
  /\ (~ inGap s.(st).(gaps) s.(readPosition) -> 0 < StreamFrame.DataLen f).
Proof.
  intros HD (Hwf & Htail & Habove & Hent & B & HB0 & HBg & HBt) Hrp Hq.
  destruct (Hent _ _ Hq) as (Ho & _ & _ & Hfree). unfold covers in Hfree. rewrite Ho in Hfree.
  set (rp := s.(readPosition)) in *. set (n := StreamFrame.DataLen f) in *.
  assert (0 <= n) by (unfold n, StreamFrame.DataLen; lia).
  assert (Hnext : ~ inGap s.(st).(gaps) rp -> 0 < n /\ B (rp + n)).
  { intros Hng. destruct (HBt rp HB0 ltac:(lia) Hng) as (g & Hg & ? & ?). simplify_eq. done. }
  assert (Hstay : inGap s.(st).(gaps) rp -> n = 0).
  { intros Hin. destruct (decide (n = 0)); [done|]. exfalso. apply (Hfree rp); [lia|done]. }
  split; [|by intros [? _]%Hnext]. split_and!; cbn [gaps queued]; try done.
  - intros x Hx. specialize (Habove x Hx). specialize (Hfree x).
    destruct (Z.lt_ge_cases x (rp + n)); [|lia]. exfalso. apply Hfree; [lia|done].
  - intros k g [Hk ?]%lookup_delete_Some. by apply Hent.
  - exists B. assert (Hor : inGap s.(st).(gaps) rp \/ B (rp + n)).
    { destruct (decide (n = 0)) as [Hz|]; [rewrite Hz, Z.add_0_r; by right|]. right.
      apply Hnext. intros ?%Hstay. done. }
    split_and!; cbn [gaps queued]; [|done|].
    + destruct Hor as [Hin|]; [|done]. by rewrite (Hstay Hin), Z.add_0_r.
    + intros x HBx Hx Hng. destruct (HBt x HBx ltac:(lia) Hng) as (g & Hg & ? & ?).
      exists g. rewrite lookup_delete_ne; [done|]. intros <-. apply Hnext in Hng. lia.
Qed.

Lemma Pop_inv D s now :
  Z.of_nat (length D) < MaxByteCount -> sorter_inv D s ->
  exists s' f, Pop s now = Ok (s', f) /\ sorter_inv D s' /\ s'.(st).(gaps) = s.(st).(gaps)
    /\ s.(readPosition) <= s'.(readPosition)
    /\ match f with Some f => f.(StreamFrame.Data) | None => [] end
       = slice D s.(readPosition) s'.(readPosition)
    /\ (~ inGap s.(st).(gaps) s.(readPosition) -> s.(readPosition) < s'.(readPosition)).
Proof.
  intros HD (Hinv & Hu & Hrp). pose proof Hinv as (_ & _ & _ & Hent & B & HB0 & _ & HBt).
  unfold Pop, Head. rewrite Hu.
  destruct (s.(st).(queued) !! s.(readPosition)) as [f|] eqn:Hq.
  - destruct (popStore_inv D s f HD Hinv ltac:(lia) Hq) as [Hinv' Hpos].
    destruct (Hent _ _ Hq) as (Ho & (_ & Hle & Hd) & _). rewrite Ho in *.
    set (n := StreamFrame.DataLen f) in *. assert (0 <= n) by (unfold n, StreamFrame.DataLen; lia).
    destruct (match s.(sortedOffset) with [] => _ | _ => _ end) as [times sorted].
    rewrite (u64_small (s.(readPosition) + n)) by (unfold MaxByteCount in HD; lia).
    eexists _, (Some f). split; [reflexivity|]. cbn [st readPosition gaps]. split_and!; try done; try lia.
    + split_and!; cbn [st readPosition unreliableMarker]; done || lia.
    + rewrite Hd. unfold slice. f_equal. unfold n, StreamFrame.DataLen. lia.
    + intros ?%Hpos. lia.
  - exists s, None. rewrite slice_nil. split_and!; try done; try lia. intros Hng.
    destruct (HBt _ HB0 ltac:(lia) Hng) as (g & Hg & _). congruence.
Qed.

(** What the operations [ops] do from the state [s]. *)
Definition run_ok (D : list Z) (s : t) (ops : list op) (r : res (t * list Z)) : Prop :=
  match r with
  | Ok (s', out) => sorter_inv D s' /\ s.(readPosition) <= s'.(readPosition)
      /\ out = slice D s.(readPosition) s'.(readPosition)
      /\ (forall x, inGap s'.(st).(gaps) x <-> inGap s.(st).(gaps) x /\ ~ pushed ops x)
  | Err e => e = errTooManyGapsInReceivedStreamData \/ e = errEmptyStreamData
  | Panic => False
  end.

Lemma pushed_push f flag now x : pushed [OpPush f flag now] x <-> covers f x.
Proof.
  split; [intros (? & ? & ? & [= -> -> ->]%list_elem_of_singleton & ?); done|].
  intros ?. exists f, flag, now. split; [left|done].
Qed.

Lemma pushed_pop now x : ~ pushed [OpPop now] x.
Proof. by intros (? & ? & ? & ?%list_elem_of_singleton & _). Qed.

Lemma pushed_cons o ops x : pushed (o :: ops) x <-> pushed [o] x \/ pushed ops x.
Proof.
  unfold pushed. setoid_rewrite list_elem_of_singleton. setoid_rewrite elem_of_cons. naive_solver.
Qed.

Lemma step_ok D s o :
  Z.of_nat (length D) < MaxByteCount -> sorter_inv D s -> honest D o -> run_ok D s [o] (step s o).
Proof.
  intros HD Hinv Ho. destruct o as [f flag now|now]; cbn [step].
  - destruct (Push s f flag now) as [s' err] eqn:HP. destruct Ho as [Hf Hfin].
    destruct (Push_inv _ _ _ _ _ _ _ HD Hinv Hf Hfin HP) as [->|(Herr & Hi & Hrp & Hr & _)];
      [rewrite decide_False by done; by left|].
    assert (Hgoal : run_ok D s [OpPush f flag now] (Ok (s', []))).
    { cbn [run_ok]. rewrite Hrp, slice_nil. split_and!; [done|lia|done|]. intros x.
      by rewrite (Hr x), pushed_push. }
    destruct Herr as [->|[->| ->]]; [done|by rewrite decide_True|]. rewrite decide_False by done. by right.
  - destruct (Pop_inv D s now HD Hinv) as (s' & f & -> & Hi & Hg & Hle & Hout & _).
    assert (Hgoal : run_ok D s [OpPop now]
                      (Ok (s', match f with Some f => f.(StreamFrame.Data) | None => [] end))).
    { split_and!; try done. intros x. pose proof (pushed_pop now x). rewrite Hg. tauto. }
    by destruct f.
Qed.

Lemma run_inv D ops : forall s,
  Z.of_nat (length D) < MaxByteCount -> sorter_inv D s -> Forall (honest D) ops ->
  run_ok D s ops (run s ops).
Proof.
  induction ops as [|o ops IH]; intros s HD Hinv Hops; cbn [run].
  { cbn [run_ok]. rewrite slice_nil. split_and!; [done|lia|done|]. intros x. split; [|tauto].
    intros Hx. split; [done|]. by intros (? & ? & ? & ?%elem_of_nil & _). }
  apply Forall_cons in Hops as [Ho Hops]. pose proof (step_ok D s o HD Hinv Ho) as Hstep.
  unfold mbind, res_bind. destruct (step s o) as [[s1 out1]|e|]; [|done..].
  destruct Hstep as (Hi1 & Hle1 & -> & Hg1). cbn [fst snd]. specialize (IH s1 HD Hi1 Hops).
  destruct (run s1 ops) as [[s2 out2]|e|]; [|done..]. destruct IH as (Hi2 & Hle2 & -> & Hg2).
  cbn [fst snd]. destruct Hinv as (_ & _ & Hrp).
  split_and!; [done|lia|by rewrite slice_app by lia|].
  intros x. rewrite Hg2, Hg1, (pushed_cons o ops). tauto.
Qed.

Lemma new_inv D : Z.of_nat (length D) < MaxByteCount -> sorter_inv D (new false).
Proof. intros HD. split_and!; [by apply newStore_inv|done|simpl; lia..]. Qed.

Lemma inGap_new x : inGap newStore.(gaps) x <-> 0 <= x < MaxByteCount.
Proof. cbn [newStore gaps]. rewrite inGap_cons, inGap_nil. cbn [GStart GEnd]. tauto. Qed.

(** C1: a reliable sorter reads back the stream.  For every stream content [D]
    shorter than the largest offset and every sequence of pushes of frames of
    [D] (in any order, repeated, overlapping) and pops: no operation panics; a
    run ends early only with too many gaps or an empty frame without FIN; the
    popped bytes are exactly the first [readPosition] bytes of [D]; the gap list
    is exactly the set of the bytes that no frame brought; and when the byte at
    the read position was received, the next [Head] is a non-empty frame. *)
Theorem sorter_delivers (D : list Z) (ops : list op) (now : Z)
  (HD : Z.of_nat (length D) < MaxByteCount) (Hops : Forall (honest D) ops) :
  match run (new false) ops with
  | Ok (s, out) =>
      out = take (Z.to_nat s.(readPosition)) D /\ Z.of_nat (length out) = s.(readPosition)
      /\ (forall x, 0 <= x < MaxByteCount -> inGap s.(st).(gaps) x <-> ~ pushed ops x)
      /\ (pushed ops s.(readPosition) ->
          exists f, Head s now = Ok (s, Some f) /\ 0 < StreamFrame.DataLen f)
  | Err e => e = errTooManyGapsInReceivedStreamData \/ e = errEmptyStreamData
  | Panic => False
  end.
Proof.
  pose proof (run_inv D ops (new false) HD (new_inv D HD) Hops) as Hrun.
  destruct (run (new false) ops) as [[s out]|e|]; [|done..]. destruct Hrun as (Hi & Hle & -> & Hg).
  pose proof Hi as ((_ & _ & _ & Hent & B & HB0 & _ & HBt) & Hu & Hrp).
  assert (Hout : slice D 0 s.(readPosition) = take (Z.to_nat s.(readPosition)) D)
    by (unfold slice; by rewrite Z.sub_0_r).
  change (new false).(readPosition) with 0. rewrite Hout. split_and!; [done| | |].
  - rewrite length_take. lia.
  - intros x Hx. rewrite Hg. change (new false).(st) with newStore. rewrite inGap_new. tauto.
  - intros Hp. destruct (HBt _ HB0 ltac:(lia)) as (f & Hq & Hpos & _).
    { rewrite Hg. tauto. }
    exists f. split; [|done]. unfold Head. by rewrite Hq.
Qed.

(** A stream of 30 bytes, its frames and their times. *)
Definition demo : list Z := seqZ 0 30.
Definition frameOf (D : list Z) (off len : Z) (fin : bool) : StreamFrame.t :=
  StreamFrame.mk 5 false fin true off (slice D off (off + len)).

Definition demo_ops : list op :=
  [OpPush (frameOf demo 20 10 true) true 1; OpPush (frameOf demo 5 5 false) true 2;
   OpPush (frameOf demo 12 3 false) true 3; OpPop 4; OpPush (frameOf demo 3 20 false) true 5;
   OpPush (frameOf demo 0 5 false) true 6; OpPop 7; OpPush (frameOf demo 0 5 false) true 8; OpPop 9].

Lemma honest_frameOf D off len fin :
  0 <= off -> 0 <= len -> off + len <= Z.of_nat (length D) ->
  (fin = true -> off + len = Z.of_nat (length D)) ->
  forall flag now, honest D (OpPush (frameOf D off len fin) flag now).
Proof.
  intros Ho Hl Hle Hfin flag now.
  assert (Hlen : length (slice D off (off + len)) = Z.to_nat len).
  { unfold slice. rewrite length_take, length_drop. lia. }
  unfold honest, sent, fin_at_end, frameOf, StreamFrame.DataLen. simpl. rewrite Hlen.
  split_and!; try lia; [|intros ?%Hfin; lia]. unfold slice. f_equal. lia.
Qed.

Lemma demo_honest : Forall (honest demo) demo_ops.
Proof.
  unfold demo_ops. repeat apply Forall_cons_2; try apply Forall_nil_2; try exact I;
    apply honest_frameOf; try done; vm_compute; congruence || done.
Qed.

Lemma sorter_delivers_witness :
  exists s, run (new false) demo_ops = Ok (s, seqZ 0 20) /\ s.(readPosition) = 20
  /\ exists f, Head s 10 = Ok (s, Some f) /\ 0 < StreamFrame.DataLen f.
Proof.
  pose proof (sorter_delivers demo demo_ops 10 ltac:(vm_compute; done) demo_honest) as H.
  destruct (run (new false) demo_ops) as [[s out]|e|] eqn:E; [|exfalso; vm_compute in E; discriminate..].
  exists s. assert (Hs : s.(readPosition) = 20 /\ out = seqZ 0 20).
  { vm_compute in E. injection E as <- <-. split; reflexivity. }
  destruct Hs as [Hrp ->]. destruct H as (_ & _ & _ & H).
  split; [reflexivity|]. split; [exact Hrp|]. apply H. rewrite Hrp.
  exists (frameOf demo 20 10 true), true, 1. split; [left|]. unfold covers. vm_compute. split; congruence.
Defined.

(** ** Everything that was received can be read *)

Lemma run_app ops1 ops2 : forall s,
  run s (ops1 ++ ops2) = (p ← run s ops1; q ← run p.1 ops2; Ok (q.1, p.2 ++ q.2)).
Proof.
  unfold mbind, res_bind. induction ops1 as [|o ops1 IH]; intros s; cbn [app run].
  - cbn [fst snd]. by destruct (run s ops2) as [[]| |].
  - unfold mbind, res_bind. destruct (step s o) as [[s1 o1]| |]; [|done..]. cbn [fst snd]. rewrite IH.
    destruct (run s1 ops1) as [[s2 o2]| |]; [|done..]. cbn [fst snd].
    destruct (run s2 ops2) as [[s3 o3]| |]; [|done..]. cbn [fst snd]. by rewrite app_assoc.
Qed.

Lemma drain D now n : forall s,
  Z.of_nat (length D) < MaxByteCount -> sorter_inv D s ->
  (forall x, 0 <= x < Z.of_nat (length D) -> ~ inGap s.(st).(gaps) x) ->
  exists s' out, run s (replicate n (OpPop now)) = Ok (s', out) /\ sorter_inv D s'
    /\ Z.min (Z.of_nat (length D)) (s.(readPosition) + Z.of_nat n) <= s'.(readPosition)
    /\ out = slice D s.(readPosition) s'.(readPosition).
Proof.
  induction n as [|n IH]; intros s HD Hinv Hfull; cbn [replicate run].
  { exists s, []. rewrite slice_nil. split_and!; [done..|lia|done]. }
  destruct (Pop_inv D s now HD Hinv) as (s1 & f & HP & Hi & Hg & Hle & Hout & Hmore).
  destruct (IH s1 HD Hi) as (s2 & out & Hrun & Hi2 & Hmin & ->); [by rewrite Hg|].
  assert (Hstep : step s (OpPop now) = Ok (s1, slice D s.(readPosition) s1.(readPosition))).
  { cbn [step]. rewrite HP. rewrite <- Hout. by destruct f. }
  unfold mbind, res_bind. rewrite Hstep. cbn [fst snd]. rewrite Hrun. cbn [fst snd].
  exists s2, (slice D s.(readPosition) s2.(readPosition)).
  pose proof Hinv as (_ & _ & Hrp). pose proof Hi as (_ & _ & Hrp1). pose proof Hi2 as (_ & _ & Hrp2).
  assert (Hprog : Z.min (Z.of_nat (length D)) (s.(readPosition) + 1) <= s1.(readPosition)).
  { destruct (Z.lt_ge_cases s.(readPosition) (Z.of_nat (length D))); [|lia].
    specialize (Hmore (Hfull s.(readPosition) ltac:(lia))). lia. }
  assert (Hle2 : s1.(readPosition) <= s2.(readPosition)) by lia.
  split_and!; [|done|lia|done]. rewrite slice_app by lia. done.
Qed.

(** A stream that was received completely is read completely.  When the
    pushed frames cover every byte of [D], in whatever order and with whatever
    overlaps, and the run reported no error, then popping at most once per byte
    delivers all of [D], in order and without loss or repetition. *)
Theorem sorter_delivers_all (D : list Z) (ops : list op) (now : Z)
  (HD : Z.of_nat (length D) < MaxByteCount) (Hops : Forall (honest D) ops)
  (Hrun : is_Ok (run (new false) ops))
  (Hcover : forall x, 0 <= x < Z.of_nat (length D) -> pushed ops x) :
  exists s, run (new false) (ops ++ replicate (length D) (OpPop now)) = Ok (s, D)
    /\ s.(readPosition) = Z.of_nat (length D).
Proof.
  pose proof (run_inv D ops (new false) HD (new_inv D HD) Hops) as Hinv.
  destruct Hrun as [[s out] Hrun]. rewrite Hrun in Hinv. destruct Hinv as (Hi & Hle & -> & Hg).
  destruct (drain D now (length D) s HD Hi) as (s' & out & Hd & Hi' & Hmin & ->).
  { intros x Hx [_ Hn]%Hg. by apply Hn, Hcover. }
  change (new false).(readPosition) with 0 in *.
  pose proof Hi as (_ & _ & Hrp). pose proof Hi' as (_ & _ & Hrp').
  rewrite run_app, Hrun. unfold mbind, res_bind. cbn [fst snd]. rewrite Hd. cbn [fst snd].
  exists s'. assert (Heq : s'.(readPosition) = Z.of_nat (length D)) by lia. split; [|done].
  rewrite slice_app by lia. rewrite Heq. unfold slice. rewrite Z.sub_0_r, Nat2Z.id. cbn [Z.to_nat].
  by rewrite drop_0, firstn_all.
Qed.

Lemma sorter_delivers_all_witness :
  exists s, run (new false) (demo_ops ++ replicate 30 (OpPop 10)) = Ok (s, demo)
    /\ s.(readPosition) = 30.
Proof.
  apply (sorter_delivers_all demo demo_ops 10).
  - vm_compute. done.
  - apply demo_honest.
  - eexists. vm_compute. reflexivity.
  - intros x Hx. change (Z.of_nat (length demo)) with 30 in Hx.
    assert (20 <= x < 30 \/ 3 <= x < 23 \/ 0 <= x < 5) as [H|[H|H]] by lia.
    + exists (frameOf demo 20 10 true), true, 1. split; [left|exact H].
    + exists (frameOf demo 3 20 false), true, 5. split; [do 4 right; left|exact H].
    + exists (frameOf demo 0 5 false), true, 6. split; [do 5 right; left|exact H].
Defined.

(** ** Where the sorter does not do what it means to *)

(** The FIN of a frame whose end was cut off survives on the front part.
    After the last ten bytes, with FIN, and then all twenty bytes, with FIN, the
    frame to be read first holds the bytes 0..9 and is marked as the end of the
    stream, so that a reader stops before the last ten bytes. *)
Theorem fin_kept_on_cut_frame (D : list Z) (HD : length D = 20%nat) (now : Z) :
  exists s f, run (new false) [OpPush (frameOf D 10 10 true) true now; OpPush (frameOf D 0 20 true) true now]
              = Ok (s, [])
    /\ Head s now = Ok (s, Some f) /\ f.(StreamFrame.FinBit) = true
    /\ f.(StreamFrame.Data) = take 10 D
    /\ s.(st).(queued) !! 10 = Some (frameOf D 10 10 true).
Proof.
  do 20 (destruct D as [|? D]; [done|]). destruct D; [|done].
  eexists _, _. split; [vm_compute; reflexivity|]. split; [vm_compute; reflexivity|].
  split_and!; vm_compute; reflexivity.
Qed.

Lemma fin_kept_on_cut_frame_witness :
  exists s f, run (new false)
      [OpPush (frameOf (seqZ 0 20) 10 10 true) true 0; OpPush (frameOf (seqZ 0 20) 0 20 true) true 0]
    = Ok (s, [])
    /\ Head s 0 = Ok (s, Some f) /\ f.(StreamFrame.FinBit) = true /\ f.(StreamFrame.Data) = seqZ 0 10
    /\ s.(st).(queued) !! 10 = Some (frameOf (seqZ 0 20) 10 10 true).
Proof. apply (fin_kept_on_cut_frame (seqZ 0 20)). reflexivity. Defined.

(** The zero filling of an unreliable stream can panic.  Four frames of an
    unreliable stream arrive without a hole, the last one 100 ms after the
    first; once they are read the only gap left is the open end of the stream,
    which the next [Head] tries to fill with 2^64 - 25 zero bytes. *)
Theorem unreliable_Head_panics :
  let zeros off len := StreamFrame.mk 5 true false true off (replicate len 0) in
  let s0 := new true in
  let s1 := (Push s0 (zeros 10 5%nat) true 0).1 in
  let s2 := (Push s1 (zeros 5 15%nat) true 0).1 in
  let s3 := (Push s2 (zeros 0 5%nat) true 0).1 in
  let s4 := (Push s3 (zeros 20 5%nat) true 100000000).1 in
  exists s5 s6 s7 f1 f2 f3,
    Pop s4 100000000 = Ok (s5, Some f1) /\ Pop s5 100000000 = Ok (s6, Some f2)
    /\ Pop s6 100000000 = Ok (s7, Some f3) /\ s7.(readPosition) = 25
    /\ s7.(st).(gaps) = [mkGap 25 MaxByteCount] /\ Head s7 100000000 = Panic.
Proof.
  cbv zeta. do 6 eexists. split; [vm_compute; reflexivity|]. split; [vm_compute; reflexivity|].
  split; [vm_compute; reflexivity|]. split_and!; vm_compute; reflexivity.
Qed.

End SorterProofs.
