(* ===== verification/Stream.v ===== *)
(** * Streams ([stream.go])

    One stream: the buffer of the application's [Write], the sorter the
    application's [Read] takes its bytes from, the flags of its life cycle.  A
    call that waits on a channel is modelled up to the wait: [Read] and [Write]
    return [Blocked], and the code after the wake-up is the same loop again
    ([readLoop] with an empty result, [writeWait]).  The flow control manager of
    the session is threaded through; the callbacks [onData] and [onReset] are the
    events an operation emits.  The channels of capacity one are booleans. *)

From S2P Require Import Prelude ByteOrder Protocol WireFrames WireStream MinMax ConnParams.
From S2P Require Import FlowControl StreamSorter.

Module Stream.

Inductive event : Type :=
| OnData
| OnReset (id offset : Z).

#[global] Instance event_eq_dec : EqDecision event.
Proof. solve_decision. Defined.

Record t : Type := mk {
  streamID : Z;
  ctxDone : bool;
  readPosInFrame : Z;
  writeOffset : Z;
  readOffset : Z;
  err : option error;
  cancelled : bool;
  finishedReading : bool;
  finishedWriting : bool;
  resetLocally : bool;
  resetRemotely : bool;
  frameQueue : StreamFrameSorter.t;
  readChan : bool;
  readDeadline : option Z;
  dataForWriting : option (list Z);
  finSent : bool;
  rstSent : bool;
  writeChan : bool;
  writeDeadline : option Z;
  unreliableMarker : bool
}.

(** ** Field updates *)

Definition set_ctxDone (s : t) : t :=
  mk s.(streamID) true s.(readPosInFrame) s.(writeOffset) s.(readOffset) s.(err) s.(cancelled)
    s.(finishedReading) s.(finishedWriting) s.(resetLocally) s.(resetRemotely) s.(frameQueue)
    s.(readChan) s.(readDeadline) s.(dataForWriting) s.(finSent) s.(rstSent) s.(writeChan)
    s.(writeDeadline) s.(unreliableMarker).

Definition set_err (s : t) (e : option error) : t :=
  mk s.(streamID) s.(ctxDone) s.(readPosInFrame) s.(writeOffset) s.(readOffset) e s.(cancelled)
    s.(finishedReading) s.(finishedWriting) s.(resetLocally) s.(resetRemotely) s.(frameQueue)
    s.(readChan) s.(readDeadline) s.(dataForWriting) s.(finSent) s.(rstSent) s.(writeChan)
    s.(writeDeadline) s.(unreliableMarker).

Definition set_read (s : t) (pos offset : Z) (queue : StreamFrameSorter.t) : t :=
  mk s.(streamID) s.(ctxDone) pos s.(writeOffset) offset s.(err) s.(cancelled)
    s.(finishedReading) s.(finishedWriting) s.(resetLocally) s.(resetRemotely) queue
    s.(readChan) s.(readDeadline) s.(dataForWriting) s.(finSent) s.(rstSent) s.(writeChan)
    s.(writeDeadline) s.(unreliableMarker).

Definition set_flags (s : t) (cancelled finishedReading finishedWriting resetLocally resetRemotely : bool) : t :=
  mk s.(streamID) s.(ctxDone) s.(readPosInFrame) s.(writeOffset) s.(readOffset) s.(err) cancelled
    finishedReading finishedWriting resetLocally resetRemotely s.(frameQueue)
    s.(readChan) s.(readDeadline) s.(dataForWriting) s.(finSent) s.(rstSent) s.(writeChan)
    s.(writeDeadline) s.(unreliableMarker).

Definition set_write (s : t) (data : option (list Z)) (offset : Z) : t :=
  mk s.(streamID) s.(ctxDone) s.(readPosInFrame) offset s.(readOffset) s.(err) s.(cancelled)
    s.(finishedReading) s.(finishedWriting) s.(resetLocally) s.(resetRemotely) s.(frameQueue)
    s.(readChan) s.(readDeadline) data s.(finSent) s.(rstSent) s.(writeChan)
    s.(writeDeadline) s.(unreliableMarker).

Definition set_sent (s : t) (fin rst : bool) : t :=
  mk s.(streamID) s.(ctxDone) s.(readPosInFrame) s.(writeOffset) s.(readOffset) s.(err) s.(cancelled)
    s.(finishedReading) s.(finishedWriting) s.(resetLocally) s.(resetRemotely) s.(frameQueue)
    s.(readChan) s.(readDeadline) s.(dataForWriting) fin rst s.(writeChan)
    s.(writeDeadline) s.(unreliableMarker).

Definition set_deadlines (s : t) (read write : option Z) : t :=
  mk s.(streamID) s.(ctxDone) s.(readPosInFrame) s.(writeOffset) s.(readOffset) s.(err) s.(cancelled)
    s.(finishedReading) s.(finishedWriting) s.(resetLocally) s.(resetRemotely) s.(frameQueue)
    s.(readChan) read s.(dataForWriting) s.(finSent) s.(rstSent) s.(writeChan)
    write s.(unreliableMarker).

Definition signalRead (s : t) : t :=
  mk s.(streamID) s.(ctxDone) s.(readPosInFrame) s.(writeOffset) s.(readOffset) s.(err) s.(cancelled)
    s.(finishedReading) s.(finishedWriting) s.(resetLocally) s.(resetRemotely) s.(frameQueue)
    true s.(readDeadline) s.(dataForWriting) s.(finSent) s.(rstSent) s.(writeChan)
    s.(writeDeadline) s.(unreliableMarker).

Definition signalWrite (s : t) : t :=
  mk s.(streamID) s.(ctxDone) s.(readPosInFrame) s.(writeOffset) s.(readOffset) s.(err) s.(cancelled)
    s.(finishedReading) s.(finishedWriting) s.(resetLocally) s.(resetRemotely) s.(frameQueue)
    s.(readChan) s.(readDeadline) s.(dataForWriting) s.(finSent) s.(rstSent) true
    s.(writeDeadline) s.(unreliableMarker).

(** ** Creation *)

Definition errDeadline : error := ErrorsNew "deadline exceeded".

(** The marker is what [unreliableStreamMark] holds for the stream at this time;
    a missing entry reads as [false]. *)
Definition newStreamType (id : Z) (unreliableStreamMark : gmap Z bool) : t :=
  let marker := default false (unreliableStreamMark !! id) in
  mk id false 0 0 0 None false false false false false (StreamFrameSorter.new marker)
    false None None false false false None marker.

(** The constructor without a session, which leaves the marker at [false]. *)
Definition newStream (id : Z) : t := newStreamType id ∅.

(** ** Reading *)

(** What a call of [Read] came to: the bytes put into the caller's slice and
    the error.  [Blocked]: the call waits on [readChan]. *)
Inductive readResult : Type :=
| ReadBlocked
| ReadReturned (data : list Z) (e : option error)
| ReadPanicked
| ReadOutOfFuel.

Definition expired (deadline : option Z) (now : Z) : bool :=
  match deadline with None => false | Some d => d <=? now end.

Definition bugReadPos (pos len : Z) : error :=
  Errorf "BUG: readPosInFrame (%d) > frame.DataLen (%d) in stream.Read" [pos; len].

Definition state : Type := t * FlowControlManager.mgr * list event.

(** The bytes of [frame] are copied, up to the end of the frame or of the
    caller's slice, which has room for [room] bytes.  The result tells the bytes
    and whether the frame is read to its end, or the error of the check. *)
Definition copyFrame (frame : StreamFrame.t) (room : Z) (now : Z) (st : state)
  : state * (list Z * bool + option error) :=
  let '(s, f, evs) := st in
  let m := Z.min room (StreamFrame.DataLen frame - s.(readPosInFrame)) in
  if StreamFrame.DataLen frame <? s.(readPosInFrame)
  then (st, inr (Some (bugReadPos s.(readPosInFrame) (StreamFrame.DataLen frame))))
  else if s.(readPosInFrame) <? 0 then (st, inr None)
  else
    let data := take (Z.to_nat m) (drop (Z.to_nat s.(readPosInFrame)) frame.(StreamFrame.Data)) in
    let s1 := set_read s (s.(readPosInFrame) + m) (u64 (s.(readOffset) + m)) s.(frameQueue) in
    let f1 := if s.(resetRemotely) then f else (FlowControlManager.AddBytesRead f s.(streamID) m now).1 in
    ((s1, f1, evs ++ [OnData]), inl (data, StreamFrame.DataLen frame <=? s1.(readPosInFrame))).

(** The rest of a round once there is a frame: the copy, and the end of the frame;
    [next] is the next round. *)
Definition readFrame (frame : StreamFrame.t) (room now : Z) (acc : list Z)
    (next : list Z -> state -> state * readResult) (st : state) : state * readResult :=
  match copyFrame frame room now st with
  | (st, inr (Some bug)) => (st, ReadReturned acc (Some bug))
  | (st, inr None) => (st, ReadPanicked)
  | (st, inl (data, false)) => next (acc ++ data) st
  | ((s, f, evs), inl (data, true)) =>
      match StreamFrameSorter.Pop s.(frameQueue) now with
      | Ok (q, _) =>
          let s := set_read s s.(readPosInFrame) s.(readOffset) q in
          if frame.(StreamFrame.FinBit)
          then ((set_flags s s.(cancelled) true s.(finishedWriting) s.(resetLocally) s.(resetRemotely), f, evs),
                ReadReturned (acc ++ data) (Some EOF))
          else next (acc ++ data) (s, f, evs)
      | _ => ((s, f, evs), ReadPanicked)
      end
  end.

(** The loop of [Read]: [acc] are the bytes read so far, [len] is [len(p)]. *)
Fixpoint readLoop (fuel : nat) (len : Z) (now : Z) (acc : list Z) (st : state) : state * readResult :=
  match fuel with
  | O => (st, ReadOutOfFuel)
  | S fuel =>
      if len <=? Z.of_nat (length acc) then (st, ReadReturned acc None)
      else
        let '(s, f, evs) := st in
        match StreamFrameSorter.Head s.(frameQueue) now with
        | Ok (q, head) =>
            let s := set_read s s.(readPosInFrame) s.(readOffset) q in
            match head, acc with
            | None, _ :: _ => ((s, f, evs), ReadReturned acc s.(err))
            | _, _ =>
                (* the wait for a frame *)
                let wait : option (option error * t) :=
                  if s.(resetLocally) || s.(cancelled) then Some (s.(err), s)
                  else if expired s.(readDeadline) now then Some (Some errDeadline, s)
                  else match head with
                       | Some frame =>
                           Some (None, set_read s (i64 (s.(readOffset) - frame.(StreamFrame.Offset)))
                                         s.(readOffset) q)
                       | None => None
                       end in
                match wait, head with
                | None, _ => ((s, f, evs), ReadBlocked)
                | Some (Some e, s), _ => ((s, f, evs), ReadReturned acc (Some e))
                | Some (None, s), None => ((s, f, evs), ReadPanicked)
                | Some (None, s), Some frame =>
                    readFrame frame (len - Z.of_nat (length acc)) now acc (readLoop fuel len now) (s, f, evs)
                end
            end
        | _ => (st, ReadPanicked)
        end
  end.

(** Every round but the last copies a byte, so [len + 1] rounds are enough. *)
Definition Read (len now : Z) (st : state) : state * readResult :=
  let '(s, f, evs) := st in
  if s.(cancelled) || s.(resetLocally) then (st, ReadReturned [] s.(err))
  else if s.(finishedReading) then (st, ReadReturned [] (Some EOF))
  else readLoop (S (Z.to_nat len)) len now [] st.

(** ** Writing *)

Inductive writeResult : Type :=
| WriteBlocked
| WriteReturned (n : Z) (e : option error).

(** [len(s.dataForWriting)], which is 0 for [nil] *)
Definition lenData (s : t) : Z := Z.of_nat (length (default [] s.(dataForWriting))).

(** The loop that waits until the buffer is taken, and the returns after it. *)
Definition writeWait (s : t) (len now : Z) : writeResult :=
  if expired s.(writeDeadline) now then WriteReturned 0 (Some errDeadline)
  else match s.(err) with
       | Some e => WriteReturned (len - lenData s) (Some e)
       | None => match s.(dataForWriting) with
                 | None => WriteReturned len None
                 | Some _ => WriteBlocked
                 end
       end.

Definition errWriteClosed (id : Z) : error := Errorf "write on closed stream %d" [id].

Definition Write (s : t) (p : list Z) (now : Z) : t * list event * writeResult :=
  match s.(err) with
  | Some e => (s, [], WriteReturned 0 (Some e))
  | None =>
      if s.(resetLocally) then (s, [], WriteReturned 0 None)
      else if s.(finishedWriting) then (s, [], WriteReturned 0 (Some (errWriteClosed s.(streamID))))
      else match p with
           | [] => (s, [], WriteReturned 0 None)
           | _ =>
               let s := set_write s (Some p) s.(writeOffset) in
               (s, [OnData], writeWait s (Z.of_nat (length p)) now)
           end
  end.

Definition lenOfDataForWriting (s : t) : Z :=
  match s.(err) with None => lenData s | Some _ => 0 end.

Definition getDataForWriting (s : t) (maxBytes : Z) : t * option (list Z) :=
  match s.(err), s.(dataForWriting) with
  | None, Some data =>
      if maxBytes <? Z.of_nat (length data)
      then
        let ret := take (Z.to_nat maxBytes) data in
        (set_write s (Some (drop (Z.to_nat maxBytes) data)) (u64 (s.(writeOffset) + Z.of_nat (length ret))),
         Some ret)
      else
        (set_write (signalWrite s) None (u64 (s.(writeOffset) + Z.of_nat (length data))), Some data)
  | _, _ => (s, None)
  end.

(** ** Closing and resetting *)

Definition Close (s : t) : t * list event :=
  (set_ctxDone (set_flags s s.(cancelled) s.(finishedReading) true s.(resetLocally) s.(resetRemotely)), [OnData]).

Definition finishedWriteAndSentFin (s : t) : bool := s.(finishedWriting) && s.(finSent).

Definition shouldSendReset (s : t) : bool :=
  if s.(rstSent) then false
  else (s.(resetLocally) || s.(resetRemotely)) && negb (finishedWriteAndSentFin s).

Definition shouldSendFin (s : t) : bool :=
  s.(finishedWriting) && negb s.(finSent)
  && (match s.(err) with None => true | Some _ => false end)
  && (match s.(dataForWriting) with None => true | Some _ => false end).

Definition sentFin (s : t) : t := set_sent s true s.(rstSent).

(** The error of an unreliable stream's [Push] is dropped. *)
Definition AddStreamFrame (s : t) (f : FlowControlManager.mgr) (frame : StreamFrame.t) (now : Z)
  : t * FlowControlManager.mgr * option error :=
  let maxOffset := u64 (frame.(StreamFrame.Offset) + StreamFrame.DataLen frame) in
  let '(f, fcErr) := FlowControlManager.UpdateHighestReceived f s.(streamID) maxOffset in
  match fcErr with
  | Some e => (s, f, Some e)
  | None =>
      let '(q, pushErr) := StreamFrameSorter.Push s.(frameQueue) frame true now in
      let s := set_read s s.(readPosInFrame) s.(readOffset) q in
      let e := if s.(unreliableMarker) then None else pushErr in
      match e with
      | Some e => if decide (e = errDuplicateStreamData) then (signalRead s, f, None) else (s, f, Some e)
      | None => (signalRead s, f, None)
      end
  end.

(** [time.Time.Before] with the zero time before every other *)
Definition before (a b : option Z) : bool :=
  match a, b with
  | _, None => false
  | None, Some _ => true
  | Some a, Some b => a <? b
  end.

Definition SetReadDeadline (s : t) (d : option Z) : t :=
  let s' := set_deadlines s d s.(writeDeadline) in
  if before d s.(readDeadline) then signalRead s' else s'.

Definition SetWriteDeadline (s : t) (d : option Z) : t :=
  let s' := set_deadlines s s.(readDeadline) d in
  if before d s.(writeDeadline) then signalWrite s' else s'.

Definition SetDeadline (s : t) (d : option Z) : t := SetWriteDeadline (SetReadDeadline s d) d.

(** A virtual frame with the FIN bit at the given offset. *)
Definition CloseRemote (s : t) (f : FlowControlManager.mgr) (unreliableStreamMark : gmap Z bool)
    (offset now : Z) : t * FlowControlManager.mgr :=
  let marker := default false (unreliableStreamMark !! s.(streamID)) in
  (AddStreamFrame s f (StreamFrame.mk 0 marker true false offset []) now).1.

Definition Cancel (s : t) (e : option error) : t :=
  let s := set_ctxDone (set_flags s true s.(finishedReading) s.(finishedWriting) s.(resetLocally)
                          s.(resetRemotely)) in
  match s.(err) with
  | None => signalWrite (signalRead (set_err s e))
  | Some _ => s
  end.

(** The RST_STREAM that a reset asks for. *)
Definition sendReset (s : t) : t * list event :=
  if shouldSendReset s then (set_sent s s.(finSent) true, [OnReset s.(streamID) s.(writeOffset)])
  else (s, []).

Definition Reset (s : t) (e : option error) : t * list event :=
  if s.(resetLocally) then (s, [])
  else
    let s := set_ctxDone (set_flags s s.(cancelled) s.(finishedReading) s.(finishedWriting) true
                            s.(resetRemotely)) in
    sendReset (match s.(err) with
               | None => signalWrite (signalRead (set_err s e))
               | Some _ => s
               end).

Definition RegisterRemoteError (s : t) (e : option error) : t * list event :=
  if s.(resetRemotely) then (s, [])
  else
    let s := set_ctxDone (set_flags s s.(cancelled) s.(finishedReading) s.(finishedWriting)
                            s.(resetLocally) true) in
    sendReset (match s.(err) with
               | None => signalWrite (set_err s e)
               | Some _ => s
               end).

Definition finished (s : t) : bool :=
  s.(cancelled)
  || (s.(finishedReading) && finishedWriteAndSentFin s)
  || (s.(resetRemotely) && s.(rstSent))
  || (s.(finishedReading) && s.(rstSent))
  || (finishedWriteAndSentFin s && s.(resetRemotely)).

Definition GetBytesSent (s : t) (f : FlowControlManager.mgr) : res Z :=
  FlowControlManager.GetBytesSent f s.(streamID).
Definition GetBytesRetrans (s : t) (f : FlowControlManager.mgr) : res Z :=
  FlowControlManager.GetBytesRetrans f s.(streamID).

End Stream.
