(* ===== verification/StreamDelivery.v ===== *)
(** * What the application reads

    [stream.Read] on top of the sorter: for every stream content and every
    interleaving of received frames, calls of [Read] and the other operations of
    the stream, the application gets the bytes of the stream in order. *)

From S2P Require Import Prelude ByteOrder Protocol WireFrames WireStream MinMax ConnParams.
From S2P Require Import WireHeader FlowControl StreamSorter StreamSorterProofs Stream.

Module StreamDelivery.
Import Stream.
Import SorterProofs.

(** ** The invariant of the reading side *)

(** The sorter holds frames of [D]; a frame that is partly read is at its head. *)
Definition read_inv (D : list Z) (s : t) : Prop :=
  sorter_inv D s.(frameQueue)
  /\ s.(unreliableMarker) = false
  /\ s.(frameQueue).(StreamFrameSorter.readPosition) <= s.(readOffset) <= Z.of_nat (length D)
  /\ (s.(frameQueue).(StreamFrameSorter.readPosition) < s.(readOffset) ->
      exists f, s.(frameQueue).(StreamFrameSorter.st).(queued)
                  !! s.(frameQueue).(StreamFrameSorter.readPosition) = Some f
        /\ s.(readOffset) < s.(frameQueue).(StreamFrameSorter.readPosition) + StreamFrame.DataLen f)
  /\ (s.(cancelled) || s.(resetLocally) = true -> is_Some s.(err)).

(** The bytes that were not received. *)
Definition missing (s : t) (x : Z) : Prop := inGap s.(frameQueue).(StreamFrameSorter.st).(gaps) x.

(** [Read] can make progress: nothing stopped the stream. *)
Definition readable (s : t) (now : Z) : Prop :=
  s.(cancelled) || s.(resetLocally) = false /\ expired s.(readDeadline) now = false.

(** The errors a call of [Read] may return. *)
Definition read_error (s : t) (e : option error) : Prop :=
  e = None \/ e = Some EOF \/ e = Some errDeadline \/ e = s.(err).

Lemma new_read_inv D id marks :
  Z.of_nat (length D) < 2 ^ 63 -> marks !! id <> Some true -> read_inv D (newStreamType id marks).
Proof.
  intros HD Hm. unfold newStreamType.
  assert (default false (marks !! id) = false) as -> by (destruct (marks !! id) as [[]|]; done).
  split_and!; cbn; try done; try lia. apply new_inv. unfold MaxByteCount. lia.
Qed.

(** ** One round of the loop *)

Lemma Head_reliable s now :
  s.(StreamFrameSorter.unreliableMarker) = false ->
  StreamFrameSorter.Head s now = Ok (s, s.(StreamFrameSorter.st).(queued) !! s.(StreamFrameSorter.readPosition)).
Proof. intros Hu. unfold StreamFrameSorter.Head. rewrite Hu. by destruct (_ !! _). Qed.

Lemma set_read_id s : set_read s s.(readPosInFrame) s.(readOffset) s.(frameQueue) = s.
Proof. by destruct s. Qed.

Lemma length_slice D a b :
  0 <= a <= b -> b <= Z.of_nat (length D) -> Z.of_nat (length (slice D a b)) = b - a.
Proof. intros. unfold slice. rewrite length_take, length_drop. lia. Qed.

(** A part of a frame of [D] is a part of [D]. *)
Lemma sent_slice D f pos m :
  sent D f -> 0 <= pos -> 0 <= m -> pos + m <= StreamFrame.DataLen f ->
  take (Z.to_nat m) (drop (Z.to_nat pos) f.(StreamFrame.Data))
  = slice D (f.(StreamFrame.Offset) + pos) (f.(StreamFrame.Offset) + pos + m).
Proof.
  intros (Ho & Hle & ->) Hp Hm Hlen. unfold slice, StreamFrame.DataLen in *.
  rewrite skipn_firstn_comm, take_take, drop_drop. f_equal; [|f_equal]; lia.
Qed.

(** The head of the sorter is popped. *)
Lemma Pop_head D q f now :
  Z.of_nat (length D) < MaxByteCount -> sorter_inv D q ->
  q.(StreamFrameSorter.st).(queued) !! q.(StreamFrameSorter.readPosition) = Some f ->
  exists q', StreamFrameSorter.Pop q now = Ok (q', Some f) /\ sorter_inv D q'
    /\ q'.(StreamFrameSorter.st).(gaps) = q.(StreamFrameSorter.st).(gaps)
    /\ q'.(StreamFrameSorter.readPosition) = q.(StreamFrameSorter.readPosition) + StreamFrame.DataLen f.
Proof.
  intros HD Hi Hq. destruct (Pop_inv D q now HD Hi) as (q' & f' & HP & Hi' & Hg & Hle & Hd & _).
  assert (f' = Some f) as ->.
  { destruct Hi as (_ & Hu & _). unfold StreamFrameSorter.Pop in HP.
    rewrite Head_reliable, Hq in HP by done. repeat case_match; simplify_eq; done. }
  exists q'. split_and!; try done. destruct Hi as (_ & _ & ?), Hi' as (_ & _ & ?).
  unfold StreamFrame.DataLen. rewrite Hd, length_slice; lia.
Qed.

(** Reading within the frame at the head. *)
Lemma copyFrame_spec D s f evs frame room now :
  Z.of_nat (length D) < 2 ^ 63 -> read_inv D s ->
  s.(frameQueue).(StreamFrameSorter.st).(queued)
    !! s.(frameQueue).(StreamFrameSorter.readPosition) = Some frame ->
  s.(readPosInFrame) = s.(readOffset) - frame.(StreamFrame.Offset) -> 0 < room ->
  exists f1 m, 0 <= m /\ (StreamFrame.DataLen frame <> 0 -> 0 < m) /\ m <= room
    /\ let s1 := set_read s (s.(readPosInFrame) + m) (s.(readOffset) + m) s.(frameQueue) in
       copyFrame frame room now (s, f, evs)
       = ((s1, f1, evs ++ [OnData]),
          inl (slice D s.(readOffset) (s.(readOffset) + m), StreamFrame.DataLen frame <=? s1.(readPosInFrame)))
       /\ s.(readOffset) + m <= frame.(StreamFrame.Offset) + StreamFrame.DataLen frame
       /\ (s.(readOffset) + m < frame.(StreamFrame.Offset) + StreamFrame.DataLen frame -> m = room).
Proof.
  intros HD (Hi & _ & Hro & Hpart & _) Hq Hpos Hroom. pose proof Hi as ((_ & _ & _ & Hent & _) & _ & Hrp).
  destruct (Hent _ _ Hq) as (Ho & Hs & _ & _). set (n := StreamFrame.DataLen frame).
  assert (0 <= n) by (unfold n, StreamFrame.DataLen; lia).
  assert (Hin : s.(readPosInFrame) <= n /\ (n <> 0 -> s.(readPosInFrame) < n)).
  { destruct (decide (s.(frameQueue).(StreamFrameSorter.readPosition) < s.(readOffset))) as [Hlt|].
    - destruct (Hpart Hlt) as (g & Hg & ?). simplify_eq. subst n. lia.
    - lia. }
  pose proof Hs as (_ & Hle & _). fold n in Hle.
  exists (if s.(resetRemotely) then f
          else (FlowControlManager.AddBytesRead f s.(streamID)
                  (Z.min room (n - s.(readPosInFrame))) now).1), (Z.min room (n - s.(readPosInFrame))).
  split_and!; [lia..|]. cbv zeta. split_and!; [|lia..]. unfold copyFrame. fold n.
  destruct (Z.ltb_spec n s.(readPosInFrame)); [lia|]. destruct (Z.ltb_spec s.(readPosInFrame) 0); [lia|].
  rewrite u64_small by lia. rewrite (sent_slice D) by (done || lia).
  replace (frame.(StreamFrame.Offset) + s.(readPosInFrame)) with s.(readOffset) by lia. done.
Qed.

(** What the loop comes to. *)
Definition loop_ok (D : list Z) (len : Z) (s : t) (now : Z) (acc : list Z) (out : state * readResult) : Prop :=
  let '((s', _, _), r) := out in
  read_inv D s' /\ s.(readOffset) <= s'.(readOffset) /\ s'.(err) = s.(err)
  /\ (forall x, missing s' x <-> missing s x)
  /\ match r with
     | ReadBlocked => acc = [] /\ s'.(readOffset) = s.(readOffset) /\ missing s' s'.(readOffset)
                      /\ readable s now
     | ReadReturned data e => data = acc ++ slice D s.(readOffset) s'.(readOffset) /\ read_error s e
         /\ Z.of_nat (length data) <= Z.max len (Z.of_nat (length acc))
         /\ (readable s now -> ~ missing s s.(readOffset) -> Z.of_nat (length acc) < len ->
             s.(readOffset) < s'.(readOffset))
     | ReadPanicked | ReadOutOfFuel => False
     end.

Lemma loop_ok_step D len s s1 now acc m out :
  0 <= s.(readOffset) -> 0 < m -> s.(readOffset) + m <= Z.of_nat (length D) ->
  s1.(readOffset) = s.(readOffset) + m -> s1.(err) = s.(err) -> (forall x, missing s1 x <-> missing s x) ->
  Z.of_nat (length acc) + m <= len ->
  loop_ok D len s1 now (acc ++ slice D s.(readOffset) (s.(readOffset) + m)) out -> loop_ok D len s now acc out.
Proof.
  intros H0 Hm Hle Ho He Hmiss Hroom. destruct out as [[[s' f'] evs'] r]. unfold loop_ok.
  set (d := slice D s.(readOffset) (s.(readOffset) + m)).
  assert (Hd : Z.of_nat (length d) = m) by (unfold d; rewrite length_slice; lia).
  rewrite Ho, He, length_app. intros (Hi & Hr & Herr & Hg & Hres).
  split_and!; [done|lia|done|by intros x; rewrite Hg|].
  destruct r as [|data e| |]; try done.
  - destruct Hres as (Hnil & _). apply app_eq_nil in Hnil as [_ Hnil]. rewrite Hnil in Hd. simpl in Hd. lia.
  - destruct Hres as (-> & Hre & Hlen & _). split_and!.
    + rewrite <- app_assoc. unfold d. rewrite slice_app by lia. done.
    + unfold read_error in *. by rewrite He in Hre.
    + rewrite length_app in *. lia.
    + intros. lia.
Qed.

#[global] Instance inGap_dec gs x : Decision (inGap gs x).
Proof.
  refine (cast_if (decide (Exists (fun g => g.(GStart) <= x < g.(GEnd)) gs)));
    rewrite Exists_exists in *; done.
Defined.

Lemma read_inv_eq D s s' :
  read_inv D s -> s'.(frameQueue) = s.(frameQueue) -> s'.(readOffset) = s.(readOffset) ->
  s'.(unreliableMarker) = s.(unreliableMarker) ->
  (s'.(cancelled) || s'.(resetLocally) = true -> is_Some s'.(err)) -> read_inv D s'.
Proof.
  unfold read_inv. intros (H1 & H2 & H3 & H4 & _) -> -> -> H5.
  exact (conj H1 (conj H2 (conj H3 (conj H4 H5)))).
Qed.

(** The head of the sorter is missing only when its next byte is. *)
Lemma no_head_missing D s :
  Z.of_nat (length D) < 2 ^ 63 -> read_inv D s ->
  s.(frameQueue).(StreamFrameSorter.st).(queued) !! s.(frameQueue).(StreamFrameSorter.readPosition) = None ->
  missing s s.(readOffset).
Proof.
  intros HD (Hi & _ & Hro & Hpart & _) Hq. pose proof Hi as ((_ & _ & _ & _ & B & HB0 & _ & HBt) & _ & Hrp).
  assert (s.(readOffset) = s.(frameQueue).(StreamFrameSorter.readPosition)) as ->.
  { destruct (decide (s.(frameQueue).(StreamFrameSorter.readPosition) < s.(readOffset))) as [Hlt|]; [|lia].
    destruct (Hpart Hlt) as (g & Hg & _). congruence. }
  unfold missing. destruct (decide (inGap s.(frameQueue).(StreamFrameSorter.st).(gaps)
    s.(frameQueue).(StreamFrameSorter.readPosition))) as [|Hn]; [done|].
  destruct (HBt _ HB0) as (g & Hg & _); [unfold MaxByteCount; lia|done|congruence].
Qed.

(** Nothing more is read in this call. *)
Lemma loop_ok_stop D len s f evs now acc e :
  read_inv D s -> read_error s e -> Z.of_nat (length acc) < len ->
  (readable s now -> ~ missing s s.(readOffset) -> False) ->
  loop_ok D len s now acc ((s, f, evs), ReadReturned acc e).
Proof.
  intros Hi He Hlen Hno. cbn [loop_ok]. rewrite slice_nil, app_nil_r.
  split_and!; try done; [lia|]. intros Hr Hm. by destruct (Hno Hr Hm).
Qed.

(** A head that brings no byte leaves the next byte missing. *)
Lemma empty_head_missing D s frame :
  Z.of_nat (length D) < 2 ^ 63 -> read_inv D s ->
  s.(frameQueue).(StreamFrameSorter.st).(queued)
    !! s.(frameQueue).(StreamFrameSorter.readPosition) = Some frame ->
  ~ missing s s.(readOffset) -> StreamFrame.DataLen frame <> 0.
Proof.
  intros HD (Hi & _ & Hro & Hpart & _) Hq Hm Hz. pose proof Hi as (Hst & _ & Hrp).
  destruct (decide (s.(frameQueue).(StreamFrameSorter.readPosition) < s.(readOffset))) as [Hlt|Hge].
  - destruct (Hpart Hlt) as (g & Hg & ?). simplify_eq. lia.
  - destruct (popStore_inv D s.(frameQueue) frame) as [_ Hpos]; [unfold MaxByteCount; lia|done|lia|done|].
    replace s.(readOffset) with s.(frameQueue).(StreamFrameSorter.readPosition) in Hm by lia.
    specialize (Hpos Hm). lia.
Qed.

(** A round that has a frame. *)
Lemma readFrame_ok D len now fuel acc s f evs frame next :
  Z.of_nat (length D) < 2 ^ 63 -> read_inv D s ->
  s.(frameQueue).(StreamFrameSorter.st).(queued)
    !! s.(frameQueue).(StreamFrameSorter.readPosition) = Some frame ->
  s.(readPosInFrame) = s.(readOffset) - frame.(StreamFrame.Offset) ->
  Z.of_nat (length acc) < len -> (Z.to_nat (len - Z.of_nat (length acc)) < S fuel)%nat ->
  (forall acc s f evs, read_inv D s -> (Z.to_nat (len - Z.of_nat (length acc)) < fuel)%nat ->
     loop_ok D len s now acc (next acc (s, f, evs))) ->
  loop_ok D len s now acc (readFrame frame (len - Z.of_nat (length acc)) now acc next (s, f, evs)).
Proof.
  intros HD Hinv Hq Hpos Hroom Hfuel Hnext.
  pose proof Hinv as (Hi & Hrel & Hro & _ & Hstop). pose proof Hi as ((_ & _ & _ & Hent & _) & _ & Hrp).
  destruct (Hent _ _ Hq) as (Ho & (_ & Hle & _) & Hempty & _).
  destruct (copyFrame_spec D s f evs frame (len - Z.of_nat (length acc)) now HD Hinv Hq Hpos ltac:(lia))
    as (f1 & m & Hm0 & Hmpos & Hmle & Hcopy & Hend & Hpartial).
  unfold readFrame. rewrite Hcopy. set (s1 := set_read s _ _ _) in *.
  assert (Hp1 : s1.(readPosInFrame) = s.(readOffset) + m - frame.(StreamFrame.Offset)) by (cbn; lia).
  assert (Hd : Z.of_nat (length (slice D s.(readOffset) (s.(readOffset) + m))) = m)
    by (rewrite length_slice; lia).
  destruct (Z.leb_spec (StreamFrame.DataLen frame) s1.(readPosInFrame)) as [Hall|Hpart].
  - destruct (Pop_head D s.(frameQueue) frame now ltac:(unfold MaxByteCount; lia) Hi Hq) as (q & HP & Hqi & Hg & Hqp).
    change s1.(frameQueue) with s.(frameQueue). rewrite HP. set (s2 := set_read s1 _ _ _).
    assert (Hi2 : read_inv D s2) by (split_and!; cbn; done || lia).
    assert (Hmiss : forall x, missing s2 x <-> missing s x) by (intros x; unfold missing; cbn; by rewrite Hg).
    destruct frame.(StreamFrame.FinBit).
    + cbn [loop_ok]. split; [by apply (read_inv_eq D s2)|].
      split; [cbn; lia|]. split; [done|]. split; [done|]. split; [done|]. split; [right; by left|].
      split; [rewrite length_app; lia|]. intros _ Hm _.
      pose proof (Hmpos (empty_head_missing D s frame HD Hinv Hq Hm)). cbn. lia.
    + assert (0 < m) by (apply Hmpos; intros ?%Hempty; done).
      apply (loop_ok_step D len s s2 now acc m); try done; [lia..|].
      apply Hnext; [done|]. rewrite length_app. lia.
  - assert (m = len - Z.of_nat (length acc)) as Hm by lia.
    apply (loop_ok_step D len s s1 now acc m); try done; [lia..|].
    apply Hnext; [|rewrite length_app; lia]. split_and!; cbn; try done; try lia.
    intros _. exists frame. split; [done|lia].
Qed.

Lemma readLoop_ok D len now fuel : forall acc s f evs,
  Z.of_nat (length D) < 2 ^ 63 -> read_inv D s -> (Z.to_nat (len - Z.of_nat (length acc)) < fuel)%nat ->
  loop_ok D len s now acc (readLoop fuel len now acc (s, f, evs)).
Proof.
  induction fuel as [|fuel IH]; intros acc s f evs HD Hinv Hfuel; [lia|]. cbn [readLoop].
  destruct (Z.leb_spec len (Z.of_nat (length acc))) as [Hfull|Hroom].
  { cbn [loop_ok]. rewrite slice_nil, app_nil_r. split_and!; try done; [by left|lia|lia]. }
  pose proof Hinv as (Hi & Hrel & Hro & Hpart & Hstop). pose proof Hi as ((_ & _ & _ & Hent & _) & Hu & Hrp).
  rewrite Head_reliable by done. rewrite set_read_id.
  assert (Hend : s.(resetLocally) || s.(cancelled) = true -> exists e, s.(err) = Some e)
    by (rewrite orb_comm; exact Hstop).
  assert (Hnr : s.(resetLocally) || s.(cancelled) = true \/ expired s.(readDeadline) now = true ->
                ~ readable s now) by (unfold readable; rewrite orb_comm; intros [->| ->] [? ?]; done).
  destruct (s.(frameQueue).(StreamFrameSorter.st).(queued) !! _) as [frame|] eqn:Hq.
  2:{ pose proof (no_head_missing D s HD Hinv Hq) as Hmiss. destruct acc as [|a acc].
      2:{ apply loop_ok_stop; [done|by right; right; right|done|done]. }
      destruct (s.(resetLocally) || s.(cancelled)) eqn:Hs.
      { destruct (Hend eq_refl) as [e He]. rewrite He. apply loop_ok_stop; try done. right; right; right. done. }
      destruct (expired s.(readDeadline) now) eqn:Hx.
      { apply loop_ok_stop; try done. right; right; by left. }
      cbn [loop_ok]. rewrite orb_comm in Hs. by split_and!. }
  destruct (s.(resetLocally) || s.(cancelled)) eqn:Hs.
  { destruct (Hend eq_refl) as [e He]. rewrite He. apply loop_ok_stop; try done; [right; right; by right|].
    intros ?. exfalso. apply Hnr; auto. }
  destruct (expired s.(readDeadline) now) eqn:Hx.
  { apply loop_ok_stop; try done; [right; right; by left|]. intros ?. exfalso. apply Hnr; auto. }
  set (s1 := set_read s _ _ _). destruct (Hent _ _ Hq) as (Ho & Hsent & Hempty & _).
  pose proof Hsent as (_ & Hle & _).
  assert (Hpos : s1.(readPosInFrame) = s1.(readOffset) - frame.(StreamFrame.Offset)).
  { unfold s1. cbn. unfold i64. rewrite Z.mod_small by lia. lia. }
  assert (Hi1 : read_inv D s1) by (by apply (read_inv_eq D s)).
  assert (Hok : loop_ok D len s1 now acc
    (readFrame frame (len - Z.of_nat (length acc)) now acc (readLoop fuel len now) (s1, f, evs)))
    by (apply (readFrame_ok D len now fuel); auto).
  exact Hok.
Qed.

(** What one call of [Read] comes to. *)
Definition read_ok (D : list Z) (len : Z) (s : t) (now : Z) (out : state * readResult) : Prop :=
  let '((s', _, _), r) := out in
  read_inv D s' /\ s.(readOffset) <= s'.(readOffset) /\ (forall x, missing s' x <-> missing s x)
  /\ match r with
     | ReadBlocked => s'.(readOffset) = s.(readOffset) /\ missing s s.(readOffset)
     | ReadReturned data e => data = slice D s.(readOffset) s'.(readOffset) /\ read_error s e
         /\ Z.of_nat (length data) <= len
         /\ (readable s now -> s.(finishedReading) = false -> ~ missing s s.(readOffset) -> 0 < len -> data <> [])
     | ReadPanicked | ReadOutOfFuel => False
     end.

Lemma Read_ok D s f evs len now :
  Z.of_nat (length D) < 2 ^ 63 -> read_inv D s -> 0 <= len -> read_ok D len s now (Read len now (s, f, evs)).
Proof.
  intros HD Hinv Hlen. unfold Read.
  destruct (s.(cancelled) || s.(resetLocally)) eqn:Hs.
  { cbn [read_ok]. rewrite slice_nil. split; [done|]. split_and!; try done; try lia; [right; right; by right|].
    intros [Hr _]. congruence. }
  destruct s.(finishedReading) eqn:Hfin.
  { cbn [read_ok]. rewrite slice_nil. split; [done|]. split_and!; try done; try lia; [right; by left|intros ? ?; congruence]. }
  pose proof (readLoop_ok D len now (S (Z.to_nat len)) [] s f evs HD Hinv ltac:(simpl; lia)) as Hok.
  destruct (readLoop _ _ _ _ _) as [[[s' f'] evs'] r]. destruct Hok as (Hi & Hle & _ & Hg & Hr).
  split; [done|]. split; [done|]. split; [done|]. destruct r as [|data e| |]; try done.
  - destruct Hr as (_ & Ho & Hm & _). split; [done|]. by rewrite <- Hg, <- Ho.
  - destruct Hr as (-> & He & Hl & Hp). cbn [app] in *. simpl in Hl. split_and!; try done; [lia|].
    intros Hrd _ Hm Hpos Hnil. specialize (Hp Hrd Hm ltac:(simpl; lia)).
    destruct Hinv as ((_ & _ & ?) & _ & ? & _), Hi as (_ & _ & ? & _).
    apply (f_equal (fun l => Z.of_nat (length l))) in Hnil. rewrite length_slice in Hnil; simpl in Hnil; lia.
Qed.

(** ** A received frame *)

Lemma AddStreamFrame_ok D s f frame now :
  Z.of_nat (length D) < 2 ^ 63 -> read_inv D s -> sent D frame -> fin_at_end D frame ->
  match AddStreamFrame s f frame now with
  | (s', _, None) => read_inv D s' /\ s'.(readOffset) = s.(readOffset)
      /\ forall x, missing s' x <-> missing s x /\ ~ covers frame x
  | (_, f', Some e) => e = errTooManyGapsInReceivedStreamData \/ e = errEmptyStreamData
      \/ (FlowControlManager.UpdateHighestReceived f s.(streamID)
            (u64 (frame.(StreamFrame.Offset) + StreamFrame.DataLen frame))).2 = Some e
  end.
Proof.
  intros HD (Hi & Hu & Hro & Hpart & Hstop) Hf Hfin. unfold AddStreamFrame.
  destruct (FlowControlManager.UpdateHighestReceived _ _ _) as [f1 [e|]]; [by right; right|].
  destruct (StreamFrameSorter.Push _ _ _ _) as [q perr] eqn:HP. cbn [set_read unreliableMarker]. rewrite Hu.
  destruct (Push_inv D s.(frameQueue) frame true now q perr) as [->|(Herr & Hqi & Hqp & Hrec & Hkeep)];
    try done; [unfold MaxByteCount; lia|rewrite decide_False by done; by left|].
  assert (Hgoal : read_inv D (signalRead (set_read s s.(readPosInFrame) s.(readOffset) q))
    /\ forall x, inGap q.(StreamFrameSorter.st).(gaps) x <-> missing s x /\ ~ covers frame x).
  { split; [|exact Hrec]. split; [done|]. cbn. rewrite Hqp. split; [done|]. split; [lia|]. split; [|exact Hstop].
    intros Hlt. destruct (Hpart Hlt) as (g & Hg & ?). exists g. split; [|done]. apply Hkeep; [done|lia]. }
  destruct Herr as [->|[->| ->]]; [by destruct Hgoal| |].
  - rewrite decide_True by done. by destruct Hgoal.
  - rewrite decide_False by done. right; by left.
Qed.

(** ** Runs *)

Inductive op : Type :=
| OpAdd (frame : StreamFrame.t) (now : Z)
| OpRead (len now : Z)
| OpWrite (p : list Z) (now : Z)
| OpTake (maxBytes : Z)
| OpClose
| OpReset (e : error)
| OpRemoteError (e : error)
| OpCancel (e : error)
| OpReadDeadline (d : option Z)
| OpWriteDeadline (d : option Z).

(** One operation, with the results of [Read]; an error of a received frame
    closes the connection. *)
Definition step (st : state) (o : op) : res (state * list readResult) :=
  let '(s, f, evs) := st in
  match o with
  | OpAdd frame now =>
      match AddStreamFrame s f frame now with
      | (s, f, None) => Ok ((s, f, evs), [])
      | (_, _, Some e) => Err e
      end
  | OpRead len now => let '(st, r) := Read len now st in Ok (st, [r])
  | OpWrite p now => let '(s, evs', _) := Write s p now in Ok ((s, f, evs ++ evs'), [])
  | OpTake n => Ok (((getDataForWriting s n).1, f, evs), [])
  | OpClose => Ok (((Close s).1, f, evs ++ (Close s).2), [])
  | OpReset e => Ok (((Reset s (Some e)).1, f, evs ++ (Reset s (Some e)).2), [])
  | OpRemoteError e =>
      Ok (((RegisterRemoteError s (Some e)).1, f, evs ++ (RegisterRemoteError s (Some e)).2), [])
  | OpCancel e => Ok ((Cancel s (Some e), f, evs), [])
  | OpReadDeadline d => Ok ((SetReadDeadline s d, f, evs), [])
  | OpWriteDeadline d => Ok ((SetWriteDeadline s d, f, evs), [])
  end.

Fixpoint run (st : state) (ops : list op) : res (state * list readResult) :=
  match ops with
  | [] => Ok (st, [])
  | o :: ops => p ← step st o; q ← run p.1 ops; Ok (q.1, p.2 ++ q.2)
  end.

(** The peer sends frames of [D]. *)
Definition honest (D : list Z) (o : op) : Prop :=
  match o with
  | OpAdd f _ => sent D f /\ fin_at_end D f
  | OpRead len _ => 0 <= len
  | _ => True
  end.

Definition brought (ops : list op) (x : Z) : Prop :=
  exists f now, OpAdd f now ∈ ops /\ covers f x.

Definition delivered (r : readResult) : list Z :=
  match r with ReadReturned data _ => data | _ => [] end.

Lemma brought_cons o ops x : brought (o :: ops) x <-> brought [o] x \/ brought ops x.
Proof.
  unfold brought. setoid_rewrite list_elem_of_singleton. setoid_rewrite elem_of_cons. naive_solver.
Qed.

(** An operation that leaves the reading side alone. *)
Definition same_reader (s s' : t) : Prop :=
  s'.(frameQueue) = s.(frameQueue) /\ s'.(readOffset) = s.(readOffset)
  /\ s'.(unreliableMarker) = s.(unreliableMarker)
  /\ ((s.(cancelled) || s.(resetLocally) = true -> is_Some s.(err)) ->
      s'.(cancelled) || s'.(resetLocally) = true -> is_Some s'.(err)).

Lemma same_reader_sendReset s s' : same_reader s s' -> same_reader s (sendReset s').1.
Proof. unfold sendReset. by destruct (shouldSendReset s'). Qed.

Ltac solve_same_reader :=
  repeat first [case_match | apply same_reader_sendReset]; simplify_eq/=;
  unfold same_reader; cbn; split_and!; try done; eauto.

Lemma same_reader_ops s p now n e d :
  same_reader s (Write s p now).1.1 /\ same_reader s (getDataForWriting s n).1
  /\ same_reader s (Close s).1 /\ same_reader s (Reset s (Some e)).1
  /\ same_reader s (RegisterRemoteError s (Some e)).1 /\ same_reader s (Cancel s (Some e))
  /\ same_reader s (SetReadDeadline s d) /\ same_reader s (SetWriteDeadline s d).
Proof.
  unfold Write, getDataForWriting, Close, Reset, RegisterRemoteError, Cancel, SetReadDeadline, SetWriteDeadline.
  split_and!; solve_same_reader.
Qed.

(** Why a frame of the peer is refused: it leaves too many gaps, it is empty, or
    flow control does not accept its end. *)
Definition refused (e : error) : Prop :=
  e = errTooManyGapsInReceivedStreamData \/ e = errEmptyStreamData
  \/ exists f id maxOffset, (FlowControlManager.UpdateHighestReceived f id maxOffset).2 = Some e.

(** What the operations [ops] do from a state that satisfies the invariant. *)
Definition run_ok (D : list Z) (st : state) (ops : list op) (r : res (state * list readResult)) : Prop :=
  match r with
  | Ok ((s', f', evs'), rs) =>
      read_inv D s' /\ st.1.1.(readOffset) <= s'.(readOffset)
      /\ concat (delivered <$> rs) = slice D st.1.1.(readOffset) s'.(readOffset)
      /\ (forall x, missing s' x <-> missing st.1.1 x /\ ~ brought ops x)
  | Err e => refused e
  | Panic => False
  end.

Lemma not_brought o x : (forall f now, o <> OpAdd f now) -> ~ brought [o] x.
Proof. intros Hne (f & now & <-%list_elem_of_singleton & _). by eapply Hne. Qed.

Lemma step_same D s s' f f' evs evs' o :
  read_inv D s -> same_reader s s' -> (forall f now, o <> OpAdd f now) ->
  run_ok D (s, f, evs) [o] (Ok ((s', f', evs'), [])).
Proof.
  intros Hi (Hq & Hro & Hu & Hstop) Hne. cbn [run_ok fst]. rewrite Hro, slice_nil.
  pose proof Hi as (_ & _ & _ & _ & Hs).
  split; [apply (read_inv_eq D s); auto|]. split_and!; [lia|done|].
  intros x. unfold missing. rewrite Hq. pose proof (not_brought o x Hne). tauto.
Qed.

Lemma stream_step_ok D st o :
  Z.of_nat (length D) < 2 ^ 63 -> read_inv D st.1.1 -> honest D o -> run_ok D st [o] (step st o).
Proof.
  intros HD Hi Ho. destruct st as [[s f] evs]. cbn [fst] in Hi.
  destruct o as [frame now|len now|p now|n| |e|e|e|d|d]; cbn [step].
  - destruct Ho as [Hf Hfin]. pose proof (AddStreamFrame_ok D s f frame now HD Hi Hf Hfin) as Hok.
    destruct (AddStreamFrame s f frame now) as [[s' f'] [e|]].
    { destruct Hok as [?|[?|?]]; [by left|by right; left|right; right; by do 3 eexists]. }
    destruct Hok as (Hi' & Hro & Hm).
    cbn [run_ok fst]. rewrite Hro, slice_nil. split; [done|]. split_and!; [lia|done|].
    intros x. rewrite Hm. assert (brought [OpAdd frame now] x <-> covers frame x); [|tauto].
    unfold brought. setoid_rewrite list_elem_of_singleton. naive_solver.
  - pose proof (Read_ok D s f evs len now HD Hi Ho) as Hok. destruct (Read _ _ _) as [[[s' f'] evs'] r].
    destruct Hok as (Hi' & Hle & Hm & Hr). cbn [run_ok fst]. split; [done|]. split_and!; [done| |].
    + cbn. rewrite app_nil_r. destruct r; try done; [|by destruct Hr].
      destruct Hr as [-> _]. by rewrite slice_nil.
    + intros x. rewrite Hm. pose proof (not_brought (OpRead len now) x ltac:(done)). tauto.
  - pose proof (same_reader_ops s p now 0 EOF None) as (Hs & _).
    destruct (Write s p now) as [[s' evs'] r]. by apply step_same.
  - apply step_same; [done|apply (same_reader_ops s [] 0 n EOF None)|done].
  - apply step_same; [done|apply (same_reader_ops s [] 0 0 EOF None)|done].
  - apply step_same; [done|apply (same_reader_ops s [] 0 0 e None)|done].
  - apply step_same; [done|apply (same_reader_ops s [] 0 0 e None)|done].
  - apply step_same; [done|apply (same_reader_ops s [] 0 0 e None)|done].
  - apply step_same; [done|apply (same_reader_ops s [] 0 0 EOF d)|done].
  - apply step_same; [done|apply (same_reader_ops s [] 0 0 EOF d)|done].
Qed.

Lemma reads_inv D ops : forall st,
  Z.of_nat (length D) < 2 ^ 63 -> read_inv D st.1.1 -> Forall (honest D) ops -> run_ok D st ops (run st ops).
Proof.
  induction ops as [|o ops IH]; intros [[s f] evs] HD Hi Hops; cbn [run].
  { cbn [run_ok fst]. rewrite slice_nil. split; [done|]. split_and!; [lia|done|]. intros x.
    split; [|tauto]. intros Hx. split; [done|]. by intros (? & ? & ?%elem_of_nil & _). }
  apply Forall_cons in Hops as [Ho Hops]. pose proof (stream_step_ok D (s, f, evs) o HD Hi Ho) as Hstep.
  unfold mbind, res_bind. destruct (step _ o) as [[[[s1 f1] evs1] rs1]|e|]; [|done..].
  destruct Hstep as (Hi1 & Hle1 & Hd1 & Hm1). cbn [fst snd]. specialize (IH (s1, f1, evs1) HD Hi1 Hops).
  destruct (run _ ops) as [[[[s2 f2] evs2] rs2]|e|]; [|done..].
  destruct IH as (Hi2 & Hle2 & Hd2 & Hm2). cbn [fst snd run_ok] in *.
  destruct Hi as ((_ & _ & Hrp) & _ & Hro & _).
  split; [done|]. split_and!; [lia| |].
  - rewrite fmap_app, concat_app, Hd1, Hd2, slice_app by lia. done.
  - intros x. rewrite Hm2, Hm1, (brought_cons o ops). tauto.
Qed.

(** C7: the application reads the stream.  For every content [D] of a reliable
    stream and every interleaving of received frames of [D] (in any order,
    repeated, overlapping), calls of [Read], and writes, closes, resets,
    cancellations and deadlines: the bytes all the calls of [Read] returned are
    the first [readOffset] bytes of [D]; exactly the bytes that no frame brought
    are missing; and the next call of [Read] ends without a panic, returns at
    most as many bytes as fit, blocks only when the next byte is missing, and
    returns at least one byte when the next byte was received, nothing stopped the
    stream and no frame with a FIN was read to its end before (a FIN frame that was cut
    off keeps its FIN, see [fin_kept_on_cut_frame]).  A frame is refused only for too many gaps, because it is
    empty, or by flow control. *)
Theorem read_delivers (D : list Z) (id : Z) (marks : gmap Z bool) (fc : FlowControlManager.mgr) (ops : list op)
  (HD : Z.of_nat (length D) < 2 ^ 63) (Hrel : marks !! id <> Some true) (Hops : Forall (honest D) ops) :
  match run (newStreamType id marks, fc, []) ops with
  | Ok ((s, f, evs), rs) =>
      concat (delivered <$> rs) = take (Z.to_nat s.(readOffset)) D
      /\ 0 <= s.(readOffset) <= Z.of_nat (length D)
      /\ (forall x, 0 <= x < MaxByteCount -> missing s x <-> ~ brought ops x)
      /\ forall len now, 0 <= len ->
           match (Read len now (s, f, evs)).2 with
           | ReadBlocked => ~ brought ops s.(readOffset)
           | ReadReturned data e => Z.of_nat (length data) <= len /\ read_error s e
               /\ (readable s now -> s.(finishedReading) = false -> brought ops s.(readOffset) -> 0 < len ->
                   data <> [])
           | ReadPanicked | ReadOutOfFuel => False
           end
  | Err e => refused e
  | Panic => False
  end.
Proof.
  pose proof (reads_inv D ops (newStreamType id marks, fc, []) HD (new_read_inv D id marks HD Hrel) Hops) as Hok.
  destruct (run _ ops) as [[[[s f] evs] rs]|e|]; [|done..]. destruct Hok as (Hi & Hle & Hd & Hm).
  change (readOffset (newStreamType id marks)) with 0 in *.
  pose proof Hi as ((_ & _ & ?) & _ & ? & _).
  assert (Hmiss : forall x, 0 <= x < MaxByteCount -> missing s x <-> ~ brought ops x).
  { intros x Hx. rewrite Hm. unfold missing. cbn [fst newStreamType frameQueue StreamFrameSorter.new
      StreamFrameSorter.st]. rewrite inGap_new. tauto. }
  assert (0 <= s.(readOffset) < MaxByteCount) by (unfold MaxByteCount; lia).
  split_and!; [|lia|lia|done|].
  { rewrite Hd. unfold slice. by rewrite Z.sub_0_r. }
  intros len now Hlen. pose proof (Read_ok D s f evs len now HD Hi Hlen) as Hr.
  destruct (Read len now (s, f, evs)) as [[[s' f'] evs'] r]. destruct Hr as (_ & _ & _ & Hr). cbn [snd].
  destruct r; try done; [by apply Hmiss; [|apply Hr]|]. destruct Hr as (_ & He & Hl & Hp).
  split_and!; try done. intros Hrd Hf Hb Hpos. apply Hp; try done. rewrite Hmiss by done. tauto.
Qed.

(** Frames of a stream of 30 bytes, read with a buffer of 8 bytes. *)
Definition demo_reads : list op :=
  [OpAdd (frameOf demo 20 10 true) 1; OpRead 8 2; OpAdd (frameOf demo 0 12 false) 3; OpRead 8 4;
   OpWrite [1; 2] 4; OpAdd (frameOf demo 5 20 false) 5; OpRead 8 6; OpClose].

Definition demo_fc : FlowControlManager.mgr :=
  FlowControlManager.NewStream
    (FlowControlManager.NewFlowControlManager
       (ConnParams.New PerspectiveServer Version39 1048576 1572864 30000000000)) 5 true.

Lemma demo_reads_honest : Forall (honest demo) demo_reads.
Proof.
  assert (Hf : forall off len fin now, 0 <= off -> 0 <= len -> off + len <= 30 -> (fin = true -> off + len = 30) ->
                honest demo (OpAdd (frameOf demo off len fin) now)).
  { intros off len fin now ? ? ? ?. exact (honest_frameOf demo off len fin ltac:(lia) ltac:(lia) ltac:(done) ltac:(done) true now). }
  unfold demo_reads. repeat apply Forall_cons_2; try apply Forall_nil_2; try exact I; try (cbn; lia);
    apply Hf; lia || done.
Qed.

Lemma read_delivers_witness :
  exists s f evs rs, run (newStreamType 5 ∅, demo_fc, []) demo_reads = Ok ((s, f, evs), rs)
  /\ s.(readOffset) = 16 /\ concat (delivered <$> rs) = seqZ 0 16
  /\ match (Read 100 10 (s, f, evs)).2 with
     | ReadReturned data e => data <> []
     | _ => False
     end.
Proof.
  pose proof (read_delivers demo 5 ∅ demo_fc demo_reads ltac:(vm_compute; done) ltac:(done) demo_reads_honest) as H.
  destruct (run _ demo_reads) as [[[[s f] evs] rs]|e|] eqn:E; [|exfalso; vm_compute in E; discriminate..].
  exists s, f, evs, rs. split; [reflexivity|].
  assert (Hs : s.(readOffset) = 16 /\ concat (delivered <$> rs) = seqZ 0 16
    /\ s.(finishedReading) = false /\ readable s 10 /\ (Read 100 10 (s, f, evs)).2 <> ReadBlocked).
  { vm_compute in E. injection E as <- <- <- <-. do 4 (split; [vm_compute; repeat split; reflexivity|]). vm_compute. discriminate. }
  destruct Hs as (Hro & Hd & Hfin & Hrd & Hnb). destruct H as (_ & _ & _ & H). specialize (H 100 10 ltac:(lia)).
  split; [exact Hro|]. split; [exact Hd|]. clear E. revert Hnb H. generalize ((Read 100 10 (s, f, evs)).2).
  intros [|data e| |] Hnb H; [by destruct Hnb| |exact H|exact H]. destruct H as (_ & _ & H).
  apply H; [exact Hrd|exact Hfin| |lia]. rewrite Hro. exists (frameOf demo 5 20 false), 5.
  split; [unfold demo_reads; set_solver|unfold covers; vm_compute; split; congruence].
Defined.

End StreamDelivery.
