(* ===== verification/StreamsMap.v ===== *)
(** * The streams of a session ([streams_map.go])

    The open streams by ID, the order in which they are polled, the counters that
    bound their number, and the marks of the unreliable streams.  Creating a
    stream registers it with the flow control manager ([session.newStream]), so
    the manager is threaded through.  A [*stream] that an operation returns is
    its ID; [nil] is [None].  The operations run under the mutex of the map; a
    call that waits on a condition variable returns [Blocked] and is called
    again after the wake-up. *)

From S2P Require Import Prelude ByteOrder Protocol WireHeader WireFrames WireStream MinMax.
From S2P Require Import ConnParams FlowControl StreamSorter Stream.

Definition InvalidStreamID : Z := 17.
Definition TooManyOpenStreams : error := ErrorCode 18.
Definition MaxNewStreamIDDelta : Z := 4 * MaxStreamsPerConnection.

Module StreamsMap.

Record t : Type := mk {
  perspective : Perspective;
  streams : gmap Z Stream.t;
  openStreams : list Z;
  roundRobinIndex : Z;
  unreliableRobinIndex : Z;
  unreliableStreamMark : gmap Z bool;
  nextStream : Z;
  highestStreamOpenedByPeer : Z;
  closeErr : option error;
  nextStreamToAccept : Z;
  numOutgoingStreams : Z;
  numIncomingStreams : Z
}.

(** The map and the flow control manager it creates streams in. *)
Abbreviation state := (t * FlowControlManager.mgr)%type.

Definition errMapAccess : error := ErrorsNew "streamsMap: Error accessing the streams map".

Definition newStreamsMap (pers : Perspective) : t :=
  match pers with
  | PerspectiveClient => mk pers ∅ [] 0 0 ∅ 1 0 None 2 0 0
  | PerspectiveServer => mk pers ∅ [] 0 0 ∅ 2 0 None 1 0 0
  end.

(** ** Field updates *)

Definition set_streams (m : t) (streams : gmap Z Stream.t) : t :=
  mk m.(perspective) streams m.(openStreams) m.(roundRobinIndex) m.(unreliableRobinIndex)
    m.(unreliableStreamMark) m.(nextStream) m.(highestStreamOpenedByPeer) m.(closeErr)
    m.(nextStreamToAccept) m.(numOutgoingStreams) m.(numIncomingStreams).

Definition set_mark (m : t) (id : Z) (marker : bool) : t :=
  mk m.(perspective) m.(streams) m.(openStreams) m.(roundRobinIndex) m.(unreliableRobinIndex)
    (<[id := marker]> m.(unreliableStreamMark)) m.(nextStream) m.(highestStreamOpenedByPeer)
    m.(closeErr) m.(nextStreamToAccept) m.(numOutgoingStreams) m.(numIncomingStreams).

Definition set_open (m : t) (streams : gmap Z Stream.t) (openStreams : list Z) : t :=
  mk m.(perspective) streams openStreams m.(roundRobinIndex) m.(unreliableRobinIndex)
    m.(unreliableStreamMark) m.(nextStream) m.(highestStreamOpenedByPeer) m.(closeErr)
    m.(nextStreamToAccept) m.(numOutgoingStreams) m.(numIncomingStreams).

Definition set_robin (m : t) (robin unreliable : Z) : t :=
  mk m.(perspective) m.(streams) m.(openStreams) robin unreliable m.(unreliableStreamMark)
    m.(nextStream) m.(highestStreamOpenedByPeer) m.(closeErr) m.(nextStreamToAccept)
    m.(numOutgoingStreams) m.(numIncomingStreams).

Definition set_next (m : t) (next highest accept : Z) : t :=
  mk m.(perspective) m.(streams) m.(openStreams) m.(roundRobinIndex) m.(unreliableRobinIndex)
    m.(unreliableStreamMark) next highest m.(closeErr) accept m.(numOutgoingStreams)
    m.(numIncomingStreams).

Definition set_num (m : t) (outgoing incoming : Z) : t :=
  mk m.(perspective) m.(streams) m.(openStreams) m.(roundRobinIndex) m.(unreliableRobinIndex)
    m.(unreliableStreamMark) m.(nextStream) m.(highestStreamOpenedByPeer) m.(closeErr)
    m.(nextStreamToAccept) outgoing incoming.

Definition set_closeErr (m : t) (e : option error) (streams : gmap Z Stream.t) : t :=
  mk m.(perspective) streams m.(openStreams) m.(roundRobinIndex) m.(unreliableRobinIndex)
    m.(unreliableStreamMark) m.(nextStream) m.(highestStreamOpenedByPeer) e
    m.(nextStreamToAccept) m.(numOutgoingStreams) m.(numIncomingStreams).

(** ** Opening streams *)

(** [session.newStream]: streams 1 and 3 do not count for the connection. *)
Definition newStream (st : state) (id : Z) : FlowControlManager.mgr * Stream.t :=
  let '(m, f) := st in
  (FlowControlManager.NewStream f id (negb ((id =? 1) || (id =? 3))),
   Stream.newStreamType id m.(unreliableStreamMark)).

(** The error of a stream that exists already; all callers drop it. *)
Definition errExists (id : Z) : error := Errorf "a stream with ID %d already exists" [id].

Definition putStream (m : t) (s : Stream.t) : t * option error :=
  let id := s.(Stream.streamID) in
  match m.(streams) !! id with
  | Some _ => (m, Some (errExists id))
  | None => (set_open m (<[id := s]> m.(streams)) (m.(openStreams) ++ [id]), None)
  end.

Definition putStreamType (m : t) (s : Stream.t) (marker : bool) : t * option error :=
  let id := s.(Stream.streamID) in
  match m.(streams) !! id with
  | Some _ => (m, Some (errExists id))
  | None => (set_mark (set_open m (<[id := s]> m.(streams)) (m.(openStreams) ++ [id])) id marker, None)
  end.

Definition GetStreasmType (m : t) (id : Z) : bool * option error :=
  match m.(streams) !! id with
  | None => (false, Some (errExists id))
  | Some _ => (default false (m.(unreliableStreamMark) !! id), None)
  end.

(** The checks before a stream of the peer is opened, and the counters. *)
Definition admitRemote (st : state) (id : Z) : state * option error :=
  let '(m, f) := st in
  if ConnParams.GetMaxIncomingStreams f.(FlowControlManager.params) <=? m.(numIncomingStreams)
  then (st, Some TooManyOpenStreams)
  else if u32 (id + MaxNewStreamIDDelta) <? m.(highestStreamOpenedByPeer)
  then (st, Some (QuicErrorf InvalidStreamID
                    "attempted to open stream %d, which is a lot smaller than the highest opened stream, %d"
                    [id; m.(highestStreamOpenedByPeer)]))
  else
    let m := match m.(perspective) with
             | PerspectiveServer => set_num m m.(numOutgoingStreams) (u32 (m.(numIncomingStreams) + 1))
             | PerspectiveClient => set_num m (u32 (m.(numOutgoingStreams) + 1)) m.(numIncomingStreams)
             end in
    let m := if m.(highestStreamOpenedByPeer) <? id
             then set_next m m.(nextStream) id m.(nextStreamToAccept) else m in
    ((m, f), None).

Definition openRemoteStream (st : state) (id : Z) : state * option error :=
  match admitRemote st id with
  | (st, Some e) => (st, Some e)
  | ((m, f), None) =>
      let '(f, s) := newStream (m, f) id in
      (((putStream m s).1, f), None)
  end.

Definition openRemoteStreamType (st : state) (id : Z) (marker : bool) : state * option error :=
  match admitRemote st id with
  | (st, Some e) => (st, Some e)
  | ((m, f), None) =>
      let '(f, s) := newStream (m, f) id in
      (((putStreamType m s marker).1, f), None)
  end.

(** Whether [GetOrOpenStream] has an answer before it opens streams: the stream
    exists, was closed, or may not be opened by the peer. *)
Definition lookupRemote (m : t) (id : Z) : option (res (option Z)) :=
  match m.(streams) !! id with
  | Some _ => Some (Ok (Some id))
  | None =>
      match m.(perspective) with
      | PerspectiveServer =>
          if id mod 2 =? 0 then
            if id <=? m.(nextStream) then Some (Ok None)
            else Some (Err (QuicErrorf InvalidStreamID "attempted to open stream %d from client-side" [id]))
          else if id <=? m.(highestStreamOpenedByPeer) then Some (Ok None) else None
      | PerspectiveClient =>
          if id mod 2 =? 1 then
            if id <=? m.(nextStream) then Some (Ok None)
            else Some (Err (QuicErrorf InvalidStreamID "attempted to open stream %d from server-side" [id]))
          else if id <=? m.(highestStreamOpenedByPeer) then Some (Ok None) else None
      end
  end.

(** The next stream that the peer opens. *)
Definition nextRemote (m : t) : Z :=
  let sid := u32 (m.(highestStreamOpenedByPeer) + 2) in
  match m.(perspective) with
  | PerspectiveServer => if sid =? 2 then 1 else sid
  | PerspectiveClient => sid
  end.

(** [for ; sid <= id; sid += 2]; [None] when the fuel ran out. *)
Fixpoint openLoop (fuel : nat) (sid id : Z) (st : state) : option (state * option error) :=
  if sid <=? id then
    match fuel with
    | O => None
    | S fuel =>
        match openRemoteStream st sid with
        | (st, Some e) => Some (st, Some e)
        | (st, None) => openLoop fuel (u32 (sid + 2)) id st
        end
    end
  else Some (st, None).

(** [m.streams[id]] *)
Definition handle (m : t) (id : Z) : option Z :=
  match m.(streams) !! id with Some _ => Some id | None => None end.

(** One round per stream up to [id]; the loop of the code does not end on its own
    for the two largest IDs, where [sid += 2] wraps around. *)
Definition GetOrOpenStream (st : state) (id : Z) : option (state * res (option Z)) :=
  match lookupRemote st.1 id with
  | Some r => Some (st, r)
  | None =>
      let sid := nextRemote st.1 in
      match openLoop (Z.to_nat ((id - sid) / 2 + 1)) sid id st with
      | None => None
      | Some (st, Some e) => Some (st, Err e)
      | Some (st, None) => Some (st, Ok (handle st.1 id))
      end
  end.

(** Opens the next stream of the peer only, and returns the stream [id]. *)
Definition GetOrOpenStreamType (st : state) (id : Z) (marker : bool) : state * res (option Z) :=
  match lookupRemote st.1 id with
  | Some r => (st, r)
  | None =>
      match openRemoteStreamType st (nextRemote st.1) marker with
      | (st, Some e) => (st, Err e)
      | (st, None) => (st, Ok (handle st.1 id))
      end
  end.

(** [openStreamImpl] and [openUnreliableStreamImpl] differ in the marker. *)
Definition openLocal (st : state) (marker : bool) : state * res Z :=
  let '(m, f) := st in
  let id := m.(nextStream) in
  if ConnParams.GetMaxOutgoingStreams f.(FlowControlManager.params) <=? m.(numOutgoingStreams)
  then (st, Err TooManyOpenStreams)
  else
    let m := match m.(perspective) with
             | PerspectiveServer => set_num m (u32 (m.(numOutgoingStreams) + 1)) m.(numIncomingStreams)
             | PerspectiveClient => set_num m m.(numOutgoingStreams) (u32 (m.(numIncomingStreams) + 1))
             end in
    let m := set_next m (u32 (m.(nextStream) + 2)) m.(highestStreamOpenedByPeer) m.(nextStreamToAccept) in
    let '(f, s) := newStream (m, f) id in
    (((putStreamType m s marker).1, f), Ok id).

Definition openStreamImpl (st : state) : state * res Z := openLocal st false.
Definition openUnreliableStreamImpl (st : state) : state * res Z := openLocal st true.

Definition OpenStream (st : state) : state * res Z :=
  match st.1.(closeErr) with Some e => (st, Err e) | None => openStreamImpl st end.

Definition OpenUnreliableStream (st : state) : state * res Z :=
  match st.1.(closeErr) with Some e => (st, Err e) | None => openUnreliableStreamImpl st end.

(** A call that may wait: [None] while it waits. *)
Definition OpenStreamSync (st : state) : state * option (res Z) :=
  match st.1.(closeErr) with
  | Some e => (st, Some (Err e))
  | None =>
      match openStreamImpl st with
      | (st, Err e) => if decide (e = TooManyOpenStreams) then (st, None) else (st, Some (Err e))
      | (st, r) => (st, Some r)
      end
  end.

Definition AcceptStream (st : state) : state * option (res Z) :=
  let '(m, f) := st in
  match m.(closeErr) with
  | Some e => (st, Some (Err e))
  | None =>
      match m.(streams) !! m.(nextStreamToAccept) with
      | None => (st, None)
      | Some _ =>
          ((set_next m m.(nextStream) m.(highestStreamOpenedByPeer) (u32 (m.(nextStreamToAccept) + 2)), f),
           Some (Ok m.(nextStreamToAccept)))
      end
  end.

(** ** Polling the streams

    The function that is called for every stream may change the map, the flow
    control manager and a state [A] of its own. *)

Section iterate.
Context {A : Type}.

Abbreviation polled := (state * A)%type.
Definition streamLambda : Type := Z -> polled -> polled * (bool * option error).

Definition iterateFunc (id : Z) (fn : streamLambda) (p : polled) : polled * (bool * option error) :=
  match p.1.1.(streams) !! id with
  | None => (p, (true, Some errMapAccess))
  | Some _ => fn id p
  end.

Fixpoint iterateLoop (ids : list Z) (fn : streamLambda) (p : polled) : polled * option error :=
  match ids with
  | [] => (p, None)
  | id :: ids =>
      match iterateFunc id fn p with
      | (p, (_, Some e)) => (p, Some e)
      | (p, (true, None)) => iterateLoop ids fn p
      | (p, (false, None)) => (p, None)
      end
  end.

(** The list of the streams is copied first. *)
Definition Iterate (fn : streamLambda) (p : polled) : polled * option error :=
  iterateLoop p.1.1.(openStreams) fn p.

(** What a loop of the round robin comes to: it ended or was broken off, or the
    function returns. *)
Inductive loopEnd : Type :=
| Done
| Return (e : option error)
| LoopPanic.

(** Streams 1 and 3 first; a missing one is skipped. *)
Fixpoint priorityLoop (ids : list Z) (fn : streamLambda) (p : polled) : polled * loopEnd :=
  match ids with
  | [] => (p, Done)
  | id :: ids =>
      match iterateFunc id fn p with
      | (p, (cont, err)) =>
          if match err with Some e => negb (bool_decide (e = errMapAccess)) | None => false end
          then (p, Return err)
          else if cont then priorityLoop ids fn p else (p, Return None)
      end
  end.

(** The index that a loop advances: the loop over the streams without a mark
    advances [unreliableRobinIndex], the one over the marked streams the other. *)
Definition advance (marked : bool) (numStreams : Z) (p : polled) : polled :=
  let '((m, f), a) := p in
  ((if marked then set_robin m (u32 (m.(roundRobinIndex) + 1) mod numStreams) m.(unreliableRobinIndex)
    else set_robin m m.(roundRobinIndex) (u32 (m.(unreliableRobinIndex) + 1) mod numStreams), f), a).

(** The loop over the streams that have an entry in [unreliableStreamMark]
    ([marked]) or have none; [n] rounds are left, [i] is the loop variable. *)
Fixpoint robinLoop (marked : bool) (n : nat) (i start numStreams : Z) (fn : streamLambda) (p : polled)
  : polled * loopEnd :=
  match n with
  | O => (p, Done)
  | S n =>
      match p.1.1.(openStreams) !! Z.to_nat (u32 (i + start) mod numStreams) with
      | None => (p, LoopPanic)
      | Some id =>
          if (id =? 1) || (id =? 3) then robinLoop marked n (i + 1) start numStreams fn p
          else if negb (Bool.eqb marked (bool_decide (is_Some (p.1.1.(unreliableStreamMark) !! id))))
          then robinLoop marked n (i + 1) start numStreams fn p
          else
            match iterateFunc id fn p with
            | (p, (_, Some e)) => (p, Return (Some e))
            | (p, (cont, None)) =>
                let p := advance marked numStreams p in
                if cont then robinLoop marked n (i + 1) start numStreams fn p else (p, Done)
            end
      end
  end.

(** [None]: an index is out of range and the call panics. *)
Definition robin (reliableToo : bool) (fn : streamLambda) (p : polled) : polled * option (option error) :=
  let numStreams := u32 (Z.of_nat (size p.1.1.(streams))) in
  let startIndex := p.1.1.(roundRobinIndex) in
  let startIndexUnreliable := p.1.1.(unreliableRobinIndex) in
  match priorityLoop [1; 3] fn p with
  | (p, LoopPanic) => (p, None)
  | (p, Return e) => (p, Some e)
  | (p, Done) =>
      let first := if reliableToo
                   then robinLoop false (Z.to_nat numStreams) 0 startIndexUnreliable numStreams fn p
                   else (p, Done) in
      match first with
      | (p, LoopPanic) => (p, None)
      | (p, Return e) => (p, Some e)
      | (p, Done) =>
          match robinLoop true (Z.to_nat numStreams) 0 startIndex numStreams fn p with
          | (p, LoopPanic) => (p, None)
          | (p, Return e) => (p, Some e)
          | (p, Done) => (p, Some None)
          end
      end
  end.

Definition RoundRobinIterate (fn : streamLambda) (p : polled) := robin true fn p.

(** With the path's [SendingAllowed] *)
Definition RoundRobinIterate2 (sendingAllowed : bool) (fn : streamLambda) (p : polled) :=
  robin sendingAllowed fn p.

End iterate.
Abbreviation polled A := (state * A)%type.
Arguments streamLambda A : clear implicits.

(** ** Closing streams *)

(** The index of the first occurrence of [id], and the list without it. *)
Fixpoint cutID (id : Z) (i : Z) (ids : list Z) : option (Z * list Z) :=
  match ids with
  | [] => None
  | x :: ids =>
      if x =? id then Some (i, ids)
      else match cutID id (i + 1) ids with Some (j, l) => Some (j, x :: l) | None => None end
  end.

Definition RemoveStream (m : t) (id : Z) : t * option error :=
  match m.(streams) !! id with
  | None => (m, Some (Errorf "attempted to remove non-existing stream: %d" [id]))
  | Some _ =>
      let m := if id mod 2 =? 0 then set_num m (u32 (m.(numOutgoingStreams) - 1)) m.(numIncomingStreams)
               else set_num m m.(numOutgoingStreams) (u32 (m.(numIncomingStreams) - 1)) in
      let m := match cutID id 0 m.(openStreams) with
               | None => m
               | Some (i, ids) =>
                   let m := set_open m m.(streams) ids in
                   if i <? m.(roundRobinIndex) then set_robin m (m.(roundRobinIndex) - 1) m.(unreliableRobinIndex)
                   else m
               end in
      (set_streams m (delete id m.(streams)), None)
  end.

(** Every open stream is cancelled; a missing stream would be a [nil] pointer. *)
Fixpoint cancelAll (e : error) (ids : list Z) (streams : gmap Z Stream.t) : option (gmap Z Stream.t) :=
  match ids with
  | [] => Some streams
  | id :: ids =>
      match streams !! id with
      | None => None
      | Some s => cancelAll e ids (<[id := Stream.Cancel s (Some e)]> streams)
      end
  end.

Definition CloseWithError (m : t) (e : error) : res t :=
  match cancelAll e m.(openStreams) m.(streams) with
  | None => Panic
  | Some streams => Ok (set_closeErr m (Some e) streams)
  end.

(** [session.garbageCollectStreams]: finished streams are removed from the map and
    from flow control. *)
Definition collect : streamLambda unit := fun id p =>
  let '((m, f), _) := p in
  match m.(streams) !! id with
  | None => (p, (true, None))
  | Some s =>
      if Stream.finished s then
        match RemoveStream m id with
        | (m, Some e) => (((m, f), tt), (false, Some e))
        | (m, None) => (((m, FlowControlManager.RemoveStream f id), tt), (true, None))
        end
      else (p, (true, None))
  end.

Definition garbageCollectStreams (st : state) : state := (Iterate collect (st, tt)).1.1.

End StreamsMap.
