(* ===== verification/StreamsMapProofs.v ===== *)
(** * The streams map keeps its books

    The open streams, their counters and the limits in every reachable state; a
    closed stream is never opened again; the round robin reaches every stream. *)

From S2P Require Import Prelude ByteOrder Protocol WireHeader WireFrames WireStream MinMax.
From S2P Require Import ConnParams FlowControl StreamSorter Stream StreamsMap.

Module StreamsMapProofs.
Import StreamsMap.

(** ** The invariant *)

(** The stream is one that this side opens. *)
Definition is_local (p : Perspective) (id : Z) : Prop :=
  match p with PerspectiveServer => id mod 2 = 0 | PerspectiveClient => id mod 2 = 1 end.

#[global] Instance is_local_dec p id : Decision (is_local p id).
Proof. destruct p; cbn; apply _. Defined.

(** The ID was given to a stream before. *)
Definition used (m : t) (id : Z) : Prop :=
  0 < id /\ if decide (is_local m.(perspective) id) then id < m.(nextStream)
            else id <= m.(highestStreamOpenedByPeer).

(** The number of IDs with the parity [r]. *)
Definition count (r : Z) (ids : list Z) : Z := Z.of_nat (length (filter (fun id => id mod 2 = r) ids)).

Record map_inv (m : t) : Prop := {
  inv_nodup : NoDup m.(openStreams);
  inv_dom : forall id, id ∈ m.(openStreams) <-> is_Some (m.(streams) !! id);
  inv_ids : forall id s, m.(streams) !! id = Some s -> s.(Stream.streamID) = id;
  inv_used : forall id, id ∈ m.(openStreams) -> used m id;
  inv_out : m.(numOutgoingStreams) = count 0 m.(openStreams);
  inv_in : m.(numIncomingStreams) = count 1 m.(openStreams);
  inv_next : 0 < m.(nextStream) < 2 ^ 32 /\ is_local m.(perspective) m.(nextStream);
  inv_peer : 0 <= m.(highestStreamOpenedByPeer) < 2 ^ 32
    /\ (m.(highestStreamOpenedByPeer) = 0
        \/ ~ is_local m.(perspective) m.(highestStreamOpenedByPeer))
}.

Lemma count_app r l1 l2 : count r (l1 ++ l2) = count r l1 + count r l2.
Proof. unfold count. rewrite filter_app, length_app. lia. Qed.

Lemma count_one r id : count r [id] = if decide (id mod 2 = r) then 1 else 0.
Proof. unfold count. rewrite filter_cons, filter_nil. by case_decide. Qed.

(** Distinct 32-bit IDs are fewer than 2^32. *)
Lemma count_bound r ids :
  NoDup ids -> (forall id, id ∈ ids -> 0 < id < 2 ^ 32) -> 0 <= count r ids < 2 ^ 32.
Proof.
  intros Hnd Hb. unfold count. split; [lia|].
  assert (Hle : (length ids <= length (seqZ 1 (2 ^ 32 - 1)))%nat).
  { apply submseteq_length, NoDup_submseteq; [done|]. intros x Hx%Hb. apply elem_of_seqZ. lia. }
  rewrite length_seqZ in Hle. pose proof (length_filter (fun id => id mod 2 = r) ids). lia.
Qed.

Lemma used_bound m id : map_inv m -> used m id -> 0 < id < 2 ^ 32.
Proof. intros [] [? Hu]. case_decide; lia. Qed.

Lemma not_open m id : map_inv m -> ~ used m id -> m.(streams) !! id = None.
Proof.
  intros Hi Hu. destruct (m.(streams) !! id) eqn:E; [|done]. exfalso. apply Hu, (inv_used _ Hi), (inv_dom _ Hi).
  rewrite E. done.
Qed.

(** Opening a stream whose ID is new. *)
Lemma inv_open m m' id s :
  map_inv m -> ~ used m id -> used m' id -> 0 < id < 2 ^ 32 ->
  m'.(streams) = <[id := s]> m.(streams) -> m'.(openStreams) = m.(openStreams) ++ [id] ->
  s.(Stream.streamID) = id -> (forall x, used m x -> used m' x) ->
  m'.(numOutgoingStreams) = u32 (m.(numOutgoingStreams) + count 0 [id]) ->
  m'.(numIncomingStreams) = u32 (m.(numIncomingStreams) + count 1 [id]) ->
  0 < m'.(nextStream) < 2 ^ 32 /\ is_local m'.(perspective) m'.(nextStream) ->
  0 <= m'.(highestStreamOpenedByPeer) < 2 ^ 32
  /\ (m'.(highestStreamOpenedByPeer) = 0 \/ ~ is_local m'.(perspective) m'.(highestStreamOpenedByPeer)) ->
  map_inv m'.
Proof.
  intros Hi Hnew Hused Hid Hs Ho Hsid Hmono Hout Hin Hnext Hpeer.
  assert (Hnot : id ∉ m.(openStreams)) by (intros ?%(inv_used _ Hi); done).
  assert (Hnd : NoDup m'.(openStreams)).
  { rewrite Ho. apply NoDup_app. split_and!; [apply Hi| |apply NoDup_singleton].
    intros x Hx ->%list_elem_of_singleton. done. }
  assert (Hb : forall x, x ∈ m'.(openStreams) -> 0 < x < 2 ^ 32).
  { intros x. rewrite Ho, elem_of_app, list_elem_of_singleton. intros [Hx| ->]; [|done].
    apply (used_bound m); [done|]. by apply (inv_used _ Hi). }
  split; try done.
  - intros x. rewrite Ho, Hs, elem_of_app, list_elem_of_singleton, lookup_insert_is_Some, (inv_dom _ Hi).
    split; [intros [?| ->]; [|by left]|intros [<-|[? ?]]; auto].
    destruct (decide (id = x)); [by left|right; done].
  - intros x sx. rewrite Hs. intros [[<- <-]|[? Hx]]%lookup_insert_Some; [done|]. by apply (inv_ids _ Hi).
  - intros x. rewrite Ho, elem_of_app, list_elem_of_singleton. intros [Hx| ->]; [|done].
    by apply Hmono, (inv_used _ Hi).
  - rewrite Hout, (inv_out _ Hi), Ho, <- count_app. apply u32_small. rewrite <- Ho. by apply count_bound.
  - rewrite Hin, (inv_in _ Hi), Ho, <- count_app. apply u32_small. rewrite <- Ho. by apply count_bound.
Qed.

(** ** Opening streams of the peer *)

Lemma count_parity p id :
  (is_local p id -> match p with PerspectiveServer => count 0 [id] = 1 /\ count 1 [id] = 0
                            | PerspectiveClient => count 0 [id] = 0 /\ count 1 [id] = 1 end)
  /\ (~ is_local p id -> match p with PerspectiveServer => count 0 [id] = 0 /\ count 1 [id] = 1
                            | PerspectiveClient => count 0 [id] = 1 /\ count 1 [id] = 0 end).
Proof.
  rewrite !count_one. pose proof (Z.mod_pos_bound id 2 ltac:(lia)).
  destruct p; cbn [is_local]; repeat case_decide; lia.
Qed.

Lemma in_count_wrap m : map_inv m -> u32 (m.(numOutgoingStreams) + 0) = m.(numOutgoingStreams)
  /\ u32 (m.(numIncomingStreams) + 0) = m.(numIncomingStreams).
Proof.
  intros Hi. rewrite !Z.add_0_r, (inv_out _ Hi), (inv_in _ Hi).
  assert (Hb : forall x, x ∈ m.(openStreams) -> 0 < x < 2 ^ 32)
    by (intros x Hx; apply (used_bound m); [done|]; by apply (inv_used _ Hi)).
  split; apply u32_small, count_bound; try done; apply Hi.
Qed.

(** What an operation of the map keeps: the counters of the limits grow only
    below them, used IDs stay used, closed streams stay closed. *)
Definition limits (st : state) : Prop :=
  st.1.(perspective) = PerspectiveServer ->
  st.1.(numIncomingStreams) <= ConnParams.GetMaxIncomingStreams st.2.(FlowControlManager.params)
  /\ st.1.(numOutgoingStreams) <= ConnParams.GetMaxOutgoingStreams st.2.(FlowControlManager.params).

Definition evolves (st st' : state) : Prop :=
  map_inv st'.1 /\ (limits st -> limits st') /\ st'.1.(perspective) = st.1.(perspective)
  /\ st'.2.(FlowControlManager.params) = st.2.(FlowControlManager.params)
  /\ (forall id, used st.1 id -> used st'.1 id)
  /\ (forall id, used st.1 id -> st.1.(streams) !! id = None -> st'.1.(streams) !! id = None).

Lemma evolves_trans st1 st2 st3 : evolves st1 st2 -> evolves st2 st3 -> evolves st1 st3.
Proof.
  intros (H1 & H2 & H3 & H4 & H5 & H6) (G1 & G2 & G3 & G4 & G5 & G6).
  split_and!; [done|tauto|congruence..|auto|]. intros id Hu Hn. apply G6; auto.
Qed.

Lemma evolves_refl st : map_inv st.1 -> evolves st st.
Proof. intros. split_and!; auto. Qed.

Lemma NewStream_params f id c : (FlowControlManager.NewStream f id c).(FlowControlManager.params)
  = f.(FlowControlManager.params).
Proof. unfold FlowControlManager.NewStream. by case_match. Qed.

(** The next ID of the peer opens a stream, or an error changes nothing. *)
Lemma open_remote_ok (m : t) (f : FlowControlManager.mgr) id (put : t -> Stream.t -> t) :
  map_inv m -> ~ is_local m.(perspective) id -> m.(highestStreamOpenedByPeer) < id < 2 ^ 32 ->
  (forall m s, m.(streams) !! s.(Stream.streamID) = None ->
     (put m s).(streams) = <[s.(Stream.streamID) := s]> m.(streams)
     /\ (put m s).(openStreams) = m.(openStreams) ++ [s.(Stream.streamID)]
     /\ (put m s).(perspective) = m.(perspective) /\ (put m s).(nextStream) = m.(nextStream)
     /\ (put m s).(highestStreamOpenedByPeer) = m.(highestStreamOpenedByPeer)
     /\ (put m s).(numOutgoingStreams) = m.(numOutgoingStreams)
     /\ (put m s).(numIncomingStreams) = m.(numIncomingStreams)) ->
  match admitRemote (m, f) id with
  | (st, Some e) => st = (m, f)
  | ((m1, f1), None) =>
      let '(f2, s) := newStream (m1, f1) id in
      evolves (m, f) (put m1 s, f2) /\ (put m1 s).(highestStreamOpenedByPeer) = id
      /\ is_Some ((put m1 s).(streams) !! id)
      /\ (put m1 s).(nextStream) = m.(nextStream)
  end.
Proof.
  intros Hi Hpar Hid Hput. unfold admitRemote.
  destruct (Z.leb_spec (ConnParams.GetMaxIncomingStreams f.(FlowControlManager.params)) m.(numIncomingStreams))
    as [|Hlim]; [done|].
  destruct (_ <? m.(highestStreamOpenedByPeer)); [done|].
  set (m0 := match m.(perspective) with PerspectiveServer => _ | PerspectiveClient => _ end).
  assert (Hm0 : m0.(streams) = m.(streams) /\ m0.(openStreams) = m.(openStreams)
    /\ m0.(perspective) = m.(perspective) /\ m0.(nextStream) = m.(nextStream)
    /\ m0.(highestStreamOpenedByPeer) = m.(highestStreamOpenedByPeer)
    /\ m0.(numOutgoingStreams) = u32 (m.(numOutgoingStreams) + count 0 [id])
    /\ m0.(numIncomingStreams) = u32 (m.(numIncomingStreams) + count 1 [id])).
  { pose proof (proj2 (count_parity m.(perspective) id) Hpar) as Hc. destruct (in_count_wrap m Hi) as [Ho Hn].
    subst m0. destruct m.(perspective) eqn:E; destruct Hc as [-> ->]; cbn; rewrite ?Ho, ?Hn; by split_and!. }
  destruct Hm0 as (Hs & Ho & Hp & Hn & Hh & Hout & Hin). rewrite Hh.
  destruct (Z.ltb_spec m.(highestStreamOpenedByPeer) id); [|lia]. cbn [newStream].
  set (m1 := set_next m0 _ _ _). set (s := Stream.newStreamType id _).
  assert (Hnew : ~ used m id) by (unfold used; rewrite decide_False by done; lia).
  destruct (Hput m1 s) as (Ps & Po & Pp & Pn & Ph & Pout & Pin).
  { cbn. rewrite Hs. by apply not_open. }
  cbn in Ps, Po, Pp, Pn, Ph, Pout, Pin. rewrite Hs in Ps. rewrite Ho in Po. rewrite Hp in Pp. rewrite Hn in Pn.
  rewrite Hout in Pout. rewrite Hin in Pin.
  assert (Hmono : forall x, used m x -> used (put m1 s) x).
  { unfold used. rewrite Pp, Pn, Ph. intros x [? Hx]. split; [done|]. case_decide; lia. }
  assert (Hinv : map_inv (put m1 s)).
  { apply (inv_open m _ id s); try done.
    - unfold used. rewrite Pp, Ph, decide_False by done. destruct (inv_peer _ Hi). lia.
    - destruct (inv_peer _ Hi). lia.
    - rewrite Pn, Pp. apply Hi.
    - rewrite Ph, Pp. split; [destruct (inv_peer _ Hi); lia|by right]. }
  split_and!; [|done|rewrite Ps, lookup_insert_eq; done|done].
  split_and!; cbn [fst snd]; [done| |done|apply NewStream_params|done|].
  - unfold limits. cbn [fst snd]. rewrite Pp, NewStream_params. intros Hl Hserver. specialize (Hl Hserver).
    pose proof (proj2 (count_parity m.(perspective) id) Hpar) as Hc. rewrite Hserver in Hc.
    destruct Hc as [Hc0 Hc1], (in_count_wrap m Hi) as [Hw _]. rewrite Pout, Pin, Hc0, Hc1, Hw.
    split; [|apply Hl]. etransitivity; [apply Z.mod_le|]; [|lia..]. rewrite (inv_in _ Hi). unfold count. lia.
  - intros x Hx Hnone. rewrite Ps, lookup_insert_ne; [done|]. by intros ->.
Qed.

Lemma putStream_fields m s :
  m.(streams) !! s.(Stream.streamID) = None ->
  let m' := (putStream m s).1 in
  m'.(streams) = <[s.(Stream.streamID) := s]> m.(streams)
  /\ m'.(openStreams) = m.(openStreams) ++ [s.(Stream.streamID)]
  /\ m'.(perspective) = m.(perspective) /\ m'.(nextStream) = m.(nextStream)
  /\ m'.(highestStreamOpenedByPeer) = m.(highestStreamOpenedByPeer)
  /\ m'.(numOutgoingStreams) = m.(numOutgoingStreams) /\ m'.(numIncomingStreams) = m.(numIncomingStreams).
Proof. intros H. unfold putStream. rewrite H. by split_and!. Qed.

Lemma putStreamType_fields marker m s :
  m.(streams) !! s.(Stream.streamID) = None ->
  let m' := (putStreamType m s marker).1 in
  m'.(streams) = <[s.(Stream.streamID) := s]> m.(streams)
  /\ m'.(openStreams) = m.(openStreams) ++ [s.(Stream.streamID)]
  /\ m'.(perspective) = m.(perspective) /\ m'.(nextStream) = m.(nextStream)
  /\ m'.(highestStreamOpenedByPeer) = m.(highestStreamOpenedByPeer)
  /\ m'.(numOutgoingStreams) = m.(numOutgoingStreams) /\ m'.(numIncomingStreams) = m.(numIncomingStreams).
Proof. intros H. unfold putStreamType. rewrite H. by split_and!. Qed.

(** What opening the stream [id] of the peer comes to. *)
Definition remote_opened (st : state) (id : Z) (out : state * option error) : Prop :=
  match out with
  | (st', Some e) => st' = st
  | (st', None) => evolves st st' /\ st'.1.(highestStreamOpenedByPeer) = id
      /\ is_Some (st'.1.(streams) !! id) /\ st'.1.(nextStream) = st.1.(nextStream)
  end.

Lemma openRemoteStream_ok st id :
  map_inv st.1 -> ~ is_local st.1.(perspective) id -> st.1.(highestStreamOpenedByPeer) < id < 2 ^ 32 ->
  remote_opened st id (openRemoteStream st id).
Proof.
  destruct st as [m f]. intros Hi Hpar Hid. unfold openRemoteStream.
  pose proof (open_remote_ok m f id (fun m s => (putStream m s).1) Hi Hpar Hid (putStream_fields)) as H.
  destruct (admitRemote (m, f) id) as [[m1 f1] [e|]]; [done|]. by destruct (newStream (m1, f1) id).
Qed.

Lemma openRemoteStreamType_ok st id marker :
  map_inv st.1 -> ~ is_local st.1.(perspective) id -> st.1.(highestStreamOpenedByPeer) < id < 2 ^ 32 ->
  remote_opened st id (openRemoteStreamType st id marker).
Proof.
  destruct st as [m f]. intros Hi Hpar Hid. unfold openRemoteStreamType.
  pose proof (open_remote_ok m f id (fun m s => (putStreamType m s marker).1) Hi Hpar Hid
                (putStreamType_fields marker)) as H.
  destruct (admitRemote (m, f) id) as [[m1 f1] [e|]]; [done|]. by destruct (newStream (m1, f1) id).
Qed.

(** The loop opens all the streams up to [id]. *)
Lemma openLoop_ok id : forall fuel st sid,
  map_inv st.1 -> ~ is_local st.1.(perspective) id -> sid mod 2 = id mod 2 ->
  st.1.(highestStreamOpenedByPeer) < sid -> sid <= id + 2 -> id < 2 ^ 32 - 2 -> Z.to_nat ((id - sid) / 2 + 1) = fuel ->
  (sid > id -> st.1.(highestStreamOpenedByPeer) = id /\ is_Some (st.1.(streams) !! id)) ->
  exists st' err, openLoop fuel sid id st = Some (st', err) /\ evolves st st'
    /\ st'.1.(nextStream) = st.1.(nextStream)
    /\ (err = None -> st'.1.(highestStreamOpenedByPeer) = id /\ is_Some (st'.1.(streams) !! id)).
Proof.
  induction fuel as [|fuel IH]; intros st sid Hi Hpar Hsid Hlo Hhi Hid Hf Hdone; cbn [openLoop].
  - destruct (Z.leb_spec sid id) as [Hle|]; [|exists st, None; split_and!; eauto using evolves_refl with lia].
    exfalso. pose proof (Z.div_pos (id - sid) 2 ltac:(lia) ltac:(lia)). lia.
  - destruct (Z.leb_spec sid id) as [Hle|]; [|exists st, None; split_and!; eauto using evolves_refl with lia].
    assert (Hpar' : ~ is_local st.1.(perspective) sid).
    { destruct st.1.(perspective); cbn [is_local] in *; lia. }
    pose proof (openRemoteStream_ok st sid Hi Hpar' ltac:(lia)) as Hopen.
    destruct (openRemoteStream st sid) as [st1 [e|]].
    { cbn in Hopen. subst. exists st, (Some e). split_and!; eauto using evolves_refl. done. }
    destruct Hopen as (Hev & Hh & Hs & Hn). destruct (inv_peer _ Hi). rewrite u32_small by lia.
    pose proof Hev as (Hi1 & _ & Hp & _).
    destruct (IH st1 (sid + 2)) as (st' & err & E & Hev' & Hn' & Hd); try done; try lia.
    + by rewrite Hp.
    + rewrite <- Z.add_mod_idemp_r by lia. cbn. by rewrite Z.add_0_r.
    + assert (Hq : (id - (sid + 2)) / 2 = (id - sid) / 2 - 1)
        by (replace (id - (sid + 2)) with (id - sid + (-1) * 2) by lia; rewrite Z.div_add by lia; lia).
      rewrite Hq. pose proof (Z.div_pos (id - sid) 2 ltac:(lia) ltac:(lia)). lia.
    + intros Hgt. assert (sid = id) as ->; [|done].
      assert (Hm : (id - sid) mod 2 = 0) by (rewrite Zminus_mod, Hsid, Z.sub_diag; done).
      assert (id - sid = 0 \/ id - sid = 1) as [?|H1] by lia; [lia|]. by rewrite H1 in Hm.
    + exists st', err. split_and!; try done; [by eapply evolves_trans|congruence].
Qed.

Ltac mod2 := Z.to_euclidean_division_equations; lia.

Lemma nextRemote_ok m id :
  map_inv m -> ~ is_local m.(perspective) id -> m.(highestStreamOpenedByPeer) < id < 2 ^ 32 ->
  nextRemote m mod 2 = id mod 2 /\ m.(highestStreamOpenedByPeer) < nextRemote m <= id.
Proof.
  intros Hi Hpar Hid. destruct (inv_peer _ Hi) as [Hb Hh]. unfold nextRemote.
  assert (Hstep : m.(highestStreamOpenedByPeer) = 0 \/ m.(highestStreamOpenedByPeer) + 2 <= id).
  { destruct Hh as [|Hh]; [by left|right]. destruct m.(perspective); cbn [is_local] in *; mod2. }
  destruct Hstep as [H0|Hle].
  - rewrite H0 in *. change (u32 (0 + 2)) with 2. destruct m.(perspective); cbn [is_local Z.eqb Pos.eqb] in *; mod2.
  - rewrite u32_small by lia. destruct m.(perspective); cbn [is_local] in *; [|mod2].
    destruct (Z.eqb_spec (m.(highestStreamOpenedByPeer) + 2) 2); mod2.
Qed.

Lemma lookupRemote_None m id :
  map_inv m -> 0 <= id -> lookupRemote m id = None ->
  ~ is_local m.(perspective) id /\ m.(highestStreamOpenedByPeer) < id.
Proof.
  intros Hi Hid. unfold lookupRemote. destruct (m.(streams) !! id); [done|].
  destruct m.(perspective); cbn [is_local]; zcases; try done.
Qed.

(** [GetOrOpenStream] ends, and returns the stream unless it was closed before or
    an error is reported. *)
Lemma GetOrOpenStream_ok st id :
  map_inv st.1 -> 0 <= id < 2 ^ 32 - 2 ->
  exists st' r, GetOrOpenStream st id = Some (st', r) /\ evolves st st'
    /\ st'.1.(nextStream) = st.1.(nextStream)
    /\ (r = Ok None -> st'.1.(streams) !! id = None)
    /\ (forall x, r = Ok (Some x) -> x = id /\ is_Some (st'.1.(streams) !! id)).
Proof.
  intros Hi Hid. unfold GetOrOpenStream. destruct (lookupRemote st.1 id) as [r|] eqn:Hl.
  - exists st, r. split_and!; auto using evolves_refl; revert Hl; unfold lookupRemote;
      destruct (st.1.(streams) !! id) eqn:E.
    + by intros [= <-].
    + done.
    + intros [= <-] x [= <-]. done.
    + intros Hl x ->. destruct st.1.(perspective); repeat case_match; simplify_eq.
  - destruct (lookupRemote_None st.1 id Hi ltac:(lia) Hl) as [Hpar Hhi].
    destruct (nextRemote_ok st.1 id Hi Hpar ltac:(lia)) as [Hm Hn].
    destruct (openLoop_ok id _ st (nextRemote st.1) Hi Hpar Hm ltac:(lia) ltac:(lia) ltac:(lia) eq_refl ltac:(intros ?; exfalso; lia))
      as (st' & err & -> & Hev & Hnx & Hd).
    destruct err as [e|]; [by exists st', (Err e); split_and!|].
    destruct (Hd eq_refl) as [_ [s Hs]].
    exists st', (Ok (handle st'.1 id)). unfold handle. rewrite Hs. split_and!; try done.
    intros x [= <-]. done.
Qed.

Lemma GetOrOpenStreamType_ok st id marker :
  map_inv st.1 -> 0 <= id < 2 ^ 32 ->
  evolves st (GetOrOpenStreamType st id marker).1
  /\ (GetOrOpenStreamType st id marker).1.1.(nextStream) = st.1.(nextStream).
Proof.
  intros Hi Hid. unfold GetOrOpenStreamType. destruct (lookupRemote st.1 id) as [r|] eqn:Hl;
    [auto using evolves_refl|].
  destruct (lookupRemote_None st.1 id Hi ltac:(lia) Hl) as [Hpar Hhi].
  destruct (nextRemote_ok st.1 id Hi Hpar ltac:(lia)) as [Hm Hn].
  assert (Hpar' : ~ is_local st.1.(perspective) (nextRemote st.1))
    by (destruct st.1.(perspective); cbn [is_local] in *; lia).
  pose proof (openRemoteStreamType_ok st (nextRemote st.1) marker Hi Hpar' ltac:(lia)) as H.
  destruct (openRemoteStreamType _ _ _) as [st' [e|]]; cbn in *; [subst; auto using evolves_refl|].
  destruct H as (? & ? & ? & ?). done.
Qed.

(** ** Opening streams of this side *)

Lemma openLocal_ok st marker :
  map_inv st.1 -> st.1.(nextStream) + 2 < 2 ^ 32 ->
  match openLocal st marker with
  | (st', Ok id) => evolves st st' /\ id = st.1.(nextStream) /\ is_Some (st'.1.(streams) !! id)
      /\ ~ used st.1 id /\ st'.1.(nextStream) = st.1.(nextStream) + 2
  | (st', r) => st' = st /\ r = Err TooManyOpenStreams
  end.
Proof.
  destruct st as [m f]. cbn [fst]. intros Hi Hb. unfold openLocal.
  destruct (Z.leb_spec (ConnParams.GetMaxOutgoingStreams f.(FlowControlManager.params)) m.(numOutgoingStreams))
    as [|Hlim]; [done|].
  set (id := m.(nextStream)) in *. destruct (inv_next _ Hi) as [Hn Hpar]. fold id in Hn, Hpar.
  set (m0 := match m.(perspective) with PerspectiveServer => _ | PerspectiveClient => _ end).
  assert (Hm0 : m0.(streams) = m.(streams) /\ m0.(openStreams) = m.(openStreams)
    /\ m0.(perspective) = m.(perspective) /\ m0.(nextStream) = m.(nextStream)
    /\ m0.(highestStreamOpenedByPeer) = m.(highestStreamOpenedByPeer)
    /\ m0.(numOutgoingStreams) = u32 (m.(numOutgoingStreams) + count 0 [id])
    /\ m0.(numIncomingStreams) = u32 (m.(numIncomingStreams) + count 1 [id])).
  { pose proof (proj1 (count_parity m.(perspective) id) Hpar) as Hc. destruct (in_count_wrap m Hi) as [Ho Hi'].
    subst m0. destruct m.(perspective) eqn:E; destruct Hc as [-> ->]; cbn; rewrite ?Ho, ?Hi'; by split_and!. }
  destruct Hm0 as (Hs & Ho & Hp & Hnx & Hh & Hout & Hin). cbn [newStream].
  set (m1 := set_next m0 _ _ _). set (s := Stream.newStreamType id _).
  assert (Hnew : ~ used m id) by (unfold used; rewrite decide_True by done; subst id; lia).
  destruct (putStreamType_fields marker m1 s) as (Ps & Po & Pp & Pn & Ph & Pout & Pin).
  { cbn. rewrite Hs. by apply not_open. }
  cbn in Ps, Po, Pp, Pn, Ph, Pout, Pin. rewrite Hs in Ps. rewrite Ho in Po. rewrite Hp in Pp.
  rewrite Hnx, u32_small in Pn by (subst id; lia). rewrite Hh in Ph.
  rewrite Hout in Pout. rewrite Hin in Pin. set (m2 := (putStreamType m1 s marker).1) in *.
  assert (Hmono : forall x, used m x -> used m2 x).
  { unfold used. rewrite Pp, Pn, Ph. intros x [? Hx]. split; [done|]. case_decide; lia. }
  assert (Hinv : map_inv m2).
  { apply (inv_open m _ id s); try done.
    - unfold used. rewrite Pp, Pn, decide_True by done. subst id. lia.
    - rewrite Pn, Pp. split; [subst id; lia|]. destruct m.(perspective); cbn [is_local] in *; mod2.
    - rewrite Ph, Pp. apply Hi. }
  split; [|split; [done|split; [cbn [fst]; rewrite Ps, lookup_insert_eq; done|by split]]].
  split_and!; cbn [fst snd]; [done| |done|apply NewStream_params|done|].
  - unfold limits. cbn [fst snd]. rewrite Pp, NewStream_params. intros Hl Hserver. specialize (Hl Hserver).
    pose proof (proj1 (count_parity m.(perspective) id) Hpar) as Hc. rewrite Hserver in Hc.
    destruct Hc as [Hc0 Hc1], (in_count_wrap m Hi) as [_ Hw]. rewrite Pout, Pin, Hc0, Hc1, Hw.
    split; [apply Hl|]. etransitivity; [apply Z.mod_le|]; [|lia..]. rewrite (inv_out _ Hi). unfold count. lia.
  - intros x Hx Hnone. rewrite Ps, lookup_insert_ne; [done|]. by intros ->.
Qed.

(** ** Operations that leave the set of the open streams alone *)

Lemma inv_same st st' :
  map_inv st.1 -> st'.1.(perspective) = st.1.(perspective) -> st'.1.(openStreams) = st.1.(openStreams) ->
  st'.1.(nextStream) = st.1.(nextStream) ->
  st'.1.(highestStreamOpenedByPeer) = st.1.(highestStreamOpenedByPeer) ->
  st'.1.(numOutgoingStreams) = st.1.(numOutgoingStreams) ->
  st'.1.(numIncomingStreams) = st.1.(numIncomingStreams) ->
  (forall id, Stream.streamID <$> (st'.1.(streams) !! id) = Stream.streamID <$> (st.1.(streams) !! id)) ->
  st'.2.(FlowControlManager.params) = st.2.(FlowControlManager.params) ->
  evolves st st'.
Proof.
  intros Hi Hp Ho Hn Hh Hout Hin Hs Hpar.
  assert (Hused : forall id, used st'.1 id <-> used st.1 id) by (intros id; unfold used; by rewrite Hp, Hn, Hh).
  assert (Hsome : forall id, is_Some (st'.1.(streams) !! id) <-> is_Some (st.1.(streams) !! id)).
  { intros id. specialize (Hs id). rewrite <- !not_eq_None_Some.
    destruct (st'.1.(streams) !! id), (st.1.(streams) !! id); naive_solver. }
  split_and!; try done.
  - split; rewrite ?Ho, ?Hn, ?Hh, ?Hp, ?Hout, ?Hin; try apply Hi.
    + intros id. rewrite Hsome. apply Hi.
    + intros id s E. specialize (Hs id). rewrite E in Hs.
      destruct (st.1.(streams) !! id) as [s0|] eqn:E0; [|done]. injection Hs as ->. by apply (inv_ids _ Hi).
    + intros id Hid. apply Hused. by apply (inv_used _ Hi).
  - unfold limits. by rewrite Hp, Hin, Hout, Hpar.
  - intros id. by apply Hused.
  - intros id _ E. specialize (Hs id). rewrite E in Hs. by destruct (st'.1.(streams) !! id).
Qed.

Lemma AcceptStream_ok st : map_inv st.1 -> evolves st (AcceptStream st).1.
Proof.
  destruct st as [m f]. intros Hi. unfold AcceptStream.
  repeat case_match; auto using evolves_refl. by apply inv_same.
Qed.

(** ** Closing streams *)

Lemma cutID_perm id : forall ids i j ids', cutID id i ids = Some (j, ids') -> ids ≡ₚ id :: ids'.
Proof.
  induction ids as [|x ids IH]; intros i j ids'; cbn [cutID]; [done|].
  destruct (Z.eqb_spec x id) as [->|]; [by intros [= <- <-]|].
  destruct (cutID id (i + 1) ids) as [[k l]|] eqn:E; [|done]. intros [= <- <-].
  rewrite (IH _ _ _ E). apply Permutation_swap.
Qed.

Lemma cutID_Some id : forall ids i, id ∈ ids -> exists j ids', cutID id i ids = Some (j, ids').
Proof.
  induction ids as [|x ids IH]; intros i; [by intros ?%elem_of_nil|]. cbn [cutID].
  destruct (Z.eqb_spec x id) as [->|Hne]; [by eauto|]. intros [?|Hid]%elem_of_cons; [congruence|].
  destruct (IH (i + 1) Hid) as (j & l & ->). by eauto.
Qed.

Lemma count_perm r l1 l2 : l1 ≡ₚ l2 -> count r l1 = count r l2.
Proof. intros H. unfold count. by rewrite H. Qed.

Lemma count_cons r id ids : count r (id :: ids) = count r [id] + count r ids.
Proof. by rewrite <- count_app. Qed.

(** The map once the stream [id] is taken out. *)
Lemma inv_remove m m' id ids' :
  map_inv m -> m.(openStreams) ≡ₚ id :: ids' ->
  m'.(perspective) = m.(perspective) -> m'.(openStreams) = ids' -> m'.(streams) = delete id m.(streams) ->
  m'.(nextStream) = m.(nextStream) -> m'.(highestStreamOpenedByPeer) = m.(highestStreamOpenedByPeer) ->
  m'.(numOutgoingStreams) = u32 (m.(numOutgoingStreams) - count 0 [id]) ->
  m'.(numIncomingStreams) = u32 (m.(numIncomingStreams) - count 1 [id]) ->
  map_inv m' /\ m'.(numOutgoingStreams) <= m.(numOutgoingStreams)
  /\ m'.(numIncomingStreams) <= m.(numIncomingStreams).
Proof.
  intros Hi Hperm Hp Ho Hs Hn Hh Hout Hin.
  pose proof (inv_nodup _ Hi) as Hnd. rewrite Hperm in Hnd. apply NoDup_cons in Hnd as [Hnot Hnd].
  assert (Hb : forall x, x ∈ ids' -> 0 < x < 2 ^ 32).
  { intros x Hx. apply (used_bound m); [done|]. apply (inv_used _ Hi). rewrite Hperm. by right. }
  assert (Hcount : forall r, u32 (count r m.(openStreams) - count r [id]) = count r ids').
  { intros r. rewrite (count_perm r _ _ Hperm), count_cons.
    replace (count r [id] + count r ids' - count r [id]) with (count r ids') by lia.
    apply u32_small. by apply count_bound. }
  rewrite (inv_out _ Hi), Hcount in Hout. rewrite (inv_in _ Hi), Hcount in Hin.
  assert (Hle : forall r, count r ids' <= count r m.(openStreams)).
  { intros r. rewrite (count_perm r _ _ Hperm), count_cons. unfold count at 2. lia. }
  split; [|rewrite Hout, Hin, (inv_out _ Hi), (inv_in _ Hi); auto].
  split; rewrite ?Ho, ?Hn, ?Hh, ?Hp; try done; try apply Hi.
  - intros x. rewrite Hs, lookup_delete_is_Some, <- (inv_dom _ Hi), Hperm, elem_of_cons.
    split; [intros Hx; split; [by intros ->|by right]|]. intros [? [|]]; congruence.
  - intros x s. rewrite Hs. intros [_ Hx]%lookup_delete_Some. by apply (inv_ids _ Hi).
  - intros x Hx. unfold used. rewrite Hp, Hn, Hh. apply (inv_used _ Hi). rewrite Hperm. by right.
Qed.

Lemma RemoveStream_ok st id :
  map_inv st.1 ->
  let '(m', err) := RemoveStream st.1 id in
  evolves st (m', st.2) /\ m'.(nextStream) = st.1.(nextStream)
  /\ (err = None -> m'.(streams) !! id = None)
  /\ (err <> None -> m' = st.1 /\ st.1.(streams) !! id = None).
Proof.
  destruct st as [m f]. cbn [fst snd]. intros Hi. unfold RemoveStream.
  destruct (m.(streams) !! id) as [s|] eqn:E; [|split_and!; auto using evolves_refl; done].
  assert (Hopen : id ∈ m.(openStreams)) by (apply (inv_dom _ Hi); by rewrite E).
  set (m0 := if id mod 2 =? 0 then _ else _).
  assert (Hm0 : m0.(openStreams) = m.(openStreams) /\ m0.(streams) = m.(streams)
    /\ m0.(perspective) = m.(perspective) /\ m0.(nextStream) = m.(nextStream)
    /\ m0.(highestStreamOpenedByPeer) = m.(highestStreamOpenedByPeer)
    /\ m0.(numOutgoingStreams) = u32 (m.(numOutgoingStreams) - count 0 [id])
    /\ m0.(numIncomingStreams) = u32 (m.(numIncomingStreams) - count 1 [id])).
  { pose proof (in_count_wrap m Hi) as [H0 H1]. rewrite Z.add_0_r in H0, H1. rewrite !count_one.
    pose proof (Z.mod_pos_bound id 2 ltac:(lia)).
    subst m0. destruct (Z.eqb_spec (id mod 2) 0) as [->|]; cbn; split_and!; try done; repeat case_decide;
      try lia; by rewrite Z.sub_0_r. }
  destruct Hm0 as (Ho & Hs & Hp & Hn & Hh & Hout & Hin). rewrite Ho.
  destruct (cutID_Some id _ 0 Hopen) as (i & ids & Ecut). rewrite Ecut.
  set (m1 := if i <? _ then _ else _).
  assert (Hm1 : m1 = set_open m0 m0.(streams) ids \/ exists r, m1 = set_robin (set_open m0 m0.(streams) ids) r m0.(unreliableRobinIndex))
    by (subst m1; case_match; [right; by eexists|by left]).
  destruct (inv_remove m (set_streams m1 (delete id m1.(streams))) id ids) as (Hinv & Hlo & Hli);
    [done|by eapply cutID_perm|destruct Hm1 as [->|[r ->]]; cbn; by rewrite ?Hs..|].
  assert (Hf : m1.(perspective) = m.(perspective) /\ m1.(nextStream) = m.(nextStream)
    /\ m1.(highestStreamOpenedByPeer) = m.(highestStreamOpenedByPeer) /\ m1.(streams) = m.(streams))
    by (destruct Hm1 as [->|[r ->]]; cbn; by rewrite ?Hs).
  destruct Hf as (Fp & Fn & Fh & Fs).
  split; [|split; [by rewrite <- Fn|split; [intros _; cbn; by rewrite lookup_delete_eq|done]]].
  split_and!; cbn [fst snd]; try done.
  - unfold limits. cbn [fst snd set_streams perspective] in *. rewrite Fp. intros Hl Hserver.
    specialize (Hl Hserver). cbn in *. lia.
  - intros x. unfold used. cbn. by rewrite Fp, Fn, Fh.
  - intros x _ Hx. cbn. rewrite Fs. apply lookup_delete_None. by right.
Qed.

Lemma cancelAll_ok e ids : forall streams,
  (forall id, id ∈ ids -> is_Some (streams !! id)) ->
  exists streams', cancelAll e ids streams = Some streams'
    /\ forall id, Stream.streamID <$> (streams' !! id) = Stream.streamID <$> (streams !! id).
Proof.
  induction ids as [|id ids IH]; intros streams Hall; cbn [cancelAll]; [by exists streams|].
  destruct (Hall id) as [s Hs]; [left|]. rewrite Hs.
  destruct (IH (<[id := Stream.Cancel s (Some e)]> streams)) as (streams' & -> & Hid).
  { intros x Hx. apply lookup_insert_is_Some'. right. apply Hall. by right. }
  exists streams'. split; [done|]. intros x. rewrite Hid. destruct (decide (id = x)) as [<-|].
  - rewrite lookup_insert_eq, Hs. cbn. f_equal. unfold Stream.Cancel. by destruct (Stream.err _).
  - by rewrite lookup_insert_ne.
Qed.

Lemma CloseWithError_ok st e :
  map_inv st.1 -> exists m', CloseWithError st.1 e = Ok m' /\ evolves st (m', st.2)
    /\ m'.(nextStream) = st.1.(nextStream).
Proof.
  intros Hi. unfold CloseWithError.
  destruct (cancelAll_ok e st.1.(openStreams) st.1.(streams)) as (streams' & -> & Hs).
  { intros id. apply Hi. }
  eexists. split; [done|]. split; [by apply inv_same|done].
Qed.

Lemma collect_ok id (st : state) :
  map_inv st.1 -> evolves st (collect id (st, tt)).1.1
  /\ (collect id (st, tt)).1.1.1.(nextStream) = st.1.(nextStream).
Proof.
  destruct st as [m f]. intros Hi. unfold collect. destruct (m.(streams) !! id) as [s|]; [|auto using evolves_refl].
  destruct (Stream.finished s); [|auto using evolves_refl].
  pose proof (RemoveStream_ok (m, f) id Hi) as H. cbn [fst snd] in H.
  destruct (RemoveStream m id) as [m' [e|]]; destruct H as (Hev & Hn & _);
    (split; [exact Hev|exact Hn]).
Qed.

Lemma garbageCollect_ok (st : state) :
  map_inv st.1 -> evolves st (garbageCollectStreams st)
  /\ (garbageCollectStreams st).1.(nextStream) = st.1.(nextStream).
Proof.
  intros Hi. unfold garbageCollectStreams, Iterate. cbn [fst]. generalize st.1.(openStreams). intros ids.
  revert st Hi. induction ids as [|id ids IH]; intros st Hi; cbn [iterateLoop fst]; [auto using evolves_refl|].
  unfold iterateFunc. cbn [fst]. destruct (st.1.(streams) !! id); [|cbn; auto using evolves_refl].
  destruct (collect_ok id st Hi) as [Hev Hn]. destruct (collect id (st, tt)) as [[st1 []] [cont [e|]]];
    cbn [fst snd] in *; [destruct cont; exact (conj Hev Hn)|]. destruct cont; [|exact (conj Hev Hn)]. pose proof Hev as (Hi1 & _).
  destruct (IH st1 Hi1) as [Hev' Hn']. split; [by eapply evolves_trans|congruence].
Qed.

(** ** Runs *)

Inductive op : Type :=
| OpGetOrOpen (id : Z)
| OpGetOrOpenType (id : Z) (marker : bool)
| OpOpen
| OpOpenUnreliable
| OpOpenSync
| OpAccept
| OpRemove (id : Z)
| OpCollect
| OpClose (e : error)
| OpMark (id : Z)
| OpStream (id : Z) (s : Stream.t)
| OpFlow (g : FlowControlManager.mgr -> FlowControlManager.mgr).

(** One operation; [None] when it does not end or panics.  [OpMark] is the
    unpacker's mark, [OpStream] and [OpFlow] are the changes that the operations
    of a stream and of flow control make. *)
Definition step (st : state) (o : op) : option state :=
  match o with
  | OpGetOrOpen id => fst <$> GetOrOpenStream st id
  | OpGetOrOpenType id marker => Some (GetOrOpenStreamType st id marker).1
  | OpOpen => Some (OpenStream st).1
  | OpOpenUnreliable => Some (OpenUnreliableStream st).1
  | OpOpenSync => Some (OpenStreamSync st).1
  | OpAccept => Some (AcceptStream st).1
  | OpRemove id => Some ((RemoveStream st.1 id).1, st.2)
  | OpCollect => Some (garbageCollectStreams st)
  | OpClose e => match CloseWithError st.1 e with Ok m => Some (m, st.2) | _ => None end
  | OpMark id => Some (set_mark st.1 id true, st.2)
  | OpStream id s =>
      Some (match st.1.(streams) !! id with
            | Some _ => (set_streams st.1 (<[id := s]> st.1.(streams)), st.2)
            | None => st
            end)
  | OpFlow g => Some (st.1, g st.2)
  end.

Fixpoint run (st : state) (ops : list op) : option state :=
  match ops with [] => Some st | o :: ops => st' ← step st o; run st' ops end.

(** Stream IDs are 32-bit numbers; the two largest ones are the subject of
    [GetOrOpenStream]'s comment.  A stream keeps its ID, flow control its parameters. *)
Definition honest (o : op) : Prop :=
  match o with
  | OpGetOrOpen id | OpGetOrOpenType id _ => 0 <= id < 2 ^ 32 - 2
  | OpStream id s => s.(Stream.streamID) = id
  | OpFlow g => forall f, (g f).(FlowControlManager.params) = f.(FlowControlManager.params)
  | _ => True
  end.

Lemma openLocal_evolves st marker :
  map_inv st.1 -> st.1.(nextStream) + 2 < 2 ^ 32 ->
  evolves st (openLocal st marker).1 /\ (openLocal st marker).1.1.(nextStream) <= st.1.(nextStream) + 2.
Proof.
  intros Hi Hb. pose proof (openLocal_ok st marker Hi Hb) as H.
  destruct (openLocal st marker) as [st' [id|e|]]; cbn [fst].
  - destruct H as (Hev & _ & _ & _ & Hn). split; [exact Hev|lia].
  - destruct H as [-> _]. split; [by apply evolves_refl|lia].
  - destruct H as [_ ?]. done.
Qed.

Lemma map_step_ok st o :
  map_inv st.1 -> st.1.(nextStream) + 2 < 2 ^ 32 -> honest o ->
  exists st', step st o = Some st' /\ evolves st st' /\ st'.1.(nextStream) <= st.1.(nextStream) + 2.
Proof.
  intros Hi Hb Ho. pose proof (evolves_refl st Hi) as Hrefl.
  assert (Hr : evolves st st /\ st.1.(nextStream) <= st.1.(nextStream) + 2) by (split; [done|lia]).
  destruct o as [id|id marker| | | | |id| |e|id|id s|g]; cbn [step]; eauto.
  - destruct (GetOrOpenStream_ok st id Hi Ho) as (st' & r & -> & Hev & Hn & _). exists st'.
    split; [done|]. split; [done|lia].
  - eexists. split; [done|]. cbn in Ho. destruct (GetOrOpenStreamType_ok st id marker Hi ltac:(lia)) as [? ->].
    split; [done|lia].
  - eexists. split; [done|]. unfold OpenStream. case_match; [done|by apply openLocal_evolves].
  - eexists. split; [done|]. unfold OpenUnreliableStream. case_match; [done|by apply openLocal_evolves].
  - eexists. split; [done|]. unfold OpenStreamSync. case_match; [done|].
    pose proof (openLocal_evolves st false Hi Hb) as Hloc. unfold openStreamImpl.
    destruct (openLocal st false) as [st' [id|e|]]; try done. by case_decide.
  - eexists. split; [done|]. split; [by apply AcceptStream_ok|].
    destruct st as [m f]. unfold AcceptStream. repeat case_match; cbn; lia.
  - eexists. split; [done|]. pose proof (RemoveStream_ok st id Hi) as H.
    destruct (RemoveStream st.1 id) as [m' err]. destruct H as (Hev & Hn & _). cbn [fst]. split; [done|lia].
  - eexists. split; [done|]. destruct (garbageCollect_ok st Hi) as [? ->]. split; [done|lia].
  - destruct (CloseWithError_ok st e Hi) as (m' & -> & Hev & Hn). eexists. split; [done|].
    split; [done|cbn [fst]; lia].
  - eexists. split; [done|]. split; [by apply inv_same|cbn; lia].
  - eexists. split; [done|]. destruct (st.1.(streams) !! id) as [s0|] eqn:E; [|done].
    split; [|cbn; lia]. apply inv_same; try done. intros x. cbn. destruct (decide (id = x)) as [<-|].
    + rewrite lookup_insert_eq, E. cbn. cbn in Ho. by rewrite Ho, (inv_ids _ Hi _ _ E).
    + by rewrite lookup_insert_ne.
  - eexists. split; [done|]. split; [|cbn; lia]. apply inv_same; try done. cbn. apply Ho.
Qed.

Lemma run_ok ops : forall st,
  map_inv st.1 -> Forall honest ops -> st.1.(nextStream) + 2 * Z.of_nat (length ops) < 2 ^ 32 ->
  exists st', run st ops = Some st' /\ evolves st st'
    /\ st'.1.(nextStream) <= st.1.(nextStream) + 2 * Z.of_nat (length ops).
Proof.
  induction ops as [|o ops IH]; intros st Hi Hops Hb; cbn [run].
  - exists st. split; [done|]. split; [by apply evolves_refl|cbn; lia].
  - apply Forall_cons in Hops as [Ho Hops]. rewrite length_cons in Hb.
    destruct (map_step_ok st o Hi ltac:(lia) Ho) as (st1 & E & Hev & Hn). pose proof Hev as (Hi1 & _).
    destruct (IH st1 Hi1 Hops ltac:(lia)) as (st2 & E2 & Hev2 & Hn2). exists st2.
    rewrite length_cons. cbn. rewrite E. cbn. split; [done|]. split; [by eapply evolves_trans|lia].
Qed.

Lemma map_new_inv pers : map_inv (newStreamsMap pers).
Proof.
  destruct pers; split; cbn; try done; try (by apply NoDup_nil);
    try (intros id; rewrite lookup_empty, elem_of_nil; split; [done|by intros []]);
    try (intros id s; by rewrite lookup_empty); try (by intros id ?%elem_of_nil);
    split; try lia; by left.
Qed.

(** C19: the books of the streams map.  After every sequence of fewer than 2^30
    operations (streams opened by this side, by received frames, accepted,
    removed, collected, cancelled, used), none of which fails to end or panics:
    the list of the open streams has no duplicates and is exactly the set of the
    streams in the map; each stream is filed under its ID; the counters are the
    numbers of open streams with even and odd IDs; a server never has more
    streams open than its limits allow; and from there on a stream that was
    closed is never opened again. *)
Theorem streams_map_books (pers : Perspective) (f : FlowControlManager.mgr) (ops : list op)
  (Hops : Forall honest ops) (Hlen : Z.of_nat (length ops) < 2 ^ 30)
  (Hmax : 0 <= ConnParams.GetMaxOutgoingStreams f.(FlowControlManager.params)) :
  exists m f', run (newStreamsMap pers, f) ops = Some (m, f')
  /\ NoDup m.(openStreams)
  /\ (forall id, id ∈ m.(openStreams) <-> is_Some (m.(streams) !! id))
  /\ (forall id s, m.(streams) !! id = Some s -> s.(Stream.streamID) = id)
  /\ m.(numOutgoingStreams) = count 0 m.(openStreams)
  /\ m.(numIncomingStreams) = count 1 m.(openStreams)
  /\ (pers = PerspectiveServer ->
      count 1 m.(openStreams) <= 110
      /\ count 0 m.(openStreams) <= ConnParams.GetMaxOutgoingStreams f.(FlowControlManager.params))
  /\ forall o st' id, honest o -> step (m, f') o = Some st' -> used m id -> m.(streams) !! id = None ->
       used st'.1 id /\ st'.1.(streams) !! id = None.
Proof.
  assert (Hn : (newStreamsMap pers).(nextStream) <= 2) by (by destruct pers).
  assert (Hnew : limits (newStreamsMap pers, f)) by (destruct pers; intros ?; (split; [by vm_compute|exact Hmax])).
  destruct (run_ok ops (newStreamsMap pers, f) (map_new_inv pers) Hops) as ([m f'] & Hrun & Hev & Hb);
    [cbn [fst]; lia|]. exists m, f'. pose proof Hev as (Hi & Hl & Hp & Hpar & _). cbn [fst snd] in *.
  split_and!; try done; try apply Hi.
  - intros ->. rewrite <- (inv_in _ Hi), <- (inv_out _ Hi), <- Hpar. by apply Hl.
  - intros o st' id Ho Hs Hu Hnone.
    destruct (map_step_ok (m, f') o Hi ltac:(cbn [fst]; lia) Ho) as (st'' & E & (_ & _ & _ & _ & H1 & H2) & _).
    cbn [fst] in *. simplify_eq. split; auto.
Qed.

(** A server: streams opened by the peer out of order, one of its own, a removal. *)
Definition demo_params : ConnParams.t := ConnParams.New PerspectiveServer Version39 1048576 1572864 30000000000.

Definition demo_ops : list op :=
  [OpGetOrOpen 7; OpAccept; OpOpen; OpGetOrOpen 5; OpRemove 5; OpGetOrOpen 5; OpOpenUnreliable;
   OpMark 9; OpGetOrOpen 9; OpOpenSync; OpRemove 2; OpCollect].

Lemma streams_map_books_witness :
  exists m f', run (newStreamsMap PerspectiveServer, FlowControlManager.NewFlowControlManager demo_params) demo_ops
    = Some (m, f')
  /\ m.(openStreams) = [1; 3; 7; 4; 9; 6] /\ m.(numIncomingStreams) = 4 /\ m.(numOutgoingStreams) = 2
  /\ count 1 m.(openStreams) <= 110.
Proof.
  destruct (streams_map_books PerspectiveServer (FlowControlManager.NewFlowControlManager demo_params) demo_ops)
    as (m & f' & E & _ & _ & _ & _ & _ & Hl & _).
  - unfold demo_ops. repeat apply Forall_cons_2; try apply Forall_nil_2; try exact I; cbn; lia.
  - vm_compute. reflexivity.
  - vm_compute. discriminate.
  - exists m, f'. split; [exact E|]. vm_compute in E. injection E as <- <-.
    split; [reflexivity|]. split; [reflexivity|]. split; [reflexivity|]. apply Hl. reflexivity.
Defined.

(** ** Round robin *)

(** The function that notes the streams it is called for. *)
Definition note : streamLambda (list Z) := fun id p => ((p.1, p.2 ++ [id]), (true, None)).

(** The streams a loop of the round robin calls the function for. *)
Definition picked (marked : bool) (m : t) (ids : list Z) : list Z :=
  filter (fun id => id <> 1 /\ id <> 3 /\ (is_Some (m.(unreliableStreamMark) !! id) <-> marked = true)) ids.

(** The maps that differ in the indices only. *)
Definition same_but_robin (m m' : t) : Prop := exists r u, m' = set_robin m r u.

Lemma same_but_robin_refl m : same_but_robin m m.
Proof. exists m.(roundRobinIndex), m.(unreliableRobinIndex). by destruct m. Qed.

Lemma same_but_robin_trans m1 m2 m3 : same_but_robin m1 m2 -> same_but_robin m2 m3 -> same_but_robin m1 m3.
Proof. intros (r & u & ->) (r' & u' & ->). by exists r', u'. Qed.

Lemma picked_same marked m m' ids : same_but_robin m m' -> picked marked m' ids = picked marked m ids.
Proof. by intros (r & u & ->). Qed.

Lemma picked_cons marked m id ids :
  picked marked m (id :: ids)
  = if (id =? 1) || (id =? 3) then picked marked m ids
    else if negb (Bool.eqb marked (bool_decide (is_Some (m.(unreliableStreamMark) !! id))))
    then picked marked m ids else id :: picked marked m ids.
Proof.
  unfold picked. rewrite filter_cons.
  destruct (Z.eqb_spec id 1); [rewrite decide_False; [done|tauto]|].
  destruct (Z.eqb_spec id 3); [rewrite decide_False; [done|tauto]|]. cbn [orb].
  destruct (decide (is_Some (m.(unreliableStreamMark) !! id))) as [Hs|Hs].
  - rewrite (bool_decide_true _ Hs). destruct marked; cbn;
      [rewrite decide_True by tauto|rewrite decide_False by naive_solver]; done.
  - rewrite (bool_decide_false _ Hs). destruct marked; cbn;
      [rewrite decide_False by tauto|rewrite decide_True by naive_solver]; done.
Qed.

(** The rounds that are left visit the rest of the rotated list. *)
Lemma robinLoop_note marked (start : nat) f : forall n i m acc,
  map_inv m -> (i + n = length m.(openStreams))%nat ->
  Z.of_nat start + Z.of_nat (length m.(openStreams)) < 2 ^ 32 ->
  exists m', robinLoop marked n (Z.of_nat i) (Z.of_nat start) (Z.of_nat (length m.(openStreams))) note ((m, f), acc)
    = (((m', f), acc ++ picked marked m (drop i (rotate start m.(openStreams)))), Done)
  /\ same_but_robin m m'.
Proof.
  induction n as [|n IH]; intros i m acc Hi Hn Hb; cbn [robinLoop].
  { exists m. rewrite drop_ge by (rewrite length_rotate; lia). rewrite app_nil_r. split; [done|apply same_but_robin_refl]. }
  destruct (lookup_lt_is_Some_2 (rotate start m.(openStreams)) i) as [id Hid]; [rewrite length_rotate; lia|].
  rewrite (drop_S _ id i) by done. rewrite lookup_rotate_r in Hid by lia. unfold rotate_nat_add in Hid.
  cbn [fst]. rewrite u32_small, Z.add_comm, Hid by lia. rewrite picked_cons.
  replace (Z.of_nat i + 1) with (Z.of_nat (S i)) by lia.
  destruct (_ || _); [apply IH; done || lia|]. destruct (negb _); [apply IH; done || lia|].
  unfold iterateFunc. cbn [fst].
  assert (Hopen : id ∈ m.(openStreams)) by (by eapply list_elem_of_lookup_2).
  apply (inv_dom _ Hi) in Hopen as [s Hs]. rewrite Hs. cbn [note fst snd].
  assert (Hadv : exists m1, advance marked (Z.of_nat (length m.(openStreams))) ((m, f), acc ++ [id])
                    = ((m1, f), acc ++ [id]) /\ same_but_robin m m1)
    by (unfold advance; destruct marked; eexists; (split; [reflexivity|by do 2 eexists])).
  destruct Hadv as (m1 & -> & Hm1).
  assert (Hi1 : map_inv m1).
  { destruct Hm1 as (r & u & ->). apply (inv_same (m, f) (set_robin m r u, f)); try done. }
  assert (Ho1 : m1.(openStreams) = m.(openStreams)) by (by destruct Hm1 as (r & u & ->)).
  destruct (IH (S i) m1 (acc ++ [id]) Hi1) as (m' & E & Hs'); [rewrite Ho1; lia..|].
  rewrite Ho1, (picked_same marked m m1 _ Hm1) in E. exists m'.
  rewrite <- app_assoc in E. split; [exact E|by eapply same_but_robin_trans].
Qed.

(** The streams 1 and 3, when they are open. *)
Definition first_streams (m : t) : list Z := filter (fun id => id ∈ m.(openStreams)) [1; 3].

Lemma priorityLoop_note m f ids : forall acc,
  map_inv m ->
  priorityLoop ids note ((m, f), acc) = (((m, f), acc ++ filter (fun id => id ∈ m.(openStreams)) ids), Done).
Proof.
  induction ids as [|id ids IH]; intros acc Hi; cbn [priorityLoop]; [by rewrite app_nil_r|].
  unfold iterateFunc. cbn [fst]. rewrite filter_cons.
  destruct (m.(streams) !! id) as [s|] eqn:E.
  - rewrite decide_True by (apply (inv_dom _ Hi); by rewrite E). cbn [note fst snd]. rewrite IH by done.
    by rewrite <- app_assoc.
  - rewrite decide_False by (rewrite (inv_dom _ Hi), E; by intros []).
    rewrite bool_decide_true by done. cbn [negb]. by apply IH.
Qed.

Lemma size_open m : map_inv m -> size m.(streams) = length m.(openStreams).
Proof.
  intros Hi. rewrite <- size_dom, <- (size_list_to_set (C := gset Z)) by apply Hi. f_equal.
  apply leibniz_equiv. intros x. rewrite elem_of_dom, elem_of_list_to_set. symmetry. apply Hi.
Qed.

Lemma visits_all m a b :
  map_inv m ->
  first_streams m ++ picked false m (rotate a m.(openStreams)) ++ picked true m (rotate b m.(openStreams))
  ≡ₚ m.(openStreams).
Proof.
  intros Hi. pose proof (inv_nodup _ Hi) as Hnd.
  assert (Hrot : forall n, rotate n m.(openStreams) ≡ₚ m.(openStreams)).
  { intros n. unfold rotate. rewrite Permutation_app_comm. by rewrite take_drop. }
  unfold picked. rewrite !Hrot. apply NoDup_Permutation; [|done|].
  - apply NoDup_app. split_and!.
    + unfold first_streams. apply NoDup_filter. repeat constructor; set_solver.
    + intros x Hx. unfold first_streams in Hx. apply list_elem_of_filter in Hx as [_ Hx].
      rewrite elem_of_app, !list_elem_of_filter. set_solver.
    + apply NoDup_app. split_and!; [by apply NoDup_filter| |by apply NoDup_filter].
      intros x. rewrite !list_elem_of_filter. naive_solver.
  - intros x. unfold first_streams. rewrite !elem_of_app, !list_elem_of_filter.
    destruct (decide (x = 1)); [set_solver|]. destruct (decide (x = 3)); [set_solver|].
    destruct (decide (is_Some (m.(unreliableStreamMark) !! x))); set_solver.
Qed.



(** ** Two books that are not kept *)

(** The stream object of a locally opened unreliable stream is reliable: it reads
    its marker before [putStreamType] writes it. *)
Lemma unreliable_marker_lost st :
  map_inv st.1 -> st.1.(nextStream) + 2 < 2 ^ 32 -> st.1.(closeErr) = None ->
  st.1.(unreliableStreamMark) !! st.1.(nextStream) <> Some true ->
  forall st' id, OpenUnreliableStream st = (st', Ok id) ->
  st'.1.(unreliableStreamMark) !! id = Some true
  /\ exists s, st'.1.(streams) !! id = Some s /\ s.(Stream.unreliableMarker) = false
     /\ s.(Stream.frameQueue).(StreamFrameSorter.unreliableMarker) = false.
Proof.
  destruct st as [m f]. cbn [fst]. intros Hi Hb Hc Hm st' id. unfold OpenUnreliableStream. cbn [fst]. rewrite Hc.
  unfold openUnreliableStreamImpl, openLocal. destruct (_ <=? _); [done|].
  assert (Hnone : m.(streams) !! m.(nextStream) = None).
  { apply not_open; [done|]. unfold used. destruct (inv_next _ Hi). rewrite decide_True by done. lia. }
  unfold putStreamType. destruct m.(perspective); cbn; rewrite Hnone; intros [= <- <-]; cbn;
    rewrite !lookup_insert_eq; (split; [done|]); eexists; (split; [done|]); cbn;
    by destruct (m.(unreliableStreamMark) !! m.(nextStream)) as [[]|].
Qed.

(** A client counts the streams it opens as incoming, and checks the others: it
    opens streams however many it has open already. *)
Lemma client_limit_not_enforced st :
  map_inv st.1 -> st.1.(nextStream) + 2 < 2 ^ 32 -> st.1.(perspective) = PerspectiveClient ->
  st.1.(closeErr) = None ->
  count 0 st.1.(openStreams) < ConnParams.GetMaxOutgoingStreams st.2.(FlowControlManager.params) ->
  exists st' id, OpenStream st = (st', Ok id)
    /\ count 1 st'.1.(openStreams) = count 1 st.1.(openStreams) + 1
    /\ count 0 st'.1.(openStreams) = count 0 st.1.(openStreams).
Proof.
  destruct st as [m f]. cbn [fst snd]. intros Hi Hb Hp Hc Hlim. unfold OpenStream, openStreamImpl. cbn [fst].
  rewrite Hc. pose proof (openLocal_ok (m, f) false Hi Hb) as Hok. unfold openLocal in *.
  rewrite (inv_out _ Hi) in *. destruct (Z.leb_spec (ConnParams.GetMaxOutgoingStreams f.(FlowControlManager.params))
    (count 0 m.(openStreams))); [lia|]. destruct (inv_next _ Hi) as [_ Hl]. rewrite Hp in *. cbn in Hl.
  eexists _, _. split; [reflexivity|]. destruct Hok as (_ & _ & _ & Hnew & _). cbn [fst] in Hnew.
  apply not_open in Hnew; [|done].
  destruct (putStreamType_fields false (set_next (set_num m (count 0 m.(openStreams)) (u32 (m.(numIncomingStreams) + 1)))
    (u32 (m.(nextStream) + 2)) m.(highestStreamOpenedByPeer) m.(nextStreamToAccept))
    (Stream.newStreamType m.(nextStream) m.(unreliableStreamMark)) Hnew) as (_ & Po & _).
  cbn in Po |- *. rewrite Po, !count_app, !count_one. repeat case_decide; lia.
Qed.

End StreamsMapProofs.
