(* ===== verification/StreamFramer.v ===== *)
(** * Framing of outgoing data ([stream_framer.go])

    The queue of the STREAM frames to retransmit, the loop that takes new data
    from the streams under flow control, and the queues of the control frames.
    The loop is a closure that polls the streams ([RoundRobinIterate2]) and fills
    one [StreamFrame] object after the other: the objects live in a store, and the
    closure's variable [frame] and the result hold references to them. *)

From S2P Require Import Prelude ByteOrder Protocol WireHeader WireFrames WireStream WireAck.
From S2P Require Import MinMax ConnParams FlowControl StreamSorter Stream StreamsMap.

Module StreamFramer.
Import StreamsMap.

Record t : Type := mk {
  retransmissionQueue : list StreamFrame.t;
  blockedFrameQueue : list BlockedFrame.t;
  addAddressFrameQueue : list AddAddressFrame.t;
  closePathFrameQueue : list ClosePathFrame.t;
  pathsFrame : option PathsFrame.t
}.

Definition newStreamFramer : t := mk [] [] [] [] None.

Definition set_retransmissionQueue (fr : t) (q : list StreamFrame.t) : t :=
  mk q fr.(blockedFrameQueue) fr.(addAddressFrameQueue) fr.(closePathFrameQueue) fr.(pathsFrame).
Definition set_blockedFrameQueue (fr : t) (q : list BlockedFrame.t) : t :=
  mk fr.(retransmissionQueue) q fr.(addAddressFrameQueue) fr.(closePathFrameQueue) fr.(pathsFrame).
Definition set_addAddressFrameQueue (fr : t) (q : list AddAddressFrame.t) : t :=
  mk fr.(retransmissionQueue) fr.(blockedFrameQueue) q fr.(closePathFrameQueue) fr.(pathsFrame).
Definition set_closePathFrameQueue (fr : t) (q : list ClosePathFrame.t) : t :=
  mk fr.(retransmissionQueue) fr.(blockedFrameQueue) fr.(addAddressFrameQueue) q fr.(pathsFrame).
Definition set_pathsFrame (fr : t) (p : option PathsFrame.t) : t :=
  mk fr.(retransmissionQueue) fr.(blockedFrameQueue) fr.(addAddressFrameQueue) fr.(closePathFrameQueue) p.

(** ** The queues *)

Definition AddFrameForRetransmission (fr : t) (frame : StreamFrame.t) : t :=
  set_retransmissionQueue fr (fr.(retransmissionQueue) ++ [frame]).

Definition PopBlockedFrame (fr : t) : t * option BlockedFrame.t :=
  match fr.(blockedFrameQueue) with
  | [] => (fr, None)
  | frame :: q => (set_blockedFrameQueue fr q, Some frame)
  end.

Definition AddAddressForTransmission (fr : t) (ipVersion : Z) (ip : list Z) (port : Z) : t :=
  set_addAddressFrameQueue fr (fr.(addAddressFrameQueue) ++ [AddAddressFrame.mk ipVersion ip port]).

Definition PopAddAddressFrame (fr : t) : t * option AddAddressFrame.t :=
  match fr.(addAddressFrameQueue) with
  | [] => (fr, None)
  | frame :: q => (set_addAddressFrameQueue fr q, Some frame)
  end.

(** One hour, in nanoseconds *)
Definition Hour : Z := 3600 * 1000000000.

(** [paths] are the paths of the session in the order in which Go visits them: the
    ID, whether the path is potentially failed, and its smoothed RTT. *)
Definition AddPathsFrameForTransmission (fr : t) (paths : list (Z * bool * Z)) : t :=
  set_pathsFrame fr
    (Some (PathsFrame.mk 255 (u8 (Z.of_nat (length paths))) (map (fun p : Z * bool * Z => p.1.1) paths)
             (map (fun p : Z * bool * Z => if p.1.2 then Hour else p.2) paths))).

Definition PopPathsFrame (fr : t) : t * option PathsFrame.t :=
  match fr.(pathsFrame) with
  | None => (fr, None)
  | Some frame => (set_pathsFrame fr None, Some frame)
  end.

Definition AddClosePathFrameForTransmission (fr : t) (frame : ClosePathFrame.t) : t :=
  set_closePathFrameQueue fr (fr.(closePathFrameQueue) ++ [frame]).

Definition PopClosePathFrame (fr : t) : t * option ClosePathFrame.t :=
  match fr.(closePathFrameQueue) with
  | [] => (fr, None)
  | frame :: q => (set_closePathFrameQueue fr q, Some frame)
  end.

Definition HasFramesForRetransmission (fr : t) : bool := (0 <? length fr.(retransmissionQueue))%nat.

(** ** Field updates of a frame *)

Definition set_DataLenPresent (f : StreamFrame.t) (b : bool) : StreamFrame.t :=
  StreamFrame.mk f.(StreamFrame.StreamID) f.(StreamFrame.UnreliableMarker) f.(StreamFrame.FinBit) b
    f.(StreamFrame.Offset) f.(StreamFrame.Data).
Definition set_target (f : StreamFrame.t) (id offset : Z) : StreamFrame.t :=
  StreamFrame.mk id f.(StreamFrame.UnreliableMarker) f.(StreamFrame.FinBit) f.(StreamFrame.DataLenPresent)
    offset f.(StreamFrame.Data).
Definition set_FinBit (f : StreamFrame.t) : StreamFrame.t :=
  StreamFrame.mk f.(StreamFrame.StreamID) f.(StreamFrame.UnreliableMarker) true f.(StreamFrame.DataLenPresent)
    f.(StreamFrame.Offset) f.(StreamFrame.Data).
Definition set_Data (f : StreamFrame.t) (data : list Z) : StreamFrame.t :=
  StreamFrame.mk f.(StreamFrame.StreamID) f.(StreamFrame.UnreliableMarker) f.(StreamFrame.FinBit)
    f.(StreamFrame.DataLenPresent) f.(StreamFrame.Offset) data.
Definition set_UnreliableMarker (f : StreamFrame.t) (b : bool) : StreamFrame.t :=
  StreamFrame.mk f.(StreamFrame.StreamID) b f.(StreamFrame.FinBit) f.(StreamFrame.DataLenPresent)
    f.(StreamFrame.Offset) f.(StreamFrame.Data).

(** [frame.MinLength(protocol.VersionWhatever)]; the error, which cannot occur, is dropped. *)
Definition headerLen (f : StreamFrame.t) : Z :=
  match StreamFrame.MinLength f VersionWhatever with Ok l => l | _ => 0 end.

(** ** Retransmissions *)

(** The first [n] bytes, and what is left of the frame; [None] when nothing is split. *)
Definition maybeSplitOffFrame (frame : StreamFrame.t) (n : Z) : option (StreamFrame.t * StreamFrame.t) :=
  if StreamFrame.DataLen frame <=? n then None
  else Some (StreamFrame.mk frame.(StreamFrame.StreamID) frame.(StreamFrame.UnreliableMarker) false
               frame.(StreamFrame.DataLenPresent) frame.(StreamFrame.Offset)
               (take (Z.to_nat n) frame.(StreamFrame.Data)),
             StreamFrame.mk frame.(StreamFrame.StreamID) frame.(StreamFrame.UnreliableMarker)
               frame.(StreamFrame.FinBit) frame.(StreamFrame.DataLenPresent)
               (u64 (frame.(StreamFrame.Offset) + n)) (drop (Z.to_nat n) frame.(StreamFrame.Data))).

(** The popped frames, the queue that is left, the length and the flow control. *)
Fixpoint popRetransmissions (queue : list StreamFrame.t) (maxLen currentLen : Z) (f : FlowControlManager.mgr)
  : list StreamFrame.t * list StreamFrame.t * Z * FlowControlManager.mgr :=
  match queue with
  | [] => ([], [], currentLen, f)
  | frame :: rest =>
      let frame := set_DataLenPresent frame true in
      let frameHeaderLen := headerLen frame in
      if maxLen <=? currentLen + frameHeaderLen then ([], frame :: rest, currentLen, f)
      else
        let currentLen := currentLen + frameHeaderLen in
        match maybeSplitOffFrame frame (maxLen - currentLen) with
        | Some (splitFrame, left_) =>
            let frameLen := StreamFrame.DataLen splitFrame in
            ([splitFrame], left_ :: rest, currentLen + frameLen,
             (FlowControlManager.AddBytesRetrans f splitFrame.(StreamFrame.StreamID) frameLen).1)
        | None =>
            let frameLen := StreamFrame.DataLen frame in
            let '(res, q, len, f) :=
              popRetransmissions rest maxLen (currentLen + frameLen)
                (FlowControlManager.AddBytesRetrans f frame.(StreamFrame.StreamID) frameLen).1 in
            (frame :: res, q, len, f)
        end
  end.

Definition maybePopFramesForRetransmission (fr : t) (f : FlowControlManager.mgr) (maxLen : Z)
  : t * FlowControlManager.mgr * list StreamFrame.t * Z :=
  let '(res, q, currentLen, f) := popRetransmissions fr.(retransmissionQueue) maxLen 0 f in
  (set_retransmissionQueue fr q, f, res, currentLen).

(** ** New data *)

(** The variables of the closure: the store of the frames, the reference [frame],
    the references in the result, the length, and the queue of BLOCKED frames. *)
Record closure : Type := mkClosure {
  heap : list StreamFrame.t;
  frame : nat;
  res : list nat;
  currentLen : Z;
  blocked : list BlockedFrame.t
}.

(** [&wire.StreamFrame{DataLenPresent: true}] *)
Definition freshFrame : StreamFrame.t := StreamFrame.mk 0 false false true 0 [].

Definition update (c : closure) (g : StreamFrame.t -> StreamFrame.t) : closure :=
  mkClosure (alter g c.(frame) c.(heap)) c.(frame) c.(res) c.(currentLen) c.(blocked).

Definition current (c : closure) : StreamFrame.t := default freshFrame (c.(heap) !! c.(frame)).

(** [frame = &wire.StreamFrame{DataLenPresent: true}] *)
Definition renew (c : closure) : closure :=
  mkClosure (c.(heap) ++ [freshFrame]) (length c.(heap)) c.(res) c.(currentLen) c.(blocked).

(** A frame of [s], which the map holds under [id], with [data] and perhaps a FIN
    is added to the result. *)
Definition emit (maxBytes hdr sendWindowSize : Z) (data : option (list Z)) (shouldSendFin : bool)
    (id : Z) (s : Stream.t) (st : state) (c : closure) : polled closure * (bool * option error) :=
  let '(m, f) := st in
  let '(s, c) := if shouldSendFin then (Stream.sentFin s, update c set_FinBit) else (s, c) in
  let data := default [] data in
  let c := update c (fun fr => set_Data fr data) in
  let f := (FlowControlManager.AddBytesSent f s.(Stream.streamID) (Z.of_nat (length data))).1 in
  let fr := current c in
  let blocked :=
    if FlowControlManager.RemainingConnectionWindowSize f =? 0
    then c.(blocked) ++ [BlockedFrame.mk 0]
    else if negb fr.(StreamFrame.FinBit) && (u64 (sendWindowSize - StreamFrame.DataLen fr) =? 0)
    then c.(blocked) ++ [BlockedFrame.mk s.(Stream.streamID)] else c.(blocked) in
  let c := match m.(unreliableStreamMark) !! s.(Stream.streamID) with
           | Some val => update c (fun fr => set_UnreliableMarker fr val)
           | None => c
           end in
  let currentLen := c.(currentLen) + (hdr + StreamFrame.DataLen fr) in
  let c := mkClosure c.(heap) c.(frame) (c.(res) ++ [c.(frame)]) currentLen blocked in
  let st := (set_streams m (<[id := s]> m.(streams)), f) in
  if currentLen =? maxBytes then ((st, c), (false, None)) else ((st, renew c), (true, None)).

Definition popFrame (maxBytes : Z) : streamLambda closure := fun id p =>
  let '((m, f), c) := p in
  match m.(streams) !! id with
  | None => (p, (true, None))
  | Some s =>
      if s.(Stream.streamID) =? 1 then (p, (true, None))
      else
        let c := update c (fun fr => set_target fr s.(Stream.streamID) s.(Stream.writeOffset)) in
        let hdr := headerLen (current c) in
        if maxBytes <? c.(currentLen) + hdr then (((m, f), c), (false, None))
        else
          let maxLen := maxBytes - c.(currentLen) - hdr in
          let lenStreamData := Stream.lenOfDataForWriting s in
          let sendWindowSize :=
            if negb (lenStreamData =? 0)
            then match FlowControlManager.SendWindowSize f s.(Stream.streamID) with Ok w => w | _ => 0 end
            else 0 in
          let maxLen := if negb (lenStreamData =? 0) then MinByteCount maxLen sendWindowSize else maxLen in
          if maxLen =? 0 then (((m, f), c), (true, None))
          else
            let '(s, data) := if negb (lenStreamData =? 0) then Stream.getDataForWriting s maxLen else (s, None) in
            let shouldSendFin := Stream.shouldSendFin s in
            match data, shouldSendFin with
            | None, false => (((set_streams m (<[id := s]> m.(streams)), f), c), (true, None))
            | _, _ => emit maxBytes hdr sendWindowSize data shouldSendFin id s (m, f) c
            end
  end.

(** [None] when the round robin panics. *)
Definition maybePopNormalFrames (fr : t) (st : state) (maxBytes : Z) (sendingAllowed : bool)
  : option (t * state * list StreamFrame.t) :=
  let c := mkClosure [freshFrame] 0 [] 0 fr.(blockedFrameQueue) in
  match RoundRobinIterate2 sendingAllowed (popFrame maxBytes) (st, c) with
  | (_, None) => None
  | ((st, c), Some _) =>
      Some (set_blockedFrameQueue fr c.(blocked), st,
            map (fun r => default freshFrame (c.(heap) !! r)) c.(res))
  end.

Definition PopStreamFrames (fr : t) (f : FlowControlManager.mgr) (maxLen : Z)
  : t * FlowControlManager.mgr * list StreamFrame.t :=
  (maybePopFramesForRetransmission fr f maxLen).1.

Definition PopStreamFrames2 (fr : t) (st : state) (maxLen : Z) (sendingAllowed : bool)
  : option (t * state * list StreamFrame.t) :=
  let '(fr, f, fs, currentLen) := maybePopFramesForRetransmission fr st.2 maxLen in
  match maybePopNormalFrames fr (st.1, f) (u64 (maxLen - currentLen)) sendingAllowed with
  | None => None
  | Some (fr, st, fs') => Some (fr, st, fs ++ fs')
  end.

(** ** The crypto stream *)

(** [GetOrOpenStream(1)]; the error is dropped, and a [nil] stream is dereferenced. *)
Definition cryptoStream (st : state) : Prelude.res (state * Stream.t) :=
  match GetOrOpenStream st 1 with
  | Some (st, Ok (Some id)) => match st.1.(streams) !! id with Some s => Ok (st, s) | None => Panic end
  | _ => Panic
  end.

Definition HasCryptoStreamFrame (st : state) : Prelude.res (state * bool) :=
  match cryptoStream st with
  | Ok (st, cs) => Ok (st, 0 <? Stream.lenOfDataForWriting cs)
  | _ => Panic
  end.

Definition PopCryptoStreamFrame (st : state) (maxLen : Z) : Prelude.res (state * option StreamFrame.t) :=
  match cryptoStream st with
  | Ok ((m, f), cs) =>
      if 0 <? Stream.lenOfDataForWriting cs then
        let frame := StreamFrame.mk 1 false false false cs.(Stream.writeOffset) [] in
        let '(cs, data) := Stream.getDataForWriting cs (u64 (maxLen - headerLen frame)) in
        Ok ((set_streams m (<[1 := cs]> m.(streams)), f), Some (set_Data frame (default [] data)))
      else Ok ((m, f), None)
  | _ => Panic
  end.

End StreamFramer.
