(* ===== verification/StreamFramerProofs.v ===== *)
(** * The frames carry the written bytes

    What the framer pops for a stream are pieces of what the application wrote to
    it, within the length the packer asked for, when the streams are of one kind;
    and the frame of one stream that goes out under the ID of another when they
    are not. *)

From S2P Require Import Prelude ByteOrder Protocol WireHeader WireFrames WireStream WireAck.
From S2P Require Import MinMax ConnParams FlowControl StreamSorter StreamSorterProofs Stream StreamsMap.
From S2P Require Import StreamsMapProofs StreamFramer.

Module FramerProofs.
Import StreamsMap StreamsMapProofs StreamFramer.

(** ** A round of polling *)

(** The streams but 1 and 3 all have an entry in [unreliableStreamMark], or none has. *)
Definition one_kind (m : StreamsMap.t) (marked : bool) : Prop :=
  forall id, id ∈ m.(openStreams) -> id <> 1 -> id <> 3 ->
    (is_Some (m.(unreliableStreamMark) !! id) <-> marked = true).

(** A state with the same streams and marks. *)
Definition same_shape (m m' : StreamsMap.t) : Prop :=
  m'.(openStreams) = m.(openStreams) /\ m'.(unreliableStreamMark) = m.(unreliableStreamMark)
  /\ (forall id, is_Some (m'.(streams) !! id) <-> is_Some (m.(streams) !! id)).

Section round.
Context {A : Type} (m : StreamsMap.t) (kind : bool) (fn : streamLambda A) (P Q : polled A -> Prop).
Hypothesis Hinv : map_inv m.
Hypothesis Hkind : one_kind m kind.
Hypothesis HPQ : forall p, P p -> Q p.
Hypothesis Hshape : forall p, Q p -> same_shape m p.1.1.
Hypothesis Hfn : forall id p, P p -> is_Some (p.1.1.(streams) !! id) ->
  match fn id p with
  | (p', (true, None)) => P p'
  | (p', (false, None)) => Q p'
  | (_, (_, Some _)) => False
  end.
Hypothesis HPadv : forall b n p, P p -> P (advance b n p).
Hypothesis HQadv : forall b n p, Q p -> Q (advance b n p).

Lemma iterateFunc_round id p :
  P p -> match iterateFunc id fn p with
         | (p', (true, None)) => P p'
         | (p', (false, None)) => Q p'
         | (p', (c, Some e)) => c = true /\ e = errMapAccess /\ p' = p /\ p.1.1.(streams) !! id = None
         end.
Proof.
  intros HP. unfold iterateFunc. destruct (p.1.1.(streams) !! id) eqn:E; [|done].
  pose proof (Hfn id p HP ltac:(by rewrite E)) as H. destruct (fn id p) as [p' [[] [e|]]]; done.
Qed.

Lemma priorityLoop_round ids : forall p,
  P p -> exists p', (priorityLoop ids fn p = (p', Done) /\ P p')
                    \/ (priorityLoop ids fn p = (p', Return None) /\ Q p').
Proof.
  induction ids as [|id ids IH]; intros p HP; cbn [priorityLoop]; [exists p; by left|].
  pose proof (iterateFunc_round id p HP) as H. destruct (iterateFunc id fn p) as [p' [c [e|]]].
  - destruct c; destruct H as (Hc & -> & -> & _); [|done]. rewrite bool_decide_true by done. cbn [negb]. by apply IH.
  - destruct c; [by apply IH|]. exists p'. by right.
Qed.

(** The loop over the other kind calls nothing. *)
Lemma robinLoop_other n start : forall i p,
  Q p -> 0 <= start -> 0 <= i -> i + Z.of_nat n + start < 2 ^ 32 -> (0 < length m.(openStreams))%nat ->
  robinLoop (negb kind) n i start (Z.of_nat (length m.(openStreams))) fn p = (p, Done).
Proof.
  induction n as [|n IH]; intros i p HQ Hs Hi Hb Hl; cbn [robinLoop]; [done|].
  destruct (Hshape p HQ) as (Ho & Hm & _). rewrite Ho, u32_small by lia.
  pose proof (Z.mod_pos_bound (i + start) (Z.of_nat (length m.(openStreams))) ltac:(lia)).
  destruct (lookup_lt_is_Some_2 m.(openStreams) (Z.to_nat ((i + start) mod Z.of_nat (length m.(openStreams)))))
    as [id Hid]; [lia|]. rewrite Hid.
  destruct ((id =? 1) || (id =? 3)) eqn:E; [by apply IH; try lia|].
  apply orb_false_elim in E as [?%Z.eqb_neq ?%Z.eqb_neq].
  pose proof (Hkind id ltac:(by eapply list_elem_of_lookup_2) ltac:(done) ltac:(done)) as Hk. rewrite Hm.
  assert (negb (Bool.eqb (negb kind) (bool_decide (is_Some (m.(unreliableStreamMark) !! id)))) = true) as ->.
  { destruct kind; [rewrite bool_decide_true by (by apply Hk)|rewrite bool_decide_false]; try done.
    by intros ?%Hk. }
  apply IH; done || lia.
Qed.

Lemma robinLoop_kind n start : forall i p,
  P p -> 0 <= start -> 0 <= i -> i + Z.of_nat n + start < 2 ^ 32 -> (0 < length m.(openStreams))%nat ->
  exists p', robinLoop kind n i start (Z.of_nat (length m.(openStreams))) fn p = (p', Done) /\ Q p'.
Proof.
  induction n as [|n IH]; intros i p HP Hs Hi Hb Hl; cbn [robinLoop]; [exists p; auto|].
  destruct (Hshape p (HPQ p HP)) as (Ho & Hm & Hdom). rewrite Ho, u32_small by lia.
  pose proof (Z.mod_pos_bound (i + start) (Z.of_nat (length m.(openStreams))) ltac:(lia)).
  destruct (lookup_lt_is_Some_2 m.(openStreams) (Z.to_nat ((i + start) mod Z.of_nat (length m.(openStreams)))))
    as [id Hid]; [lia|]. rewrite Hid.
  destruct ((id =? 1) || (id =? 3)) eqn:E; [by apply IH; try lia|].
  destruct (negb _); [by apply IH; try lia|].
  pose proof (iterateFunc_round id p HP) as H1. destruct (iterateFunc id fn p) as [p' [c [e|]]].
  - exfalso. destruct c; destruct H1 as (_ & _ & _ & Hn).
    all: assert (Hopen : id ∈ m.(openStreams)) by (by eapply list_elem_of_lookup_2);
      apply (inv_dom _ Hinv), Hdom in Hopen; rewrite Hn in Hopen; by destruct Hopen.
  - destruct c; [|eexists; split; [reflexivity|]; by apply HQadv]. apply IH; auto; lia.
Qed.

Lemma robin_round allowed p :
  P p -> 0 <= m.(roundRobinIndex) -> 0 <= m.(unreliableRobinIndex) ->
  p.1.1.(roundRobinIndex) = m.(roundRobinIndex) -> p.1.1.(unreliableRobinIndex) = m.(unreliableRobinIndex) ->
  m.(roundRobinIndex) + Z.of_nat (length m.(openStreams)) < 2 ^ 32 ->
  m.(unreliableRobinIndex) + Z.of_nat (length m.(openStreams)) < 2 ^ 32 ->
  exists p', robin allowed fn p = (p', Some None) /\ Q p'.
Proof.
  intros HP Hr0 Hu0 Hr Hu Hrb Hub. unfold robin. rewrite Hr, Hu.
  assert (Hsize : size p.1.1.(streams) = length m.(openStreams)).
  { rewrite <- (size_open m Hinv), <- !size_dom. f_equal. apply leibniz_equiv. intros x. rewrite !elem_of_dom.
    by destruct (Hshape p (HPQ p HP)) as (_ & _ & Hd). }
  rewrite Hsize, u32_small, Nat2Z.id by lia.
  destruct (priorityLoop_round [1; 3] p HP) as (p1 & [[-> HP1]|[-> HQ1]]); [|by exists p1].
  destruct (decide (length m.(openStreams) = 0%nat)) as [->|Hne].
  { exists p1. cbn. split; [by destruct allowed|by apply HPQ]. }
  assert (Hk : kind = true \/ kind = false) by (destruct kind; auto). destruct Hk as [Ek|Ek].
  - pose proof (robinLoop_other (length m.(openStreams)) m.(unreliableRobinIndex) 0 p1 (HPQ p1 HP1)) as Hother.
    rewrite Ek in Hother. cbn [negb] in Hother. rewrite Hother by lia.
    replace (if allowed then (p1, Done) else (p1, Done)) with (p1, Done) by (by destruct allowed).
    destruct (robinLoop_kind (length m.(openStreams)) m.(roundRobinIndex) 0 p1) as (p2 & E & HQ2);
      try done; try lia. rewrite Ek in E. rewrite E. by exists p2.
  - destruct (robinLoop_kind (length m.(openStreams)) m.(unreliableRobinIndex) 0 p1) as (p2 & E & HQ2);
      try done; try lia. rewrite Ek in E. rewrite E.
    pose proof (fun p HQ => robinLoop_other (length m.(openStreams)) m.(roundRobinIndex) 0 p HQ) as Hother.
    rewrite Ek in Hother. cbn [negb] in Hother.
    destruct allowed; rewrite Hother by (auto; lia); eauto.
Qed.

End round.

(** ** What was written *)

(** The bytes that [Write] left in the buffer. *)
Definition pending (s : Stream.t) : list Z := default [] s.(Stream.dataForWriting).

(** [content] is everything the application wrote to the stream: the part before
    [writeOffset] was framed, the rest is in the buffer.  Once the FIN is sent
    nothing is left and nothing can be written any more. *)
Definition framed (content : list Z) (s : Stream.t) : Prop :=
  0 <= s.(Stream.writeOffset) <= Z.of_nat (length content)
  /\ Z.of_nat (length content) < 2 ^ 63
  /\ pending s = drop (Z.to_nat s.(Stream.writeOffset)) content
  /\ (s.(Stream.finSent) = true -> s.(Stream.finishedWriting) = true /\ s.(Stream.dataForWriting) = None).

Definition all_framed (content : Z -> list Z) (m : StreamsMap.t) : Prop :=
  forall id s, m.(streams) !! id = Some s -> s.(Stream.streamID) = id /\ framed (content id) s.

Section frames.

(** Whatever holds of the IDs of the open streams. *)
Context (okID : Z -> Prop).

(** A frame that may go out: a piece of its stream, not empty unless it brings the
    FIN, which is at the end of the stream. *)
Definition good (content : Z -> list Z) (m : StreamsMap.t) (f : StreamFrame.t) : Prop :=
  sent (content f.(StreamFrame.StreamID)) f /\ fin_at_end (content f.(StreamFrame.StreamID)) f
  /\ (f.(StreamFrame.FinBit) = true ->
      exists s, m.(streams) !! f.(StreamFrame.StreamID) = Some s /\ s.(Stream.finSent) = true)
  /\ okID f.(StreamFrame.StreamID) /\ (f.(StreamFrame.FinBit) = true \/ 0 < StreamFrame.DataLen f).

(** The length of the frames, all with the length of their data. *)
Definition frameLen (f : StreamFrame.t) : Z := headerLen f + StreamFrame.DataLen f.
Definition total (fs : list StreamFrame.t) : Z := foldr (fun f n => frameLen f + n) 0 fs.

Lemma total_app fs1 fs2 : total (fs1 ++ fs2) = total fs1 + total fs2.
Proof. induction fs1; cbn [app total foldr]; [done|]. unfold total in *. lia. Qed.

(** Taking data: the next bytes of the content. *)
Lemma getData_framed content s n :
  framed content s -> 0 < n -> Stream.lenOfDataForWriting s <> 0 ->
  exists s' data, Stream.getDataForWriting s n = (s', Some data)
    /\ framed content s' /\ s'.(Stream.writeOffset) = s.(Stream.writeOffset) + Z.of_nat (length data)
    /\ 0 < Z.of_nat (length data) <= n
    /\ data = take (length data) (drop (Z.to_nat s.(Stream.writeOffset)) content)
    /\ s'.(Stream.streamID) = s.(Stream.streamID) /\ s'.(Stream.finSent) = s.(Stream.finSent).
Proof.
  intros (Hwo & Hlen & Hp & Hfin) Hn Hd. unfold Stream.lenOfDataForWriting, Stream.lenData in Hd.
  unfold Stream.getDataForWriting. destruct (Stream.err s); [done|].
  unfold pending in Hp. destruct (Stream.dataForWriting s) as [d|] eqn:E; [|done]. cbn in Hd, Hp.
  assert (Hfs : s.(Stream.finSent) = false).
  { destruct (s.(Stream.finSent)); [|done]. destruct (Hfin eq_refl). congruence. }
  assert (Hld : Z.of_nat (length d) = Z.of_nat (length content) - s.(Stream.writeOffset))
    by (rewrite Hp, length_drop; lia).
  destruct (Z.ltb_spec n (Z.of_nat (length d))) as [Hlt|Hge].
  - assert (Hlt' : length (take (Z.to_nat n) d) = Z.to_nat n) by (rewrite length_take; lia).
    eexists _, _. split; [reflexivity|]. unfold framed, pending. cbn. rewrite Hlt', u64_small by lia.
    rewrite Hfs. split; [split_and!; try done; try lia|].
    + rewrite Hp, drop_drop. f_equal. lia.
    + split_and!; try done; try lia. rewrite Hp. done.
  - eexists _, _. split; [reflexivity|]. unfold framed, pending. cbn. rewrite u64_small by lia.
    rewrite Hfs. split; [split_and!; try done; try lia|].
    + rewrite drop_ge; [done|lia].
    + split_and!; try done; try lia. rewrite <- Hp. by rewrite firstn_all.
Qed.

(** The FIN is due: everything was taken. *)
Lemma fin_due content s :
  framed content s -> Stream.shouldSendFin s = true ->
  s.(Stream.writeOffset) = Z.of_nat (length content) /\ framed content (Stream.sentFin s).
Proof.
  intros (Hwo & Hlen & Hp & Hfin). unfold Stream.shouldSendFin. rewrite !andb_true_iff.
  intros (((Hf & _) & _) & Hd). unfold pending in *. destruct (Stream.dataForWriting s) eqn:E; [done|]. cbn in Hp.
  assert (Hwo' : s.(Stream.writeOffset) = Z.of_nat (length content)).
  { symmetry in Hp. apply (f_equal length) in Hp. rewrite length_drop in Hp. cbn in Hp. lia. }
  split; [done|]. unfold framed, pending. cbn. rewrite E. split_and!; try done; try lia.
Qed.

(** ** The closure *)

Definition results (c : closure) : list StreamFrame.t :=
  map (fun r => default freshFrame (c.(heap) !! r)) c.(res).

(** The fields that only the data of a frame sets. *)
Definition blank (g : StreamFrame.t) : Prop :=
  g.(StreamFrame.FinBit) = false /\ g.(StreamFrame.DataLenPresent) = true /\ g.(StreamFrame.Data) = [].

(** The current frame is a new one, and the result does not refer to it. *)
Definition fresh (c : closure) : Prop :=
  exists h g, c.(heap) = h ++ [g] /\ c.(frame) = length h
    /\ Forall (fun r => (r < length h)%nat) c.(res) /\ blank g.

Lemma update_eq h x rs n b g :
  update (mkClosure (h ++ [x]) (length h) rs n b) g = mkClosure (h ++ [g x]) (length h) rs n b.
Proof.
  unfold update. cbn. f_equal. pose proof (alter_app_r g h [x] 0) as E. by rewrite Nat.add_0_r in E.
Qed.

Lemma current_eq h x rs n b : current (mkClosure (h ++ [x]) (length h) rs n b) = x.
Proof. unfold current. cbn. by rewrite lookup_app_r, Nat.sub_diag by lia. Qed.

(** References below the end of the store do not see what is added or changed there. *)
Lemma results_below h l l' fr fr' rs n n' b b' :
  Forall (fun r => (r < length h)%nat) rs ->
  results (mkClosure (h ++ l) fr rs n b) = results (mkClosure (h ++ l') fr' rs n' b').
Proof.
  intros Hr. rewrite Forall_forall in Hr. apply map_ext_in. intros r Hin.
  apply list_elem_of_In, Hr in Hin. cbn. by rewrite !lookup_app_l by lia.
Qed.

Lemma below_snoc (h : list StreamFrame.t) g rs :
  Forall (fun r => (r < length h)%nat) rs ->
  Forall (fun r => (r < length (h ++ [g]))%nat) (rs ++ [length h]).
Proof.
  intros Hr. rewrite length_app. cbn. apply Forall_app_2; [|constructor; [lia|constructor]].
  eapply Forall_impl; [exact Hr|]. simpl. lia.
Qed.

Lemma results_add h x fr fr' rs n n' b b' :
  Forall (fun r => (r < length h)%nat) rs ->
  results (mkClosure (h ++ [x]) fr (rs ++ [length h]) n b)
  = results (mkClosure (h ++ [x]) fr' rs n' b') ++ [x].
Proof.
  intros Hr. unfold results. cbn. rewrite map_app. f_equal. cbn. by rewrite lookup_app_r, Nat.sub_diag by lia.
Qed.

Lemma insert_framed content m id s :
  all_framed content m -> s.(Stream.streamID) = id -> framed (content id) s ->
  all_framed content (set_streams m (<[id := s]> m.(streams))).
Proof.
  intros Hm Hid Hf x sx. cbn. intros [[<- <-]|[_ Hx]]%lookup_insert_Some; [done|]. by apply Hm.
Qed.

Lemma insert_shape m0 m id s :
  same_shape m0 m -> is_Some (m.(streams) !! id) ->
  same_shape m0 (set_streams m (<[id := s]> m.(streams))).
Proof.
  intros (Ho & Hm & Hd) Hs. split_and!; try done. intros x. cbn. rewrite <- Hd, lookup_insert_is_Some'.
  destruct (decide (id = x)) as [<-|]; naive_solver.
Qed.

Lemma good_insert content m id s s' f :
  good content m f -> m.(streams) !! id = Some s -> (s.(Stream.finSent) = true -> s'.(Stream.finSent) = true) ->
  good content (set_streams m (<[id := s']> m.(streams))) f.
Proof.
  intros (Hs & Hf & Hfin & Hok) E Hmono. split; [done|]. split; [done|]. split; [|done].
  intros (sx & Hx & Hsx)%Hfin. cbn.
  destruct (decide (id = f.(StreamFrame.StreamID))) as [Heq|Hne].
  - rewrite <- Heq in *. assert (sx = s) as -> by congruence. exists s'. rewrite lookup_insert_eq. auto.
  - rewrite lookup_insert_ne by done. by exists sx.
Qed.

(** Nothing is lost: the bytes that were taken from a stream since [m0], and the FIN
    that was sent since, are in the frames [fs]. *)
Definition covered (m0 m : StreamsMap.t) (fs : list StreamFrame.t) : Prop :=
  forall id s0 s, m0.(streams) !! id = Some s0 -> m.(streams) !! id = Some s ->
    (forall x, s0.(Stream.writeOffset) <= x < s.(Stream.writeOffset) ->
       exists f, f ∈ fs /\ f.(StreamFrame.StreamID) = id /\ covers f x)
    /\ (s.(Stream.finSent) = true -> s0.(Stream.finSent) = true
        \/ exists f, f ∈ fs /\ f.(StreamFrame.StreamID) = id /\ f.(StreamFrame.FinBit) = true)
    /\ (s0.(Stream.finSent) = true -> s.(Stream.finSent) = true).

Lemma covered_step m0 m fs fs' id s s' :
  covered m0 m fs -> m.(streams) !! id = Some s -> (forall f, f ∈ fs -> f ∈ fs') ->
  (forall x, s.(Stream.writeOffset) <= x < s'.(Stream.writeOffset) ->
     exists f, f ∈ fs' /\ f.(StreamFrame.StreamID) = id /\ covers f x) ->
  (s'.(Stream.finSent) = true -> s.(Stream.finSent) = true
   \/ exists f, f ∈ fs' /\ f.(StreamFrame.StreamID) = id /\ f.(StreamFrame.FinBit) = true) ->
  (s.(Stream.finSent) = true -> s'.(Stream.finSent) = true) ->
  covered m0 (set_streams m (<[id := s']> m.(streams))) fs'.
Proof.
  intros Hc Hs Hsub Hnew Hfin Hmono x s0 sx H0. cbn. intros [[<- <-]|[Hne Hx]]%lookup_insert_Some.
  - destruct (Hc id s0 s H0 Hs) as (Hold & Hf & Hk). split; [|split; [|by auto]].
    + intros x Hx. destruct (Z.lt_ge_cases x s.(Stream.writeOffset)) as [Hlt|Hge].
      * destruct (Hold x ltac:(lia)) as (f & ? & ?). exists f. auto.
      * apply Hnew. lia.
    + intros [H|H]%Hfin; [|by right]. destruct (Hf H) as [?|(f & ? & ?)]; [by left|right]. exists f. auto.
  - destruct (Hc x s0 sx H0 Hx) as (Hold & Hf & Hk). split; [|split; [|done]].
    + intros y Hy. destruct (Hold y Hy) as (f & ? & ?). exists f. auto.
    + intros H. destruct (Hf H) as [?|(f & ? & ?)]; [by left|right]. exists f. auto.
Qed.

(** What holds between two calls ([polling]), and after the last one ([polled_ok]). *)
Definition polled_ok (content : Z -> list Z) (m0 : StreamsMap.t) (maxBytes : Z) (p : polled closure) : Prop :=
  let '((m, f), c) := p in
  same_shape m0 m /\ all_framed content m /\ Forall (good content m) (results c)
  /\ total (results c) = c.(currentLen) /\ c.(currentLen) <= maxBytes
  /\ Forall (fun f => f.(StreamFrame.DataLenPresent) = true) (results c)
  /\ covered m0 m (results c).

Definition polling (content : Z -> list Z) (m0 : StreamsMap.t) (maxBytes : Z) (p : polled closure) : Prop :=
  polled_ok content m0 maxBytes p /\ fresh p.2.

(** The frame that is filled. *)
Definition filled (g : StreamFrame.t) (data : list Z) (fin : bool) (mark : option bool) : StreamFrame.t :=
  let g := set_Data (if fin then set_FinBit g else g) data in
  match mark with Some v => set_UnreliableMarker g v | None => g end.

Lemma emit_eq maxBytes hdr w data fin id s m f h x rs n b :
  let fr := filled x (default [] data) fin (m.(unreliableStreamMark) !! s.(Stream.streamID)) in
  let n' := n + (hdr + Z.of_nat (length (default [] data))) in
  exists f' b', emit maxBytes hdr w data fin id s (m, f) (mkClosure (h ++ [x]) (length h) rs n b)
  = let st := (set_streams m (<[id := if fin then Stream.sentFin s else s]> m.(streams)), f') in
    let c := mkClosure (h ++ [fr]) (length h) (rs ++ [length h]) n' b' in
    if n' =? maxBytes then ((st, c), (false, None)) else ((st, renew c), (true, None)).
Proof.
  unfold emit, filled. cbn zeta.
  destruct fin; rewrite ?update_eq, current_eq; cbn [Stream.sentFin Stream.set_sent Stream.streamID];
    destruct (m.(unreliableStreamMark) !! s.(Stream.streamID)); rewrite ?update_eq; cbn; by do 2 eexists.
Qed.

Lemma filled_fields g data fin mark :
  let fr := filled g data fin mark in
  fr.(StreamFrame.StreamID) = g.(StreamFrame.StreamID) /\ fr.(StreamFrame.Offset) = g.(StreamFrame.Offset)
  /\ fr.(StreamFrame.Data) = data /\ fr.(StreamFrame.DataLenPresent) = g.(StreamFrame.DataLenPresent)
  /\ fr.(StreamFrame.FinBit) = fin || g.(StreamFrame.FinBit).
Proof. unfold filled. destruct fin, mark; by split_and!. Qed.

Lemma headerLen_eq f g :
  f.(StreamFrame.StreamID) = g.(StreamFrame.StreamID) -> f.(StreamFrame.Offset) = g.(StreamFrame.Offset) ->
  f.(StreamFrame.DataLenPresent) = g.(StreamFrame.DataLenPresent) -> headerLen f = headerLen g.
Proof.
  unfold headerLen, StreamFrame.MinLength, StreamFrame.calculateStreamIDLength, StreamFrame.getOffsetLength.
  by intros -> -> ->.
Qed.

Lemma emit_ok content m0 maxBytes id s s' m f c w data fin :
  okID id -> fin = true \/ 0 < Z.of_nat (length (default [] data)) ->
  polling content m0 maxBytes ((m, f), c) -> m.(streams) !! id = Some s ->
  framed (content id) s -> framed (content id) s' -> s'.(Stream.streamID) = id ->
  s'.(Stream.finSent) = s.(Stream.finSent) -> fin = Stream.shouldSendFin s' ->
  (current c).(StreamFrame.StreamID) = id -> (current c).(StreamFrame.Offset) = s.(Stream.writeOffset) ->
  s'.(Stream.writeOffset) = s.(Stream.writeOffset) + Z.of_nat (length (default [] data)) ->
  default [] data = take (length (default [] data)) (drop (Z.to_nat s.(Stream.writeOffset)) (content id)) ->
  c.(currentLen) + headerLen (current c) + Z.of_nat (length (default [] data)) <= maxBytes ->
  match emit maxBytes (headerLen (current c)) w data fin id s' (m, f) c with
  | (p', (true, None)) => polling content m0 maxBytes p'
  | (p', (false, None)) => polled_ok content m0 maxBytes p'
  | (_, (_, Some _)) => False
  end.
Proof.
  intros Hok Hne ((Hsh & Hfr & Hgood & Htot & Hle & Hdl & Hcov) & h & x & Hh & Hf & Hr & Hx1 & Hx2 & Hx3) Hs Hfs Hfs' Hid Hfin Hfd
    Hcid Hcoff Hwo Hdata Hroom. destruct c as [hp fr rs n b]. cbn in Hh, Hf, Hr. subst hp fr.
  rewrite current_eq in *. cbn [currentLen] in *.
  destruct (emit_eq maxBytes (headerLen x) w data fin id s' m f h x rs n b) as (f' & b' & ->). cbn zeta.
  set (d := default [] data) in *. set (g := filled x d fin _).
  destruct (filled_fields x d fin (m.(unreliableStreamMark) !! s'.(Stream.streamID))) as (G1 & G2 & G3 & G4 & G5).
  fold g in G1, G2, G3, G4, G5. rewrite Hx1, orb_false_r in G5.
  set (s2 := if fin then Stream.sentFin s' else s'). set (m1 := set_streams m _).
  assert (Hfs2 : framed (content id) s2 /\ s2.(Stream.streamID) = id
    /\ (s.(Stream.finSent) = true -> s2.(Stream.finSent) = true)
    /\ s2.(Stream.writeOffset) = s'.(Stream.writeOffset)
    /\ (fin = true -> s2.(Stream.finSent) = true
        /\ s.(Stream.writeOffset) + Z.of_nat (length d) = Z.of_nat (length (content id)))).
  { subst s2. destruct fin.
    - destruct (fin_due (content id) s' Hfs' ltac:(done)) as [Hend Hf2].
      split; [exact Hf2|]. split; [done|]. split; [done|]. split; [done|]. split; [done|lia].
    - split; [exact Hfs'|]. split; [done|]. split; [by rewrite Hfin|done]. }
  destruct Hfs2 as (Hfs2 & Hid2 & Hmono & Hwo2 & Hfin2).
  assert (Hg : good content m1 g).
  { unfold good, sent, fin_at_end, StreamFrame.DataLen. rewrite G1, G2, G3, G5, Hcid, Hcoff.
    destruct Hfs as (? & ? & _), Hfs' as (? & _). split_and!; try done; try lia; [intros; by apply Hfin2|].
    intros Hfin'. exists s2. cbn. rewrite lookup_insert_eq. split; [done|by apply Hfin2]. }
  assert (Hlen : frameLen g = headerLen x + Z.of_nat (length d)).
  { unfold frameLen, StreamFrame.DataLen. rewrite G3. by rewrite (headerLen_eq g x). }
  assert (Hres : forall fr n'' b'', results (mkClosure (h ++ [g]) fr (rs ++ [length h]) n'' b'')
                 = results (mkClosure (h ++ [x]) (length h) rs n b) ++ [g]).
  { intros. rewrite (results_add h g fr fr rs n'' n b'' b) by done. f_equal. by apply results_below. }
  assert (Hpol : polled_ok content m0 maxBytes
    ((m1, f'), mkClosure (h ++ [g]) (length h) (rs ++ [length h]) (n + (headerLen x + Z.of_nat (length d))) b')).
  { unfold polled_ok. rewrite Hres, total_app, Htot. cbn [currentLen total foldr]. rewrite Hlen.
    split; [by apply insert_shape; [|rewrite Hs]|]. split; [by apply insert_framed|].
    split; [|split; [lia|split; [lia|split]]].
    - apply Forall_app_2; [|by constructor]. eapply Forall_impl; [exact Hgood|]. intros y Hy.
      by eapply good_insert.
    - apply Forall_app_2; [done|]. constructor; [by rewrite G4|constructor].
    - apply (covered_step m0 m _ _ id s s2 Hcov Hs); [set_solver| | |done].
      + intros y Hy. exists g. unfold covers, StreamFrame.DataLen. rewrite G1, G2, G3, Hcid, Hcoff.
        split; [set_solver|]. split; [done|]. lia.
      + subst s2. destruct fin; [|rewrite Hfin; auto]. intros _. right. exists g. rewrite G1, G5, Hcid.
        split; [set_solver|done]. }
  destruct (_ =? maxBytes); [exact Hpol|]. split.
  - unfold polled_ok, renew in *. cbn [heap frame res currentLen blocked] in *.
    rewrite (results_below (h ++ [g]) [freshFrame] [] _ (length h) _ _ (n + (headerLen x + Z.of_nat (length d))) _ b')
      by (by apply below_snoc).
    by rewrite app_nil_r.
  - exists (h ++ [g]), freshFrame. cbn. split_and!; try done.
    by apply below_snoc.
Qed.

(** The frame gets the ID and the offset of the next stream. *)
Lemma polling_target content m0 maxBytes m f c id offset :
  polling content m0 maxBytes ((m, f), c) ->
  let c' := update c (fun fr => set_target fr id offset) in
  polling content m0 maxBytes ((m, f), c') /\ c'.(currentLen) = c.(currentLen)
  /\ (current c').(StreamFrame.StreamID) = id /\ (current c').(StreamFrame.Offset) = offset.
Proof.
  intros ((Hsh & Hfr & Hgood & Htot & Hle & Hdl & Hcov) & h & x & Hh & Hf & Hr & Hx).
  destruct c as [hp fr rs n b]. cbn in Hh, Hf, Hr. subst hp fr. cbn zeta. rewrite update_eq, current_eq.
  split; [split|by split_and!].
  - unfold polled_ok. by rewrite (results_below h _ [x] _ (length h) _ _ n _ b) by done.
  - exists h, (set_target x id offset). by split_and!.
Qed.

Lemma SendWindowSize_nonneg f id :
  0 <= match FlowControlManager.SendWindowSize f id with Ok w => w | _ => 0 end.
Proof.
  assert (Hc : forall c p, 0 <= FlowController.SendWindowSize c p)
    by (intros; unfold FlowController.SendWindowSize; zcases; lia).
  unfold FlowControlManager.SendWindowSize. destruct (_ !! id) as [c|]; [|done].
  destruct (FlowController.ContributesToConnection c); [|apply Hc]. rewrite MinByteCount_min.
  pose proof (Hc c f.(FlowControlManager.params)).
  pose proof (Hc f.(FlowControlManager.conn) f.(FlowControlManager.params)). lia.
Qed.

Lemma popFrame_ok content m0 maxBytes id p :
  (forall id, is_Some (m0.(streams) !! id) -> okID id) -> polling content m0 maxBytes p -> is_Some (p.1.1.(streams) !! id) ->
  match popFrame maxBytes id p with
  | (p', (true, None)) => polling content m0 maxBytes p'
  | (p', (false, None)) => polled_ok content m0 maxBytes p'
  | (_, (_, Some _)) => False
  end.
Proof.
  destruct p as [[m f] c]. cbn [fst]. intros Hids Hp [s Hs]. unfold popFrame. rewrite Hs.
  pose proof Hp as (((_ & _ & Hdom) & Hfr & _) & _). assert (Hok : okID id) by (apply Hids, Hdom; by eexists). destruct (Hfr id s Hs) as [Hid Hfs].
  destruct (Z.eqb_spec s.(Stream.streamID) 1); [done|].
  destruct (polling_target content m0 maxBytes m f c s.(Stream.streamID) s.(Stream.writeOffset) Hp)
    as (Hp1 & Hcl & Hc1 & Hc2).
  set (c1 := update c _) in *. set (hdr := headerLen (current c1)).
  destruct (Z.ltb_spec maxBytes (c1.(currentLen) + hdr)) as [|Hroom]; [apply Hp1|].
  set (len := Stream.lenOfDataForWriting s). set (w := if negb (len =? 0) then _ else 0).
  set (maxLen := if negb (len =? 0) then MinByteCount _ w else _).
  assert (Hmax : 0 <= maxLen <= maxBytes - c1.(currentLen) - hdr).
  { subst maxLen w. destruct (negb _); [|lia]. rewrite MinByteCount_min.
    pose proof (SendWindowSize_nonneg f s.(Stream.streamID)). lia. }
  destruct (Z.eqb_spec maxLen 0) as [|Hne]; [done|].
  destruct (Z.eqb_spec len 0) as [Hz|Hnz]; cbn [negb].
  - destruct (Stream.shouldSendFin s) eqn:Efin; [|].
    + subst hdr. apply (emit_ok content m0 maxBytes id s s m f c1 w None true);
        try done; try congruence; try (by left); cbn [length default]; lia.
    + split; [|apply Hp1]. destruct Hp1 as [(H1 & H2 & H3 & H4 & H5 & H6 & H7) _].
      split; [apply insert_shape; [done|by rewrite Hs]|]. split; [by apply insert_framed|].
      split; [|split; [done|split; [done|split; [done|]]]].
      * eapply Forall_impl; [exact H3|]. intros g Hg. by eapply good_insert.
      * apply (covered_step m0 m _ _ id s s H7 Hs); auto. intros x Hx. lia.
  - destruct (getData_framed (content id) s maxLen Hfs ltac:(lia) Hnz)
      as (s' & data & -> & Hfs' & Hwo & Hlen & Hd & Hid' & Hfin').
    remember (Stream.shouldSendFin s') as fin eqn:Efin. subst hdr.
    assert (Hgoal : match emit maxBytes (headerLen (current c1)) w (Some data) fin id s' (m, f) c1 with
                    | (p', (true, None)) => polling content m0 maxBytes p'
                    | (p', (false, None)) => polled_ok content m0 maxBytes p'
                    | (_, (_, Some _)) => False
                    end).
    { apply (emit_ok content m0 maxBytes id s s' m f c1 w (Some data) fin); try done; try congruence;
        change (default [] (Some data)) with data; [right|]; lia. }
    by destruct fin.
Qed.

Lemma same_shape_refl m : same_shape m m.
Proof. by split_and!. Qed.

(** The indices of the round robin are in range. *)
Definition robin_ok (m : StreamsMap.t) : Prop :=
  0 <= m.(roundRobinIndex) /\ m.(roundRobinIndex) + Z.of_nat (length m.(openStreams)) < 2 ^ 32
  /\ 0 <= m.(unreliableRobinIndex) /\ m.(unreliableRobinIndex) + Z.of_nat (length m.(openStreams)) < 2 ^ 32.

Lemma polled_advance content m0 n b k p :
  polled_ok content m0 n p -> polled_ok content m0 n (advance b k p).
Proof. destruct p as [[m f] c]. by destruct b. Qed.

Lemma maybePopNormalFrames_ok content kind fr m f maxBytes allowed :
  (forall id, is_Some (m.(streams) !! id) -> okID id) ->
  map_inv m -> one_kind m kind -> robin_ok m -> all_framed content m -> 0 <= maxBytes ->
  exists fr' m' f' fs,
    maybePopNormalFrames fr (m, f) maxBytes allowed = Some (fr', (m', f'), fs)
    /\ fr'.(retransmissionQueue) = fr.(retransmissionQueue)
    /\ same_shape m m' /\ all_framed content m' /\ Forall (good content m') fs
    /\ total fs <= maxBytes /\ Forall (fun f => f.(StreamFrame.DataLenPresent) = true) fs /\ covered m m' fs.
Proof.
  intros Hids Hi Hk (Hr0 & Hrb & Hu0 & Hub) Hfr Hmax. unfold maybePopNormalFrames, RoundRobinIterate2.
  set (c0 := mkClosure [freshFrame] 0 [] 0 fr.(blockedFrameQueue)).
  destruct (robin_round m kind (popFrame maxBytes) (polling content m maxBytes) (polled_ok content m maxBytes))
    with (allowed := allowed) (p := ((m, f), c0)) as (p' & E & HQ); try done.
  - by intros p [? _].
  - intros [[m1 f1] c1] (Hsh & _). done.
  - intros id p. by apply popFrame_ok.
  - intros b n [[m1 f1] c1] [HQ Hf]. split; [by apply (polled_advance _ _ _ b n ((m1, f1), c1))|by destruct b].
  - intros b n p. apply polled_advance.
  - split.
    + split; [apply same_shape_refl|]. split; [done|]. split; [apply Forall_nil_2|]. split; [done|].
      split; [done|]. split; [apply Forall_nil_2|]. intros id s0 s1 H0 H1. simplify_eq. split; [intros; lia|split; [by left|done]].
    + exists [], freshFrame. split; [done|]. split; [done|]. split; [apply Forall_nil_2|done].
  - rewrite E. destruct p' as [[m' f'] c']. destruct HQ as (Hsh & Hfr' & Hg & Ht & Hle & Hdl & Hcov).
    do 4 eexists. split; [reflexivity|]. fold (results c'). split_and!; try done; [apply Hsh..|lia].
Qed.

(** ** Retransmissions *)

Lemma good_fields content m f g :
  good content m f -> g.(StreamFrame.StreamID) = f.(StreamFrame.StreamID) ->
  g.(StreamFrame.Offset) = f.(StreamFrame.Offset) -> g.(StreamFrame.Data) = f.(StreamFrame.Data) ->
  g.(StreamFrame.FinBit) = f.(StreamFrame.FinBit) -> good content m g.
Proof. unfold good, sent, fin_at_end, StreamFrame.DataLen. by intros H -> -> -> ->. Qed.

Lemma split_good content m f n a b :
  (forall id, Z.of_nat (length (content id)) < 2 ^ 63) -> good content m f -> 0 < n ->
  maybeSplitOffFrame f n = Some (a, b) ->
  good content m a /\ good content m b
  /\ StreamFrame.DataLen a = n /\ n < StreamFrame.DataLen f
  /\ (forall x, covers f x <-> covers a x \/ covers b x)
  /\ a.(StreamFrame.StreamID) = f.(StreamFrame.StreamID) /\ b.(StreamFrame.StreamID) = f.(StreamFrame.StreamID)
  /\ b.(StreamFrame.FinBit) = f.(StreamFrame.FinBit).
Proof.
  intros Hb ((Ho & Hle & Hd) & Hfin & Hs & Hok & Hne) Hn. specialize (Hb f.(StreamFrame.StreamID)).
  unfold maybeSplitOffFrame. unfold StreamFrame.DataLen in *.
  destruct (Z.leb_spec (Z.of_nat (length f.(StreamFrame.Data))) n) as [|Hlt]; [done|]. intros [= <- <-].
  assert (Hta : length (take (Z.to_nat n) f.(StreamFrame.Data)) = Z.to_nat n) by (rewrite length_take; lia).
  assert (Htb : length (drop (Z.to_nat n) f.(StreamFrame.Data)) = (length f.(StreamFrame.Data) - Z.to_nat n)%nat)
    by (rewrite length_drop; lia).
  unfold good, sent, fin_at_end, covers, StreamFrame.DataLen. cbn. rewrite Hta, Htb, u64_small by lia.
  split; [split_and!; try done; try lia|split; [split_and!; try done; try lia|split_and!; try done; lia]].
  - rewrite Hd at 1. rewrite take_take. f_equal. lia.
  - rewrite Hd at 1. rewrite skipn_firstn_comm, drop_drop. f_equal. f_equal. lia.
  - intros Hf%Hfin. unfold StreamFrame.DataLen in Hf. lia.
Qed.

Lemma popRetransmissions_ok content m maxLen queue : forall n f,
  (forall id, Z.of_nat (length (content id)) < 2 ^ 63) -> Forall (good content m) queue -> n <= maxLen ->
  let '(fs, q, len, _) := popRetransmissions queue maxLen n f in
  Forall (good content m) fs /\ Forall (good content m) q /\ len = n + total fs /\ len <= maxLen
  /\ Forall (fun f => f.(StreamFrame.DataLenPresent) = true) fs
  /\ (forall g x, g ∈ queue -> covers g x ->
        exists g', g' ∈ fs ++ q /\ g'.(StreamFrame.StreamID) = g.(StreamFrame.StreamID) /\ covers g' x)
  /\ (forall g, g ∈ queue -> g.(StreamFrame.FinBit) = true ->
        exists g', g' ∈ fs ++ q /\ g'.(StreamFrame.StreamID) = g.(StreamFrame.StreamID)
          /\ g'.(StreamFrame.FinBit) = true).
Proof.
  induction queue as [|g0 queue IH]; intros n f Hb Hq Hn; cbn [popRetransmissions].
  { split; [apply Forall_nil_2|]. split; [apply Forall_nil_2|]. split; [cbn; lia|]. split; [lia|].
    split; [apply Forall_nil_2|]. split; set_solver. }
  apply Forall_cons in Hq as [Hg Hq]. set (g := set_DataLenPresent g0 true).
  assert (Hgg : good content m g) by (by apply (good_fields content m g0)).
  destruct (Z.leb_spec maxLen (n + headerLen g)) as [|Hroom].
  { split; [apply Forall_nil_2|]. split; [by constructor|]. split; [cbn; lia|]. split; [lia|].
    split; [apply Forall_nil_2|]. split.
    - intros h x [->|Hh]%elem_of_cons Hc; [exists g|exists h]; (split; [set_solver|done]).
    - intros h [->|Hh]%elem_of_cons Hc; [exists g|exists h]; (split; [set_solver|done]). }
  destruct (maybeSplitOffFrame g (maxLen - (n + headerLen g))) as [[a b]|] eqn:E.
  - destruct (split_good content m g (maxLen - (n + headerLen g)) a b Hb Hgg ltac:(lia) E) as (Ha & Hbb & Hla & Hlt & Hcov & Hia & Hib & Hfb).
    assert (Hh : headerLen a = headerLen g).
    { revert E. unfold maybeSplitOffFrame. case_match; [done|]. intros [= <- _]. by apply headerLen_eq. }
    split; [by apply Forall_singleton|]. split; [by constructor|].
    split; [cbn [total foldr]; unfold frameLen; lia|]. split; [lia|]. split; [|split].
    + constructor; [|constructor]. revert E. unfold maybeSplitOffFrame. case_match; [done|]. by intros [= <- _].
    + intros h x [->|Hin]%elem_of_cons Hc; [|exists h; split; [set_solver|done]].
      apply (Hcov x) in Hc as [Hc|Hc]; [exists a|exists b]; (split; [set_solver|done]).
    + intros h [->|Hin]%elem_of_cons Hf; [|exists h; split; [set_solver|done]].
      exists b. split; [set_solver|]. split; [done|]. by rewrite Hfb.
  - assert (Hle : StreamFrame.DataLen g <= maxLen - (n + headerLen g)).
    { revert E. unfold maybeSplitOffFrame. by destruct (Z.leb_spec (StreamFrame.DataLen g) (maxLen - (n + headerLen g))). }
    specialize (IH (n + headerLen g + StreamFrame.DataLen g)
      (FlowControlManager.AddBytesRetrans f g.(StreamFrame.StreamID) (StreamFrame.DataLen g)).1 Hb Hq ltac:(lia)).
    destruct (popRetransmissions queue _ _ _) as [[[fs q] len] f'].
    destruct IH as (H1 & H2 & H3 & H4 & H5 & H6 & H7).
    split; [by constructor|]. split; [done|].
    split; [cbn [total foldr]; fold (total fs); unfold frameLen; lia|]. split; [done|]. split; [by constructor|]. split.
    + intros h x [->|Hin]%elem_of_cons Hc; [exists g; split; [set_solver|done]|].
      destruct (H6 h x Hin Hc) as (g' & ? & ?). exists g'. split; [set_solver|done].
    + intros h [->|Hin]%elem_of_cons Hf; [exists g; split; [set_solver|done]|].
      destruct (H7 h Hin Hf) as (g' & ? & ?). exists g'. split; [set_solver|done].
Qed.

Lemma frameLen_nonneg f : 0 <= frameLen f.
Proof.
  unfold frameLen, headerLen, StreamFrame.DataLen, StreamFrame.MinLength, StreamFrame.calculateStreamIDLength,
    StreamFrame.getOffsetLength. repeat case_match; lia.
Qed.

(** A FIN that was sent stays sent. *)
Lemma good_keeps content m m' g :
  good content m g ->
  (forall id s, m.(streams) !! id = Some s -> s.(Stream.finSent) = true ->
     exists s', m'.(streams) !! id = Some s' /\ s'.(Stream.finSent) = true) -> good content m' g.
Proof.
  intros (H1 & H2 & H3 & H4) Hk. split; [done|]. split; [done|]. split; [|done].
  intros (s & Hs & Hf)%H3. by apply (Hk _ s).
Qed.

Lemma covered_keeps m m' fs :
  same_shape m m' -> covered m m' fs ->
  forall id s, m.(streams) !! id = Some s -> s.(Stream.finSent) = true ->
    exists s', m'.(streams) !! id = Some s' /\ s'.(Stream.finSent) = true.
Proof.
  intros (_ & _ & Hd) Hc id s Hs Hf. destruct (proj2 (Hd id)) as [s' Hs']; [by rewrite Hs|].
  exists s'. split; [done|]. by apply (Hc id s s').
Qed.

Lemma PopStreamFrames2_ok (content : Z -> list Z) (kind : bool) (fr : t) (m : StreamsMap.t)
  (f : FlowControlManager.mgr) (maxLen : Z) (allowed : bool)
  (Hids : forall id, is_Some (m.(streams) !! id) -> okID id)
  (Hi : map_inv m) (Hk : one_kind m kind) (Hr : robin_ok m) (Hc : forall id, Z.of_nat (length (content id)) < 2 ^ 63)
  (Hfr : all_framed content m) (Hq : Forall (good content m) fr.(retransmissionQueue))
  (Hmax : 0 <= maxLen < 2 ^ 63) :
  exists fr' m' f' fs,
    PopStreamFrames2 fr (m, f) maxLen allowed = Some (fr', (m', f'), fs)
    /\ all_framed content m' /\ Forall (good content m') fs
    /\ Forall (good content m') fr'.(retransmissionQueue)
    /\ total fs <= maxLen /\ Forall (fun f => f.(StreamFrame.DataLenPresent) = true) fs
    /\ covered m m' fs
    /\ (forall g x, g ∈ fr.(retransmissionQueue) -> covers g x ->
          exists g', g' ∈ fs ++ fr'.(retransmissionQueue)
            /\ g'.(StreamFrame.StreamID) = g.(StreamFrame.StreamID) /\ covers g' x)
    /\ (forall g, g ∈ fr.(retransmissionQueue) -> g.(StreamFrame.FinBit) = true ->
          exists g', g' ∈ fs ++ fr'.(retransmissionQueue)
            /\ g'.(StreamFrame.StreamID) = g.(StreamFrame.StreamID) /\ g'.(StreamFrame.FinBit) = true).
Proof.
  unfold PopStreamFrames2, maybePopFramesForRetransmission. cbn [fst snd].
  pose proof (popRetransmissions_ok content m maxLen fr.(retransmissionQueue) 0 f Hc Hq ltac:(lia)) as Hre.
  destruct (popRetransmissions _ _ _ _) as [[[fs q] len] f1].
  destruct Hre as (R1 & R2 & R3 & R4 & R5 & R6 & R7).
  assert (Htot : forall l, 0 <= total l).
  { intros l. induction l as [|g l IH]; [done|]. cbn [total foldr]. fold (total l).
    pose proof (frameLen_nonneg g). lia. }
  pose proof (Htot fs). rewrite u64_small by lia.
  destruct (maybePopNormalFrames_ok content kind (set_retransmissionQueue fr q) m f1 (maxLen - len) allowed Hids Hi Hk Hr Hfr)
    as (fr' & m' & f' & fs' & -> & Hq' & Hsh & Hfr' & Hg & Ht & Hdl & Hcov); [lia|]. cbn in Hq'.
  assert (Hmono : forall g, good content m g -> good content m' g) by (intros g Hg0; apply (good_keeps content m m' g Hg0); by apply (covered_keeps m m' fs')).
  exists fr', m', f', (fs ++ fs'). split; [done|]. split; [done|].
  split; [apply Forall_app_2; [exact (Forall_impl _ _ _ R1 Hmono)|done]|].
  split; [rewrite Hq'; exact (Forall_impl _ _ _ R2 Hmono)|]. split; [rewrite total_app; lia|].
  split; [by apply Forall_app_2|]. split; [|split].
  - intros id s0 s H0 H1. destruct (Hcov id s0 s H0 H1) as (Hx & Hf & Hkeep). split; [|split; [|done]].
    + intros x Hxx. destruct (Hx x Hxx) as (g & ? & ?). exists g. split; [set_solver|done].
    + intros H2. destruct (Hf H2) as [?|(g & ? & ?)]; [by left|right]. exists g. split; [set_solver|done].
  - intros g x Hin Hxx. destruct (R6 g x Hin Hxx) as (g' & ? & ?). exists g'. rewrite Hq'. split; [set_solver|done].
  - intros g Hin Hf. destruct (R7 g Hin Hf) as (g' & ? & ?). exists g'. rewrite Hq'. split; [set_solver|done].
Qed.

End frames.

(** C9: the frames carry what was written.  [content] is what the application
    wrote to each stream so far.  When the open streams are of one kind, a call
    of [PopStreamFrames2] does not panic; every frame it returns, new or
    retransmitted, is a piece of its stream at its offset (not empty unless it
    brings the FIN), its stream ID has every property [okID] of the open and the
    queued ones, and a FIN is at the end of the stream; their lengths (with a data length field each) fit; every
    byte and FIN that was taken from a stream is in a returned frame, and every
    byte and FIN of the retransmission queue is in a returned frame or still
    queued. *)
Theorem framer_pops_content (okID : Z -> Prop) (content : Z -> list Z) (kind : bool) (fr : t) (m : StreamsMap.t)
  (f : FlowControlManager.mgr) (maxLen : Z) (allowed : bool)
  (Hids : forall id, is_Some (m.(streams) !! id) -> okID id)
  (Hi : map_inv m) (Hk : one_kind m kind) (Hr : robin_ok m) (Hc : forall id, Z.of_nat (length (content id)) < 2 ^ 63)
  (Hfr : all_framed content m) (Hq : Forall (good okID content m) fr.(retransmissionQueue))
  (Hmax : 0 <= maxLen < 2 ^ 63) :
  exists fr' m' f' fs,
    PopStreamFrames2 fr (m, f) maxLen allowed = Some (fr', (m', f'), fs)
    /\ all_framed content m' /\ Forall (good okID content m') fs
    /\ Forall (good okID content m') fr'.(retransmissionQueue)
    /\ total fs <= maxLen /\ Forall (fun f => f.(StreamFrame.DataLenPresent) = true) fs
    /\ covered m m' fs
    /\ (forall g x, g ∈ fr.(retransmissionQueue) -> covers g x ->
          exists g', g' ∈ fs ++ fr'.(retransmissionQueue)
            /\ g'.(StreamFrame.StreamID) = g.(StreamFrame.StreamID) /\ covers g' x)
    /\ (forall g, g ∈ fr.(retransmissionQueue) -> g.(StreamFrame.FinBit) = true ->
          exists g', g' ∈ fs ++ fr'.(retransmissionQueue)
            /\ g'.(StreamFrame.StreamID) = g.(StreamFrame.StreamID) /\ g'.(StreamFrame.FinBit) = true).
Proof. by apply (PopStreamFrames2_ok okID content kind). Qed.

(** ** Examples *)

#[global] Instance framed_dec content s : Decision (framed content s).
Proof. unfold framed. apply _. Defined.

Lemma all_framed_check content m :
  map_Forall (fun id s => s.(Stream.streamID) = id /\ framed (content id) s) m.(streams) -> all_framed content m.
Proof. done. Qed.

(** An operation of the stream [id]. *)
Definition on_stream (st : state) (id : Z) (g : Stream.t -> Stream.t) : state :=
  match st.1.(streams) !! id with
  | Some s => (set_streams st.1 (<[id := g s]> st.1.(streams)), st.2)
  | None => st
  end.

Definition after (pers : Perspective) (ops : list op) : state :=
  default (newStreamsMap pers, FlowControlManager.NewFlowControlManager demo_params)
    (run (newStreamsMap pers, FlowControlManager.NewFlowControlManager demo_params) ops).

(** A client that opened the streams 1, 3, 5 and 7 and wrote to two of them. *)
Definition demo_client : state :=
  let st := after PerspectiveClient [OpOpen; OpOpen; OpOpen; OpOpen] in
  let st := on_stream st 5 (fun s => (Stream.Write s (seqZ 0 100) 0).1.1) in
  on_stream st 7 (fun s => (Stream.Close (Stream.Write s (seqZ 0 40) 0).1.1).1).

Definition demo_content (id : Z) : list Z :=
  if id =? 5 then seqZ 0 100 else if id =? 7 then seqZ 0 40 else [].

Lemma demo_client_inv : map_inv demo_client.1.
Proof.
  destruct (run_ok [OpOpen; OpOpen; OpOpen; OpOpen;
      OpStream 5 (Stream.Write (Stream.newStreamType 5 ∅) (seqZ 0 100) 0).1.1;
      OpStream 7 (Stream.Close (Stream.Write (Stream.newStreamType 7 ∅) (seqZ 0 40) 0).1.1).1]
    (newStreamsMap PerspectiveClient, FlowControlManager.NewFlowControlManager demo_params) (map_new_inv _))
    as (st & E & (Hi & _) & _).
  - repeat apply Forall_cons_2; try apply Forall_nil_2; try exact I; reflexivity.
  - vm_compute. reflexivity.
  - assert (Hst : st = demo_client) by (vm_compute in E; injection E as <-; vm_compute; reflexivity).
    by rewrite <- Hst.
Qed.

Lemma demo_client_kind : one_kind demo_client.1 true.
Proof.
  assert (Hm : forall id, id ∈ demo_client.1.(openStreams) -> is_Some (demo_client.1.(unreliableStreamMark) !! id)).
  { intros id Hid. assert (Hl : demo_client.1.(openStreams) = [1; 3; 5; 7]) by (vm_compute; reflexivity).
    rewrite Hl in Hid. repeat (apply elem_of_cons in Hid as [->|Hid]; [apply not_eq_None_Some; vm_compute; discriminate|]).
    exfalso. apply elem_of_nil in Hid. exact Hid. }
  intros id Hid _ _. split; [intros _; reflexivity|]. intros _. exact (Hm id Hid).
Qed.

Lemma demo_content_length id : Z.of_nat (length (demo_content id)) < 2 ^ 63.
Proof. unfold demo_content. destruct (id =? 5); [|destruct (id =? 7)]; vm_compute; reflexivity. Qed.

Lemma demo_client_framed : all_framed demo_content demo_client.1.
Proof. apply all_framed_check. apply (bool_decide_unpack _). vm_compute. exact I. Qed.

Lemma framer_pops_content_witness :
  exists fr' m' f' fs,
    PopStreamFrames2 newStreamFramer demo_client 120 true = Some (fr', (m', f'), fs)
    /\ map (fun f => (f.(StreamFrame.StreamID), f.(StreamFrame.Offset), StreamFrame.DataLen f, f.(StreamFrame.FinBit))) fs
       = [(5, 0, 100, false); (7, 0, 12, false)]
    /\ Forall (good (fun _ => True) demo_content m') fs /\ total fs <= 120 /\ covered demo_client.1 m' fs.
Proof.
  destruct (framer_pops_content (fun _ => True) demo_content true newStreamFramer demo_client.1 demo_client.2 120 true)
    as (fr' & m' & f' & fs & E & _ & Hg & _ & Ht & _ & Hcov & _).
  - by intros.
  - exact demo_client_inv.
  - exact demo_client_kind.
  - vm_compute. repeat split; discriminate.
  - exact demo_content_length.
  - exact demo_client_framed.
  - apply Forall_nil_2.
  - split; [discriminate|vm_compute; reflexivity].
  - exists fr', m', f', fs. split; [exact E|]. split; [|auto].
    vm_compute in E. injection E as <- <- <- <-. vm_compute. reflexivity.
Defined.

(** A server with the stream 5 of its peer, on which 3000 bytes were written, and
    its own stream 2, to which nothing was written. *)
Definition demo_server : state :=
  on_stream (after PerspectiveServer [OpGetOrOpen 5; OpOpen]) 5
    (fun s => (Stream.Write s (seqZ 0 3000) 0).1.1).

(** The bytes of one stream go out under the ID of another.  The first loop of
    the round robin fills the packet from stream 5 and is broken off, but the
    second loop still polls stream 2, and the closure then writes the ID and the
    offset of stream 2 into the frame that is already in the result: the first
    996 bytes of stream 5 are sent as stream 2 (to which nothing was written),
    stream 5 counts them as sent, and no returned frame carries any of them. *)
Theorem frame_sent_under_wrong_id :
  exists fr' m' f' fs s2 s5,
    PopStreamFrames2 newStreamFramer demo_server 1000 true = Some (fr', (m', f'), fs)
    /\ fs = [StreamFrame.mk 2 false false true 0 (seqZ 0 996)]
    /\ m'.(streams) !! 5 = Some s5 /\ s5.(Stream.writeOffset) = 996 /\ pending s5 = seqZ 996 2004
    /\ m'.(streams) !! 2 = Some s2 /\ s2.(Stream.writeOffset) = 0 /\ pending s2 = [].
Proof.
  destruct (PopStreamFrames2 newStreamFramer demo_server 1000 true) as [[[fr' [m' f']] fs]|] eqn:E;
    [|exfalso; vm_compute in E; discriminate].
  vm_compute in E. injection E as <- <- <- <-. do 6 eexists. split; [reflexivity|].
  repeat (split; [vm_compute; reflexivity|]). vm_compute. reflexivity.
Qed.

End FramerProofs.
