(* ===== verification/Float.v ===== *)
(** * Go's floating-point arithmetic on durations

    The code converts durations to [float32] or [float64], multiplies them with
    constants that are multiples of 1/8 and adds them.  Such a value is modelled
    exactly, as an integer count of a fixed unit (1/8, 1/4 or 1/2): every
    operation is the exact one followed by rounding to the significant bits of
    the format, ties to even.  The values that occur are far from the limits of
    the exponents.  Products and sums are rounded separately, as on amd64. *)

From S2P Require Import Prelude.

Definition roundBits (p z : Z) : Z :=
  let a := Z.abs z in
  if a <? 2 ^ p then z
  else
    let e := Z.log2 a - p + 1 in
    let q := a / 2 ^ e in
    let r := a mod 2 ^ e in
    let half := 2 ^ (e - 1) in
    let q := if (half <? r) || ((r =? half) && Z.odd q) then q + 1 else q in
    Z.sgn z * (q * 2 ^ e).

Definition float32 : Z -> Z := roundBits 24.
Definition float64 : Z -> Z := roundBits 53.

(** Integers that fit into the significant bits are not rounded. *)
Lemma roundBits_small p z : Z.abs z < 2 ^ p -> roundBits p z = z.
Proof. intros H. unfold roundBits. by rewrite (proj2 (Z.ltb_lt _ _)). Qed.

Lemma float32_small z : 0 <= z < 2 ^ 24 -> float32 z = z.
Proof. intros H. apply roundBits_small. lia. Qed.
Lemma float64_small z : 0 <= z < 2 ^ 53 -> float64 z = z.
Proof. intros H. apply roundBits_small. lia. Qed.

(** Rounding does not change the sign and moves a value by at most one part in [2 ^ p]. *)
Lemma roundBits_error p z : 1 <= p -> 0 <= z ->
  0 <= roundBits p z /\ 2 ^ p * Z.abs (roundBits p z - z) <= z.
Proof.
  intros Hp Hz. unfold roundBits. rewrite (Z.abs_eq z) by lia.
  destruct (Z.ltb_spec z (2 ^ p)) as [Hlt|Hge]; [rewrite Z.sub_diag; simpl; lia|].
  assert (Hpos : 0 < z) by (pose proof (Z.pow_pos_nonneg 2 p); lia).
  destruct (Z.log2_spec z Hpos) as [Hlo Hhi].
  assert (Hlog : p <= Z.log2 z) by (apply Z.log2_le_pow2; lia).
  set (e := Z.log2 z - p + 1). assert (He : 1 <= e) by lia.
  assert (Hhalf : 2 ^ e = 2 * 2 ^ (e - 1)) by (rewrite <- Z.pow_succ_r by lia; f_equal; lia).
  assert (Hunit : 2 ^ p * 2 ^ (e - 1) <= z).
  { rewrite <- Z.pow_add_r by lia. replace (p + (e - 1)) with (Z.log2 z) by lia. lia. }
  pose proof (Z.pow_pos_nonneg 2 (e - 1) ltac:(lia) ltac:(lia)) as Hh.
  pose proof (Z.div_mod z (2 ^ e) ltac:(lia)) as Hdm.
  pose proof (Z.mod_pos_bound z (2 ^ e) ltac:(lia)) as Hm.
  pose proof (Z.div_pos z (2 ^ e) ltac:(lia) ltac:(lia)) as Hq.
  rewrite Z.sgn_pos by lia. set (q := z / 2 ^ e) in *. set (r := z mod 2 ^ e) in *.
  assert (Herr : Z.abs (1 * ((if (2 ^ (e - 1) <? r) || ((r =? 2 ^ (e - 1)) && Z.odd q) then q + 1 else q) * 2 ^ e) - z)
                 <= 2 ^ (e - 1)).
  { destruct (Z.ltb_spec (2 ^ (e - 1)) r); [cbn [orb]; lia|].
    destruct (Z.eqb_spec r (2 ^ (e - 1))); [destruct (Z.odd q)|]; cbn [orb andb]; lia. }
  split; [|nia]. destruct (_ || _); nia.
Qed.
