(* ===== verification/RTTStats.v ===== *)
(** * Round-trip times ([congestion/rtt_stats.go])

    The smoothed round-trip time, its mean deviation and the recent minimum.
    Durations are nanoseconds; a zero [time.Time] is [None]. *)

From S2P Require Import Prelude MinMax Float.

Module RTTStats.

Definition initialRTTus_ : Z := 100 * 1000.
Definition Microsecond : Z := 1000.

Record rttSample : Type := mkSample { rtt : Z; time : option Z }.

Definition noSample : rttSample := mkSample 0 None.

Record t : Type := mk {
  initialRTTus : Z;
  recentMinRTTwindow : Z;
  minRTT : Z;
  latestRTT : Z;
  smoothedRTT : Z;
  meanDeviation : Z;
  numMinRTTsamplesRemaining : Z;
  newMinRTT : rttSample;
  recentMinRTT : rttSample;
  halfWindowRTT : rttSample;
  quarterWindowRTT : rttSample
}.

Definition NewRTTStats : t :=
  mk initialRTTus_ InfDuration 0 0 0 0 0 noSample noSample noSample noSample.

Definition InitialRTTus (r : t) : Z := r.(initialRTTus).
Definition MinRTT (r : t) : Z := r.(minRTT).
Definition LatestRTT (r : t) : Z := r.(latestRTT).
Definition RecentMinRTT (r : t) : Z := r.(recentMinRTT).(rtt).
Definition SmoothedRTT (r : t) : Z := r.(smoothedRTT).
Definition GetQuarterWindowRTT (r : t) : Z := r.(quarterWindowRTT).(rtt).
Definition GetHalfWindowRTT (r : t) : Z := r.(halfWindowRTT).(rtt).
Definition MeanDeviation (r : t) : Z := r.(meanDeviation).

Definition SetRecentMinRTTwindow (r : t) (window : Z) : t :=
  mk r.(initialRTTus) window r.(minRTT) r.(latestRTT) r.(smoothedRTT) r.(meanDeviation)
    r.(numMinRTTsamplesRemaining) r.(newMinRTT) r.(recentMinRTT) r.(halfWindowRTT) r.(quarterWindowRTT).

(** [a.Before(b)]; the zero time is before every time the clock returns. *)
Definition Before (a : option Z) (b : Z) : bool :=
  match a with None => true | Some a => a <? b end.

(** The three recent samples. *)
Definition windows : Type := (rttSample * rttSample * rttSample)%type.

(** [if r.numMinRTTsamplesRemaining > 0 { ... }]: the remaining samples, the new minimum and the windows. *)
Definition sampleNewMin (r : t) (sample now : Z) : Z * rttSample * windows :=
  let old := (r.(recentMinRTT), r.(halfWindowRTT), r.(quarterWindowRTT)) in
  if 0 <? r.(numMinRTTsamplesRemaining) then
    let remaining := u32 (r.(numMinRTTsamplesRemaining) - 1) in
    let newMin :=
      if (r.(newMinRTT).(rtt) =? 0) || (sample <=? r.(newMinRTT).(rtt))
      then mkSample sample (Some now) else r.(newMinRTT) in
    (remaining, newMin, if remaining =? 0 then (newMin, newMin, newMin) else old)
  else (r.(numMinRTTsamplesRemaining), r.(newMinRTT), old).

(** The update of the three recent samples. *)
Definition recentSamples (sample now : Z) (w : windows) : windows :=
  let '(recent, half, quarter) := w in
  let s := mkSample sample (Some now) in
  if (recent.(rtt) =? 0) || (sample <=? recent.(rtt)) then (s, s, s)
  else if sample <=? half.(rtt) then (recent, s, s)
  else if sample <=? quarter.(rtt) then (recent, half, s)
  else (recent, half, quarter).

(** [time.Duration(float32(window/time.Microsecond)*c) * time.Microsecond] with [c = 1/d]. *)
Definition windowPart (window d : Z) : Z :=
  i64 (Z.quot (float32 (Z.quot window Microsecond)) d * Microsecond).

(** Old samples expire. *)
Definition expireSamples (window sample now : Z) (w : windows) : windows :=
  let '(recent, half, quarter) := w in
  let s := mkSample sample (Some now) in
  if Before recent.(time) (now - window) then (half, quarter, s)
  else if Before half.(time) (now - windowPart window 2) then (recent, quarter, s)
  else if Before quarter.(time) (now - windowPart window 4) then (recent, half, s)
  else (recent, half, quarter).

Definition updateRecentMinRTT (r : t) (sample now : Z) : t :=
  let '(remaining, newMin, w) := sampleNewMin r sample now in
  let '(recent, half, quarter) :=
    expireSamples r.(recentMinRTTwindow) sample now (recentSamples sample now w) in
  mk r.(initialRTTus) r.(recentMinRTTwindow) r.(minRTT) r.(latestRTT) r.(smoothedRTT) r.(meanDeviation)
    remaining newMin recent half quarter.

(** [0.75 * float32(old/us) + 0.25 * float32(new/us)], in quarters of a microsecond. *)
Definition weightedDeviation (old new : Z) : Z :=
  i64 (Z.quot (float32 (float32 (3 * float32 (Z.quot old Microsecond)) + float32 (Z.quot new Microsecond))) 4
       * Microsecond).

(** [float32(old/us) * 0.875 + float32(sample/us) * 0.125], in eighths of a microsecond. *)
Definition weightedRTT (old sample : Z) : Z :=
  i64 (Z.quot (float32 (float32 (7 * float32 (Z.quot old Microsecond)) + float32 (Z.quot sample Microsecond))) 8
       * Microsecond).

Definition UpdateRTT (r : t) (sendDelta ackDelay now : Z) : t :=
  if (sendDelta =? InfDuration) || (sendDelta <=? 0) then r
  else
    let min := if (r.(minRTT) =? 0) || (sendDelta <? r.(minRTT)) then sendDelta else r.(minRTT) in
    let r := updateRecentMinRTT r sendDelta now in
    let sample := if ackDelay <? sendDelta then i64 (sendDelta - ackDelay) else sendDelta in
    let '(smoothed, deviation) :=
      if r.(smoothedRTT) =? 0 then (sample, Z.quot sample 2)
      else (weightedRTT r.(smoothedRTT) sample,
            weightedDeviation r.(meanDeviation) (AbsDuration (i64 (r.(smoothedRTT) - sample)))) in
    mk r.(initialRTTus) r.(recentMinRTTwindow) min sample smoothed deviation
      r.(numMinRTTsamplesRemaining) r.(newMinRTT) r.(recentMinRTT) r.(halfWindowRTT) r.(quarterWindowRTT).

Definition SampleNewRecentMinRTT (r : t) (numSamples : Z) : t :=
  mk r.(initialRTTus) r.(recentMinRTTwindow) r.(minRTT) r.(latestRTT) r.(smoothedRTT) r.(meanDeviation)
    numSamples noSample r.(recentMinRTT) r.(halfWindowRTT) r.(quarterWindowRTT).

Definition OnConnectionMigration (r : t) : t :=
  mk initialRTTus_ InfDuration 0 0 0 0 0 r.(newMinRTT) noSample noSample noSample.

Definition ExpireSmoothedMetrics (r : t) : t :=
  mk r.(initialRTTus) r.(recentMinRTTwindow) r.(minRTT) r.(latestRTT)
    (MaxDuration r.(smoothedRTT) r.(latestRTT))
    (MaxDuration r.(meanDeviation) (AbsDuration (i64 (r.(smoothedRTT) - r.(latestRTT)))))
    r.(numMinRTTsamplesRemaining) r.(newMinRTT) r.(recentMinRTT) r.(halfWindowRTT) r.(quarterWindowRTT).

Definition UpdateSessionRTT (r : t) (smoothed : Z) : t :=
  mk r.(initialRTTus) r.(recentMinRTTwindow) r.(minRTT) r.(latestRTT) smoothed r.(meanDeviation)
    r.(numMinRTTsamplesRemaining) r.(newMinRTT) r.(recentMinRTT) r.(halfWindowRTT) r.(quarterWindowRTT).

End RTTStats.

(** ** The estimates stay within the samples *)

Module RTTProofs.
Import RTTStats.

(** Below two seconds no [float32] operation rounds. *)
Definition exactLimit : Z := 2 ^ 21 * Microsecond.

Lemma us_range d : 0 <= d < exactLimit -> 0 <= Z.quot d Microsecond < 2 ^ 21.
Proof.
  unfold exactLimit, Microsecond. intros H. rewrite Z.quot_div_nonneg by lia.
  split; [apply Z.div_pos; lia|]. apply Z.div_lt_upper_bound; lia.
Qed.

Lemma weighted_exact (k n a b : Z) :
  0 <= k <= 7 -> 0 < n -> 0 <= a < 2 ^ 21 -> 0 <= b < 2 ^ 21 ->
  i64 (Z.quot (float32 (float32 (k * float32 a) + float32 b)) n * Microsecond)
  = (k * a + b) / n * Microsecond.
Proof.
  intros Hk Hn Ha Hb. assert (Hka : 0 <= k * a <= 7 * (2 ^ 21 - 1)) by nia.
  rewrite (float32_small a), (float32_small b), (float32_small (k * a)), float32_small by lia.
  rewrite Z.quot_div_nonneg by lia.
  assert (0 <= (k * a + b) / n <= k * a + b).
  { split; [apply Z.div_pos; lia|]. apply Z.div_le_upper_bound; nia. }
  unfold i64, Microsecond. rewrite Z.mod_small; lia.
Qed.

Lemma weightedRTT_exact old s :
  0 <= old < exactLimit -> 0 <= s < exactLimit ->
  weightedRTT old s = (7 * Z.quot old Microsecond + Z.quot s Microsecond) / 8 * Microsecond.
Proof. intros Ho%us_range Hs%us_range. apply weighted_exact; lia. Qed.

Lemma weightedDeviation_exact old s :
  0 <= old < exactLimit -> 0 <= s < exactLimit ->
  weightedDeviation old s = (3 * Z.quot old Microsecond + Z.quot s Microsecond) / 4 * Microsecond.
Proof. intros Ho%us_range Hs%us_range. apply weighted_exact; lia. Qed.

(** One measurement: the time since the packet was sent and the delay the peer reports. *)
Record measurement : Type := mkMeasurement { sendDelta : Z; ackDelay : Z; at_ : Z }.

Definition sample (m : measurement) : Z :=
  if m.(ackDelay) <? m.(sendDelta) then m.(sendDelta) - m.(ackDelay) else m.(sendDelta).

Definition measurement_ok (m : measurement) : Prop :=
  0 < m.(sendDelta) < exactLimit /\ 0 <= m.(ackDelay).

Definition update (r : t) (m : measurement) : t := UpdateRTT r m.(sendDelta) m.(ackDelay) m.(at_).

Lemma sample_range m : measurement_ok m -> 0 < sample m <= m.(sendDelta).
Proof. intros [? ?]. unfold sample. zcases; lia. Qed.

(** What one valid measurement does. *)
Lemma UpdateRTT_eq r m :
  measurement_ok m ->
  let r' := update r m in
  r'.(minRTT) = (if (r.(minRTT) =? 0) || (m.(sendDelta) <? r.(minRTT)) then m.(sendDelta) else r.(minRTT))
  /\ r'.(latestRTT) = sample m
  /\ r'.(smoothedRTT) = (if r.(smoothedRTT) =? 0 then sample m else weightedRTT r.(smoothedRTT) (sample m))
  /\ r'.(meanDeviation) = (if r.(smoothedRTT) =? 0 then Z.quot (sample m) 2
       else weightedDeviation r.(meanDeviation) (AbsDuration (i64 (r.(smoothedRTT) - sample m)))).
Proof.
  intros Hm. pose proof Hm as [Hd Ha]. unfold update, UpdateRTT.
  unfold exactLimit, Microsecond in Hd. unfold InfDuration.
  destruct (Z.eqb_spec m.(sendDelta) (2 ^ 63 - 1)); [lia|].
  destruct (Z.leb_spec m.(sendDelta) 0); [lia|]. cbn [orb].
  assert (Hs : (if m.(ackDelay) <? m.(sendDelta) then i64 (m.(sendDelta) - m.(ackDelay)) else m.(sendDelta))
               = sample m).
  { unfold sample, i64. zcases; [rewrite Z.mod_small; lia|done]. }
  rewrite Hs. unfold updateRecentMinRTT.
  destruct (sampleNewMin _ _ _) as [[remaining newMin] w].
  destruct (expireSamples _ _ _ _) as [[recent half] quarter]. cbn [smoothedRTT meanDeviation].
  by destruct (Z.eqb_spec r.(smoothedRTT) 0).
Qed.

(** The estimates after at least one measurement between [lo] and [hi]. *)
Definition estimates (lo hi least : Z) (r : t) : Prop :=
  r.(minRTT) = least /\ Z.quot lo Microsecond * Microsecond <= r.(smoothedRTT) <= hi
  /\ 0 < r.(smoothedRTT) /\ 0 <= r.(meanDeviation) <= hi.

Lemma floor_us d : 0 <= d -> 0 <= d - Z.quot d Microsecond * Microsecond < Microsecond.
Proof.
  intros H. rewrite Z.quot_div_nonneg by (unfold Microsecond; lia).
  pose proof (Z.mod_pos_bound d Microsecond ltac:(unfold Microsecond; lia)).
  rewrite Z.mod_eq in * by (unfold Microsecond; lia). lia.
Qed.

Lemma weighted_between k a b lo hi :
  0 < k -> lo <= a <= hi -> lo <= b <= hi -> lo <= (k * a + b) / (k + 1) <= hi.
Proof.
  intros Hk Ha Hb. split; [apply Z.div_le_lower_bound; nia|].
  apply Z.lt_succ_r, Z.div_lt_upper_bound; nia.
Qed.

Lemma quot_us_mono a b : 0 <= a <= b -> Z.quot a Microsecond <= Z.quot b Microsecond.
Proof. intros. apply Z.quot_le_mono; unfold Microsecond; lia. Qed.

Lemma quot_us_lower lo d : Z.quot lo Microsecond * Microsecond <= d ->
  Z.quot lo Microsecond <= Z.quot d Microsecond.
Proof. intros H. apply Z.quot_le_lower_bound; unfold Microsecond in *; lia. Qed.

Lemma estimates_step lo hi least r m :
  Microsecond <= lo -> hi < exactLimit -> measurement_ok m -> lo <= sample m <= hi ->
  estimates lo hi least r -> 0 < least ->
  estimates lo hi (Z.min least m.(sendDelta)) (update r m).
Proof.
  intros Hlo Hhi Hm Hs (Hmin & Hsm & Hpos & Hdev) Hleast.
  assert (Hlo0 : 0 < lo) by (unfold Microsecond in Hlo; lia).
  destruct (UpdateRTT_eq r m Hm) as (Emin & _ & Esm & Edev).
  unfold estimates. rewrite Emin, Esm, Edev, Hmin.
  rewrite (proj2 (Z.eqb_neq r.(smoothedRTT) 0)), (proj2 (Z.eqb_neq least 0)) by lia. cbn [orb].
  set (d := AbsDuration (i64 (r.(smoothedRTT) - sample m))).
  assert (Hd : 0 <= d <= hi).
  { unfold d, AbsDuration, i64, exactLimit, Microsecond in *. rewrite Z.mod_small by lia.
    zcases; [lia|]. rewrite Z.mod_small; lia. }
  rewrite weightedRTT_exact, weightedDeviation_exact by lia.
  assert (H1 : 1 <= Z.quot lo Microsecond) by (apply Z.quot_le_lower_bound; unfold Microsecond in *; lia).
  pose proof (quot_us_lower lo r.(smoothedRTT) ltac:(lia)).
  pose proof (quot_us_mono lo (sample m) ltac:(lia)). pose proof (quot_us_mono (sample m) hi ltac:(lia)).
  pose proof (quot_us_mono r.(smoothedRTT) hi ltac:(lia)). pose proof (quot_us_mono d hi Hd).
  pose proof (quot_us_mono r.(meanDeviation) hi Hdev). pose proof (floor_us hi ltac:(lia)).
  pose proof (us_range d ltac:(lia)) as Hd0. pose proof (us_range r.(meanDeviation) ltac:(lia)) as Hv0.
  pose proof (weighted_between 7 (Z.quot r.(smoothedRTT) Microsecond) (Z.quot (sample m) Microsecond)
    (Z.quot lo Microsecond) (Z.quot hi Microsecond) ltac:(lia) ltac:(lia) ltac:(lia)) as HW.
  pose proof (weighted_between 3 (Z.quot r.(meanDeviation) Microsecond) (Z.quot d Microsecond)
    0 (Z.quot hi Microsecond) ltac:(lia) ltac:(lia) ltac:(lia)) as HV.
  change (7 + 1) with 8 in HW. change (3 + 1) with 4 in HV.
  unfold Microsecond in *. split_and!; try lia. zcases; lia.
Qed.

Lemma estimates_first lo hi m :
  0 < lo -> hi < exactLimit -> measurement_ok m -> lo <= sample m <= hi ->
  estimates lo hi m.(sendDelta) (update NewRTTStats m).
Proof.
  intros Hlo Hhi Hm Hs. destruct (UpdateRTT_eq NewRTTStats m Hm) as (Emin & _ & Esm & Edev).
  unfold estimates. rewrite Emin, Esm, Edev. cbn.
  pose proof (floor_us lo ltac:(lia)) as Hf. rewrite (Z.quot_div_nonneg (sample m)) by lia.
  pose proof (Z.div_pos (sample m) 2). pose proof (Z.div_le_upper_bound (sample m) 2 (sample m)).
  split_and!; lia.
Qed.

(** C24: whatever the order of the measurements, for samples from a microsecond on
    and below 2^21 microseconds, which single precision represents exactly, the
    round-trip estimates stay within the measurements: the minimum is the smallest
    time between sending and acknowledgement; the smoothed time lies between the
    smallest delay-corrected sample, rounded down to whole microseconds, and the
    largest one, and the mean deviation does not exceed the largest sample. *)
Theorem rtt_estimates (ms : list measurement) (m : measurement) (lo hi : Z)
  (Hlo : Microsecond <= lo) (Hhi : hi < exactLimit)
  (Hms : Forall (fun m => measurement_ok m /\ lo <= sample m <= hi) (m :: ms)) :
  estimates lo hi (foldl Z.min m.(sendDelta) (map sendDelta ms)) (foldl update NewRTTStats (m :: ms)).
Proof.
  apply Forall_cons in Hms as [[Hm Hs] Hms]. cbn [foldl].
  assert (Hl : 0 < m.(sendDelta)) by (destruct Hm; lia).
  assert (He : estimates lo hi m.(sendDelta) (update NewRTTStats m))
    by (apply estimates_first; try done; unfold Microsecond in *; lia).
  revert He Hl. generalize m.(sendDelta) (update NewRTTStats m). clear m Hm Hs.
  induction ms as [|m ms IH]; intros least r He Hl; [done|]. apply Forall_cons in Hms as [[Hm Hs] Hms].
  cbn [foldl map]. apply IH; [done| |destruct Hm; lia]. by apply estimates_step.
Qed.

Lemma rtt_estimates_witness :
  estimates 40000000 90000000 50000000
    (foldl update NewRTTStats
       [mkMeasurement 60000000 10000000 1; mkMeasurement 50000000 70000000 2; mkMeasurement 95000000 5000000 3;
        mkMeasurement 65000000 25000000 4]).
Proof.
  apply (rtt_estimates
    [mkMeasurement 50000000 70000000 2; mkMeasurement 95000000 5000000 3; mkMeasurement 65000000 25000000 4]
    (mkMeasurement 60000000 10000000 1) 40000000 90000000).
  - vm_compute. discriminate.
  - vm_compute. reflexivity.
  - repeat constructor; vm_compute; congruence.
Defined.

End RTTProofs.
