(* ===== verification/SentPackets.v ===== *)
(** * Sent packets ([ackhandler/sent_packet_handler.go], [packet.go],
    [retransmittable.go], [stop_waiting_manager.go], [packet_number_generator.go])

    Tracking of the packets in flight on one path: acknowledgements, loss
    detection, retransmission and the alarm.  The congestion controller is an
    interface; the round-trip statistics, which the Go code shares with it by
    pointer, are passed to it.  The clock is read once per call and is an
    argument; a zero [time.Time] of a timer is [None].  The verdict of the RTO
    callback ([path.onRTO]) is an argument of [OnAlarm]. *)

From S2P Require Import Prelude ByteOrder Protocol WireFrames WireStream WireAck.
From S2P Require Import PacketUnpacker MinMax Float RTTStats.

(** ** Packets *)

Module Packet.

Record t : Type := mk {
  PacketNumber : Z; Frames : list Frame; Length : Z; EncryptionLevel : Z; SendTime : Z }.

(** ACK and STOP_WAITING frames are not sent again. *)
Fixpoint framesForRetransmission (fs : list Frame) : list Frame :=
  match fs with
  | [] => []
  | (FAck _ | FStopWaiting _) :: fs => framesForRetransmission fs
  | f :: fs => f :: framesForRetransmission fs
  end.

Definition GetFramesForRetransmission (p : t) : list Frame := framesForRetransmission p.(Frames).

Definition IsRetransmittable (p : t) : bool :=
  existsb (fun f => match f with
    | FStream _ | FRstStream _ | FWindowUpdate _ | FBlocked _ | FPing _ | FGoaway _
    | FAddAddress _ | FPaths _ => true
    | _ => false end) p.(Frames).

End Packet.

Definition IsFrameRetransmittable (f : Frame) : bool :=
  match f with
  | FStopWaiting _ | FAck _ => false
  | FStream s => negb s.(StreamFrame.UnreliableMarker)
  | _ => true
  end.

Fixpoint stripNonRetransmittableFrames (fs : list Frame) : list Frame :=
  match fs with
  | [] => []
  | f :: fs => if IsFrameRetransmittable f then f :: stripNonRetransmittableFrames fs
               else stripNonRetransmittableFrames fs
  end.

Definition HasRetransmittableFrames (fs : list Frame) : bool := existsb IsFrameRetransmittable fs.

(** ** Packet numbers: a random one is left out now and then *)

Module PacketNumberGenerator.

Record t : Type := mk { averagePeriod : Z; next : Z; nextToSkip : Z }.

Definition new (averagePeriod : Z) : t := mk averagePeriod 1 0.

Definition Peek (p : t) : Z := p.(next).

(** [num] is the random number, [None] when the random source failed. *)
Definition generateNewSkip (p : t) (num : option Z) : t :=
  match num with
  | None => p
  | Some num =>
      let skip := u64 (num * u64 (p.(averagePeriod) - 1)) / (65535 / 2) in
      mk p.(averagePeriod) p.(next) (u64 (p.(next) + 2 + skip))
  end.

Definition Pop (p : t) (num : option Z) : t * Z :=
  let n := u64 (p.(next) + 1) in
  if n =? p.(nextToSkip)
  then (generateNewSkip (mk p.(averagePeriod) (u64 (n + 1)) p.(nextToSkip)) num, p.(next))
  else (mk p.(averagePeriod) n p.(nextToSkip), p.(next)).

End PacketNumberGenerator.

(** ** STOP_WAITING frames *)

Module StopWaitingManager.

Record t : Type := mk {
  largestLeastUnackedSent : Z; nextLeastUnacked : Z;
  lastStopWaitingFrame : option StopWaitingFrame.t }.

Definition new : t := mk 0 0 None.

Definition GetStopWaitingFrame (s : t) (force : bool) : t * option StopWaitingFrame.t :=
  if s.(nextLeastUnacked) <=? s.(largestLeastUnackedSent) then
    if force then
      match s.(lastStopWaitingFrame) with
      | None =>
          if 0 <? s.(largestLeastUnackedSent) then
            let swf := Some (StopWaitingFrame.mk s.(nextLeastUnacked) 0 0) in
            (mk s.(largestLeastUnackedSent) s.(nextLeastUnacked) swf, swf)
          else (s, None)
      | Some f => (s, Some f)
      end
    else (s, None)
  else
    let swf := Some (StopWaitingFrame.mk s.(nextLeastUnacked) 0 0) in
    (mk s.(nextLeastUnacked) s.(nextLeastUnacked) swf, swf).

Definition atLeast (s : t) (p : Z) : t :=
  if s.(nextLeastUnacked) <=? p
  then mk s.(largestLeastUnackedSent) (u64 (p + 1)) s.(lastStopWaitingFrame) else s.

Definition ReceivedAck (s : t) (ack : AckFrame.t) : t := atLeast s ack.(AckFrame.LargestAcked).
Definition QueuedRetransmissionForPacketNumber (s : t) (p : Z) : t := atLeast s p.

End StopWaitingManager.

(** ** The congestion controller ([congestion/interface.go])

    What the sent packet handler calls; [S] is the state of the controller. *)
Class SendAlgorithm (S : Type) : Type := {
  OnPacketSent : S -> RTTStats.t -> Z (* now *) -> Z (* bytesInFlight *) -> Z (* number *) -> Z (* bytes *) -> bool -> S;
  GetCongestionWindow : S -> Z;
  MaybeExitSlowStart : S -> RTTStats.t -> S;
  OnPacketAcked : S -> RTTStats.t -> Z (* now *) -> Z (* number *) -> Z (* bytes *) -> Z (* bytesInFlight *) -> S;
  OnPacketLost : S -> RTTStats.t -> Z (* now *) -> Z (* number *) -> Z (* bytes *) -> Z (* bytesInFlight *) -> S;
  OnRetransmissionTimeout : S -> bool -> S;
  RetransmissionDelay : S -> RTTStats.t -> Z;
  SmoothedRTT : S -> RTTStats.t -> Z
}.

(** ** The handler *)

Definition Millisecond : Z := 1000000.
Definition defaultRTOTimeout : Z := 500 * Millisecond.
Definition minRTOTimeout : Z := 200 * Millisecond.
Definition maxRTOTimeout : Z := 60 * 1000 * Millisecond.
Definition maxTailLossProbes : Z := 2.
Definition minRetransmissionTime : Z := 200 * Millisecond.
Definition minTailLossProbeTimeout : Z := 10 * Millisecond.
Definition MaxNonRetransmittablePackets : Z := 19.
Definition MaxTrackedSentPackets : Z := 2 * 2500.
Definition MaxTrackedSkippedPackets : Z := 10.

Definition ErrDuplicateOrOutOfOrderAck : error :=
  ErrorsNew "SentPacketHandler: Duplicate or out-of-order ACK".
Definition ErrTooManyTrackedSentPackets : error :=
  ErrorsNew "Too many outstanding non-acked and non-retransmitted packets".
Definition ErrAckForSkippedPacket : error :=
  QuicError InvalidAckData "Received an ACK for a skipped packet number".
Definition errAckForUnsentPacket : error :=
  QuicError InvalidAckData "Received ACK for an unsent package".
Definition errPacketNumberNotIncreasing : error :=
  ErrorsNew "Already sent a packet with a higher packet number".

Module SentPacketHandler.

Section Handler.

Context {S : Type} `{cong : SendAlgorithm S}.

Record t : Type := mk {
  lastSentPacketNumber : Z;
  skippedPackets : list Z;
  numNonRetransmittablePackets : Z;
  LargestAcked : Z;
  largestReceivedPacketWithAck : Z;
  packetHistory : list Packet.t;
  stopWaitingManager : StopWaitingManager.t;
  retransmissionQueue : list Packet.t;
  bytesInFlight : Z;
  congestion : S;
  rttStats : RTTStats.t;
  rtoCount : Z;
  tlpCount : Z;
  lossTime : option Z;
  lastSentTime : Z;
  alarm : option Z;
  packets : Z;
  retransmissions : Z;
  losses : Z
}.

(** Assignments to single fields. *)
Definition set_lastSentPacketNumber (h : t) (v : Z) : t :=
  mk v h.(skippedPackets) h.(numNonRetransmittablePackets) h.(LargestAcked)
    h.(largestReceivedPacketWithAck) h.(packetHistory) h.(stopWaitingManager) h.(retransmissionQueue)
    h.(bytesInFlight) h.(congestion) h.(rttStats) h.(rtoCount) h.(tlpCount) h.(lossTime)
    h.(lastSentTime) h.(alarm) h.(packets) h.(retransmissions) h.(losses).
Definition set_skippedPackets (h : t) (v : list Z) : t :=
  mk h.(lastSentPacketNumber) v h.(numNonRetransmittablePackets) h.(LargestAcked)
    h.(largestReceivedPacketWithAck) h.(packetHistory) h.(stopWaitingManager) h.(retransmissionQueue)
    h.(bytesInFlight) h.(congestion) h.(rttStats) h.(rtoCount) h.(tlpCount) h.(lossTime)
    h.(lastSentTime) h.(alarm) h.(packets) h.(retransmissions) h.(losses).
Definition set_numNonRetransmittablePackets (h : t) (v : Z) : t :=
  mk h.(lastSentPacketNumber) h.(skippedPackets) v h.(LargestAcked) h.(largestReceivedPacketWithAck)
    h.(packetHistory) h.(stopWaitingManager) h.(retransmissionQueue) h.(bytesInFlight) h.(congestion)
    h.(rttStats) h.(rtoCount) h.(tlpCount) h.(lossTime) h.(lastSentTime) h.(alarm) h.(packets)
    h.(retransmissions) h.(losses).
Definition set_LargestAcked (h : t) (v : Z) : t :=
  mk h.(lastSentPacketNumber) h.(skippedPackets) h.(numNonRetransmittablePackets) v
    h.(largestReceivedPacketWithAck) h.(packetHistory) h.(stopWaitingManager) h.(retransmissionQueue)
    h.(bytesInFlight) h.(congestion) h.(rttStats) h.(rtoCount) h.(tlpCount) h.(lossTime)
    h.(lastSentTime) h.(alarm) h.(packets) h.(retransmissions) h.(losses).
Definition set_largestReceivedPacketWithAck (h : t) (v : Z) : t :=
  mk h.(lastSentPacketNumber) h.(skippedPackets) h.(numNonRetransmittablePackets) h.(LargestAcked) v
    h.(packetHistory) h.(stopWaitingManager) h.(retransmissionQueue) h.(bytesInFlight) h.(congestion)
    h.(rttStats) h.(rtoCount) h.(tlpCount) h.(lossTime) h.(lastSentTime) h.(alarm) h.(packets)
    h.(retransmissions) h.(losses).
Definition set_packetHistory (h : t) (v : list Packet.t) : t :=
  mk h.(lastSentPacketNumber) h.(skippedPackets) h.(numNonRetransmittablePackets) h.(LargestAcked)
    h.(largestReceivedPacketWithAck) v h.(stopWaitingManager) h.(retransmissionQueue) h.(bytesInFlight)
    h.(congestion) h.(rttStats) h.(rtoCount) h.(tlpCount) h.(lossTime) h.(lastSentTime) h.(alarm)
    h.(packets) h.(retransmissions) h.(losses).
Definition set_stopWaitingManager (h : t) (v : StopWaitingManager.t) : t :=
  mk h.(lastSentPacketNumber) h.(skippedPackets) h.(numNonRetransmittablePackets) h.(LargestAcked)
    h.(largestReceivedPacketWithAck) h.(packetHistory) v h.(retransmissionQueue) h.(bytesInFlight)
    h.(congestion) h.(rttStats) h.(rtoCount) h.(tlpCount) h.(lossTime) h.(lastSentTime) h.(alarm)
    h.(packets) h.(retransmissions) h.(losses).
Definition set_retransmissionQueue (h : t) (v : list Packet.t) : t :=
  mk h.(lastSentPacketNumber) h.(skippedPackets) h.(numNonRetransmittablePackets) h.(LargestAcked)
    h.(largestReceivedPacketWithAck) h.(packetHistory) h.(stopWaitingManager) v h.(bytesInFlight)
    h.(congestion) h.(rttStats) h.(rtoCount) h.(tlpCount) h.(lossTime) h.(lastSentTime) h.(alarm)
    h.(packets) h.(retransmissions) h.(losses).
Definition set_bytesInFlight (h : t) (v : Z) : t :=
  mk h.(lastSentPacketNumber) h.(skippedPackets) h.(numNonRetransmittablePackets) h.(LargestAcked)
    h.(largestReceivedPacketWithAck) h.(packetHistory) h.(stopWaitingManager) h.(retransmissionQueue) v
    h.(congestion) h.(rttStats) h.(rtoCount) h.(tlpCount) h.(lossTime) h.(lastSentTime) h.(alarm)
    h.(packets) h.(retransmissions) h.(losses).
Definition set_congestion (h : t) (v : S) : t :=
  mk h.(lastSentPacketNumber) h.(skippedPackets) h.(numNonRetransmittablePackets) h.(LargestAcked)
    h.(largestReceivedPacketWithAck) h.(packetHistory) h.(stopWaitingManager) h.(retransmissionQueue)
    h.(bytesInFlight) v h.(rttStats) h.(rtoCount) h.(tlpCount) h.(lossTime) h.(lastSentTime) h.(alarm)
    h.(packets) h.(retransmissions) h.(losses).
Definition set_rttStats (h : t) (v : RTTStats.t) : t :=
  mk h.(lastSentPacketNumber) h.(skippedPackets) h.(numNonRetransmittablePackets) h.(LargestAcked)
    h.(largestReceivedPacketWithAck) h.(packetHistory) h.(stopWaitingManager) h.(retransmissionQueue)
    h.(bytesInFlight) h.(congestion) v h.(rtoCount) h.(tlpCount) h.(lossTime) h.(lastSentTime) h.(alarm)
    h.(packets) h.(retransmissions) h.(losses).
Definition set_rtoCount (h : t) (v : Z) : t :=
  mk h.(lastSentPacketNumber) h.(skippedPackets) h.(numNonRetransmittablePackets) h.(LargestAcked)
    h.(largestReceivedPacketWithAck) h.(packetHistory) h.(stopWaitingManager) h.(retransmissionQueue)
    h.(bytesInFlight) h.(congestion) h.(rttStats) v h.(tlpCount) h.(lossTime) h.(lastSentTime) h.(alarm)
    h.(packets) h.(retransmissions) h.(losses).
Definition set_tlpCount (h : t) (v : Z) : t :=
  mk h.(lastSentPacketNumber) h.(skippedPackets) h.(numNonRetransmittablePackets) h.(LargestAcked)
    h.(largestReceivedPacketWithAck) h.(packetHistory) h.(stopWaitingManager) h.(retransmissionQueue)
    h.(bytesInFlight) h.(congestion) h.(rttStats) h.(rtoCount) v h.(lossTime) h.(lastSentTime) h.(alarm)
    h.(packets) h.(retransmissions) h.(losses).
Definition set_lossTime (h : t) (v : option Z) : t :=
  mk h.(lastSentPacketNumber) h.(skippedPackets) h.(numNonRetransmittablePackets) h.(LargestAcked)
    h.(largestReceivedPacketWithAck) h.(packetHistory) h.(stopWaitingManager) h.(retransmissionQueue)
    h.(bytesInFlight) h.(congestion) h.(rttStats) h.(rtoCount) h.(tlpCount) v h.(lastSentTime) h.(alarm)
    h.(packets) h.(retransmissions) h.(losses).
Definition set_lastSentTime (h : t) (v : Z) : t :=
  mk h.(lastSentPacketNumber) h.(skippedPackets) h.(numNonRetransmittablePackets) h.(LargestAcked)
    h.(largestReceivedPacketWithAck) h.(packetHistory) h.(stopWaitingManager) h.(retransmissionQueue)
    h.(bytesInFlight) h.(congestion) h.(rttStats) h.(rtoCount) h.(tlpCount) h.(lossTime) v h.(alarm)
    h.(packets) h.(retransmissions) h.(losses).
Definition set_alarm (h : t) (v : option Z) : t :=
  mk h.(lastSentPacketNumber) h.(skippedPackets) h.(numNonRetransmittablePackets) h.(LargestAcked)
    h.(largestReceivedPacketWithAck) h.(packetHistory) h.(stopWaitingManager) h.(retransmissionQueue)
    h.(bytesInFlight) h.(congestion) h.(rttStats) h.(rtoCount) h.(tlpCount) h.(lossTime)
    h.(lastSentTime) v h.(packets) h.(retransmissions) h.(losses).
Definition set_packets (h : t) (v : Z) : t :=
  mk h.(lastSentPacketNumber) h.(skippedPackets) h.(numNonRetransmittablePackets) h.(LargestAcked)
    h.(largestReceivedPacketWithAck) h.(packetHistory) h.(stopWaitingManager) h.(retransmissionQueue)
    h.(bytesInFlight) h.(congestion) h.(rttStats) h.(rtoCount) h.(tlpCount) h.(lossTime)
    h.(lastSentTime) h.(alarm) v h.(retransmissions) h.(losses).
Definition set_retransmissions (h : t) (v : Z) : t :=
  mk h.(lastSentPacketNumber) h.(skippedPackets) h.(numNonRetransmittablePackets) h.(LargestAcked)
    h.(largestReceivedPacketWithAck) h.(packetHistory) h.(stopWaitingManager) h.(retransmissionQueue)
    h.(bytesInFlight) h.(congestion) h.(rttStats) h.(rtoCount) h.(tlpCount) h.(lossTime)
    h.(lastSentTime) h.(alarm) h.(packets) v h.(losses).
Definition set_losses (h : t) (v : Z) : t :=
  mk h.(lastSentPacketNumber) h.(skippedPackets) h.(numNonRetransmittablePackets) h.(LargestAcked)
    h.(largestReceivedPacketWithAck) h.(packetHistory) h.(stopWaitingManager) h.(retransmissionQueue)
    h.(bytesInFlight) h.(congestion) h.(rttStats) h.(rtoCount) h.(tlpCount) h.(lossTime)
    h.(lastSentTime) h.(alarm) h.(packets) h.(retransmissions) v.

Definition NewSentPacketHandler (rtt : RTTStats.t) (c : S) : t :=
  mk 0 [] 0 0 0 [] StopWaitingManager.new [] 0 c rtt 0 0 None 0 None 0 0 0.

Definition GetStatistics (h : t) : Z * Z * Z := (h.(packets), h.(retransmissions), h.(losses)).

Definition largestInOrderAcked (h : t) : Z :=
  match h.(packetHistory) with
  | f :: _ => u64 (f.(Packet.PacketNumber) - 1)
  | [] => h.(LargestAcked)
  end.

Definition ShouldSendRetransmittablePacket (h : t) : bool :=
  MaxNonRetransmittablePackets <=? h.(numNonRetransmittablePackets).

(** [h.packetHistory.Remove(el)]; an element is identified by its packet number. *)
Definition Remove (p : Packet.t) (l : list Packet.t) : list Packet.t :=
  filter (fun q => q.(Packet.PacketNumber) <> p.(Packet.PacketNumber)) l.

Definition tracked (h : t) : Z :=
  Z.of_nat (length h.(retransmissionQueue)) + Z.of_nat (length h.(packetHistory)).

(** The alarm *)

Definition computeRTOTimeout (h : t) : Z :=
  let rto := RetransmissionDelay h.(congestion) h.(rttStats) in
  let rto := if rto =? 0 then defaultRTOTimeout else rto in
  let rto := MaxDuration rto minRTOTimeout in
  let rto := i64 (Z.shiftl rto h.(rtoCount)) in
  MinDuration rto maxRTOTimeout.

Definition hasMultipleOutstandingRetransmittablePackets (h : t) : bool :=
  match h.(packetHistory) with _ :: _ :: _ => true | _ => false end.

Definition computeTLPTimeout (h : t) : Z :=
  let rtt := SmoothedRTT h.(congestion) h.(rttStats) in
  if hasMultipleOutstandingRetransmittablePackets h
  then MaxDuration (i64 (2 * rtt)) (i64 (Z.quot (i64 (rtt * 3)) 2 + Z.quot minRetransmissionTime 2))
  else MaxDuration (i64 (2 * rtt)) minTailLossProbeTimeout.

Definition updateLossDetectionAlarm (h : t) : t :=
  if (length h.(packetHistory) =? 0)%nat then set_alarm h None
  else
    match h.(lossTime) with
    | Some l => set_alarm h (Some l)
    | None =>
        if negb (RTTStats.SmoothedRTT h.(rttStats) =? 0) && (h.(tlpCount) <? maxTailLossProbes)
        then set_alarm h (Some (h.(lastSentTime) + computeTLPTimeout h))
        else set_alarm h (Some (h.(lastSentTime) + MaxDuration (computeRTOTimeout h) minRetransmissionTime))
    end.

(** Sending *)

(** [for p := last + 1; p < packetNumber; p++]: [n] numbers are left out. *)
Fixpoint skipLoop (n : nat) (p : Z) (skipped : list Z) : list Z :=
  match n with
  | O => skipped
  | Datatypes.S n =>
      let skipped := skipped ++ [p] in
      skipLoop n (p + 1) (if MaxTrackedSkippedPackets <? Z.of_nat (length skipped) then drop 1 skipped else skipped)
  end.

Definition SentPacket (h : t) (packet : Packet.t) (now : Z) : t * option error :=
  let pn := packet.(Packet.PacketNumber) in
  if pn <=? h.(lastSentPacketNumber) then (h, Some errPacketNumberNotIncreasing)
  else if MaxTrackedSentPackets <? tracked h + 1 then (h, Some ErrTooManyTrackedSentPackets)
  else
    let h := set_skippedPackets h
      (skipLoop (Z.to_nat (pn - (h.(lastSentPacketNumber) + 1))) (h.(lastSentPacketNumber) + 1) h.(skippedPackets)) in
    let h := set_lastSentPacketNumber h pn in
    let h := set_packets h (u64 (h.(packets) + 1)) in
    let h := set_lastSentTime h now in
    let frames := stripNonRetransmittableFrames packet.(Packet.Frames) in
    let isRetransmittable := negb (length frames =? 0)%nat in
    let len := packet.(Packet.Length) in
    let h :=
      if isRetransmittable then
        let packet := Packet.mk pn frames len packet.(Packet.EncryptionLevel) now in
        let h := set_bytesInFlight h (u64 (h.(bytesInFlight) + len)) in
        let h := set_packetHistory h (h.(packetHistory) ++ [packet]) in
        set_numNonRetransmittablePackets h 0
      else set_numNonRetransmittablePackets h (i64 (h.(numNonRetransmittablePackets) + 1)) in
    let h := set_congestion h
      (OnPacketSent h.(congestion) h.(rttStats) now h.(bytesInFlight) pn len isRetransmittable) in
    (updateLossDetectionAlarm h, None).

(** Acknowledgements *)

Definition skippedPacketsAcked (h : t) (f : AckFrame.t) : bool :=
  existsb (AckFrame.AcksPacket f) h.(skippedPackets).
Definition skippedPacketsAckedClosePath (h : t) (f : ClosePathFrame.t) : bool :=
  existsb (ClosePathFrame.AcksPacket f) h.(skippedPackets).

(** The inner loop: from the range [r] on, [rest] in ascending order, to the
    first range that does not end below the packet. *)
Fixpoint nextRange (pn : Z) (r : AckRange) (rest : list AckRange) : AckRange * list AckRange :=
  if r.(Last) <? pn then
    match rest with
    | [] => (r, [])
    | r' :: rest' => nextRange pn r' rest'
    end
  else (r, rest).

Definition errAckedWrong (what : string) (pn : Z) (r : AckRange) : error :=
  Errorf what [pn; r.(First); r.(Last)].

(** The loop over the history, from [Front]; [rs] are the ranges from the
    current one on, in ascending order, [None] without missing ranges. *)
Fixpoint newlyAcked (what : string) (largest lowest : Z) (rs : option (AckRange * list AckRange))
    (els acked : list Packet.t) : error + list Packet.t :=
  match els with
  | [] => inr acked
  | p :: els =>
      let pn := p.(Packet.PacketNumber) in
      if pn <? lowest then newlyAcked what largest lowest rs els acked
      else if largest <? pn then inr acked
      else
        match rs with
        | None => newlyAcked what largest lowest rs els (acked ++ [p])
        | Some (r, rest) =>
            let '(r, rest) := nextRange pn r rest in
            if r.(First) <=? pn then
              if r.(Last) <? pn then inl (errAckedWrong what pn r)
              else newlyAcked what largest lowest (Some (r, rest)) els (acked ++ [p])
            else newlyAcked what largest lowest (Some (r, rest)) els acked
        end
  end.

(** The ranges in the order the loop takes them: the last one first. *)
Definition ascending (ranges : list AckRange) : option (AckRange * list AckRange) :=
  match reverse ranges with [] => None | r :: rest => Some (r, rest) end.

Definition bugAck : string :=
  "BUG: ackhandler would have acked wrong packet 0x%x, while evaluating range 0x%x -> 0x%x".
Definition bugClosePath : string :=
  "BUG: ackhandler would have acked wrong packet 0x%x, while evaluating range 0x%x -> 0x%x with ClosePath frame".

Definition determineNewlyAckedPackets (h : t) (f : AckFrame.t) : error + list Packet.t :=
  newlyAcked bugAck f.(AckFrame.LargestAcked) f.(AckFrame.LowestAcked) (ascending f.(AckFrame.AckRanges))
    h.(packetHistory) [].
Definition determineNewlyAckedPacketsClosePath (h : t) (f : ClosePathFrame.t) : error + list Packet.t :=
  newlyAcked bugClosePath f.(ClosePathFrame.LargestAcked) f.(ClosePathFrame.LowestAcked)
    (ascending f.(ClosePathFrame.AckRanges)) h.(packetHistory) [].

(** The search for the packet that was acknowledged last. *)
Fixpoint findSendTime (largestAcked : Z) (els : list Packet.t) : option Z :=
  match els with
  | [] => None
  | p :: els =>
      if p.(Packet.PacketNumber) =? largestAcked then Some p.(Packet.SendTime)
      else if largestAcked <? p.(Packet.PacketNumber) then None
      else findSendTime largestAcked els
  end.

Definition maybeUpdateRTT (h : t) (largestAcked ackDelay rcvTime now : Z) : t * bool :=
  match findSendTime largestAcked h.(packetHistory) with
  | Some sendTime =>
      (set_rttStats h (RTTStats.UpdateRTT h.(rttStats) (rcvTime - sendTime) ackDelay now), true)
  | None => (h, false)
  end.

Definition onPacketAcked (h : t) (p : Packet.t) : t :=
  let h := set_bytesInFlight h (u64 (h.(bytesInFlight) - p.(Packet.Length))) in
  let h := set_rtoCount h 0 in
  let h := set_tlpCount h 0 in
  set_packetHistory h (Remove p h.(packetHistory)).

(** The body of the loop over the acknowledged packets. *)
Definition ackPacket (now : Z) (h : t) (p : Packet.t) : t :=
  let h := onPacketAcked h p in
  set_congestion h (OnPacketAcked h.(congestion) h.(rttStats) now p.(Packet.PacketNumber)
                      p.(Packet.Length) h.(bytesInFlight)).

(** Retransmissions *)

Definition queuePacketForRetransmission (h : t) (p : Packet.t) : t :=
  let h := set_bytesInFlight h (u64 (h.(bytesInFlight) - p.(Packet.Length))) in
  let h := set_retransmissionQueue h (h.(retransmissionQueue) ++ [p]) in
  let h := set_packetHistory h (Remove p h.(packetHistory)) in
  set_stopWaitingManager h
    (StopWaitingManager.QueuedRetransmissionForPacketNumber h.(stopWaitingManager) p.(Packet.PacketNumber)).

Definition losePacket (now : Z) (h : t) (p : Packet.t) : t :=
  let h := queuePacketForRetransmission h p in
  set_congestion h (OnPacketLost h.(congestion) h.(rttStats) now p.(Packet.PacketNumber)
                      p.(Packet.Length) h.(bytesInFlight)).

(** [time.Duration((1.0 + 1.0/8) * float64(maxRTT))], in eighths of a nanosecond. *)
Definition delayUntilLost (h : t) : Z :=
  let maxRTT := MaxDuration (RTTStats.LatestRTT h.(rttStats)) (RTTStats.SmoothedRTT h.(rttStats)) in
  i64 (Z.quot (float64 (9 * float64 maxRTT)) 8).

(** The loop over the history up to the largest acknowledged packet: the lost
    packets and the loss time. *)
Fixpoint lostLoop (largestAcked now delay : Z) (els lost : list Packet.t) (lossTime : option Z)
  : list Packet.t * option Z :=
  match els with
  | [] => (lost, lossTime)
  | p :: els =>
      if largestAcked <? p.(Packet.PacketNumber) then (lost, lossTime)
      else
        let timeSinceSent := now - p.(Packet.SendTime) in
        if delay <? timeSinceSent then lostLoop largestAcked now delay els (lost ++ [p]) lossTime
        else
          match lossTime with
          | None => lostLoop largestAcked now delay els lost (Some (now + (delay - timeSinceSent)))
          | Some _ => lostLoop largestAcked now delay els lost lossTime
          end
  end.

Definition detectLostPackets (h : t) (now : Z) : t :=
  let '(lost, lossTime) := lostLoop h.(LargestAcked) now (delayUntilLost h) h.(packetHistory) [] None in
  let h := set_lossTime h lossTime in
  let h := set_losses h (u64 (h.(losses) + Z.of_nat (length lost))) in
  foldl (losePacket now) h lost.

(** The packets up to the largest acknowledged one. *)
Fixpoint upTo (largestAcked : Z) (els : list Packet.t) : list Packet.t :=
  match els with
  | [] => []
  | p :: els => if largestAcked <? p.(Packet.PacketNumber) then [] else p :: upTo largestAcked els
  end.

Definition SetInflightAsLost (h : t) (now : Z) : t :=
  let lost := upTo h.(LargestAcked) h.(packetHistory) in
  let h := set_losses h (u64 (h.(losses) + Z.of_nat (length lost))) in
  foldl (losePacket now) h lost.

(** [deleteIndex] is behind the last skipped number up to [lioa]. *)
Fixpoint deleteIndex (lioa : Z) (i : nat) (skipped : list Z) (d : nat) : nat :=
  match skipped with
  | [] => d
  | p :: skipped => deleteIndex lioa (1 + i) skipped (if p <=? lioa then 1 + i else d)
  end.

Definition garbageCollectSkippedPackets (h : t) : t :=
  set_skippedPackets h (drop (deleteIndex (largestInOrderAcked h) 0 h.(skippedPackets) 0) h.(skippedPackets)).

Definition ReceivedAck (h : t) (f : AckFrame.t) (withPacketNumber rcvTime now : Z) : t * option error :=
  if h.(lastSentPacketNumber) <? f.(AckFrame.LargestAcked) then (h, Some errAckForUnsentPacket)
  else if withPacketNumber <=? h.(largestReceivedPacketWithAck) then (h, Some ErrDuplicateOrOutOfOrderAck)
  else
    let h := set_largestReceivedPacketWithAck h withPacketNumber in
    if f.(AckFrame.LargestAcked) <=? largestInOrderAcked h then (h, None)
    else
      let h := set_LargestAcked h f.(AckFrame.LargestAcked) in
      if skippedPacketsAcked h f then (h, Some ErrAckForSkippedPacket)
      else
        let '(h, rttUpdated) := maybeUpdateRTT h f.(AckFrame.LargestAcked) f.(AckFrame.DelayTime) rcvTime now in
        let h := if rttUpdated then set_congestion h (MaybeExitSlowStart h.(congestion) h.(rttStats)) else h in
        match determineNewlyAckedPackets h f with
        | inl e => (h, Some e)
        | inr acked =>
            let h := foldl (ackPacket now) h acked in
            let h := detectLostPackets h now in
            let h := updateLossDetectionAlarm h in
            let h := garbageCollectSkippedPackets h in
            (set_stopWaitingManager h (StopWaitingManager.ReceivedAck h.(stopWaitingManager) f), None)
        end.

Definition ReceivedClosePath (h : t) (f : ClosePathFrame.t) (withPacketNumber now : Z) : t * option error :=
  if h.(lastSentPacketNumber) <? f.(ClosePathFrame.LargestAcked) then (h, Some errAckForUnsentPacket)
  else if withPacketNumber <=? h.(largestReceivedPacketWithAck) then (h, Some ErrDuplicateOrOutOfOrderAck)
  else
    let h := set_largestReceivedPacketWithAck h withPacketNumber in
    if skippedPacketsAckedClosePath h f then (h, Some ErrAckForSkippedPacket)
    else
      match determineNewlyAckedPacketsClosePath h f with
      | inl e => (h, Some e)
      | inr acked =>
          let h := foldl (ackPacket now) h acked in
          let h := SetInflightAsLost h now in
          (garbageCollectSkippedPackets h, None)
      end.

(** The alarm fires *)

Definition hasOutstandingRetransmittablePacket (h : t) : bool :=
  existsb Packet.IsRetransmittable h.(packetHistory).

Definition queueRTO (now : Z) (h : t) (p : Packet.t) : t :=
  let h := queuePacketForRetransmission h p in
  let h := set_losses h (u64 (h.(losses) + 1)) in
  set_congestion h (OnPacketLost h.(congestion) h.(rttStats) now p.(Packet.PacketNumber)
                      p.(Packet.Length) h.(bytesInFlight)).

Definition retransmitTLP (h : t) : t :=
  match last h.(packetHistory) with
  | Some p => queuePacketForRetransmission h p
  | None => h
  end.

Definition retransmitOldestPacket (now : Z) (h : t) : t :=
  match h.(packetHistory) with
  | p :: _ => queueRTO now h p
  | [] => h
  end.

(** [for h.packetHistory.Len() > 0]: every round takes one packet out. *)
Fixpoint retransmitLoop (fuel : nat) (now : Z) (h : t) : t :=
  match fuel with
  | O => h
  | Datatypes.S fuel =>
      match h.(packetHistory) with
      | [] => h
      | _ => retransmitLoop fuel now (retransmitOldestPacket now h)
      end
  end.

Definition timedOut (h : t) : t := set_congestion h (OnRetransmissionTimeout h.(congestion) true).

Definition retransmitAllPackets (now : Z) (h : t) : t :=
  timedOut (retransmitLoop (length h.(packetHistory)) now h).

Definition retransmitOldestTwoPackets (now : Z) (h : t) : t :=
  timedOut (retransmitOldestPacket now (retransmitOldestPacket now h)).

Definition OnAlarm (h : t) (potentiallyFailed : bool) (now : Z) : t :=
  if negb (hasOutstandingRetransmittablePacket h) then set_alarm h None
  else
    updateLossDetectionAlarm
      match h.(lossTime) with
      | Some _ => detectLostPackets h now
      | None =>
          if h.(tlpCount) <? maxTailLossProbes then
            let h := retransmitTLP h in set_tlpCount h (u32 (h.(tlpCount) + 1))
          else
            let h := if potentiallyFailed then retransmitAllPackets now h
                     else retransmitOldestTwoPackets now h in
            set_rtoCount h (u32 (h.(rtoCount) + 1))
      end.

Definition GetAlarmTimeout (h : t) : option Z := h.(alarm).

(** The sender *)

Definition DequeuePacketForRetransmission (h : t) : t * option Packet.t :=
  match h.(retransmissionQueue) with
  | [] => (h, None)
  | p :: rest =>
      (set_retransmissions (set_retransmissionQueue h rest) (u64 (h.(retransmissions) + 1)), Some p)
  end.

Definition DuplicatePacket (h : t) (p : Packet.t) : t :=
  set_retransmissionQueue h (h.(retransmissionQueue) ++ [p]).

Definition GetLeastUnacked (h : t) : Z := u64 (largestInOrderAcked h + 1).

Definition GetStopWaitingFrame (h : t) (force : bool) : t * option StopWaitingFrame.t :=
  let '(s, f) := StopWaitingManager.GetStopWaitingFrame h.(stopWaitingManager) force in
  (set_stopWaitingManager h s, f).

Definition SendingAllowed (h : t) : bool :=
  let congestionLimited := GetCongestionWindow h.(congestion) <? h.(bytesInFlight) in
  let maxTrackedLimited := MaxTrackedSentPackets <=? tracked h in
  let haveRetransmissions := (0 <? length h.(retransmissionQueue))%nat in
  negb maxTrackedLimited && (negb congestionLimited || haveRetransmissions).

End Handler.

Arguments t : clear implicits.

End SentPacketHandler.
