(* ===== verification/SentPacketsProofs.v ===== *)
(** * Sent packets are acknowledged or retransmitted

    The walk over the history and the ACK ranges is exact, no packet with
    reliable data is forgotten, the bytes in flight are counted exactly, and the
    alarm is set while something is outstanding. *)

From S2P Require Import Prelude ByteOrder Protocol WireFrames WireStream WireAck.
From S2P Require Import WireAckProofs WireAckParse PacketUnpacker MinMax Float RTTStats.
From S2P Require Import SentPackets.

Import SentPacketHandler.

(** ** The ranges of a frame against the history *)

Abbreviation PN := Packet.PacketNumber.

Definition pnlt (p q : Packet.t) : Prop := p.(PN) < q.(PN).
Definition rangelt (r r' : AckRange) : Prop := r.(Last) < r'.(First).

(** What the parser guarantees of the ranges of an accepted frame. *)
Definition ranges_ok (largest lowest : Z) (rs : list AckRange) : Prop :=
  match rs with
  | [] => True
  | r0 :: rest => r0.(Last) = largest /\ r0.(First) <= r0.(Last) /\ chain r0 rest
      /\ (default r0 (last rs)).(First) = lowest
  end.

Lemma chain_sorted rs : forall r,
  r.(First) <= r.(Last) -> chain r rs ->
  StronglySorted (flip rangelt) (r :: rs) /\ Forall (fun r => r.(First) <= r.(Last)) (r :: rs).
Proof.
  induction rs as [|r' rs IH]; intros r Hr; cbn [chain].
  { intros _. split; repeat constructor. done. }
  intros (H1 & H2 & Hc). destruct (IH r' H1 Hc) as [Hs Hf]. split; [|by constructor].
  constructor; [done|]. constructor; [unfold flip, rangelt; lia|].
  apply StronglySorted_inv in Hs as [_ Hs]. apply Forall_cons in Hf as [_ Hf].
  rewrite Forall_forall in Hs, Hf |- *. intros x Hx. specialize (Hs x Hx). specialize (Hf x Hx).
  unfold flip, rangelt in *. lia.
Qed.

Lemma nextRange_spec pn : forall rest r r' rest',
  nextRange pn r rest = (r', rest') ->
  exists dropped, r :: rest = dropped ++ r' :: rest' /\ Forall (fun x => x.(Last) < pn) dropped
    /\ (pn <= r'.(Last) \/ rest' = []).
Proof.
  induction rest as [|x rest IH]; intros r r' rest'; cbn [nextRange].
  - destruct (Z.ltb_spec r.(Last) pn); intros [= <- <-]; exists []; split_and!; auto.
  - destruct (Z.ltb_spec r.(Last) pn) as [Hlt|Hge]; [|intros [= <- <-]; exists []; by split_and!; auto].
    intros (dropped & E & Hd & Hr)%IH. exists (r :: dropped). cbn [app]. rewrite <- E. split_and!; auto.
Qed.

Definition contains (rs : list AckRange) (pn : Z) : Prop := Exists (fun r => r.(First) <= pn <= r.(Last)) rs.

#[global] Instance contains_dec rs pn : Decision (contains rs pn).
Proof. unfold contains. apply _. Defined.

(** The walk without missing ranges. *)
Lemma newlyAcked_none what largest lowest els : forall acked,
  StronglySorted pnlt els ->
  newlyAcked what largest lowest None els acked
  = inr (acked ++ filter (fun p => lowest <= p.(PN) <= largest) els).
Proof.
  induction els as [|p els IH]; intros acked Hs; cbn [newlyAcked]; [by rewrite app_nil_r|].
  apply StronglySorted_inv in Hs as [Hs Hp].
  destruct (Z.ltb_spec p.(PN) lowest).
  { rewrite filter_cons_False by lia. by apply IH. }
  destruct (Z.ltb_spec largest p.(PN)).
  { rewrite filter_cons_False by lia. f_equal. replace (filter _ els) with (@nil Packet.t); [by rewrite app_nil_r|].
    symmetry. apply filter_none. eapply Forall_impl; [exact Hp|]. unfold pnlt. simpl. lia. }
  rewrite filter_cons_True by lia. rewrite IH by done. by rewrite <- app_assoc.
Qed.

(** The walk with the ranges [r :: rest], the last one ending at [largest]. *)
Lemma newlyAcked_ranges what largest lowest els : forall r rest acked,
  StronglySorted pnlt els -> StronglySorted rangelt (r :: rest) ->
  Forall (fun r => r.(First) <= r.(Last)) (r :: rest) ->
  (default r (last (r :: rest))).(Last) = largest ->
  newlyAcked what largest lowest (Some (r, rest)) els acked
  = inr (acked ++ filter (fun p => lowest <= p.(PN) <= largest /\ contains (r :: rest) p.(PN)) els).
Proof.
  induction els as [|p els IH]; intros r rest acked Hs Hr Hne Hlast; cbn [newlyAcked]; [by rewrite app_nil_r|].
  apply StronglySorted_inv in Hs as [Hs Hp].
  destruct (Z.ltb_spec p.(PN) lowest).
  { rewrite filter_cons_False by lia. by apply IH. }
  destruct (Z.ltb_spec largest p.(PN)).
  { rewrite filter_cons_False by lia. f_equal. rewrite filter_none; [by rewrite app_nil_r|].
    eapply Forall_impl; [exact Hp|]. unfold pnlt. simpl. lia. }
  destruct (nextRange p.(PN) r rest) as [r' rest'] eqn:En.
  destruct (nextRange_spec _ _ _ _ _ En) as (dropped & E & Hd & Hstop).
  rewrite E in Hr, Hne. apply StronglySorted_app_1_r in Hr. apply Forall_app in Hne as [_ Hne].
  assert (Hlast' : (default r' (last (r' :: rest'))).(Last) = largest).
  { rewrite <- Hlast, E, last_app. destruct (last (r' :: rest')) eqn:El; [done|].
    by apply last_None in El. }
  assert (Hle : p.(PN) <= r'.(Last)) by (destruct Hstop as [?| ->]; [done|simpl in Hlast'; lia]).
  assert (Hcut : forall q, p.(PN) <= q -> contains (r :: rest) q <-> contains (r' :: rest') q).
  { intros q Hq. rewrite E. unfold contains. rewrite Exists_app. split; [|tauto]. intros [Hx|]; [|done].
    exfalso. rewrite Forall_forall in Hd. apply Exists_exists in Hx as (x & Hx & ? & ?).
    specialize (Hd x Hx). simpl in Hd. lia. }
  assert (Htail : filter (fun p => lowest <= p.(PN) <= largest /\ contains (r :: rest) p.(PN)) els
                  = filter (fun p => lowest <= p.(PN) <= largest /\ contains (r' :: rest') p.(PN)) els).
  { apply filter_ext_in. eapply Forall_impl; [exact Hp|]. intros q Hq. unfold pnlt in Hq. rewrite Hcut by lia. done. }
  assert (Hin : contains (r :: rest) p.(PN) <-> r'.(First) <= p.(PN)).
  { rewrite Hcut by lia. unfold contains. rewrite Exists_cons. split; [|intros; left; lia].
    intros [?|Hx]; [lia|]. apply StronglySorted_inv in Hr as [_ Hr]. rewrite Forall_forall in Hr.
    apply Exists_exists in Hx as (x & Hx & ? & ?). specialize (Hr x Hx). unfold rangelt in Hr.
    apply Forall_cons in Hne as [? _]. lia. }
  destruct (Z.leb_spec r'.(First) p.(PN)).
  - destruct (Z.ltb_spec r'.(Last) p.(PN)); [lia|]. rewrite filter_cons_True by (rewrite Hin; lia).
    rewrite IH, Htail by done. by rewrite <- app_assoc.
  - rewrite filter_cons_False by (rewrite Hin; lia). by rewrite IH, Htail.
Qed.

Lemma parsed_ranges_ok largest lowest rs : parsed_ok largest lowest rs -> ranges_ok largest lowest rs.
Proof. intros [_ H]. destruct rs; [done|]. destruct H as (_ & HL & H0 & Hc & _ & Hlow). done. Qed.

(** The walk finds exactly the packets that the frame acknowledges. *)
Lemma newlyAcked_exact what largest lowest rs els :
  StronglySorted pnlt els -> ranges_ok largest lowest rs ->
  newlyAcked what largest lowest (ascending rs) els []
  = inr (filter (fun p => acksPacket largest lowest rs p.(PN) = true) els).
Proof.
  intros Hs Hrs.
  assert (Hspec : forall p, acksPacket largest lowest rs p.(PN) = true <->
    if HasMissingRanges rs then exists r, r ∈ rs /\ r.(First) <= p.(PN) <= r.(Last)
    else lowest <= p.(PN) <= largest).
  { intros p. apply acksPacket_ranges. by destruct rs. }
  unfold ascending. destruct rs as [|r0 rest].
  { rewrite newlyAcked_none by done. cbn [app]. f_equal. apply filter_ext_in, Forall_true.
    intros p. by rewrite Hspec. }
  destruct Hrs as (HL & H0 & Hc & Hlow). destruct (chain_sorted rest r0 H0 Hc) as [Hsort Hne].
  destruct (reverse (r0 :: rest)) as [|r asc] eqn:Erev.
  { apply (f_equal length) in Erev. rewrite length_reverse in Erev. done. }
  assert (Hback : r0 :: rest = reverse (r :: asc)) by (by rewrite <- Erev, reverse_involutive).
  apply StronglySorted_reverse in Hsort. rewrite Erev in Hsort.
  assert (Hne' : Forall (fun r => r.(First) <= r.(Last)) (r :: asc)).
  { rewrite <- Erev. apply Forall_reverse. done. }
  rewrite newlyAcked_ranges; [|done|exact Hsort|done|].
  - cbn [app]. f_equal. apply filter_ext_in, Forall_true. intros p. rewrite Hspec. cbn [HasMissingRanges length negb].
    unfold contains. rewrite Exists_exists, <- Erev. setoid_rewrite elem_of_reverse.
    split; [naive_solver|]. intros (x & Hx & Hp). split; [|naive_solver].
    pose proof (acksPacket_ranges largest lowest (r0 :: rest) p.(PN) ltac:(done)) as [_ Hacks].
    specialize (Hacks ltac:(by exists x)). unfold acksPacket in Hacks.
    destruct (Z.ltb_spec p.(PN) lowest), (Z.ltb_spec largest p.(PN)); cbn [orb] in Hacks; (done || lia).
  - rewrite <- Erev, last_reverse. done.
Qed.

(** ** Taking packets out of the history *)

Section Handler.

Context {S : Type} `{cong : SendAlgorithm S}.

Definition inFlight (l : list Packet.t) : Z := foldr (fun p n => p.(Packet.Length) + n) 0 l.

(** A packet as it is kept: only the frames that are sent again. *)
Definition kept_ok (p : Packet.t) : Prop :=
  p.(Packet.Frames) <> [] /\ Forall (fun f => IsFrameRetransmittable f = true) p.(Packet.Frames).

Record good (h : t S) : Prop := {
  good_sorted : StronglySorted pnlt h.(packetHistory);
  good_bound : Forall (fun p => p.(PN) <= h.(lastSentPacketNumber)) h.(packetHistory);
  good_bytes : h.(bytesInFlight) = u64 (inFlight h.(packetHistory));
  good_frames : Forall kept_ok h.(packetHistory)
}.

Lemma good_ext (h h' : t S) :
  h'.(packetHistory) = h.(packetHistory) -> h'.(lastSentPacketNumber) = h.(lastSentPacketNumber) ->
  h'.(bytesInFlight) = h.(bytesInFlight) -> good h -> good h'.
Proof. intros E1 E2 E3 [? ? ? ?]. split; by rewrite ?E1, ?E2, ?E3. Qed.

Lemma inFlight_app l1 l2 : inFlight (l1 ++ l2) = inFlight l1 + inFlight l2.
Proof. induction l1; simpl; lia. Qed.

Lemma inFlight_perm l1 l2 : l1 ≡ₚ l2 -> inFlight l1 = inFlight l2.
Proof. induction 1; simpl; lia. Qed.

Lemma sorted_NoDup l : StronglySorted pnlt l -> NoDup (PN <$> l).
Proof.
  induction 1 as [|p l Hl IH Hp]; [constructor|]. rewrite fmap_cons. constructor; [|done].
  intros (q & E & Hq)%list_elem_of_fmap. rewrite Forall_forall in Hp. specialize (Hp q Hq).
  unfold pnlt in Hp. lia.
Qed.

Lemma Remove_perm p l : NoDup (PN <$> l) -> p ∈ l -> l ≡ₚ p :: Remove p l.
Proof.
  intros Hnd (l1 & l2 & ->)%list_elem_of_split. unfold Remove. rewrite filter_app, filter_cons_False by tauto.
  rewrite fmap_app, fmap_cons in Hnd. apply NoDup_app in Hnd as (_ & H12 & [H2 _]%NoDup_cons).
  rewrite !filter_all; [by rewrite Permutation_middle| |].
  - apply Forall_forall. intros q Hq E. apply H2. rewrite <- E. by apply list_elem_of_fmap_2.
  - apply Forall_forall. intros q Hq E. apply (H12 q.(PN)); [by apply list_elem_of_fmap_2|].
    rewrite E. left.
Qed.

Lemma sorted_filter (P : Packet.t -> Prop) `{!forall x, Decision (P x)} l :
  StronglySorted pnlt l -> StronglySorted pnlt (filter P l).
Proof.
  induction 1 as [|p l Hl IH Hp]; [constructor|]. rewrite filter_cons. case_decide; [|done].
  constructor; [done|]. by apply Forall_filter_of.
Qed.

(** [f] takes a packet out of the history, into the retransmission queue when [lost]. *)
Definition takes (lost : bool) (f : t S -> Packet.t -> t S) : Prop :=
  forall h p, (f h p).(packetHistory) = Remove p h.(packetHistory)
    /\ (f h p).(bytesInFlight) = u64 (h.(bytesInFlight) - p.(Packet.Length))
    /\ (f h p).(retransmissionQueue) = h.(retransmissionQueue) ++ (if lost then [p] else [])
    /\ (f h p).(lastSentPacketNumber) = h.(lastSentPacketNumber)
    /\ (f h p).(LargestAcked) = h.(LargestAcked) /\ (f h p).(alarm) = h.(alarm)
    /\ (f h p).(skippedPackets) = h.(skippedPackets).

Lemma takes_ackPacket now : takes false (ackPacket now).
Proof. intros h p. rewrite app_nil_r. done. Qed.
Lemma takes_losePacket now : takes true (losePacket now).
Proof. done. Qed.
Lemma takes_queueRTO now : takes true (queueRTO now).
Proof. done. Qed.
Lemma takes_queue : takes true queuePacketForRetransmission.
Proof. done. Qed.

Lemma takes_good lost f h p :
  takes lost f -> good h -> p ∈ h.(packetHistory) ->
  good (f h p) /\ h.(packetHistory) ≡ₚ p :: (f h p).(packetHistory).
Proof.
  intros Hf [Hs Hb Hby Hfr] Hp. destruct (Hf h p) as (E1 & E2 & _ & E4 & _).
  pose proof (Remove_perm p _ (sorted_NoDup _ Hs) Hp) as Hperm. split; [|by rewrite E1].
  split; rewrite ?E1, ?E2, ?E4.
  - by apply sorted_filter.
  - by apply Forall_filter_of.
  - rewrite Hby, (inFlight_perm _ _ Hperm). simpl. unfold u64. rewrite Zminus_mod_idemp_l. f_equal. lia.
  - by apply Forall_filter_of.
Qed.

Lemma takes_fold lost f ps : takes lost f -> forall h,
  good h -> NoDup (PN <$> ps) -> (forall p, p ∈ ps -> p ∈ h.(packetHistory)) ->
  let h' := foldl f h ps in
  good h' /\ h.(packetHistory) ≡ₚ ps ++ h'.(packetHistory)
  /\ h'.(packetHistory) = filter (fun q => q.(PN) ∉ PN <$> ps) h.(packetHistory)
  /\ h'.(retransmissionQueue) = h.(retransmissionQueue) ++ (if lost then ps else [])
  /\ h'.(lastSentPacketNumber) = h.(lastSentPacketNumber)
  /\ h'.(LargestAcked) = h.(LargestAcked) /\ h'.(alarm) = h.(alarm)
  /\ h'.(skippedPackets) = h.(skippedPackets).
Proof.
  intros Hf. induction ps as [|p ps IH]; intros h Hg Hnd Hin; cbn [foldl].
  { rewrite filter_all; [|apply Forall_forall; intros q _; apply not_elem_of_nil].
    split_and!; try done. by destruct lost; rewrite app_nil_r. }
  rewrite fmap_cons in Hnd. apply NoDup_cons in Hnd as [Hp Hnd].
  destruct (takes_good lost f h p Hf Hg (Hin p ltac:(left))) as [Hg1 Hperm].
  destruct (Hf h p) as (E1 & _ & E3 & E4 & E5 & E6 & E7).
  destruct (IH (f h p) Hg1 Hnd) as (Hg' & Hp' & Hh' & Hq' & Hl' & Ha' & Hal' & Hsk').
  { intros q Hq. rewrite E1. apply list_elem_of_filter. split; [|apply Hin; by right].
    intros E. apply Hp. rewrite <- E. by apply list_elem_of_fmap_2. }
  split_and!; try done; try congruence.
  - by rewrite Hperm, Hp'.
  - rewrite Hh', E1. unfold Remove. rewrite list_filter_filter. apply filter_ext_in, Forall_true.
    intros q. rewrite fmap_cons, not_elem_of_cons. tauto.
  - rewrite Hq', E3. destruct lost; by rewrite <- app_assoc.
Qed.

(** ** What the operations do to the history and the queue *)

(** The packets that leave [h] without being queued or handed out are [acked]. *)
Definition settled (h h' : t S) (acked : list Packet.t) : Prop :=
  good h' /\ h.(packetHistory) ++ h.(retransmissionQueue)
             ≡ₚ acked ++ h'.(packetHistory) ++ h'.(retransmissionQueue).

Lemma settled_same (h h' : t S) :
  h'.(packetHistory) = h.(packetHistory) -> h'.(retransmissionQueue) = h.(retransmissionQueue) ->
  h'.(lastSentPacketNumber) = h.(lastSentPacketNumber) -> h'.(bytesInFlight) = h.(bytesInFlight) ->
  good h -> settled h h' [].
Proof. intros E1 E2 E3 E4 Hg. split; [by apply (good_ext h)|]. by rewrite E1, E2. Qed.

Lemma settled_trans h1 h2 h3 a1 a2 : settled h1 h2 a1 -> settled h2 h3 a2 -> settled h1 h3 (a1 ++ a2).
Proof. intros [_ P1] [Hg P2]. split; [done|]. by rewrite P1, P2, app_assoc. Qed.

(** The packets in [ps] are acknowledged ([lost = false]) or queued. *)
Lemma settled_fold lost f ps h :
  takes lost f -> good h -> NoDup (PN <$> ps) -> (forall p, p ∈ ps -> p ∈ h.(packetHistory)) ->
  settled h (foldl f h ps) (if lost then [] else ps).
Proof.
  intros Hf Hg Hnd Hin. destruct (takes_fold lost f ps Hf h Hg Hnd Hin) as (Hg' & Hp & _ & Hq & _).
  split; [done|]. rewrite Hq, Hp. destruct lost; [|by rewrite app_nil_r, <- app_assoc].
  cbn [app]. rewrite <- !app_assoc. rewrite (Permutation_app_comm ps). by rewrite <- !app_assoc.
Qed.

(** A sub-list of the history given by a test. *)
Lemma filter_part (P : Packet.t -> Prop) `{!forall x, Decision (P x)} h :
  good h -> NoDup (PN <$> filter P h.(packetHistory))
  /\ forall p, p ∈ filter P h.(packetHistory) -> p ∈ h.(packetHistory).
Proof.
  intros [Hs _ _ _]. split; [by apply sorted_NoDup, sorted_filter|]. by intros p [_ ?]%list_elem_of_filter.
Qed.

Lemma pn_inj h p q :
  good h -> p ∈ h.(packetHistory) -> q ∈ h.(packetHistory) -> p.(PN) = q.(PN) -> p = q.
Proof.
  intros Hg [i Hi]%list_elem_of_lookup [j Hj]%list_elem_of_lookup E.
  assert (i = j) as ->; [|congruence].
  apply (NoDup_lookup (PN <$> h.(packetHistory)) i j p.(PN)).
  - apply sorted_NoDup, good_sorted, Hg.
  - rewrite list_lookup_fmap, Hi. done.
  - rewrite list_lookup_fmap, Hj. simpl. by rewrite E.
Qed.

Lemma filter_out (P : Packet.t -> Prop) `{!forall x, Decision (P x)} h :
  good h -> filter (fun q => q.(PN) ∉ PN <$> filter P h.(packetHistory)) h.(packetHistory)
            = filter (fun q => ~ P q) h.(packetHistory).
Proof.
  intros Hg. apply filter_ext_in, Forall_forall. intros q Hq. split.
  - intros Hn Ho. by apply Hn, list_elem_of_fmap_2, list_elem_of_filter.
  - intros Hn (p & E & [Hp1 Hp2]%list_elem_of_filter)%list_elem_of_fmap. apply Hn.
    by rewrite (pn_inj h q p).
Qed.

Lemma prefix_part ps h :
  good h -> ps `prefix_of` h.(packetHistory) ->
  NoDup (PN <$> ps) /\ forall p, p ∈ ps -> p ∈ h.(packetHistory).
Proof.
  intros [Hs _ _ _] [l E]. rewrite E in *. split; [|intros; apply elem_of_app; by left].
  apply sorted_NoDup. by apply StronglySorted_app_1_l in Hs.
Qed.

Lemma lostLoop_spec la now delay els : forall lost lt,
  StronglySorted pnlt els ->
  (lostLoop la now delay els lost lt).1
  = lost ++ filter (fun p => p.(PN) <= la /\ delay < now - p.(Packet.SendTime)) els.
Proof.
  induction els as [|p els IH]; intros lost lt Hs; cbn [lostLoop]; [by rewrite app_nil_r|].
  apply StronglySorted_inv in Hs as [Hs Hp]. destruct (Z.ltb_spec la p.(PN)).
  { rewrite filter_cons_False, filter_none; [by rewrite app_nil_r| |lia].
    eapply Forall_impl; [exact Hp|]. unfold pnlt. simpl. lia. }
  destruct (Z.ltb_spec delay (now - p.(Packet.SendTime))).
  - rewrite IH, filter_cons_True by (done || lia). by rewrite <- app_assoc.
  - rewrite filter_cons_False by lia. by destruct lt; apply IH.
Qed.

Lemma upTo_filter la els : StronglySorted pnlt els -> upTo la els = filter (fun p => p.(PN) <= la) els.
Proof.
  induction 1 as [|p els Hs IH Hp]; [done|]. cbn [upTo]. destruct (Z.ltb_spec la p.(PN)).
  - rewrite filter_cons_False, filter_none; [done| |lia]. eapply Forall_impl; [exact Hp|]. unfold pnlt. simpl. lia.
  - by rewrite filter_cons_True, IH by lia.
Qed.

(** The test of time based loss detection. *)
Definition overdue (h : t S) (now : Z) (p : Packet.t) : Prop :=
  p.(PN) <= h.(LargestAcked) /\ delayUntilLost h < now - p.(Packet.SendTime).

#[global] Instance overdue_dec h now p : Decision (overdue h now p).
Proof. unfold overdue. apply _. Defined.

(** Loss detection queues exactly the overdue packets. *)
Lemma detectLostPackets_spec h now :
  good h ->
  let h' := detectLostPackets h now in
  settled h h' [] /\ h'.(packetHistory) = filter (fun p => ~ overdue h now p) h.(packetHistory)
  /\ h'.(retransmissionQueue) = h.(retransmissionQueue) ++ filter (overdue h now) h.(packetHistory)
  /\ h'.(alarm) = h.(alarm).
Proof.
  intros Hg. unfold detectLostPackets.
  pose proof (lostLoop_spec h.(LargestAcked) now (delayUntilLost h) h.(packetHistory) [] None (good_sorted _ Hg)) as Hl.
  destruct (lostLoop _ _ _ _ _ _) as [lost lt]. cbn [fst app] in Hl. subst lost.
  set (lost := filter _ h.(packetHistory)). set (h1 := set_losses _ _).
  assert (Hg1 : good h1) by (by apply (good_ext h)).
  destruct (filter_part (overdue h now) h Hg) as [Hnd Hin].
  destruct (takes_fold true (losePacket now) lost (takes_losePacket now) h1 Hg1 Hnd Hin)
    as (Hg' & Hp & Hh & Hq & _ & _ & Hal & _).
  split_and!; [|rewrite Hh|done|done].
  - apply (settled_trans _ h1 _ [] []); [by apply settled_same|].
    by apply (settled_fold true (losePacket now)).
  - change (packetHistory h1) with (packetHistory h). apply (filter_out (overdue h now) h Hg).
Qed.

Lemma settled_nil_trans h1 h2 h3 a : settled h1 h2 [] -> settled h2 h3 a -> settled h1 h3 a.
Proof. apply settled_trans. Qed.

Lemma SetInflightAsLost_spec h now :
  good h ->
  let h' := SetInflightAsLost h now in
  settled h h' [] /\ h'.(packetHistory) = filter (fun p => h.(LargestAcked) < p.(PN)) h.(packetHistory)
  /\ h'.(retransmissionQueue)
     = h.(retransmissionQueue) ++ filter (fun p => p.(PN) <= h.(LargestAcked)) h.(packetHistory)
  /\ h'.(alarm) = h.(alarm).
Proof.
  intros Hg. unfold SetInflightAsLost. rewrite (upTo_filter _ _ (good_sorted _ Hg)).
  set (P := fun p => p.(PN) <= h.(LargestAcked)). set (lost := filter P h.(packetHistory)).
  set (h1 := set_losses _ _). assert (Hg1 : good h1) by (by apply (good_ext h)).
  destruct (filter_part P h Hg) as [Hnd Hin].
  destruct (takes_fold true (losePacket now) lost (takes_losePacket now) h1 Hg1 Hnd Hin)
    as (Hg' & Hp & Hh & Hq & _ & _ & Hal & _).
  split_and!; [|rewrite Hh|done|done].
  - apply (settled_nil_trans _ h1); [by apply settled_same|]. by apply (settled_fold true (losePacket now)).
  - change (packetHistory h1) with (packetHistory h). etransitivity; [apply (filter_out P h Hg)|].
    apply filter_ext_in, Forall_true. unfold P. intros q. lia.
Qed.

Lemma updateLossDetectionAlarm_settled h : good h -> settled h (updateLossDetectionAlarm h) [].
Proof.
  intros Hg. unfold updateLossDetectionAlarm.
  destruct (length _ =? 0)%nat; [by apply settled_same|]. destruct (lossTime h); [by apply settled_same|].
  case_match; by apply settled_same.
Qed.

Lemma garbageCollect_settled h : good h -> settled h (garbageCollectSkippedPackets h) [].
Proof. intros Hg. by apply settled_same. Qed.

(** ** Acknowledgements *)

Definition ack_ok (f : AckFrame.t) : Prop :=
  ranges_ok f.(AckFrame.LargestAcked) f.(AckFrame.LowestAcked) f.(AckFrame.AckRanges).
Definition closePath_ok (f : ClosePathFrame.t) : Prop :=
  ranges_ok f.(ClosePathFrame.LargestAcked) f.(ClosePathFrame.LowestAcked) f.(ClosePathFrame.AckRanges).

Lemma maybeUpdateRTT_same (h : t S) la delay rcv now (h' : t S) b :
  maybeUpdateRTT h la delay rcv now = (h', b) ->
  h'.(packetHistory) = h.(packetHistory) /\ h'.(retransmissionQueue) = h.(retransmissionQueue)
  /\ h'.(lastSentPacketNumber) = h.(lastSentPacketNumber) /\ h'.(bytesInFlight) = h.(bytesInFlight)
  /\ h'.(alarm) = h.(alarm) /\ h'.(LargestAcked) = h.(LargestAcked).
Proof. unfold maybeUpdateRTT. destruct (findSendTime _ _); by intros [= <- <-]. Qed.

(** Acknowledging the packets found by the walk. *)
Lemma ackAll_spec h now (P : Packet.t -> Prop) `{!forall x, Decision (P x)} :
  good h ->
  let acked := filter P h.(packetHistory) in
  let h' := foldl (ackPacket now) h acked in
  settled h h' acked /\ h'.(packetHistory) = filter (fun p => ~ P p) h.(packetHistory)
  /\ h'.(retransmissionQueue) = h.(retransmissionQueue) /\ h'.(LargestAcked) = h.(LargestAcked)
  /\ h'.(alarm) = h.(alarm).
Proof.
  intros Hg acked h'. destruct (filter_part P h Hg) as [Hnd Hin].
  destruct (takes_fold false (ackPacket now) acked (takes_ackPacket now) h Hg Hnd Hin)
    as (Hg' & Hp & Hh & Hq & _ & HL & Hal & _).
  split_and!; [exact (settled_fold false _ acked h (takes_ackPacket now) Hg Hnd Hin)| |by rewrite app_nil_r in Hq|done|done].
  rewrite <- (filter_out P h Hg). exact Hh.
Qed.

(** The packets of the history that [f] acknowledges. *)
Definition ackedBy (f : AckFrame.t) (p : Packet.t) : Prop := AckFrame.AcksPacket f p.(PN) = true.
Definition closedBy (f : ClosePathFrame.t) (p : Packet.t) : Prop := ClosePathFrame.AcksPacket f p.(PN) = true.

#[global] Instance ackedBy_dec f p : Decision (ackedBy f p).
Proof. unfold ackedBy. apply _. Defined.
#[global] Instance closedBy_dec f p : Decision (closedBy f p).
Proof. unfold closedBy. apply _. Defined.

Lemma determine_exact h f :
  good h -> ack_ok f -> determineNewlyAckedPackets h f = inr (filter (ackedBy f) h.(packetHistory)).
Proof. intros Hg Hf. apply newlyAcked_exact; [apply good_sorted, Hg|done]. Qed.

Lemma determineClosePath_exact h f :
  good h -> closePath_ok f ->
  determineNewlyAckedPacketsClosePath h f = inr (filter (closedBy f) h.(packetHistory)).
Proof. intros Hg Hf. apply newlyAcked_exact; [apply good_sorted, Hg|done]. Qed.

Lemma updateAlarm_history h : (updateLossDetectionAlarm h).(packetHistory) = h.(packetHistory).
Proof. unfold updateLossDetectionAlarm. repeat case_match; done. Qed.

Lemma updateAlarm_armed h : h.(packetHistory) <> [] -> (updateLossDetectionAlarm h).(alarm) <> None.
Proof.
  intros Hne. unfold updateLossDetectionAlarm. destruct (packetHistory h) eqn:E; [done|].
  cbn [length Nat.eqb]. repeat case_match; done.
Qed.

(** The packets of [P] are acknowledged, then losses are detected and the alarm is set. *)
Lemma after_ack h now (P : Packet.t -> Prop) `{!forall x, Decision (P x)} :
  good h ->
  let acked := filter P h.(packetHistory) in
  let h' := updateLossDetectionAlarm (detectLostPackets (foldl (ackPacket now) h acked) now) in
  settled h h' acked /\ Forall (fun p => ~ P p) h'.(packetHistory)
  /\ (h'.(packetHistory) <> [] -> h'.(alarm) <> None).
Proof.
  intros Hg acked h'. destruct (ackAll_spec h now P Hg) as (Hset & Hh & _). fold acked in Hset, Hh.
  set (h3 := foldl _ _ _) in *. destruct (detectLostPackets_spec h3 now (proj1 Hset)) as (Hdet & Hh4 & _).
  split_and!.
  - rewrite <- (app_nil_r acked). eapply settled_trans; [exact Hset|].
    apply (settled_nil_trans _ _ _ _ Hdet). apply updateLossDetectionAlarm_settled, Hdet.
  - unfold h'. rewrite updateAlarm_history, Hh4, Hh. apply Forall_filter_of, Forall_forall.
    by intros p [? _]%list_elem_of_filter.
  - unfold h'. rewrite updateAlarm_history. apply updateAlarm_armed.
Qed.

(** The alarm is set while a packet waits for its acknowledgement. *)
Definition armed (h : t S) : Prop := hasOutstandingRetransmittablePacket h = true -> h.(alarm) <> None.

Lemma armed_fewer (h h' : t S) :
  (forall p, p ∈ h'.(packetHistory) -> p ∈ h.(packetHistory)) -> h'.(alarm) = h.(alarm) -> armed h -> armed h'.
Proof.
  intros Hin E Ha Ho. rewrite E. apply Ha. unfold hasOutstandingRetransmittablePacket in *.
  apply existsb_exists in Ho as (p & Hp & Hr). apply existsb_exists. exists p. split; [|done].
  by apply list_elem_of_In, Hin, list_elem_of_In.
Qed.

Lemma armed_nonempty (h : t S) : (h.(packetHistory) <> [] -> h.(alarm) <> None) -> armed h.
Proof.
  intros Ha Ho. apply Ha. intros E. unfold hasOutstandingRetransmittablePacket in Ho. by rewrite E in Ho.
Qed.

(** Either the frame is refused or known already and nothing moves, or exactly
    the packets it acknowledges are settled. *)
Definition ack_outcome (h h' : t S) (err : option error) (refused : Prop) (P : Packet.t -> Prop)
    `{!forall x, Decision (P x)} : Prop :=
  (refused /\ h'.(packetHistory) = h.(packetHistory) /\ settled h h' [] /\ h'.(alarm) = h.(alarm))
  \/ (err = None /\ settled h h' (filter P h.(packetHistory)) /\ Forall (fun p => ~ P p) h'.(packetHistory)).

Lemma ReceivedAck_spec h f wpn rcv now h' err :
  good h -> ack_ok f -> ReceivedAck h f wpn rcv now = (h', err) ->
  ack_outcome h h' err (err <> None \/ f.(AckFrame.LargestAcked) <= largestInOrderAcked h) (ackedBy f)
  /\ (armed h -> armed h').
Proof.
  intros Hg Hf. unfold ReceivedAck, ack_outcome.
  destruct (_ <? _). { intros [= <- <-]. split; [left; split_and!; auto; by apply settled_same|by apply armed_fewer]. }
  destruct (_ <=? _). { intros [= <- <-]. split; [left; split_and!; auto; by apply settled_same|by apply armed_fewer]. }
  destruct (Z.leb_spec f.(AckFrame.LargestAcked)
    (largestInOrderAcked (set_largestReceivedPacketWithAck h wpn))) as [Hle|_].
  { intros [= <- <-]. split; [left; split_and!; auto; by apply settled_same|by apply armed_fewer]. }
  set (h0 := set_LargestAcked _ _). destruct (skippedPacketsAcked h0 f).
  { intros [= <- <-]. split; [left; split_and!; auto; by apply settled_same|by apply armed_fewer]. }
  destruct (maybeUpdateRTT h0 _ _ _ _) as [h1 upd] eqn:Ertt.
  destruct (maybeUpdateRTT_same _ _ _ _ _ _ _ Ertt) as (E1 & E2 & E3 & E4 & _).
  set (h2 := if upd then _ else h1).
  assert (H2 : h2.(packetHistory) = h.(packetHistory) /\ h2.(retransmissionQueue) = h.(retransmissionQueue)
    /\ h2.(lastSentPacketNumber) = h.(lastSentPacketNumber) /\ h2.(bytesInFlight) = h.(bytesInFlight))
    by (unfold h2; by destruct upd).
  destruct H2 as (F1 & F2 & F3 & F4). assert (Hg2 : good h2) by (by apply (good_ext h)).
  rewrite (determine_exact h2 f Hg2 Hf). intros [= <- <-].
  destruct (after_ack h2 now (ackedBy f) Hg2) as (Hset & Hno & Halarm).
  set (h3 := updateLossDetectionAlarm _) in *. split; [right|intros _; by apply armed_nonempty].
  split_and!; [done| |exact Hno]. rewrite <- F1.
  apply (settled_nil_trans _ h2); [by apply settled_same|].
  rewrite <- (app_nil_r (filter _ _)). apply (settled_trans _ h3 _ _ _ Hset). apply settled_same; try done. apply Hset.
Qed.

Lemma ReceivedClosePath_spec h f wpn now h' err :
  good h -> closePath_ok f -> ReceivedClosePath h f wpn now = (h', err) ->
  ack_outcome h h' err (err <> None) (closedBy f) /\ h'.(alarm) = h.(alarm)
  /\ (err = None -> h'.(packetHistory)
      = filter (fun p => h.(LargestAcked) < p.(PN) /\ ~ closedBy f p) h.(packetHistory)).
Proof.
  intros Hg Hf. unfold ReceivedClosePath, ack_outcome.
  destruct (_ <? _). { intros [= <- <-]. split_and!; try done. left; split_and!; auto; by apply settled_same. }
  destruct (_ <=? _). { intros [= <- <-]. split_and!; try done. left; split_and!; auto; by apply settled_same. }
  set (h2 := set_largestReceivedPacketWithAck h wpn).
  destruct (skippedPacketsAckedClosePath h2 f).
  { intros [= <- <-]. split_and!; try done. left; split_and!; auto; by apply settled_same. }
  assert (Hg2 : good h2) by (by apply (good_ext h)).
  rewrite (determineClosePath_exact h2 f Hg2 Hf). intros [= <- <-].
  destruct (ackAll_spec h2 now (closedBy f) Hg2) as (Hset & Hh & _ & HL & Hal).
  set (h3 := foldl _ _ _) in *.
  destruct (SetInflightAsLost_spec h3 now (proj1 Hset)) as (Hlost & Hh4 & _ & Hal4).
  assert (Hhist : packetHistory (SetInflightAsLost h3 now)
    = filter (fun p => h.(LargestAcked) < p.(PN) /\ ~ closedBy f p) h.(packetHistory)).
  { rewrite Hh4, HL, Hh, list_filter_filter. apply filter_ext_in, Forall_true. done. }
  split_and!; [right; split_and!; [done| |]|exact (eq_trans Hal4 Hal)|done].
  - apply (settled_nil_trans _ h2); [by apply settled_same|].
    rewrite <- (app_nil_r (filter _ _)). apply (settled_trans _ h3 _ _ _ Hset).
    apply (settled_nil_trans _ _ _ _ Hlost). apply garbageCollect_settled, Hlost.
  - cbn [garbageCollectSkippedPackets packetHistory set_skippedPackets]. rewrite Hhist. apply Forall_forall.
    by intros p [[_ ?] _]%list_elem_of_filter.
Qed.

(** ** The alarm fires *)

Lemma retransmitOldest_settled h now :
  good h -> settled h (retransmitOldestPacket now h) []
  /\ length (retransmitOldestPacket now h).(packetHistory) = pred (length h.(packetHistory)).
Proof.
  intros Hg. unfold retransmitOldestPacket. destruct (packetHistory h) as [|p l] eqn:E; [by split; [apply settled_same|rewrite E]|].
  assert (Hp : p ∈ h.(packetHistory)) by (rewrite E; left).
  destruct (takes_good true (queueRTO now) h p (takes_queueRTO now) Hg Hp) as [_ Hperm]. split.
  - apply (settled_fold true (queueRTO now) [p] h (takes_queueRTO now) Hg).
    + apply NoDup_singleton.
    + by intros q ->%list_elem_of_singleton.
  - apply Permutation_length in Hperm. rewrite E in Hperm. cbn [length pred] in *. lia.
Qed.

Lemma retransmitLoop_settled now : forall fuel h,
  good h -> (length h.(packetHistory) <= fuel)%nat ->
  settled h (retransmitLoop fuel now h) [] /\ (retransmitLoop fuel now h).(packetHistory) = [].
Proof.
  induction fuel as [|fuel IH]; intros h Hg Hl; cbn [retransmitLoop].
  { split; [by apply settled_same|]. by apply nil_length_inv; lia. }
  destruct (packetHistory h) as [|p l] eqn:E; [by split; [apply settled_same|]|].
  destruct (retransmitOldest_settled h now Hg) as [Hset Hlen]. rewrite E in Hlen. cbn [length pred] in Hlen, Hl.
  destruct (IH (retransmitOldestPacket now h) (proj1 Hset) ltac:(lia)) as [Hs He].
  split; [|done]. by apply (settled_nil_trans _ _ _ _ Hset).
Qed.

Lemma settled_set h h' h'' a :
  settled h h' a -> h''.(packetHistory) = h'.(packetHistory) ->
  h''.(retransmissionQueue) = h'.(retransmissionQueue) ->
  h''.(lastSentPacketNumber) = h'.(lastSentPacketNumber) -> h''.(bytesInFlight) = h'.(bytesInFlight) ->
  settled h h'' a.
Proof.
  intros Hs E1 E2 E3 E4. rewrite <- (app_nil_r a). apply (settled_trans _ _ _ _ _ Hs).
  apply settled_same; try done. apply Hs.
Qed.

Lemma retransmitTLP_settled h :
  good h -> settled h (retransmitTLP h) []
  /\ (h.(packetHistory) <> [] -> (length (retransmitTLP h).(packetHistory) < length h.(packetHistory))%nat).
Proof.
  intros Hg. unfold retransmitTLP. destruct (last (packetHistory h)) as [p|] eqn:E.
  - assert (Hp : p ∈ h.(packetHistory)) by (by apply last_Some_elem_of).
    destruct (takes_good true _ h p takes_queue Hg Hp) as [_ Hperm]. split.
    + apply (settled_fold true _ [p] h takes_queue Hg); [apply NoDup_singleton|].
      by intros q ->%list_elem_of_singleton.
    + intros _. rewrite Hperm. cbn [length]. lia.
  - split; [by apply settled_same|]. by apply last_None in E.
Qed.

(** One of the three reactions to the alarm. *)
Lemma alarm_reaction h (failed : bool) now :
  good h -> h.(packetHistory) <> [] ->
  let h1 := match h.(lossTime) with
            | Some _ => detectLostPackets h now
            | None =>
                if h.(tlpCount) <? maxTailLossProbes then
                  let h := retransmitTLP h in set_tlpCount h (u32 (h.(tlpCount) + 1))
                else
                  let h := if failed then retransmitAllPackets now h else retransmitOldestTwoPackets now h in
                  set_rtoCount h (u32 (h.(rtoCount) + 1))
            end in
  settled h h1 []
  /\ (lossTime h = None -> (length h1.(packetHistory) < length h.(packetHistory))%nat).
Proof.
  intros Hg Hne. destruct (lossTime h); [split; [by apply detectLostPackets_spec|done]|].
  assert (Hlen : (0 < length h.(packetHistory))%nat) by (destruct (packetHistory h); [done|simpl; lia]).
  destruct (_ <? _); [|destruct failed].
  - destruct (retransmitTLP_settled h Hg) as [Hs Hl]. split; [by eapply settled_set|]. intros _. by apply Hl.
  - destruct (retransmitLoop_settled now (length h.(packetHistory)) h Hg ltac:(lia)) as [Hs Hl].
    split; [by eapply settled_set|]. intros _. cbn. rewrite Hl. done.
  - destruct (retransmitOldest_settled h now Hg) as [Hs1 Hl1].
    destruct (retransmitOldest_settled _ now (proj1 Hs1)) as [Hs2 Hl2].
    split; [eapply settled_set; [exact (settled_nil_trans _ _ _ _ Hs1 Hs2)|done..]|]. intros _. cbn. lia.
Qed.

(** When the alarm fires nothing is forgotten, and without a pending loss time
    at least one packet goes from the history to the queue. *)
Lemma OnAlarm_spec h failed now :
  good h ->
  let h' := OnAlarm h failed now in
  settled h h' []
  /\ (hasOutstandingRetransmittablePacket h = true -> h.(lossTime) = None ->
      (length h.(retransmissionQueue) < length h'.(retransmissionQueue))%nat)
  /\ (hasOutstandingRetransmittablePacket h = true -> h'.(packetHistory) <> [] -> h'.(alarm) <> None)
  /\ (hasOutstandingRetransmittablePacket h = false -> h'.(packetHistory) = h.(packetHistory)).
Proof.
  intros Hg. unfold OnAlarm. destruct (hasOutstandingRetransmittablePacket h) eqn:Ho.
  2:{ cbn [negb]. split_and!; try done. by apply settled_same. }
  cbn [negb]. set (h1 := match lossTime h with Some _ => _ | None => _ end).
  assert (H1 : settled h h1 []
    /\ (lossTime h = None -> (length h1.(packetHistory) < length h.(packetHistory))%nat)).
  { apply alarm_reaction; [done|]. intros E. unfold hasOutstandingRetransmittablePacket in Ho. by rewrite E in Ho. }
  destruct H1 as [Hset Hless].
  assert (Hq : forall h2, settled h h2 [] -> (length h2.(packetHistory) < length h.(packetHistory))%nat ->
    (length h.(retransmissionQueue) < length h2.(retransmissionQueue))%nat).
  { intros h2 [_ Hp] Hl. apply Permutation_length in Hp. rewrite !length_app in Hp. simpl in Hp. lia. }
  assert (Hset' : settled h (updateLossDetectionAlarm h1) []).
  { apply (settled_nil_trans _ _ _ _ Hset), updateLossDetectionAlarm_settled, Hset. }
  split_and!; [done| | |done].
  - intros _ Hl. apply Hq; [done|]. rewrite updateAlarm_history. auto.
  - intros _. rewrite updateAlarm_history. apply updateAlarm_armed.
Qed.

(** ** Sending *)

(** What is kept of a packet that is sent at the time [now]. *)
Definition kept (p : Packet.t) (now : Z) : list Packet.t :=
  match stripNonRetransmittableFrames p.(Packet.Frames) with
  | [] => []
  | fs => [Packet.mk p.(PN) fs p.(Packet.Length) p.(Packet.EncryptionLevel) now]
  end.

Lemma strip_retransmittable fs :
  Forall (fun f => IsFrameRetransmittable f = true) (stripNonRetransmittableFrames fs).
Proof.
  induction fs as [|f fs IH]; cbn [stripNonRetransmittableFrames]; [constructor|].
  destruct (IsFrameRetransmittable f) eqn:E; [by constructor|done].
Qed.

Lemma good_push h p now h' :
  good h -> h.(lastSentPacketNumber) < p.(PN) ->
  h'.(packetHistory) = h.(packetHistory) ++ kept p now -> h'.(lastSentPacketNumber) = p.(PN) ->
  h'.(bytesInFlight) = u64 (h.(bytesInFlight) + inFlight (kept p now)) -> good h'.
Proof.
  intros [Hs Hb Hby Hf] Hlt E1 E2 E3.
  assert (Hk : Forall (fun q => q.(PN) = p.(PN) /\ kept_ok q) (kept p now)).
  { unfold kept. pose proof (strip_retransmittable p.(Packet.Frames)) as Hfr.
    destruct (stripNonRetransmittableFrames _); [constructor|]. constructor; [|constructor]. by split_and!. }
  split; rewrite ?E1, ?E2, ?E3.
  - apply StronglySorted_app_2; [|done|].
    + intros q q' Hq Hq'. rewrite Forall_forall in Hb, Hk. specialize (Hb q Hq). specialize (Hk q' Hq').
      unfold pnlt. simpl in *. lia.
    + unfold kept. destruct (stripNonRetransmittableFrames _); repeat constructor.
  - apply Forall_app_2; [|eapply Forall_impl; [exact Hk|]; simpl; lia].
    eapply Forall_impl; [exact Hb|]. simpl. lia.
  - rewrite inFlight_app, Hby. unfold u64. by rewrite Zplus_mod_idemp_l.
  - apply Forall_app_2; [done|]. eapply Forall_impl; [exact Hk|]. by intros q [_ ?].
Qed.

Lemma SentPacket_spec h p now h' err :
  good h -> SentPacket h p now = (h', err) ->
  (err <> None /\ h' = h)
  \/ (err = None /\ good h' /\ h'.(packetHistory) = h.(packetHistory) ++ kept p now
      /\ h'.(retransmissionQueue) = h.(retransmissionQueue) /\ armed h').
Proof.
  intros Hg. assert (Hw : in_width 64 h.(bytesInFlight)) by (rewrite (good_bytes _ Hg); apply u64_range).
  unfold SentPacket. destruct (Z.leb_spec p.(PN) h.(lastSentPacketNumber)) as [|Hlt];
    [intros [= <- <-]; by left|].
  destruct (_ <? _); [intros [= <- <-]; by left|]. intros [= <- <-]. right.
  set (h1 := set_congestion _ _).
  assert (H1 : h1.(packetHistory) = h.(packetHistory) ++ kept p now
    /\ h1.(retransmissionQueue) = h.(retransmissionQueue) /\ h1.(lastSentPacketNumber) = p.(PN)
    /\ h1.(bytesInFlight) = u64 (h.(bytesInFlight) + inFlight (kept p now))).
  { subst h1. unfold kept. destruct (stripNonRetransmittableFrames _) as [|f fs]; cbn.
    - rewrite app_nil_r, Z.add_0_r. split_and!; try done. symmetry. by apply u64_small.
    - by rewrite Z.add_0_r. }
  destruct H1 as (E1 & E2 & E3 & E4). assert (Hg1 : good h1) by (by apply (good_push h p now)).
  destruct (updateLossDetectionAlarm_settled h1 Hg1) as [Hg' _].
  split_and!; [done|done|by rewrite updateAlarm_history| |].
  - rewrite <- E2. unfold updateLossDetectionAlarm. repeat case_match; done.
  - apply armed_nonempty. rewrite updateAlarm_history. apply updateAlarm_armed.
Qed.

(** ** Runs *)

Inductive op : Type :=
| OpSent (p : Packet.t) (now : Z)
| OpAck (f : AckFrame.t) (withPacketNumber rcvTime now : Z)
| OpClosePath (f : ClosePathFrame.t) (withPacketNumber now : Z)
| OpAlarm (potentiallyFailed : bool) (now : Z)
| OpInflightLost (now : Z)
| OpDequeue
| OpDuplicate (p : Packet.t)
| OpStopWaiting (force : bool).

(** The handler, the packets it was given to keep and the ones it handed out
    for retransmission. *)
Record world : Type := mkWorld { hnd : t S; given : list Packet.t; handed : list Packet.t }.

Definition step (w : world) (o : op) : world :=
  match o with
  | OpSent p now =>
      match SentPacket w.(hnd) p now with
      | (h, None) => mkWorld h (w.(given) ++ kept p now) w.(handed)
      | (h, Some _) => mkWorld h w.(given) w.(handed)
      end
  | OpAck f wpn rcv now => mkWorld (ReceivedAck w.(hnd) f wpn rcv now).1 w.(given) w.(handed)
  | OpClosePath f wpn now => mkWorld (ReceivedClosePath w.(hnd) f wpn now).1 w.(given) w.(handed)
  | OpAlarm failed now => mkWorld (OnAlarm w.(hnd) failed now) w.(given) w.(handed)
  | OpInflightLost now => mkWorld (SetInflightAsLost w.(hnd) now) w.(given) w.(handed)
  | OpDequeue =>
      match DequeuePacketForRetransmission w.(hnd) with
      | (h, Some p) => mkWorld h w.(given) (w.(handed) ++ [p])
      | (h, None) => mkWorld h w.(given) w.(handed)
      end
  | OpDuplicate p => mkWorld (DuplicatePacket w.(hnd) p) (w.(given) ++ [p]) w.(handed)
  | OpStopWaiting force => mkWorld (GetStopWaitingFrame w.(hnd) force).1 w.(given) w.(handed)
  end.

Definition run (h : t S) (ops : list op) : world := foldl step (mkWorld h [] []) ops.

(** The frames passed the checks of the parser. *)
Definition op_ok (o : op) : Prop :=
  match o with
  | OpAck f _ _ _ => parsed_ok f.(AckFrame.LargestAcked) f.(AckFrame.LowestAcked) f.(AckFrame.AckRanges)
  | OpClosePath f _ _ =>
      parsed_ok f.(ClosePathFrame.LargestAcked) f.(ClosePathFrame.LowestAcked) f.(ClosePathFrame.AckRanges)
  | _ => True
  end.

(** One of the frames acknowledges the packet. *)
Definition acknowledged (ops : list op) (p : Packet.t) : Prop :=
  Exists (fun o => match o with
                   | OpAck f _ _ _ => ackedBy f p
                   | OpClosePath f _ _ => closedBy f p
                   | _ => False end) ops.

Definition accounted (ops : list op) (w : world) (acked : list Packet.t) : Prop :=
  good w.(hnd) /\ armed w.(hnd)
  /\ w.(given) ≡ₚ w.(hnd).(packetHistory) ++ w.(hnd).(retransmissionQueue) ++ acked ++ w.(handed)
  /\ Forall (acknowledged ops) acked.

(** A step that only settles packets. *)
Lemma accounted_settled ops o w h' newly acked :
  accounted ops w acked -> settled w.(hnd) h' newly -> armed h' -> Forall (acknowledged [o]) newly ->
  accounted (ops ++ [o]) (mkWorld h' w.(given) w.(handed)) (newly ++ acked).
Proof.
  intros (Hg & Ha & Hp & Hf) [Hg' Hp'] Ha' Hn. split_and!; [done|done| |]; cbn [hnd given handed].
  - rewrite Hp, app_assoc, Hp'. rewrite <- !app_assoc, Permutation_app_swap_app. f_equiv.
    by rewrite Permutation_app_swap_app.
  - apply Forall_app_2; eapply Forall_impl; [exact Hn| |exact Hf|]; intros p Hx;
      unfold acknowledged in *; rewrite Exists_app; tauto.
Qed.

Lemma accounted_sent ops w acked p now :
  accounted ops w acked -> accounted (ops ++ [OpSent p now]) (step w (OpSent p now)) acked.
Proof.
  intros (Hg & Ha & Hp & Hf).
  assert (Hmono : Forall (acknowledged (ops ++ [OpSent p now])) acked).
  { eapply Forall_impl; [exact Hf|]. intros q Hx. unfold acknowledged in *. rewrite Exists_app. tauto. }
  cbn [step]. destruct (SentPacket w.(hnd) p now) as [h' err] eqn:E.
  destruct (SentPacket_spec _ _ _ _ _ Hg E) as [[Hne ->]|(-> & Hg' & Eh & Eq & Ha')].
  { destruct err; [|done]. by split_and!. }
  split_and!; [done..| |done]. cbn [hnd given handed]. rewrite Eh, Eq, Hp, <- !app_assoc. f_equiv.
  rewrite (Permutation_app_comm (kept p now)), <- !app_assoc. done.
Qed.

Lemma accounted_queue ops w acked o :
  o = OpDequeue \/ (exists p, o = OpDuplicate p) ->
  accounted ops w acked -> accounted (ops ++ [o]) (step w o) acked.
Proof.
  intros Ho (Hg & Ha & Hp & Hf).
  assert (Hmono : Forall (acknowledged (ops ++ [o])) acked).
  { eapply Forall_impl; [exact Hf|]. intros q Hx. unfold acknowledged in *. rewrite Exists_app. tauto. }
  destruct Ho as [->|[p ->]]; cbn [step].
  - unfold DequeuePacketForRetransmission. destruct (retransmissionQueue (hnd w)) as [|q queue] eqn:E;
      split_and!; try done; cbn; rewrite ?E; [done|by apply (good_ext w.(hnd))|].
    rewrite Hp. f_equiv. cbn [app]. rewrite !app_assoc. apply Permutation_cons_append.
  - split_and!; [by apply (good_ext w.(hnd))|done| |done]. cbn. rewrite Hp, <- !app_assoc. do 2 f_equiv.
    rewrite (Permutation_app_comm [p]), <- !app_assoc. done.
Qed.

Lemma accounted_step ops o w acked :
  accounted ops w acked -> op_ok o -> exists acked', accounted (ops ++ [o]) (step w o) acked'.
Proof.
  intros Hacc Ho. pose proof Hacc as (Hg & Ha & _).
  destruct o as [p now|f wpn rcv now|f wpn now|failed now|now| |p|force].
  - exists acked. by apply accounted_sent.
  - cbn [step]. destruct (ReceivedAck w.(hnd) f wpn rcv now) as [h' err] eqn:E.
    destruct (ReceivedAck_spec _ _ _ _ _ _ _ Hg (parsed_ranges_ok _ _ _ Ho) E) as [[(_ & _ & Hs & _)|(_ & Hs & _)] Harm];
      eexists; (apply accounted_settled; [done|exact Hs|auto|]); [done|].
    apply Forall_forall. intros q [Hq _]%list_elem_of_filter. by constructor.
  - cbn [step]. destruct (ReceivedClosePath w.(hnd) f wpn now) as [h' err] eqn:E. cbn [fst].
    destruct (ReceivedClosePath_spec _ _ _ _ _ _ Hg (parsed_ranges_ok _ _ _ Ho) E) as ([(_ & Eh & Hs & _)|(-> & Hs & _)] & Hal & Hh);
      eexists; (apply accounted_settled; [done|exact Hs| |]).
    + apply (armed_fewer w.(hnd)); [by rewrite Eh|done|done].
    + done.
    + apply (armed_fewer w.(hnd)); [|done|done]. rewrite Hh by done. by intros q [_ ?]%list_elem_of_filter.
    + apply Forall_forall. intros q [Hq _]%list_elem_of_filter. by constructor.
  - cbn [step]. destruct (OnAlarm_spec w.(hnd) failed now Hg) as (Hs & _ & Hal & Hno).
    eexists; (apply accounted_settled; [done|exact Hs| |done]).
    destruct (hasOutstandingRetransmittablePacket w.(hnd)) eqn:Eo; [apply armed_nonempty; auto|].
    unfold armed, hasOutstandingRetransmittablePacket. rewrite Hno by done.
    unfold hasOutstandingRetransmittablePacket in Eo. by rewrite Eo.
  - cbn [step]. destruct (SetInflightAsLost_spec w.(hnd) now Hg) as (Hs & Hh & _ & Hal).
    eexists; (apply accounted_settled; [done|exact Hs| |done]).
    apply (armed_fewer w.(hnd)); [|done|done]. rewrite Hh. by intros q [_ ?]%list_elem_of_filter.
  - exists acked. apply accounted_queue; auto.
  - exists acked. apply accounted_queue; eauto.
  - cbn [step]. unfold GetStopWaitingFrame. destruct (StopWaitingManager.GetStopWaitingFrame _ _).
    exists ([] ++ acked). apply accounted_settled; [done|by apply settled_same|by apply (armed_fewer w.(hnd))|done].
Qed.

Lemma accounted_run ops rtt (c : S) :
  Forall op_ok ops -> exists acked, accounted ops (run (NewSentPacketHandler rtt c) ops) acked.
Proof.
  unfold run. induction ops as [|o ops IH] using rev_ind; intros Hok.
  - exists []. split_and!; [split; constructor|done|done|done].
  - apply Forall_app in Hok as [Hok [Ho _]%Forall_cons]. destruct (IH Hok) as [acked Hacc].
    rewrite foldl_app. cbn [foldl]. by eapply accounted_step.
Qed.

(** C2: no packet with reliable data is forgotten.  Whatever frames, alarms and
    path closures happen, every packet with retransmittable frames that was sent
    on the path (and every packet duplicated onto it) is at any time in exactly
    one place: in flight, queued for retransmission, handed out for
    retransmission, or acknowledged by an ACK or CLOSE_PATH frame that covers
    its number.  The bytes in flight are the sum of the packets in flight. *)
Theorem sent_packets_accounted (ops : list op) (rtt : RTTStats.t) (c : S) :
  Forall op_ok ops ->
  let w := run (NewSentPacketHandler rtt c) ops in
  (exists acked,
     w.(given) ≡ₚ w.(hnd).(packetHistory) ++ w.(hnd).(retransmissionQueue) ++ acked ++ w.(handed)
     /\ Forall (acknowledged ops) acked)
  /\ w.(hnd).(bytesInFlight) = u64 (inFlight w.(hnd).(packetHistory))
  /\ StronglySorted pnlt w.(hnd).(packetHistory).
Proof.
  intros Hok w. destruct (accounted_run ops rtt c Hok) as (acked & Hg & _ & Hp & Hf).
  split_and!; [by exists acked|apply (good_bytes _ Hg)|apply (good_sorted _ Hg)].
Qed.

(** C17: on every reachable state a frame that passed the parser acknowledges
    exactly the packets whose numbers lie in its ranges: the walk that advances
    through history and ranges together skips none, takes none too many and never
    reports the inconsistency it checks for; afterwards no packet that the frame
    covers is in flight. *)
Theorem ack_walk_exact (ops : list op) (rtt : RTTStats.t) (c : S) (f : AckFrame.t) :
  Forall op_ok ops ->
  parsed_ok f.(AckFrame.LargestAcked) f.(AckFrame.LowestAcked) f.(AckFrame.AckRanges) ->
  let h := (run (NewSentPacketHandler rtt c) ops).(hnd) in
  determineNewlyAckedPackets h f = inr (filter (ackedBy f) h.(packetHistory))
  /\ forall wpn rcv now h', ReceivedAck h f wpn rcv now = (h', None) ->
       largestInOrderAcked h < f.(AckFrame.LargestAcked) ->
       Forall (fun p => ~ ackedBy f p) h'.(packetHistory).
Proof.
  intros Hok Hf%parsed_ranges_ok h. destruct (accounted_run ops rtt c Hok) as (acked & Hg & _).
  split; [by apply determine_exact|]. intros wpn rcv now h' HR Hl.
  destruct (ReceivedAck_spec h _ _ _ _ _ _ Hg Hf HR) as [[([?|?] & _)|(_ & _ & Hno)] _]; [done|lia|done].
Qed.

(** C21: the alarm never goes missing.  On every reachable state on which a
    packet that must be delivered is in flight the alarm is set, and when it
    fires without a pending loss time at least one packet is queued for
    retransmission. *)
Theorem alarm_while_outstanding (ops : list op) (rtt : RTTStats.t) (c : S) :
  Forall op_ok ops ->
  let h := (run (NewSentPacketHandler rtt c) ops).(hnd) in
  hasOutstandingRetransmittablePacket h = true ->
  h.(alarm) <> None
  /\ (h.(lossTime) = None -> forall failed now,
        (length h.(retransmissionQueue) < length (OnAlarm h failed now).(retransmissionQueue))%nat).
Proof.
  intros Hok h Ho. destruct (accounted_run ops rtt c Hok) as (acked & Hg & Ha & _).
  split; [by apply Ha|]. intros Hl failed now. by apply (OnAlarm_spec h failed now Hg).
Qed.

(** C36: a closed path keeps packets in flight.  A CLOSE_PATH frame that is
    accepted leaves every packet above the largest acknowledged one that it does
    not cover in the history: such a packet is neither queued for retransmission
    nor declared lost, although the path is not used any more. *)
Theorem close_path_strands_packets (ops : list op) (rtt : RTTStats.t) (c : S) (f : ClosePathFrame.t)
    (wpn now : Z) (h' : t S) (p : Packet.t) :
  Forall op_ok ops ->
  parsed_ok f.(ClosePathFrame.LargestAcked) f.(ClosePathFrame.LowestAcked) f.(ClosePathFrame.AckRanges) ->
  let h := (run (NewSentPacketHandler rtt c) ops).(hnd) in
  ReceivedClosePath h f wpn now = (h', None) ->
  p ∈ h.(packetHistory) -> h.(LargestAcked) < p.(PN) -> ~ closedBy f p ->
  p ∈ h'.(packetHistory) /\ h'.(packetHistory)
    = filter (fun p => h.(LargestAcked) < p.(PN) /\ ~ closedBy f p) h.(packetHistory).
Proof.
  intros Hok Hf%parsed_ranges_ok h HR Hp Hlt Hn. destruct (accounted_run ops rtt c Hok) as (acked & Hg & _).
  destruct (ReceivedClosePath_spec h _ _ _ _ _ Hg Hf HR) as (_ & _ & Hh). specialize (Hh eq_refl).
  split; [|done]. rewrite Hh. by apply list_elem_of_filter.
Qed.

(** Back-pressure is sound: whenever sending is allowed, a packet with a
    new number is accepted, and the number of packets that are tracked never
    exceeds its limit by sending. *)
Theorem SendingAllowed_accepts (h : t S) (p : Packet.t) (now : Z) :
  SendingAllowed h = true -> h.(lastSentPacketNumber) < p.(PN) ->
  exists h', SentPacket h p now = (h', None) /\ tracked h' <= MaxTrackedSentPackets.
Proof.
  intros Hs Hlt. unfold SendingAllowed in Hs. apply andb_true_iff in Hs as [Ht _].
  destruct (Z.leb_spec MaxTrackedSentPackets (tracked h)) as [|Htr]; [done|]. unfold SentPacket.
  destruct (Z.leb_spec p.(PN) h.(lastSentPacketNumber)); [lia|].
  destruct (Z.ltb_spec MaxTrackedSentPackets (tracked h + 1)); [lia|]. eexists. split; [reflexivity|].
  unfold tracked in *. rewrite updateAlarm_history. set (h1 := set_congestion _ _).
  assert (E : retransmissionQueue (updateLossDetectionAlarm h1) = retransmissionQueue h).
  { transitivity (retransmissionQueue h1).
    - unfold updateLossDetectionAlarm. repeat case_match; done.
    - subst h1. by destruct (stripNonRetransmittableFrames _). }
  rewrite E. subst h1. destruct (stripNonRetransmittableFrames _); cbn; rewrite ?length_app; cbn; lia.
Qed.

(** The retransmission timeout is bounded: the delay after which it fires
    is at least 200 ms and at most a minute, whatever the round-trip times and
    however often it fired, although the backoff is computed with wrap-around. *)
Theorem rto_bounded (h : t S) :
  h.(packetHistory) <> [] -> h.(lossTime) = None ->
  RTTStats.SmoothedRTT h.(rttStats) = 0 \/ maxTailLossProbes <= h.(tlpCount) ->
  exists d, (updateLossDetectionAlarm h).(alarm) = Some (h.(lastSentTime) + d)
    /\ minRetransmissionTime <= d <= maxRTOTimeout.
Proof.
  intros Hne Hl Hrto. unfold updateLossDetectionAlarm. destruct (packetHistory h) as [|p l] eqn:E; [done|].
  cbn [length Nat.eqb]. rewrite Hl.
  assert (Hc : negb (RTTStats.SmoothedRTT (rttStats h) =? 0) && (tlpCount h <? maxTailLossProbes) = false).
  { destruct Hrto as [->|?]; [done|]. apply andb_false_iff. right. by apply Z.ltb_ge. }
  rewrite Hc. eexists. split; [reflexivity|]. unfold computeRTOTimeout.
  rewrite !MaxDuration_max, MinDuration_min. unfold minRetransmissionTime, maxRTOTimeout, Millisecond. lia.
Qed.

End Handler.

(** ** Examples *)

Module SentPacketsExamples.

(** A controller with a fixed window. *)
Definition fixedWindow : SendAlgorithm Z := {|
  OnPacketSent c _ _ _ _ _ _ := c;
  GetCongestionWindow c := c;
  MaybeExitSlowStart c _ := c;
  OnPacketAcked c _ _ _ _ _ := c;
  OnPacketLost c _ _ _ _ _ := c;
  OnRetransmissionTimeout c _ := c;
  RetransmissionDelay _ r := RTTStats.SmoothedRTT r;
  SmoothedRTT _ r := RTTStats.SmoothedRTT r
|}.
#[local] Existing Instance fixedWindow.

Definition ping (pn : Z) : Packet.t := Packet.mk pn [FPing PingFrame.mk] 100 EncryptionForwardSecure 0.

(** Five packets, of which the second and third are reported missing. *)
Definition ackFrame : AckFrame.t := AckFrame.mk 0 5 1 [mkRange 4 5; mkRange 1 1] 0 0.

Definition sends : list op :=
  [OpSent (ping 1) 0; OpSent (ping 2) 1000000; OpSent (ping 3) 2000000; OpSent (ping 4) 3000000;
   OpSent (ping 5) 4000000].

Definition history : list op :=
  sends ++ [OpAck ackFrame 1 50000000 50000000; OpAlarm false 300000000; OpDequeue].

Lemma ackFrame_parsed :
  parsed_ok ackFrame.(AckFrame.LargestAcked) ackFrame.(AckFrame.LowestAcked) ackFrame.(AckFrame.AckRanges).
Proof. unfold ackFrame, parsed_ok. cbn. repeat split; try lia; try discriminate. all: repeat constructor; cbn; lia. Qed.

Lemma sends_ok : Forall op_ok sends.
Proof. repeat constructor. Qed.
Lemma history_ok : Forall op_ok history.
Proof. apply Forall_app. split; [apply sends_ok|]. repeat constructor; apply ackFrame_parsed. Qed.

Abbreviation start := (NewSentPacketHandler RTTStats.NewRTTStats 10000).

Lemma sent_packets_accounted_witness :
  let w := run start history in
  (exists acked,
     w.(given) ≡ₚ w.(hnd).(packetHistory) ++ w.(hnd).(retransmissionQueue) ++ acked ++ w.(handed)
     /\ Forall (acknowledged history) acked)
  /\ w.(hnd).(bytesInFlight) = u64 (inFlight w.(hnd).(packetHistory))
  /\ StronglySorted pnlt w.(hnd).(packetHistory).
Proof. apply (sent_packets_accounted history RTTStats.NewRTTStats 10000). apply history_ok. Defined.

(** After the alarm one of the missing packets was handed out and one is queued. *)
Example history_places :
  let w := run start history in
  map PN w.(handed) = [2] /\ map PN w.(hnd).(retransmissionQueue) = [3] /\ w.(hnd).(packetHistory) = [].
Proof. vm_compute. done. Qed.

Lemma ack_walk_exact_witness :
  let h := (run start sends).(hnd) in
  determineNewlyAckedPackets h ackFrame = inr (filter (ackedBy ackFrame) h.(packetHistory))
  /\ forall wpn rcv now h', ReceivedAck h ackFrame wpn rcv now = (h', None) ->
       largestInOrderAcked h < ackFrame.(AckFrame.LargestAcked) ->
       Forall (fun p => ~ ackedBy ackFrame p) h'.(packetHistory).
Proof.
  apply (ack_walk_exact sends RTTStats.NewRTTStats 10000 ackFrame); [apply sends_ok|apply ackFrame_parsed].
Defined.

Lemma alarm_while_outstanding_witness :
  let h := (run start sends).(hnd) in
  h.(alarm) <> None
  /\ (h.(lossTime) = None -> forall failed now,
        (length h.(retransmissionQueue) < length (OnAlarm h failed now).(retransmissionQueue))%nat).
Proof. apply (alarm_while_outstanding sends RTTStats.NewRTTStats 10000); [apply sends_ok|reflexivity]. Defined.

(** The peer closes the path after the first of two packets. *)
Definition closeFrame : ClosePathFrame.t := ClosePathFrame.mk 1 1 1 [].

Definition two : list op := [OpSent (ping 1) 0; OpSent (ping 2) 1000000].

Lemma close_path_strands_packets_witness :
  exists h' p, ReceivedClosePath (run start two).(hnd) closeFrame 1 2000000 = (h', None)
    /\ p.(PN) = 2 /\ p ∈ h'.(packetHistory) /\ h'.(retransmissionQueue) = [].
Proof.
  eexists _, (Packet.mk 2 [FPing PingFrame.mk] 100 EncryptionForwardSecure 1000000).
  split; [vm_compute; reflexivity|]. split; [reflexivity|]. split; [|reflexivity].
  eapply (close_path_strands_packets two RTTStats.NewRTTStats 10000 closeFrame 1 2000000).
  - repeat constructor.
  - unfold closeFrame, parsed_ok. cbn. split; lia.
  - vm_compute. reflexivity.
  - right. left.
  - vm_compute. reflexivity.
  - vm_compute. discriminate.
Defined.

Lemma SendingAllowed_accepts_witness :
  exists h', SentPacket (run start sends).(hnd) (ping 6) 5000000 = (h', None)
    /\ tracked h' <= MaxTrackedSentPackets.
Proof. apply (SendingAllowed_accepts (run start sends).(hnd) (ping 6) 5000000); reflexivity. Defined.

Lemma rto_bounded_witness :
  exists d, (updateLossDetectionAlarm (run start two).(hnd)).(alarm)
            = Some ((run start two).(hnd).(lastSentTime) + d)
    /\ minRetransmissionTime <= d <= maxRTOTimeout.
Proof. apply (rto_bounded (run start two).(hnd)); [discriminate|reflexivity|left; reflexivity]. Defined.

End SentPacketsExamples.
