(* ===== verification/GoFloat.v ===== *)
(** * IEEE floats as Go uses them on [amd64]

    The congestion controllers compute with [float32] and, in [math.Cbrt], with
    [float64].  A float is a mantissa and a binary exponent; every operation is
    the exact one, rounded to the significant bits of the format (ties to even),
    so that a product and a sum are rounded separately.  The values that occur
    are far from the limits of the exponents.  [Cbrt] is the code of Go's [math]
    package for zero and positive normal numbers. *)

From S2P Require Import Prelude Float.

(** The number [mant * 2 ^ expo] *)
Record flt : Type := mkFlt { mant : Z; expo : Z }.

Section ops.
Context (p : Z).

Definition fround (m e : Z) : flt := mkFlt (roundBits p m) e.

Definition fofZ (z : Z) : flt := fround z 0.

Definition falign (x : flt) (e : Z) : Z := x.(mant) * 2 ^ (x.(expo) - e).

Definition fadd (x y : flt) : flt :=
  let e := Z.min x.(expo) y.(expo) in fround (falign x e + falign y e) e.
Definition fsub (x y : flt) : flt :=
  let e := Z.min x.(expo) y.(expo) in fround (falign x e - falign y e) e.
Definition fmul (x y : flt) : flt := fround (x.(mant) * y.(mant)) (x.(expo) + y.(expo)).

(** The quotient with [p + 2] bits or more, and one bit for the rest of the division *)
Definition fdiv (x y : flt) : flt :=
  let shift := Z.max 0 (p + 2 + Z.log2 (Z.abs y.(mant)) - Z.log2 (Z.abs x.(mant))) in
  let q := Z.abs x.(mant) * 2 ^ shift / Z.abs y.(mant) in
  let r := (Z.abs x.(mant) * 2 ^ shift) mod Z.abs y.(mant) in
  let m := Z.sgn x.(mant) * Z.sgn y.(mant) * (2 * q + (if r =? 0 then 0 else 1)) in
  fround m (x.(expo) - y.(expo) - shift - 1).

End ops.

(** The conversion to an integer type truncates. *)
Definition truncate (x : flt) : Z :=
  if 0 <=? x.(expo) then x.(mant) * 2 ^ x.(expo) else Z.quot x.(mant) (2 ^ (- x.(expo))).

(** ** The formats *)

Module F32.
Definition ofZ : Z -> flt := fofZ 24.
Definition add : flt -> flt -> flt := fadd 24.
Definition sub : flt -> flt -> flt := fsub 24.
Definition mul : flt -> flt -> flt := fmul 24.
Definition div : flt -> flt -> flt := fdiv 24.

(** The decimal constant [n / d] *)
Definition const (n d : Z) : flt := div (ofZ n) (ofZ d).
End F32.

Module F64.
Definition ofZ : Z -> flt := fofZ 53.
Definition add : flt -> flt -> flt := fadd 53.
Definition sub : flt -> flt -> flt := fsub 53.
Definition mul : flt -> flt -> flt := fmul 53.
Definition div : flt -> flt -> flt := fdiv 53.

(** [math.Float64bits] and [math.Float64frombits] of positive normal numbers *)
Definition bits (x : flt) : Z :=
  let k := Z.log2 x.(mant) - 52 in
  let m := if 0 <=? k then Z.shiftr x.(mant) k else Z.shiftl x.(mant) (- k) in
  Z.shiftl (x.(expo) + k + 1075) 52 + (m - 2 ^ 52).

Definition frombits (b : Z) : flt := mkFlt (2 ^ 52 + b mod 2 ^ 52) (Z.shiftr b 52 - 1075).

(** The constants of [cbrt.go]; [D] is negative, [absD] its absolute value. *)
Definition B1 : Z := 715094163.
Definition C : flt := frombits 0x3FE15F15F15F15F1.
Definition absD : flt := frombits 0x3FE691DE2532C834.
Definition E : flt := frombits 0x3FF6A0EA0EA0EA0F.
Definition F : flt := frombits 0x3FF9B6DB6DB6DB6E.
Definition G : flt := frombits 0x3FD6DB6DB6DB6DB7.

Definition Cbrt (x : flt) : flt :=
  if x.(mant) =? 0 then x
  else
    let t := frombits (bits x / 3 + Z.shiftl B1 32) in
    let r := div (mul t t) x in
    let s := add C (mul r t) in
    let t := mul t (add G (div F (sub (add s E) (div absD s)))) in
    let t := frombits (Z.land (bits t) (Z.shiftl 0xFFFFFFFFC 28) + Z.shiftl 1 30) in
    let s := mul t t in
    let r := div x s in
    let w := add t t in
    let r := div (sub r t) (add w r) in
    add t (mul t r).

End F64.

(** ** Rounding

    A number with [p] significant bits is a bound that rounding respects. *)

Lemma roundBits_ge p z a j : 1 <= p -> 0 <= a < 2 ^ p -> 0 <= j -> a * 2 ^ j <= z -> a * 2 ^ j <= roundBits p z.
Proof.
  intros Hp Ha Hj Hz. unfold roundBits. pose proof (Z.pow_pos_nonneg 2 j ltac:(lia) Hj).
  rewrite (Z.abs_eq z) by nia. destruct (Z.ltb_spec z (2 ^ p)) as [|Hge]; [lia|].
  pose proof (Z.pow_pos_nonneg 2 p ltac:(lia) ltac:(lia)).
  assert (Hlog : p <= Z.log2 z) by (apply Z.log2_le_pow2; lia).
  set (e := Z.log2 z - p + 1). assert (1 <= e) by lia.
  rewrite Z.sgn_pos, Z.mul_1_l by lia. pose proof (Z.pow_pos_nonneg 2 e ltac:(lia) ltac:(lia)) as He.
  assert (Hq : a * 2 ^ j <= z / 2 ^ e * 2 ^ e); [|destruct (_ || _); nia].
  destruct (Z.le_gt_cases e j) as [Hej|Hej].
  - replace (a * 2 ^ j) with (a * 2 ^ (j - e) * 2 ^ e) in *
      by (rewrite <- Z.mul_assoc, <- Z.pow_add_r by lia; do 2 f_equal; lia).
    apply Z.mul_le_mono_nonneg_r; [lia|]. apply Z.div_le_lower_bound; lia.
  - assert (Hlow : 2 ^ (p - 1) <= z / 2 ^ e).
    { apply Z.div_le_lower_bound; [lia|]. rewrite <- Z.pow_add_r by lia.
      replace (e + (p - 1)) with (Z.log2 z) by lia. destruct (Z.log2_spec z); lia. }
    assert (2 ^ p * 2 ^ j <= 2 ^ (p - 1) * 2 ^ e)
      by (rewrite <- !Z.pow_add_r by lia; apply Z.pow_le_mono_r; lia).
    nia.
Qed.

Lemma roundBits_range p z : 1 <= p -> 0 <= z -> 0 <= roundBits p z <= 2 * z.
Proof.
  intros Hp Hz. destruct (roundBits_error p z Hp Hz) as [? Herr].
  pose proof (Z.pow_le_mono_r 2 1 p ltac:(lia) ltac:(lia)). nia.
Qed.

(** The quotient by a constant below one, of an integer: between a half and
    eight times the integer. *)
Lemma truncate_div E m e : 1 <= E < 2 ^ 31 -> 2 ^ 26 <= m < 2 ^ 27 -> e = -27 ->
  1 <= truncate (fdiv 24 (mkFlt E 0) (mkFlt m e)) <= 8 * E.
Proof.
  intros HE Hm ->. unfold fdiv, fround. cbn [mant expo].
  rewrite (Z.abs_eq E), (Z.abs_eq m), (Z.sgn_pos E), (Z.sgn_pos m), !Z.mul_1_l by lia.
  assert (Hl : Z.log2 m = 26) by (apply Z.log2_unique; lia). rewrite Hl.
  destruct (Z.log2_spec E ltac:(lia)) as [HL1 HL2]. set (L := Z.log2 E) in *.
  assert (0 <= L <= 30).
  { split; [apply Z.log2_nonneg|]. enough (L < 31) by lia. apply Z.log2_lt_pow2; lia. }
  rewrite (Z.max_r 0 (24 + 2 + 26 - L)) by lia.
  assert (Hpow : 2 ^ L * 2 ^ (24 + 2 + 26 - L) = 2 ^ 52) by (rewrite <- Z.pow_add_r by lia; f_equal; lia).
  rewrite Z.pow_succ_r in HL2 by lia.
  pose proof (Z.pow_pos_nonneg 2 (24 + 2 + 26 - L) ltac:(lia) ltac:(lia)) as Hs.
  set (S := 2 ^ (24 + 2 + 26 - L)) in *. set (q := E * S / m).
  assert (Hq : 2 ^ 25 <= q < 2 ^ 27).
  { split; [apply Z.div_le_lower_bound; nia|apply Z.div_lt_upper_bound; nia]. }
  set (r := if _ =? 0 then 0 else 1). assert (0 <= r <= 1) by (unfold r; case_match; lia).
  pose proof (roundBits_ge 24 (2 * q + r) 1 26 ltac:(lia) ltac:(lia) ltac:(lia) ltac:(lia)) as Hlo.
  assert (Hhi : roundBits 24 (2 * q + r) <= 2 ^ 28 + 32).
  { destruct (roundBits_error 24 (2 * q + r) ltac:(lia) ltac:(lia)). lia. }
  set (R := roundBits 24 (2 * q + r)) in *.
  unfold truncate. cbn [mant expo]. replace (0 - -27 - (24 + 2 + 26 - L) - 1) with (L - 26) by lia.
  destruct (Z.leb_spec 0 (L - 26)) as [Hpos|Hneg].
  - assert (Hp : 2 ^ 26 * 2 ^ (L - 26) = 2 ^ L) by (rewrite <- Z.pow_add_r by lia; f_equal; lia).
    pose proof (Z.pow_pos_nonneg 2 (L - 26) ltac:(lia) ltac:(lia)). nia.
  - assert (Hp : 2 ^ L * 2 ^ (- (L - 26)) = 2 ^ 26) by (rewrite <- Z.pow_add_r by lia; f_equal; lia).
    pose proof (Z.pow_pos_nonneg 2 L ltac:(lia) ltac:(lia)).
    pose proof (Z.pow_pos_nonneg 2 (- (L - 26)) ltac:(lia) ltac:(lia)).
    rewrite Z.quot_div_nonneg by lia.
    split; [apply Z.div_le_lower_bound; nia|apply Z.div_le_upper_bound; nia].
Qed.
