(* ===== verification/Cubic.v ===== *)
(** * CUBIC congestion control ([congestion/cubic.go], [cubic_sender.go],
    [hybrid_slow_start.go], [prr_sender.go], [bandwidth.go], [stats.go])

    The congestion controller of the initial path.  Windows and thresholds are in
    packets; the clock is an argument of the calls that read it; a zero
    [time.Time] is [None]; the round-trip statistics that the code shares by
    pointer are passed in.  The sender is an instance of the interface that the
    sent packet handler is proved against. *)

From S2P Require Import Prelude MinMax Float RTTStats GoFloat SentPackets.

Definition DefaultTCPMSS : Z := 1460.
Definition InitialCongestionWindow : Z := 32.
Definition DefaultMaxCongestionWindow : Z := 2500.

(** ** Hybrid slow start *)

Module HybridSlowStart.

Definition hybridStartLowWindow : Z := 16.
Definition hybridStartMinSamples : Z := 8.
Definition hybridStartDelayFactorExp : Z := 3.
Definition hybridStartDelayMinThresholdUs : Z := 4000.
Definition hybridStartDelayMaxThresholdUs : Z := 16000.

Record t : Type := mk {
  endPacketNumber : Z;
  lastSentPacketNumber : Z;
  started : bool;
  currentMinRTT : Z;
  rttSampleCount : Z;
  hystartFound : bool
}.

Definition new : t := mk 0 0 false 0 0 false.

Definition StartReceiveRound (s : t) (lastSent : Z) : t :=
  mk lastSent s.(lastSentPacketNumber) true 0 0 s.(hystartFound).

Definition IsEndOfRound (s : t) (ack : Z) : bool := s.(endPacketNumber) <? ack.

Definition threshold (minRTT : Z) : Z :=
  let us := Z.shiftr (Z.quot minRTT RTTStats.Microsecond) hybridStartDelayFactorExp in
  let us := MinInt64 us hybridStartDelayMaxThresholdUs in
  i64 (MaxInt64 us hybridStartDelayMinThresholdUs * RTTStats.Microsecond).

Definition ShouldExitSlowStart (s : t) (latestRTT minRTT congestionWindow : Z) : t * bool :=
  let s := if s.(started) then s else StartReceiveRound s s.(lastSentPacketNumber) in
  if s.(hystartFound) then (s, true)
  else
    let count := u32 (s.(rttSampleCount) + 1) in
    let current :=
      if (count <=? hybridStartMinSamples)
         && ((s.(currentMinRTT) =? 0) || (latestRTT <? s.(currentMinRTT)))
      then latestRTT else s.(currentMinRTT) in
    let found := (count =? hybridStartMinSamples) && (i64 (minRTT + threshold minRTT) <? current) in
    (mk s.(endPacketNumber) s.(lastSentPacketNumber) s.(started) current count found,
     (hybridStartLowWindow <=? congestionWindow) && found).

Definition OnPacketSent (s : t) (packetNumber : Z) : t :=
  mk s.(endPacketNumber) packetNumber s.(started) s.(currentMinRTT) s.(rttSampleCount) s.(hystartFound).

Definition OnPacketAcked (s : t) (acked : Z) : t :=
  if IsEndOfRound s acked
  then mk s.(endPacketNumber) s.(lastSentPacketNumber) false s.(currentMinRTT) s.(rttSampleCount) s.(hystartFound)
  else s.

Definition Started (s : t) : bool := s.(started).

Definition Restart (s : t) : t :=
  mk s.(endPacketNumber) s.(lastSentPacketNumber) false s.(currentMinRTT) s.(rttSampleCount) false.

End HybridSlowStart.

(** ** Proportional rate reduction *)

Module PrrSender.

Record t : Type := mk {
  bytesSentSinceLoss : Z;
  bytesDeliveredSinceLoss : Z;
  ackCountSinceLoss : Z;
  bytesInFlightBeforeLoss : Z
}.

Definition new : t := mk 0 0 0 0.

Definition OnPacketSent (p : t) (sentBytes : Z) : t :=
  mk (u64 (p.(bytesSentSinceLoss) + sentBytes)) p.(bytesDeliveredSinceLoss) p.(ackCountSinceLoss)
    p.(bytesInFlightBeforeLoss).

Definition OnPacketLost (p : t) (bytesInFlight : Z) : t := mk 0 0 0 bytesInFlight.

Definition OnPacketAcked (p : t) (ackedBytes : Z) : t :=
  mk p.(bytesSentSinceLoss) (u64 (p.(bytesDeliveredSinceLoss) + ackedBytes)) (u64 (p.(ackCountSinceLoss) + 1))
    p.(bytesInFlightBeforeLoss).

Definition TimeUntilSend (p : t) (congestionWindow bytesInFlight slowstartThreshold : Z) : Z :=
  if (p.(bytesSentSinceLoss) =? 0) || (bytesInFlight <? DefaultTCPMSS) then 0
  else if bytesInFlight <? congestionWindow then
    if u64 (p.(bytesDeliveredSinceLoss) + u64 (p.(ackCountSinceLoss) * DefaultTCPMSS)) <=? p.(bytesSentSinceLoss)
    then InfDuration else 0
  else if u64 (p.(bytesSentSinceLoss) * p.(bytesInFlightBeforeLoss))
          <? u64 (p.(bytesDeliveredSinceLoss) * slowstartThreshold)
  then 0 else InfDuration.

End PrrSender.

(** ** Bandwidth *)

Definition BytesPerSecond : Z := 8.

Definition BandwidthFromDelta (bytes delta : Z) : Z :=
  u64 (u64 (bytes * 1000000000) / u64 delta * BytesPerSecond).

(** ** The cubic function *)

Module Cubic.

Definition cubeScale : Z := 40.
Definition cubeCongestionWindowScale : Z := 410.
Definition cubeFactor : Z := Z.shiftl 1 cubeScale / cubeCongestionWindowScale.
Definition defaultNumConnections : Z := 2.
Definition beta_ : flt := F32.const 7 10.
Definition betaLastMax : flt := F32.const 85 100.
Definition maxCubicTimeInterval : Z := 30 * Millisecond.

Record t : Type := mk {
  numConnections : Z;
  epoch : option Z;
  appLimitedStartTime : option Z;
  lastUpdateTime : option Z;
  lastCongestionWindow : Z;
  lastMaxCongestionWindow : Z;
  ackedPacketsCount : Z;
  estimatedTCPcongestionWindow : Z;
  originPointCongestionWindow : Z;
  timeToOriginPoint : Z;
  lastTargetCongestionWindow : Z
}.

Definition Reset (c : t) : t := mk c.(numConnections) None None None 0 0 0 0 0 0 0.

Definition NewCubic : t := mk defaultNumConnections None None None 0 0 0 0 0 0 0.

(** The backoff factor of [n] emulated connections: [(n - 1 + beta) / n] *)
Definition beta (n : Z) : flt :=
  F32.div (F32.add (F32.sub (F32.ofZ n) (F32.ofZ 1)) beta_) (F32.ofZ n).

Definition alpha (n : Z) : flt :=
  let b := beta n in
  F32.div (F32.mul (F32.mul (F32.mul (F32.ofZ 3) (F32.ofZ n)) (F32.ofZ n)) (F32.sub (F32.ofZ 1) b))
    (F32.add (F32.ofZ 1) b).

(** The epoch is shifted by the application-limited time. *)
Definition OnApplicationLimited (c : t) (now : Z) : t :=
  match c.(appLimitedStartTime) with
  | None =>
      mk c.(numConnections) c.(epoch) (Some now) c.(lastUpdateTime) c.(lastCongestionWindow)
        c.(lastMaxCongestionWindow) c.(ackedPacketsCount) c.(estimatedTCPcongestionWindow)
        c.(originPointCongestionWindow) c.(timeToOriginPoint) c.(lastTargetCongestionWindow)
  | Some _ => c
  end.

Definition CongestionWindowAfterPacketLoss (c : t) (current : Z) : t * Z :=
  let lastMax := if current <? c.(lastMaxCongestionWindow)
                 then u64 (truncate (F32.mul betaLastMax (F32.ofZ current))) else current in
  (mk c.(numConnections) None c.(appLimitedStartTime) c.(lastUpdateTime) c.(lastCongestionWindow)
     lastMax c.(ackedPacketsCount) c.(estimatedTCPcongestionWindow) c.(originPointCongestionWindow)
     c.(timeToOriginPoint) c.(lastTargetCongestionWindow),
   u64 (truncate (F32.mul (F32.ofZ current) (beta c.(numConnections))))).

(** [uint32(math.Cbrt(float64(cubeFactor * distance)))] *)
Definition timeTo (distance : Z) : Z := u32 (truncate (F64.Cbrt (F64.ofZ (u64 (cubeFactor * distance))))).

(** The start of an epoch, or the shift of the running one. *)
Definition enterEpoch (c : t) (current now : Z) : t :=
  match c.(epoch) with
  | None =>
      let '(time, origin) :=
        if c.(lastMaxCongestionWindow) <=? current then (0, current)
        else (timeTo (u64 (c.(lastMaxCongestionWindow) - current)), c.(lastMaxCongestionWindow)) in
      mk c.(numConnections) (Some now) c.(appLimitedStartTime) c.(lastUpdateTime) c.(lastCongestionWindow)
        c.(lastMaxCongestionWindow) 1 current origin time c.(lastTargetCongestionWindow)
  | Some epoch =>
      match c.(appLimitedStartTime) with
      | None => c
      | Some start =>
          mk c.(numConnections) (Some (epoch + (now - start))) None c.(lastUpdateTime) c.(lastCongestionWindow)
            c.(lastMaxCongestionWindow) c.(ackedPacketsCount) c.(estimatedTCPcongestionWindow)
            c.(originPointCongestionWindow) c.(timeToOriginPoint) c.(lastTargetCongestionWindow)
      end
  end.

(** The time since the start of the epoch, in 1/1024 seconds *)
Definition elapsedTime (now delayMin epoch : Z) : Z :=
  Z.quot (i64 (Z.shiftl (Z.quot (i64 (now + delayMin - epoch)) RTTStats.Microsecond) 10)) 1000000.

Definition cubicTarget (origin timeToOrigin elapsed : Z) : Z :=
  let offset := i64 (timeToOrigin - elapsed) in
  let offset := if offset <? 0 then i64 (- offset) else offset in
  let delta := u64 (Z.shiftr (i64 (cubeCongestionWindowScale * offset * offset * offset)) cubeScale) in
  if timeToOrigin <? elapsed then u64 (origin + delta) else u64 (origin - delta).

(** The packets that must be acknowledged before the window of a TCP Reno
    connection grows from [est]. *)
Definition requiredAckCount (n est : Z) : Z := u64 (truncate (F32.div (F32.ofZ est) (alpha n))).

(** The loop that grows the Reno window. *)
Fixpoint renoLoop (fuel : nat) (n acked est : Z) : Z * Z :=
  match fuel with
  | O => (acked, est)
  | S fuel =>
      let required := requiredAckCount n est in
      if acked <? required then (acked, est)
      else renoLoop fuel n (acked - required) (u64 (est + 1))
  end.

(** Whether the result of the last computation is still good. *)
Definition fresh (c : t) (current now : Z) : bool :=
  (c.(lastCongestionWindow) =? current)
  && match c.(lastUpdateTime) with None => false | Some last => now - last <=? maxCubicTimeInterval end.

(** A round takes at least one packet off [ackedPacketsCount], or the Reno window
    is below [alpha], which is less than the number of connections; the fuel
    covers both. *)
Definition CongestionWindowAfterAck (c : t) (current delayMin now : Z) : t * Z :=
  let acked := u64 (c.(ackedPacketsCount) + 1) in
  if fresh c current now
  then (mk c.(numConnections) c.(epoch) c.(appLimitedStartTime) c.(lastUpdateTime) c.(lastCongestionWindow)
          c.(lastMaxCongestionWindow) acked c.(estimatedTCPcongestionWindow) c.(originPointCongestionWindow)
          c.(timeToOriginPoint) c.(lastTargetCongestionWindow),
        MaxPacketNumber c.(lastTargetCongestionWindow) c.(estimatedTCPcongestionWindow))
  else
    let c := enterEpoch
      (mk c.(numConnections) c.(epoch) c.(appLimitedStartTime) (Some now) current
         c.(lastMaxCongestionWindow) acked c.(estimatedTCPcongestionWindow) c.(originPointCongestionWindow)
         c.(timeToOriginPoint) c.(lastTargetCongestionWindow)) current now in
    let target := cubicTarget c.(originPointCongestionWindow) c.(timeToOriginPoint)
                    (elapsedTime now delayMin (default 0 c.(epoch))) in
    let '(acked, est) := renoLoop (S (S (Z.to_nat (c.(ackedPacketsCount) + c.(numConnections))))) c.(numConnections)
                           c.(ackedPacketsCount) c.(estimatedTCPcongestionWindow) in
    (mk c.(numConnections) c.(epoch) c.(appLimitedStartTime) c.(lastUpdateTime) c.(lastCongestionWindow)
       c.(lastMaxCongestionWindow) acked est c.(originPointCongestionWindow) c.(timeToOriginPoint) target,
     if target <? est then est else target).

Definition SetNumConnections (c : t) (n : Z) : t :=
  mk n c.(epoch) c.(appLimitedStartTime) c.(lastUpdateTime) c.(lastCongestionWindow)
    c.(lastMaxCongestionWindow) c.(ackedPacketsCount) c.(estimatedTCPcongestionWindow)
    c.(originPointCongestionWindow) c.(timeToOriginPoint) c.(lastTargetCongestionWindow).

End Cubic.

(** ** The sender *)

Definition maxBurstBytes : Z := 3 * DefaultTCPMSS.
Definition defaultMinimumCongestionWindow : Z := 2.
Definition renoBeta : flt := F32.const 7 10.

Module CubicSender.

Record t : Type := mk {
  hybridSlowStart : HybridSlowStart.t;
  prr : PrrSender.t;
  slowstartPacketsLost : Z;
  slowstartBytesLost : Z;
  cubic : Cubic.t;
  reno : bool;
  largestSentPacketNumber : Z;
  largestAckedPacketNumber : Z;
  largestSentAtLastCutback : Z;
  congestionWindow : Z;
  slowstartThreshold : Z;
  lastCutbackExitedSlowstart : bool;
  slowStartLargeReduction : bool;
  minCongestionWindow : Z;
  maxTCPCongestionWindow : Z;
  numConnections : Z;
  congestionWindowCount : Z;
  initialCongestionWindow : Z;
  initialMaxCongestionWindow : Z
}.

Definition NewCubicSender (reno : bool) (initial initialMax : Z) : t :=
  mk HybridSlowStart.new PrrSender.new 0 0 Cubic.NewCubic reno 0 0 0 initial initialMax false false
    defaultMinimumCongestionWindow initialMax Cubic.defaultNumConnections 0 initial initialMax.

(** Field updates: the parts, the packet numbers, the window *)

Definition set_parts (c : t) (h : HybridSlowStart.t) (p : PrrSender.t) (cubic : Cubic.t) : t :=
  mk h p c.(slowstartPacketsLost) c.(slowstartBytesLost) cubic c.(reno) c.(largestSentPacketNumber)
    c.(largestAckedPacketNumber) c.(largestSentAtLastCutback) c.(congestionWindow) c.(slowstartThreshold)
    c.(lastCutbackExitedSlowstart) c.(slowStartLargeReduction) c.(minCongestionWindow)
    c.(maxTCPCongestionWindow) c.(numConnections) c.(congestionWindowCount) c.(initialCongestionWindow)
    c.(initialMaxCongestionWindow).

Definition set_stats (c : t) (packets bytes : Z) (exited : bool) : t :=
  mk c.(hybridSlowStart) c.(prr) packets bytes c.(cubic) c.(reno) c.(largestSentPacketNumber)
    c.(largestAckedPacketNumber) c.(largestSentAtLastCutback) c.(congestionWindow) c.(slowstartThreshold)
    exited c.(slowStartLargeReduction) c.(minCongestionWindow)
    c.(maxTCPCongestionWindow) c.(numConnections) c.(congestionWindowCount) c.(initialCongestionWindow)
    c.(initialMaxCongestionWindow).

Definition set_numbers (c : t) (sent acked cutback : Z) : t :=
  mk c.(hybridSlowStart) c.(prr) c.(slowstartPacketsLost) c.(slowstartBytesLost) c.(cubic) c.(reno)
    sent acked cutback c.(congestionWindow) c.(slowstartThreshold)
    c.(lastCutbackExitedSlowstart) c.(slowStartLargeReduction) c.(minCongestionWindow)
    c.(maxTCPCongestionWindow) c.(numConnections) c.(congestionWindowCount) c.(initialCongestionWindow)
    c.(initialMaxCongestionWindow).

Definition set_window (c : t) (window threshold count : Z) : t :=
  mk c.(hybridSlowStart) c.(prr) c.(slowstartPacketsLost) c.(slowstartBytesLost) c.(cubic) c.(reno)
    c.(largestSentPacketNumber) c.(largestAckedPacketNumber) c.(largestSentAtLastCutback) window threshold
    c.(lastCutbackExitedSlowstart) c.(slowStartLargeReduction) c.(minCongestionWindow)
    c.(maxTCPCongestionWindow) c.(numConnections) count c.(initialCongestionWindow)
    c.(initialMaxCongestionWindow).

Definition InRecovery (c : t) : bool :=
  (c.(largestAckedPacketNumber) <=? c.(largestSentAtLastCutback)) && negb (c.(largestAckedPacketNumber) =? 0).

Definition GetCongestionWindow (c : t) : Z := u64 (c.(congestionWindow) * DefaultTCPMSS).
Definition GetSlowStartThreshold (c : t) : Z := u64 (c.(slowstartThreshold) * DefaultTCPMSS).
Definition InSlowStart (c : t) : bool := GetCongestionWindow c <? GetSlowStartThreshold c.

Definition TimeUntilSend (c : t) (bytesInFlight : Z) : Z :=
  if InRecovery c
  then PrrSender.TimeUntilSend c.(prr) (GetCongestionWindow c) bytesInFlight (GetSlowStartThreshold c)
  else if bytesInFlight <? GetCongestionWindow c then 0 else InfDuration.

Definition OnPacketSent (c : t) (packetNumber bytes : Z) (isRetransmittable : bool) : t * bool :=
  if negb isRetransmittable then (c, false)
  else
    let prr := if InRecovery c then PrrSender.OnPacketSent c.(prr) bytes else c.(prr) in
    let c := set_numbers c packetNumber c.(largestAckedPacketNumber) c.(largestSentAtLastCutback) in
    (set_parts c (HybridSlowStart.OnPacketSent c.(hybridSlowStart) packetNumber) prr c.(cubic), true).

Definition ExitSlowstart (c : t) : t :=
  set_window c c.(congestionWindow) c.(congestionWindow) c.(congestionWindowCount).

Definition SlowstartThreshold (c : t) : Z := c.(slowstartThreshold).

Definition MaybeExitSlowStart (c : t) (rtt : RTTStats.t) : t :=
  if InSlowStart c then
    let '(h, exit) := HybridSlowStart.ShouldExitSlowStart c.(hybridSlowStart) (RTTStats.LatestRTT rtt)
                        (RTTStats.MinRTT rtt) (GetCongestionWindow c / DefaultTCPMSS) in
    let c := set_parts c h c.(prr) c.(cubic) in
    if exit then ExitSlowstart c else c
  else c.

Definition isCwndLimited (c : t) (bytesInFlight : Z) : bool :=
  let congestionWindow := GetCongestionWindow c in
  if congestionWindow <=? bytesInFlight then true
  else
    let availableBytes := congestionWindow - bytesInFlight in
    let slowStartLimited := InSlowStart c && (congestionWindow / 2 <? bytesInFlight) in
    slowStartLimited || (availableBytes <=? maxBurstBytes).

Definition maybeIncreaseCwnd (c : t) (rtt : RTTStats.t) (now bytesInFlight : Z) : t :=
  if negb (isCwndLimited c bytesInFlight)
  then set_parts c c.(hybridSlowStart) c.(prr) (Cubic.OnApplicationLimited c.(cubic) now)
  else if c.(maxTCPCongestionWindow) <=? c.(congestionWindow) then c
  else if InSlowStart c
  then set_window c (u64 (c.(congestionWindow) + 1)) c.(slowstartThreshold) c.(congestionWindowCount)
  else if c.(reno) then
    let count := u64 (c.(congestionWindowCount) + 1) in
    if c.(congestionWindow) <=? u64 (count * c.(numConnections))
    then set_window c (u64 (c.(congestionWindow) + 1)) c.(slowstartThreshold) 0
    else set_window c c.(congestionWindow) c.(slowstartThreshold) count
  else
    let '(cubic, window) := Cubic.CongestionWindowAfterAck c.(cubic) c.(congestionWindow) (RTTStats.MinRTT rtt) now in
    set_window (set_parts c c.(hybridSlowStart) c.(prr) cubic)
      (MinPacketNumber c.(maxTCPCongestionWindow) window) c.(slowstartThreshold) c.(congestionWindowCount).

Definition OnPacketAcked (c : t) (rtt : RTTStats.t) (now ackedPacketNumber ackedBytes bytesInFlight : Z) : t :=
  let c := set_numbers c c.(largestSentPacketNumber) (MaxPacketNumber ackedPacketNumber c.(largestAckedPacketNumber))
             c.(largestSentAtLastCutback) in
  if InRecovery c
  then set_parts c c.(hybridSlowStart) (PrrSender.OnPacketAcked c.(prr) ackedBytes) c.(cubic)
  else
    let c := maybeIncreaseCwnd c rtt now bytesInFlight in
    if InSlowStart c
    then set_parts c (HybridSlowStart.OnPacketAcked c.(hybridSlowStart) ackedPacketNumber) c.(prr) c.(cubic)
    else c.

Definition RenoBeta (c : t) : flt :=
  F32.div (F32.add (F32.sub (F32.ofZ c.(numConnections)) (F32.ofZ 1)) renoBeta) (F32.ofZ c.(numConnections)).

(** A loss of a packet that was sent before the last cutback. *)
Definition lostBeforeCutback (c : t) (lostBytes : Z) : t :=
  if c.(lastCutbackExitedSlowstart) then
    let packets := u64 (c.(slowstartPacketsLost) + 1) in
    let bytes := u64 (c.(slowstartBytesLost) + lostBytes) in
    let c := set_stats c packets bytes c.(lastCutbackExitedSlowstart) in
    if c.(slowStartLargeReduction) then
      let window :=
        if (packets =? 1) || (u64 (bytes - lostBytes) / DefaultTCPMSS <? bytes / DefaultTCPMSS)
        then MaxPacketNumber (u64 (c.(congestionWindow) - 1)) c.(minCongestionWindow)
        else c.(congestionWindow) in
      set_window c window window c.(congestionWindowCount)
    else c
  else c.

(** The window after a cutback, before the minimum is enforced *)
Definition cutWindow (c : t) : Cubic.t * Z :=
  if c.(slowStartLargeReduction) && InSlowStart c then (c.(cubic), u64 (c.(congestionWindow) - 1))
  else if c.(reno) then (c.(cubic), u64 (truncate (F32.mul (F32.ofZ c.(congestionWindow)) (RenoBeta c))))
  else Cubic.CongestionWindowAfterPacketLoss c.(cubic) c.(congestionWindow).

Definition OnPacketLost (c : t) (packetNumber lostBytes bytesInFlight : Z) : t :=
  if packetNumber <=? c.(largestSentAtLastCutback) then lostBeforeCutback c lostBytes
  else
    let c := set_stats c (if InSlowStart c then u64 (c.(slowstartPacketsLost) + 1) else c.(slowstartPacketsLost))
               c.(slowstartBytesLost) (InSlowStart c) in
    let c := set_parts c c.(hybridSlowStart) (PrrSender.OnPacketLost c.(prr) bytesInFlight) c.(cubic) in
    let '(cubic, window) := cutWindow c in
    let window := if window <? c.(minCongestionWindow) then c.(minCongestionWindow) else window in
    let c := set_window (set_parts c c.(hybridSlowStart) c.(prr) cubic) window window 0 in
    set_numbers c c.(largestSentPacketNumber) c.(largestAckedPacketNumber) c.(largestSentPacketNumber).

Definition BandwidthEstimate (c : t) (rtt : RTTStats.t) : Z :=
  let srtt := RTTStats.SmoothedRTT rtt in
  if srtt =? 0 then 0 else BandwidthFromDelta (GetCongestionWindow c) srtt.

Definition SetNumEmulatedConnections (c : t) (n : Z) : t :=
  let n := Z.max n 1 in
  mk c.(hybridSlowStart) c.(prr) c.(slowstartPacketsLost) c.(slowstartBytesLost)
    (Cubic.SetNumConnections c.(cubic) n) c.(reno)
    c.(largestSentPacketNumber) c.(largestAckedPacketNumber) c.(largestSentAtLastCutback) c.(congestionWindow)
    c.(slowstartThreshold) c.(lastCutbackExitedSlowstart) c.(slowStartLargeReduction) c.(minCongestionWindow)
    c.(maxTCPCongestionWindow) n c.(congestionWindowCount) c.(initialCongestionWindow)
    c.(initialMaxCongestionWindow).

Definition OnRetransmissionTimeout (c : t) (packetsRetransmitted : bool) : t :=
  let c := set_numbers c c.(largestSentPacketNumber) c.(largestAckedPacketNumber) 0 in
  if negb packetsRetransmitted then c
  else
    set_window (set_parts c (HybridSlowStart.Restart c.(hybridSlowStart)) c.(prr) (Cubic.Reset c.(cubic)))
      c.(minCongestionWindow) (c.(congestionWindow) / 2) c.(congestionWindowCount).

Definition OnConnectionMigration (c : t) : t :=
  mk (HybridSlowStart.Restart c.(hybridSlowStart)) PrrSender.new c.(slowstartPacketsLost) c.(slowstartBytesLost)
    (Cubic.Reset c.(cubic)) c.(reno) 0 0 0 c.(initialCongestionWindow) c.(initialMaxCongestionWindow) false
    c.(slowStartLargeReduction) c.(minCongestionWindow) c.(initialMaxCongestionWindow) c.(numConnections) 0
    c.(initialCongestionWindow) c.(initialMaxCongestionWindow).

Definition SetSlowStartLargeReduction (c : t) (enabled : bool) : t :=
  mk c.(hybridSlowStart) c.(prr) c.(slowstartPacketsLost) c.(slowstartBytesLost) c.(cubic) c.(reno)
    c.(largestSentPacketNumber) c.(largestAckedPacketNumber) c.(largestSentAtLastCutback) c.(congestionWindow)
    c.(slowstartThreshold) c.(lastCutbackExitedSlowstart) enabled c.(minCongestionWindow)
    c.(maxTCPCongestionWindow) c.(numConnections) c.(congestionWindowCount) c.(initialCongestionWindow)
    c.(initialMaxCongestionWindow).

Definition RetransmissionDelay (rtt : RTTStats.t) : Z :=
  if RTTStats.SmoothedRTT rtt =? 0 then 0
  else i64 (RTTStats.SmoothedRTT rtt + i64 (RTTStats.MeanDeviation rtt * 4)).

Definition SmoothedRTT (rtt : RTTStats.t) : Z := RTTStats.SmoothedRTT rtt.

End CubicSender.

(** The sender behind the interface of the sent packet handler. *)
#[global] Instance cubic_send_algorithm : SendAlgorithm CubicSender.t := {
  OnPacketSent c _ _ _ pn bytes retransmittable := (CubicSender.OnPacketSent c pn bytes retransmittable).1;
  GetCongestionWindow := CubicSender.GetCongestionWindow;
  MaybeExitSlowStart := CubicSender.MaybeExitSlowStart;
  OnPacketAcked c rtt now pn bytes inFlight := CubicSender.OnPacketAcked c rtt now pn bytes inFlight;
  OnPacketLost c _ _ pn bytes inFlight := CubicSender.OnPacketLost c pn bytes inFlight;
  OnRetransmissionTimeout := CubicSender.OnRetransmissionTimeout;
  RetransmissionDelay _ rtt := CubicSender.RetransmissionDelay rtt;
  SmoothedRTT _ rtt := CubicSender.SmoothedRTT rtt
}.
