(* ===== verification/CubicProofs.v ===== *)
(** * CUBIC: the congestion window

    The window stays between its minimum and its maximum whatever is sent,
    acknowledged and lost; how it reacts to each event; the loop that follows a
    TCP connection ends. *)

From S2P Require Import Prelude MinMax Float RTTStats GoFloat SentPackets Cubic.

Module CubicProofs.
Import CubicSender.

(** ** The float32 arithmetic of the windows *)

(** The multiplication with the backoff factor of two connections is the one with 17/20. *)
Lemma backoff w : 0 <= w <= DefaultMaxCongestionWindow ->
  truncate (F32.mul (F32.ofZ w) (Cubic.beta 2)) = 17 * w / 20.
Proof.
  unfold DefaultMaxCongestionWindow. intros Hw.
  replace (Cubic.beta 2) with (mkFlt 456340288 (-29)) by reflexivity.
  unfold F32.mul, F32.ofZ, fofZ, fmul, fround. cbn [mant expo]. rewrite (roundBits_small 24 w) by lia.
  unfold truncate. cbn [mant expo]. replace (0 <=? 0 + -29) with false by reflexivity.
  replace (- (0 + -29)) with 29 by reflexivity.
  destruct (roundBits_error 24 (w * 456340288) ltac:(lia) ltac:(lia)) as [H0 Herr].
  pose proof (Z.div_mod (17 * w) 20 ltac:(lia)) as Hdm. pose proof (Z.mod_pos_bound (17 * w) 20 ltac:(lia)).
  set (a := 17 * w / 20) in *.
  pose proof (roundBits_ge 24 (w * 456340288) a 29 ltac:(lia) ltac:(lia) ltac:(lia) ltac:(lia)) as Hge.
  rewrite Z.quot_div_nonneg by lia. symmetry.
  apply (Z.div_unique _ _ a (roundBits 24 (w * 456340288) - 2 ^ 29 * a)); lia.
Qed.

Lemma required_range est : 1 <= est < 2 ^ 30 ->
  1 <= Cubic.requiredAckCount 2 est < 2 ^ 64.
Proof.
  intros He. unfold Cubic.requiredAckCount.
  replace (Cubic.alpha 2) with (mkFlt 130590200 (-27)) by reflexivity.
  unfold F32.div, F32.ofZ, fofZ, fround.
  destruct (roundBits_error 24 est ltac:(lia) ltac:(lia)) as [? Herr].
  pose proof (roundBits_ge 24 est 1 0 ltac:(lia) ltac:(lia) ltac:(lia) ltac:(lia)) as Hge.
  destruct (truncate_div (roundBits 24 est) 130590200 (-27) ltac:(lia) ltac:(lia) eq_refl).
  rewrite u64_small; lia.
Qed.

(** ** The loop of the Reno window *)

Lemma renoLoop_ok fuel : forall acked est,
  (Z.to_nat acked < fuel)%nat -> 0 <= acked -> 1 <= est -> acked + est < 2 ^ 30 ->
  let '(acked', est') := Cubic.renoLoop fuel 2 acked est in
  0 <= acked' < Cubic.requiredAckCount 2 est' /\ est <= est' /\ acked' + est' <= acked + est.
Proof.
  induction fuel as [|fuel IH]; intros acked est Hf Ha He Hb; [lia|]. cbn [Cubic.renoLoop].
  pose proof (required_range est ltac:(lia)) as Hr.
  destruct (Z.ltb_spec acked (Cubic.requiredAckCount 2 est)); [lia|].
  rewrite u64_small by lia.
  specialize (IH (acked - Cubic.requiredAckCount 2 est) (est + 1) ltac:(lia) ltac:(lia) ltac:(lia) ltac:(lia)).
  destruct (Cubic.renoLoop _ _ _ _) as [acked' est']. lia.
Qed.

(** ** The invariants

    [budget] bounds the acknowledgements that CUBIC counted and the growth of
    its Reno window. *)

Definition cubic_inv (budget : Z) (c : Cubic.t) : Prop :=
  c.(Cubic.numConnections) = 2
  /\ 0 <= c.(Cubic.ackedPacketsCount) /\ 0 <= c.(Cubic.lastTargetCongestionWindow)
  /\ c.(Cubic.ackedPacketsCount) + c.(Cubic.estimatedTCPcongestionWindow) <= budget
  /\ (c.(Cubic.lastCongestionWindow) = 0 /\ c.(Cubic.epoch) = None
        /\ c.(Cubic.estimatedTCPcongestionWindow) = 0
      \/ 2 <= c.(Cubic.estimatedTCPcongestionWindow)).

(** The operations of the sender *)
Inductive op : Type :=
| OpSent (pn bytes : Z) (retransmittable : bool)
| OpCheck (rtt : RTTStats.t)
| OpAcked (rtt : RTTStats.t) (now pn bytes inFlight : Z)
| OpLost (pn bytes inFlight : Z)
| OpTimeout (retransmitted : bool)
| OpMigrate
| OpLargeReduction (enabled : bool).

Definition step (c : t) (o : op) : t :=
  match o with
  | OpSent pn bytes r => (OnPacketSent c pn bytes r).1
  | OpCheck rtt => MaybeExitSlowStart c rtt
  | OpAcked rtt now pn bytes inFlight => OnPacketAcked c rtt now pn bytes inFlight
  | OpLost pn bytes inFlight => OnPacketLost c pn bytes inFlight
  | OpTimeout r => OnRetransmissionTimeout c r
  | OpMigrate => OnConnectionMigration c
  | OpLargeReduction b => SetSlowStartLargeReduction c b
  end.

Definition run : t -> list op -> t := foldl step.

Section window.
Context (M : Z) (HM : M <= 2500).

Record sender_inv (budget : Z) (c : t) : Prop := {
  inv_min : c.(minCongestionWindow) = 2;
  inv_conns : c.(numConnections) = 2;
  inv_window : 2 <= c.(congestionWindow) <= c.(maxTCPCongestionWindow);
  inv_max : c.(maxTCPCongestionWindow) = c.(initialMaxCongestionWindow);
  inv_initial : 2 <= c.(initialCongestionWindow) <= c.(initialMaxCongestionWindow);
  inv_limit : c.(initialMaxCongestionWindow) = M;
  inv_threshold : 0 <= c.(slowstartThreshold) <= DefaultMaxCongestionWindow;
  inv_count : 0 <= c.(congestionWindowCount);
  inv_cubic : cubic_inv budget c.(cubic)
}.

Lemma cubic_inv_weaken b b' c : b <= b' -> cubic_inv b c -> cubic_inv b' c.
Proof. unfold cubic_inv. intros ? (? & ? & ? & ? & ?). split_and!; try done; lia. Qed.

Lemma cubic_inv_reset b c : 0 <= b -> cubic_inv b c -> cubic_inv b (Cubic.Reset c).
Proof. unfold cubic_inv. cbn. intros ? (? & _). split_and!; try done. by left. Qed.

Lemma cubicTarget_range origin time elapsed : 0 <= Cubic.cubicTarget origin time elapsed.
Proof. unfold Cubic.cubicTarget. case_match; apply u64_range. Qed.

(** A window after an acknowledgement is at least the minimum, and the loop ran
    to its end unless the last result was used again. *)
Lemma CongestionWindowAfterAck_ok b c current delayMin now :
  cubic_inv b c -> 2 <= current <= DefaultMaxCongestionWindow -> DefaultMaxCongestionWindow <= b < 2 ^ 30 - 2 ->
  let '(c', w) := Cubic.CongestionWindowAfterAck c current delayMin now in
  cubic_inv (b + 1) c' /\ 2 <= w
  /\ (Cubic.fresh c current now = false ->
      c'.(Cubic.ackedPacketsCount) < Cubic.requiredAckCount 2 c'.(Cubic.estimatedTCPcongestionWindow)).
Proof.
  intros (Hn & Ha & Ht & Hb & He) Hcur Hbud. unfold Cubic.CongestionWindowAfterAck, DefaultMaxCongestionWindow in *.
  rewrite u64_small by lia. destruct (Cubic.fresh c current now) eqn:Hfresh.
  - split; [unfold cubic_inv; cbn; split_and!; done || lia|]. split; [|done].
    rewrite MaxPacketNumber_max. apply andb_prop in Hfresh as [Hl%Z.eqb_eq _]. lia.
  - set (c1 := Cubic.enterEpoch _ current now).
    assert (Hc1 : c1.(Cubic.numConnections) = 2 /\ 0 <= c1.(Cubic.ackedPacketsCount)
      /\ 2 <= c1.(Cubic.estimatedTCPcongestionWindow)
      /\ c1.(Cubic.ackedPacketsCount) + c1.(Cubic.estimatedTCPcongestionWindow) <= b + 1).
    { unfold c1, Cubic.enterEpoch. cbn. destruct (Cubic.epoch c) as [ep|] eqn:Hep.
      - destruct (Cubic.appLimitedStartTime c); cbn; split_and!; try done; try lia; naive_solver lia.
      - destruct (_ <=? current); cbn; split_and!; done || lia. }
    destruct Hc1 as (Hn1 & Ha1 & He1 & Hb1). rewrite Hn1.
    pose proof (renoLoop_ok (S (S (Z.to_nat (c1.(Cubic.ackedPacketsCount) + 2)))) c1.(Cubic.ackedPacketsCount)
                  c1.(Cubic.estimatedTCPcongestionWindow) ltac:(lia) ltac:(lia) ltac:(lia) ltac:(lia)) as Hloop.
    destruct (Cubic.renoLoop _ _ _ _) as [acked est]. destruct Hloop as ([? ?] & ? & ?).
    split; [|split; [case_match; lia|done]].
    unfold cubic_inv. cbn. split_and!; try lia. apply cubicTarget_range.
Qed.

(** ** The operations of the sender *)

Lemma MinPacketNumber_between a b : 2 <= a -> 2 <= b -> 2 <= MinPacketNumber a b <= a.
Proof. rewrite MinPacketNumber_min. lia. Qed.

(** A new window within the limits keeps the invariant. *)
Lemma inv_set_window b c w threshold count :
  sender_inv b c -> 2 <= w <= c.(maxTCPCongestionWindow) -> 0 <= threshold <= DefaultMaxCongestionWindow ->
  0 <= count -> sender_inv b (set_window c w threshold count).
Proof. intros []. by constructor. Qed.

Lemma inv_set_parts b b' c h p cubic' :
  sender_inv b c -> cubic_inv b' cubic' -> sender_inv b' (set_parts c h p cubic').
Proof. intros []. by constructor. Qed.

Lemma inv_weaken b b' c : b <= b' -> sender_inv b c -> sender_inv b' c.
Proof. intros Hb []. constructor; try done. by apply (cubic_inv_weaken b). Qed.

Lemma inv_set_numbers b c x y z : sender_inv b c -> sender_inv b (set_numbers c x y z).
Proof. intros []. by constructor. Qed.

Lemma inv_set_stats b c x y z : sender_inv b c -> sender_inv b (set_stats c x y z).
Proof. intros []. by constructor. Qed.

Lemma inv_bounds b c : sender_inv b c -> 2 <= c.(congestionWindow) <= 2500.
Proof. intros []. unfold DefaultMaxCongestionWindow in *. lia. Qed.

Create HintDb cubic.
#[local] Hint Resolve inv_set_numbers inv_set_stats : cubic.

Lemma inv_maybeIncrease b c rtt now inFlight :
  sender_inv b c -> DefaultMaxCongestionWindow <= b < 2 ^ 30 - 2 ->
  sender_inv (b + 1) (maybeIncreaseCwnd c rtt now inFlight).
Proof.
  intros Hi Hb. pose proof Hi as []. pose proof (inv_bounds b c Hi).
  assert (Hi1 : sender_inv (b + 1) c) by (apply (inv_weaken b); [lia|done]).
  unfold DefaultMaxCongestionWindow in *. unfold maybeIncreaseCwnd. case_match.
  { apply (inv_set_parts (b + 1)); [done|]. unfold Cubic.OnApplicationLimited. case_match; [apply Hi1|].
    destruct (inv_cubic _ _ Hi1) as (? & ? & ? & ? & ?). done. }
  destruct (Z.leb_spec c.(maxTCPCongestionWindow) c.(congestionWindow)); [done|].
  case_match; [rewrite u64_small by lia; apply inv_set_window; auto; lia|].
  case_match.
  { case_match; [rewrite u64_small by lia|]; apply inv_set_window; auto; try lia. apply u64_range. }
  pose proof (CongestionWindowAfterAck_ok b c.(cubic) c.(congestionWindow) (RTTStats.MinRTT rtt) now) as Hc.
  destruct (Cubic.CongestionWindowAfterAck _ _ _ _) as [cubic' w].
  destruct Hc as (Hc & Hw & _); [done|unfold DefaultMaxCongestionWindow; lia..|].
  apply inv_set_window; auto; [by apply (inv_set_parts (b + 1))|]. apply MinPacketNumber_between; cbn; lia.
Qed.

(** The window after a cutback. *)
Lemma cutWindow_ok b c : sender_inv b c ->
  let '(cubic', w) := cutWindow c in
  cubic_inv b cubic' /\ 0 <= w <= c.(congestionWindow)
  /\ (c.(slowStartLargeReduction) = false -> w = 17 * c.(congestionWindow) / 20).
Proof.
  intros Hi. pose proof Hi as []. pose proof (inv_bounds b c Hi). unfold cutWindow.
  assert (Hw : 0 <= 17 * c.(congestionWindow) / 20 <= c.(congestionWindow))
    by (split; [apply Z.div_pos; lia|apply Z.div_le_upper_bound; lia]).
  destruct (c.(slowStartLargeReduction) && InSlowStart c) eqn:Hl.
  { rewrite u64_small by lia. split_and!; try done; try lia. intros E. by rewrite E in Hl. }
  destruct c.(reno).
  - unfold RenoBeta. rewrite inv_conns0. change (F32.div _ _) with (Cubic.beta 2).
    rewrite backoff, u64_small by (unfold DefaultMaxCongestionWindow; lia). done.
  - unfold Cubic.CongestionWindowAfterPacketLoss. destruct inv_cubic0 as (Hn & ? & ? & ? & Hest). rewrite Hn.
    rewrite (backoff c.(congestionWindow)), (u64_small (17 * _ / _)) by (unfold DefaultMaxCongestionWindow; lia).
    split; [|done]. unfold cubic_inv. cbn. split_and!; try done. destruct Hest as [(? & ? & ?)|?]; auto.
Qed.

Lemma step_window b c o : sender_inv b c -> DefaultMaxCongestionWindow <= b < 2 ^ 30 - 2 ->
  sender_inv (b + 1) (step c o).
Proof.
  intros Hi Hb. pose proof Hi as []. pose proof (inv_bounds b c Hi).
  assert (Hi1 : sender_inv (b + 1) c) by (apply (inv_weaken b); [lia|done]). pose proof (inv_cubic _ _ Hi1).
  unfold DefaultMaxCongestionWindow in *. destruct o; cbn [step].
  - unfold OnPacketSent. case_match; [done|]. cbn [fst]. apply (inv_set_parts (b + 1)); auto with cubic.
  - unfold MaybeExitSlowStart. case_match; [|done]. destruct (HybridSlowStart.ShouldExitSlowStart _ _ _ _) as [h e].
    assert (sender_inv (b + 1) (set_parts c h c.(prr) c.(cubic))) by (by apply (inv_set_parts (b + 1))).
    destruct e; [|done]. apply inv_set_window; cbn; auto; unfold DefaultMaxCongestionWindow; lia.
  - unfold OnPacketAcked. set (c1 := set_numbers _ _ _ _).
    assert (Hc1 : sender_inv b c1) by (unfold c1; auto with cubic).
    case_match; [by apply (inv_set_parts b)|].
    pose proof (inv_maybeIncrease b c1 rtt now inFlight Hc1) as Hm. unfold DefaultMaxCongestionWindow in Hm.
    case_match; [apply (inv_set_parts (b + 1)); [|apply inv_cubic]|]; apply Hm; lia.
  - unfold OnPacketLost. case_match.
    { unfold lostBeforeCutback. case_match; [|done]. case_match; [|auto with cubic]. set (w := if _ || _ then _ else _).
      assert (2 <= w <= c.(congestionWindow)).
      { unfold w. case_match; cbn; [|lia]. rewrite MaxPacketNumber_max, u64_small by lia. lia. }
      apply inv_set_window; auto with cubic; cbn; unfold DefaultMaxCongestionWindow; lia. }
    set (c2 := set_parts (set_stats _ _ _ _) _ _ _).
    assert (Hc2 : sender_inv b c2) by (unfold c2; apply (inv_set_parts b); auto with cubic).
    pose proof (cutWindow_ok b c2 Hc2) as Hcut. destruct (cutWindow c2) as [cubic' w].
    destruct Hcut as (Hcub & Hw & _). change (congestionWindow c2) with c.(congestionWindow) in Hw.
    change (minCongestionWindow c2) with c.(minCongestionWindow). rewrite inv_min0.
    set (w' := if w <? 2 then 2 else w). assert (2 <= w' <= c.(congestionWindow)) by (unfold w'; case_match; lia).
    apply inv_set_numbers, inv_set_window; cbn; unfold DefaultMaxCongestionWindow; try lia.
    apply (inv_set_parts b); [done|]. apply (cubic_inv_weaken b); [lia|done].
  - unfold OnRetransmissionTimeout. case_match; [auto with cubic|].
    assert (0 <= c.(congestionWindow) / 2 <= 2500)
      by (split; [apply Z.div_pos; lia|apply Z.div_le_upper_bound; lia]).
    apply inv_set_window; cbn; unfold DefaultMaxCongestionWindow; try lia.
    apply (inv_set_parts (b + 1)); auto with cubic. apply cubic_inv_reset; [lia|done].
  - constructor; cbn; unfold DefaultMaxCongestionWindow; try done; try lia.
    apply cubic_inv_reset; [lia|done].
  - by constructor.
Qed.

Lemma run_window ops : forall b c, sender_inv b c -> DefaultMaxCongestionWindow <= b ->
  b + Z.of_nat (length ops) < 2 ^ 30 - 2 -> sender_inv (b + Z.of_nat (length ops)) (run c ops).
Proof.
  induction ops as [|o ops IH]; intros b c Hi Hb Hl; cbn [run foldl length] in *.
  - by rewrite Z.add_0_r.
  - replace (b + Z.of_nat (S (length ops))) with (b + 1 + Z.of_nat (length ops)) by lia.
    apply IH; [apply step_window; [done|]|..]; lia.
Qed.

Lemma new_window reno initial : 2 <= initial <= M ->
  sender_inv DefaultMaxCongestionWindow (NewCubicSender reno initial M).
Proof.
  intros ?. constructor; cbn; try done; try (unfold DefaultMaxCongestionWindow in *; lia).
  unfold cubic_inv, DefaultMaxCongestionWindow. cbn. split_and!; try lia; try done. by left.
Qed.

End window.

(** ** The window *)

(** Whether the sender is in recovery once packet [pn] is acknowledged. *)
Definition recovering (c : t) (pn : Z) : Prop :=
  Z.max pn c.(largestAckedPacketNumber) <= c.(largestSentAtLastCutback)
  /\ Z.max pn c.(largestAckedPacketNumber) <> 0.

Lemma acked_window M b c rtt now pn bytes inFlight :
  M <= 2500 -> sender_inv M b c ->
  let c' := OnPacketAcked c rtt now pn bytes inFlight in
  (recovering c pn \/ isCwndLimited c inFlight = false -> c'.(congestionWindow) = c.(congestionWindow))
  /\ (~ recovering c pn -> isCwndLimited c inFlight = true -> c.(congestionWindow) < c.(slowstartThreshold) ->
      c.(congestionWindow) < c.(maxTCPCongestionWindow) -> c'.(congestionWindow) = c.(congestionWindow) + 1).
Proof.
  intros HM Hi. pose proof (inv_bounds M HM b c Hi) as Hw. pose proof (inv_threshold M b c Hi) as Ht. cbn zeta.
  unfold OnPacketAcked, recovering. set (c1 := set_numbers _ _ _ _).
  assert (Hlim : isCwndLimited c1 inFlight = isCwndLimited c inFlight) by reflexivity.
  assert (Hrec : InRecovery c1 = true <-> Z.max pn c.(largestAckedPacketNumber) <= c.(largestSentAtLastCutback)
    /\ Z.max pn c.(largestAckedPacketNumber) <> 0).
  { unfold InRecovery, c1. cbn. rewrite MaxPacketNumber_max, andb_true_iff, negb_true_iff, Z.leb_le, Z.eqb_neq. done. }
  assert (Hss : InSlowStart c1 = true <-> c.(congestionWindow) < c.(slowstartThreshold)).
  { unfold InSlowStart, GetCongestionWindow, GetSlowStartThreshold, DefaultTCPMSS, DefaultMaxCongestionWindow in *. cbn.
    rewrite !u64_small, Z.ltb_lt by lia. lia. }
  assert (Hpost : forall x : t, (if InSlowStart x
    then set_parts x (HybridSlowStart.OnPacketAcked x.(hybridSlowStart) pn) x.(prr) x.(cubic) else x).(congestionWindow)
    = x.(congestionWindow)) by (intros x; by destruct (InSlowStart x)).
  split.
  - intros [Hr|Hl].
    + rewrite (proj2 Hrec Hr). reflexivity.
    + destruct (InRecovery c1); [reflexivity|]. rewrite Hpost. unfold maybeIncreaseCwnd. by rewrite Hlim, Hl.
  - intros Hr Hl Hs Hmax. destruct (InRecovery c1); [by destruct Hr; apply Hrec|]. rewrite Hpost.
    unfold maybeIncreaseCwnd. rewrite Hlim, Hl. cbn [negb].
    destruct (Z.leb_spec c1.(maxTCPCongestionWindow) c1.(congestionWindow)); [cbn in *; lia|].
    rewrite (proj2 Hss Hs). cbn. apply u64_small. lia.
Qed.

Lemma lost_window M b c pn bytes inFlight :
  M <= 2500 -> sender_inv M b c -> c.(slowStartLargeReduction) = false ->
  let c' := OnPacketLost c pn bytes inFlight in
  if pn <=? c.(largestSentAtLastCutback) then c'.(congestionWindow) = c.(congestionWindow)
  else c'.(congestionWindow) = Z.max 2 (17 * c.(congestionWindow) / 20)
       /\ c'.(slowstartThreshold) = c'.(congestionWindow)
       /\ c'.(largestSentAtLastCutback) = c.(largestSentPacketNumber).
Proof.
  intros HM Hi Hl. cbn zeta. unfold OnPacketLost. destruct (pn <=? _).
  { unfold lostBeforeCutback. destruct c.(lastCutbackExitedSlowstart); [|done]. cbn. by rewrite Hl. }
  set (c2 := set_parts (set_stats _ _ _ _) _ _ _).
  assert (Hc2 : sender_inv M b c2) by (unfold c2; apply (inv_set_parts M b); [by apply inv_set_stats|apply Hi]).
  pose proof (cutWindow_ok M HM b c2 Hc2) as Hcut. destruct (cutWindow c2) as [cubic' w].
  destruct Hcut as (_ & _ & Hw). specialize (Hw Hl). change (congestionWindow c2) with c.(congestionWindow) in Hw.
  subst w. change (minCongestionWindow c2) with c.(minCongestionWindow). rewrite (inv_min _ _ _ Hi).
  split_and!; [|reflexivity..]. cbn. destruct (Z.ltb_spec (17 * c.(congestionWindow) / 20) 2); lia.
Qed.

(** C13: the congestion window of CUBIC.  After every sequence of fewer than 2^29
    sent, acknowledged and lost packets, timeouts and migrations: the window is
    between 2 packets and the maximum, and its size in bytes does not overflow;
    the first loss after a cutback multiplies it with 17/20 (at least 2 packets)
    and ends slow start, and no packet that was sent before the cutback changes
    it again; it does not change in recovery or while the sender does not use
    it, and grows by one packet per acknowledgement in slow start; a timeout sets
    it to 2 packets; and the loop that computes the window of a TCP connection
    ends. *)
Theorem cubic_window (reno : bool) (initial max : Z) (ops : list op)
  (Hinit : 2 <= initial <= max) (Hmax : max <= DefaultMaxCongestionWindow) (Hlen : Z.of_nat (length ops) < 2 ^ 29) :
  let c := run (NewCubicSender reno initial max) ops in
  2 <= c.(congestionWindow) <= max
  /\ GetCongestionWindow c = c.(congestionWindow) * DefaultTCPMSS
  /\ (forall pn bytes inFlight, c.(slowStartLargeReduction) = false ->
       let c' := OnPacketLost c pn bytes inFlight in
       if pn <=? c.(largestSentAtLastCutback) then c'.(congestionWindow) = c.(congestionWindow)
       else c'.(congestionWindow) = Z.max 2 (17 * c.(congestionWindow) / 20)
            /\ c'.(slowstartThreshold) = c'.(congestionWindow)
            /\ c'.(largestSentAtLastCutback) = c.(largestSentPacketNumber))
  /\ (forall rtt now pn bytes inFlight,
       let c' := OnPacketAcked c rtt now pn bytes inFlight in
       (recovering c pn \/ isCwndLimited c inFlight = false -> c'.(congestionWindow) = c.(congestionWindow))
       /\ (~ recovering c pn -> isCwndLimited c inFlight = true -> c.(congestionWindow) < c.(slowstartThreshold) ->
           c.(congestionWindow) < max -> c'.(congestionWindow) = c.(congestionWindow) + 1))
  /\ (OnRetransmissionTimeout c true).(congestionWindow) = 2
  /\ (forall delayMin now, Cubic.fresh c.(cubic) c.(congestionWindow) now = false ->
       let cubic' := (Cubic.CongestionWindowAfterAck c.(cubic) c.(congestionWindow) delayMin now).1 in
       cubic'.(Cubic.ackedPacketsCount) < Cubic.requiredAckCount 2 cubic'.(Cubic.estimatedTCPcongestionWindow)).
Proof.
  pose proof (run_window max Hmax ops DefaultMaxCongestionWindow (NewCubicSender reno initial max)
                (new_window max Hmax reno initial Hinit) ltac:(lia) ltac:(unfold DefaultMaxCongestionWindow; lia)) as Hi.
  cbn zeta. set (c := run _ ops) in *. set (b := DefaultMaxCongestionWindow + _) in *.
  pose proof (inv_bounds max Hmax b c Hi) as Hw. pose proof Hi as [].
  split; [lia|]. split; [unfold GetCongestionWindow, DefaultTCPMSS; rewrite u64_small; lia|].
  split; [intros pn bytes inFlight Hl; exact (lost_window max b c pn bytes inFlight Hmax Hi Hl)|].
  split; [intros rtt now pn bytes inFlight|split; [exact inv_min0|]].
  { destruct (acked_window max b c rtt now pn bytes inFlight Hmax Hi) as [H1 H2]. split; [done|].
    intros. apply H2; auto. lia. }
  intros delayMin now Hf. cbn zeta.
  pose proof (CongestionWindowAfterAck_ok b c.(cubic) c.(congestionWindow) delayMin now) as Hc.
  destruct (Cubic.CongestionWindowAfterAck _ _ _ _) as [cubic' w].
  destruct Hc as (_ & _ & Hc); [done|unfold DefaultMaxCongestionWindow in *; lia..|by apply Hc].
Qed.

(** Slow start, a loss, recovery, and CUBIC's growth a second and two later. *)
Definition demo_ops : list op :=
  [OpSent 1 1350 true; OpSent 40 1350 true; OpAcked RTTStats.NewRTTStats 1000 1 1350 46720;
   OpLost 2 1350 46720; OpLost 3 1350 40000; OpAcked RTTStats.NewRTTStats 2000 39 1350 40880; OpSent 41 1350 true;
   OpAcked RTTStats.NewRTTStats 1000000000 41 1350 40880; OpAcked RTTStats.NewRTTStats 3000000000 42 1350 40880].

Lemma cubic_window_witness :
  let c := run (NewCubicSender false InitialCongestionWindow DefaultMaxCongestionWindow) demo_ops in
  2 <= c.(congestionWindow) <= 2500 /\ c.(congestionWindow) = 33 /\ c.(slowstartThreshold) = 28
  /\ (OnPacketLost c 50 1350 40880).(congestionWindow) = 28
  /\ (OnPacketAcked c RTTStats.NewRTTStats 3000000001 43 1350 0).(congestionWindow) = 33.
Proof.
  pose proof (cubic_window false InitialCongestionWindow DefaultMaxCongestionWindow demo_ops
                ltac:(vm_compute; split; congruence) ltac:(vm_compute; congruence) ltac:(vm_compute; reflexivity))
    as (Hw & _ & Hlost & Hacked & _).
  cbn zeta in *. set (c := run _ demo_ops) in *.
  assert (Hc : c.(congestionWindow) = 33 /\ c.(slowstartThreshold) = 28 /\ c.(slowStartLargeReduction) = false
    /\ c.(largestSentAtLastCutback) = 40 /\ isCwndLimited c 0 = false) by (vm_compute; repeat split; reflexivity).
  destruct Hc as (Hcw & Hss & Hl & Hcb & Hlim).
  split; [exact Hw|]. split; [exact Hcw|]. split; [exact Hss|]. split.
  - specialize (Hlost 50 1350 40880 Hl). rewrite Hcb in Hlost. destruct Hlost as [-> _]. rewrite Hcw. reflexivity.
  - rewrite <- Hcw. apply Hacked. by right.
Defined.

End CubicProofs.
