(* ===== verification/Olia.v ===== *)
(** * OLIA congestion control ([congestion/olia.go], [olia_sender.go])

    The coupled congestion controller of the paths beside the initial one.  Every
    sender of a session has a pointer to the same map of all senders, so the
    model is a store of senders by path; a call on one of them gets the store and
    the identifier of its path.  The round-trip statistics that a sender shares
    with its path are a function of the path; the order in which Go visits the
    map is an argument. *)

From S2P Require Import Prelude MinMax Float RTTStats GoFloat SentPackets Cubic.

Definition scale : Z := 10.

(** ** The algorithm of one path *)

Module Olia.

Record t : Type := mk {
  loss1 : Z;
  loss2 : Z;
  loss3 : Z;
  epsilonNum : Z;
  epsilonDen : Z;
  sndCwndCnt : Z
}.

Definition NewOlia (ackedBytes : Z) : t := mk ackedBytes ackedBytes ackedBytes 0 1 0.

Definition oliaScale (val : Z) : Z := u64 (Z.shiftl val scale).

Definition Reset (o : t) : t := mk 0 0 0 0 1 0.

Definition SmoothedBytesBetweenLosses (o : t) : Z :=
  MaxByteCount (u64 (o.(loss3) - o.(loss2))) (u64 (o.(loss2) - o.(loss1))).

Definition UpdateAckedSinceLastLoss (o : t) (ackedBytes : Z) : t :=
  mk o.(loss1) o.(loss2) (u64 (o.(loss3) + ackedBytes)) o.(epsilonNum) o.(epsilonDen) o.(sndCwndCnt).

Definition OnPacketLost (o : t) : t := mk o.(loss2) o.(loss3) o.(loss3) o.(epsilonNum) o.(epsilonDen) o.(sndCwndCnt).

Definition set_epsilon (o : t) (num den : Z) : t := mk o.(loss1) o.(loss2) o.(loss3) num den o.(sndCwndCnt).
Definition set_count (o : t) (cnt : Z) : t := mk o.(loss1) o.(loss2) o.(loss3) o.(epsilonNum) o.(epsilonDen) cnt.

(** The counter after the increasing or decreasing term was added. *)
Definition nextCount (o : t) (current rate cwndScaled : Z) : Z :=
  let incDen := u64 (u64 (o.(epsilonDen) * current) * rate) in
  let incDen := if incDen =? 0 then 1 else incDen in
  let square := u64 (u64 (o.(epsilonDen) * cwndScaled) * cwndScaled) in
  if o.(epsilonNum) =? -1 then
    if square <? rate then i64 (o.(sndCwndCnt) - i64 (oliaScale (rate - square) / incDen))
    else i64 (o.(sndCwndCnt) + i64 (oliaScale (square - rate) / incDen))
  else
    let incNum := u64 (u64 (u64 o.(epsilonNum) * rate) + square) in
    i64 (o.(sndCwndCnt) + i64 (oliaScale incNum / incDen)).

Definition CongestionWindowAfterAck (o : t) (current rate cwndScaled : Z) : t * Z :=
  let cnt := nextCount o current rate cwndScaled in
  if Z.shiftl 1 scale - 1 <=? cnt then (set_count o 0, u64 (current + 1))
  else if cnt <=? 0 - Z.shiftl 1 scale + 1 then (set_count o 0, MaxPacketNumber 1 (u64 (current - 1)))
  else (set_count o cnt, current).

End Olia.

(** ** The sender of one path *)

Module OliaSender.

Record t : Type := mk {
  hybridSlowStart : HybridSlowStart.t;
  prr : PrrSender.t;
  slowstartPacketsLost : Z;
  slowstartBytesLost : Z;
  olia : Olia.t;
  largestSentPacketNumber : Z;
  largestAckedPacketNumber : Z;
  largestSentAtLastCutback : Z;
  congestionWindow : Z;
  slowstartThreshold : Z;
  lastCutbackExitedSlowstart : bool;
  slowStartLargeReduction : bool;
  minCongestionWindow : Z;
  maxTCPCongestionWindow : Z;
  numConnections : Z;
  congestionWindowCount : Z;
  initialCongestionWindow : Z;
  initialMaxCongestionWindow : Z
}.

Definition NewOliaSender (initial initialMax : Z) : t :=
  mk HybridSlowStart.new PrrSender.new 0 0 (Olia.NewOlia 0) 0 0 0 initial initialMax false false
    defaultMinimumCongestionWindow initialMax Cubic.defaultNumConnections 0 initial initialMax.

Definition set_parts (c : t) (h : HybridSlowStart.t) (p : PrrSender.t) (olia : Olia.t) : t :=
  mk h p c.(slowstartPacketsLost) c.(slowstartBytesLost) olia c.(largestSentPacketNumber)
    c.(largestAckedPacketNumber) c.(largestSentAtLastCutback) c.(congestionWindow) c.(slowstartThreshold)
    c.(lastCutbackExitedSlowstart) c.(slowStartLargeReduction) c.(minCongestionWindow)
    c.(maxTCPCongestionWindow) c.(numConnections) c.(congestionWindowCount) c.(initialCongestionWindow)
    c.(initialMaxCongestionWindow).

Definition set_stats (c : t) (packets bytes : Z) (exited : bool) : t :=
  mk c.(hybridSlowStart) c.(prr) packets bytes c.(olia) c.(largestSentPacketNumber)
    c.(largestAckedPacketNumber) c.(largestSentAtLastCutback) c.(congestionWindow) c.(slowstartThreshold)
    exited c.(slowStartLargeReduction) c.(minCongestionWindow)
    c.(maxTCPCongestionWindow) c.(numConnections) c.(congestionWindowCount) c.(initialCongestionWindow)
    c.(initialMaxCongestionWindow).

Definition set_numbers (c : t) (sent acked cutback : Z) : t :=
  mk c.(hybridSlowStart) c.(prr) c.(slowstartPacketsLost) c.(slowstartBytesLost) c.(olia)
    sent acked cutback c.(congestionWindow) c.(slowstartThreshold)
    c.(lastCutbackExitedSlowstart) c.(slowStartLargeReduction) c.(minCongestionWindow)
    c.(maxTCPCongestionWindow) c.(numConnections) c.(congestionWindowCount) c.(initialCongestionWindow)
    c.(initialMaxCongestionWindow).

Definition set_window (c : t) (window threshold count : Z) : t :=
  mk c.(hybridSlowStart) c.(prr) c.(slowstartPacketsLost) c.(slowstartBytesLost) c.(olia)
    c.(largestSentPacketNumber) c.(largestAckedPacketNumber) c.(largestSentAtLastCutback) window threshold
    c.(lastCutbackExitedSlowstart) c.(slowStartLargeReduction) c.(minCongestionWindow)
    c.(maxTCPCongestionWindow) c.(numConnections) count c.(initialCongestionWindow)
    c.(initialMaxCongestionWindow).

Definition set_olia (c : t) (o : Olia.t) : t := set_parts c c.(hybridSlowStart) c.(prr) o.

Definition InRecovery (c : t) : bool :=
  (c.(largestAckedPacketNumber) <=? c.(largestSentAtLastCutback)) && negb (c.(largestAckedPacketNumber) =? 0).

Definition GetCongestionWindow (c : t) : Z := u64 (c.(congestionWindow) * DefaultTCPMSS).
Definition GetSlowStartThreshold (c : t) : Z := u64 (c.(slowstartThreshold) * DefaultTCPMSS).
Definition InSlowStart (c : t) : bool := GetCongestionWindow c <? GetSlowStartThreshold c.
Definition SlowstartThreshold (c : t) : Z := c.(slowstartThreshold).

Definition TimeUntilSend (c : t) (bytesInFlight : Z) : Z :=
  if InRecovery c
  then PrrSender.TimeUntilSend c.(prr) (GetCongestionWindow c) bytesInFlight (GetSlowStartThreshold c)
  else if bytesInFlight <? GetCongestionWindow c then 0 else InfDuration.

Definition OnPacketSent (c : t) (packetNumber bytes : Z) (isRetransmittable : bool) : t * bool :=
  if negb isRetransmittable then (c, false)
  else
    let prr := if InRecovery c then PrrSender.OnPacketSent c.(prr) bytes else c.(prr) in
    let c := set_numbers c packetNumber c.(largestAckedPacketNumber) c.(largestSentAtLastCutback) in
    (set_parts c (HybridSlowStart.OnPacketSent c.(hybridSlowStart) packetNumber) prr c.(olia), true).

Definition ExitSlowstart (c : t) : t :=
  set_window c c.(congestionWindow) c.(congestionWindow) c.(congestionWindowCount).

Definition MaybeExitSlowStart (c : t) (rtt : RTTStats.t) : t :=
  if InSlowStart c then
    let '(h, exit) := HybridSlowStart.ShouldExitSlowStart c.(hybridSlowStart) (RTTStats.LatestRTT rtt)
                        (RTTStats.MinRTT rtt) (GetCongestionWindow c / DefaultTCPMSS) in
    let c := set_parts c h c.(prr) c.(olia) in
    if exit then ExitSlowstart c else c
  else c.

Definition isCwndLimited (c : t) (bytesInFlight : Z) : bool :=
  let congestionWindow := GetCongestionWindow c in
  if congestionWindow <=? bytesInFlight then true
  else
    let availableBytes := congestionWindow - bytesInFlight in
    let slowStartLimited := InSlowStart c && (congestionWindow / 2 <? bytesInFlight) in
    slowStartLimited || (availableBytes <=? maxBurstBytes).

Definition RenoBeta (c : t) : flt :=
  F32.div (F32.add (F32.sub (F32.ofZ c.(numConnections)) (F32.ofZ 1)) renoBeta) (F32.ofZ c.(numConnections)).

(** A loss of a packet that was sent before the last cutback. *)
Definition lostBeforeCutback (c : t) (lostBytes : Z) : t :=
  if c.(lastCutbackExitedSlowstart) then
    let packets := u64 (c.(slowstartPacketsLost) + 1) in
    let bytes := u64 (c.(slowstartBytesLost) + lostBytes) in
    let c := set_stats c packets bytes c.(lastCutbackExitedSlowstart) in
    if c.(slowStartLargeReduction) then
      let window :=
        if (packets =? 1) || (u64 (bytes - lostBytes) / DefaultTCPMSS <? bytes / DefaultTCPMSS)
        then MaxPacketNumber (u64 (c.(congestionWindow) - 1)) c.(minCongestionWindow)
        else c.(congestionWindow) in
      set_window c window window c.(congestionWindowCount)
    else c
  else c.

Definition cutWindow (c : t) : Z :=
  if c.(slowStartLargeReduction) && InSlowStart c then u64 (c.(congestionWindow) - 1)
  else u64 (truncate (F32.mul (F32.ofZ c.(congestionWindow)) (RenoBeta c))).

Definition OnPacketLost (c : t) (packetNumber lostBytes bytesInFlight : Z) : t :=
  if packetNumber <=? c.(largestSentAtLastCutback) then lostBeforeCutback c lostBytes
  else
    let c := set_stats c (if InSlowStart c then u64 (c.(slowstartPacketsLost) + 1) else c.(slowstartPacketsLost))
               c.(slowstartBytesLost) (InSlowStart c) in
    let c := set_parts c c.(hybridSlowStart) (PrrSender.OnPacketLost c.(prr) bytesInFlight) (Olia.OnPacketLost c.(olia)) in
    let window := cutWindow c in
    let window := if window <? c.(minCongestionWindow) then c.(minCongestionWindow) else window in
    let c := set_window c window window 0 in
    set_numbers c c.(largestSentPacketNumber) c.(largestAckedPacketNumber) c.(largestSentPacketNumber).

Definition SetNumEmulatedConnections (c : t) (n : Z) : t :=
  mk c.(hybridSlowStart) c.(prr) c.(slowstartPacketsLost) c.(slowstartBytesLost) c.(olia)
    c.(largestSentPacketNumber) c.(largestAckedPacketNumber) c.(largestSentAtLastCutback) c.(congestionWindow)
    c.(slowstartThreshold) c.(lastCutbackExitedSlowstart) c.(slowStartLargeReduction) c.(minCongestionWindow)
    c.(maxTCPCongestionWindow) (Z.max n 1) c.(congestionWindowCount) c.(initialCongestionWindow)
    c.(initialMaxCongestionWindow).

Definition OnRetransmissionTimeout (c : t) (packetsRetransmitted : bool) : t :=
  let c := set_numbers c c.(largestSentPacketNumber) c.(largestAckedPacketNumber) 0 in
  if negb packetsRetransmitted then c
  else
    set_window (set_parts c (HybridSlowStart.Restart c.(hybridSlowStart)) c.(prr) (Olia.Reset c.(olia)))
      c.(minCongestionWindow) (c.(congestionWindow) / 2) c.(congestionWindowCount).

Definition OnConnectionMigration (c : t) : t :=
  mk (HybridSlowStart.Restart c.(hybridSlowStart)) PrrSender.new c.(slowstartPacketsLost) c.(slowstartBytesLost)
    (Olia.Reset c.(olia)) 0 0 0 c.(initialCongestionWindow) c.(initialMaxCongestionWindow) false
    c.(slowStartLargeReduction) c.(minCongestionWindow) c.(initialMaxCongestionWindow) c.(numConnections) 0
    c.(initialCongestionWindow) c.(initialMaxCongestionWindow).

Definition SetSlowStartLargeReduction (c : t) (enabled : bool) : t :=
  mk c.(hybridSlowStart) c.(prr) c.(slowstartPacketsLost) c.(slowstartBytesLost) c.(olia)
    c.(largestSentPacketNumber) c.(largestAckedPacketNumber) c.(largestSentAtLastCutback) c.(congestionWindow)
    c.(slowstartThreshold) c.(lastCutbackExitedSlowstart) enabled c.(minCongestionWindow)
    c.(maxTCPCongestionWindow) c.(numConnections) c.(congestionWindowCount) c.(initialCongestionWindow)
    c.(initialMaxCongestionWindow).

Definition RetransmissionDelay (rtt : RTTStats.t) : Z :=
  if RTTStats.SmoothedRTT rtt =? 0 then 0
  else i64 (RTTStats.SmoothedRTT rtt + i64 (RTTStats.MeanDeviation rtt * 4)).
Definition SmoothedRTT (rtt : RTTStats.t) : Z := RTTStats.SmoothedRTT rtt.
Definition BandwidthEstimate (c : t) (rtt : RTTStats.t) : Z :=
  let srtt := RTTStats.SmoothedRTT rtt in
  if srtt =? 0 then 0 else BandwidthFromDelta (GetCongestionWindow c) srtt.

End OliaSender.

(** ** The senders of a session *)

Module OliaSenders.
Import OliaSender.

(** [oliaSenders], the map shared by all senders. *)
Abbreviation store := (gmap Z t).

Section WithRTT.
(** The round-trip statistics of the paths, and the order in which the map is
    visited. *)
Context (rttStats : Z -> RTTStats.t) (order : list Z).

(** [for _, os := range m]: the visited senders with their paths. *)
Definition visited (m : store) : list (Z * t) := omap (fun id => (id,.) <$> m !! id) order.

Definition getMaxCwnd (m : store) : Z :=
  foldl (fun bestCwnd e => MaxPacketNumber bestCwnd e.2.(congestionWindow)) 0 (visited m).

(** [scaledNum / uint64(srtt)]: the conversion of a negative RTT wraps around. *)
Definition getRate (m : store) (pathRTT : Z) : Z :=
  let rate := foldl (fun rate e =>
    let scaledNum := u64 (Olia.oliaScale e.2.(congestionWindow) * u64 pathRTT) in
    let srtt := RTTStats.SmoothedRTT (rttStats e.1) in
    if negb (srtt =? 0) then u64 (rate + scaledNum / u64 srtt) else rate) 1 (visited m) in
  u64 (rate * rate).

Definition squaredRTT (id : Z) : Z :=
  i64 (RTTStats.SmoothedRTT (rttStats id) * RTTStats.SmoothedRTT (rttStats id)).

(** [int64(tmpBytes) * bestRTT >= int64(bestBytes) * tmpRTT] *)
Definition isBest (bestRTT bestBytes : Z) (e : Z * t) : bool :=
  let tmpBytes := Olia.SmoothedBytesBetweenLosses e.2.(olia) in
  i64 (i64 bestBytes * squaredRTT e.1) <=? i64 (i64 tmpBytes * bestRTT).

(** The first loop of [getEpsilon]: [(bestRTT, bestBytes)] *)
Definition findBest (m : store) : Z * Z :=
  foldl (fun best e =>
    if isBest best.1 best.2 e then (squaredRTT e.1, Olia.SmoothedBytesBetweenLosses e.2.(olia)) else best)
    (0, 0) (visited m).

(** The second loop: the sizes of M and BNotM in eight bits. *)
Definition countSets (maxCwnd bestRTT bestBytes : Z) (m : store) : Z * Z :=
  foldl (fun '(M, BNotM) e =>
    if e.2.(congestionWindow) =? maxCwnd then (u8 (M + 1), BNotM)
    else if isBest bestRTT bestBytes e then (M, u8 (BNotM + 1)) else (M, BNotM)) (0, 0) (visited m).

(** The third loop on one sender. *)
Definition assignEpsilon (n maxCwnd bestRTT bestBytes M BNotM : Z) (e : Z * t) : t :=
  let os := e.2 in
  if BNotM =? 0 then set_olia os (Olia.set_epsilon os.(olia) 0 1)
  else if (os.(congestionWindow) <? maxCwnd) && isBest bestRTT bestBytes e
  then set_olia os (Olia.set_epsilon os.(olia) 1 (u32 (n * BNotM)))
  else if os.(congestionWindow) =? maxCwnd then set_olia os (Olia.set_epsilon os.(olia) (-1) (u32 (n * M)))
  else set_olia os (Olia.set_epsilon os.(olia) 0 1).

Definition getEpsilon (m : store) : store :=
  let maxCwnd := getMaxCwnd m in
  let '(bestRTT, bestBytes) := findBest m in
  let '(M, BNotM) := countSets maxCwnd bestRTT bestBytes m in
  let n := u32 (Z.of_nat (size m)) in
  foldl (fun m e => <[e.1 := assignEpsilon n maxCwnd bestRTT bestBytes M BNotM e]> m) m (visited m).

Definition maybeIncreaseCwnd (m : store) (id : Z) (o : t) (bytesInFlight : Z) : store :=
  if negb (isCwndLimited o bytesInFlight) then m
  else if o.(maxTCPCongestionWindow) <=? o.(congestionWindow) then m
  else if InSlowStart o
  then <[id := set_window o (u64 (o.(congestionWindow) + 1)) o.(slowstartThreshold) o.(congestionWindowCount)]> m
  else
    let m := getEpsilon m in
    let o := default o (m !! id) in
    let rate := getRate m (RTTStats.SmoothedRTT (rttStats id)) in
    let cwndScaled := Olia.oliaScale o.(congestionWindow) in
    let '(olia, window) := Olia.CongestionWindowAfterAck o.(olia) o.(congestionWindow) rate cwndScaled in
    <[id := set_window (set_olia o olia) (MinPacketNumber o.(maxTCPCongestionWindow) window)
              o.(slowstartThreshold) o.(congestionWindowCount)]> m.

Definition OnPacketAcked (m : store) (id ackedPacketNumber ackedBytes bytesInFlight : Z) : store :=
  match m !! id with
  | None => m
  | Some o =>
      let o := set_numbers o o.(largestSentPacketNumber) (MaxPacketNumber ackedPacketNumber o.(largestAckedPacketNumber))
                 o.(largestSentAtLastCutback) in
      if InRecovery o
      then <[id := set_parts o o.(hybridSlowStart) (PrrSender.OnPacketAcked o.(prr) ackedBytes) o.(olia)]> m
      else
        let o := set_olia o (Olia.UpdateAckedSinceLastLoss o.(olia) ackedBytes) in
        let m := maybeIncreaseCwnd (<[id := o]> m) id o bytesInFlight in
        let o := default o (m !! id) in
        if InSlowStart o
        then <[id := set_parts o (HybridSlowStart.OnPacketAcked o.(hybridSlowStart) ackedPacketNumber) o.(prr) o.(olia)]> m
        else m
  end.

End WithRTT.

(** A call that changes only the sender itself. *)
Definition onSender (f : t -> t) (m : store) (id : Z) : store := alter f id m.

(** [path.setup]: a new path adds its sender to the map. *)
Definition addSender (m : store) (id initial initialMax : Z) : store := <[id := NewOliaSender initial initialMax]> m.

End OliaSenders.
