(* ===== verification/OliaProofs.v ===== *)
(** * OLIA: the coupled congestion windows

    The weights that couple the paths add up to zero, the increment is OLIA's
    formula as long as nothing overflows, and every window stays within its
    limits whatever happens on whichever path. *)

From Stdlib Require Import QArith.
From S2P Require Import Prelude MinMax Float RTTStats GoFloat SentPackets Cubic CubicProofs Olia.
#[local] Open Scope Z_scope.

Module OliaProofs.
Import OliaSender OliaSenders.

(** ** Visiting the map *)

Lemma visited_perm order (m : store) :
  order ≡ₚ (map_to_list m).*1 -> visited order m ≡ₚ map_to_list m.
Proof.
  intros Hp. unfold visited. rewrite Hp.
  assert (H : forall l, (forall e, e ∈ l -> m !! e.1 = Some e.2) -> omap (fun id => (id,.) <$> m !! id) l.*1 = l).
  { induction l as [|[k o] l IH]; intros Hl; [done|]. cbn.
    pose proof (Hl (k, o) ltac:(by left)) as Hk. cbn in Hk. rewrite Hk. cbn. rewrite IH; [done|]. intros e He. apply Hl. by right. }
  rewrite H; [done|]. intros [k o] He. by apply elem_of_map_to_list in He.
Qed.

Lemma visited_lookup order (m : store) e : e ∈ visited order m -> m !! e.1 = Some e.2.
Proof.
  unfold visited. rewrite list_elem_of_omap. intros (k & _ & Hk). destruct (m !! k) eqn:E; [|done]. by simplify_eq/=.
Qed.

Lemma visited_nodup order (m : store) : NoDup order -> NoDup (visited order m).*1.
Proof.
  unfold visited. induction 1 as [|k l Hk Hn IH]; cbn; [constructor|].
  destruct (m !! k) eqn:E; cbn; [|done]. constructor; [|done].
  rewrite list_elem_of_fmap. intros ([k' o] & -> & Hin). apply list_elem_of_omap in Hin as (k2 & Hin & H2).
  destruct (m !! k2); [|done]. by simplify_eq/=.
Qed.

(** An update of every visited sender. *)
Lemma update_lookup (f : Z * t -> t) l : NoDup l.*1 -> forall (m : store) id,
  foldl (fun m e => <[e.1 := f e]> m) m l !! id
  = match list_find (fun e => e.1 = id) l with Some (_, e) => Some (f e) | None => m !! id end.
Proof.
  induction l as [|e l IH]; intros Hn m id; [done|]. cbn [foldl list_find]. cbn in Hn. apply NoDup_cons in Hn as [He Hn].
  rewrite IH by done. case_decide as Hd.
  - assert (Hf : list_find (fun e0 : Z * t => e0.1 = id) l = None).
    { apply list_find_None, Forall_forall. intros x Hx Hxe. apply He. rewrite Hd, <- Hxe. by apply list_elem_of_fmap_2. }
    rewrite Hf. subst id. apply lookup_insert_eq.
  - destruct (list_find _ l) as [[i x]|]; [done|]. by apply lookup_insert_ne.
Qed.

(** ** The weights *)

Definition weight (o : t) : Q := Qmake o.(olia).(Olia.epsilonNum) (Z.to_pos o.(olia).(Olia.epsilonDen)).
Definition total (l : list t) : Q := foldr (fun o q => Qplus (weight o) q) 0%Q l.

Lemma total_perm l l' : l ≡ₚ l' -> Qeq (total l) (total l').
Proof.
  intros H. induction H as [|x l l' _ IH|x y l|l l' l'' _ IH1 _ IH2]; cbn [total foldr].
  - reflexivity.
  - fold (total l) (total l'). by rewrite IH.
  - rewrite !Qplus_assoc. by rewrite (Qplus_comm (weight y)).
  - by rewrite IH1.
Qed.

Section Epsilon.
Context (rttStats : Z -> RTTStats.t) (order : list Z) (m : store).
Context (Horder : order ≡ₚ (map_to_list m).*1).

Abbreviation l := (visited order m).

Lemma order_nodup : NoDup order.
Proof. rewrite Horder. apply NoDup_fst_map_to_list. Qed.

Lemma visited_all id o : m !! id = Some o -> (id, o) ∈ l.
Proof. intros H. rewrite (visited_perm order m Horder). by apply elem_of_map_to_list. Qed.

Lemma visited_length : length l = size m.
Proof. rewrite (Permutation_length (visited_perm order m Horder)). apply length_map_to_list. Qed.

(** ** The largest window *)

Lemma maxCwnd_fold (es : list (Z * t)) : forall b,
  let r := foldl (fun best e => MaxPacketNumber best e.2.(congestionWindow)) b es in
  b <= r /\ Forall (fun e => e.2.(congestionWindow) <= r) es
  /\ (r = b \/ Exists (fun e => e.2.(congestionWindow) = r) es).
Proof.
  induction es as [|e es IH]; intros b; cbn [foldl]; [split_and!; [lia|constructor|by left]|].
  specialize (IH (MaxPacketNumber b e.2.(congestionWindow))). cbv zeta in *. rewrite MaxPacketNumber_max in *.
  destruct IH as (H1 & H2 & H3). split_and!; [lia|constructor; [lia|done]|].
  destruct H3 as [H3|H3]; [|by right; right]. destruct (Z.max_spec b (congestionWindow e.2)) as [[? E]|[? E]].
  - right. left. lia.
  - left. lia.
Qed.

Lemma getMaxCwnd_max :
  (forall id o, m !! id = Some o -> 0 <= o.(congestionWindow)) ->
  Forall (fun e => e.2.(congestionWindow) <= getMaxCwnd order m) l
  /\ (l <> [] -> Exists (fun e => e.2.(congestionWindow) = getMaxCwnd order m) l).
Proof.
  intros Hpos. unfold getMaxCwnd. destruct (maxCwnd_fold l 0) as (H1 & H2 & H3). cbv zeta in *. split; [done|].
  intros Hl. destruct H3 as [H3|H3]; [|done].
  destruct l as [|e es] eqn:E; [done|]. left. apply Forall_cons in H2 as [H2 _]. rewrite H3 in *.
  assert (m !! e.1 = Some e.2) as He by (apply (visited_lookup order); rewrite E; left). apply Hpos in He. lia.
Qed.

(** ** The sizes of the sets *)

Context (maxCwnd bestRTT bestBytes : Z).

Definition inM (e : Z * t) : bool := e.2.(congestionWindow) =? maxCwnd.
Definition inB (e : Z * t) : bool := negb (inM e) && isBest rttStats bestRTT bestBytes e.
Definition count (p : Z * t -> bool) (es : list (Z * t)) : Z := Z.of_nat (length (filter (fun e => p e = true) es)).

Lemma olia_count_cons p e es : count p (e :: es) = (if p e then 1 else 0) + count p es.
Proof.
  unfold count. rewrite filter_cons. destruct (p e); [rewrite decide_True by done|rewrite decide_False by done]; cbn; lia.
Qed.

Lemma inM_eq e : inM e = (e.2.(congestionWindow) =? maxCwnd).
Proof. done. Qed.
Lemma inB_eq e : inB e = negb (e.2.(congestionWindow) =? maxCwnd) && isBest rttStats bestRTT bestBytes e.
Proof. done. Qed.

Lemma countSets_fold es : forall M B,
  0 <= M -> 0 <= B -> M + B + Z.of_nat (length es) < 256 ->
  foldl (fun '(M, BNotM) e =>
    if e.2.(congestionWindow) =? maxCwnd then (u8 (M + 1), BNotM)
    else if isBest rttStats bestRTT bestBytes e then (M, u8 (BNotM + 1)) else (M, BNotM)) (M, B) es
  = (M + count inM es, B + count inB es).
Proof.
  induction es as [|e es IH]; intros M B HM HB Hl; cbn [foldl length] in *; [by rewrite !Z.add_0_r|].
  rewrite !olia_count_cons, inM_eq, inB_eq. destruct (e.2.(congestionWindow) =? maxCwnd); cbn [negb andb].
  - rewrite u8_small by lia. rewrite IH by lia. f_equal; lia.
  - destruct (isBest _ _ _ _).
    + rewrite u8_small by lia. rewrite IH by lia. f_equal; lia.
    + rewrite IH by lia. f_equal; lia.
Qed.

Lemma count_Exists p es : Exists (fun e => p e = true) es -> 0 < count p es.
Proof. induction 1 as [e es H|e es _ IH]; rewrite olia_count_cons; [rewrite H|]; [unfold count|destruct (p e)]; lia. Qed.

Lemma total_sets n M B es :
  B <> 0 -> Forall (fun e => e.2.(congestionWindow) <= maxCwnd) es ->
  Qeq (total (assignEpsilon rttStats n maxCwnd bestRTT bestBytes M B <$> es))
    (inject_Z (count inB es) * Qmake 1 (Z.to_pos (u32 (n * B))) + inject_Z (count inM es) * Qmake (-1) (Z.to_pos (u32 (n * M))))%Q.
Proof.
  intros HB Hmax. induction Hmax as [|e es He _ IH]; [reflexivity|].
  cbn [fmap list_fmap total foldr]. fold (total (assignEpsilon rttStats n maxCwnd bestRTT bestBytes M B <$> es)).
  rewrite IH, !olia_count_cons, inM_eq, inB_eq. unfold assignEpsilon at 1.
  rewrite (proj2 (Z.eqb_neq B 0) HB).
  destruct (Z.eqb_spec e.2.(congestionWindow) maxCwnd) as [Hm|Hm]; cbn [negb andb].
  - rewrite (proj2 (Z.ltb_ge _ _)) by lia. cbn [andb]. unfold weight at 1. cbn.
    rewrite !inject_Z_plus. change (inject_Z 1) with 1%Q. change (inject_Z 0) with 0%Q. ring.
  - rewrite (proj2 (Z.ltb_lt _ _)) by lia. cbn [andb]. destruct (isBest _ _ _ _); unfold weight at 1; cbn;
      rewrite !inject_Z_plus; change (inject_Z 1) with 1%Q; change (inject_Z 0) with 0%Q; [ring|].
    change (0 # 1)%Q with 0%Q. ring.
Qed.

End Epsilon.

(** What [getEpsilon] computes before the third loop. *)
Definition newSender (rttStats : Z -> RTTStats.t) (order : list Z) (m : store) (e : Z * t) : t :=
  let maxCwnd := getMaxCwnd order m in
  let best := findBest rttStats order m in
  let sets := countSets rttStats order maxCwnd best.1 best.2 m in
  assignEpsilon rttStats (u32 (Z.of_nat (size m))) maxCwnd best.1 best.2 sets.1 sets.2 e.

Lemma getEpsilon_lookup rttStats order m id :
  order ≡ₚ (map_to_list m).*1 ->
  getEpsilon rttStats order m !! id = (fun o => newSender rttStats order m (id, o)) <$> m !! id.
Proof.
  intros Ho. unfold getEpsilon, newSender. cbv zeta. destruct (findBest rttStats order m) as [bestRTT bestBytes].
  cbn [fst snd]. destruct (countSets _ _ _ _ _ _) as [M B]. cbn [fst snd].
  rewrite update_lookup by (by apply visited_nodup, (order_nodup order m)).
  destruct (list_find _ _) as [[i e]|] eqn:Ef.
  - apply list_find_Some in Ef as (Hl & <- & _). apply list_elem_of_lookup_2, visited_lookup in Hl. rewrite Hl. by destruct e.
  - destruct (m !! id) as [o|] eqn:Em; [|done]. apply list_find_None in Ef. rewrite Forall_forall in Ef.
    destruct (Ef (id, o)); [|done]. by apply visited_all.
Qed.

Lemma getEpsilon_keys rttStats order m :
  order ≡ₚ (map_to_list m).*1 -> order ≡ₚ (map_to_list (getEpsilon rttStats order m)).*1.
Proof.
  intros Ho. apply NoDup_Permutation; [by apply (order_nodup order m)|apply NoDup_fst_map_to_list|]. intros id.
  transitivity (id ∈ (map_to_list m).*1); [by rewrite Ho|]. rewrite !list_elem_of_fmap. split; intros ([k o] & -> & H); apply elem_of_map_to_list in H; cbn.
  - exists (k, newSender rttStats order m (k, o)). split; [done|]. apply elem_of_map_to_list.
    rewrite getEpsilon_lookup by done. by rewrite H.
  - rewrite getEpsilon_lookup in H by done. destruct (m !! k) as [o'|] eqn:Em; [|done].
    exists (k, o'). split; [done|]. by apply elem_of_map_to_list.
Qed.

Lemma getEpsilon_visited rttStats order m :
  order ≡ₚ (map_to_list m).*1 ->
  (map_to_list (getEpsilon rttStats order m)).*2 ≡ₚ newSender rttStats order m <$> visited order m.
Proof.
  intros Ho. rewrite <- (visited_perm order (getEpsilon rttStats order m)) by (by apply getEpsilon_keys).
  assert (H : forall ks, (visited ks (getEpsilon rttStats order m)).*2 = newSender rttStats order m <$> visited ks m);
    [|by rewrite H].
  induction ks as [|k ks IH]; [done|]. unfold visited in *. cbn [omap list_omap]. rewrite getEpsilon_lookup by done.
  destruct (m !! k); cbn; [f_equal|]; exact IH.
Qed.

(** The weights that couple the paths add up to zero: what the best paths with a
    small window gain is what the paths with the largest window lose.  The
    windows themselves do not change. *)
Theorem olia_weights_balance (rttStats : Z -> RTTStats.t) (order : list Z) (m : store)
    (Horder : order ≡ₚ (map_to_list m).*1) (Hsize : (size m < 256)%nat)
    (Hpos : forall id o, m !! id = Some o -> 0 <= o.(congestionWindow)) :
  let m' := getEpsilon rttStats order m in
  Qeq (total (map_to_list m').*2) 0
  /\ forall id, congestionWindow <$> m' !! id = congestionWindow <$> m !! id.
Proof.
  cbv zeta. split.
  - rewrite (total_perm _ _ (getEpsilon_visited rttStats order m Horder)).
    destruct (getMaxCwnd_max order m Hpos) as [Hle Hex]. unfold newSender. cbv zeta.
    destruct (findBest rttStats order m) as [bestRTT bestBytes]. cbn [fst snd].
    set (maxCwnd := getMaxCwnd order m) in *.
    pose proof (visited_length order m Horder) as Hlen.
    assert (Hc : countSets rttStats order maxCwnd bestRTT bestBytes m
      = (count (inM maxCwnd) (visited order m), count (inB rttStats maxCwnd bestRTT bestBytes) (visited order m))).
    { unfold countSets. rewrite countSets_fold by lia. done. }
    rewrite Hc. cbn [fst snd]. set (M := count (inM maxCwnd) _). set (B := count (inB _ _ _ _) _).
    destruct (decide (B = 0)) as [HB|HB].
    + rewrite HB. clear. induction (visited order m) as [|e l IH]; [reflexivity|].
      cbn [fmap list_fmap total foldr]. unfold assignEpsilon at 1. cbn [Z.eqb]. unfold weight. cbn.
      change (0 # 1)%Q with 0%Q. rewrite Qplus_0_l. exact IH.
    + rewrite total_sets by done. fold M B.
      assert (HB0 : 0 < B) by (unfold B, count in *; lia).
      assert (Hne : visited order m <> []) by (intros E; unfold B, count in HB0; rewrite E in HB0; cbn in HB0; lia).
      assert (HM0 : 0 < M).
      { apply count_Exists. specialize (Hex Hne). eapply Exists_impl; [exact Hex|]. intros e He. by apply Z.eqb_eq. }
      assert (HMl : M <= Z.of_nat (size m)) by (unfold M, count; rewrite <- Hlen; apply inj_le, length_filter).
      assert (HBl : B <= Z.of_nat (size m)) by (unfold B, count; rewrite <- Hlen; apply inj_le, length_filter).
      rewrite (u32_small (Z.of_nat (size m))) by lia. rewrite !u32_small by nia.
      set (n := Z.of_nat (size m)) in *.
      unfold Qeq, Qplus, Qmult, inject_Z. cbn [Qnum Qden]. rewrite !Z.mul_1_r, !Pos.mul_1_l.
      rewrite !Z2Pos.id by nia. ring_simplify. nia.
  - intros id. rewrite getEpsilon_lookup by done. destruct (m !! id) as [o|]; [|done]. cbn.
    unfold newSender, assignEpsilon. cbn [snd]. f_equal. by repeat case_match.
Qed.

(** ** The increment *)

Lemma i64_small z : - 2 ^ 63 <= z < 2 ^ 63 -> i64 z = z.
Proof. intros H. unfold i64. rewrite Z.mod_small; lia. Qed.

(** As long as the products fit into 64 bits, an acknowledgement moves the
    counter of a path by OLIA's increment
    [epsilon / window + (scaled window)^2 / (window * rate)]
    in units of 1/1024 packet, rounded towards zero. *)
Lemma olia_increment (o : Olia.t) (current rate cwndScaled : Z) :
  -1 <= o.(Olia.epsilonNum) <= 1 -> 1 <= o.(Olia.epsilonDen) -> 1 <= current -> 1 <= rate -> 0 <= cwndScaled ->
  -1023 < o.(Olia.sndCwndCnt) < 1023 ->
  o.(Olia.epsilonDen) * current * rate < 2 ^ 64 ->
  (rate + o.(Olia.epsilonDen) * cwndScaled * cwndScaled) * 1024 < 2 ^ 62 ->
  Olia.nextCount o current rate cwndScaled
  = o.(Olia.sndCwndCnt) + Z.quot ((o.(Olia.epsilonNum) * rate + o.(Olia.epsilonDen) * cwndScaled * cwndScaled) * 1024)
                            (o.(Olia.epsilonDen) * current * rate).
Proof.
  intros Hn Hd Hc Hr Hs Hk Hden Hnum. unfold Olia.nextCount.
  set (den := o.(Olia.epsilonDen)) in *. set (num := o.(Olia.epsilonNum)) in *. set (cnt := o.(Olia.sndCwndCnt)) in *.
  assert (0 < den * current /\ den * current <= den * current * rate) as [? ?] by nia.
  rewrite (u64_small (den * current)) by lia. rewrite (u64_small (den * current * rate)) by nia.
  rewrite (proj2 (Z.eqb_neq (den * current * rate) 0)) by nia.
  assert (0 <= den * cwndScaled /\ 0 <= den * cwndScaled * cwndScaled) as [? ?] by nia.
  assert (den * cwndScaled <= den * cwndScaled * cwndScaled) by (destruct (Z.eq_dec cwndScaled 0) as [->|]; nia).
  rewrite (u64_small (den * cwndScaled)) by lia. rewrite (u64_small (den * cwndScaled * cwndScaled)) by lia.
  set (sq := den * cwndScaled * cwndScaled) in *. set (D := den * current * rate) in *.
  assert (HD : 0 < D) by (unfold D; nia).
  assert (Hscale : forall x, 0 <= x -> x * 1024 < 2 ^ 62 -> Olia.oliaScale x = x * 1024).
  { intros x Hx Hx2. unfold Olia.oliaScale, scale. rewrite Z.shiftl_mul_pow2 by lia. apply u64_small. lia. }
  assert (Hq : forall x, 0 <= x -> x * 1024 < 2 ^ 62 -> 0 <= x * 1024 / D < 2 ^ 62).
  { intros x Hx Hx2. split; [apply Z.div_pos; lia|]. apply Z.div_lt_upper_bound; nia. }
  destruct (Z.eqb_spec num (-1)) as [Hm|Hm].
  - rewrite Hm. destruct (Z.ltb_spec sq rate).
    + rewrite Hscale by lia. pose proof (Hq (rate - sq) ltac:(lia) ltac:(lia)). rewrite (i64_small ((rate - sq) * 1024 / D)), i64_small by lia.
      replace ((-1 * rate + sq) * 1024) with (- ((rate - sq) * 1024)) by ring.
      rewrite Z.quot_opp_l, Z.quot_div_nonneg by lia. lia.
    + rewrite Hscale by lia. pose proof (Hq (sq - rate) ltac:(lia) ltac:(lia)). rewrite (i64_small ((sq - rate) * 1024 / D)), i64_small by lia.
      replace (-1 * rate + sq) with (sq - rate) by ring. rewrite Z.quot_div_nonneg by lia. lia.
  - rewrite (u64_small num), (u64_small (num * rate)), (u64_small (num * rate + sq)) by nia.
    rewrite Hscale by nia. pose proof (Hq (num * rate + sq) ltac:(nia) ltac:(nia)). rewrite (i64_small ((num * rate + sq) * 1024 / D)), i64_small by lia.
    rewrite Z.quot_div_nonneg by nia. lia.
Qed.

(** ** The windows *)

(** The operations on the senders of a session: a call on the sender of a path,
    or a new path. *)
Inductive op : Type :=
| OpAdd (id : Z)
| OpSent (id pn bytes : Z) (retransmittable : bool)
| OpCheck (id : Z) (rtt : RTTStats.t)
| OpAcked (rttStats : Z -> RTTStats.t) (order : list Z) (id pn bytes inFlight : Z)
| OpLost (id pn bytes inFlight : Z)
| OpTimeout (id : Z) (retransmitted : bool)
| OpMigrate (id : Z)
| OpLargeReduction (id : Z) (enabled : bool).

Section Windows.
Context (initial max : Z) (Hinit : 2 <= initial <= max) (Hmax : max <= DefaultMaxCongestionWindow).

Definition step (m : store) (o : op) : store :=
  match o with
  | OpAdd id => addSender m id initial max
  | OpSent id pn bytes r => onSender (fun c => (OnPacketSent c pn bytes r).1) m id
  | OpCheck id rtt => onSender (fun c => MaybeExitSlowStart c rtt) m id
  | OpAcked rttStats order id pn bytes inFlight => OnPacketAcked rttStats order m id pn bytes inFlight
  | OpLost id pn bytes inFlight => onSender (fun c => OnPacketLost c pn bytes inFlight) m id
  | OpTimeout id r => onSender (fun c => OnRetransmissionTimeout c r) m id
  | OpMigrate id => onSender OnConnectionMigration m id
  | OpLargeReduction id b => onSender (fun c => SetSlowStartLargeReduction c b) m id
  end.

Record sender_ok (c : t) : Prop := {
  ok_min : c.(minCongestionWindow) = 2;
  ok_conns : c.(numConnections) = 2;
  ok_window : 1 <= c.(congestionWindow) <= max;
  ok_max : c.(maxTCPCongestionWindow) = max;
  ok_initial : c.(initialCongestionWindow) = initial;
  ok_initialMax : c.(initialMaxCongestionWindow) = max;
  ok_threshold : 0 <= c.(slowstartThreshold) <= DefaultMaxCongestionWindow
}.

Lemma ok_set_parts c h p o : sender_ok c -> sender_ok (set_parts c h p o).
Proof. intros []. by constructor. Qed.
Lemma ok_set_olia c o : sender_ok c -> sender_ok (set_olia c o).
Proof. apply ok_set_parts. Qed.
Lemma ok_set_numbers c x y z : sender_ok c -> sender_ok (set_numbers c x y z).
Proof. intros []. by constructor. Qed.
Lemma ok_set_stats c x y z : sender_ok c -> sender_ok (set_stats c x y z).
Proof. intros []. by constructor. Qed.
Lemma ok_set_window c w threshold count :
  sender_ok c -> 1 <= w <= max -> 0 <= threshold <= DefaultMaxCongestionWindow ->
  sender_ok (set_window c w threshold count).
Proof. intros []. by constructor. Qed.

Create HintDb olia.
#[local] Hint Resolve ok_set_parts ok_set_olia ok_set_numbers ok_set_stats : olia.

Lemma ok_new : sender_ok (NewOliaSender initial max).
Proof. constructor; cbn; try done; lia. Qed.

Lemma ok_bounds c : sender_ok c -> 1 <= c.(congestionWindow) <= 2500.
Proof. intros []. unfold DefaultMaxCongestionWindow in *. lia. Qed.

Lemma slow_start_spec c : sender_ok c -> InSlowStart c = (c.(congestionWindow) <? c.(slowstartThreshold)).
Proof.
  intros Hc. pose proof (ok_bounds c Hc). pose proof (ok_threshold c Hc).
  unfold InSlowStart, GetCongestionWindow, GetSlowStartThreshold, DefaultTCPMSS, DefaultMaxCongestionWindow in *.
  rewrite !u64_small by lia. destruct (Z.ltb_spec c.(congestionWindow) c.(slowstartThreshold));
    [apply Z.ltb_lt|apply Z.ltb_ge]; lia.
Qed.

Lemma ok_check c rtt : sender_ok c -> sender_ok (MaybeExitSlowStart c rtt).
Proof.
  intros Hc. unfold MaybeExitSlowStart. case_match; [|done]. destruct (HybridSlowStart.ShouldExitSlowStart _ _ _ _) as [h e].
  destruct e; [|auto with olia]. apply ok_set_window; auto with olia; [apply Hc|].
  pose proof (ok_bounds c Hc). unfold DefaultMaxCongestionWindow. cbn. lia.
Qed.

(** The window after a cutback. *)
Lemma cutWindow_spec c : sender_ok c ->
  0 <= cutWindow c <= c.(congestionWindow)
  /\ (c.(slowStartLargeReduction) = false -> cutWindow c = 17 * c.(congestionWindow) / 20).
Proof.
  intros Hc. pose proof (ok_bounds c Hc). unfold cutWindow.
  assert (Hw : 0 <= 17 * c.(congestionWindow) / 20 <= c.(congestionWindow))
    by (split; [apply Z.div_pos; lia|apply Z.div_le_upper_bound; lia]).
  destruct (c.(slowStartLargeReduction) && InSlowStart c) eqn:Hl.
  - rewrite u64_small by lia. split; [lia|]. intros E. by rewrite E in Hl.
  - unfold RenoBeta. rewrite (ok_conns c Hc). change (F32.div _ _) with (Cubic.beta 2).
    rewrite CubicProofs.backoff by (unfold DefaultMaxCongestionWindow; lia). rewrite u64_small by lia. done.
Qed.

Lemma lost_spec c pn bytes inFlight : sender_ok c ->
  let c' := OnPacketLost c pn bytes inFlight in
  sender_ok c'
  /\ (c.(slowStartLargeReduction) = false ->
      if pn <=? c.(largestSentAtLastCutback) then c'.(congestionWindow) = c.(congestionWindow)
      else c'.(congestionWindow) = Z.max 2 (17 * c.(congestionWindow) / 20)
           /\ c'.(slowstartThreshold) = c'.(congestionWindow)
           /\ c'.(largestSentAtLastCutback) = c.(largestSentPacketNumber)).
Proof.
  intros Hc. cbv zeta. pose proof (ok_bounds c Hc) as Hb. pose proof (ok_window c Hc) as Hw. unfold OnPacketLost.
  destruct (pn <=? _).
  - unfold lostBeforeCutback. destruct (c.(lastCutbackExitedSlowstart)); [|done].
    split; [|intros Hl; cbn; by rewrite Hl]. case_match; [|auto with olia]. set (w := if _ || _ then _ else _).
    assert (1 <= w <= max).
    { unfold w. case_match; cbn; [|lia]. rewrite MaxPacketNumber_max, u64_small by lia. rewrite (ok_min c Hc). lia. }
    apply ok_set_window; auto with olia; unfold DefaultMaxCongestionWindow in *; lia.
  - set (c2 := set_parts (set_stats _ _ _ _) _ _ _).
    assert (Hc2 : sender_ok c2) by (unfold c2; auto with olia).
    destruct (cutWindow_spec c2 Hc2) as [Hcut Heq]. change (congestionWindow c2) with c.(congestionWindow) in *.
    change (minCongestionWindow c2) with c.(minCongestionWindow). rewrite (ok_min c Hc).
    set (w := if cutWindow c2 <? 2 then 2 else cutWindow c2).
    assert (Hw' : w = Z.max 2 (cutWindow c2)) by (unfold w; zcases; lia). split.
    + apply ok_set_numbers, ok_set_window; auto; unfold DefaultMaxCongestionWindow in *; lia.
    + intros Hl. split_and!; [|done..]. cbn. rewrite Hw', Heq by done. done.
Qed.

Lemma ok_timeout c r : sender_ok c -> sender_ok (OnRetransmissionTimeout c r).
Proof.
  intros Hc. pose proof (ok_bounds c Hc). unfold OnRetransmissionTimeout. case_match; [auto with olia|].
  apply ok_set_window; auto with olia; cbn; [rewrite (ok_min c Hc); lia|].
  unfold DefaultMaxCongestionWindow. split; [apply Z.div_pos; lia|apply Z.div_le_upper_bound; lia].
Qed.

(** ** Acknowledgements *)

(** The window that OLIA asks for is at most one packet away. *)
Lemma afterAck_near o current rate cwndScaled : 1 <= current <= 2500 ->
  let w := (Olia.CongestionWindowAfterAck o current rate cwndScaled).2 in
  1 <= w /\ Z.abs (w - current) <= 1.
Proof.
  intros Hc. cbv zeta. unfold Olia.CongestionWindowAfterAck. case_match; [cbn; rewrite u64_small; lia|].
  case_match; [|cbn; lia]. cbn. rewrite MaxPacketNumber_max, u64_small by lia. lia.
Qed.

(** The stores differ in the epsilons only. *)
Definition eps_only (o' o : option t) : Prop :=
  match o', o with
  | Some o', Some o => (exists num den, o' = set_olia o (Olia.set_epsilon o.(olia) num den)) \/ o' = o
  | None, None => True
  | _, _ => False
  end.

Lemma getEpsilon_keeps rttStats order (m : store) id : eps_only (getEpsilon rttStats order m !! id) (m !! id).
Proof.
  unfold getEpsilon. destruct (findBest rttStats order m) as [bestRTT bestBytes]. destruct (countSets _ _ _ _ _ _) as [M B].
  set (f := assignEpsilon _ _ _ _ _ _ _).
  assert (Hf : forall e, exists num den, f e = set_olia e.2 (Olia.set_epsilon e.2.(olia) num den))
    by (intros e; unfold f, assignEpsilon; repeat case_match; eauto).
  assert (Hl : Forall (fun e => m !! e.1 = Some e.2) (visited order m))
    by (apply Forall_forall; intros e; apply visited_lookup).
  assert (H : forall l (m0 : store), Forall (fun e => m !! e.1 = Some e.2) l -> (forall k, eps_only (m0 !! k) (m !! k)) ->
    forall k, eps_only (foldl (fun (m : store) e => <[e.1 := f e]> m) m0 l !! k) (m !! k)).
  { induction l as [|e l IH]; intros m0 Hl0 H0 k; [apply H0|]. apply Forall_cons in Hl0 as [He Hl0].
    cbn [foldl]. apply IH; [done|]. intros k'. destruct (decide (e.1 = k')) as [<-|Hk].
    - rewrite lookup_insert_eq, He. left. apply Hf.
    - rewrite lookup_insert_ne by done. apply H0. }
  apply H; [done|]. intros k. destruct (m !! k); [by right|done].
Qed.

Lemma eps_only_ok o' o : eps_only o' o -> (forall c, o = Some c -> sender_ok c) -> forall c, o' = Some c -> sender_ok c.
Proof.
  destruct o' as [c'|], o as [c|]; cbn; intros He Hok c0 [= <-]; try done.
  destruct He as [(num & den & ->)| ->]; [apply ok_set_olia|]; by apply Hok.
Qed.

Lemma eps_only_window o' o : eps_only o' o -> congestionWindow <$> o' = congestionWindow <$> o.
Proof. destruct o' as [c'|], o as [c|]; cbn; try done. by intros [(num & den & ->)| ->]. Qed.

Definition store_ok (m : store) : Prop := map_Forall (fun _ => sender_ok) m.

(** Whether the sender is in recovery once packet [pn] is acknowledged. *)
Definition recovering (c : t) (pn : Z) : Prop :=
  Z.max pn c.(largestAckedPacketNumber) <= c.(largestSentAtLastCutback)
  /\ Z.max pn c.(largestAckedPacketNumber) <> 0.

(** What an acknowledgement does to the windows. *)
Definition acked_ok (c c' : t) (pn inFlight : Z) : Prop :=
  sender_ok c' /\ Z.abs (c'.(congestionWindow) - c.(congestionWindow)) <= 1
  /\ (recovering c pn \/ isCwndLimited c inFlight = false -> c'.(congestionWindow) = c.(congestionWindow))
  /\ (~ recovering c pn -> isCwndLimited c inFlight = true -> c.(congestionWindow) < c.(slowstartThreshold) ->
      c.(congestionWindow) < max -> c'.(congestionWindow) = c.(congestionWindow) + 1).

Lemma increase_spec rttStats order (m : store) id o inFlight :
  store_ok m -> m !! id = Some o ->
  let m' := maybeIncreaseCwnd rttStats order m id o inFlight in
  store_ok m' /\ (forall k, k <> id -> congestionWindow <$> m' !! k = congestionWindow <$> m !! k)
  /\ exists o', m' !! id = Some o' /\ Z.abs (o'.(congestionWindow) - o.(congestionWindow)) <= 1
     /\ (isCwndLimited o inFlight = false -> o'.(congestionWindow) = o.(congestionWindow))
     /\ (isCwndLimited o inFlight = true -> o.(congestionWindow) < o.(slowstartThreshold) ->
         o.(congestionWindow) < max -> o'.(congestionWindow) = o.(congestionWindow) + 1).
Proof.
  intros Hm Ho. cbv zeta. pose proof (Hm _ _ Ho) as Hok. pose proof (ok_bounds o Hok) as Hb.
  pose proof (ok_window o Hok) as Hw. unfold maybeIncreaseCwnd. rewrite (ok_max o Hok), (slow_start_spec o Hok).
  destruct (isCwndLimited o inFlight) eqn:El; cbn [negb].
  2: { split; [done|]. split; [done|]. exists o. split_and!; try done; lia. }
  destruct (Z.leb_spec max o.(congestionWindow)).
  { split; [done|]. split; [done|]. exists o. split_and!; try done; lia. }
  destruct (Z.ltb_spec o.(congestionWindow) o.(slowstartThreshold)).
  - rewrite u64_small by lia. split; [apply map_Forall_insert_2; [apply ok_set_window; [done|lia|apply Hok]|done]|].
    split; [intros k Hk; by rewrite lookup_insert_ne|]. eexists. rewrite lookup_insert_eq.
    split; [reflexivity|]. cbn. split_and!; [lia|done|lia].
  - pose proof (getEpsilon_keeps rttStats order m) as He. set (m' := getEpsilon rttStats order m) in *.
    assert (Hm' : store_ok m') by (intros k c Hk; by eapply eps_only_ok; [apply He|intros c0; apply Hm|]).
    pose proof (He id) as Hid. rewrite Ho in Hid. destruct (m' !! id) as [o'|] eqn:E'; [|done]. change (default o (Some o')) with o'.
    pose proof (eps_only_window (Some o') (Some o) Hid) as Hwin. cbn in Hwin. injection Hwin as Hwin.
    pose proof (Hm' _ _ E') as Hok'.
    pose proof (afterAck_near o'.(olia) o'.(congestionWindow) (getRate rttStats order m' (RTTStats.SmoothedRTT (rttStats id)))
      (Olia.oliaScale o'.(congestionWindow)) (ok_bounds o' Hok')) as [Hn1 Hn2].
    destruct (Olia.CongestionWindowAfterAck _ _ _ _) as [olia' w]. cbn [snd] in *.
    rewrite (ok_max o' Hok'), MinPacketNumber_min.
    split; [apply map_Forall_insert_2; [apply ok_set_window; [by apply ok_set_olia|lia|apply Hok']|done]|].
    split; [intros k Hk; rewrite lookup_insert_ne by done; apply eps_only_window, He|].
    eexists. rewrite lookup_insert_eq. split; [reflexivity|]. cbn. rewrite Hwin in *. split_and!; [lia|done|lia].
Qed.

Lemma acked_spec rttStats order (m : store) id o pn bytes inFlight :
  store_ok m -> m !! id = Some o ->
  let m' := OnPacketAcked rttStats order m id pn bytes inFlight in
  store_ok m' /\ (forall k, k <> id -> congestionWindow <$> m' !! k = congestionWindow <$> m !! k)
  /\ exists o', m' !! id = Some o' /\ acked_ok o o' pn inFlight.
Proof.
  intros Hm Ho. cbv zeta. pose proof (Hm _ _ Ho) as Hok. unfold OnPacketAcked. rewrite Ho. set (o1 := set_numbers _ _ _ _).
  assert (Hok1 : sender_ok o1) by (unfold o1; auto with olia).
  assert (Hrec : InRecovery o1 = true <-> recovering o pn).
  { unfold InRecovery, recovering, o1. cbn. rewrite MaxPacketNumber_max, andb_true_iff, negb_true_iff, Z.leb_le, Z.eqb_neq. done. }
  destruct (InRecovery o1).
  { split; [apply map_Forall_insert_2; auto with olia|]. split; [intros k Hk; by rewrite lookup_insert_ne|].
    eexists. rewrite lookup_insert_eq. split; [reflexivity|]. unfold acked_ok. cbn.
    split_and!; [auto with olia|lia|done|]. intros Hr. destruct Hr. by apply Hrec. }
  assert (Hnr : ~ recovering o pn) by (intros Hr; by apply Hrec in Hr).
  set (o2 := set_olia o1 _). assert (Hok2 : sender_ok o2) by (unfold o2; auto with olia).
  assert (Hlim : isCwndLimited o2 inFlight = isCwndLimited o inFlight) by reflexivity.
  destruct (increase_spec rttStats order (<[id := o2]> m) id o2 inFlight) as (Hs & Hoth & o3 & E3 & Hn3 & Hl3 & Hg3);
    [by apply map_Forall_insert_2|apply lookup_insert_eq|].
  rewrite E3. change (default o2 (Some o3)) with o3. set (m' := maybeIncreaseCwnd _ _ _ _ _ _) in *. pose proof (Hs _ _ E3) as Hok3.
  change (congestionWindow o2) with o.(congestionWindow) in *.
  change (slowstartThreshold o2) with o.(slowstartThreshold) in *. rewrite Hlim in *.
  assert (Hfin : forall o4, sender_ok o4 -> o4.(congestionWindow) = o3.(congestionWindow) -> acked_ok o o4 pn inFlight).
  { intros o4 Hok4 Hw4. unfold acked_ok. rewrite Hw4. split_and!; [done|done| |auto]. intros [Hr|Hl]; auto. done. }
  assert (Hoth' : forall k, k <> id -> congestionWindow <$> m' !! k = congestionWindow <$> m !! k)
    by (intros k Hk; rewrite Hoth by done; by rewrite lookup_insert_ne).
  destruct (InSlowStart o3).
  - split; [apply map_Forall_insert_2; auto with olia|].
    split; [intros k Hk; rewrite lookup_insert_ne by done; by apply Hoth'|].
    eexists. rewrite lookup_insert_eq. split; [reflexivity|]. apply Hfin; auto with olia.
  - split; [done|]. split; [done|]. exists o3. split; [done|]. by apply Hfin.
Qed.

Lemma olia_step_ok m o : store_ok m -> store_ok (step m o).
Proof.
  intros Hm. pose proof ok_new.
  assert (Ha : forall f id, (forall c, sender_ok c -> sender_ok (f c)) -> store_ok (alter f id m)).
  { intros f id Hf k c [(_ & c0 & Hc & ->)|(_ & Hc)]%lookup_alter_Some; [apply Hf|]; by eapply Hm. }
  destruct o; cbn [step]; unfold onSender, addSender; try (apply Ha; intros c Hc).
  - by apply map_Forall_insert_2.
  - unfold OnPacketSent. case_match; [done|]. cbn [fst]. auto with olia.
  - by apply ok_check.
  - destruct (m !! id) as [c|] eqn:E; [by apply (acked_spec rttStats order m id c)|]. unfold OnPacketAcked. by rewrite E.
  - by apply lost_spec.
  - by apply ok_timeout.
  - destruct Hc. constructor; cbn; try done; unfold DefaultMaxCongestionWindow in *; lia.
  - destruct Hc. by constructor.
Qed.

Lemma olia_run_ok ops : forall m, store_ok m -> store_ok (foldl step m ops).
Proof. induction ops as [|o ops IH]; intros m Hm; [done|]. by apply IH, olia_step_ok. Qed.

End Windows.

(** C28: the coupled windows.  After every sequence of sent, acknowledged and lost
    packets, timeouts, migrations and new paths, on whichever paths, with any
    round-trip times and in whichever order the map of senders is visited: every
    window is between one packet and the maximum and its size in bytes does not
    overflow; an acknowledgement changes the window of its path by at most one
    packet and no other window; it leaves the window alone in recovery and while
    the window is not used, and in slow start adds one packet; the first loss
    after a cutback multiplies the window with 17/20 (at least 2 packets) and
    losses of packets sent before it change nothing; a timeout sets it to 2
    packets. *)
Theorem olia_windows (initial max : Z) (ops : list op)
    (Hinit : 2 <= initial <= max) (Hmax : max <= DefaultMaxCongestionWindow) :
  let m := foldl (step initial max) ∅ ops in
  forall id c, m !! id = Some c ->
    1 <= c.(congestionWindow) <= max
    /\ GetCongestionWindow c = c.(congestionWindow) * DefaultTCPMSS
    /\ (forall rttStats order pn bytes inFlight,
         let m' := OnPacketAcked rttStats order m id pn bytes inFlight in
         (forall k, k <> id -> congestionWindow <$> m' !! k = congestionWindow <$> m !! k)
         /\ exists c', m' !! id = Some c' /\ Z.abs (c'.(congestionWindow) - c.(congestionWindow)) <= 1
            /\ (recovering c pn \/ isCwndLimited c inFlight = false -> c'.(congestionWindow) = c.(congestionWindow))
            /\ (~ recovering c pn -> isCwndLimited c inFlight = true -> c.(congestionWindow) < c.(slowstartThreshold) ->
                c.(congestionWindow) < max -> c'.(congestionWindow) = c.(congestionWindow) + 1))
    /\ (forall pn bytes inFlight, c.(slowStartLargeReduction) = false ->
         let c' := OnPacketLost c pn bytes inFlight in
         if pn <=? c.(largestSentAtLastCutback) then c'.(congestionWindow) = c.(congestionWindow)
         else c'.(congestionWindow) = Z.max 2 (17 * c.(congestionWindow) / 20)
              /\ c'.(slowstartThreshold) = c'.(congestionWindow)
              /\ c'.(largestSentAtLastCutback) = c.(largestSentPacketNumber))
    /\ (OnRetransmissionTimeout c true).(congestionWindow) = 2.
Proof.
  cbv zeta. set (m := foldl _ _ _). intros id c Hc.
  assert (Hm : store_ok initial max m) by (apply olia_run_ok; [done|done|apply map_Forall_empty]).
  pose proof (Hm _ _ Hc) as Hok. pose proof (ok_bounds initial max Hmax c Hok). split; [apply Hok|].
  split; [unfold GetCongestionWindow, DefaultTCPMSS; rewrite u64_small; lia|]. split; [|split].
  - intros rttStats order pn bytes inFlight.
    destruct (acked_spec initial max Hinit Hmax rttStats order m id c pn bytes inFlight Hm Hc) as (_ & Ho & c' & E & _ & H').
    split; [done|]. by exists c'.
  - intros pn bytes inFlight. by apply (lost_spec initial max Hinit Hmax).
  - apply Hok.
Qed.

(** Two paths: the one with the smaller window has received more between losses. *)
Definition demo_rtt (ms : Z) : RTTStats.t := RTTStats.UpdateRTT RTTStats.NewRTTStats (ms * Millisecond) 0 0.
Definition demo_rtts (id : Z) : RTTStats.t := demo_rtt (if id =? 1 then 40 else 20).
Definition demo_ops : list op :=
  [OpAdd 1; OpAdd 2; OpSent 1 1 1350 true; OpSent 2 1 1350 true; OpLost 1 1 1350 46720; OpLost 2 1 1350 46720;
   OpSent 2 2 1350 true; OpLost 2 2 1350 40000; OpSent 2 3 1350 true;
   OpAcked demo_rtts [2; 1] 2 3 1350 40000; OpAcked demo_rtts [1; 2] 2 4 1350 40000].
Definition demo_store : store := foldl (step 32 2500) ∅ demo_ops.

Lemma olia_weights_balance_witness :
  let m' := getEpsilon demo_rtts [1; 2] demo_store in
  Qeq (total (map_to_list m').*2) 0
  /\ weight <$> m' !! 1 = Some (-1 # 2)%Q /\ weight <$> m' !! 2 = Some (1 # 2)%Q
  /\ (congestionWindow <$> m' !! 1, congestionWindow <$> m' !! 2) = (Some 27, Some 22).
Proof.
  assert (Ho : [1; 2] ≡ₚ (map_to_list demo_store).*1) by (vm_compute; apply perm_swap).
  assert (Hp : forall id o, demo_store !! id = Some o -> 0 <= o.(congestionWindow)).
  { apply (map_Forall_to_list (fun _ o => 0 <= o.(congestionWindow))). vm_compute.
    repeat (apply Forall_cons; split; [discriminate|]). apply Forall_nil. exact I. }
  destruct (olia_weights_balance demo_rtts [1; 2] demo_store Ho ltac:(vm_compute; lia) Hp) as [H1 H2].
  cbv zeta. split; [exact H1|]. split; [vm_compute; reflexivity|]. split; [vm_compute; reflexivity|].
  rewrite !H2. vm_compute. reflexivity.
Defined.

Lemma olia_windows_witness :
  exists c1 c2, demo_store !! 1 = Some c1 /\ demo_store !! 2 = Some c2
    /\ 1 <= c2.(congestionWindow) <= 2500 /\ c2.(congestionWindow) = 22
    /\ (OnPacketLost c2 9 1350 40000).(congestionWindow) = 18
    /\ (congestionWindow <$> OnPacketAcked demo_rtts [1; 2] demo_store 2 5 1350 40000 !! 1) = Some 27.
Proof.
  destruct (demo_store !! 1) as [c1|] eqn:E1; [|vm_compute in E1; discriminate].
  destruct (demo_store !! 2) as [c2|] eqn:E2; [|vm_compute in E2; discriminate].
  exists c1, c2. split; [reflexivity|]. split; [reflexivity|].
  destruct (olia_windows 32 2500 demo_ops ltac:(lia) ltac:(vm_compute; congruence) 2 c2 E2) as (Hw & _ & Ha & Hl & _).
  assert (Hc2 : c2.(congestionWindow) = 22 /\ c2.(slowStartLargeReduction) = false /\ c2.(largestSentAtLastCutback) = 2).
  { vm_compute in E2. injection E2 as <-. split_and!; reflexivity. }
  destruct Hc2 as (Hc & Hr & Hcb). split; [exact Hw|]. split; [exact Hc|]. split.
  - specialize (Hl 9 1350 40000 Hr). rewrite Hcb in Hl. destruct Hl as [-> _]. rewrite Hc. reflexivity.
  - destruct (Ha demo_rtts [1; 2] 5 1350 40000) as [Ho _]. unfold demo_store. rewrite Ho by lia. fold demo_store. rewrite E1.
    vm_compute in E1. injection E1 as <-. reflexivity.
Defined.

End OliaProofs.
