(* ===== verification/Path.v ===== *)
(** * Paths ([path.go])

    One path of a connection: the handlers of the packets sent and received on
    it, its packet numbers and its state.  The socket, the channels and the loop
    that waits for the timer are not part of the model; the clock is an argument.
    The round-trip statistics of the path are the ones in its sent packet handler,
    with which the code shares them by pointer. *)

From S2P Require Import Prelude ByteOrder Protocol WireFrames WireStream WireAck WireHeader.
From S2P Require Import PacketUnpacker MinMax AckReceived ConnParams RTTStats SentPackets.

Definition SkipPacketAveragePeriodLength : Z := 500.
Definition minPathTimer : Z := 10 * Millisecond.
Definition maxPathTimer : Z := Second.

Module Path.

Section path.
Context {S : Type} `{cong : SendAlgorithm S}.

Record t : Type := mk {
  pathID : Z;
  sentPacketHandler : SentPacketHandler.t S;
  receivedPacketHandler : ReceivedPacketHandler.t;
  open : bool;
  potentiallyFailed : bool;
  packetNumberGenerator : PacketNumberGenerator.t;
  lastRcvdPacketNumber : Z;
  largestRcvdPacketNumber : Z;
  leastUnacked : Z;
  lastNetworkActivityTime : Z
}.

(** [&congestion.RTTStats{}] *)
Definition zeroRTTStats : RTTStats.t :=
  RTTStats.mk 0 0 0 0 0 0 0 RTTStats.noSample RTTStats.noSample RTTStats.noSample RTTStats.noSample.

(** [path.setup]: [c] is the congestion controller for the path. *)
Definition setup (id version : Z) (c : S) (now : Z) : t :=
  mk id (SentPacketHandler.NewSentPacketHandler zeroRTTStats c) (ReceivedPacketHandler.New version)
    true false (PacketNumberGenerator.new SkipPacketAveragePeriodLength) 0 0 0 now.

Definition set_sentPacketHandler (p : t) (h : SentPacketHandler.t S) : t :=
  mk p.(pathID) h p.(receivedPacketHandler) p.(open) p.(potentiallyFailed) p.(packetNumberGenerator)
    p.(lastRcvdPacketNumber) p.(largestRcvdPacketNumber) p.(leastUnacked) p.(lastNetworkActivityTime).
Definition set_receivedPacketHandler (p : t) (h : ReceivedPacketHandler.t) : t :=
  mk p.(pathID) p.(sentPacketHandler) h p.(open) p.(potentiallyFailed) p.(packetNumberGenerator)
    p.(lastRcvdPacketNumber) p.(largestRcvdPacketNumber) p.(leastUnacked) p.(lastNetworkActivityTime).
Definition set_potentiallyFailed (p : t) (b : bool) : t :=
  mk p.(pathID) p.(sentPacketHandler) p.(receivedPacketHandler) p.(open) b p.(packetNumberGenerator)
    p.(lastRcvdPacketNumber) p.(largestRcvdPacketNumber) p.(leastUnacked) p.(lastNetworkActivityTime).
Definition set_packetNumberGenerator (p : t) (g : PacketNumberGenerator.t) : t :=
  mk p.(pathID) p.(sentPacketHandler) p.(receivedPacketHandler) p.(open) p.(potentiallyFailed) g
    p.(lastRcvdPacketNumber) p.(largestRcvdPacketNumber) p.(leastUnacked) p.(lastNetworkActivityTime).
Definition set_received (p : t) (last largest : Z) : t :=
  mk p.(pathID) p.(sentPacketHandler) p.(receivedPacketHandler) p.(open) p.(potentiallyFailed)
    p.(packetNumberGenerator) last largest p.(leastUnacked) p.(lastNetworkActivityTime).
Definition set_activity (p : t) (now : Z) : t :=
  mk p.(pathID) p.(sentPacketHandler) p.(receivedPacketHandler) p.(open) p.(potentiallyFailed)
    p.(packetNumberGenerator) p.(lastRcvdPacketNumber) p.(largestRcvdPacketNumber) p.(leastUnacked) now.

Definition close (p : t) : t :=
  mk p.(pathID) p.(sentPacketHandler) p.(receivedPacketHandler) false p.(potentiallyFailed)
    p.(packetNumberGenerator) p.(lastRcvdPacketNumber) p.(largestRcvdPacketNumber) p.(leastUnacked)
    p.(lastNetworkActivityTime).

Definition SetLeastUnacked (p : t) (leastUnacked : Z) : t :=
  mk p.(pathID) p.(sentPacketHandler) p.(receivedPacketHandler) p.(open) p.(potentiallyFailed)
    p.(packetNumberGenerator) p.(lastRcvdPacketNumber) p.(largestRcvdPacketNumber) leastUnacked
    p.(lastNetworkActivityTime).

Definition rttStats (p : t) : RTTStats.t := p.(sentPacketHandler).(SentPacketHandler.rttStats).

Definition SendingAllowed (p : t) : bool := p.(open) && SentPacketHandler.SendingAllowed p.(sentPacketHandler).

Definition GetStopWaitingFrame (p : t) (force : bool) : t * option StopWaitingFrame.t :=
  let '(h, f) := SentPacketHandler.GetStopWaitingFrame p.(sentPacketHandler) force in
  (set_sentPacketHandler p h, f).

(** [ack.PathID = p.pathID] *)
Definition GetAckFrame (p : t) (now : Z) : res (t * option AckFrame.t) :=
  match ReceivedPacketHandler.GetAckFrame p.(receivedPacketHandler) now with
  | Ok (h, ack) =>
      Ok (set_receivedPacketHandler p h,
          match ack with
          | Some f => Some (AckFrame.mk p.(pathID) f.(AckFrame.LargestAcked) f.(AckFrame.LowestAcked)
                              f.(AckFrame.AckRanges) f.(AckFrame.PacketReceivedTime) f.(AckFrame.DelayTime))
          | None => None
          end)
  | Err e => Err e
  | Panic => Panic
  end.

Definition GetClosePathFrame (p : t) : res ClosePathFrame.t :=
  match ReceivedPacketHandler.GetClosePathFrame p.(receivedPacketHandler) with
  | Ok f => Ok (ClosePathFrame.mk p.(pathID) f.(ClosePathFrame.LargestAcked) f.(ClosePathFrame.LowestAcked)
                  f.(ClosePathFrame.AckRanges))
  | Err e => Err e
  | Panic => Panic
  end.

(** The idle timeout once there is a crypto setup. *)
Definition idleTimeout (p : t) (handshakeComplete : bool) (params : ConnParams.t) (handshakeTimeout : Z) : Z :=
  if p.(open) && (negb (p.(pathID) =? 0) || handshakeComplete)
  then ConnParams.GetIdleConnectionStateLifetime params else handshakeTimeout.

(** The deadline of the timer: the ACK alarm replaces the idle timeout, the loss
    alarm may be earlier; at least [minPathTimer] and at most [maxPathTimer] from now. *)
Definition maybeResetTimer (p : t) (idle now : Z) : Z :=
  let deadline := p.(lastNetworkActivityTime) + idle in
  let deadline := match ReceivedPacketHandler.GetAlarmTimeout p.(receivedPacketHandler) with
                  | Some ackAlarm => ackAlarm | None => deadline end in
  let deadline := match SentPacketHandler.GetAlarmTimeout p.(sentPacketHandler) with
                  | Some lossTime => MinTime deadline lossTime | None => deadline end in
  MinTime (MaxTime deadline (now + minPathTimer)) (now + maxPathTimer).

(** [quicErr, ok := err.( *qerr.QuicError); ok && quicErr.ErrorCode == qerr.DecryptionFailure] *)
Definition decryptionFailed (e : error) : bool :=
  match e with
  | QuicError code _ | QuicErrorf code _ _ | QuicErrorOf code _ => code =? DecryptionFailure
  | _ => false
  end.

(** [path.handlePacketImpl] up to the call of [sess.handleFrames], whose argument is
    the result ([None] when the path is closed); [version] and [pers] are the
    session's, [marks] is [streamsMap.unreliableStreamMark], [rcvTime] is [None]
    when it is not set, and the boolean tells whether the remote address is
    updated.  The outer [None] is that of [Unpack]. *)
Definition handlePacketImpl `{aead : QuicAEAD} (p : t) (version : Z) (pers : Perspective) (marks : gmap Z bool)
    (hdr : PublicHeader.t) (data : list Z) (rcvTime : option Z) (now : Z)
  : option (t * gmap Z bool * bool * res (option (Z * list Frame))) :=
  if negb p.(open) then Some (p, marks, false, Ok None)
  else
    let p := match rcvTime with Some time => set_activity p time | None => p end in
    let p := set_potentiallyFailed p false in
    let pn := InferPacketNumber hdr.(PublicHeader.PacketNumberLen) p.(largestRcvdPacketNumber)
                hdr.(PublicHeader.PacketNumber) in
    let hdr := PublicHeader.mk hdr.(PublicHeader.Raw) hdr.(PublicHeader.ConnectionID) hdr.(PublicHeader.PathID)
                 hdr.(PublicHeader.VersionFlag) hdr.(PublicHeader.ResetFlag) hdr.(PublicHeader.TruncateConnectionID)
                 hdr.(PublicHeader.MultipathFlag) hdr.(PublicHeader.PacketNumberLen) pn
                 hdr.(PublicHeader.VersionNumber) hdr.(PublicHeader.SupportedVersions)
                 hdr.(PublicHeader.DiversificationNonce) in
    match PacketUnpacker.Unpack version marks hdr.(PublicHeader.Raw) hdr data with
    | None => None
    | Some (marks, Panic) => Some (p, marks, false, Panic)
    | Some (marks, Err e) => Some (p, marks, isServer pers && negb (decryptionFailed e), Err e)
    | Some (marks, Ok (level, frames)) =>
        let p := set_received p pn (MaxPacketNumber p.(largestRcvdPacketNumber) pn) in
        let '(h, err) := ReceivedPacketHandler.ReceivedPacket p.(receivedPacketHandler) pn
                           (HasRetransmittableFrames frames) now in
        let p := set_receivedPacketHandler p h in
        Some (p, marks, isServer pers,
              match err with Some e => Err e | None => Ok (Some (level, frames)) end)
    end.

(** Whether nothing was received since the last packet was sent; then the path is
    potentially failed. *)
Definition onRTO (p : t) (lastSentTime : Z) : t * bool :=
  if p.(lastNetworkActivityTime) <? lastSentTime then (set_potentiallyFailed p true, true) else (p, false).

(** Whether the alarm of the sent packet handler ends in a retransmission timeout,
    where it calls [onRTO]. *)
Definition timesOut (h : SentPacketHandler.t S) : bool :=
  SentPacketHandler.hasOutstandingRetransmittablePacket h
  && match h.(SentPacketHandler.lossTime) with None => true | Some _ => false end
  && negb (h.(SentPacketHandler.tlpCount) <? maxTailLossProbes).

(** [sentPacketHandler.OnAlarm] with the callback of the path; the result tells
    whether the callback scheduled a PATHS frame. *)
Definition OnAlarm (p : t) (now : Z) : t * bool :=
  let h := p.(sentPacketHandler) in
  let '(p, failed) := if timesOut h then onRTO p h.(SentPacketHandler.lastSentTime) else (p, false) in
  (set_sentPacketHandler p (SentPacketHandler.OnAlarm h failed now), failed).

(** The session's loop when the timer of the path fired. *)
Definition handleTimer (p : t) (now : Z) : t * bool :=
  match SentPacketHandler.GetAlarmTimeout p.(sentPacketHandler) with
  | Some timeout => if timeout <? now then OnAlarm p now else (p, false)
  | None => (p, false)
  end.

End path.

Arguments t : clear implicits.

End Path.
