(* ===== verification/PacketPacker.v ===== *)
(** * The packet packer ([packet_packer.go])

    Packets are composed from the queued STOP_WAITING and ACK frames of the path,
    the control frames (last one first), and STREAM frames from the framer; then
    header and frames are written and the payload is sealed.  The crypto setup is
    an interface.  The packer, the framer, the streams with flow control and the
    path are threaded through; the random number for the packet number generator
    is an argument. *)

From S2P Require Import Prelude ByteOrder Protocol WireHeader WireFrames WireStream WireAck.
From S2P Require Import PacketUnpacker MinMax ConnParams FlowControl StreamSorter Stream StreamsMap StreamFramer.
From S2P Require Import SentPackets Path.

Definition NonForwardSecurePacketSizeReduction : Z := 50.

(** [handshake.Sealer]: [Seal] maps a payload, the packet number and the associated
    data to the ciphertext. *)
Record Sealer : Type := mkSealer { Overhead : Z; Seal : list Z -> Z -> list Z -> list Z }.

(** What the packer calls of [handshake.CryptoSetup]. *)
Class CryptoSetup : Type := {
  GetSealer : Z * Sealer;
  GetSealerForCryptoStream : Z * Sealer;
  GetSealerWithEncryptionLevel : Z -> error + Sealer;
  DiversificationNonce : list Z
}.

Module PacketPacker.

Record packedPacket : Type := mkPacked {
  number : Z;
  raw : list Z;
  frames : list Frame;
  encryptionLevel : Z
}.

Record t : Type := mk {
  connectionID : Z;
  perspective : Perspective;
  version : Z;
  controlFrames : list Frame;
  stopWaiting : gmap Z StopWaitingFrame.t;
  ackFrame : gmap Z AckFrame.t
}.

Definition newPacketPacker (connectionID : Z) (pers : Perspective) (version : Z) : t :=
  mk connectionID pers version [] ∅ ∅.

Definition set_controlFrames (p : t) (fs : list Frame) : t :=
  mk p.(connectionID) p.(perspective) p.(version) fs p.(stopWaiting) p.(ackFrame).
Definition set_stopWaiting (p : t) (m : gmap Z StopWaitingFrame.t) : t :=
  mk p.(connectionID) p.(perspective) p.(version) p.(controlFrames) m p.(ackFrame).
Definition set_ackFrame (p : t) (m : gmap Z AckFrame.t) : t :=
  mk p.(connectionID) p.(perspective) p.(version) p.(controlFrames) p.(stopWaiting) m.

Definition errNoAck : error := ErrorsNew "packet packer BUG: no ack frame queued".
Definition errForwardSecure : error := ErrorsNew
  "PacketPacker BUG: forward-secure encrypted handshake packets don't need special treatment".
Definition errNoStopWaiting : error := ErrorsNew
  "PacketPacker BUG: Handshake retransmissions must contain a StopWaitingFrame".
Definition errTooLarge : error := ErrorsNew "PacketPacker BUG: packet too large".
Definition errNumbers : error := ErrorsNew "packetPacker BUG: Peeked and Popped packet numbers do not match".
Definition errPayload (len max : Z) : error :=
  Errorf "Packet Packer BUG: packet payload (%d) too large (%d)" [len; max].

Definition QueueControlFrame (p : t) (frame : Frame) (pathID : Z) : t :=
  match frame with
  | FStopWaiting f => set_stopWaiting p (<[pathID := f]> p.(stopWaiting))
  | FAck f => set_ackFrame p (<[pathID := f]> p.(ackFrame))
  | _ => set_controlFrames p (p.(controlFrames) ++ [frame])
  end.

Definition canSendData (p : t) (encLevel : Z) : bool :=
  match p.(perspective) with
  | PerspectiveClient => EncryptionSecure <=? encLevel
  | PerspectiveServer => encLevel =? EncryptionForwardSecure
  end.

Section packer.
Context {S : Type} `{cong : SendAlgorithm S} `{crypto : CryptoSetup}.

Definition getPublicHeader (p : t) (params : ConnParams.t) (encLevel : Z) (pth : Path.t S)
    (handshakeComplete : bool) : PublicHeader.t :=
  let pnum := PacketNumberGenerator.Peek pth.(Path.packetNumberGenerator) in
  let packetNumberLen := GetPacketNumberLengthForPublicHeader pnum pth.(Path.leastUnacked) in
  let nonce := if isServer p.(perspective) && (encLevel =? EncryptionSecure) then DiversificationNonce else [] in
  let versionFlag := isClient p.(perspective) && negb (encLevel =? EncryptionForwardSecure) in
  let multipath := handshakeComplete && (VersionMP <=? p.(version)) in
  PublicHeader.mk [] p.(connectionID) (if multipath then pth.(Path.pathID) else 0) versionFlag false
    (if multipath then false else ConnParams.TruncateConnectionID params) multipath packetNumberLen pnum
    (if versionFlag then p.(version) else 0) [] nonce.

(** [now] is the clock that [AckFrame.Write] reads, [num] the random number. *)
Definition writeAndSealPacket (p : t) (hdr : PublicHeader.t) (payloadFrames : list Frame) (sealer : Sealer)
    (pth : Path.t S) (now : Z) (num : option Z) : Path.t S * res (list Z) :=
  match PublicHeader.Write hdr p.(version) p.(perspective) [] with
  | WErr e _ => (pth, Err e)
  | WPanic => (pth, Panic)
  | WOk header =>
      match writeFrames payloadFrames p.(version) now header with
      | WErr e _ => (pth, Err e)
      | WPanic => (pth, Panic)
      | WOk buffer =>
          if MaxPacketSize <? Z.of_nat (length buffer) + sealer.(Overhead) then (pth, Err errTooLarge)
          else
            let payload := drop (length header) buffer in
            let raw := header ++ sealer.(Seal) payload hdr.(PublicHeader.PacketNumber) header in
            let '(g, n) := PacketNumberGenerator.Pop pth.(Path.packetNumberGenerator) num in
            let pth := Path.set_packetNumberGenerator pth g in
            if negb (n =? hdr.(PublicHeader.PacketNumber)) then (pth, Err errNumbers) else (pth, Ok raw)
      end
  end.

(** The packet of a result of [writeAndSealPacket]. *)
Definition packed (hdr : PublicHeader.t) (fs : list Frame) (encLevel : Z) (r : res (list Z)) : res packedPacket :=
  match r with
  | Ok raw => Ok (mkPacked hdr.(PublicHeader.PacketNumber) raw fs encLevel)
  | Err e => Err e
  | Panic => Panic
  end.

Definition PackConnectionClose (p : t) (params : ConnParams.t) (ccf : ConnectionCloseFrame.t) (pth : Path.t S)
    (handshakeComplete : bool) (now : Z) (num : option Z) : Path.t S * res packedPacket :=
  let '(encLevel, sealer) := GetSealer in
  let hdr := getPublicHeader p params encLevel pth handshakeComplete in
  let '(pth, r) := writeAndSealPacket p hdr [FConnectionClose ccf] sealer pth now num in
  (pth, packed hdr [FConnectionClose ccf] encLevel r).

(** The STOP_WAITING frame of a path with the packet number filled in. *)
Definition fillStopWaiting (hdr : PublicHeader.t) (f : StopWaitingFrame.t) : StopWaitingFrame.t :=
  StopWaitingFrame.mk f.(StopWaitingFrame.LeastUnacked) hdr.(PublicHeader.PacketNumberLen)
    hdr.(PublicHeader.PacketNumber).

Definition PackAckPacket (p : t) (params : ConnParams.t) (pth : Path.t S) (handshakeComplete : bool) (now : Z)
    (num : option Z) : t * Path.t S * res packedPacket :=
  let id := pth.(Path.pathID) in
  match p.(ackFrame) !! id with
  | None => (p, pth, Err errNoAck)
  | Some ack =>
      let '(encLevel, sealer) := GetSealer in
      let hdr := getPublicHeader p params encLevel pth handshakeComplete in
      let fs := FAck ack :: match p.(stopWaiting) !! id with
                            | Some swf => [FStopWaiting (fillStopWaiting hdr swf)]
                            | None => []
                            end in
      let p := set_ackFrame (set_stopWaiting p (delete id p.(stopWaiting))) (delete id p.(ackFrame)) in
      let '(pth, r) := writeAndSealPacket p hdr fs sealer pth now num in
      (p, pth, packed hdr fs encLevel r)
  end.

Definition PackHandshakeRetransmission (p : t) (params : ConnParams.t) (packet : Packet.t) (pth : Path.t S)
    (handshakeComplete : bool) (now : Z) (num : option Z) : t * Path.t S * res packedPacket :=
  let id := pth.(Path.pathID) in
  let level := packet.(Packet.EncryptionLevel) in
  if level =? EncryptionForwardSecure then (p, pth, Err errForwardSecure)
  else
    match GetSealerWithEncryptionLevel level with
    | inl e => (p, pth, Err e)
    | inr sealer =>
        match p.(stopWaiting) !! id with
        | None => (p, pth, Err errNoStopWaiting)
        | Some swf =>
            let hdr := getPublicHeader p params level pth handshakeComplete in
            let fs := FStopWaiting (fillStopWaiting hdr swf) :: packet.(Packet.Frames) in
            let p := set_stopWaiting p (delete id p.(stopWaiting)) in
            let '(pth, r) := writeAndSealPacket p hdr fs sealer pth now num in
            (p, pth, packed hdr fs level r)
        end
    end.

(** The loop over the control frames, from the last one on: the taken frames, the
    frames left (last one first) and the length. *)
Fixpoint takeControl (version maxFrameSize : Z) (fs : list Frame) (payloadLength : Z)
  : list Frame * list Frame * res Z :=
  match fs with
  | [] => ([], [], Ok payloadLength)
  | frame :: rest =>
      match MinLengthFrame frame version with
      | Ok minLength =>
          if maxFrameSize <? payloadLength + minLength then ([], fs, Ok payloadLength)
          else
            let '(taken, remaining, r) := takeControl version maxFrameSize rest (payloadLength + minLength) in
            (frame :: taken, remaining, r)
      | Err e => ([], fs, Err e)
      | Panic => ([], fs, Panic)
      end
  end.

(** The STOP_WAITING and the ACK frame of the path, and their length. *)
Definition queuedFrames (p : t) (id : Z) : list Frame :=
  (match p.(stopWaiting) !! id with Some f => [FStopWaiting f] | None => [] end)
  ++ (match p.(ackFrame) !! id with Some f => [FAck f] | None => [] end).

Fixpoint sumMinLength (version : Z) (fs : list Frame) : res Z :=
  match fs with
  | [] => Ok 0
  | f :: fs =>
      match MinLengthFrame f version, sumMinLength version fs with
      | Ok l, Ok n => Ok (l + n)
      | Ok _, r => r
      | r, _ => r
      end
  end.

(** [fs[len(fs)-1].DataLenPresent = false] *)
Fixpoint openLast (fs : list StreamFrame.t) : list StreamFrame.t :=
  match fs with
  | [] => []
  | [f] => [StreamFramer.set_DataLenPresent f false]
  | f :: fs => f :: openLast fs
  end.

(** All BLOCKED frames become control frames. *)
Fixpoint popBlocked (fuel : nat) (p : t) (fr : StreamFramer.t) : t * StreamFramer.t :=
  match fuel with
  | O => (p, fr)
  | Datatypes.S fuel =>
      match StreamFramer.PopBlockedFrame fr with
      | (fr, None) => (p, fr)
      | (fr, Some b) => popBlocked fuel (set_controlFrames p (p.(controlFrames) ++ [FBlocked b])) fr
      end
  end.

Definition composeNextPacket (p : t) (fr : StreamFramer.t) (st : StreamsMap.t * FlowControlManager.mgr)
    (maxFrameSize : Z) (canSendStreamFrames : bool) (pth : Path.t S)
  : t * StreamFramer.t * (StreamsMap.t * FlowControlManager.mgr) * res (list Frame) :=
  let payloadFrames := queuedFrames p pth.(Path.pathID) in
  match sumMinLength p.(version) payloadFrames with
  | Err e => (p, fr, st, Err e)
  | Panic => (p, fr, st, Panic)
  | Ok payloadLength =>
      let '(taken, remaining, r) := takeControl p.(version) maxFrameSize (reverse p.(controlFrames)) payloadLength in
      let p := set_controlFrames p (reverse remaining) in
      match r with
      | Err e => (p, fr, st, Err e)
      | Panic => (p, fr, st, Panic)
      | Ok payloadLength =>
          let payloadFrames := payloadFrames ++ taken in
          if maxFrameSize <? payloadLength then (p, fr, st, Err (errPayload payloadLength maxFrameSize))
          else if negb canSendStreamFrames then (p, fr, st, Ok payloadFrames)
          else
            match StreamFramer.PopStreamFrames2 fr st (u64 (u64 (maxFrameSize + 2) - payloadLength))
                    (SentPacketHandler.SendingAllowed pth.(Path.sentPacketHandler)) with
            | None => (p, fr, st, Panic)
            | Some (fr, st, fs) =>
                let '(p, fr) := popBlocked (Datatypes.S (length fr.(StreamFramer.blockedFrameQueue))) p fr in
                (p, fr, st, Ok (payloadFrames ++ map FStream (openLast fs)))
            end
      end
  end.

Definition packCryptoPacket (p : t) (st : StreamsMap.t * FlowControlManager.mgr) (pth : Path.t S)
    (handshakeComplete : bool) (now : Z) (num : option Z)
  : (StreamsMap.t * FlowControlManager.mgr) * Path.t S * res packedPacket :=
  let '(encLevel, sealer) := GetSealerForCryptoStream in
  let hdr := getPublicHeader p st.2.(FlowControlManager.params) encLevel pth handshakeComplete in
  match PublicHeader.GetLength hdr p.(perspective) with
  | Err e => (st, pth, Err e)
  | Panic => (st, pth, Panic)
  | Ok hdrLen =>
      let maxLen := u64 (MaxPacketSize - sealer.(Overhead) - NonForwardSecurePacketSizeReduction - hdrLen) in
      match StreamFramer.PopCryptoStreamFrame st maxLen with
      | Ok (st, Some frame) =>
          let fs := [FStream frame] in
          let '(pth, r) := writeAndSealPacket p hdr fs sealer pth now num in
          (st, pth, packed hdr fs encLevel r)
      | _ => (st, pth, Panic)
      end
  end.

(** The packet number is filled into the STOP_WAITING frame of the path. *)
Definition numberStopWaiting (p : t) (hdr : PublicHeader.t) (id : Z) : t :=
  set_stopWaiting p (alter (fillStopWaiting hdr) id p.(stopWaiting)).

(** A PING at the head of the control frames goes out alone. *)
Definition nextFrames (p : t) (fr : StreamFramer.t) (st : StreamsMap.t * FlowControlManager.mgr) (maxSize : Z)
    (canSendStreamFrames : bool) (pth : Path.t S)
  : t * StreamFramer.t * (StreamsMap.t * FlowControlManager.mgr) * res (list Frame) :=
  match p.(controlFrames) with
  | FPing f :: rest => (set_controlFrames p rest, fr, st, Ok [FPing f])
  | _ => composeNextPacket p fr st maxSize canSendStreamFrames pth
  end.

Definition PackPacket (p : t) (fr : StreamFramer.t) (st : StreamsMap.t * FlowControlManager.mgr) (pth : Path.t S)
    (handshakeComplete : bool) (now : Z) (num : option Z)
  : t * StreamFramer.t * (StreamsMap.t * FlowControlManager.mgr) * Path.t S * res (option packedPacket) :=
  match StreamFramer.HasCryptoStreamFrame st with
  | Err e => (p, fr, st, pth, Err e)
  | Panic => (p, fr, st, pth, Panic)
  | Ok (st, true) =>
      let '(st, pth, r) := packCryptoPacket p st pth handshakeComplete now num in
      (p, fr, st, pth, match r with Ok pkt => Ok (Some pkt) | Err e => Err e | Panic => Panic end)
  | Ok (st, false) =>
      let id := pth.(Path.pathID) in
      let '(encLevel, sealer) := GetSealer in
      let hdr := getPublicHeader p st.2.(FlowControlManager.params) encLevel pth handshakeComplete in
      match PublicHeader.GetLength hdr p.(perspective) with
      | Err e => (p, fr, st, pth, Err e)
      | Panic => (p, fr, st, pth, Panic)
      | Ok hdrLen =>
          let p := numberStopWaiting p hdr id in
          let '(p, fr, st, r) :=
            nextFrames p fr st (u64 (MaxPacketSize - sealer.(Overhead) - hdrLen)) (canSendData p encLevel) pth in
          match r with
          | Err e => (p, fr, st, pth, Err e)
          | Panic => (p, fr, st, pth, Panic)
          | Ok [] => (p, fr, st, pth, Ok None)
          | Ok payloadFrames =>
              if (length payloadFrames =? 1)%nat && (match p.(stopWaiting) !! id with Some _ => true | None => false end)
              then (p, fr, st, pth, Ok None)
              else
                let p := set_ackFrame (set_stopWaiting p (delete id p.(stopWaiting))) (delete id p.(ackFrame)) in
                let '(pth, r) := writeAndSealPacket p hdr payloadFrames sealer pth now num in
                (p, fr, st, pth,
                 match packed hdr payloadFrames encLevel r with Ok pkt => Ok (Some pkt) | Err e => Err e | Panic => Panic end)
          end
      end
  end.

(** A packet with a PING frame only *)
Definition PackPing (p : t) (fr : StreamFramer.t) (st : StreamsMap.t * FlowControlManager.mgr) (pth : Path.t S)
    (handshakeComplete : bool) (now : Z) (num : option Z) :=
  let pth := Path.SetLeastUnacked pth (SentPacketHandler.GetLeastUnacked pth.(Path.sentPacketHandler)) in
  PackPacket (set_controlFrames p (FPing PingFrame.mk :: p.(controlFrames))) fr st pth handshakeComplete now num.

End packer.

End PacketPacker.
