(* ===== verification/PackerProofs.v ===== *)
(** * Packets reach the peer

    What the packer composes from the queued control frames and the streams fits
    into a packet, is written and sealed without an error, and the path of the
    peer that receives the packet hands exactly these frames to its session. *)

From S2P Require Import Prelude ByteOrder Protocol WireHeader WireFrames WireStream WireAck WireAckProofs.
From S2P Require Import PacketUnpacker MinMax AckReceived ConnParams FlowControl StreamSorter StreamSorterProofs Stream.
From S2P Require Import StreamsMap StreamsMapProofs StreamFramer StreamFramerProofs RTTStats SentPackets Cubic Path.
From S2P Require Import PacketPacker.

Module PackerProofs.
Import PacketPacker UnpackerProofs FramerProofs.

(** ** The lengths of the frames *)

(** The control frames whose [MinLength] is their length: all but STREAM, which has
    its data to add, and PATHS frames whose length overflows an 8-bit integer. *)
Definition sized (fr : Frame) : Prop :=
  match fr with
  | FStream _ => False
  | FPaths f => f.(PathsFrame.NumPaths) < 85
  | _ => True
  end.

Lemma length_encPaths version ids : forall rtts, length ids = length rtts ->
  length (PathsFrame.encPaths version ids rtts) = (3 * length ids)%nat.
Proof.
  induction ids as [|id ids IH]; intros [|r rtts] Hl; try done. cbn [PathsFrame.encPaths length] in *.
  rewrite !length_app, bo_enc_length, IH by lia. cbn [length]. lia.
Qed.

Lemma wireIP_length f l : AddAddressFrame.wireIP f = Some l ->
  (f.(AddAddressFrame.IPVersion) = 4 /\ length l = 4%nat) \/ (f.(AddAddressFrame.IPVersion) = 6 /\ length l = 16%nat).
Proof.
  unfold AddAddressFrame.wireIP. destruct (Z.eqb_spec f.(AddAddressFrame.IPVersion) 4).
  - intros Hl%AddAddressFrame.To4_length. auto.
  - destruct (Z.eqb_spec f.(AddAddressFrame.IPVersion) 6); [|done].
    intros Hl%AddAddressFrame.To16_length. auto.
Qed.

Lemma MinLengthFrame_enc pn pnl version now fr :
  frame_ok pn pnl fr -> sized fr -> MinLengthFrame fr version = Ok (Z.of_nat (length (encFrame version now fr))).
Proof.
  destruct fr; cbn [frame_ok sized MinLengthFrame encFrame]; intros Hok Hs; try done.
  - by apply AckProofs.length_ack_enc.
  - unfold RstStreamFrame.enc. by rewrite !length_app, !bo_enc_length.
  - unfold ConnectionCloseFrame.MinLength, ConnectionCloseFrame.enc. rewrite !length_app, !bo_enc_length.
    f_equal. cbn [length]. lia.
  - unfold GoawayFrame.MinLength, GoawayFrame.enc. rewrite !length_app, !bo_enc_length. f_equal. cbn [length]. lia.
  - unfold WindowUpdateFrame.enc. by rewrite !length_app, !bo_enc_length.
  - unfold BlockedFrame.enc. by rewrite !length_app, !bo_enc_length.
  - destruct Hok as ((_ & _ & Hl & _) & _). unfold StopWaitingFrame.MinLength, StopWaitingFrame.enc.
    rewrite !length_app, !bo_enc_length. by destruct Hl as [->|[->|[->| ->]]].
  - destruct Hok as [[l Hl] _]. unfold AddAddressFrame.MinLength, AddAddressFrame.enc. rewrite Hl.
    change (default [] (Some l)) with l. rewrite !length_app, !bo_enc_length. by destruct (wireIP_length _ _ Hl) as [[-> ->]|[-> ->]].
  - by apply ClosePathProofs.length_cp_enc.
  - destruct Hok as (_ & _ & Hn & Hl & _). unfold PathsFrame.MinLength, PathsFrame.enc.
    rewrite !length_app, length_encPaths by done. cbn [length]. unfold u8. rewrite !Z.mod_small; [f_equal; lia|lia|].
    rewrite Z.mod_small; lia.
Qed.

(** ** Composing a payload *)

Lemma length_encPayload_app version now fs1 fs2 :
  length (encPayload version now (fs1 ++ fs2))
  = (length (encPayload version now fs1) + length (encPayload version now fs2))%nat.
Proof. unfold encPayload. by rewrite map_app, concat_app, length_app. Qed.

Lemma payload_ok_app pn pnl fs1 fs2 :
  Forall (frame_ok pn pnl) fs1 -> Forall (fun fr => open_ended fr = false) fs1 -> payload_ok pn pnl fs2 ->
  payload_ok pn pnl (fs1 ++ fs2).
Proof.
  intros H1 H2 H3. induction fs1 as [|fr fs1 IH]; [done|].
  apply Forall_cons in H1 as [? ?], H2 as [Ho ?]. cbn [app payload_ok]. rewrite Ho.
  split; [done|]. split; [done|]. by apply IH.
Qed.

Lemma sumMinLength_enc pn pnl version now fs :
  Forall (frame_ok pn pnl) fs -> Forall sized fs ->
  sumMinLength version fs = Ok (Z.of_nat (length (encPayload version now fs))).
Proof.
  induction fs as [|fr fs IH]; intros H1 H2; [done|].
  apply Forall_cons in H1 as [? ?], H2 as [? ?]. cbn [sumMinLength].
  rewrite (MinLengthFrame_enc pn pnl version now fr) by done. rewrite IH by done.
  unfold encPayload. cbn [map concat]. rewrite length_app. f_equal. lia.
Qed.

(** The control frames that are taken, and those that stay. *)
Lemma takeControl_ok pn pnl version now max fs : forall len,
  Forall (frame_ok pn pnl) fs -> Forall sized fs ->
  exists taken rest len', takeControl version max fs len = (taken, rest, Ok len')
    /\ fs = taken ++ rest /\ len' = len + Z.of_nat (length (encPayload version now taken))
    /\ (len <= max -> len' <= max) /\ (max < len -> taken = []).
Proof.
  induction fs as [|fr fs IH]; intros len H1 H2.
  { exists [], [], len. cbn. split_and!; auto; lia. }
  apply Forall_cons in H1 as [? ?], H2 as [? ?]. cbn [takeControl].
  rewrite (MinLengthFrame_enc pn pnl version now fr) by done.
  set (l := Z.of_nat (length (encFrame version now fr))).
  destruct (Z.ltb_spec max (len + l)).
  { exists [], (fr :: fs), len. cbn. split_and!; auto; lia. }
  destruct (IH (len + l)) as (taken & rest & len' & -> & -> & Hlen & Hle & Hgt); [done..|].
  exists (fr :: taken), rest, len'. split; [done|]. split; [done|].
  change (encPayload version now (fr :: taken)) with (encFrame version now fr ++ encPayload version now taken).
  rewrite length_app. fold l. split; [lia|]. split; [intros _; apply Hle; lia|lia].
Qed.

(** ** The STREAM frames *)

(** The stream IDs that survive the wire format. *)
Definition okID (id : Z) : Prop := 0 <= id < 2 ^ 8 \/ 2 ^ 16 <= id < 2 ^ 24.

Lemma headerLen_enc f version : StreamProofs.wf f ->
  Z.of_nat (length (StreamProofs.enc f version)) = frameLen f.
Proof.
  intros Hwf. pose proof (StreamProofs.length_enc f version Hwf) as Hl. unfold frameLen, StreamFramer.headerLen.
  change (StreamFrame.MinLength f VersionWhatever) with (StreamFrame.MinLength f version). rewrite Hl. lia.
Qed.

Lemma headerLen_ge f : f.(StreamFrame.DataLenPresent) = true -> 4 <= StreamFramer.headerLen f.
Proof.
  intros Hd. unfold StreamFramer.headerLen, StreamFrame.MinLength. rewrite Hd.
  pose proof (StreamProofs.calculateStreamIDLength_range f). pose proof (StreamProofs.getOffsetLength_ok f) as Hok.
  unfold StreamProofs.offset_len_ok in Hok. lia.
Qed.

(** A popped frame can be written, also without its length. *)
Lemma good_wf content m f b :
  good okID content m f -> Z.of_nat (length (content f.(StreamFrame.StreamID))) < 2 ^ 63 ->
  StreamFrame.DataLen f <= MaxPacketSize ->
  StreamProofs.wf (StreamFramer.set_DataLenPresent f b) /\ StreamProofs.sid_len_odd (StreamFramer.set_DataLenPresent f b).
Proof.
  intros ((H0 & H1 & _) & _ & _ & Hid & Hne) Hc Hd. unfold okID in Hid.
  unfold StreamProofs.wf, StreamProofs.sid_len_odd, in_width, StreamFramer.set_DataLenPresent, MaxPacketSize in *.
  cbn. change (StreamFrame.DataLen (StreamFrame.mk _ _ _ _ _ _)) with (StreamFrame.DataLen f).
  split; [|lia]. split_and!; try lia; try done. destruct b; lia.
Qed.

(** The last frame without its length saves two bytes. *)
Lemma openLast_ok content m version now pn pnl fs : 
  (forall id, Z.of_nat (length (content id)) < 2 ^ 63) -> total fs <= MaxPacketSize + 2 ->
  Forall (good okID content m) fs -> Forall (fun f => f.(StreamFrame.DataLenPresent) = true) fs ->
  payload_ok pn pnl (map FStream (openLast fs))
  /\ Z.of_nat (length (encPayload version now (map FStream (openLast fs))))
     = total fs - (if (length fs =? 0)%nat then 0 else 2).
Proof.
  intros Hc Ht Hg Hd. induction fs as [|f fs IH]; [by cbn|].
  apply Forall_cons in Hg as [Hf Hg], Hd as [Hdf Hd]. cbn [total foldr] in Ht. fold (total fs) in Ht.
  assert (Htot : 0 <= total fs).
  { clear. induction fs as [|g fs IH]; [done|]. cbn [total foldr]. fold (total fs). pose proof (frameLen_nonneg g). lia. }
  pose proof (headerLen_ge f Hdf). unfold frameLen in Ht.
  pose proof (good_wf content m f false Hf (Hc _) ltac:(lia)) as [Hw0 Ho0].
  pose proof (good_wf content m f true Hf (Hc _) ltac:(lia)) as [Hw1 Ho1].
  assert (Heq : StreamFramer.set_DataLenPresent f true = f) by (destruct f; cbn in *; by subst).
  rewrite Heq in Hw1, Ho1. unfold encPayload.
  assert (Hdata : 0 <= StreamFrame.DataLen f) by (unfold StreamFrame.DataLen; lia).
  destruct fs as [|g fs].
  - cbn [openLast map payload_ok frame_ok open_ended concat total foldr length Nat.eqb]. split; [by auto|].
    rewrite app_nil_r. cbn [encFrame]. rewrite headerLen_enc by done. unfold frameLen, StreamFramer.headerLen, StreamFrame.MinLength.
    rewrite Hdf. cbn. unfold StreamFrame.DataLen. cbn.
    change (StreamFrame.calculateStreamIDLength (StreamFramer.set_DataLenPresent f false))
      with (StreamFrame.calculateStreamIDLength f).
    change (StreamFrame.getOffsetLength (StreamFramer.set_DataLenPresent f false))
      with (StreamFrame.getOffsetLength f). lia.
  - destruct IH as [IHp IHl]; [lia|done|done|].
    change (openLast (f :: g :: fs)) with (f :: openLast (g :: fs)).
    cbn [map payload_ok frame_ok open_ended concat total foldr length Nat.eqb].
    split; [rewrite Hdf; by auto|]. rewrite length_app. cbn [encFrame].
    rewrite Nat2Z.inj_add, headerLen_enc by done. unfold encPayload in IHl. rewrite IHl.
    change (length (g :: fs) =? 0)%nat with false. cbn [total foldr]. lia.
Qed.

Lemma openLast_In fs f : FStream f ∈ map FStream (openLast fs) ->
  exists g b, g ∈ fs /\ f = StreamFramer.set_DataLenPresent g b.
Proof.
  induction fs as [|g fs IH]; [by intros ?%elem_of_nil|]. destruct fs as [|h fs].
  - cbn [openLast map]. intros [= ->]%list_elem_of_singleton. exists g, false. split; [by left|done].
  - change (openLast (g :: h :: fs)) with (g :: openLast (h :: fs)). cbn [map].
    intros [[= ->]|Hin]%elem_of_cons.
    + exists g, g.(StreamFrame.DataLenPresent). split; [by left|by destruct g].
    + destruct (IH Hin) as (x & b & ? & ->). exists x, b. split; [by right|done].
Qed.

(** What popping the frames [fs] leaves behind: [fs] are pieces of their streams, and
    no byte or FIN is lost between the streams, the retransmission queue and [fs]. *)
Definition popped (content : Z -> list Z) (m : StreamsMap.t) (fr : StreamFramer.t) (m' : StreamsMap.t)
  (fr' : StreamFramer.t) (fs : list StreamFrame.t) : Prop :=
  all_framed content m' /\ Forall (good okID content m') fs
  /\ Forall (good okID content m') fr'.(StreamFramer.retransmissionQueue) /\ covered m m' fs
  /\ (forall g x, g ∈ fr.(StreamFramer.retransmissionQueue) -> covers g x ->
        exists g', g' ∈ fs ++ fr'.(StreamFramer.retransmissionQueue)
          /\ g'.(StreamFrame.StreamID) = g.(StreamFrame.StreamID) /\ covers g' x)
  /\ (forall g, g ∈ fr.(StreamFramer.retransmissionQueue) -> g.(StreamFrame.FinBit) = true ->
        exists g', g' ∈ fs ++ fr'.(StreamFramer.retransmissionQueue)
          /\ g'.(StreamFrame.StreamID) = g.(StreamFrame.StreamID) /\ g'.(StreamFrame.FinBit) = true).

Lemma covered_refl m : covered m m [].
Proof.
  intros id s0 s H0 H1. assert (s = s0) as -> by congruence.
  split; [intros x Hx; lia|]. split; [by left|done].
Qed.

Lemma popped_none content m fr :
  all_framed content m -> Forall (good okID content m) fr.(StreamFramer.retransmissionQueue) ->
  popped content m fr m fr [].
Proof.
  intros Hf Hq. split; [done|]. split; [by apply Forall_nil|]. split; [done|]. split; [apply covered_refl|].
  split; intros g; [intros x|]; intros ? ?; by exists g.
Qed.

(** ** The payload of a packet *)

Lemma popBlocked_ok fuel : forall p fr, (length fr.(StreamFramer.blockedFrameQueue) < fuel)%nat ->
  popBlocked fuel p fr
  = (set_controlFrames p (p.(controlFrames) ++ map FBlocked fr.(StreamFramer.blockedFrameQueue)),
     StreamFramer.set_blockedFrameQueue fr []).
Proof.
  induction fuel as [|fuel IH]; intros p fr Hf; [lia|]. cbn [popBlocked]. unfold StreamFramer.PopBlockedFrame.
  destruct fr as [rq bq aq cq pf]. cbn [StreamFramer.blockedFrameQueue] in *. destruct bq as [|b bq].
  - cbn. rewrite app_nil_r. by destruct p.
  - cbn [length] in Hf. rewrite IH by (cbn; lia). cbn. by rewrite <- app_assoc.
Qed.

(** The streams and the retransmission queue before a packet is composed. *)
Record streams_ok (content : Z -> list Z) (kind : bool) (fr : StreamFramer.t) (m : StreamsMap.t) : Prop := {
  so_ids : forall id, is_Some (m.(StreamsMap.streams) !! id) -> okID id;
  so_inv : StreamsMapProofs.map_inv m;
  so_kind : one_kind m kind;
  so_robin : robin_ok m;
  so_length : forall id, Z.of_nat (length (content id)) < 2 ^ 63;
  so_framed : all_framed content m;
  so_queue : Forall (good okID content m) fr.(StreamFramer.retransmissionQueue)
}.

(** The frames that are queued for a packet with the number [pn] on the path [id]. *)
Definition queued_ok (pn pnl : Z) (p : t) (id : Z) : Prop :=
  Forall (frame_ok pn pnl) (queuedFrames p id) /\ Forall (frame_ok pn pnl) p.(controlFrames)
  /\ Forall sized p.(controlFrames).

Lemma queuedFrames_sized p id :
  Forall sized (queuedFrames p id) /\ Forall (fun fr => open_ended fr = false) (queuedFrames p id).
Proof.
  unfold queuedFrames. destruct (p.(stopWaiting) !! id), (p.(ackFrame) !! id); split; repeat constructor.
Qed.

Lemma sized_closed fs : Forall sized fs -> Forall (fun fr => open_ended fr = false) fs.
Proof. intros Hs. apply (Forall_impl _ _ _ Hs). by intros []. Qed.

(** The result of composing the frames of a packet. *)
Definition composed (version now max pn pnl : Z) (queued taken : list Frame) (fs : list StreamFrame.t)
  (r : res (list Frame)) : Prop :=
  match r with
  | Ok frames => frames = queued ++ taken ++ map FStream (openLast fs) /\ payload_ok pn pnl frames
                 /\ Z.of_nat (length (encPayload version now frames)) <= max
  | Err e => taken = [] /\ fs = [] /\ max < Z.of_nat (length (encPayload version now queued))
             /\ e = errPayload (Z.of_nat (length (encPayload version now queued))) max
  | Panic => False
  end.

Lemma composeNextPacket_ok {S : Type} `{cong : SendAlgorithm S} content kind pn pnl now p fr m f max (can : bool)
    (pth : Path.t S) :
  queued_ok pn pnl p pth.(Path.pathID) -> streams_ok content kind fr m -> 0 <= max <= MaxPacketSize ->
  exists fr' m' f' r kept taken blocked fs,
    composeNextPacket p fr (m, f) max can pth
    = (set_controlFrames p (kept ++ map FBlocked blocked), fr', (m', f'), r)
    /\ p.(controlFrames) = kept ++ reverse taken /\ popped content m fr m' fr' fs /\ (can = false -> fs = [])
    /\ composed p.(version) now max pn pnl (queuedFrames p pth.(Path.pathID)) taken fs r.
Proof.
  intros (Hq & Hc & Hs) [] Hmax. set (id := Path.pathID pth) in *.
  destruct (queuedFrames_sized p id) as [Hqs Hqo]. unfold composeNextPacket. fold id.
  rewrite (sumMinLength_enc pn pnl p.(version) now) by done. set (lq := Z.of_nat _).
  destruct (takeControl_ok pn pnl p.(version) now max (reverse p.(controlFrames)) lq) as
    (taken & rest & len & -> & Hrev & Hlen & Hle & Hgt); [by rewrite Forall_reverse..|].
  assert (Hsplit : p.(controlFrames) = reverse rest ++ reverse taken).
  { rewrite <- reverse_app, <- Hrev. by rewrite reverse_involutive. }
  rewrite Hsplit, !Forall_app in Hc, Hs. destruct Hc as [_ Hct], Hs as [_ Hst].
  rewrite Forall_reverse in Hct, Hst.
  destruct (Z.ltb_spec max len) as [Hbig|Hfit].
  { assert (max < lq) by lia. rewrite (Hgt ltac:(done)) in *.
    exists fr, m, f, (Err (errPayload len max)), (reverse rest), [], [], []. cbn [map app]. rewrite app_nil_r.
    split; [done|]. split; [done|]. split; [by apply popped_none|]. split; [done|].
    split; [done|]. split; [done|]. split; [done|]. f_equal. cbn in Hlen. lia. }
  assert (Hpay : forall tail, payload_ok pn pnl tail -> payload_ok pn pnl (queuedFrames p id ++ taken ++ tail)).
  { intros tail Ht. apply payload_ok_app; [done..|]. apply payload_ok_app; [done| |done]. by apply sized_closed. }
  destruct can; cbn [negb].
  2:{ exists fr, m, f, (Ok (queuedFrames p id ++ taken)), (reverse rest), taken, [], []. cbn [map app].
      rewrite app_nil_r. split; [done|]. split; [done|]. split; [by apply popped_none|]. split; [done|].
      cbn [composed openLast map]. split; [by rewrite app_nil_r|]. split; [rewrite <- (app_nil_r taken); by apply Hpay|].
      rewrite length_encPayload_app. lia. }
  unfold MaxPacketSize in Hmax. rewrite (u64_small (max + 2)), u64_small by lia.
  destruct (PopStreamFrames2_ok okID content kind fr m f (max + 2 - len)
    (SentPacketHandler.SendingAllowed pth.(Path.sentPacketHandler))) as
    (fr' & m' & f' & fs & -> & Hf' & Hg & Hq' & Htot & Hdl & Hcov & Hb & Hfin); [done..|lia|].
  rewrite popBlocked_ok by lia.
  exists (StreamFramer.set_blockedFrameQueue fr' []), m', f',
    (Ok ((queuedFrames p id ++ taken) ++ map FStream (openLast fs))), (reverse rest), taken,
    fr'.(StreamFramer.blockedFrameQueue), fs.
  split; [done|]. split; [done|]. split; [done|]. split; [done|].
  destruct (openLast_ok content m' p.(version) now pn pnl fs) as [Hpo Hpl]; [done| |done..|].
  { unfold MaxPacketSize. lia. }
  cbn [composed]. rewrite <- app_assoc. split; [done|]. split; [by apply Hpay|].
  rewrite !length_encPayload_app, !Nat2Z.inj_add, Hpl. fold lq. destruct fs as [|g fs]; cbn [length Nat.eqb]; [|lia].
  cbn [total foldr]. lia.
Qed.

(** ** Sealing and receiving *)

Section packing.
Context {S : Type} `{cong : SendAlgorithm S} `{crypto : CryptoSetup} `{aead : QuicAEAD}.
Context (level : Z) (sealer : Sealer).
Hypothesis Hsealer : GetSealer = (level, sealer).
Hypothesis Hoverhead : 0 <= sealer.(Overhead) <= 64.
(** The ciphertext has [Overhead] bytes more, and the peer opens what was sealed. *)
Hypothesis Hseal : forall payload pn ad,
  Z.of_nat (length (sealer.(Seal) payload pn ad)) = Z.of_nat (length payload) + sealer.(Overhead).
Hypothesis Hopen : forall payload pn ad, Open (sealer.(Seal) payload pn ad) pn ad = inr (payload, level).

(** The packer and the path can send a regular packet. *)
Record sender_ok (p : t) (params : ConnParams.t) (pth : Path.t S) : Prop := {
  sn_connectionID : 1 <= p.(connectionID) < 2 ^ 64;
  sn_version : 0 < p.(version) < 1000;
  sn_pathID : in_width 8 pth.(Path.pathID);
  sn_truncate : ConnParams.TruncateConnectionID params = false;
  sn_nonce : DiversificationNonce = [] \/ length DiversificationNonce = 32%nat;
  sn_unacked : 0 <= pth.(Path.leastUnacked) <= PacketNumberGenerator.Peek pth.(Path.packetNumberGenerator);
  sn_number : 1 <= PacketNumberGenerator.Peek pth.(Path.packetNumberGenerator) < 2 ^ 47
}.

Lemma header_regular p params pth hc : sender_ok p params pth ->
  HeaderProofs.regular (getPublicHeader p params level pth hc) p.(perspective).
Proof.
  intros []. destruct (public_header_len_cases (PacketNumberGenerator.Peek pth.(Path.packetNumberGenerator))
    pth.(Path.leastUnacked)) as [Hl _]; [done|lia|unfold in_width; lia|].
  unfold HeaderProofs.regular, getPublicHeader, in_width in *. cbn. rewrite sn_truncate0.
  split; [done|]. split; [by destruct (perspective p)|]. split; [done|]. split; [lia|].
  split; [by destruct (hc && _)|]. split; [by destruct (hc && _)|].
  split. { destruct (perspective p); cbn; [destruct (level =? EncryptionSecure)|]; auto.
    destruct sn_nonce0; auto. }
  split; [case_match; lia|done].
Qed.

Lemma header_length p params pth hc : sender_ok p params pth ->
  0 <= Z.of_nat (length (HeaderProofs.enc (getPublicHeader p params level pth hc) p.(version) p.(perspective))) <= 52.
Proof.
  intros Hs. pose proof (header_regular p params pth hc Hs) as Hr.
  pose proof (HeaderProofs.header_GetLength_enc _ p.(version) _ Hr) as Hl.
  destruct Hr as (_ & _ & Hpl & _ & _ & _ & Hn & _). unfold PublicHeader.GetLength in Hl.
  set (h := getPublicHeader _ _ _ _ _) in *.
  assert (PublicHeader.nonceLen h <= 32).
  { unfold PublicHeader.nonceLen. destruct Hn as [->|[_ ->]]; cbn; lia. }
  assert (0 <= PublicHeader.nonceLen h) by (unfold PublicHeader.nonceLen; lia).
  set (n := Z.of_nat _) in *. clearbody n h. unfold pnlen_ok in Hpl. repeat (case_match; [done|]).
  injection Hl as <-. repeat case_match; lia.
Qed.

(** What is written: the header and the sealed payload. *)
Definition rawPacket (p : t) (hdr : PublicHeader.t) (now : Z) (fs : list Frame) : list Z :=
  let header := HeaderProofs.enc hdr p.(version) p.(perspective) in
  header ++ sealer.(Seal) (encPayload p.(version) now fs) hdr.(PublicHeader.PacketNumber) header.

Lemma length_rawPacket p hdr now fs :
  Z.of_nat (length (rawPacket p hdr now fs))
  = Z.of_nat (length (HeaderProofs.enc hdr p.(version) p.(perspective)))
    + Z.of_nat (length (encPayload p.(version) now fs)) + sealer.(Overhead).
Proof. unfold rawPacket. rewrite length_app, Nat2Z.inj_add, Hseal. lia. Qed.

Lemma writeAndSealPacket_ok p hdr fs (pth : Path.t S) now num :
  HeaderProofs.regular hdr p.(perspective) ->
  payload_ok hdr.(PublicHeader.PacketNumber) hdr.(PublicHeader.PacketNumberLen) fs ->
  hdr.(PublicHeader.PacketNumber) = PacketNumberGenerator.Peek pth.(Path.packetNumberGenerator) ->
  Z.of_nat (length (rawPacket p hdr now fs)) <= MaxPacketSize ->
  writeAndSealPacket p hdr fs sealer pth now num
  = (Path.set_packetNumberGenerator pth (PacketNumberGenerator.Pop pth.(Path.packetNumberGenerator) num).1,
     Ok (rawPacket p hdr now fs)).
Proof.
  intros Hr Hp Hn Hl. rewrite length_rawPacket in Hl. unfold writeAndSealPacket.
  pose proof (HeaderProofs.header_Write_enc hdr p.(version) p.(perspective) Hr []) as Hw. cbn [app] in Hw. rewrite Hw.
  rewrite (writeFrames_enc _ _ p.(version) now fs Hp). rewrite length_app.
  destruct (Z.ltb_spec MaxPacketSize (Z.of_nat (length (HeaderProofs.enc hdr (version p) (perspective p))
    + length (encPayload (version p) now fs)) + Overhead sealer)); [lia|].
  rewrite drop_app_length.
  assert (Hpop : (PacketNumberGenerator.Pop pth.(Path.packetNumberGenerator) num).2 = hdr.(PublicHeader.PacketNumber)).
  { rewrite Hn. unfold PacketNumberGenerator.Pop, PacketNumberGenerator.Peek. by case_match. }
  destruct (PacketNumberGenerator.Pop _ _) as [g n]. cbn in Hpop. subst n. by rewrite Z.eqb_refl.
Qed.

(** The packet on the path of the peer: [q] has received all packets below the
    sender's least unacknowledged one, and is not ahead by 2^15 packets. *)
Definition peer_ok (pth q : Path.t S) : Prop :=
  let pn := PacketNumberGenerator.Peek pth.(Path.packetNumberGenerator) in
  q.(Path.open) = true /\ pth.(Path.leastUnacked) <= q.(Path.largestRcvdPacketNumber) + 1
  /\ 0 <= q.(Path.largestRcvdPacketNumber) < pn + 2 ^ 15 - 1
  /\ Z.of_nat (length q.(Path.receivedPacketHandler).(ReceivedPacketHandler.packetHistory).(PacketHistory.ranges))
     < MaxTrackedReceivedAckRanges.

(** [hdr.Raw = packet[:len(packet)-r.Len()]] *)
Definition set_Raw (hdr : PublicHeader.t) (raw : list Z) : PublicHeader.t :=
  PublicHeader.mk raw hdr.(PublicHeader.ConnectionID) hdr.(PublicHeader.PathID) hdr.(PublicHeader.VersionFlag)
    hdr.(PublicHeader.ResetFlag) hdr.(PublicHeader.TruncateConnectionID) hdr.(PublicHeader.MultipathFlag)
    hdr.(PublicHeader.PacketNumberLen) hdr.(PublicHeader.PacketNumber) hdr.(PublicHeader.VersionNumber)
    hdr.(PublicHeader.SupportedVersions) hdr.(PublicHeader.DiversificationNonce).

(** The peer parses the packet [raw] and hands the frames [fs] to its session. *)
Definition handled (p : t) (pth : Path.t S) (raw : list Z) (now : Z) (fs : list Frame) : Prop :=
  forall (q : Path.t S) pers marks rcvTime rcvNow, peer_ok pth q ->
  exists hdr data q', PublicHeader.Parse p.(perspective) p.(version) raw = Ok (hdr, data)
    /\ Path.handlePacketImpl q p.(version) pers marks (set_Raw hdr (take (length raw - length data) raw)) data rcvTime rcvNow
       = Some (q', foldl markFrame marks fs, isServer pers, Ok (Some (level, map (receivedFrame now) fs)))
    /\ q'.(Path.lastRcvdPacketNumber) = PacketNumberGenerator.Peek pth.(Path.packetNumberGenerator)
    /\ q'.(Path.potentiallyFailed) = false
    /\ q'.(Path.receivedPacketHandler)
       = (ReceivedPacketHandler.ReceivedPacket q.(Path.receivedPacketHandler)
            (PacketNumberGenerator.Peek pth.(Path.packetNumberGenerator))
            (HasRetransmittableFrames (map (receivedFrame now) fs)) rcvNow).1.

Lemma ReceivedPacket_accepted h pn ack now : pn <> 0 ->
  Z.of_nat (length h.(ReceivedPacketHandler.packetHistory).(PacketHistory.ranges)) < MaxTrackedReceivedAckRanges ->
  (ReceivedPacketHandler.ReceivedPacket h pn ack now).2 = None.
Proof.
  intros Hpn Hl. unfold ReceivedPacketHandler.ReceivedPacket, PacketHistory.ReceivedPacket.
  rewrite (proj2 (Z.eqb_neq pn 0) Hpn), (proj2 (Z.leb_gt _ _) Hl).
  destruct (_ <? pn); (destruct (pn <=? _); [done|]); by destruct (_ =? 0)%nat.
Qed.

Lemma rawPacket_handled p params hc pth now fs :
  sender_ok p params pth -> fs <> [] -> Forall (level_ok level) fs ->
  let hdr := getPublicHeader p params level pth hc in
  payload_ok hdr.(PublicHeader.PacketNumber) hdr.(PublicHeader.PacketNumberLen) fs ->
  handled p pth (rawPacket p hdr now fs) now fs.
Proof.
  intros Hs Hne Hlev hdr Hp q pers marks rcvTime rcvNow (Ho & Hlu & Hlast & Hroom).
  pose proof (header_regular p params pth hc Hs) as Hr. fold hdr in Hr. destruct Hs.
  set (pn := PacketNumberGenerator.Peek pth.(Path.packetNumberGenerator)) in *.
  assert (Hinf : InferPacketNumber hdr.(PublicHeader.PacketNumberLen) q.(Path.largestRcvdPacketNumber)
                   (HeaderProofs.wirePN hdr) = pn).
  { destruct (public_header_len_cases pn pth.(Path.leastUnacked)) as (Hlen & H2 & Hd); [done|lia|unfold in_width; lia|].
    apply infer_correct; [done|lia|lia|].
    change (PublicHeader.PacketNumberLen hdr) with (GetPacketNumberLengthForPublicHeader pn pth.(Path.leastUnacked)).
    set (l := GetPacketNumberLengthForPublicHeader _ _) in *.
    assert (2 ^ (8 * 2) / 2 <= 2 ^ (8 * l) / 2)
      by (apply Z.div_le_mono; [lia|]; apply Z.pow_le_mono_r; lia).
    change (2 ^ (8 * 2) / 2) with (2 ^ 15) in *. lia. }
  set (header := HeaderProofs.enc hdr p.(version) p.(perspective)).
  set (data := sealer.(Seal) (encPayload p.(version) now fs) pn header).
  exists (HeaderProofs.received hdr), data.
  assert (Hraw : rawPacket p hdr now fs = header ++ data) by done.
  assert (Htake : take (length (header ++ data) - length data) (header ++ data) = header).
  { rewrite length_app. replace (length header + length data - length data)%nat with (length header) by lia.
    apply take_app_length. }
  rewrite Hraw, Htake.
  unfold Path.handlePacketImpl. rewrite Ho. cbn [negb]. cbv zeta.
  set (q1 := match rcvTime with Some _ => _ | None => _ end).
  assert (Hq1 : q1.(Path.largestRcvdPacketNumber) = q.(Path.largestRcvdPacketNumber)
    /\ q1.(Path.receivedPacketHandler) = q.(Path.receivedPacketHandler)) by (unfold q1; by destruct rcvTime).
  destruct Hq1 as [Hq1 Hq2]. cbn [set_Raw HeaderProofs.received PublicHeader.Raw PublicHeader.PacketNumberLen
    PublicHeader.PacketNumber Path.set_potentiallyFailed Path.largestRcvdPacketNumber].
  rewrite Hq1, Hinf. set (hdr' := PublicHeader.mk header _ _ _ _ _ _ _ _ _ _ _).
  destruct (Unpack_frames (aead:=aead) p.(version) now hdr' marks header data level fs Hne Hp Hlev) as [_ Hu].
  { intros payload Hw. pose proof (writeFrames_enc _ _ p.(version) now fs Hp []) as Hw'. rewrite Hw in Hw'.
    injection Hw' as ->. apply Hopen. }
  rewrite Hu. cbn [Path.set_received Path.receivedPacketHandler Path.set_potentiallyFailed]. rewrite Hq2.
  pose proof (ReceivedPacket_accepted q.(Path.receivedPacketHandler) pn
    (HasRetransmittableFrames (map (receivedFrame now) fs)) rcvNow ltac:(lia) Hroom) as Hacc.
  destruct (ReceivedPacketHandler.ReceivedPacket _ _ _ _) as [h err]. cbn in Hacc. subst err.
  eexists. split; [|split; [done|by split_and!]].
  apply HeaderProofs.header_Parse_enc; [done|unfold VersionUnknown; lia|].
  unfold HeaderProofs.pn_version, hdr. cbn. by case_match.
Qed.

(** ** The packet *)

Lemma openLast_nil fs : openLast fs = [] -> fs = [].
Proof. by destruct fs as [|f [|g fs]]. Qed.

Lemma frames_level p fs queued taken :
  (canSendData p level = false -> fs = []) -> Forall sized queued -> Forall sized taken ->
  Forall (level_ok level) (queued ++ taken ++ map FStream (openLast fs)).
Proof.
  intros Hcan Hq Ht. assert (Hsz : forall l, Forall sized l -> Forall (level_ok level) l).
  { intros l Hl. apply (Forall_impl _ _ _ Hl). by intros []. }
  apply Forall_app; split; [by apply Hsz|]. apply Forall_app; split; [by apply Hsz|].
  destruct (canSendData p level) eqn:E; [|by rewrite Hcan].
  apply Forall_forall. intros fr (f & -> & _)%list_elem_of_fmap. left. unfold canSendData, EncryptionUnencrypted in *.
  destruct (perspective p); [apply Z.eqb_eq in E|apply Z.leb_le in E]; unfold EncryptionForwardSecure, EncryptionSecure in E; lia.
Qed.

(** A payload without frames, or with a STOP_WAITING frame only. *)
Lemma only_stop_waiting p id taken fs payload :
  payload = queuedFrames p id ++ taken ++ map FStream (openLast fs) ->
  payload = [] \/ (length payload = 1%nat /\ is_Some (p.(stopWaiting) !! id)) ->
  taken = [] /\ fs = [] /\ p.(ackFrame) !! id = None.
Proof.
  intros -> Hc. unfold queuedFrames in Hc.
  assert (Hnil : taken ++ map FStream (openLast fs) = [] -> taken = [] /\ fs = []).
  { intros [-> H]%app_eq_nil. apply map_eq_nil, openLast_nil in H. done. }
  destruct (p.(stopWaiting) !! id) as [sw|], (p.(ackFrame) !! id) as [ack|];
    destruct Hc as [Hc|[Hc Hi]]; cbn [app length] in Hc; try done; try (by destruct Hi as [? Hi]); try lia.
  - injection Hc as Hc%length_zero_iff_nil. destruct (Hnil Hc). done.
  - destruct (Hnil Hc). done.
Qed.

(** The outcome of packing. *)
Definition outcome (p p' : t) (hdr : PublicHeader.t) (pth pth' : Path.t S) (now : Z) (num : option Z)
  (taken : list Frame) (fs : list StreamFrame.t) (r : res (option packedPacket)) : Prop :=
  let id := pth.(Path.pathID) in
  let queued := queuedFrames (numberStopWaiting p hdr id) id in
  match r with
  | Ok (Some pkt) =>
      pkt.(frames) = queued ++ taken ++ map FStream (openLast fs)
      /\ Z.of_nat (length pkt.(raw)) <= MaxPacketSize
      /\ handled p pth pkt.(raw) now pkt.(frames)
      /\ pkt.(encryptionLevel) = level
      /\ p'.(stopWaiting) !! id = None /\ p'.(ackFrame) !! id = None
      /\ pth' = Path.set_packetNumberGenerator pth (PacketNumberGenerator.Pop pth.(Path.packetNumberGenerator) num).1
  | Ok None => taken = [] /\ fs = [] /\ p.(ackFrame) !! id = None /\ pth' = pth
  | Err e =>
      taken = [] /\ fs = [] /\ pth' = pth
      /\ exists len max, e = errPayload len max /\ len = Z.of_nat (length (encPayload p.(version) now queued))
         /\ MaxPacketSize - 52 - sealer.(Overhead) <= max < len
  | Panic => False
  end.


(** A PING is lost.  While a STOP_WAITING frame is queued for the path, [PackPing]
    packs no packet: the check that a packet does not only consist of a
    STOP_WAITING frame looks at the number of frames, and the PING is the only
    one.  The PING is also removed from the control frames, so that it is not sent
    later. *)
Theorem ping_lost p fr st st' pth hc now num :
  let pth' := Path.SetLeastUnacked pth (SentPacketHandler.GetLeastUnacked pth.(Path.sentPacketHandler)) in
  StreamFramer.HasCryptoStreamFrame st = Ok (st', false) ->
  sender_ok p st'.2.(FlowControlManager.params) pth' ->
  is_Some (p.(stopWaiting) !! pth.(Path.pathID)) ->
  exists p', PackPing p fr st pth hc now num = (p', fr, st', pth', Ok None)
    /\ p'.(controlFrames) = p.(controlFrames).
Proof.
  intros pth' Hcs Hsn [sw Hsw]. unfold PackPing. fold pth'. unfold PackPacket. rewrite Hcs, Hsealer.
  assert (Hsn' : sender_ok (set_controlFrames p (FPing PingFrame.mk :: p.(controlFrames))) st'.2.(FlowControlManager.params) pth')
    by (by destruct Hsn).
  rewrite (HeaderProofs.header_GetLength_enc _ p.(version) _ (header_regular _ _ _ hc Hsn')).
  cbn [nextFrames numberStopWaiting set_stopWaiting set_controlFrames controlFrames stopWaiting length Nat.eqb].
  change (Path.pathID pth') with pth.(Path.pathID). rewrite lookup_alter_eq, Hsw. by eexists.
Qed.

End packing.

(** ** Examples *)

#[global] Instance okID_dec id : Decision (okID id).
Proof. unfold okID. apply _. Defined.

(** A sealer that appends 12 bytes, and the AEAD that removes them. *)
Definition demo_sealer : Sealer := mkSealer 12 (fun payload _ _ => payload ++ replicate 12 0).
Definition demo_crypto : CryptoSetup :=
  Build_CryptoSetup (EncryptionForwardSecure, demo_sealer) (EncryptionUnencrypted, demo_sealer)
    (fun _ => inr demo_sealer) [].
Definition demo_aead : QuicAEAD :=
  Build_QuicAEAD (fun data _ _ => inr (take (length data - 12) data, EncryptionForwardSecure)).

Definition demo_path : Path.t CubicSender.t :=
  Path.setup 1 VersionMP (CubicSender.NewCubicSender false InitialCongestionWindow DefaultMaxCongestionWindow) 0.

Definition demo_ack : AckFrame.t := AckFrame.mk 1 7 3 [] 0 0.

(** The client with two streams of data, an ACK, a STOP_WAITING and a WINDOW_UPDATE frame. *)
Definition demo_packer : t :=
  let p := newPacketPacker 0x1234 PerspectiveClient VersionMP in
  let p := QueueControlFrame p (FAck demo_ack) 1 in
  let p := QueueControlFrame p (FStopWaiting (StopWaitingFrame.mk 1 0 0)) 1 in
  QueueControlFrame p (FWindowUpdate (WindowUpdateFrame.mk 5 4096)) 1.

Lemma demo_streams_ok : streams_ok demo_content true StreamFramer.newStreamFramer demo_client.1.
Proof.
  constructor.
  - assert (Hm : map_Forall (fun id _ => okID id) demo_client.1.(StreamsMap.streams))
      by (apply (bool_decide_unpack _); vm_compute; exact I).
    intros id [s Hs]. exact (Hm id s Hs).
  - exact demo_client_inv.
  - exact demo_client_kind.
  - vm_compute. repeat split; discriminate.
  - exact demo_content_length.
  - exact demo_client_framed.
  - apply Forall_nil_2.
Qed.

Definition demo_packing :=
  PackPacket (crypto:=demo_crypto) demo_packer StreamFramer.newStreamFramer demo_client demo_path true 0 None.


Lemma ping_lost_witness :
  exists p', PackPing (crypto:=demo_crypto) demo_packer StreamFramer.newStreamFramer demo_client demo_path true 0 None
    = (p', StreamFramer.newStreamFramer, demo_client,
       Path.SetLeastUnacked demo_path (SentPacketHandler.GetLeastUnacked demo_path.(Path.sentPacketHandler)), Ok None)
    /\ p'.(controlFrames) = [FWindowUpdate (WindowUpdateFrame.mk 5 4096)].
Proof.
  apply (ping_lost (crypto:=demo_crypto) EncryptionForwardSecure demo_sealer eq_refl demo_packer
    StreamFramer.newStreamFramer demo_client demo_client demo_path true 0 None).
  - vm_compute. reflexivity.
  - constructor; try (vm_compute; intuition discriminate); vm_compute; auto.
  - vm_compute. eexists. reflexivity.
Defined.

End PackerProofs.
