(* ===== verification/Session.v ===== *)
(** * Sessions and path management ([session.go], [path_manager.go])

    The session behind its sockets: it hands received packets to their path,
    dispatches the frames, opens and closes paths, and writes packets.  An
    operation is what the loop of [SessionLoop.v] does for one event, the clock is
    an argument, a path that is asked to close closes at once.  What is not determined by the code is read
    from the state: the order in which Go visits the map of paths ([choices]) and
    the random numbers ([randoms]); packets that are written to a socket are
    collected in [written], and writing to a socket does not fail. *)

From S2P Require Import Prelude ByteOrder Protocol WireHeader WireFrames WireStream WireAck.
From S2P Require Import PacketUnpacker MinMax AckReceived ConnParams FlowControl StreamSorter Stream StreamsMap.
From S2P Require Import StreamFramer RTTStats SentPackets Path PacketPacker.

(** [net.UDPAddr]; two addresses are the same when they have the same string. *)
Record UDPAddr : Type := mkAddr { IP : list Z; Port : Z }.

Definition sameAddr (a b : UDPAddr) : bool :=
  bool_decide (AddAddressFrame.To16 a.(IP) = AddAddressFrame.To16 b.(IP)) && (a.(Port) =? b.(Port)).

Definition getIPVersion (ip : list Z) : Z :=
  match AddAddressFrame.To4 ip with Some _ => 4 | None => 6 end.

(** [receivedPacket], with the local address of the socket that received it *)
Record receivedPacket : Type := mkReceived {
  rcvLocalAddr : UDPAddr;
  remoteAddr : UDPAddr;
  publicHeader : PublicHeader.t;
  data : list Z;
  rcvTime : option Z
}.

(** [pathManager]; [localAddrs] are those of the socket manager. *)
Record pathManagerState : Type := mkPathManager {
  nxtPathID : Z;
  remoteAddrs4 : list UDPAddr;
  remoteAddrs6 : list UDPAddr;
  advertisedLocAddrs : list UDPAddr;
  localAddrs : list UDPAddr
}.

(** [scheduler]: the number of packets sent on each path *)
Record schedulerState : Type := mkScheduler { quotas : gmap Z Z; quotas2 : gmap Z Z }.

Definition MaxUndecryptablePackets : Z := 10.
Definition errRstStreamOnInvalidStream : error := ErrorsNew "RST_STREAM received for unknown stream".
Definition errWindowUpdateOnClosedStream : error :=
  ErrorsNew "WINDOW_UPDATE received for an already closed stream".
Definition errUnknownPath : error := ErrorsNew "Unknown path ID to close".
Definition errPathExists : error := ErrorsNew "trying to create already existing path".
Definition errOddPathID : error := ErrorsNew "server tries to create odd pathID".
Definition errEvenPathID : error := ErrorsNew "client tries to create even pathID".
Definition errNoPing : error := ErrorsNew "Session BUG: expected ping packet not to be nil".
Definition Minute : Z := 60 * 1000000000.

Module Session.

Section session.
Context {S : Type} `{cong : SendAlgorithm S} `{crypto : CryptoSetup} `{aead : QuicAEAD}.
(** The congestion controller for a new path *)
Context (newController : Z -> S).

Record t : Type := mk {
  perspective : Perspective;
  version : Z;
  createPathsFlag : bool;
  paths : gmap Z (Path.t S);
  closedPaths : gmap Z bool;
  pathAddrs : gmap Z (UDPAddr * UDPAddr);
  streams : StreamsMap.t * FlowControlManager.mgr;
  remoteRTTs : gmap Z Z;
  lastPathsFrameSent : Z;
  streamFramer : StreamFramer.t;
  packer : PacketPacker.t;
  peerBlocked : bool;
  handshakeComplete : bool;
  lastNetworkActivityTime : Z;
  keepAlivePingSent : bool;
  closeErr : option (option error * bool);
  undecryptablePackets : list receivedPacket;
  tooManyUndecryptableTime : option Z;
  pathManager : pathManagerState;
  scheduler : schedulerState;
  choices : list (list Z);
  randoms : list (option Z);
  written : list (Z * list Z)
}.

(** Field updates *)

Definition set_paths (s : t) (x : gmap Z (Path.t S)) : t :=
  mk s.(perspective) s.(version) s.(createPathsFlag) x s.(closedPaths) s.(pathAddrs) s.(streams)
    s.(remoteRTTs) s.(lastPathsFrameSent) s.(streamFramer) s.(packer) s.(peerBlocked) s.(handshakeComplete)
    s.(lastNetworkActivityTime) s.(keepAlivePingSent) s.(closeErr) s.(undecryptablePackets)
    s.(tooManyUndecryptableTime) s.(pathManager) s.(scheduler) s.(choices) s.(randoms) s.(written).
Definition set_closedPaths (s : t) (x : gmap Z bool) : t :=
  mk s.(perspective) s.(version) s.(createPathsFlag) s.(paths) x s.(pathAddrs) s.(streams) s.(remoteRTTs)
    s.(lastPathsFrameSent) s.(streamFramer) s.(packer) s.(peerBlocked) s.(handshakeComplete)
    s.(lastNetworkActivityTime) s.(keepAlivePingSent) s.(closeErr) s.(undecryptablePackets)
    s.(tooManyUndecryptableTime) s.(pathManager) s.(scheduler) s.(choices) s.(randoms) s.(written).
Definition set_pathAddrs (s : t) (x : gmap Z (UDPAddr * UDPAddr)) : t :=
  mk s.(perspective) s.(version) s.(createPathsFlag) s.(paths) s.(closedPaths) x s.(streams)
    s.(remoteRTTs) s.(lastPathsFrameSent) s.(streamFramer) s.(packer) s.(peerBlocked) s.(handshakeComplete)
    s.(lastNetworkActivityTime) s.(keepAlivePingSent) s.(closeErr) s.(undecryptablePackets)
    s.(tooManyUndecryptableTime) s.(pathManager) s.(scheduler) s.(choices) s.(randoms) s.(written).
Definition set_streams (s : t) (x : StreamsMap.t * FlowControlManager.mgr) : t :=
  mk s.(perspective) s.(version) s.(createPathsFlag) s.(paths) s.(closedPaths) s.(pathAddrs) x
    s.(remoteRTTs) s.(lastPathsFrameSent) s.(streamFramer) s.(packer) s.(peerBlocked) s.(handshakeComplete)
    s.(lastNetworkActivityTime) s.(keepAlivePingSent) s.(closeErr) s.(undecryptablePackets)
    s.(tooManyUndecryptableTime) s.(pathManager) s.(scheduler) s.(choices) s.(randoms) s.(written).
Definition set_remoteRTTs (s : t) (x : gmap Z Z) : t :=
  mk s.(perspective) s.(version) s.(createPathsFlag) s.(paths) s.(closedPaths) s.(pathAddrs) s.(streams)
    x s.(lastPathsFrameSent) s.(streamFramer) s.(packer) s.(peerBlocked) s.(handshakeComplete)
    s.(lastNetworkActivityTime) s.(keepAlivePingSent) s.(closeErr) s.(undecryptablePackets)
    s.(tooManyUndecryptableTime) s.(pathManager) s.(scheduler) s.(choices) s.(randoms) s.(written).
Definition set_lastPathsFrameSent (s : t) (x : Z) : t :=
  mk s.(perspective) s.(version) s.(createPathsFlag) s.(paths) s.(closedPaths) s.(pathAddrs) s.(streams)
    s.(remoteRTTs) x s.(streamFramer) s.(packer) s.(peerBlocked) s.(handshakeComplete) s.(lastNetworkActivityTime)
    s.(keepAlivePingSent) s.(closeErr) s.(undecryptablePackets) s.(tooManyUndecryptableTime) s.(pathManager)
    s.(scheduler) s.(choices) s.(randoms) s.(written).
Definition set_streamFramer (s : t) (x : StreamFramer.t) : t :=
  mk s.(perspective) s.(version) s.(createPathsFlag) s.(paths) s.(closedPaths) s.(pathAddrs) s.(streams)
    s.(remoteRTTs) s.(lastPathsFrameSent) x s.(packer) s.(peerBlocked) s.(handshakeComplete)
    s.(lastNetworkActivityTime) s.(keepAlivePingSent) s.(closeErr) s.(undecryptablePackets)
    s.(tooManyUndecryptableTime) s.(pathManager) s.(scheduler) s.(choices) s.(randoms) s.(written).
Definition set_packer (s : t) (x : PacketPacker.t) : t :=
  mk s.(perspective) s.(version) s.(createPathsFlag) s.(paths) s.(closedPaths) s.(pathAddrs) s.(streams)
    s.(remoteRTTs) s.(lastPathsFrameSent) s.(streamFramer) x s.(peerBlocked) s.(handshakeComplete)
    s.(lastNetworkActivityTime) s.(keepAlivePingSent) s.(closeErr) s.(undecryptablePackets)
    s.(tooManyUndecryptableTime) s.(pathManager) s.(scheduler) s.(choices) s.(randoms) s.(written).
Definition set_peerBlocked (s : t) (x : bool) : t :=
  mk s.(perspective) s.(version) s.(createPathsFlag) s.(paths) s.(closedPaths) s.(pathAddrs) s.(streams)
    s.(remoteRTTs) s.(lastPathsFrameSent) s.(streamFramer) s.(packer) x s.(handshakeComplete)
    s.(lastNetworkActivityTime) s.(keepAlivePingSent) s.(closeErr) s.(undecryptablePackets)
    s.(tooManyUndecryptableTime) s.(pathManager) s.(scheduler) s.(choices) s.(randoms) s.(written).
Definition set_lastNetworkActivityTime (s : t) (x : Z) : t :=
  mk s.(perspective) s.(version) s.(createPathsFlag) s.(paths) s.(closedPaths) s.(pathAddrs) s.(streams)
    s.(remoteRTTs) s.(lastPathsFrameSent) s.(streamFramer) s.(packer) s.(peerBlocked) s.(handshakeComplete) x
    s.(keepAlivePingSent) s.(closeErr) s.(undecryptablePackets) s.(tooManyUndecryptableTime) s.(pathManager)
    s.(scheduler) s.(choices) s.(randoms) s.(written).
Definition set_keepAlivePingSent (s : t) (x : bool) : t :=
  mk s.(perspective) s.(version) s.(createPathsFlag) s.(paths) s.(closedPaths) s.(pathAddrs) s.(streams)
    s.(remoteRTTs) s.(lastPathsFrameSent) s.(streamFramer) s.(packer) s.(peerBlocked) s.(handshakeComplete)
    s.(lastNetworkActivityTime) x s.(closeErr) s.(undecryptablePackets) s.(tooManyUndecryptableTime) s.(pathManager)
    s.(scheduler) s.(choices) s.(randoms) s.(written).
Definition set_closeErr (s : t) (x : option (option error * bool)) : t :=
  mk s.(perspective) s.(version) s.(createPathsFlag) s.(paths) s.(closedPaths) s.(pathAddrs) s.(streams)
    s.(remoteRTTs) s.(lastPathsFrameSent) s.(streamFramer) s.(packer) s.(peerBlocked) s.(handshakeComplete)
    s.(lastNetworkActivityTime) s.(keepAlivePingSent) x s.(undecryptablePackets) s.(tooManyUndecryptableTime)
    s.(pathManager) s.(scheduler) s.(choices) s.(randoms) s.(written).
Definition set_undecryptablePackets (s : t) (x : list receivedPacket) : t :=
  mk s.(perspective) s.(version) s.(createPathsFlag) s.(paths) s.(closedPaths) s.(pathAddrs) s.(streams)
    s.(remoteRTTs) s.(lastPathsFrameSent) s.(streamFramer) s.(packer) s.(peerBlocked) s.(handshakeComplete)
    s.(lastNetworkActivityTime) s.(keepAlivePingSent) s.(closeErr) x s.(tooManyUndecryptableTime) s.(pathManager)
    s.(scheduler) s.(choices) s.(randoms) s.(written).
Definition set_tooManyUndecryptableTime (s : t) (x : option Z) : t :=
  mk s.(perspective) s.(version) s.(createPathsFlag) s.(paths) s.(closedPaths) s.(pathAddrs) s.(streams)
    s.(remoteRTTs) s.(lastPathsFrameSent) s.(streamFramer) s.(packer) s.(peerBlocked) s.(handshakeComplete)
    s.(lastNetworkActivityTime) s.(keepAlivePingSent) s.(closeErr) s.(undecryptablePackets) x s.(pathManager)
    s.(scheduler) s.(choices) s.(randoms) s.(written).
Definition set_pathManager (s : t) (x : pathManagerState) : t :=
  mk s.(perspective) s.(version) s.(createPathsFlag) s.(paths) s.(closedPaths) s.(pathAddrs) s.(streams)
    s.(remoteRTTs) s.(lastPathsFrameSent) s.(streamFramer) s.(packer) s.(peerBlocked) s.(handshakeComplete)
    s.(lastNetworkActivityTime) s.(keepAlivePingSent) s.(closeErr) s.(undecryptablePackets)
    s.(tooManyUndecryptableTime) x s.(scheduler) s.(choices) s.(randoms) s.(written).
Definition set_scheduler (s : t) (x : schedulerState) : t :=
  mk s.(perspective) s.(version) s.(createPathsFlag) s.(paths) s.(closedPaths) s.(pathAddrs) s.(streams)
    s.(remoteRTTs) s.(lastPathsFrameSent) s.(streamFramer) s.(packer) s.(peerBlocked) s.(handshakeComplete)
    s.(lastNetworkActivityTime) s.(keepAlivePingSent) s.(closeErr) s.(undecryptablePackets)
    s.(tooManyUndecryptableTime) s.(pathManager) x s.(choices) s.(randoms) s.(written).
Definition set_choices (s : t) (x : list (list Z)) : t :=
  mk s.(perspective) s.(version) s.(createPathsFlag) s.(paths) s.(closedPaths) s.(pathAddrs) s.(streams)
    s.(remoteRTTs) s.(lastPathsFrameSent) s.(streamFramer) s.(packer) s.(peerBlocked) s.(handshakeComplete)
    s.(lastNetworkActivityTime) s.(keepAlivePingSent) s.(closeErr) s.(undecryptablePackets)
    s.(tooManyUndecryptableTime) s.(pathManager) s.(scheduler) x s.(randoms) s.(written).
Definition set_randoms (s : t) (x : list (option Z)) : t :=
  mk s.(perspective) s.(version) s.(createPathsFlag) s.(paths) s.(closedPaths) s.(pathAddrs) s.(streams)
    s.(remoteRTTs) s.(lastPathsFrameSent) s.(streamFramer) s.(packer) s.(peerBlocked) s.(handshakeComplete)
    s.(lastNetworkActivityTime) s.(keepAlivePingSent) s.(closeErr) s.(undecryptablePackets)
    s.(tooManyUndecryptableTime) s.(pathManager) s.(scheduler) s.(choices) x s.(written).
Definition set_written (s : t) (x : list (Z * list Z)) : t :=
  mk s.(perspective) s.(version) s.(createPathsFlag) s.(paths) s.(closedPaths) s.(pathAddrs) s.(streams)
    s.(remoteRTTs) s.(lastPathsFrameSent) s.(streamFramer) s.(packer) s.(peerBlocked) s.(handshakeComplete)
    s.(lastNetworkActivityTime) s.(keepAlivePingSent) s.(closeErr) s.(undecryptablePackets)
    s.(tooManyUndecryptableTime) s.(pathManager) s.(scheduler) s.(choices) s.(randoms) x.

(** ** Operations that change the session and may fail *)

Definition M (A : Type) : Type := t -> t * res A.

#[global] Instance session_ret : MRet M := fun A a s => (s, Ok a).
#[global] Instance session_bind : MBind M := fun A B k m s =>
  match m s with
  | (s, Ok a) => k a s
  | (s, Err e) => (s, Err e)
  | (s, Panic) => (s, Panic)
  end.

(** A step that is given as a function *)
Definition state {A} (f : t -> t * res A) : M A := f.

Definition get : M t := fun s => (s, Ok s).
Definition modify (g : t -> t) : M unit := fun s => (g s, Ok tt).
Definition fail {A} (e : error) : M A := fun s => (s, Err e).
Definition panic {A} : M A := fun s => (s, Panic).

(** An error that is returned as a value, [nil] being [None] *)
Definition check (e : option error) : M unit := match e with Some e => fail e | None => mret tt end.

(** [_ = f()]: the error is dropped. *)
Definition dropError (m : M unit) : M unit := fun s =>
  match m s with (s, Err _) => (s, Ok tt) | r => r end.

Fixpoint forEach {A} (l : list A) (k : A -> M unit) : M unit :=
  match l with [] => mret tt | a :: l => _ ← k a; forEach l k end.

(** [s.paths[id]], which is dereferenced *)
Definition getPath (id : Z) : M (Path.t S) := fun s =>
  match s.(paths) !! id with Some p => (s, Ok p) | None => (s, Panic) end.
Definition putPath (id : Z) (p : Path.t S) : M unit := modify (fun s => set_paths s (<[id := p]> s.(paths))).

Definition pathIDs (s : t) : list Z := (map_to_list s.(paths)).*1.

(** [for pathID := range s.paths] *)
Definition rangePaths : M (list Z) := fun s =>
  match s.(choices) with
  | [] => (s, Ok (pathIDs s))
  | c :: cs => (set_choices s cs, Ok (if bool_decide (c ≡ₚ pathIDs s) then c else pathIDs s))
  end.

Definition nextRandom : M (option Z) := fun s =>
  match s.(randoms) with [] => (s, Ok None) | r :: rs => (set_randoms s rs, Ok r) end.

(** ** Sending a packet *)

Definition packetOf (packet : PacketPacker.packedPacket) (now : Z) : Packet.t :=
  Packet.mk packet.(PacketPacker.number) packet.(PacketPacker.frames)
    (Z.of_nat (length packet.(PacketPacker.raw))) packet.(PacketPacker.encryptionLevel) now.

Definition sendPackedPacket (packet : PacketPacker.packedPacket) (id now : Z) : M unit :=
  p ← getPath id;
  let '(h, err) := SentPacketHandler.SentPacket p.(Path.sentPacketHandler) (packetOf packet now) now in
  _ ← putPath id (Path.set_sentPacketHandler p h);
  _ ← check err;
  modify (fun s => set_written s (s.(written) ++ [(id, packet.(PacketPacker.raw))])).

(** [PackPacket] and [PackPing] with the packer, the framer and the streams of the session *)
Definition packWith (pack : PacketPacker.t -> StreamFramer.t -> StreamsMap.t * FlowControlManager.mgr -> Path.t S ->
    bool -> Z -> option Z ->
    PacketPacker.t * StreamFramer.t * (StreamsMap.t * FlowControlManager.mgr) * Path.t S
      * res (option PacketPacker.packedPacket))
    (id now : Z) : M (option PacketPacker.packedPacket) :=
  p ← getPath id;
  num ← nextRandom;
  state (fun s =>
    let '(pk, fr, st, p, r) :=
      pack s.(packer) s.(streamFramer) s.(streams) p s.(handshakeComplete) now num in
    (set_paths (set_streams (set_streamFramer (set_packer s pk) fr) st) (<[id := p]> s.(paths)), r)).

Definition sendPing (id now : Z) : M unit :=
  packet ← packWith PacketPacker.PackPing id now;
  match packet with
  | None => fail errNoPing
  | Some packet => sendPackedPacket packet id now
  end.

Definition sendConnectionClose (ccf : ConnectionCloseFrame.t) (now : Z) : M unit :=
  p ← getPath 0;
  let p := Path.SetLeastUnacked p (SentPacketHandler.GetLeastUnacked p.(Path.sentPacketHandler)) in
  num ← nextRandom;
  s ← get;
  let '(p, r) := PacketPacker.PackConnectionClose s.(packer) s.(streams).2.(FlowControlManager.params) ccf p
                   s.(handshakeComplete) now num in
  _ ← putPath 0 p;
  match r with
  | Ok packet => modify (fun s => set_written s (s.(written) ++ [(0, packet.(PacketPacker.raw))]))
  | Err e => fail e
  | Panic => panic
  end.

Definition QueueControlFrame (frame : Frame) (id : Z) : M unit :=
  modify (fun s => set_packer s (PacketPacker.QueueControlFrame s.(packer) frame id)).

Definition queueResetStreamFrame (id offset : Z) : M unit :=
  QueueControlFrame (FRstStream (RstStreamFrame.mk id 0 offset)) 0.

(** [onData] only wakes the run loop. *)
Definition handleEvents (es : list Stream.event) : M unit :=
  forEach es (fun e => match e with
                       | Stream.OnData => mret tt
                       | Stream.OnReset id offset => queueResetStreamFrame id offset
                       end).

(** What a PATHS frame says about a path *)
Definition pathInfo (s : t) (id : Z) : option (Z * bool * Z) :=
  match s.(paths) !! id with
  | Some p => Some (id, p.(Path.potentiallyFailed), RTTStats.SmoothedRTT (Path.rttStats p))
  | None => None
  end.

Definition schedulePathsFrame (now : Z) : M unit :=
  ids ← rangePaths;
  modify (fun s => set_streamFramer (set_lastPathsFrameSent s now)
                     (StreamFramer.AddPathsFrameForTransmission s.(streamFramer) (omap (pathInfo s) ids))).

(** [closeOnce]; the error of a local close is [nil] when the application closes the
    session without one *)
Definition closeWith (e : option error) (remote : bool) : M unit :=
  modify (fun s => match s.(closeErr) with None => set_closeErr s (Some (e, remote)) | Some _ => s end).
Definition closeLocal (e : option error) : M unit := closeWith e false.
Definition closeRemote (e : option error) : M unit := closeWith e true.

(** ** Path management *)

Definition advertiseAddresses : M unit :=
  s ← get;
  forEach s.(pathManager).(localAddrs) (fun locAddr =>
    modify (fun s =>
      let pm := s.(pathManager) in
      if existsb (sameAddr locAddr) pm.(advertisedLocAddrs) then s
      else
        let fr := StreamFramer.AddAddressForTransmission s.(streamFramer) (u8 (getIPVersion locAddr.(IP)))
                    locAddr.(IP) locAddr.(Port) in
        set_pathManager (set_streamFramer s fr)
          (mkPathManager pm.(nxtPathID) pm.(remoteAddrs4) pm.(remoteAddrs6) (locAddr :: pm.(advertisedLocAddrs))
             pm.(localAddrs)))).

Definition newPath (id : Z) (locAddr remAddr : UDPAddr) (now : Z) : M unit :=
  modify (fun s => set_pathAddrs
                     (set_paths s (<[id := Path.setup id s.(version) (newController id) now]> s.(paths)))
                     (<[id := (locAddr, remAddr)]> s.(pathAddrs))).

(** Whether a path has these addresses *)
Definition pathExists (s : t) (locAddr remAddr : UDPAddr) : bool :=
  existsb (fun a : Z * (UDPAddr * UDPAddr) => sameAddr locAddr a.2.1 && sameAddr remAddr a.2.2)
    (map_to_list s.(pathAddrs)).

Definition createPath (locAddr remAddr : UDPAddr) (now : Z) : M unit :=
  s ← get;
  if pathExists s locAddr remAddr then mret tt
  else
    let pm := s.(pathManager) in
    let id := pm.(nxtPathID) in
    _ ← newPath id locAddr remAddr now;
    _ ← modify (fun s => set_pathManager s
                  (mkPathManager (u8 (id + 2)) pm.(remoteAddrs4) pm.(remoteAddrs6) pm.(advertisedLocAddrs)
                     pm.(localAddrs)));
    sendPing id now.

Definition createPaths (now : Z) : M unit :=
  s ← get;
  match s.(perspective) with
  | PerspectiveServer => advertiseAddresses
  | PerspectiveClient =>
      let pm := s.(pathManager) in
      _ ← forEach pm.(localAddrs) (fun locAddr =>
            forEach (if getIPVersion locAddr.(IP) =? 4 then pm.(remoteAddrs4) else pm.(remoteAddrs6))
              (fun remAddr => createPath locAddr remAddr now));
      schedulePathsFrame now
  end.

Definition createPathFromRemote (p : receivedPacket) (now : Z) : M unit :=
  s ← get;
  let id := p.(publicHeader).(PublicHeader.PathID) in
  if bool_decide (is_Some (s.(paths) !! id)) then fail errPathExists
  else if isClient s.(perspective) && negb (id mod 2 =? 0) then fail errOddPathID
  else if isServer s.(perspective) && (id mod 2 =? 0) then fail errEvenPathID
  else newPath id p.(rcvLocalAddr) p.(remoteAddr) now.

Definition handleAddAddressFrame (f : AddAddressFrame.t) (now : Z) : M unit :=
  s ← get;
  let pm := s.(pathManager) in
  let addr := mkAddr f.(AddAddressFrame.IP) f.(AddAddressFrame.Port) in
  _ ← (if f.(AddAddressFrame.IPVersion) =? 4 then
         modify (fun s => set_pathManager s (mkPathManager pm.(nxtPathID) (pm.(remoteAddrs4) ++ [addr])
                    pm.(remoteAddrs6) pm.(advertisedLocAddrs) pm.(localAddrs)))
       else if f.(AddAddressFrame.IPVersion) =? 6 then
         modify (fun s => set_pathManager s (mkPathManager pm.(nxtPathID) pm.(remoteAddrs4)
                    (pm.(remoteAddrs6) ++ [addr]) pm.(advertisedLocAddrs) pm.(localAddrs)))
       else fail AddAddressFrame.ErrUnknownIPVersion);
  if s.(createPathsFlag) then createPaths now else mret tt.

(** [session.closePath]; the path manager asks the path to close. *)
Definition closePath (id : Z) (sendClosePathFrame : bool) (now : Z) : M unit :=
  s ← get;
  match s.(paths) !! id with
  | None => fail errUnknownPath
  | Some p =>
      if bool_decide (is_Some (s.(closedPaths) !! id)) then mret tt
      else
        let p := if p.(Path.open) then Path.close p else p in
        _ ← putPath id p;
        _ ← modify (fun s => set_closedPaths s (<[id := true]> s.(closedPaths)));
        if negb sendClosePathFrame then mret tt
        else
          let p := Path.set_sentPacketHandler p (SentPacketHandler.SetInflightAsLost p.(Path.sentPacketHandler) now) in
          _ ← putPath id p;
          match Path.GetClosePathFrame p with
          | Ok f => modify (fun s => set_streamFramer s
                              (StreamFramer.AddClosePathFrameForTransmission s.(streamFramer) f))
          | Err e => fail e
          | Panic => panic
          end
  end.

(** ** Received frames *)

(** [streamsMap.GetOrOpenStream]; for the two largest IDs its loop does not end. *)
Definition GetOrOpenStream (id : Z) : M (option Z) := fun s =>
  match StreamsMap.GetOrOpenStream s.(streams) id with
  | Some (st, r) => (set_streams s st, r)
  | None => (s, Panic)
  end.

(** An operation on the stream that the map has under [id] *)
Definition withStream {A} (id : Z) (k : Stream.t -> FlowControlManager.mgr -> Stream.t * FlowControlManager.mgr * A)
  : M A := fun s =>
  let '(m, f) := s.(streams) in
  match m.(StreamsMap.streams) !! id with
  | None => (s, Panic)
  | Some str =>
      let '(str, f, a) := k str f in
      (set_streams s (StreamsMap.set_streams m (<[id := str]> m.(StreamsMap.streams)), f), Ok a)
  end.

Definition handleStreamFrame (frame : StreamFrame.t) (now : Z) : M unit :=
  str ← GetOrOpenStream frame.(StreamFrame.StreamID);
  match str with
  | None => mret tt
  | Some id => e ← withStream id (fun str f => Stream.AddStreamFrame str f frame now); check e
  end.

Definition handleWindowUpdateFrame (frame : WindowUpdateFrame.t) : M unit :=
  _ ← (if negb (frame.(WindowUpdateFrame.StreamID) =? 0) then
         str ← GetOrOpenStream frame.(WindowUpdateFrame.StreamID);
         match str with None => fail errWindowUpdateOnClosedStream | Some _ => mret tt end
       else mret tt);
  state (fun s =>
    match FlowControlManager.UpdateWindow s.(streams).2 frame.(WindowUpdateFrame.StreamID)
            frame.(WindowUpdateFrame.ByteOffset) with
    | Ok (f, _) => (set_streams s (s.(streams).1, f), Ok tt)
    | Err e => (s, Err e)
    | Panic => (s, Panic)
    end).

Definition handleRstStreamFrame (frame : RstStreamFrame.t) : M unit :=
  str ← GetOrOpenStream frame.(RstStreamFrame.StreamID);
  match str with
  | None => fail errRstStreamOnInvalidStream
  | Some id =>
      es ← withStream id (fun str f =>
             let '(str, es) := Stream.RegisterRemoteError str
               (Some (Errorf "RST_STREAM received with code %d" [frame.(RstStreamFrame.ErrorCode)])) in (str, f, es));
      _ ← handleEvents es;
      state (fun s =>
        let '(f, e) := FlowControlManager.ResetStream s.(streams).2 frame.(RstStreamFrame.StreamID)
                         frame.(RstStreamFrame.ByteOffset) in
        (set_streams s (s.(streams).1, f), match e with Some e => Err e | None => Ok tt end))
  end.

(** The smoothed RTT of the session: its statistics are those of the initial path,
    which it shares by pointer. *)
Definition sessionRTT (s : t) : Z :=
  match s.(paths) !! 0 with Some p => RTTStats.SmoothedRTT (Path.rttStats p) | None => 0 end.

Definition updateSessionRTT (rtt : Z) : M unit :=
  modify (fun s => set_paths s (alter (fun p =>
    let h := p.(Path.sentPacketHandler) in
    Path.set_sentPacketHandler p (SentPacketHandler.set_rttStats h
      (RTTStats.UpdateSessionRTT h.(SentPacketHandler.rttStats) rtt))) 0 s.(paths))).

(** A frame with the ID of no path dereferences [nil]. *)
Definition handleAckFrame (frame : AckFrame.t) (now : Z) : M unit :=
  let id := frame.(AckFrame.PathID) in
  p ← getPath id;
  let '(h, err) := SentPacketHandler.ReceivedAck p.(Path.sentPacketHandler) frame p.(Path.lastRcvdPacketNumber)
                     p.(Path.lastNetworkActivityTime) now in
  let p := Path.set_sentPacketHandler p h in
  _ ← putPath id p;
  _ ← check err;
  s ← get;
  let rtt := RTTStats.SmoothedRTT (Path.rttStats p) in
  if sessionRTT s <? rtt then updateSessionRTT rtt else mret tt.

Definition handleClosePathFrame (frame : ClosePathFrame.t) (now : Z) : M unit :=
  let id := frame.(ClosePathFrame.PathID) in
  _ ← closePath id false now;
  p ← getPath id;
  let '(h, err) := SentPacketHandler.ReceivedClosePath p.(Path.sentPacketHandler) frame p.(Path.lastRcvdPacketNumber)
                     now in
  _ ← putPath id (Path.set_sentPacketHandler p h);
  check err.

Definition handlePathsFrame (frame : PathsFrame.t) : M unit :=
  forEach (seq 0 (Z.to_nat frame.(PathsFrame.NumPaths))) (fun i =>
    match frame.(PathsFrame.PathIDs) !! i, frame.(PathsFrame.RemoteRTTs) !! i with
    | Some id, Some rtt =>
        _ ← modify (fun s => set_remoteRTTs s (<[id := rtt]> s.(remoteRTTs)));
        if 30 * Minute <=? rtt then
          p ← getPath id; putPath id (Path.set_potentiallyFailed p true)
        else mret tt
    | _, _ => panic
    end).

Definition handleFrame (frame : Frame) (pathID now : Z) : M unit :=
  match frame with
  | FStream f => handleStreamFrame f now
  | FAck f => handleAckFrame f now
  | FConnectionClose f =>
      closeRemote (Some (QuicErrorf f.(ConnectionCloseFrame.ErrorCode) "%s" f.(ConnectionCloseFrame.ReasonPhrase)))
  | FGoaway _ => fail (ErrorsNew "unimplemented: handling GOAWAY frames")
  | FStopWaiting f =>
      p ← getPath pathID;
      putPath pathID (Path.set_receivedPacketHandler p
        (ReceivedPacketHandler.SetLowerLimit p.(Path.receivedPacketHandler)
           (u64 (f.(StopWaitingFrame.LeastUnacked) - 1))))
  | FRstStream f => handleRstStreamFrame f
  | FWindowUpdate f => handleWindowUpdateFrame f
  | FBlocked _ => modify (fun s => set_peerBlocked s true)
  | FPing _ => mret tt
  | FAddAddress f => fun s =>
      let '(s, r) := handleAddAddressFrame f now s in
      match r with
      | Panic => (s, Panic)
      | _ => let '(s, _) := schedulePathsFrame now s in (s, r)
      end
  | FClosePath f => dropError (handleClosePathFrame f now)
  | FPaths f => handlePathsFrame f
  end.

Definition ignored (e : error) : bool :=
  bool_decide (e = ErrDuplicateOrOutOfOrderAck) || bool_decide (e = errRstStreamOnInvalidStream)
  || bool_decide (e = errWindowUpdateOnClosedStream).

Definition handleFrames (fs : list Frame) (pathID now : Z) : M unit :=
  forEach fs (fun frame s =>
    match handleFrame frame pathID now s with
    | (s, Err e) => if ignored e then (s, Ok tt) else (s, Err e)
    | r => r
    end).

(** ** Received packets *)

Definition set_unreliableStreamMark (m : StreamsMap.t) (marks : gmap Z bool) : StreamsMap.t :=
  StreamsMap.mk m.(StreamsMap.perspective) m.(StreamsMap.streams) m.(StreamsMap.openStreams)
    m.(StreamsMap.roundRobinIndex) m.(StreamsMap.unreliableRobinIndex) marks m.(StreamsMap.nextStream)
    m.(StreamsMap.highestStreamOpenedByPeer) m.(StreamsMap.closeErr) m.(StreamsMap.nextStreamToAccept)
    m.(StreamsMap.numOutgoingStreams) m.(StreamsMap.numIncomingStreams).

(** [path.handlePacketImpl] on the path [id], with the dispatch of the frames *)
Definition handleOnPath (id : Z) (p : receivedPacket) (rcvTime now : Z) : M unit :=
  pth ← getPath id;
  s ← get;
  match Path.handlePacketImpl pth s.(version) s.(perspective) s.(streams).1.(StreamsMap.unreliableStreamMark)
          p.(publicHeader) p.(data) (Some rcvTime) now with
  | None => panic
  | Some (pth, marks, newRemote, r) =>
      _ ← putPath id pth;
      _ ← modify (fun s => set_streams s (set_unreliableStreamMark s.(streams).1 marks, s.(streams).2));
      _ ← (if newRemote : bool
           then modify (fun s => set_pathAddrs s (alter (fun a => (a.1, p.(remoteAddr))) id s.(pathAddrs)))
           else mret tt);
      match r with
      | Ok None => mret tt
      | Ok (Some (_, frames)) => handleFrames frames id now
      | Err e => fail e
      | Panic => panic
      end
  end.

(** The crypto setup, an interface of the model, is also given the nonce. *)
Definition handlePacketImpl (p : receivedPacket) (now : Z) : M unit :=
  let time := default now p.(rcvTime) in
  _ ← modify (fun s => set_keepAlivePingSent (set_lastNetworkActivityTime s time) false);
  s ← get;
  let id := p.(publicHeader).(PublicHeader.PathID) in
  _ ← (match s.(paths) !! id with Some _ => mret tt | None => createPathFromRemote p now end);
  handleOnPath id p time now.

Definition tryQueueingUndecryptablePacket (p : receivedPacket) (now : Z) : M unit :=
  modify (fun s =>
    if s.(handshakeComplete) then s
    else if MaxUndecryptablePackets <? Z.of_nat (length s.(undecryptablePackets)) + 1 then
      match s.(tooManyUndecryptableTime) with
      | None => set_tooManyUndecryptableTime s (Some now)
      | Some _ => s
      end
    else set_undecryptablePackets s (s.(undecryptablePackets) ++ [p])).

(** The packets go through the channel of received packets again. *)
Definition tryDecryptingQueuedPackets : M (list receivedPacket) := fun s =>
  (set_undecryptablePackets s [], Ok s.(undecryptablePackets)).

(** The run loop on a received packet *)
Definition receive (p : receivedPacket) (now : Z) : M unit := fun s =>
  match handlePacketImpl p now s with
  | (s, Err e) =>
      if Path.decryptionFailed e then tryQueueingUndecryptablePacket p now s else closeLocal (Some e) s
  | r => r
  end.

(** [getWindowUpdateFrames]; [order] is the order in which the streams of the flow
    control manager are visited. *)
Definition getWindowUpdateFrames (order : list Z) (force : bool) (now : Z) : M (list WindowUpdateFrame.t) := fun s =>
  let '(f, updates) := FlowControlManager.GetWindowUpdates order force (sessionRTT s)
                         (map_to_list s.(remoteRTTs)).*2 now s.(streams).2 in
  (set_streams s (s.(streams).1, f), Ok (map (fun u : Z * Z => WindowUpdateFrame.mk u.1 u.2) updates)).

End session.

Arguments t : clear implicits.
Arguments M : clear implicits.

End Session.
