(* ===== verification/Scheduler.v ===== *)
(** * The packet scheduler ([scheduler.go])

    The choice of the path for the next packet, retransmissions, and the loop that
    sends packets until there is no more data or no more room.  Paths are named by
    their ID; a [nil] path is [None]. *)

From S2P Require Import Prelude ByteOrder Protocol WireHeader WireFrames WireStream WireAck.
From S2P Require Import PacketUnpacker MinMax AckReceived ConnParams FlowControl StreamSorter Stream StreamsMap.
From S2P Require Import StreamFramer RTTStats SentPackets Path PacketPacker Session.

Module Scheduler.
Import Session.

Section scheduler.
Context {S : Type} `{cong : SendAlgorithm S} `{crypto : CryptoSetup}.

Abbreviation M := (Session.M S).
Abbreviation session := (Session.t S).

(** [sch.quotas[id]], 0 when there is none *)
Definition quota (q : gmap Z Z) (id : Z) : Z := default 0 (q !! id).

(** [if !ok { sch.quotas[id] = 0 }] *)
Definition initQuota (q : gmap Z Z) (id : Z) : gmap Z Z :=
  match q !! id with Some _ => q | None => <[id := 0]> q end.

Definition set_quotas (q : gmap Z Z) : M unit :=
  modify (fun s => set_scheduler s (mkScheduler q s.(scheduler).(quotas2))).
Definition set_quotas2 (q : gmap Z Z) : M unit :=
  modify (fun s => set_scheduler s (mkScheduler s.(scheduler).(quotas) q)).

Definition smoothedRTT (p : Path.t S) : Z := RTTStats.SmoothedRTT (Path.rttStats p).

(** ** The choice of a path *)

(** The only path, unless it may not send *)
Definition onlyPath (hasRetransmission : bool) : M (option Z) :=
  s ← get;
  let result : M (option Z) := mret (if bool_decide (is_Some (s.(paths) !! 0)) then Some 0 else None) in
  if hasRetransmission then result
  else p ← getPath 0; if Path.SendingAllowed p then result else mret None.

(** The paths that a loop passes over *)
Definition skipped (checkSending hasRetransmission : bool) (id : Z) (p : Path.t S) : bool :=
  (checkSending && negb hasRetransmission && negb (Path.SendingAllowed p))
  || p.(Path.potentiallyFailed) || (id =? 0).

Definition maxUint : Z := 2 ^ 64 - 1.

(** The loop of the round robins: a path with the lowest quota *)
Fixpoint quotaLoop (s : session) (checkSending hasRetransmission : bool) (ids : list Z) (q : gmap Z Z)
    (lowerQuota : Z) (selected : option Z) : gmap Z Z * option Z :=
  match ids with
  | [] => (q, selected)
  | id :: ids =>
      match s.(paths) !! id with
      | None => quotaLoop s checkSending hasRetransmission ids q lowerQuota selected
      | Some p =>
          if skipped checkSending hasRetransmission id p
          then quotaLoop s checkSending hasRetransmission ids q lowerQuota selected
          else
            let currentQuota := quota q id in
            let q := initQuota q id in
            if currentQuota <? lowerQuota
            then quotaLoop s checkSending hasRetransmission ids q currentQuota (Some id)
            else quotaLoop s checkSending hasRetransmission ids q lowerQuota selected
      end
  end.

Definition selectPathRoundRobin (hasRetransmission : bool) : M (option Z) :=
  s ← get;
  if (size s.(paths) <=? 1)%nat then onlyPath hasRetransmission
  else
    ids ← rangePaths;
    let '(q, selected) := quotaLoop s true hasRetransmission ids s.(scheduler).(quotas) maxUint None in
    _ ← set_quotas q;
    mret selected.

Definition selectPathUnreliable (hasRetransmission : bool) : M (option Z) :=
  s ← get;
  if (size s.(paths) <=? 1)%nat then onlyPath hasRetransmission
  else
    ids ← rangePaths;
    let '(q, selected) := quotaLoop s false hasRetransmission ids s.(scheduler).(quotas2) maxUint None in
    _ ← set_quotas2 q;
    mret selected.

(** A path other than [from] with a lower quota *)
Definition lowerQuotaPath (s : session) (from : Z) (ids : list Z) : option Z :=
  let q := s.(scheduler).(quotas) in
  List.find (fun id => negb (id =? 0) && negb (id =? from) && (quota q id <? quota q from)) ids.

(** The loop over the round-trip times; the selected path is [selectedPathID] when
    [selected] is true. *)
Fixpoint rttLoop (s : session) (hasRetransmission : bool) (ids : list Z) (q : gmap Z Z)
    (lowerRTT : Z) (selected : bool) (selectedPathID : Z) : gmap Z Z * bool * Z :=
  match ids with
  | [] => (q, selected, selectedPathID)
  | id :: ids =>
      match s.(paths) !! id with
      | None => rttLoop s hasRetransmission ids q lowerRTT selected selectedPathID
      | Some p =>
          if skipped true hasRetransmission id p
          then rttLoop s hasRetransmission ids q lowerRTT selected selectedPathID
          else
            let currentRTT := smoothedRTT p in
            if negb (lowerRTT =? 0) && (currentRTT =? 0)
            then rttLoop s hasRetransmission ids q lowerRTT selected selectedPathID
            else
              let q' := if currentRTT =? 0 then initQuota q id else q in
              if (currentRTT =? 0) && selected && (quota q' selectedPathID <? quota q' id)
              then rttLoop s hasRetransmission ids q' lowerRTT selected selectedPathID
              else if negb (currentRTT =? 0) && negb (lowerRTT =? 0) && selected && (lowerRTT <=? currentRTT)
              then rttLoop s hasRetransmission ids q' lowerRTT selected selectedPathID
              else rttLoop s hasRetransmission ids q' currentRTT true id
      end
  end.

(** [fromPth.rttStats.SmoothedRTT() == 0], only evaluated on a retransmission *)
Definition unprobedSource (hasRetransmission hasStreamRetransmission : bool) (fromPth : option Z) : M (option Z) :=
  if hasRetransmission && hasStreamRetransmission then
    match fromPth with
    | None => panic
    | Some from => p ← getPath from; mret (if smoothedRTT p =? 0 then Some from else None)
    end
  else mret None.

Definition selectByRTT (hasRetransmission : bool) : M (option Z) :=
  s ← get;
  ids ← rangePaths;
  let '(q, selected, id) := rttLoop s hasRetransmission ids s.(scheduler).(quotas) 0 false 255 in
  _ ← set_quotas q;
  mret (if selected : bool then Some id else None).

Definition selectPathLowLatency (hasRetransmission hasStreamRetransmission : bool) (fromPth : option Z)
  : M (option Z) :=
  s ← get;
  if (size s.(paths) <=? 1)%nat then onlyPath hasRetransmission
  else
    unprobed ← unprobedSource hasRetransmission hasStreamRetransmission fromPth;
    match unprobed with
    | None => selectByRTT hasRetransmission
    | Some from =>
        ids ← rangePaths;
        match lowerQuotaPath s from ids with
        | Some id => mret (Some id)
        | None => selectByRTT hasRetransmission
        end
    end.

Definition selectPath := selectPathLowLatency.

(** ** Retransmissions *)

(** The first path with a packet to retransmit *)
Fixpoint dequeueLoop (ids : list Z) : M (option (Packet.t * Z)) :=
  match ids with
  | [] => mret None
  | id :: ids =>
      p ← getPath id;
      let '(h, packet) := SentPacketHandler.DequeuePacketForRetransmission p.(Path.sentPacketHandler) in
      match packet with
      | Some packet => _ ← putPath id (Path.set_sentPacketHandler p h); mret (Some (packet, id))
      | None => dequeueLoop ids
      end
  end.

(** A frame of a lost packet; the data of an unreliable stream is given up. *)
Definition retransmitFrame (id now : Z) (frame : Frame) : M unit :=
  match frame with
  | FStream f =>
      modify (fun s =>
        if (StreamsMap.GetStreasmType s.(streams).1 f.(StreamFrame.StreamID)).1 then s
        else set_streamFramer s (StreamFramer.AddFrameForRetransmission s.(streamFramer) f))
  | FWindowUpdate f =>
      s ← get;
      match FlowControlManager.GetReceiveWindow s.(streams).2 f.(WindowUpdateFrame.StreamID) with
      | Ok currentOffset =>
          if currentOffset <=? f.(WindowUpdateFrame.ByteOffset) then QueueControlFrame frame id else mret tt
      | _ => mret tt
      end
  | FPaths _ => schedulePathsFrame now
  | _ => QueueControlFrame frame id
  end.

(** [fuel] bounds the packets taken: every round takes one from a queue. *)
Fixpoint retransmissionLoop (fuel : nat) (hasRetransmission : bool) (pth : option Z) (now : Z)
  : M (bool * option Packet.t * option Z) :=
  match fuel with
  | O => mret (hasRetransmission, None, pth)
  | Datatypes.S fuel =>
      ids ← rangePaths;
      dequeued ← dequeueLoop ids;
      match dequeued with
      | None => mret (hasRetransmission, None, pth)
      | Some (packet, id) =>
          s ← get;
          if negb (packet.(Packet.EncryptionLevel) =? EncryptionForwardSecure) then
            if s.(handshakeComplete) then retransmissionLoop fuel true (Some id) now
            else mret (true, Some packet, Some id)
          else
            _ ← forEach (Packet.GetFramesForRetransmission packet) (retransmitFrame id now);
            retransmissionLoop fuel true (Some id) now
      end
  end.

Definition queuedPackets (s : session) : nat :=
  list_sum (map (fun p : Z * Path.t S => length p.2.(Path.sentPacketHandler).(SentPacketHandler.retransmissionQueue))
              (map_to_list s.(paths))).

Definition getRetransmission (now : Z) : M (bool * option Packet.t * option Z) :=
  s ← get;
  retransmissionLoop (Datatypes.S (queuedPackets s)) false None now.

(** ** Sending *)

Definition incrementQuota (id : Z) : M unit :=
  p ← getPath id;
  s ← get;
  if Path.SendingAllowed p
  then set_quotas (<[id := u64 (quota s.(scheduler).(quotas) id + 1)]> s.(scheduler).(quotas))
  else set_quotas2 (<[id := u64 (quota s.(scheduler).(quotas2) id + 1)]> s.(scheduler).(quotas2)).

(** The packet that was sent, if any *)
Definition performPacketSending (windowUpdateFrames : list WindowUpdateFrame.t) (id now : Z) : M (option Packet.t) :=
  p ← getPath id;
  _ ← (if SentPacketHandler.ShouldSendRetransmittablePacket p.(Path.sentPacketHandler)
       then QueueControlFrame (FPing PingFrame.mk) id else mret tt);
  packet ← packWith PacketPacker.PackPacket id now;
  match packet with
  | None => mret None
  | Some packet =>
      _ ← sendPackedPacket packet id now;
      _ ← forEach windowUpdateFrames (fun f => QueueControlFrame (FWindowUpdate f) id);
      _ ← incrementQuota id;
      mret (Some (packetOf packet now))
  end.

(** [pth.GetAckFrame()] *)
Definition takeAck (id now : Z) : M (option AckFrame.t) :=
  p ← getPath id;
  match Path.GetAckFrame p now with
  | Ok (p, ack) => _ ← putPath id p; mret ack
  | Err e => fail e
  | Panic => panic
  end.

Definition takeStopWaiting (id : Z) (force : bool) : M (option StopWaitingFrame.t) :=
  p ← getPath id;
  let '(p, swf) := Path.GetStopWaitingFrame p force in
  _ ← putPath id p;
  mret swf.

(** [QueueControlFrame] of a pointer that may be [nil] *)
Definition queueAck (id : Z) (ack : option AckFrame.t) : M unit :=
  match ack with
  | Some ack => QueueControlFrame (FAck ack) id
  | None => modify (fun s => set_packer s (PacketPacker.set_ackFrame s.(packer)
                               (delete id s.(packer).(PacketPacker.ackFrame))))
  end.
Definition queueStopWaiting (id : Z) (swf : option StopWaitingFrame.t) : M unit :=
  match swf with Some swf => QueueControlFrame (FStopWaiting swf) id | None => mret tt end.

Definition packAck (id now : Z) : M PacketPacker.packedPacket :=
  p ← getPath id;
  num ← nextRandom;
  state (fun s =>
    let '(pk, p, r) := PacketPacker.PackAckPacket s.(packer) s.(streams).2.(FlowControlManager.params) p
                         s.(handshakeComplete) now num in
    (set_paths (set_packer s pk) (<[id := p]> s.(paths)), r)).

(** The loop over the paths in [ackRemainingPaths]; a [nil] packet is dereferenced. *)
Definition ackPath (windowUpdateFrames : list WindowUpdateFrame.t) (now id : Z) : M unit :=
  ack ← takeAck id now;
  _ ← forEach windowUpdateFrames (fun f => QueueControlFrame (FWindowUpdate f) id);
  if negb (bool_decide (is_Some ack)) && (length windowUpdateFrames =? 0)%nat then mret tt
  else if (id =? 0) && negb (bool_decide (is_Some ack)) then mret tt
  else
    swf ← takeStopWaiting id false;
    _ ← queueStopWaiting id swf;
    _ ← queueAck id ack;
    packet ← (if bool_decide (is_Some ack) then (packet ← packAck id now; mret (Some packet))
              else packWith PacketPacker.PackPacket id now);
    match packet with
    | Some packet => sendPackedPacket packet id now
    | None => panic
    end.

Definition ackRemainingPaths (order : list Z) (total : list WindowUpdateFrame.t) (now : Z) : M unit :=
  s ← get;
  windowUpdateFrames ← (match total with
                        | [] => getWindowUpdateFrames order s.(peerBlocked) now
                        | _ => mret total
                        end);
  ids ← rangePaths;
  _ ← forEach ids (ackPath windowUpdateFrames now);
  modify (fun s => set_peerBlocked s false).

(** Whether an unreliable stream has data to send: the loop indexes [openStreams]
    with the size of the map. *)
Definition unreliableData : M bool := fun s =>
  let m := s.(streams).1 in
  let ids := take (size m.(StreamsMap.streams)) m.(StreamsMap.openStreams) in
  if (length m.(StreamsMap.openStreams) <? size m.(StreamsMap.streams))%nat
     || existsb (fun id => negb (bool_decide (is_Some (m.(StreamsMap.streams) !! id)))) ids
  then (s, Panic)
  else (s, Ok (existsb (fun id => match m.(StreamsMap.streams) !! id with
                                  | Some str => str.(Stream.unreliableMarker) && (0 <? Stream.lenOfDataForWriting str)
                                  | None => false
                                  end) ids)).

(** The queues of the framer for CLOSE_PATH, ADD_ADDRESS and PATHS frames are emptied
    into the control frames; [fuel] bounds their lengths. *)
Fixpoint popFrames (fuel : nat) (pop : StreamFramer.t -> StreamFramer.t * option Frame) (id : Z) : M unit :=
  match fuel with
  | O => mret tt
  | Datatypes.S fuel =>
      s ← get;
      let '(fr, f) := pop s.(streamFramer) in
      match f with
      | None => mret tt
      | Some f => _ ← modify (fun s => set_streamFramer s fr); _ ← QueueControlFrame f id; popFrames fuel pop id
      end
  end.

Definition frameOf {A} (mk : A -> Frame) (r : StreamFramer.t * option A) : StreamFramer.t * option Frame :=
  (r.1, mk <$> r.2).

Definition queueFramerFrames (id : Z) : M unit :=
  s ← get;
  let fr := s.(streamFramer) in
  _ ← popFrames (length fr.(StreamFramer.closePathFrameQueue))
        (fun fr => frameOf FClosePath (StreamFramer.PopClosePathFrame fr)) id;
  _ ← popFrames (length fr.(StreamFramer.addAddressFrameQueue))
        (fun fr => frameOf FAddAddress (StreamFramer.PopAddAddressFrame fr)) id;
  popFrames 1 (fun fr => frameOf FPaths (StreamFramer.PopPathsFrame fr)) id.

(** A packet that went out on a path without a round-trip time is duplicated when
    another path was used less. *)
Definition maybeDuplicate (id : Z) (packet : Packet.t) : M unit :=
  p ← getPath id;
  if negb (smoothedRTT p =? 0) then mret tt
  else
    ids ← rangePaths;
    s ← get;
    let q := s.(scheduler).(quotas) in
    let other i := negb (i =? 0) && negb (i =? id) && (quota q i <? quota q id)
                   && match s.(paths) !! i with
                      | Some p => SentPacketHandler.SendingAllowed p.(Path.sentPacketHandler)
                      | None => false
                      end in
    if existsb other ids
    then putPath id (Path.set_sentPacketHandler p
                       (SentPacketHandler.DuplicatePacket p.(Path.sentPacketHandler) packet))
    else mret tt.

Definition retransmitHandshake (packet : Packet.t) (id now : Z) : M unit :=
  p ← getPath id;
  let '(h, swf) := SentPacketHandler.GetStopWaitingFrame p.(Path.sentPacketHandler) true in
  let p := Path.set_sentPacketHandler p h in
  _ ← putPath id p;
  _ ← (match swf with
       | Some swf => QueueControlFrame (FStopWaiting swf) id
       | None => modify (fun s => set_packer s (PacketPacker.set_stopWaiting s.(packer)
                                    (delete id s.(packer).(PacketPacker.stopWaiting))))
       end);
  num ← nextRandom;
  packed ← state (fun s =>
    let '(pk, p, r) := PacketPacker.PackHandshakeRetransmission s.(packer) s.(streams).2.(FlowControlManager.params)
                         packet p s.(handshakeComplete) now num in
    (set_paths (set_packer s pk) (<[id := p]> s.(paths)), r));
  sendPackedPacket packed id now.

(** The path of one round of [sendPacket], or [None] when it ends with
    [ackRemainingPaths]; a [nil] path is dereferenced. *)
Definition choosePath (hasRetransmission hasStreamRetransmission : bool) (fromPth : option Z) : M (option Z) :=
  pth ← selectPath hasRetransmission hasStreamRetransmission fromPth;
  unreliable ← unreliableData;
  match pth, unreliable with
  | Some id, _ => mret (Some id)
  | None, false => mret None
  | None, true =>
      pth ← selectPathUnreliable hasRetransmission;
      match pth with Some id => mret (Some id) | None => panic end
  end.

(** The frames that go with the data: ACK, STOP_WAITING and those of the framer *)
Definition queuePathFrames (id : Z) (hasStreamRetransmission : bool) (now : Z) : M unit :=
  ack ← takeAck id now;
  _ ← (match ack with Some ack => QueueControlFrame (FAck ack) id | None => mret tt end);
  _ ← (if bool_decide (is_Some ack) || hasStreamRetransmission then
         swf ← takeStopWaiting id hasStreamRetransmission; queueStopWaiting id swf
       else mret tt);
  queueFramerFrames id.

Definition pingFailedPath (fromPth : option Z) (now : Z) : M unit :=
  match fromPth with
  | None => mret tt
  | Some from =>
      p ← getPath from;
      if p.(Path.potentiallyFailed) then sendPing from now else mret tt
  end.

(** The loop of [sendPacket]; the result tells whether it came to its end within
    [fuel] packets. *)
Fixpoint sendLoop (fuel : nat) (order : list Z) (windowUpdateFrames : list WindowUpdateFrame.t) (now : Z) : M bool :=
  match fuel with
  | O => mret false
  | Datatypes.S fuel =>
      retransmission ← getRetransmission now;
      let '(hasRetransmission, handshakePacket, fromPth) := retransmission in
      s ← get;
      let hasStreamRetransmission := StreamFramer.HasFramesForRetransmission s.(streamFramer) in
      pth ← choosePath hasRetransmission hasStreamRetransmission fromPth;
      match pth, handshakePacket with
      | None, _ =>
          wufs ← getWindowUpdateFrames order false now;
          _ ← ackRemainingPaths order wufs now;
          mret true
      | Some id, Some packet =>
          _ ← retransmitHandshake packet id now;
          sendLoop fuel order windowUpdateFrames now
      | Some id, None =>
          _ ← queuePathFrames id hasStreamRetransmission now;
          sent ← performPacketSending windowUpdateFrames id now;
          match sent with
          | None => _ ← ackRemainingPaths order [] now; mret true
          | Some packet =>
              _ ← maybeDuplicate id packet;
              _ ← pingFailedPath fromPth now;
              sendLoop fuel order [] now
          end
      end
  end.

(** [pthTmp.SetLeastUnacked(pthTmp.sentPacketHandler.GetLeastUnacked())] for all paths *)
Definition updateLeastUnacked (s : session) : session :=
  set_paths s ((fun p => Path.SetLeastUnacked p (SentPacketHandler.GetLeastUnacked p.(Path.sentPacketHandler)))
               <$> s.(paths)).

(** WINDOW_UPDATE frames are no frames of a path. *)
Definition sendPacket (fuel : nat) (order : list Z) (now : Z) : M bool :=
  _ ← modify updateLeastUnacked;
  wufs ← getWindowUpdateFrames order false now;
  _ ← forEach wufs (fun f => QueueControlFrame (FWindowUpdate f) 0);
  sendLoop fuel order wufs now.

End scheduler.

End Scheduler.
