(* ===== verification/SchedulerProofs.v ===== *)
(** * The choice of a path

    Whatever the order in which Go visits the map of paths, the scheduler picks a
    usable path with the lowest round-trip time, and none only when none is usable;
    and a session whose paths may not send while an unreliable stream has data
    dereferences a [nil] path. *)

From S2P Require Import Prelude ByteOrder Protocol WireHeader WireFrames WireStream WireAck.
From S2P Require Import PacketUnpacker MinMax AckReceived ConnParams FlowControl StreamSorter Stream StreamsMap.
From S2P Require Import StreamFramer RTTStats SentPackets Cubic Path PacketPacker Session Scheduler.
From S2P Require Import StreamsMapProofs StreamFramerProofs PackerProofs.

Module SchedulerProofs.
Import Session Scheduler.

Section selection.
Context {S : Type} `{cong : SendAlgorithm S}.

(** ** Visiting the paths *)

Lemma pathIDs_spec (s : Session.t S) id : id ∈ pathIDs s <-> is_Some (s.(paths) !! id).
Proof.
  unfold pathIDs. rewrite list_elem_of_fmap. split.
  - intros ([i p] & -> & Hin). apply elem_of_map_to_list in Hin. by exists p.
  - intros [p Hp]. exists (id, p). split; [done|]. by apply elem_of_map_to_list.
Qed.

Lemma rangePaths_ok (s : Session.t S) :
  exists s' ids, rangePaths s = (s', Ok ids) /\ (forall id, id ∈ ids <-> is_Some (s.(paths) !! id))
    /\ s'.(paths) = s.(paths) /\ s'.(scheduler) = s.(scheduler).
Proof.
  unfold rangePaths. destruct s.(choices) as [|c cs].
  { exists s, (pathIDs s). split; [done|]. split; [apply pathIDs_spec|done]. }
  exists (set_choices s cs), (if bool_decide (c ≡ₚ pathIDs s) then c else pathIDs s). split; [done|]. split; [|done].
  intros id. rewrite <- pathIDs_spec. case_bool_decide as Hp; [|done]. by rewrite Hp.
Qed.

Lemma quota_init q id i : quota (initQuota q id) i = quota q i.
Proof.
  unfold quota, initQuota. destruct (q !! id) eqn:E; [done|].
  destruct (decide (i = id)) as [->|?]; [by rewrite lookup_insert_eq, E|by rewrite lookup_insert_ne].
Qed.

(** ** The path with the lowest round-trip time *)

Section loop.
Context (s : Session.t S) (hasRetransmission : bool).

Definition usable (id : Z) (p : Path.t S) : Prop :=
  s.(paths) !! id = Some p /\ skipped true hasRetransmission id p = false.

(** [id] is no worse than [id']: it has a round-trip time when [id'] has one, and then
    not a higher one; without round-trip times its quota is not higher. *)
Definition no_worse (q : gmap Z Z) (id : Z) (rtt : Z) (id' : Z) (p' : Path.t S) : Prop :=
  if rtt =? 0 then smoothedRTT p' = 0 /\ quota q id <= quota q id'
  else smoothedRTT p' <> 0 -> rtt <= smoothedRTT p'.

(** The state of the loop after the paths [seen] *)
Definition best (seen : list Z) (q : gmap Z Z) (lower : Z) (selected : bool) (id : Z) : Prop :=
  if selected then
    (exists p, usable id p /\ smoothedRTT p = lower) /\
    (forall id' p', id' ∈ seen -> usable id' p' -> no_worse q id lower id' p')
  else lower = 0 /\ (forall id' p', id' ∈ seen -> ~ usable id' p').

Lemma best_skip seen q lower selected id x :
  best seen q lower selected id -> (forall p, ~ usable x p) -> best (seen ++ [x]) q lower selected id.
Proof.
  intros Hb Hx. destruct selected; destruct Hb as [H1 H2]; (split; [done|]); intros id' p' Hin Hu;
    apply elem_of_app in Hin as [Hin| ->%list_elem_of_singleton]; try (by eapply H2); by destruct (Hx p').
Qed.

Lemma best_quota seen q q' lower selected id :
  (forall i, quota q' i = quota q i) -> best seen q lower selected id -> best seen q' lower selected id.
Proof.
  intros Hq Hb. destruct selected; [|exact Hb]. destruct Hb as [H1 H2]. split; [done|].
  intros id' p' Hin Hu. specialize (H2 _ _ Hin Hu). unfold no_worse in *. by rewrite !Hq.
Qed.

(** A usable path [x] that is no better than the selected one *)
Lemma best_keep seen q lower id x p :
  best seen q lower true id -> usable x p -> no_worse q id lower x p -> best (seen ++ [x]) q lower true id.
Proof.
  intros [H1 H2] Hu Hw. split; [done|]. intros id' p' [Hin| ->%list_elem_of_singleton]%elem_of_app Hu'; [by apply H2|].
  assert (p' = p) as -> by (destruct Hu, Hu'; congruence). done.
Qed.

(** A usable path [x] that is no worse than the ones before *)
Lemma best_take seen q x p :
  usable x p -> (forall id' p', id' ∈ seen -> usable id' p' -> no_worse q x (smoothedRTT p) id' p') ->
  best (seen ++ [x]) q (smoothedRTT p) true x.
Proof.
  intros Hu Hw. split; [by exists p|].
  intros id' p' [Hin| ->%list_elem_of_singleton]%elem_of_app Hu'; [by apply Hw|].
  assert (p' = p) as -> by (destruct Hu, Hu'; congruence).
  unfold no_worse. destruct (Z.eqb_spec (smoothedRTT p) 0); lia.
Qed.

Definition loop_ok (ids seen : list Z) (q : gmap Z Z) (r : gmap Z Z * bool * Z) : Prop :=
  let '(q', selected, id) := r in
  (forall i, quota q' i = quota q i) /\ exists lower, best (seen ++ ids) q lower selected id.

Lemma rttLoop_best ids : forall seen q lower selected id,
  best seen q lower selected id ->
  loop_ok ids seen q (rttLoop s hasRetransmission ids q lower selected id).
Proof.
  induction ids as [|x ids IH]; intros seen q lower selected id Hb; cbn [rttLoop].
  { split; [done|]. exists lower. by rewrite app_nil_r. }
  assert (Hnext : forall q' l sel i, (forall i, quota q' i = quota q i) -> best (seen ++ [x]) q l sel i ->
    loop_ok (x :: ids) seen q (rttLoop s hasRetransmission ids q' l sel i)).
  { intros q' l sel i Hq Hb'. specialize (IH _ _ _ _ _ (best_quota _ _ q' _ _ _ Hq Hb')).
    unfold loop_ok in *. destruct (rttLoop _ _ _ _ _ _ _) as [[q1 sel1] i1]. destruct IH as [H1 [l1 H2]].
    split; [intros j; by rewrite H1, Hq|]. exists l1. rewrite <- app_assoc in H2.
    apply (best_quota _ q'); [done|exact H2]. }
  destruct (s.(paths) !! x) as [p|] eqn:Hp.
  2:{ apply Hnext; [done|]. apply best_skip; [done|]. intros p [Hl _]. congruence. }
  destruct (skipped true hasRetransmission x p) eqn:Hs.
  { apply Hnext; [done|]. apply best_skip; [done|]. intros p' [Hl Hs']. congruence. }
  assert (Hu : usable x p) by done. cbv zeta.
  destruct (Z.eqb_spec (smoothedRTT p) 0) as [Hr|Hr], (Z.eqb_spec lower 0) as [Hl|Hl]; cbn [negb andb].
  - destruct selected; cbn [andb].
    + rewrite !quota_init. destruct (Z.ltb_spec (quota q id) (quota q x)).
      * apply Hnext; [intros; apply quota_init|]. apply (best_keep _ _ _ _ _ p); [done..|].
        unfold no_worse. rewrite Hl. cbn. lia.
      * apply Hnext; [intros; apply quota_init|]. apply best_take; [done|].
        destruct Hb as [_ Hb]. intros i pi Hi Hui. specialize (Hb _ _ Hi Hui). unfold no_worse in *.
        rewrite Hr, Hl in *. cbn in *. lia.
    + apply Hnext; [intros; apply quota_init|]. apply best_take; [done|].
      destruct Hb as [_ Hb]. intros i pi Hi Hui. by destruct (Hb _ _ Hi Hui).
  - apply Hnext; [done|]. destruct selected; [|by destruct Hb].
    apply (best_keep _ _ _ _ _ p); [done..|]. unfold no_worse. rewrite (proj2 (Z.eqb_neq _ _) Hl). congruence.
  - apply Hnext; [done|]. apply best_take; [done|]. intros i pi Hi Hui. unfold no_worse.
    rewrite (proj2 (Z.eqb_neq _ _) Hr). intros Hri. destruct selected; [|by destruct Hb as [_ Hb]; destruct (Hb _ _ Hi Hui)].
    destruct Hb as [_ Hb]. specialize (Hb _ _ Hi Hui). unfold no_worse in Hb. rewrite Hl in Hb. by destruct Hb.
  - destruct selected; cbn [andb]; [|by destruct Hb].
    destruct (Z.leb_spec lower (smoothedRTT p)).
    + apply Hnext; [done|]. apply (best_keep _ _ _ _ _ p); [done..|]. unfold no_worse.
      rewrite (proj2 (Z.eqb_neq _ _) Hl). by intros.
    + apply Hnext; [done|]. apply best_take; [done|]. destruct Hb as [_ Hb]. intros i pi Hi Hui.
      specialize (Hb _ _ Hi Hui). unfold no_worse in *. rewrite (proj2 (Z.eqb_neq _ _) Hr).
      rewrite (proj2 (Z.eqb_neq _ _) Hl) in Hb. lia.
Qed.

(** What the choice by round-trip time means *)
Definition chosen (r : option Z) : Prop :=
  match r with
  | None => forall id p, ~ usable id p
  | Some id => exists p, usable id p
      /\ forall id' p', usable id' p' -> no_worse s.(scheduler).(quotas) id (smoothedRTT p) id' p'
  end.

End loop.

Lemma selectByRTT_ok (s : Session.t S) hasRetransmission :
  exists s' r, selectByRTT hasRetransmission s = (s', Ok r) /\ chosen s hasRetransmission r
    /\ s'.(paths) = s.(paths).
Proof.
  unfold selectByRTT, get, mbind, session_bind. destruct (rangePaths_ok s) as (s1 & ids & -> & Hids & Hp1 & _).
  assert (H0 : best s hasRetransmission [] s.(scheduler).(quotas) 0 false 255)
    by (split; [done|intros ? ? ?%elem_of_nil; done]).
  pose proof (rttLoop_best s hasRetransmission ids _ _ _ _ _ H0) as Hl. unfold loop_ok in Hl. cbn [app] in Hl.
  destruct (rttLoop _ _ _ _ _ _ _) as [[q sel] id]. destruct Hl as [Hq [lower Hb]].
  cbn [set_quotas modify]. eexists _, _. split; [reflexivity|]. split; [|done].
  assert (Hin : forall i p, usable s hasRetransmission i p -> i ∈ ids) by (intros i p [Hi _]; apply Hids; by eexists).
  destruct sel; cbn [chosen].
  - destruct Hb as [(p & Hu & <-) Hb]. exists p. split; [done|]. intros i pi Hui. apply Hb; [by eapply Hin|done].
  - destruct Hb as [_ Hb]. intros i pi Hui. by apply (Hb i pi (Hin _ _ Hui)).
Qed.

(** The path of a retransmission *)
Definition source_ok (s : Session.t S) (from : option Z) : Prop :=
  exists f, from = Some f /\ is_Some (s.(paths) !! f).

(** [id] is a path other than the initial one and the source of a retransmission, the
    source is unprobed, and [id] was used less. *)
Definition less_used (s : Session.t S) (from : option Z) (id : Z) : Prop :=
  exists f pf, from = Some f /\ s.(paths) !! f = Some pf /\ smoothedRTT pf = 0
    /\ is_Some (s.(paths) !! id) /\ id <> 0 /\ id <> f
    /\ quota s.(scheduler).(quotas) id < quota s.(scheduler).(quotas) f.

(** Stream data is retransmitted that was lost on an unprobed path, and another path
    was used less. *)
Definition diverted (s : Session.t S) (hasRetransmission hasStreamRetransmission : bool) (from : option Z) : Prop :=
  hasRetransmission && hasStreamRetransmission = true /\ exists id, less_used s from id.

Lemma lowerQuotaPath_spec (s : Session.t S) f pf ids :
  (forall id, id ∈ ids <-> is_Some (s.(paths) !! id)) -> s.(paths) !! f = Some pf -> smoothedRTT pf = 0 ->
  match lowerQuotaPath s f ids with
  | Some id => less_used s (Some f) id
  | None => forall id, ~ less_used s (Some f) id
  end.
Proof.
  intros Hids Hpf Hz. unfold lowerQuotaPath. destruct (List.find _ ids) as [id|] eqn:E.
  - apply List.find_some in E as [Hin Hc].
    apply andb_prop in Hc as [[H1%negb_true_iff%Z.eqb_neq H2%negb_true_iff%Z.eqb_neq]%andb_prop H3%Z.ltb_lt].
    exists f, pf. split_and!; try done. apply Hids, list_elem_of_In, Hin.
  - intros id (f' & pf' & [= <-] & _ & _ & Hid & H0 & Hf & Hq). apply Hids, list_elem_of_In in Hid.
    apply (List.find_none _ _ E) in Hid. rewrite (proj2 (Z.eqb_neq _ _) H0), (proj2 (Z.eqb_neq _ _) Hf) in Hid.
    cbn in Hid. lia.
Qed.

(** C10: the scheduler's choice.  With one path, it is that path if packets are
    retransmitted or it may send, and none otherwise.  With several paths, whatever
    order the map is visited in: when stream data is retransmitted that was lost on a
    path without a round-trip time, and another path than the initial one was used
    less than that one, it is such a path; in all other cases it is a path that is not
    the initial one, not potentially failed, and open with room in its congestion
    window (unless packets are retransmitted), such that no usable path has a lower
    round-trip time, a path without a round-trip time is only chosen when no usable
    path has one, and then none was used less, and no path is chosen only when none
    is usable. *)
Theorem path_selected (s : Session.t S) (hasRetransmission hasStreamRetransmission : bool) (from : option Z) (p0 : Path.t S)
  (H0 : s.(paths) !! 0 = Some p0)
  (Hfrom : hasRetransmission && hasStreamRetransmission = true -> source_ok s from) :
  exists s' r, selectPath hasRetransmission hasStreamRetransmission from s = (s', Ok r) /\ s'.(paths) = s.(paths)
    /\ if (size s.(paths) <=? 1)%nat
       then r = (if hasRetransmission || Path.SendingAllowed p0 then Some 0 else None)
       else (diverted s hasRetransmission hasStreamRetransmission from -> exists id, r = Some id /\ less_used s from id)
            /\ (~ diverted s hasRetransmission hasStreamRetransmission from -> chosen s hasRetransmission r).
Proof.
  unfold selectPath, selectPathLowLatency, get, mbind, session_bind.
  destruct (size s.(paths) <=? 1)%nat.
  { unfold onlyPath, get, getPath, mbind, session_bind. rewrite H0. rewrite bool_decide_true by done.
    destruct hasRetransmission; [by exists s, (Some 0)|]. cbn. rewrite H0. destruct (Path.SendingAllowed p0);
      eexists _, _; (split; [reflexivity|]); done. }
  unfold diverted. set (hs := hasRetransmission && hasStreamRetransmission) in *.
  assert (Hrtt : forall s1, s1.(paths) = s.(paths) -> s1.(scheduler) = s.(scheduler) ->
    ~ (hs = true /\ exists id, less_used s from id) ->
    exists s' r, selectByRTT hasRetransmission s1 = (s', Ok r) /\ s'.(paths) = s.(paths)
      /\ (hs = true /\ (exists id, less_used s from id) -> exists id, r = Some id /\ less_used s from id)
      /\ (~ (hs = true /\ exists id, less_used s from id) -> chosen s hasRetransmission r)).
  { intros s1 Hp Hs Hn. destruct (selectByRTT_ok s1 hasRetransmission) as (s' & r & E & Hc & Hp').
    exists s', r. split; [done|]. split; [congruence|]. split; [tauto|]. intros _.
    unfold chosen, usable in *. rewrite Hp, Hs in Hc. exact Hc. }
  unfold unprobedSource. fold hs. destruct hs; [|apply Hrtt; [done..|by intros []]].
  destruct (Hfrom eq_refl) as (f & -> & [pf Hpf]). unfold getPath, mbind, session_bind. rewrite Hpf.
  destruct (Z.eqb_spec (smoothedRTT pf) 0) as [Hz|Hz].
  2:{ apply Hrtt; [done..|]. intros (_ & id & f' & pf' & [= <-] & Hpf' & Hz' & _). congruence. }
  cbn. destruct (rangePaths_ok s) as (s1 & ids & -> & Hids & Hp1 & Hs1).
  pose proof (lowerQuotaPath_spec s f pf ids Hids Hpf Hz) as Hl. destruct (lowerQuotaPath s f ids) as [id|].
  - exists s1, (Some id). split; [done|]. split; [done|]. split; [eauto|]. intros []. eauto.
  - apply Hrtt; [done..|]. intros (_ & id & Hid). by apply (Hl id).
Qed.

End selection.

(** ** A stalled connection *)

Section stalled.
Context {S : Type} `{cong : SendAlgorithm S} `{crypto : CryptoSetup}.

(** The only path may not send and has nothing to retransmit, and an unreliable
    stream has data. *)
Definition stalled (s : Session.t S) : Prop :=
  exists p, s.(paths) = {[0 := p]} /\ Path.SendingAllowed p = false
    /\ p.(Path.sentPacketHandler).(SentPacketHandler.retransmissionQueue) = []
    /\ (unreliableData s).2 = Ok true.

Lemma stalled_paths (s s' : Session.t S) :
  s'.(paths) = s.(paths) -> s'.(streams).1 = s.(streams).1 -> stalled s -> stalled s'.
Proof.
  intros Hp Hs (p & H1 & H2 & H3 & H4). exists p. split; [congruence|]. split; [done|]. split; [done|].
  revert H4. unfold unreliableData. cbv zeta. rewrite Hs. by case_match.
Qed.

Lemma forEach_queue_stalled (fs : list WindowUpdateFrame.t) : forall s : Session.t S, stalled s ->
  exists s', forEach fs (fun f => QueueControlFrame (FWindowUpdate f) 0) s = (s', Ok tt) /\ stalled s'.
Proof.
  induction fs as [|f fs IH]; intros s Hs; cbn [forEach]; [by exists s|].
  unfold mbind, session_bind, QueueControlFrame, modify. apply IH. by apply (stalled_paths s).
Qed.

Lemma rangePaths_stalled (s : Session.t S) : stalled s ->
  exists s', rangePaths s = (s', Ok [0]) /\ stalled s'.
Proof.
  intros Hs. pose proof Hs as (p & Hp & _). unfold rangePaths.
  assert (Hids : pathIDs s = [0]) by (unfold pathIDs; by rewrite Hp, map_to_list_singleton).
  rewrite Hids. destruct s.(choices) as [|c cs]; [by exists s|]. exists (set_choices s cs).
  split; [|by apply (stalled_paths s)]. case_bool_decide as Hc; [|done].
  apply Permutation_singleton_r in Hc. by rewrite Hc.
Qed.

Lemma getRetransmission_stalled (s : Session.t S) now : stalled s ->
  exists s', getRetransmission now s = (s', Ok (false, None, None)) /\ stalled s'.
Proof.
  intros Hs. unfold getRetransmission, get, mbind, session_bind. cbn [retransmissionLoop].
  unfold mbind, session_bind. destruct (rangePaths_stalled s Hs) as (s1 & -> & Hs1).
  pose proof Hs1 as (p & Hp & _ & Hq & _). exists s1. split; [|done].
  cbn [dequeueLoop]. unfold mbind, session_bind, getPath. rewrite Hp, lookup_singleton_eq.
  unfold SentPacketHandler.DequeuePacketForRetransmission. by rewrite Hq.
Qed.

Lemma onlyPath_stalled (s : Session.t S) : stalled s -> onlyPath false s = (s, Ok None).
Proof.
  intros (p & Hp & Ha & _). unfold onlyPath, get, getPath, mbind, session_bind. cbn.
  by rewrite Hp, lookup_singleton_eq, Ha.
Qed.

Lemma choosePath_stalled (s : Session.t S) b : stalled s -> choosePath false b None s = (s, Panic).
Proof.
  intros Hs. pose proof Hs as (p & Hp & _ & _ & Hu). unfold choosePath, selectPath, selectPathLowLatency, get.
  unfold mbind, session_bind.
  assert (Hsz : (size s.(paths) <=? 1)%nat = true) by (by rewrite Hp, map_size_singleton).
  rewrite Hsz, (onlyPath_stalled s Hs).
  assert (Hud : unreliableData s = (s, Ok true)).
  { revert Hu. unfold unreliableData. case_match; [done|]. cbn. by intros ->. }
  rewrite Hud. unfold selectPathUnreliable, get, mbind, session_bind. by rewrite Hsz, (onlyPath_stalled s Hs).
Qed.

(** C37: a stalled connection crashes.  While the only path of a connection may not send
    (its congestion window is full) and has nothing to retransmit, a call of
    [sendPacket] with data on an unreliable stream panics: [selectPathUnreliable]
    returns no path either, and the path is dereferenced. *)
Theorem unreliable_stall_panics (s : Session.t S) (fuel : nat) (order : list Z) (now : Z) :
  stalled s -> (sendPacket (Datatypes.S fuel) order now s).2 = Panic.
Proof.
  intros Hs. unfold sendPacket, mbind, session_bind. cbn [modify].
  assert (Hs1 : stalled (updateLeastUnacked s)).
  { destruct Hs as (p & Hp & Ha & Hq & Hu). eexists.
    split; [cbn [updateLeastUnacked set_paths paths]; by rewrite Hp, map_fmap_singleton|].
    split; [exact Ha|]. split; [exact Hq|]. revert Hu. unfold unreliableData. cbv zeta.
    change (streams (updateLeastUnacked s)) with s.(streams). by case_match. }
  unfold getWindowUpdateFrames. destruct (FlowControlManager.GetWindowUpdates _ _ _ _ _ _) as [f updates].
  set (s2 := set_streams _ _). assert (Hs2 : stalled s2) by (by apply (stalled_paths (updateLeastUnacked s))).
  destruct (forEach_queue_stalled (map (fun u : Z * Z => WindowUpdateFrame.mk u.1 u.2) updates) s2 Hs2) as (s3 & -> & Hs3).
  cbn [sendLoop]. unfold mbind, session_bind. destruct (getRetransmission_stalled s3 now Hs3) as (s4 & -> & Hs4).
  unfold get. by rewrite (choosePath_stalled s4).
Qed.

End stalled.

(** ** Examples *)

(** A path with a round-trip time, 0 for none *)
Definition demo_path (id rtt : Z) : Path.t CubicSender.t :=
  let p := Path.setup id VersionMP (CubicSender.NewCubicSender false InitialCongestionWindow DefaultMaxCongestionWindow) 0 in
  let h := p.(Path.sentPacketHandler) in
  Path.set_sentPacketHandler p
    (SentPacketHandler.set_rttStats h (RTTStats.UpdateRTT h.(SentPacketHandler.rttStats) rtt 0 0)).

Definition demo_session (pers : Perspective) (ps : gmap Z (Path.t CubicSender.t))
  (st : StreamsMap.t * FlowControlManager.mgr) (choices : list (list Z)) : Session.t CubicSender.t :=
  Session.mk pers VersionMP true ps ∅ ∅ st ∅ 0 StreamFramer.newStreamFramer
    (PacketPacker.newPacketPacker 0x1234 pers VersionMP) false true 0 false None [] None
    (mkPathManager 1 [] [] [] []) (mkScheduler ∅ ∅) choices [] [].

(** Path 1 has 50 ms, path 3 has 20 ms, path 5 was not probed. *)
Definition demo_paths : gmap Z (Path.t CubicSender.t) :=
  {[0 := demo_path 0 10000000; 1 := demo_path 1 50000000; 3 := demo_path 3 20000000; 5 := demo_path 5 0]}.

Lemma path_selected_witness :
  let s := demo_session PerspectiveClient demo_paths FramerProofs.demo_client [[5; 3; 0; 1]] in
  exists s', selectPath false false None s = (s', Ok (Some 3)) /\ chosen s false (Some 3).
Proof.
  cbv zeta. set (s := demo_session _ _ _ _).
  destruct (path_selected s false false None (demo_path 0 10000000)) as (s' & r & E & _ & Hc);
    [vm_compute; reflexivity|discriminate|].
  assert (Hr : (selectPath false false None s).2 = Ok (Some 3)) by (vm_compute; reflexivity).
  rewrite E in Hr. cbn in Hr. injection Hr as ->. exists s'. split; [exact E|].
  assert (Hsz : (size s.(paths) <=? 1)%nat = false) by (vm_compute; reflexivity).
  rewrite Hsz in Hc. apply Hc. intros [Hd _]. discriminate.
Defined.

(** A server with an unreliable stream of its peer, on which it wrote 100 bytes *)
Definition demo_unreliable : StreamsMap.t * FlowControlManager.mgr :=
  let m := StreamsMap.set_mark (StreamsMap.newStreamsMap PerspectiveServer) 5 true in
  let st := match StreamsMap.GetOrOpenStream (m, FlowControlManager.NewFlowControlManager StreamsMapProofs.demo_params) 5 with
            | Some (st, _) => st
            | None => (m, FlowControlManager.NewFlowControlManager StreamsMapProofs.demo_params)
            end in
  FramerProofs.on_stream st 5 (fun s => (Stream.Write s (seqZ 0 100) 0).1.1).

(** Its only path has more bytes in flight than its congestion window. *)
Definition demo_full_path : Path.t CubicSender.t :=
  let p := demo_path 0 10000000 in
  Path.set_sentPacketHandler p (SentPacketHandler.set_bytesInFlight p.(Path.sentPacketHandler) 50000).

Lemma unreliable_stall_panics_witness :
  (sendPacket (crypto:=PackerProofs.demo_crypto) 1 [] 0
     (demo_session PerspectiveServer {[0 := demo_full_path]} demo_unreliable [])).2 = Panic.
Proof.
  apply (unreliable_stall_panics (crypto:=PackerProofs.demo_crypto)).
  exists demo_full_path. split; [reflexivity|]. split; [vm_compute; reflexivity|]. split; vm_compute; reflexivity.
Defined.

End SchedulerProofs.
