(* ===== verification/HandshakeMessage.v ===== *)
(** * Handshake messages ([internal/handshake/handshake_message.go], [tags.go],
      [internal/wire/public_reset.go])

    The tag/value messages of the crypto handshake: parsing, writing and the
    tags, and the public reset packet, which is such a message behind a public
    header.  A message is its tag and a map from tags to byte strings; both
    loops of the source are structural recursions over the entries.  The round
    trip of a message is proved for every message the parser's own limits
    admit, and parsing any input is shown to stay within those limits. *)

From stdpp Require Import sorting.
From S2P Require Import Prelude ByteOrder Protocol WireHeader ConnParams.

(** ** Tags *)

Definition TagCHLO : Z := tag4 67 72 76 79.
Definition TagREJ : Z := tag4 82 69 74 0.
Definition TagSCFG : Z := tag4 83 67 70 71.
Definition TagPAD : Z := tag4 80 65 68 0.
Definition TagSNI : Z := tag4 83 78 73 0.
Definition TagVER : Z := tag4 86 69 82 0.
Definition TagCCS : Z := tag4 67 67 83 0.
Definition TagCCRT : Z := tag4 67 67 82 84.
Definition TagSVID : Z := tag4 83 86 73 68.
Definition TagPDMD : Z := tag4 80 68 77 68.
Definition TagFHL2 : Z := tag4 70 72 76 50.
Definition TagNSTP : Z := tag4 78 83 84 80.
Definition TagSTK : Z := tag4 83 84 75 0.
Definition TagSNO : Z := tag4 83 78 79 0.
Definition TagPROF : Z := tag4 80 82 79 70.
Definition TagNONC : Z := tag4 78 79 78 67.
Definition TagXLCT : Z := tag4 88 76 67 84.
Definition TagSCID : Z := tag4 83 67 73 68.
Definition TagKEXS : Z := tag4 75 69 88 83.
Definition TagAEAD : Z := tag4 65 69 65 68.
Definition TagPUBS : Z := tag4 80 85 66 83.
Definition TagOBIT : Z := tag4 79 66 73 84.
Definition TagEXPY : Z := tag4 69 88 80 89.
Definition TagCERT : Z := 0xff545243.
Definition TagSHLO : Z := tag4 83 72 76 79.
Definition TagPRST : Z := tag4 80 82 83 84.
Definition TagRSEQ : Z := tag4 82 83 69 81.
Definition TagRNON : Z := tag4 82 78 79 78.

Definition CryptoMaxParams : Z := 128.
Definition CryptoParameterMaxLength : Z := 4000.
Definition CryptoTooManyEntries : Z := 30.
Definition CryptoInvalidValueLength : Z := 31.

(** [binary.LittleEndian.Uint32(l)] and [Uint64(l)] read the first bytes of a slice. *)
Definition Uint32 (l : list Z) : Z := le_combine (take 4 l).
Definition Uint64 (l : list Z) : Z := le_combine (take 8 l).
(** [binary.LittleEndian.PutUint32(l[pos:], v)] *)
Definition PutUint32 (l : list Z) (pos : nat) (v : Z) : list Z :=
  take pos l ++ le_split 4 v ++ drop (pos + 4) l.

Module HandshakeMessage.

Record t : Type := mk { Tag : Z; Data : gmap Z (list Z) }.

(** ** Parsing *)

(** The loop over the index; [index] is the part of it that is not read yet. *)
Fixpoint parseEntries (nPairs : nat) (index : list Z) (dataStart : Z) (resultMap : gmap Z (list Z))
  : Reader (gmap Z (list Z)) :=
  match nPairs with
  | O => mret resultMap
  | S nPairs =>
      let tag := Uint32 index in
      let dataEnd := Uint32 (drop 4 index) in
      let dataLen := u32 (dataEnd - dataStart) in
      _ ← rguard (CryptoParameterMaxLength <? dataLen) (QuicError CryptoInvalidValueLength "value too long");
      data ← ReadFull (Z.to_nat dataLen);
      parseEntries nPairs (drop 8 index) dataEnd (<[tag := data]> resultMap)
  end.

Definition ParseHandshakeMessage : Reader t :=
  slice4 ← ReadFull 4;
  let messageTag := Uint32 slice4 in
  slice4 ← ReadFull 4;
  let nPairs := Uint32 slice4 in
  _ ← rguard (CryptoMaxParams <? nPairs) (ErrorCode CryptoTooManyEntries);
  index ← ReadFull (Z.to_nat (u32 (nPairs * 8)));
  resultMap ← parseEntries (Z.to_nat nPairs) index 0 ∅;
  mret (mk messageTag resultMap).

(** ** Writing *)

Definition getTagsSorted (h : t) : list Z := merge_sort Z.le (map_to_list h.(Data)).*1.

(** The loop over the sorted tags: the buffer and the index it fills. *)
Fixpoint writeValues (data : gmap Z (list Z)) (tags : list Z) (i : nat) (offset : Z) (indexData b : list Z)
  : list Z * list Z :=
  match tags with
  | [] => (b, indexData)
  | t :: tags =>
      let v := default [] (data !! t) in
      let offset := u32 (offset + u32 (Z.of_nat (length v))) in
      let indexData := PutUint32 indexData (i * 8) t in
      let indexData := PutUint32 indexData (i * 8 + 4) offset in
      writeValues data tags (S i) offset indexData (b ++ v)
  end.

(** The index is written as zeroes first and overwritten in place at the end. *)
Definition Write (h : t) : Writer := fun b =>
  match (WriteUint32 LittleEndian h.(Tag) ;;;
         WriteUint16 LittleEndian (u16 (Z.of_nat (size h.(Data)))) ;;;
         WriteUint16 LittleEndian 0) b with
  | WOk b =>
      let indexStart := length b in
      let indexData := replicate (8 * size h.(Data)) 0 in
      let '(b, indexData) := writeValues h.(Data) (getTagsSorted h) 0 0 indexData (b ++ indexData) in
      WOk (take indexStart b ++ indexData ++ drop (indexStart + length indexData) b)
  | r => r
  end.

(** [var buf bytes.Buffer; h.Write(&buf); buf.Bytes()] *)
Definition bytes (h : t) : list Z :=
  match Write h [] with WOk b | WErr _ b => b | WPanic => [] end.

End HandshakeMessage.

(** ** Public resets *)

Module PublicReset.

Record t : Type := mk { RejectedPacketNumber : Z; Nonce : Z }.

Definition WritePublicReset (connectionID rejectedPacketNumber nonceProof : Z) : wres :=
  (WriteByte 0x0a ;;;
   WriteUint64 LittleEndian (u64 connectionID) ;;;
   WriteUint32 LittleEndian TagPRST ;;;
   WriteUint32 LittleEndian 2 ;;;
   WriteUint32 LittleEndian TagRNON ;;;
   WriteUint32 LittleEndian 8 ;;;
   WriteUint32 LittleEndian TagRSEQ ;;;
   WriteUint32 LittleEndian 16 ;;;
   WriteUint64 LittleEndian nonceProof ;;;
   WriteUint64 LittleEndian (u64 rejectedPacketNumber)) [].

(** [data, ok := msg.Data[tag]; if !ok ...; if len(data) != 8 ...; Uint64(data)] *)
Definition field (msg : HandshakeMessage.t) (tag : Z) (missing invalid : string) : res Z :=
  match msg.(HandshakeMessage.Data) !! tag with
  | None => Err (ErrorsNew missing)
  | Some v => if decide (length v = 8%nat) then Ok (Uint64 v) else Err (ErrorsNew invalid)
  end.

Definition ParsePublicReset (r : list Z) : res t :=
  '(msg, _) ← HandshakeMessage.ParseHandshakeMessage r;
  if msg.(HandshakeMessage.Tag) =? TagPRST then
    rseq ← field msg TagRSEQ "RSEQ missing" "invalid RSEQ tag";
    rnon ← field msg TagRNON "RNON missing" "invalid RNON tag";
    Ok (mk rseq rnon)
  else Err (ErrorsNew "wrong public reset tag").

End PublicReset.

(** ** Proofs *)

Module HandshakeMessageProofs.
Import HandshakeMessage.

(** The wire form of a list of entries: the index from an offset on, and the
    values one after the other. *)
Fixpoint enc_index (offset : Z) (es : list (Z * list Z)) : list Z :=
  match es with
  | [] => []
  | (t, v) :: es =>
      le_split 4 t ++ le_split 4 (offset + Z.of_nat (length v)) ++ enc_index (offset + Z.of_nat (length v)) es
  end.
Definition enc_values (es : list (Z * list Z)) : list Z := concat es.*2.
Definition total (es : list (Z * list Z)) : Z := Z.of_nat (length (enc_values es)).
Definition entries (data : gmap Z (list Z)) (tags : list Z) : list (Z * list Z) :=
  (fun t => (t, default [] (data !! t))) <$> tags.
Definition entry_ok (e : Z * list Z) : Prop :=
  in_width 32 e.1 /\ Z.of_nat (length e.2) <= CryptoParameterMaxLength.

Lemma total_cons t v es : total ((t, v) :: es) = Z.of_nat (length v) + total es.
Proof. unfold total, enc_values. cbn. rewrite length_app. lia. Qed.

Lemma total_nonneg es : 0 <= total es.
Proof. unfold total. lia. Qed.

Lemma length_enc_index es : forall offset, length (enc_index offset es) = (8 * length es)%nat.
Proof.
  induction es as [|[t v] es IH]; intros offset; [done|].
  cbn [enc_index length]. rewrite !length_app, !length_le_split, IH. lia.
Qed.

Lemma entries_total data tags :
  Forall entry_ok (entries data tags) -> total (entries data tags) <= CryptoParameterMaxLength * Z.of_nat (length tags).
Proof.
  induction tags as [|t tags IH]; cbn [entries fmap list_fmap length]; [done|].
  intros [[_ He] Hes]%Forall_cons. rewrite total_cons. cbn [snd] in He.
  specialize (IH Hes). unfold entries in IH. lia.
Qed.

(** The two index writes of one iteration fill the first free slot. *)
Lemma put_slot pre n t o :
  PutUint32 (PutUint32 (pre ++ replicate (8 * S n) 0) (length pre) t) (length pre + 4) o
  = (pre ++ le_split 4 t ++ le_split 4 o) ++ replicate (8 * n) 0.
Proof.
  unfold PutUint32. rewrite take_app_length, drop_app_add.
  assert (H4 : length (pre ++ le_split 4 t) = (length pre + 4)%nat)
    by (rewrite length_app, length_le_split; lia).
  rewrite (app_assoc pre), <- H4, take_app_length, drop_app_add, !drop_replicate.
  replace (8 * S n - 4 - 4)%nat with (8 * n)%nat by lia.
  by rewrite <- !app_assoc.
Qed.

Lemma writeValues_spec data tags : forall i offset pre b,
  length pre = (i * 8)%nat -> 0 <= offset -> offset + total (entries data tags) < 2 ^ 32 ->
  writeValues data tags i offset (pre ++ replicate (8 * length tags) 0) b
  = (b ++ enc_values (entries data tags), pre ++ enc_index offset (entries data tags)).
Proof.
  induction tags as [|t tags IH]; intros i offset pre b Hpre Ho Hb.
  { cbn. by rewrite !app_nil_r. }
  cbn [entries fmap list_fmap] in Hb. rewrite total_cons in Hb.
  set (v := default [] (data !! t)) in *. pose proof (total_nonneg (entries data tags)) as Hnn.
  unfold entries in Hnn. cbn [writeValues length]. fold v. rewrite <- Hpre, put_slot.
  rewrite (u32_small (Z.of_nat (length v))), u32_small by lia.
  rewrite IH; [|rewrite !length_app, !length_le_split; lia|lia|unfold entries; lia].
  cbn [entries fmap list_fmap enc_index enc_values concat snd]. by rewrite <- !app_assoc.
Qed.

Lemma length_sorted h : length (getTagsSorted h) = size h.(Data).
Proof.
  unfold getTagsSorted. rewrite (Permutation_length (merge_sort_Permutation Z.le _)).
  by rewrite length_fmap, length_map_to_list.
Qed.

Definition sorted_entries (h : t) : list (Z * list Z) := entries h.(Data) (getTagsSorted h).

(** What a message looks like on the wire. *)
Definition enc (h : t) : list Z :=
  le_split 4 h.(Tag) ++ le_split 2 (u16 (Z.of_nat (size h.(Data)))) ++ le_split 2 0
  ++ enc_index 0 (sorted_entries h) ++ enc_values (sorted_entries h).

Lemma Write_writes h :
  total (sorted_entries h) < 2 ^ 32 -> writes (Write h) (enc h).
Proof.
  intros Ht b. unfold Write, wseq.
  rewrite bo_WriteUint32, bo_WriteUint16, bo_WriteUint16. cbn [bo_enc LittleEndian_spec].
  set (hd := ((b ++ _) ++ _) ++ _).
  pose proof (writeValues_spec h.(Data) (getTagsSorted h) 0 0 [] (hd ++ replicate (8 * size (Data h)) 0)
                eq_refl (Z.le_refl 0) Ht) as Hw.
  rewrite length_sorted in Hw. cbn [app] in Hw. rewrite Hw. clear Hw.
  fold (sorted_entries h). f_equal.
  rewrite <- app_assoc, take_app_length, drop_app_add, length_enc_index.
  replace (length (sorted_entries h)) with (size (Data h))
    by (unfold sorted_entries, entries; by rewrite length_fmap, length_sorted).
  rewrite drop_app_length' by (by rewrite length_replicate).
  unfold hd, enc. by rewrite <- !app_assoc.
Qed.

(** ** Reading back *)

Definition insert_all (m : gmap Z (list Z)) (es : list (Z * list Z)) : gmap Z (list Z) :=
  foldl (fun m e => <[e.1 := e.2]> m) m es.

Lemma Uint32_split x l : in_width 32 x -> Uint32 (le_split 4 x ++ l) = x.
Proof.
  intros Hx. unfold Uint32. rewrite take_app_length' by (by rewrite length_le_split).
  rewrite le_combine_split. by apply Z.mod_small.
Qed.

Lemma Uint64_split x : in_width 64 x -> Uint64 (le_split 8 x) = x.
Proof.
  intros Hx. unfold Uint64. rewrite take_ge by (rewrite length_le_split; lia).
  rewrite le_combine_split. by apply Z.mod_small.
Qed.

Lemma parseEntries_enc es : forall offset m rest,
  Forall entry_ok es -> 0 <= offset -> offset + total es < 2 ^ 32 ->
  parseEntries (length es) (enc_index offset es) offset m (enc_values es ++ rest)
  = Ok (insert_all m es, rest).
Proof.
  induction es as [|[t v] es IH]; intros offset m rest Hok Ho Hb; [done|].
  apply Forall_cons in Hok as [[Ht Hv] Hes]. cbn [fst snd] in Ht, Hv. rewrite total_cons in Hb.
  pose proof (total_nonneg es) as Hnn.
  cbn [length parseEntries enc_index]. unfold enc_values. cbn [fmap list_fmap concat snd].
  rewrite Uint32_split by done. rewrite (drop_app_length' (le_split 4 t) _ 4) by (by rewrite length_le_split).
  rewrite Uint32_split by (unfold in_width; lia).
  replace (offset + Z.of_nat (length v) - offset) with (Z.of_nat (length v)) by lia.
  rewrite u32_small by (unfold CryptoParameterMaxLength in *; lia).
  erewrite rbind_Ok by (apply rguard_false, Z.ltb_ge, Hv).
  rewrite <- app_assoc. erewrite rbind_Ok by (apply ReadFull_app_len; lia).
  rewrite (app_assoc (le_split 4 t)), drop_app_length'
    by (rewrite length_app, !length_le_split; reflexivity).
  apply (IH (offset + Z.of_nat (length v))); [done|lia|lia].
Qed.

Lemma insert_all_lookup es : forall m k,
  NoDup es.*1 -> insert_all m es !! k = (list_to_map es : gmap Z (list Z)) !! k ∪ m !! k.
Proof.
  induction es as [|[t v] es IH]; intros m k Hnd; cbn.
  { by rewrite lookup_empty; destruct (m !! k). }
  cbn in Hnd. apply NoDup_cons in Hnd as [Hn Hnd]. fold (insert_all (<[t:=v]> m) es). rewrite IH by done.
  destruct (decide (k = t)) as [->|Hk].
  - rewrite !lookup_insert_eq. rewrite (not_elem_of_list_to_map_1 (M:=gmap Z) es t Hn). by destruct (m !! t).
  - by rewrite !lookup_insert_ne by done.
Qed.

Lemma entries_map_to_list (data : gmap Z (list Z)) : entries data (map_to_list data).*1 = map_to_list data.
Proof.
  unfold entries. rewrite <- list_fmap_compose. rewrite <- list_fmap_id.
  apply list_fmap_ext. intros i [t v] Hi. cbn.
  apply list_elem_of_lookup_2, elem_of_map_to_list in Hi. by rewrite Hi.
Qed.

Lemma insert_all_sorted h : insert_all ∅ (sorted_entries h) = h.(Data).
Proof.
  assert (Hp : sorted_entries h ≡ₚ map_to_list h.(Data)).
  { unfold sorted_entries, entries, getTagsSorted. rewrite merge_sort_Permutation.
    by rewrite <- (entries_map_to_list h.(Data)) at 2. }
  assert (Hnd : NoDup (sorted_entries h).*1) by (rewrite Hp; apply NoDup_fst_map_to_list).
  apply map_eq. intros k. rewrite insert_all_lookup by done.
  rewrite lookup_empty, (list_to_map_proper _ _ Hnd Hp), list_to_map_to_list. by destruct (Data h !! k).
Qed.

(** A message the parser's limits admit. *)
Definition msg_ok (h : t) : Prop :=
  in_width 32 h.(Tag) /\ Z.of_nat (size h.(Data)) <= CryptoMaxParams
  /\ map_Forall (fun k v => in_width 32 k /\ Z.of_nat (length v) <= CryptoParameterMaxLength) h.(Data).

Lemma msg_ok_entries h : msg_ok h -> Forall entry_ok (sorted_entries h).
Proof.
  intros (_ & _ & Hv). unfold sorted_entries, entries, getTagsSorted. rewrite merge_sort_Permutation.
  fold (entries h.(Data) (map_to_list h.(Data)).*1). rewrite entries_map_to_list.
  apply Forall_forall. intros [k v] Hk%elem_of_map_to_list. apply (Hv k v Hk).
Qed.

Lemma msg_ok_total h : msg_ok h -> total (sorted_entries h) < 2 ^ 32.
Proof.
  intros H. pose proof (entries_total _ _ (msg_ok_entries _ H)) as Ht. destruct H as (_ & Hn & _).
  rewrite length_sorted in Ht. unfold sorted_entries, CryptoMaxParams, CryptoParameterMaxLength in *. lia.
Qed.

Lemma bytes_enc h : msg_ok h -> bytes h = enc h.
Proof. intros H. unfold bytes. by rewrite Write_writes by by apply msg_ok_total. Qed.

Lemma parse_message_enc h rest : msg_ok h -> ParseHandshakeMessage (enc h ++ rest) = Ok (h, rest).
Proof.
  intros H. pose proof (msg_ok_total _ H) as Ht. pose proof (msg_ok_entries _ H) as He.
  destruct H as (Htag & Hn & _). pose proof (length_sorted h) as Hlen.
  assert (Hl : length (sorted_entries h) = size h.(Data))
    by (unfold sorted_entries, entries; by rewrite length_fmap).
  unfold ParseHandshakeMessage, enc. rewrite <- !app_assoc.
  erewrite rbind_Ok by (apply ReadFull_app_len; by rewrite length_le_split).
  rewrite u16_small by (unfold CryptoMaxParams in *; lia).
  rewrite (app_assoc (le_split 2 _) (le_split 2 0)).
  assert (E4 : le_split 2 (Z.of_nat (size h.(Data))) ++ le_split 2 0 = le_split 4 (Z.of_nat (size h.(Data)))).
  { assert (H8 : Z.shiftr (Z.of_nat (size h.(Data))) 8 = 0)
      by (rewrite Z.shiftr_div_pow2 by lia; apply Z.div_small; unfold CryptoMaxParams in *; lia).
    cbn [le_split app]. by rewrite H8. }
  rewrite E4.
  erewrite rbind_Ok by (apply ReadFull_app_len; by rewrite length_le_split).
  rewrite <- (app_nil_r (le_split 4 (Tag h))), <- (app_nil_r (le_split 4 (Z.of_nat _))).
  rewrite !Uint32_split by (unfold CryptoMaxParams, in_width in *; lia).
  erewrite rbind_Ok by (apply rguard_false, Z.ltb_ge, Hn).
  rewrite u32_small by (unfold CryptoMaxParams in *; lia).
  erewrite rbind_Ok by (apply ReadFull_app_len; rewrite length_enc_index; lia).
  rewrite Nat2Z.id. rewrite <- Hl.
  erewrite rbind_Ok by (apply parseEntries_enc; [done|lia|lia]).
  rewrite insert_all_sorted. by destruct h.
Qed.

(** ** The length of a message, whatever it holds *)

Lemma length_PutUint32 l pos v : (pos + 4 <= length l)%nat -> length (PutUint32 l pos v) = length l.
Proof. intros H. unfold PutUint32. rewrite !length_app, length_take, length_le_split, length_drop. lia. Qed.

Lemma writeValues_fst data tags : forall i offset idx b,
  (writeValues data tags i offset idx b).1 = b ++ enc_values (entries data tags).
Proof.
  induction tags as [|t tags IH]; intros i offset idx b; cbn [writeValues]; [by rewrite app_nil_r|].
  rewrite IH, <- app_assoc. done.
Qed.

Lemma writeValues_snd data tags : forall i offset idx b,
  (8 * (i + length tags) <= length idx)%nat -> length (writeValues data tags i offset idx b).2 = length idx.
Proof.
  induction tags as [|t tags IH]; intros i offset idx b Hl; cbn [writeValues]; [done|]. cbn [length] in Hl.
  rewrite IH; rewrite !length_PutUint32; rewrite ?length_PutUint32; lia.
Qed.

Lemma length_values data tags :
  Z.of_nat (length (enc_values (entries data tags)))
  = foldr (fun e size => Z.of_nat (length e.2) + size) 0 (entries data tags).
Proof.
  induction tags as [|t tags IH]; [done|]. change (entries data (t :: tags)) with ((t, default [] (data !! t)) :: entries data tags).
  unfold enc_values in *. cbn [fmap list_fmap concat foldr snd]. rewrite length_app. lia.
Qed.

Lemma length_bytes h :
  Z.of_nat (length (bytes h)) = 8 + foldr (fun e size => 8 + Z.of_nat (length e.2) + size) 0 (map_to_list h.(Data)).
Proof.
  assert (E : foldr (fun e size => 8 + Z.of_nat (length e.2) + size) 0 (map_to_list h.(Data))
    = 8 * Z.of_nat (size h.(Data)) + Z.of_nat (length (enc_values (sorted_entries h)))).
  { unfold sorted_entries. rewrite length_values. unfold getTagsSorted.
    transitivity (8 * Z.of_nat (size h.(Data)) + foldr (fun e size => Z.of_nat (length e.2) + size) 0 (map_to_list h.(Data))).
    { rewrite <- length_map_to_list. induction (map_to_list h.(Data)) as [|e l IH]; cbn [foldr length]; [done|lia]. }
    f_equal. apply foldr_permutation_proper; [apply _|solve_proper|intros; lia|].
    rewrite <- (entries_map_to_list h.(Data)) at 1. unfold entries. by rewrite merge_sort_Permutation. }
  rewrite E. unfold bytes, Write, wseq.
  rewrite bo_WriteUint32, bo_WriteUint16, bo_WriteUint16. cbn [bo_enc LittleEndian_spec app].
  set (hd := (le_split 4 _ ++ _) ++ _). assert (Hh : length hd = 8%nat) by (unfold hd; rewrite !length_app, !length_le_split; done).
  set (idx := replicate (8 * size (Data h)) 0). assert (Hi : length idx = (8 * size (Data h))%nat) by apply length_replicate.
  pose proof (writeValues_fst h.(Data) (getTagsSorted h) 0 0 idx (hd ++ idx)) as H1.
  pose proof (writeValues_snd h.(Data) (getTagsSorted h) 0 0 idx (hd ++ idx)) as H2.
  rewrite length_sorted, Hi in H2. destruct (writeValues _ _ _ _ _ _) as [b idx']. cbn [fst snd] in H1, H2.
  rewrite H2, H1 by lia. rewrite <- app_assoc, take_app_length, drop_app_add, !length_app, Hh, length_drop, length_app, Hi, H2 by lia.
  fold (sorted_entries h). lia.
Qed.

(** ** Every parsed message is within the limits *)

Lemma rspec_ReadFull n r :
  bytes_ok r -> rspec (fun l r' => r = l ++ r' /\ length l = n) (ReadFull n) r.
Proof.
  intros _. unfold rspec, ReadFull. case_decide as Hn; [|by destruct r].
  by rewrite take_drop, length_take, Nat.min_l.
Qed.

Lemma Uint32_range l : bytes_ok l -> in_width 32 (Uint32 l).
Proof.
  intros Hl. unfold Uint32. pose proof (le_combine_bound (take 4 l) (Forall_take _ 4 _ Hl)) as Hb.
  rewrite length_take in Hb. split; [lia|]. eapply Z.lt_le_trans; [apply Hb|].
  apply Z.pow_le_mono_r; lia.
Qed.

Definition entries_ok (m : gmap Z (list Z)) : Prop :=
  map_Forall (fun k v => in_width 32 k /\ Z.of_nat (length v) <= CryptoParameterMaxLength) m.

Lemma size_insert_le (m : gmap Z (list Z)) k v : (size (<[k := v]> m) <= S (size m))%nat.
Proof. rewrite map_size_insert. destruct (m !! k); cbn; lia. Qed.

Lemma parseEntries_valid n : forall index dataStart m r,
  bytes_ok index -> bytes_ok r -> entries_ok m ->
  rspec (fun m' r' => entries_ok m' /\ (size m' <= size m + n)%nat /\ r' `suffix_of` r)
    (parseEntries n index dataStart m) r.
Proof.
  induction n as [|n IH]; intros index dataStart m r Hi Hr Hm; cbn [parseEntries].
  { apply rspec_ret. split_and!; [done|lia|done]. }
  apply rspec_guard. intros Hg%Z.ltb_ge.
  eapply rspec_bind; [by apply rspec_ReadFull|]. intros data r' [-> Hlen].
  apply Forall_app in Hr as [_ Hr].
  eapply rspec_mono; [apply IH; [by apply Forall_drop|done|]|].
  - apply map_Forall_insert_2; [|done]. split; [by apply Uint32_range|].
    pose proof (u32_range (Uint32 (drop 4 index) - dataStart)) as Hw. unfold in_width in Hw. lia.
  - intros m' r'' (H1 & H2 & H3). pose proof (size_insert_le m (Uint32 index) data).
    split_and!; [done|lia|by apply suffix_app_r].
Qed.

Lemma Parse_valid r :
  bytes_ok r -> rspec (fun h r' => msg_ok h /\ r' `suffix_of` r /\ (length r' + 8 <= length r)%nat)
    ParseHandshakeMessage r.
Proof.
  intros Hr. unfold ParseHandshakeMessage.
  eapply rspec_bind; [by apply rspec_ReadFull|]. intros l1 r1 [-> L1]. apply Forall_app in Hr as [Hl1 Hr].
  eapply rspec_bind; [by apply rspec_ReadFull|]. intros l2 r2 [-> L2]. apply Forall_app in Hr as [Hl2 Hr].
  apply rspec_guard. intros Hg%Z.ltb_ge.
  eapply rspec_bind; [by apply rspec_ReadFull|]. intros l3 r3 [-> L3]. apply Forall_app in Hr as [Hl3 Hr].
  eapply rspec_bind; [by apply parseEntries_valid|]. intros m r4 (Hm & Hs & Hsuf).
  apply rspec_ret. pose proof (Uint32_range _ Hl2) as H2. unfold in_width in H2.
  rewrite map_size_empty in Hs.
  split_and!.
  - split_and!; [by apply Uint32_range| |done]. cbn. lia.
  - by do 3 apply suffix_app_r.
  - apply suffix_length in Hsuf. rewrite !length_app. lia.
Qed.

(** C26: a handshake message within the limits of the protocol (at most 128
    parameters of at most 4000 bytes) is appended to any buffer as the same
    bytes, and the parser reads exactly that message back, whatever follows it
    on the crypto stream. *)
Theorem HandshakeMessage_roundtrip h :
  msg_ok h ->
  writes (Write h) (bytes h)
  /\ forall rest, ParseHandshakeMessage (bytes h ++ rest) = Ok (h, rest).
Proof.
  intros H. rewrite bytes_enc by done. split; [by apply Write_writes, msg_ok_total|].
  intros rest. by apply parse_message_enc.
Qed.

Definition example_message : t :=
  mk TagCHLO (<[TagVER := [81; 48; 51; 57]]> (<[TagSNI := [113; 117; 105; 99]]> (<[TagPAD := []]> ∅))).

Lemma example_message_ok : msg_ok example_message.
Proof.
  split_and!; [by vm_compute| |].
  - change (size (Data example_message)) with 3%nat. vm_compute. discriminate.
  - repeat (apply map_Forall_insert_2; [split; [split; vm_compute; congruence|vm_compute; congruence]|]).
    apply map_Forall_empty.
Qed.

Lemma HandshakeMessage_roundtrip_witness :
  ParseHandshakeMessage (bytes example_message ++ [1; 2]) = Ok (example_message, [1; 2]).
Proof. exact (proj2 (HandshakeMessage_roundtrip example_message example_message_ok) [1; 2]). Defined.

(** Parsing any bytes never panics; a message it returns is within the limits,
    was read from the front of the input, and writing it again gives bytes that
    parse to the same message, so what is passed on to the handshake is always a
    message this endpoint could have sent. *)
Theorem HandshakeMessage_Parse_valid r :
  bytes_ok r ->
  match ParseHandshakeMessage r with
  | Ok (h, r') => msg_ok h /\ r' `suffix_of` r /\ (length r' + 8 <= length r)%nat
                  /\ ParseHandshakeMessage (bytes h) = Ok (h, [])
  | Err _ => True
  | Panic => False
  end.
Proof.
  intros Hr. pose proof (Parse_valid r Hr) as H. unfold rspec in H.
  destruct (ParseHandshakeMessage r) as [[h r']| |]; [|done..].
  destruct H as (Hok & Hs & Hl). split_and!; [done..|].
  rewrite bytes_enc, <- (app_nil_r (enc h)) by done. by apply parse_message_enc.
Qed.

Lemma HandshakeMessage_Parse_valid_witness :
  ParseHandshakeMessage [82; 69; 74; 0; 1; 0; 0; 0; 83; 84; 75; 0; 2; 0; 0; 0; 7; 8; 9]
  = Ok (mk TagREJ {[ TagSTK := [7; 8] ]}, [9])
  /\ msg_ok (mk TagREJ {[ TagSTK := [7; 8] ]}).
Proof.
  assert (Hb : bytes_ok [82; 69; 74; 0; 1; 0; 0; 0; 83; 84; 75; 0; 2; 0; 0; 0; 7; 8; 9])
    by (apply (bool_decide_unpack _); vm_compute; exact I).
  pose proof (HandshakeMessage_Parse_valid _ Hb) as H.
  assert (E : ParseHandshakeMessage [82; 69; 74; 0; 1; 0; 0; 0; 83; 84; 75; 0; 2; 0; 0; 0; 7; 8; 9]
              = Ok (mk TagREJ {[ TagSTK := [7; 8] ]}, [9])) by (vm_compute; reflexivity).
  rewrite E in H. split; [exact E|apply H].
Defined.

(** ** Public resets *)

Definition reset_message (pn nonce : Z) : t :=
  mk TagPRST (<[TagRSEQ := le_split 8 pn]> (<[TagRNON := le_split 8 nonce]> ∅)).

Lemma reset_message_ok pn nonce : msg_ok (reset_message pn nonce).
Proof.
  split_and!; [by vm_compute| |].
  - cbn [reset_message Data]. pose proof (size_insert_le (<[TagRNON := le_split 8 nonce]> ∅) TagRSEQ (le_split 8 pn)).
    pose proof (size_insert_le ∅ TagRNON (le_split 8 nonce)) as H2. rewrite map_size_empty in H2.
    unfold CryptoMaxParams. lia.
  - repeat (apply map_Forall_insert_2;
      [split; [split; vm_compute; congruence|cbn [snd]; rewrite length_le_split; vm_compute; congruence]|]).
    apply map_Forall_empty.
Qed.

Lemma reset_message_enc pn nonce :
  enc (reset_message pn nonce)
  = le_split 4 TagPRST ++ le_split 4 2 ++ le_split 4 TagRNON ++ le_split 4 8
    ++ le_split 4 TagRSEQ ++ le_split 4 16 ++ le_split 8 nonce ++ le_split 8 pn.
Proof.
  assert (Es : sorted_entries (reset_message pn nonce) = [(TagRNON, le_split 8 nonce); (TagRSEQ, le_split 8 pn)])
    by reflexivity.
  unfold enc. rewrite Es. unfold enc_values. cbn [enc_index fmap list_fmap concat snd].
  rewrite !length_le_split. change (size (Data (reset_message pn nonce))) with 2%nat.
  rewrite app_nil_r, <- !app_assoc. reflexivity.
Qed.

Lemma WritePublicReset_bytes connID pn nonce :
  PublicReset.WritePublicReset connID pn nonce
  = WOk (0x0a :: le_split 8 (u64 connID) ++ enc (reset_message (u64 pn) nonce)).
Proof.
  unfold PublicReset.WritePublicReset.
  assert (H : forall w l, writes w l -> w [] = WOk l) by (intros w l Hw; apply Hw).
  apply H. eapply writes_eq; [|repeat first [apply writes_seq|apply writes_WriteByte|apply bo_WriteUint64
                                             |apply bo_WriteUint32]].
  rewrite reset_message_enc. reflexivity.
Qed.

(** A public reset is parsed by the other side as it was written: the public
    header carries the reset flag and the connection ID and leaves exactly the
    reset message, from which the rejected packet number and the nonce are
    read. *)
Theorem PublicReset_roundtrip connID pn nonce version b :
  1 <= connID < 2 ^ 64 -> in_width 64 pn -> in_width 64 nonce ->
  PublicReset.WritePublicReset connID pn nonce = WOk b ->
  exists hdr r, PublicHeader.Parse PerspectiveServer version b = Ok (hdr, r)
    /\ PublicHeader.ResetFlag hdr = true /\ PublicHeader.ConnectionID hdr = connID
    /\ PublicReset.ParsePublicReset r = Ok (PublicReset.mk pn nonce).
Proof.
  intros Hc Hp Hn. rewrite WritePublicReset_bytes. intros [= <-].
  rewrite !u64_small by (unfold in_width in *; lia).
  assert (E1 : forall l, ReadUint64 LittleEndian (le_split 8 connID ++ l) = Ok (connID, l)).
  { intros l. change (le_split 8 connID) with (bo_enc (bo:=LittleEndian) 8 connID).
    apply ReadUint64_enc. unfold in_width. lia. }
  assert (Ec : (connID =? 0) = false) by (apply Z.eqb_neq; lia).
  eexists _, (enc (reset_message pn nonce)). split; [|split; [|split]].
  - unfold PublicHeader.Parse. erewrite rbind_Ok by apply ReadByte_cons.
    change (Z.land 10 2) with 2. change (Z.land 10 1) with 0. change (Z.land 10 8) with 8.
    change (Z.land 10 64) with 0. change (Z.land 10 4) with 0.
    cbn [Z.ltb Z.compare Z.eqb orb andb negb isClient isServer PublicHeader.hasPacketNumber_flags].
    erewrite rbind_Ok by (apply rguard_false; by rewrite andb_false_r).
    erewrite rbind_Ok by (apply rguard_false; done).
    erewrite rbind_Ok by apply E1.
    erewrite rbind_Ok by (apply rguard_false; exact Ec).
    reflexivity.
  - reflexivity.
  - reflexivity.
  - unfold PublicReset.ParsePublicReset. rewrite <- (app_nil_r (enc _)), parse_message_enc by apply reset_message_ok.
    cbn [mbind res_bind].
    assert (EQ : reset_message pn nonce = mk TagPRST (<[TagRSEQ := le_split 8 pn]> (<[TagRNON := le_split 8 nonce]> ∅)))
      by done.
    change (Tag (reset_message pn nonce) =? TagPRST) with true. cbv iota.
    unfold PublicReset.field. rewrite EQ. cbn [Data].
    rewrite lookup_insert_eq, lookup_insert_ne, lookup_insert_eq by discriminate.
    rewrite !decide_True by apply length_le_split. cbn [mbind res_bind].
    by rewrite !Uint64_split.
Qed.

Lemma PublicReset_roundtrip_witness :
  exists b hdr r, PublicReset.WritePublicReset 0xdecafbad 0x1337 7 = WOk b
    /\ PublicHeader.Parse PerspectiveServer Version39 b = Ok (hdr, r)
    /\ PublicReset.ParsePublicReset r = Ok (PublicReset.mk 0x1337 7).
Proof.
  destruct (PublicReset_roundtrip 0xdecafbad 0x1337 7 Version39 _ ltac:(lia)
    ltac:(unfold in_width; lia) ltac:(unfold in_width; lia) (WritePublicReset_bytes _ _ _))
    as (hdr & r & H1 & _ & _ & H2).
  eexists _, hdr, r. split; [apply WritePublicReset_bytes|]. split; [exact H1|exact H2].
Defined.

End HandshakeMessageProofs.
