(* ===== verification/Fnv.v ===== *)
(** * FNV-1a hashes ([fnv128a/fnv128a.go], and [hash/fnv] of the standard library)

    The hash that authenticates packets before the handshake.  The 128-bit
    variant is computed on four 64-bit words with delayed carries; it is shown to
    be the FNV-1a hash modulo [2 ^ 128]. *)

From S2P Require Import Prelude ByteOrder.

Module Fnv128a.

Record t : Type := mk { v0 : Z; v1 : Z; v2 : Z; v3 : Z }.

(** [New] and [Reset] *)
Definition New : t := mk 0x6295C58D 0x62B82175 0x07BB0142 0x6C62272E.

Definition fnv128PrimeLow : Z := 0x0000013B.
Definition fnv128PrimeShift : Z := 24.

(** One iteration of the loop of [Write]. *)
Definition writeByte (s : t) (v : Z) : t :=
  let v0' := Z.lxor s.(v0) v in
  let t0 := u64 (v0' * fnv128PrimeLow) in
  let t1 := u64 (s.(v1) * fnv128PrimeLow) in
  let t2 := u64 (s.(v2) * fnv128PrimeLow + u64 (Z.shiftl v0' fnv128PrimeShift)) in
  let t3 := u64 (s.(v3) * fnv128PrimeLow + u64 (Z.shiftl s.(v1) fnv128PrimeShift)) in
  let t1 := u64 (t1 + Z.shiftr t0 32) in
  let t2 := u64 (t2 + Z.shiftr t1 32) in
  let t3 := u64 (t3 + Z.shiftr t2 32) in
  mk (Z.land t0 0xffffffff) (Z.land t1 0xffffffff) (Z.land t2 0xffffffff) t3.

Definition Write (s : t) (data : list Z) : t := foldl writeByte s data.

(** The high and the low half. *)
Definition Sum128 (s : t) : Z * Z :=
  (Z.lor (u64 (Z.shiftl s.(v3) 32)) s.(v2), Z.lor (u64 (Z.shiftl s.(v1) 32)) s.(v0)).

End Fnv128a.

(** [fnv.New64a], [Write] and [Sum64] of the standard library. *)
Definition fnv64aOffset : Z := 14695981039346656037.
Definition fnv64aPrime : Z := 1099511628211.
Definition fnv64a (data : list Z) : Z :=
  foldl (fun h c => u64 (Z.lxor h c * fnv64aPrime)) fnv64aOffset data.

(** ** The 128-bit hash is FNV-1a *)

Module FnvProofs.
Import Fnv128a.

(** The definition of the hash: one 128-bit number. *)
Definition fnv1a_128 (data : list Z) : Z :=
  foldl (fun h c => Z.lxor h c * 309485009821345068724781371 mod 2 ^ 128)
    0x6c62272e07bb014262b821756295c58d data.

(** The number the four words stand for; the top word is kept unreduced. *)
Definition value (s : t) : Z := s.(v0) + s.(v1) * 2 ^ 32 + s.(v2) * 2 ^ 64 + s.(v3) mod 2 ^ 32 * 2 ^ 96.
Definition words_ok (s : t) : Prop :=
  in_width 32 s.(v0) /\ in_width 32 s.(v1) /\ in_width 32 s.(v2) /\ in_width 64 s.(v3).

Lemma lxor_low k x y m :
  0 <= k -> 0 <= x < 2 ^ k -> 0 <= y < 2 ^ k -> Z.lxor (x + m * 2 ^ k) y = Z.lxor x y + m * 2 ^ k.
Proof.
  intros Hk Hx Hy.
  rewrite <- (lxor_disjoint k x m), <- (lxor_disjoint k (Z.lxor x y) m) by (try apply lxor_range; lia).
  by rewrite (Z.lxor_assoc x), (Z.lxor_comm (m * 2 ^ k) y), Z.lxor_assoc.
Qed.

(** The carries of one multiplication by the prime [2 ^ 88 + 315], with the top
    word reduced modulo [2 ^ 32] only in the result. *)
Lemma carries a b c d :
  0 <= a -> 0 <= b -> 0 <= c -> 0 <= d ->
  let t0 := a * 315 in
  let t1 := b * 315 + t0 / 2 ^ 32 in
  let t2 := c * 315 + a * 2 ^ 24 + t1 / 2 ^ 32 in
  let t3 := d * 315 + b * 2 ^ 24 + t2 / 2 ^ 32 in
  t0 mod 2 ^ 32 + t1 mod 2 ^ 32 * 2 ^ 32 + t2 mod 2 ^ 32 * 2 ^ 64 + t3 mod 2 ^ 32 * 2 ^ 96
  = (a + b * 2 ^ 32 + c * 2 ^ 64 + d * 2 ^ 96) * (2 ^ 88 + 315) mod 2 ^ 128.
Proof.
  intros Ha Hb Hc Hd t0 t1 t2 t3.
  apply Z.mod_unique_pos with (q := t3 / 2 ^ 32 + c * 2 ^ 24 + d * 2 ^ 56).
  - pose proof (Z.mod_pos_bound t0 (2 ^ 32)). pose proof (Z.mod_pos_bound t1 (2 ^ 32)).
    pose proof (Z.mod_pos_bound t2 (2 ^ 32)). pose proof (Z.mod_pos_bound t3 (2 ^ 32)). lia.
  - pose proof (Z.div_mod t0 (2 ^ 32)). pose proof (Z.div_mod t1 (2 ^ 32)).
    pose proof (Z.div_mod t2 (2 ^ 32)). pose proof (Z.div_mod t3 (2 ^ 32)).
    unfold t3, t2, t1, t0 in *. lia.
Qed.

Lemma land_mask x : Z.land x 0xffffffff = x mod 2 ^ 32.
Proof. change 0xffffffff with (Z.ones 32). apply Z.land_ones. lia. Qed.

Lemma writeByte_spec s v :
  words_ok s -> in_width 8 v ->
  words_ok (writeByte s v)
  /\ value (writeByte s v) = Z.lxor (value s) v * 309485009821345068724781371 mod 2 ^ 128.
Proof.
  intros (H0 & H1 & H2 & H3) Hv. unfold in_width in H0, Hv.
  pose proof (lxor_range 32 s.(v0) v ltac:(lia) H0 ltac:(lia)) as Hx.
  assert (Exor : Z.lxor (value s) v
    = Z.lxor s.(v0) v + s.(v1) * 2 ^ 32 + s.(v2) * 2 ^ 64 + s.(v3) mod 2 ^ 32 * 2 ^ 96).
  { unfold value. replace (v0 s + v1 s * 2 ^ 32 + v2 s * 2 ^ 64 + v3 s mod 2 ^ 32 * 2 ^ 96)
      with (v0 s + (v1 s + v2 s * 2 ^ 32 + v3 s mod 2 ^ 32 * 2 ^ 64) * 2 ^ 32) by lia.
    rewrite lxor_low; unfold in_width in *; lia. }
  rewrite Exor. change 309485009821345068724781371 with (2 ^ 88 + 315).
  pose proof (carries (Z.lxor s.(v0) v) s.(v1) s.(v2) (s.(v3) mod 2 ^ 32)) as Hc. cbv zeta in Hc.
  pose proof (Z.mod_pos_bound s.(v3) (2 ^ 32) eq_refl) as Hm.
  rewrite <- Hc by (unfold in_width in *; lia). clear Hc Exor.
  unfold writeByte, fnv128PrimeLow, fnv128PrimeShift. unfold in_width in *.
  set (a := Z.lxor (v0 s) v) in *. rewrite !Z.shiftl_mul_pow2, !Z.shiftr_div_pow2, !land_mask by lia.
  rewrite (u64_small (a * 315)), (u64_small (v1 s * 315)), (u64_small (a * 2 ^ 24)),
    (u64_small (v1 s * 2 ^ 24)) by lia.
  rewrite (u64_small (v2 s * 315 + a * 2 ^ 24)), (u64_small (v1 s * 315 + a * 315 / 2 ^ 32)) by lia_div.
  rewrite (u64_small (v2 s * 315 + a * 2 ^ 24 + (v1 s * 315 + a * 315 / 2 ^ 32) / 2 ^ 32)) by lia_div.
  split; [unfold words_ok, in_width; cbn [v0 v1 v2 v3]; split_and!; try apply Z.mod_pos_bound; try lia;
          apply u64_range|].
  unfold value. cbn [v0 v1 v2 v3]. do 2 f_equal.
  set (q := (_ + _) / 2 ^ 32). unfold u64.
  rewrite Zplus_mod_idemp_l, Z.mod_mod_divide by (exists (2 ^ 32); reflexivity).
  rewrite (Z.add_mod (_ + _) q), (Z.add_mod (v3 s * 315)), (Z.mul_mod (v3 s)) by lia.
  rewrite (Z.add_mod (v3 s mod 2 ^ 32 * 315 + _) q), (Z.add_mod (v3 s mod 2 ^ 32 * 315)),
    (Z.mul_mod (v3 s mod 2 ^ 32)), Z.mod_mod by lia. done.
Qed.

Lemma Write_spec data : forall s,
  words_ok s -> bytes_ok data ->
  words_ok (Write s data)
  /\ value (Write s data) = foldl (fun h c => Z.lxor h c * 309485009821345068724781371 mod 2 ^ 128) (value s) data.
Proof.
  induction data as [|c data IH]; intros s Hs Hd; [done|].
  apply Forall_cons in Hd as [Hc Hd]. destruct (writeByte_spec s c Hs Hc) as [Hs' Hv].
  cbn [Write foldl]. rewrite <- Hv. by apply IH.
Qed.

(** The words stay in range whatever is written. *)
Lemma writeByte_words s v : words_ok (writeByte s v).
Proof.
  unfold words_ok, writeByte. cbn [v0 v1 v2 v3]. rewrite !land_mask.
  split_and!; try apply u64_range; apply Z.mod_pos_bound; lia.
Qed.

Lemma Write_words data s : words_ok s -> words_ok (Write s data).
Proof. revert s. induction data as [|c data IH]; intros s Hs; [done|]. apply IH, writeByte_words. Qed.

Lemma New_ok : words_ok New.
Proof. unfold words_ok, New, in_width. cbn. lia. Qed.

Lemma value_range s : words_ok s -> 0 <= value s < 2 ^ 128.
Proof.
  intros (H0 & H1 & H2 & _). unfold value, in_width in *. pose proof (Z.mod_pos_bound s.(v3) (2 ^ 32)). lia.
Qed.

Lemma Sum128_spec s :
  words_ok s -> Sum128 s = (value s / 2 ^ 64, value s mod 2 ^ 64).
Proof.
  intros (H0 & H1 & H2 & H3). unfold Sum128, value, in_width in *.
  pose proof (Z.mod_pos_bound s.(v3) (2 ^ 32) eq_refl) as Hm.
  rewrite !Z.shiftl_mul_pow2 by lia.
  assert (E3 : u64 (v3 s * 2 ^ 32) = v3 s mod 2 ^ 32 * 2 ^ 32)
    by (unfold u64; change (2 ^ 64) with (2 ^ 32 * 2 ^ 32); rewrite Z.mul_mod_distr_r; lia).
  rewrite E3, (u64_small (v1 s * 2 ^ 32)) by lia.
  rewrite !(Z.lor_comm (_ * 2 ^ 32)), !lor_disjoint by lia. f_equal; lia_div.
Qed.

Lemma Sum128_New data :
  bytes_ok data -> Sum128 (Write New data) = (fnv1a_128 data / 2 ^ 64, fnv1a_128 data mod 2 ^ 64)
  /\ 0 <= fnv1a_128 data < 2 ^ 128.
Proof.
  intros Hd. destruct (Write_spec data New New_ok Hd) as [Hs Hv]. rewrite (Sum128_spec _ Hs).
  pose proof (value_range _ Hs) as Hr. unfold fnv1a_128. change 0x6c62272e07bb014262b821756295c58d with (value New).
  by rewrite <- Hv.
Qed.

Lemma Sum128_range s high low : words_ok s -> Sum128 s = (high, low) -> in_width 64 high /\ in_width 64 low.
Proof.
  intros Hs. rewrite Sum128_spec by done. intros [= <- <-]. pose proof (value_range _ Hs). unfold in_width. lia_div.
Qed.

(** The word-wise implementation computes the 128-bit FNV-1a hash: the two
    halves that [Sum128] returns, put together, are the offset basis multiplied
    by the FNV prime modulo [2 ^ 128] after each byte was xored in, for an input
    of any length although the top word is never reduced. *)
Theorem fnv128a_correct data :
  bytes_ok data ->
  let '(high, low) := Sum128 (Write New data) in
  high * 2 ^ 64 + low = fnv1a_128 data /\ in_width 64 high /\ in_width 64 low.
Proof.
  intros Hd. destruct (Sum128_New data Hd) as [-> Hr]. unfold in_width. lia_div.
Qed.

Lemma fnv128a_correct_witness :
  let '(high, low) := Sum128 (Write New [113; 117; 105; 99]) in high * 2 ^ 64 + low = fnv1a_128 [113; 117; 105; 99].
Proof.
  assert (Hb : bytes_ok [113; 117; 105; 99]) by (apply (bool_decide_unpack _); vm_compute; exact I).
  exact (proj1 (fnv128a_correct [113; 117; 105; 99] Hb)).
Defined.

End FnvProofs.
