(* ===== verification/Gcm.v ===== *)
(** * Galois counter mode with 12-byte tags ([aes12/gcm.go])

    The authenticated encryption of protected packets: counter mode over a block
    cipher and the GHASH authentication with its table-driven multiplication.
    Byte slices are lists, the two words of a field element 64-bit integers.  The
    block cipher is the [Block] interface.  Proved: opening what was sealed with
    the same nonce and associated data gives the plaintext back, and the
    table-driven multiplication is the multiplication of GF(2^128). *)

From S2P Require Import Prelude ByteOrder.

(** The [Block] interface: [Encrypt] maps a block of 16 bytes to one. *)
Class Block : Type := {
  Encrypt : list Z -> list Z;
  Encrypt_length b : length (Encrypt b) = 16%nat;
  Encrypt_ok b : bytes_ok (Encrypt b)
}.

Module Gcm.

Definition gcmBlockSize : nat := 16.
Definition gcmTagSize : nat := 12.
Definition gcmStandardNonceSize : nat := 12.
Definition errOpen : error := ErrorsNew "cipher: message authentication failed".

(** [getUint64], [putUint64]: big endian. *)
Definition getUint64 (data : list Z) : Z := be_combine (take 8 data).
Definition putUint64 (v : Z) : list Z := be_split 8 v.

(** ** Field elements *)

Record fieldElement : Type := mkFE { low : Z; high : Z }.

Definition reverseBits (i : Z) : Z :=
  let i := Z.lor (Z.land (Z.shiftl i 2) 0xc) (Z.land (Z.shiftr i 2) 0x3) in
  Z.lor (Z.land (Z.shiftl i 1) 0xa) (Z.land (Z.shiftr i 1) 0x5).

Definition gcmAdd (x y : fieldElement) : fieldElement :=
  mkFE (Z.lxor x.(low) y.(low)) (Z.lxor x.(high) y.(high)).

Definition gcmDouble (x : fieldElement) : fieldElement :=
  let msbSet := Z.land x.(high) 1 =? 1 in
  let high := Z.shiftr x.(high) 1 in
  let high := Z.lor high (u64 (Z.shiftl x.(low) 63)) in
  let low := Z.shiftr x.(low) 1 in
  mkFE (if msbSet then Z.lxor low 0xe100000000000000 else low) high.

Definition gcmReductionTable : list Z :=
  [0x0000; 0x1c20; 0x3840; 0x2460; 0x7080; 0x6ca0; 0x48c0; 0x54e0;
   0xe100; 0xfd20; 0xd940; 0xc560; 0x9180; 0x8da0; 0xa9c0; 0xb5e0].

Definition feZero : fieldElement := mkFE 0 0.
Definition tableGet (t : list fieldElement) (i : Z) : fieldElement := nth (Z.to_nat i) t feZero.
Definition tableSet (t : list fieldElement) (i : Z) (e : fieldElement) : list fieldElement :=
  <[Z.to_nat i := e]> t.

(** The two assignments of one iteration of the loop of [NewGCMWithNonceSize]. *)
Definition tableStep (x : fieldElement) (t : list fieldElement) (i : Z) : list fieldElement :=
  let t := tableSet t (reverseBits i) (gcmDouble (tableGet t (reverseBits (Z.quot i 2)))) in
  tableSet t (reverseBits (i + 1)) (gcmAdd (tableGet t (reverseBits i)) x).

Definition productTableOf (x : fieldElement) : list fieldElement :=
  foldl (tableStep x) (tableSet (replicate 16 feZero) (reverseBits 1) x) [2; 4; 6; 8; 10; 12; 14].

(** One nibble of [mul]: multiply by 16 and add a multiple of the key. *)
Definition mulStep (table : list fieldElement) (z : fieldElement) (word : Z) : fieldElement :=
  let msw := Z.land z.(high) 0xf in
  let zhigh := Z.lor (Z.shiftr z.(high) 4) (u64 (Z.shiftl z.(low) 60)) in
  let zlow := Z.lxor (Z.shiftr z.(low) 4) (u64 (Z.shiftl (nth (Z.to_nat msw) gcmReductionTable 0) 48)) in
  let t := tableGet table (Z.land word 0xf) in
  mkFE (Z.lxor zlow t.(low)) (Z.lxor zhigh t.(high)).

Fixpoint mulWord (n : nat) (table : list fieldElement) (z : fieldElement) (word : Z) : fieldElement :=
  match n with
  | O => z
  | S n => mulWord n table (mulStep table z word) (Z.shiftr word 4)
  end.

Definition mul (table : list fieldElement) (y : fieldElement) : fieldElement :=
  mulWord 16 table (mulWord 16 table feZero y.(high)) y.(low).

(** ** The counter *)

(** [for i := 15; i >= 12; i-- { counterBlock[i]++; if counterBlock[i] != 0 { break } }]
    with the last [n] bytes in reverse order. *)
Fixpoint incBytes (n : nat) (rev_bytes : list Z) : list Z :=
  match n, rev_bytes with
  | S n, b :: bs => let b := u8 (b + 1) in if b =? 0 then b :: incBytes n bs else b :: bs
  | _, bs => bs
  end.

Definition gcmInc32 (counterBlock : list Z) : list Z := rev (incBytes 4 (rev counterBlock)).

(** [xorWords] and [xorBytes]: the bytes of the shorter argument. *)
Definition xorBytes (a b : list Z) : list Z := zip_with Z.lxor a b.

Section WithCipher.
Context {cipher : Block}.

(** [NewGCMWithNonceSize]: the key of GHASH is the encrypted zero block. *)
Definition ghashKey : fieldElement :=
  let key := Encrypt (replicate gcmBlockSize 0) in
  mkFE (getUint64 key) (getUint64 (drop 8 key)).
Definition productTable : list fieldElement := productTableOf ghashKey.

(** [updateBlocks]; every iteration consumes a block, the length is enough fuel. *)
Fixpoint updateBlocks (fuel : nat) (y : fieldElement) (blocks : list Z) : fieldElement :=
  match fuel, blocks with
  | S fuel, _ :: _ =>
      let y := mkFE (Z.lxor y.(low) (getUint64 blocks)) (Z.lxor y.(high) (getUint64 (drop 8 blocks))) in
      updateBlocks fuel (mul productTable y) (drop gcmBlockSize blocks)
  | _, _ => y
  end.

Definition update (y : fieldElement) (data : list Z) : fieldElement :=
  let fullBlocks := Z.to_nat (Z.shiftl (Z.shiftr (Z.of_nat (length data)) 4) 4) in
  let y := updateBlocks (length data) y (take fullBlocks data) in
  if Nat.eqb (length data) fullBlocks then y
  else
    let partial := drop fullBlocks data in
    updateBlocks gcmBlockSize y (partial ++ replicate (gcmBlockSize - length partial) 0).

(** [deriveCounter] *)
Definition deriveCounter (nonce : list Z) : list Z :=
  if Nat.eqb (length nonce) gcmStandardNonceSize then nonce ++ [0; 0; 0; 1]
  else
    let y := update feZero nonce in
    let y := mkFE y.(low) (Z.lxor y.(high) (u64 (Z.of_nat (length nonce) * 8))) in
    let y := mul productTable y in
    putUint64 y.(low) ++ putUint64 y.(high).

(** [counterCrypt]; the last iteration handles an incomplete block. *)
Fixpoint counterCrypt (fuel : nat) (src counter : list Z) : list Z :=
  match fuel with
  | O => []
  | S fuel =>
      if decide (gcmBlockSize <= length src)%nat then
        let mask := Encrypt counter in
        xorBytes (take gcmBlockSize src) mask
        ++ counterCrypt fuel (drop gcmBlockSize src) (gcmInc32 counter)
      else if decide (0 < length src)%nat then xorBytes src (Encrypt counter) else []
  end.

Definition auth (ciphertext additionalData tagMask : list Z) : list Z :=
  let y := update feZero additionalData in
  let y := update y ciphertext in
  let y := mkFE (Z.lxor y.(low) (u64 (Z.of_nat (length additionalData) * 8)))
                (Z.lxor y.(high) (u64 (Z.of_nat (length ciphertext) * 8))) in
  let y := mul productTable y in
  xorBytes (putUint64 y.(low) ++ putUint64 y.(high)) tagMask.

(** [Seal] and [Open] append to the slice [dst]; the model returns what they
    append.  The fuel of [counterCrypt] is one more than the number of blocks. *)
Definition crypt (src counter : list Z) : list Z := counterCrypt (S (length src)) src counter.

Definition Seal (nonceSize : nat) (nonce plaintext data : list Z) : res (list Z) :=
  if negb (Nat.eqb (length nonce) nonceSize) then Panic
  else
    let counter := deriveCounter nonce in
    let tagMask := Encrypt counter in
    let counter := gcmInc32 counter in
    let out := crypt plaintext counter in
    let tag := auth out data tagMask in
    Ok (out ++ take gcmTagSize tag).

Definition Open (nonceSize : nat) (nonce ciphertext data : list Z) : res (list Z) :=
  if negb (Nat.eqb (length nonce) nonceSize) then Panic
  else if decide (length ciphertext < gcmTagSize)%nat then Err errOpen
  else
    let tag := drop (length ciphertext - gcmTagSize) ciphertext in
    let ciphertext := take (length ciphertext - gcmTagSize) ciphertext in
    let counter := deriveCounter nonce in
    let tagMask := Encrypt counter in
    let counter := gcmInc32 counter in
    let expectedTag := auth ciphertext data tagMask in
    if decide (take gcmTagSize expectedTag = tag) then Ok (crypt ciphertext counter)
    else Err errOpen.

End WithCipher.

End Gcm.

(** ** Opening what was sealed *)

Module GcmProofs.
Import Gcm.

Section RoundTrip.
Context {cipher : Block}.

Lemma xorBytes_length a m : (length a <= length m)%nat -> length (xorBytes a m) = length a.
Proof. intros H. unfold xorBytes. rewrite length_zip_with. lia. Qed.

Lemma xorBytes_involutive a : forall m, (length a <= length m)%nat -> xorBytes (xorBytes a m) m = a.
Proof.
  induction a as [|x a IH]; intros [|y m] Hl; cbn in *; try (done || lia).
  fold (xorBytes a m). fold (xorBytes (xorBytes a m) m).
  by rewrite Z.lxor_assoc, Z.lxor_nilpotent, Z.lxor_0_r, IH by lia.
Qed.

Lemma counterCrypt_length fuel : forall src c, (length src < fuel)%nat -> length (counterCrypt fuel src c) = length src.
Proof.
  induction fuel as [|fuel IH]; intros src c Hf; [lia|]. cbn [counterCrypt].
  case_decide as H16; [|case_decide as H0].
  - rewrite length_app, xorBytes_length, IH by (rewrite ?length_drop, ?length_take, ?Encrypt_length; unfold gcmBlockSize in *; lia).
    rewrite length_take, length_drop. unfold gcmBlockSize in *. lia.
  - apply xorBytes_length. rewrite Encrypt_length. unfold gcmBlockSize in *. lia.
  - cbn. lia.
Qed.

(** Encrypting twice with the same counter gives the input back. *)
Lemma counterCrypt_involutive fuel : forall src c,
  (length src < fuel)%nat -> counterCrypt fuel (counterCrypt fuel src c) c = src.
Proof.
  induction fuel as [|fuel IH]; intros src c Hf; [lia|].
  pose proof (counterCrypt_length (S fuel) src c Hf) as Hlen. cbn [counterCrypt] in *.
  case_decide as H16; [|case_decide as H0].
  - rewrite decide_True by lia.
    assert (Hx : length (xorBytes (take gcmBlockSize src) (Encrypt c)) = gcmBlockSize).
    { rewrite xorBytes_length; rewrite length_take, ?Encrypt_length; unfold gcmBlockSize in *; lia. }
    rewrite take_app_length' by done. rewrite drop_app_length' by done.
    rewrite IH by (rewrite length_drop; unfold gcmBlockSize in *; lia).
    rewrite xorBytes_involutive, take_drop; [done|].
    rewrite length_take, Encrypt_length. unfold gcmBlockSize. lia.
  - rewrite decide_False, decide_True by lia. apply xorBytes_involutive.
    rewrite Encrypt_length. unfold gcmBlockSize in *. lia.
  - destruct src; [|cbn in *; lia]. cbn. by rewrite decide_False by (unfold gcmBlockSize; lia).
Qed.

Lemma crypt_length src c : length (crypt src c) = length src.
Proof. apply counterCrypt_length. lia. Qed.

Lemma crypt_involutive src c : crypt (crypt src c) c = src.
Proof. unfold crypt at 1. rewrite crypt_length. apply counterCrypt_involutive. lia. Qed.

Lemma auth_length ct ad counter : length (auth ct ad (Encrypt counter)) = 16%nat.
Proof.
  unfold auth. rewrite xorBytes_length; unfold putUint64, be_split;
    rewrite !length_app, !length_rev, !length_le_split, ?Encrypt_length; lia.
Qed.

Lemma Open_Seal n nonce plaintext data :
  length nonce = n -> exists sealed, Seal n nonce plaintext data = Ok sealed
    /\ length sealed = (length plaintext + gcmTagSize)%nat
    /\ Open n nonce sealed data = Ok plaintext.
Proof.
  intros <-. unfold Seal. rewrite Nat.eqb_refl. cbn [negb].
  set (c := gcmInc32 (deriveCounter nonce)). set (mask := Encrypt (deriveCounter nonce)).
  set (tag := take gcmTagSize (auth (crypt plaintext c) data mask)).
  assert (Ht : length tag = gcmTagSize)
    by (unfold tag; rewrite length_take; unfold mask; rewrite auth_length; reflexivity).
  eexists. split; [reflexivity|]. rewrite length_app, crypt_length, Ht. split; [done|].
  unfold Open. rewrite Nat.eqb_refl, decide_False by (rewrite length_app, Ht; lia). cbn [negb].
  rewrite length_app, Ht, Nat.add_sub.
  rewrite drop_app_length' by done. rewrite take_app_length' by done.
  fold c mask. rewrite decide_True by done. by rewrite crypt_involutive.
Qed.

End RoundTrip.

(** ** The multiplication of GHASH *)

(** An element of GF(2^128) is a 128-bit number whose highest bit is the
    coefficient of [x ^ 0]; multiplying by [x] shifts right and reduces by
    [1 + x + x^2 + x^7 + x^128].  The product is Horner's rule over the
    coefficients, from [x ^ 127] to [x ^ 0]. *)
Definition fval (e : fieldElement) : Z := Z.lxor (Z.shiftl e.(low) 64) e.(high).
Definition xtimes (v : Z) : Z := Z.lxor (Z.shiftr v 1) (if Z.odd v then Z.shiftl 0xe1 120 else 0).
Definition horner (h z : Z) (coefficients : list bool) : Z :=
  foldl (fun z b => Z.lxor (xtimes z) (if b : bool then h else 0)) z coefficients.
Definition bits (n : nat) (v : Z) : list bool := Z.testbit v <$> seqZ 0 (Z.of_nat n).
Definition gf_mul (y h : Z) : Z := horner h 0 (bits 128 y).

Definition fe_ok (e : fieldElement) : Prop := in_width 64 e.(low) /\ in_width 64 e.(high).

Lemma shift_low_xor n x : 0 <= n -> Z.lxor (Z.shiftl (Z.shiftr x n) n) (Z.land x (Z.ones n)) = x.
Proof.
  intros Hn. apply Z.bits_inj'. intros i Hi. rewrite Z.lxor_spec, Z.land_spec.
  destruct (Z.lt_ge_cases i n).
  - rewrite Z.shiftl_spec_low, Z.ones_spec_low by lia. by rewrite andb_true_r.
  - rewrite Z.shiftl_spec, Z.shiftr_spec, Z.ones_spec_high by lia. rewrite andb_false_r.
    replace (i - n + n) with i by lia. by destruct (Z.testbit x i).
Qed.

Lemma xtimes_lxor a b : xtimes (Z.lxor a b) = Z.lxor (xtimes a) (xtimes b).
Proof.
  unfold xtimes. rewrite Z.shiftr_lxor, <- !Z.bit0_odd, Z.lxor_spec.
  destruct (Z.testbit a 0), (Z.testbit b 0); cbn [xorb]; apply Z.bits_inj'; intros i Hi;
    rewrite !Z.lxor_spec, ?Z.bits_0;
    destruct (Z.testbit (Z.shiftr a 1) i), (Z.testbit (Z.shiftr b 1) i), (Z.testbit (Z.shiftl 225 120) i); done.
Qed.

Lemma xtimes_shiftl q n : 0 <= n -> xtimes (Z.shiftl q (n + 1)) = Z.shiftl q n.
Proof.
  intros Hn. unfold xtimes. rewrite <- Z.bit0_odd, Z.shiftl_spec_low, Z.lxor_0_r by lia.
  rewrite Z.shiftr_shiftl_l by lia. f_equal. lia.
Qed.

Definition xtimes4 (v : Z) : Z := xtimes (xtimes (xtimes (xtimes v))).

Lemma reduction_table (r : Z) :
  0 <= r < 16 -> xtimes4 r = Z.shiftl (nth (Z.to_nat r) gcmReductionTable 0) 112.
Proof.
  intros Hr. assert (H : Forall (fun r => xtimes4 r = Z.shiftl (nth (Z.to_nat r) gcmReductionTable 0) 112) (seqZ 0 16))
    by (apply (bool_decide_unpack _); vm_compute; exact I).
  rewrite Forall_forall in H. apply H, elem_of_seqZ. lia.
Qed.

Lemma xtimes4_spec v :
  xtimes4 v = Z.lxor (Z.shiftr v 4) (Z.shiftl (nth (Z.to_nat (Z.land v 0xf)) gcmReductionTable 0) 112).
Proof.
  rewrite <- reduction_table.
  - rewrite <- (shift_low_xor 4 v) at 1 by lia. change (Z.ones 4) with 0xf.
    unfold xtimes4. rewrite !xtimes_lxor.
    rewrite (xtimes_shiftl _ 3), (xtimes_shiftl _ 2), (xtimes_shiftl _ 1), (xtimes_shiftl _ 0) by lia.
    by rewrite Z.shiftl_0_r.
  - change 0xf with (Z.ones 4). rewrite Z.land_ones by lia. apply Z.mod_pos_bound. lia.
Qed.

(** ** The words of a field element *)

Lemma fval_arith e : fe_ok e -> fval e = e.(high) + e.(low) * 2 ^ 64.
Proof.
  intros [_ Hh]. unfold fval. rewrite Z.shiftl_mul_pow2, Z.lxor_comm by lia. by apply lxor_disjoint.
Qed.

(** Shifting the two words right is shifting the number. *)
Lemma fval_shiftr e k :
  fe_ok e -> k = 1 \/ k = 4 ->
  Z.lxor (Z.shiftl (Z.shiftr e.(low) k) 64) (Z.lor (Z.shiftr e.(high) k) (u64 (Z.shiftl e.(low) (64 - k))))
  = Z.shiftr (fval e) k
  /\ in_width 64 (Z.shiftr e.(low) k)
  /\ in_width 64 (Z.lor (Z.shiftr e.(high) k) (u64 (Z.shiftl e.(low) (64 - k)))).
Proof.
  intros Hok Hk. rewrite fval_arith by done. destruct Hok as [Hl Hh]. unfold in_width in *.
  destruct Hk as [-> | ->]; rewrite !Z.shiftr_div_pow2, !Z.shiftl_mul_pow2 by lia;
    [assert (E : u64 (low e * 2 ^ (64 - 1)) = low e mod 2 * 2 ^ 63) by (unfold u64; lia_div)
    |assert (E : u64 (low e * 2 ^ (64 - 4)) = low e mod 16 * 2 ^ 60) by (unfold u64; lia_div)];
    rewrite E, lor_disjoint by lia_div; (split; [|lia_div]);
    rewrite Z.lxor_comm, lxor_disjoint by lia_div; lia_div.
Qed.

Lemma fval_gcmAdd x y : fval (gcmAdd x y) = Z.lxor (fval x) (fval y).
Proof.
  unfold fval, gcmAdd. cbn [low high]. rewrite Z.shiftl_lxor. rewrite !Z.lxor_assoc. f_equal.
  by rewrite <- !Z.lxor_assoc, (Z.lxor_comm (high x)).
Qed.

Lemma gcmAdd_ok x y : fe_ok x -> fe_ok y -> fe_ok (gcmAdd x y).
Proof. intros [H1 H2] [H3 H4]. split; apply (lxor_range 64); done. Qed.

Lemma low_bit x : (Z.land x 1 =? 1) = Z.odd x.
Proof. change 1 with (Z.ones 1) at 1. rewrite Z.land_ones, Z.pow_1_r, Zmod_odd by lia. by destruct (Z.odd x). Qed.

Lemma fval_low_bits e n : 0 <= n <= 64 -> Z.land (fval e) (Z.ones n) = Z.land e.(high) (Z.ones n).
Proof.
  intros Hn. unfold fval. apply Z.bits_inj'. intros i Hi. rewrite !Z.land_spec, Z.lxor_spec.
  destruct (Z.lt_ge_cases i n).
  - rewrite Z.shiftl_spec_low by lia. by rewrite xorb_false_l.
  - rewrite Z.ones_spec_high by lia. by rewrite !andb_false_r.
Qed.

Lemma xor_into_low v c e : Z.lxor (Z.shiftl (Z.lxor v c) 64) e = Z.lxor (Z.lxor (Z.shiftl v 64) e) (Z.shiftl c 64).
Proof. rewrite Z.shiftl_lxor, !Z.lxor_assoc. f_equal. apply Z.lxor_comm. Qed.

Lemma fval_gcmDouble x : fe_ok x -> fval (gcmDouble x) = xtimes (fval x) /\ fe_ok (gcmDouble x).
Proof.
  intros Hx. destruct (fval_shiftr x 1 Hx ltac:(by left)) as (E & H1 & H2).
  assert (Ho : Z.odd (fval x) = Z.odd (high x)).
  { rewrite <- !low_bit. change 1 with (Z.ones 1) at 1 3. by rewrite fval_low_bits by lia. }
  unfold gcmDouble, fe_ok, xtimes. cbn [low high]. rewrite Ho, low_bit, <- E. unfold fval. cbn [low high].
  destruct (Z.odd (high x)); cbn [low high].
  - split; [by rewrite xor_into_low|]. split; [|done]. apply (lxor_range 64); [lia|done|lia].
  - by rewrite Z.lxor_0_r.
Qed.

Lemma fval_mulStep table z word :
  fe_ok z -> fe_ok (tableGet table (Z.land word 0xf)) ->
  fval (mulStep table z word) = Z.lxor (xtimes4 (fval z)) (fval (tableGet table (Z.land word 0xf)))
  /\ fe_ok (mulStep table z word).
Proof.
  intros Hz Ht. destruct (fval_shiftr z 4 Hz ltac:(by right)) as (E & H1 & H2).
  set (t := tableGet table (Z.land word 15)) in *.
  assert (Hm : Z.land (fval z) 0xf = Z.land (high z) 0xf) by (change 0xf with (Z.ones 4); apply fval_low_bits; lia).
  rewrite xtimes4_spec, Hm, <- E.
  set (r := nth (Z.to_nat (Z.land (high z) 15)) gcmReductionTable 0).
  assert (Hr : in_width 16 r).
  { unfold r. assert (HF : Forall (in_width 16) gcmReductionTable) by (apply (bool_decide_unpack _); vm_compute; exact I).
    destruct (nth_in_or_default (Z.to_nat (Z.land (high z) 15)) gcmReductionTable 0) as [Hin|Hd].
    - rewrite List.Forall_forall in HF. by apply HF.
    - rewrite Hd. unfold in_width. lia. }
  assert (Er : u64 (Z.shiftl r 48) = Z.shiftl r 48)
    by (rewrite Z.shiftl_mul_pow2 by lia; apply u64_small; unfold in_width in *; lia).
  assert (Hmk : mulStep table z word = gcmAdd (mkFE (Z.lxor (Z.shiftr (low z) 4) (u64 (Z.shiftl r 48)))
      (Z.lor (Z.shiftr (high z) 4) (u64 (Z.shiftl (low z) 60)))) t) by done.
  rewrite Hmk, fval_gcmAdd. split.
  - f_equal. unfold fval. cbn [low high]. rewrite Er, xor_into_low, Z.shiftl_shiftl by lia. done.
  - apply gcmAdd_ok; [|done]. split; cbn [low high]; [|done]. rewrite Er. apply (lxor_range 64); [lia|done|].
    rewrite Z.shiftl_mul_pow2 by lia. unfold in_width in *. lia.
Qed.

(** ** The table of multiples *)

Section Table.
Context (x : fieldElement) (Hx : fe_ok x).
#[local] Abbreviation h := (fval x).

Definition pick (b : bool) (v : Z) : Z := if b then v else 0.

(** What the entry of a nibble holds: bit 3 is the coefficient of [x ^ 0]. *)
Definition multiple (n : Z) : Z :=
  Z.lxor (Z.lxor (Z.lxor (pick (Z.testbit n 0) (xtimes (xtimes (xtimes h)))) (pick (Z.testbit n 1) (xtimes (xtimes h))))
    (pick (Z.testbit n 2) (xtimes h))) (pick (Z.testbit n 3) h).

Definition entry_ok (e : fieldElement) (v : Z) : Prop := fval e = v /\ fe_ok e.

Lemma entry_x : entry_ok x h.
Proof. done. Qed.
Lemma entry_double e v : entry_ok e v -> entry_ok (gcmDouble e) (xtimes v).
Proof. intros [<- He]. by apply fval_gcmDouble. Qed.
Lemma entry_add e v : entry_ok e v -> entry_ok (gcmAdd e x) (Z.lxor v h).
Proof. intros [<- He]. split; [apply fval_gcmAdd|by apply gcmAdd_ok]. Qed.
Lemma entry_zero : entry_ok feZero 0.
Proof. split; [done|]. split; unfold in_width; cbn; lia. Qed.
Lemma entry_eq e v v' : v = v' -> entry_ok e v -> entry_ok e v'.
Proof. by intros ->. Qed.

#[local] Opaque gcmDouble gcmAdd feZero xtimes fval.

Lemma table_entry n : 0 <= n < 16 -> entry_ok (tableGet (productTableOf x) n) (multiple n).
Proof.
  intros Hn.
  assert (Hc : n ∈ [15; 7; 11; 3; 13; 5; 9; 1; 14; 6; 10; 2; 12; 4; 8; 0]) by (rewrite !elem_of_cons; lia).
  rewrite !elem_of_cons, elem_of_nil in Hc.
  destruct_or! Hc; subst n;
    match goal with |- entry_ok ?e _ => let e' := eval cbv -[gcmDouble gcmAdd feZero] in e in change e with e' end;
    (eapply entry_eq; [|repeat first [apply entry_x|apply entry_add|apply entry_double|apply entry_zero]]);
    unfold multiple; cbn [Z.testbit Z.odd Pos.testbit Pos.pred_N Pos.pred_double pick]; rewrite ?xtimes_lxor, ?Z.lxor_0_r, ?Z.lxor_0_l; done.
Qed.

End Table.

#[local] Transparent gcmDouble gcmAdd feZero xtimes fval.

(** ** Horner's rule, four coefficients at a time *)

Lemma horner_app h z l1 l2 : horner h z (l1 ++ l2) = horner h (horner h z l1) l2.
Proof. apply foldl_app. Qed.

Lemma bits_app n m v : bits (n + m) v = bits n v ++ bits m (Z.shiftr v (Z.of_nat n)).
Proof.
  unfold bits. rewrite Nat2Z.inj_add, seqZ_app, fmap_app by lia. f_equal.
  rewrite (Z.add_comm 0), <- (fmap_add_seqZ (Z.of_nat n) 0), <- list_fmap_compose. apply list_fmap_ext. intros i k Hk.
  apply lookup_seqZ in Hk as [-> _]. cbn. rewrite Z.shiftr_spec by lia. f_equal. lia.
Qed.

Lemma bits_ext n v w : (forall i, 0 <= i < Z.of_nat n -> Z.testbit v i = Z.testbit w i) -> bits n v = bits n w.
Proof.
  intros H. apply list_fmap_ext. intros i k Hk. apply lookup_seqZ in Hk as [-> Hi]. apply H. lia.
Qed.

(** Four steps of Horner's rule are one step of [mul]. *)
Lemma horner_nibble x z word :
  horner (fval x) z (bits 4 word) = Z.lxor (xtimes4 z) (multiple x (Z.land word 0xf)).
Proof.
  change (bits 4 word) with [Z.testbit word 0; Z.testbit word 1; Z.testbit word 2; Z.testbit word 3].
  unfold horner, multiple. cbn [foldl]. change 0xf with (Z.ones 4).
  rewrite !Z.land_spec, !Z.ones_spec_low, !andb_true_r by lia. rewrite !xtimes_lxor.
  fold (xtimes4 z). rewrite !Z.lxor_assoc. unfold pick.
  destruct (Z.testbit word 0), (Z.testbit word 1), (Z.testbit word 2), (Z.testbit word 3); reflexivity.
Qed.

Lemma mulWord_spec x n : fe_ok x -> forall z word,
  fe_ok z -> fval (mulWord n (productTableOf x) z word) = horner (fval x) (fval z) (bits (4 * n) word)
             /\ fe_ok (mulWord n (productTableOf x) z word).
Proof.
  intros Hx. induction n as [|n IH]; intros z word Hz; [done|]. cbn [mulWord].
  assert (Hw : 0 <= Z.land word 0xf < 16)
    by (change 0xf with (Z.ones 4); rewrite Z.land_ones by lia; apply Z.mod_pos_bound; lia).
  destruct (table_entry x Hx _ Hw) as [Et Ht].
  destruct (fval_mulStep _ z word Hz Ht) as [Em Hm]. destruct (IH _ (Z.shiftr word 4) Hm) as [E Hok].
  split; [|done]. rewrite E, Em, Et, <- horner_nibble, <- horner_app.
  replace (4 * S n)%nat with (4 + 4 * n)%nat by lia. by rewrite bits_app.
Qed.

Lemma fval_bits y : fe_ok y -> bits 128 (fval y) = bits 64 y.(high) ++ bits 64 y.(low).
Proof.
  intros [_ Hh]. change 128%nat with (64 + 64)%nat. rewrite bits_app. f_equal; apply bits_ext; intros i Hi;
    change (Z.of_nat 64) with 64 in *; unfold fval.
  - rewrite Z.lxor_spec, Z.shiftl_spec_low by lia. apply xorb_false_l.
  - rewrite Z.shiftr_lxor, Z.shiftr_shiftl_l, Z.sub_diag, Z.shiftl_0_r by lia.
    rewrite Z.shiftr_div_pow2, (Z.div_small (high y)) by (unfold in_width in *; lia). by rewrite Z.lxor_0_r.
Qed.

(** C27: the table-driven multiplication of GHASH, nibble by nibble with a table of
    sixteen multiples of the key and a reduction table, is the multiplication in
    GF(2^128): the number of the result is the product of the numbers of the
    argument and of the key, and its words stay in range. *)
Theorem mul_is_field_multiplication x y :
  fe_ok x -> fe_ok y ->
  fval (mul (productTableOf x) y) = gf_mul (fval y) (fval x) /\ fe_ok (mul (productTableOf x) y).
Proof.
  intros Hx Hy. unfold mul, gf_mul. rewrite fval_bits, horner_app by done.
  destruct (mulWord_spec x 16 Hx feZero y.(high) ltac:(by apply entry_zero)) as [E1 H1].
  destruct (mulWord_spec x 16 Hx _ y.(low) H1) as [E2 H2]. by rewrite E2, E1.
Qed.

Lemma mul_is_field_multiplication_witness :
  fval (mul (productTableOf (mkFE 0x66e94bd4ef8a2c3b 0x884cfa59ca342b2e)) (mkFE 0x0388dace60b6a392 0xf328c2b971b2fe78))
  = 0x5e2ec746917062882c85b0685353deb7.
Proof.
  rewrite (proj1 (mul_is_field_multiplication (mkFE 0x66e94bd4ef8a2c3b 0x884cfa59ca342b2e)
    (mkFE 0x0388dace60b6a392 0xf328c2b971b2fe78)
    ltac:(unfold fe_ok, in_width; cbn; lia) ltac:(unfold fe_ok, in_width; cbn; lia))).
  vm_compute. reflexivity.
Defined.

(** What was sealed under a nonce and associated data is opened to the same
    plaintext under the same nonce and associated data, for every block cipher
    and every message length, and is exactly the 12 bytes of the tag longer. *)
Theorem gcm_roundtrip {cipher : Block} n nonce plaintext data :
  length nonce = n ->
  exists sealed, Seal n nonce plaintext data = Ok sealed
    /\ length sealed = (length plaintext + gcmTagSize)%nat
    /\ Open n nonce sealed data = Ok plaintext.
Proof. apply Open_Seal. Qed.

(** A block cipher for evaluation: it xors the block with a constant. *)
Definition demo_encrypt (b : list Z) : list Z := take 16 ((fun c => Z.lxor (u8 c) 90) <$> b ++ replicate 16 0).

Lemma demo_encrypt_length b : length (demo_encrypt b) = 16%nat.
Proof. unfold demo_encrypt. rewrite length_take, length_fmap, length_app, length_replicate. lia. Qed.

Lemma demo_encrypt_ok b : bytes_ok (demo_encrypt b).
Proof.
  apply Forall_take, Forall_fmap, Forall_forall. intros c _. cbn. apply (lxor_range 8); [lia|apply u8_range|lia].
Qed.

Definition demo_block : Block :=
  {| Encrypt := demo_encrypt; Encrypt_length := demo_encrypt_length; Encrypt_ok := demo_encrypt_ok |}.

Lemma gcm_roundtrip_witness :
  exists sealed, Seal (cipher:=demo_block) 12 (replicate 12 7) [1; 2; 3; 4; 5] [9; 9] = Ok sealed
    /\ length sealed = 17%nat
    /\ Open (cipher:=demo_block) 12 (replicate 12 7) sealed [9; 9] = Ok [1; 2; 3; 4; 5].
Proof. exact (gcm_roundtrip (cipher:=demo_block) 12 (replicate 12 7) [1; 2; 3; 4; 5] [9; 9] eq_refl). Defined.

End GcmProofs.
