(* ===== verification/Aes.v ===== *)
(** * The AES block cipher ([aes12/block.go], [aes12/cipher.go])

    The table-driven cipher and key schedule in Go, and AES as FIPS-197 defines
    it.  A word is a 32-bit integer, a block a list of bytes; an index out of
    range is a panic.  [Fips197] is the reference: the state is the 16 bytes of
    the block in the order of the input, the S-box is the inverse in GF(2^8)
    followed by the affine map, the columns are mixed by multiplication in
    GF(2^8).  [AesProofs.v] relates the two. *)

From S2P Require Import Prelude AesTables.

(** ** The cipher in Go *)

Module Aes.
Import AesTables.

Definition BlockSize : nat := 16.

(** Reading and writing an element of a slice. *)
Definition index (l : list Z) (i : nat) : res Z :=
  match l !! i with Some v => Ok v | None => Panic end.
Definition setIndex (l : list Z) (i : nat) (v : Z) : res (list Z) :=
  if (i <? length l)%nat then Ok (<[i := v]> l) else Panic.

(** Reading a table at a byte, which is never out of range. *)
Definition tab (t : list Z) (i : Z) : Z := nth (Z.to_nat i) t 0.

(** The variables [s0] to [s3], or [t0] to [t3]. *)
Record words : Type := mkW { w0 : Z; w1 : Z; w2 : Z; w3 : Z }.

(** [uint32(a)<<24 | uint32(b)<<16 | uint32(c)<<8 | uint32(d)] *)
Definition word (a b c d : Z) : Z :=
  Z.lor (Z.lor (Z.lor (Z.shiftl a 24) (Z.shiftl b 16)) (Z.shiftl c 8)) d.

Definition load (src : list Z) (i : nat) : res Z :=
  a ← index src i; b ← index src (i + 1); c ← index src (i + 2); d ← index src (i + 3);
  Ok (word a b c d).

Definition loadBlock (src : list Z) : res words :=
  s0 ← load src 0; s1 ← load src 4; s2 ← load src 8; s3 ← load src 12;
  Ok (mkW s0 s1 s2 s3).

(** [s0 ^= xk[k+0]] to [s3 ^= xk[k+3]] *)
Definition xorKey (xk : list Z) (k : nat) (s : words) : res words :=
  k0 ← index xk (k + 0); k1 ← index xk (k + 1); k2 ← index xk (k + 2); k3 ← index xk (k + 3);
  Ok (mkW (Z.lxor s.(w0) k0) (Z.lxor s.(w1) k1) (Z.lxor s.(w2) k2) (Z.lxor s.(w3) k3)).

(** [byte(w>>24), byte(w>>16), byte(w>>8), byte(w)] *)
Definition wordBytes (w : Z) : list Z :=
  [u8 (Z.shiftr w 24); u8 (Z.shiftr w 16); u8 (Z.shiftr w 8); u8 w].

Definition storeBlock (dst : list Z) (s : words) : res (list Z) :=
  if (length dst <? 16)%nat then Panic
  else Ok (wordBytes s.(w0) ++ wordBytes s.(w1) ++ wordBytes s.(w2) ++ wordBytes s.(w3) ++ drop 16 dst).

(** One of the four assignments of a middle round: the key word and a table per byte. *)
Definition mixWord (t0 t1 t2 t3 : list Z) (key a b c d : Z) : Z :=
  Z.lxor (Z.lxor (Z.lxor (Z.lxor key (tab t0 (u8 (Z.shiftr a 24)))) (tab t1 (u8 (Z.shiftr b 16))))
    (tab t2 (u8 (Z.shiftr c 8)))) (tab t3 (u8 d)).

(** One of the four assignments of the last round. *)
Definition subWord (sbox : list Z) (a b c d : Z) : Z :=
  word (tab sbox (Z.shiftr a 24)) (tab sbox (Z.land (Z.shiftr b 16) 0xff))
    (tab sbox (Z.land (Z.shiftr c 8) 0xff)) (tab sbox (Z.land d 0xff)).

Definition encRound (xk : list Z) (k : nat) (s : words) : res words :=
  k0 ← index xk (k + 0); k1 ← index xk (k + 1); k2 ← index xk (k + 2); k3 ← index xk (k + 3);
  Ok (mkW (mixWord te0 te1 te2 te3 k0 s.(w0) s.(w1) s.(w2) s.(w3))
          (mixWord te0 te1 te2 te3 k1 s.(w1) s.(w2) s.(w3) s.(w0))
          (mixWord te0 te1 te2 te3 k2 s.(w2) s.(w3) s.(w0) s.(w1))
          (mixWord te0 te1 te2 te3 k3 s.(w3) s.(w0) s.(w1) s.(w2))).

Definition decRound (xk : list Z) (k : nat) (s : words) : res words :=
  k0 ← index xk (k + 0); k1 ← index xk (k + 1); k2 ← index xk (k + 2); k3 ← index xk (k + 3);
  Ok (mkW (mixWord td0 td1 td2 td3 k0 s.(w0) s.(w3) s.(w2) s.(w1))
          (mixWord td0 td1 td2 td3 k1 s.(w1) s.(w0) s.(w3) s.(w2))
          (mixWord td0 td1 td2 td3 k2 s.(w2) s.(w1) s.(w0) s.(w3))
          (mixWord td0 td1 td2 td3 k3 s.(w3) s.(w2) s.(w1) s.(w0))).

(** The loop of the middle rounds.  The last round reads [t0] to [t3], which are
    zero when the loop does not run. *)
Fixpoint roundLoop (round : nat -> words -> res words) (r k : nat) (s t : words) : res (nat * words) :=
  match r with
  | O => Ok (k, t)
  | S r => t ← round k s; roundLoop round r (k + 4) t t
  end.

Definition encryptBlockGo (xk dst src : list Z) : res (list Z) :=
  s ← loadBlock src;
  s ← xorKey xk 0 s;
  '(k, t) ← roundLoop (encRound xk) (length xk / 4 - 2) 4 s (mkW 0 0 0 0);
  let s := mkW (subWord sbox0 t.(w0) t.(w1) t.(w2) t.(w3)) (subWord sbox0 t.(w1) t.(w2) t.(w3) t.(w0))
               (subWord sbox0 t.(w2) t.(w3) t.(w0) t.(w1)) (subWord sbox0 t.(w3) t.(w0) t.(w1) t.(w2)) in
  s ← xorKey xk k s;
  storeBlock dst s.

Definition decryptBlockGo (xk dst src : list Z) : res (list Z) :=
  s ← loadBlock src;
  s ← xorKey xk 0 s;
  '(k, t) ← roundLoop (decRound xk) (length xk / 4 - 2) 4 s (mkW 0 0 0 0);
  let s := mkW (subWord sbox1 t.(w0) t.(w3) t.(w2) t.(w1)) (subWord sbox1 t.(w1) t.(w0) t.(w3) t.(w2))
               (subWord sbox1 t.(w2) t.(w1) t.(w0) t.(w3)) (subWord sbox1 t.(w3) t.(w2) t.(w1) t.(w0)) in
  s ← xorKey xk k s;
  storeBlock dst s.

(** *** The key schedule *)

Definition subw (w : Z) : Z := subWord sbox0 w w w w.
Definition rotw (w : Z) : Z := Z.lor (u32 (Z.shiftl w 8)) (Z.shiftr w 24).

(** The words of the key, from [enc[i]] on. *)
Fixpoint keyWords (n i : nat) (key enc : list Z) : res (list Z) :=
  match n with
  | O => Ok enc
  | S n => w ← load key (4 * i); enc ← setIndex enc i w; keyWords n (S i) key enc
  end.

(** The body of the second loop; [i - 1] and [i - nk] are not negative, [i%nk]
    panics for [nk = 0]. *)
Definition expandStep (nk i : nat) (enc : list Z) : res (list Z) :=
  if (nk =? 0)%nat then Panic else
  t ← index enc (i - 1);
  t ← (if (i mod nk =? 0)%nat then p ← index powx (i / nk - 1); Ok (Z.lxor (subw (rotw t)) (Z.shiftl p 24))
       else if (6 <? nk)%nat && (i mod nk =? 4)%nat then Ok (subw t)
       else Ok t);
  e ← index enc (i - nk);
  setIndex enc i (Z.lxor e t).

Fixpoint expandLoop (n nk i : nat) (enc : list Z) : res (list Z) :=
  match n with
  | O => Ok enc
  | S n => enc ← expandStep nk i enc; expandLoop n nk (S i) enc
  end.

(** The word of the decryption key made of [x]. *)
Definition decWord (middle : bool) (x : Z) : Z :=
  if middle then
    Z.lxor (Z.lxor (Z.lxor (tab td0 (tab sbox0 (Z.shiftr x 24)))
      (tab td1 (tab sbox0 (Z.land (Z.shiftr x 16) 0xff))))
      (tab td2 (tab sbox0 (Z.land (Z.shiftr x 8) 0xff)))) (tab td3 (tab sbox0 (Z.land x 0xff)))
  else x.

(** The inner loop, over [j]. *)
Fixpoint decWords (cnt j i ei n : nat) (enc dec : list Z) : res (list Z) :=
  match cnt with
  | O => Ok dec
  | S cnt =>
      x ← index enc (ei + j);
      dec ← setIndex dec (i + j) (decWord ((0 <? i)%nat && (i + 4 <? n)%nat) x);
      decWords cnt (S j) i ei n enc dec
  end.

(** The outer loop; [n - i - 4] is negative when [n < i + 4]. *)
Fixpoint decLoop (fuel i n : nat) (enc dec : list Z) : res (list Z) :=
  match fuel with
  | O => Ok dec
  | S fuel =>
      if (i <? n)%nat then
        if (n <? i + 4)%nat then Panic
        else dec ← decWords 4 0 i (n - i - 4) n enc dec; decLoop fuel (i + 4) n enc dec
      else Ok dec
  end.

(** The slices after the call; [dec] is [None] for [nil]. *)
Definition expandKeyGo (key enc : list Z) (dec : option (list Z)) : res (list Z * option (list Z)) :=
  let nk := (length key / 4)%nat in
  enc ← keyWords nk 0 key enc;
  enc ← expandLoop (length enc - nk) nk nk enc;
  match dec with
  | None => Ok (enc, None)
  | Some dec => dec ← decLoop (length enc) 0 (length enc) enc dec; Ok (enc, Some dec)
  end.

(** *** The cipher object *)

Record aesCipher : Type := mkCipher { enc : list Z; dec : list Z }.

Definition newCipherGeneric (key : list Z) : res aesCipher :=
  let n := (length key + 28)%nat in
  r ← expandKeyGo key (replicate n 0) (Some (replicate n 0));
  Ok (mkCipher r.1 (default [] r.2)).

Definition NewCipher (key : list Z) : res aesCipher :=
  if decide (length key = 16 \/ length key = 24 \/ length key = 32)%nat then newCipherGeneric key
  else Err (Errorf "crypto/aes: invalid key size " [Z.of_nat (length key)]).

Definition Encrypt (c : aesCipher) (dst src : list Z) : res (list Z) :=
  if (length src <? BlockSize)%nat then Panic
  else if (length dst <? BlockSize)%nat then Panic
  else encryptBlockGo c.(enc) dst src.

Definition Decrypt (c : aesCipher) (dst src : list Z) : res (list Z) :=
  if (length src <? BlockSize)%nat then Panic
  else if (length dst <? BlockSize)%nat then Panic
  else decryptBlockGo c.(dec) dst src.

End Aes.

(** ** AES as FIPS-197 defines it *)

Module Fips197.

(** Multiplication by x, and by any element, in GF(2^8). *)
Definition xtime (b : Z) : Z := Z.lxor (Z.shiftl b 1) (if Z.testbit b 7 then 0x11b else 0).

Fixpoint gmulBits (n : nat) (a b : Z) : Z :=
  match n with
  | O => 0
  | S n => Z.lxor (if Z.odd a then b else 0) (gmulBits n (Z.shiftr a 1) (xtime b))
  end.
Definition gmul (a b : Z) : Z := gmulBits 8 a b.

(** The inverse is the power 254, which is 0 for 0. *)
Definition inverse (b : Z) : Z :=
  let b2 := gmul b b in let b4 := gmul b2 b2 in let b8 := gmul b4 b4 in let b16 := gmul b8 b8 in
  let b32 := gmul b16 b16 in let b64 := gmul b32 b32 in let b128 := gmul b64 b64 in
  gmul b2 (gmul b4 (gmul b8 (gmul b16 (gmul b32 (gmul b64 b128))))).

Definition rotl8 (b k : Z) : Z := u8 (Z.lor (Z.shiftl b k) (Z.shiftr b (8 - k))).

Definition sbox (b : Z) : Z :=
  let i := inverse b in
  Z.lxor (Z.lxor (Z.lxor (Z.lxor (Z.lxor i (rotl8 i 1)) (rotl8 i 2)) (rotl8 i 3)) (rotl8 i 4)) 0x63.
Definition invSbox (b : Z) : Z :=
  inverse (Z.lxor (Z.lxor (Z.lxor (rotl8 b 1) (rotl8 b 3)) (rotl8 b 6)) 0x05).

(** The state is the block; row [r] of column [c] is its byte [r + 4 c]. *)
Definition cell (st : list Z) (r c : nat) : Z := nth (r mod 4 + 4 * (c mod 4)) st 0.
Definition cells (f : nat -> nat -> Z) : list Z := (fun i => f (i mod 4) (i / 4))%nat <$> seq 0 16.

Definition SubBytes (st : list Z) : list Z := sbox <$> st.
Definition InvSubBytes (st : list Z) : list Z := invSbox <$> st.
Definition ShiftRows (st : list Z) : list Z := cells (fun r c => cell st r (c + r)).
Definition InvShiftRows (st : list Z) : list Z := cells (fun r c => cell st r (c + 4 - r)).

Definition mix (a b c d : Z) : Z := Z.lxor (Z.lxor (Z.lxor (gmul 2 a) (gmul 3 b)) c) d.
Definition invMix (a b c d : Z) : Z := Z.lxor (Z.lxor (Z.lxor (gmul 14 a) (gmul 11 b)) (gmul 13 c)) (gmul 9 d).
Definition mixBy (f : Z -> Z -> Z -> Z -> Z) (st : list Z) : list Z :=
  cells (fun r c => f (cell st r c) (cell st (r + 1) c) (cell st (r + 2) c) (cell st (r + 3) c)).
Definition MixColumns (st : list Z) : list Z := mixBy mix st.
Definition InvMixColumns (st : list Z) : list Z := mixBy invMix st.

Definition AddRoundKey (st k : list Z) : list Z := zip_with Z.lxor st k.

(** The key schedule is a list of words of four bytes. *)
Definition roundKey (w : list (list Z)) (r : nat) : list Z := concat (take 4 (drop (4 * r) w)).

(** A middle round, and the rounds from [r] on. *)
Definition encStep (st k : list Z) : list Z := AddRoundKey (MixColumns (ShiftRows (SubBytes st))) k.
Definition decStep (st k : list Z) : list Z := AddRoundKey (InvMixColumns (InvShiftRows (InvSubBytes st))) k.
Fixpoint rounds (step : list Z -> list Z -> list Z) (n r : nat) (rk : nat -> list Z) (st : list Z) : list Z :=
  match n with
  | O => st
  | S n => rounds step n (S r) rk (step st (rk r))
  end.

(** The cipher with [nr] rounds, and the equivalent inverse cipher. *)
Definition CipherWith (nr : nat) (rk : nat -> list Z) (block : list Z) : list Z :=
  let st := rounds encStep (nr - 1) 1 rk (AddRoundKey block (rk 0%nat)) in
  AddRoundKey (ShiftRows (SubBytes st)) (rk nr).
Definition EqInvCipherWith (nr : nat) (dk : nat -> list Z) (block : list Z) : list Z :=
  let st := rounds decStep (nr - 1) 1 dk (AddRoundKey block (dk 0%nat)) in
  AddRoundKey (InvShiftRows (InvSubBytes st)) (dk nr).
Definition Cipher (w : list (list Z)) (block : list Z) : list Z :=
  CipherWith (length w / 4 - 1) (roundKey w) block.

Definition RotWord (w : list Z) : list Z := drop 1 w ++ take 1 w.
Definition SubWord (w : list Z) : list Z := sbox <$> w.
Definition Rcon (i : nat) : list Z := [Nat.iter (i - 1) xtime 1; 0; 0; 0].

(** The next word of a key schedule of which the words [w] are known. *)
Definition nextWord (nk : nat) (w : list (list Z)) : list Z :=
  let i := length w in
  let temp := nth (i - 1) w [] in
  let temp := if (i mod nk =? 0)%nat then zip_with Z.lxor (SubWord (RotWord temp)) (Rcon (i / nk))
              else if (6 <? nk)%nat && (i mod nk =? 4)%nat then SubWord temp
              else temp in
  zip_with Z.lxor (nth (i - nk) w []) temp.

Fixpoint expandWords (n nk : nat) (w : list (list Z)) : list (list Z) :=
  match n with O => w | S n => expandWords n nk (w ++ [nextWord nk w]) end.

Fixpoint chunk4 (n : nat) (key : list Z) : list (list Z) :=
  match n with O => [] | S n => take 4 key :: chunk4 n (drop 4 key) end.

(** [4 (Nr + 1)] words, where the number of rounds [Nr] is [Nk + 6]. *)
Definition KeyExpansion (key : list Z) : list (list Z) :=
  let nk := (length key / 4)%nat in
  expandWords (4 * (nk + 6 + 1) - nk) nk (chunk4 nk key).

End Fips197.

(** The example of appendix C.1 of FIPS-197. *)
Example fips197_c1 :
  let key := seqZ 0 16 in
  let plain := (fun i => 0x11 * i) <$> seqZ 0 16 in
  let cipher := [0x69; 0xc4; 0xe0; 0xd8; 0x6a; 0x7b; 0x04; 0x30; 0xd8; 0xcd; 0xb7; 0x80; 0x70; 0xb4; 0xc5; 0x5a] in
  (c ← Aes.NewCipher key; Aes.Encrypt c (replicate 16 0) plain) = Ok cipher
  /\ (c ← Aes.NewCipher key; Aes.Decrypt c (replicate 16 0) cipher) = Ok plain
  /\ Fips197.Cipher (Fips197.KeyExpansion key) plain = cipher.
Proof. vm_compute. auto. Qed.
