(* ===== verification/AesProofs.v ===== *)
(** * The block cipher is AES ([Aes.v])

    The tables hold what FIPS-197 defines (every entry is computed), so a round
    with tables is SubBytes, ShiftRows, MixColumns and AddRoundKey, and the key
    schedule is KeyExpansion.  Proved for keys of 16, 24 and 32 bytes: encrypting
    is the cipher of FIPS-197, and decrypting gives the block back.  Both run
    without a panic.  The cipher is then an instance of the [Block] interface of
    the Galois counter mode. *)

From Stdlib Require Import Btauto.
From S2P Require Import Prelude AesTables Aes ByteOrder Gcm.

(** ** Bytes, words and the field *)

Module AesWords.
Import AesTables Aes Fips197.

Lemma byte_forall (P : Z -> bool) : forallb P (seqZ 0 256) = true -> forall x, in_width 8 x -> P x = true.
Proof.
  intros H x Hx. rewrite forallb_forall in H. apply H, list_elem_of_In, elem_of_seqZ.
  unfold in_width in Hx. lia.
Qed.

Lemma byte_width (f : Z -> Z) :
  forallb (fun x => (0 <=? f x) && (f x <? 256)) (seqZ 0 256) = true -> forall x, in_width 8 x -> in_width 8 (f x).
Proof.
  intros H x Hx. pose proof (byte_forall _ H x Hx) as E. cbv beta in E.
  rewrite andb_true_iff, Z.leb_le, Z.ltb_lt in E. exact E.
Qed.

Lemma byte_eq (f g : Z -> Z) :
  forallb (fun x => f x =? g x) (seqZ 0 256) = true -> forall x, in_width 8 x -> f x = g x.
Proof. intros H x Hx. apply Z.eqb_eq. exact (byte_forall _ H x Hx). Qed.

(** Equations of exclusive-ors, up to order. *)
Ltac xor_ac := apply Z.bits_inj'; intros ? ?; rewrite ?Z.lxor_spec; btauto.

Ltac in_bytes :=
  unfold bytes_ok in *;
  repeat match goal with H : Forall (in_width 8) (_ :: _) |- _ => apply Forall_cons in H as [? H] end.

Lemma in_width_lxor w x y : 0 <= w -> in_width w x -> in_width w y -> in_width w (Z.lxor x y).
Proof. unfold in_width. intros. by apply lxor_range. Qed.

Lemma word_ext a b c d a' b' c' d' : a = a' -> b = b' -> c = c' -> d = d' -> word a b c d = word a' b' c' d'.
Proof. by intros -> -> -> ->. Qed.

Lemma word_sum a b c d : in_width 8 a -> in_width 8 b -> in_width 8 c -> in_width 8 d ->
  word a b c d = a * 2 ^ 24 + b * 2 ^ 16 + c * 2 ^ 8 + d.
Proof.
  unfold in_width, word. intros Ha Hb Hc Hd. rewrite !Z.shiftl_mul_pow2 by lia.
  rewrite (Z.lor_comm _ d), (Z.lor_comm _ (c * 2 ^ 8)), (Z.lor_comm (a * 2 ^ 24)), !Z.lor_assoc.
  rewrite (lor_disjoint 8) by lia. rewrite (lor_disjoint 16) by lia. rewrite (lor_disjoint 24) by lia. lia.
Qed.

Section Word.
Context (a b c d : Z) (Ha : in_width 8 a) (Hb : in_width 8 b) (Hc : in_width 8 c) (Hd : in_width 8 d).

Lemma word_range : in_width 32 (word a b c d).
Proof using All. rewrite word_sum by done. unfold in_width in *. lia. Qed.

Lemma word_byte3 : Z.shiftr (word a b c d) 24 = a.
Proof using All. rewrite word_sum by done. rewrite Z.shiftr_div_pow2 by lia. unfold in_width in *. lia_div. Qed.
Lemma word_byte2 : u8 (Z.shiftr (word a b c d) 16) = b.
Proof using All.
  rewrite word_sum by done. rewrite Z.shiftr_div_pow2 by lia. unfold in_width, u8 in *. lia_div.
Qed.
Lemma word_byte1 : u8 (Z.shiftr (word a b c d) 8) = c.
Proof using All.
  rewrite word_sum by done. rewrite Z.shiftr_div_pow2 by lia. unfold in_width, u8 in *. lia_div.
Qed.
Lemma word_byte0 : u8 (word a b c d) = d.
Proof using All. rewrite word_sum by done. unfold in_width, u8 in *. lia_div. Qed.

Lemma word_bytes : wordBytes (word a b c d) = [a; b; c; d].
Proof using All.
  unfold wordBytes. rewrite word_byte3, word_byte2, word_byte1, word_byte0. by rewrite u8_small by (unfold in_width in *; lia).
Qed.

Lemma word_rotw : rotw (word a b c d) = word b c d a.
Proof using All.
  unfold rotw. rewrite word_byte3, Z.shiftl_mul_pow2, Z.lor_comm by lia.
  assert (E : u32 (word a b c d * 2 ^ 8) = (b * 2 ^ 16 + c * 2 ^ 8 + d) * 2 ^ 8).
  { rewrite word_sum by done. unfold u32, in_width in *. lia_div. }
  rewrite E, lor_disjoint by (unfold in_width in *; lia). rewrite word_sum by done. lia.
Qed.

End Word.

Lemma land_ff x : Z.land x 0xff = u8 x.
Proof. change 0xff with (Z.ones 8). by rewrite Z.land_ones. Qed.

Lemma word_lxor a b c d a' b' c' d' :
  in_width 8 a -> in_width 8 b -> in_width 8 c -> in_width 8 d ->
  in_width 8 a' -> in_width 8 b' -> in_width 8 c' -> in_width 8 d' ->
  Z.lxor (word a b c d) (word a' b' c' d') = word (Z.lxor a a') (Z.lxor b b') (Z.lxor c c') (Z.lxor d d').
Proof.
  assert (D : forall a b c d, in_width 8 a -> in_width 8 b -> in_width 8 c -> in_width 8 d ->
    word a b c d = Z.lxor d (Z.lxor (Z.shiftl c 8) (Z.lxor (Z.shiftl b 16) (Z.shiftl a 24)))).
  { clear. intros a b c d Ha Hb Hc Hd. rewrite word_sum by done. rewrite !Z.shiftl_mul_pow2 by lia. unfold in_width in *.
    rewrite <- !Z.lxor_assoc. rewrite (lxor_disjoint 8), (lxor_disjoint 16), (lxor_disjoint 24) by lia. lia. }
  intros. rewrite !D by (done || by apply in_width_lxor). rewrite !Z.shiftl_lxor. xor_ac.
Qed.

End AesWords.

(** ** GF(2^8) and the tables *)

Module AesField.
Import AesTables Aes Fips197 AesWords.

Lemma xtime_lxor x y : xtime (Z.lxor x y) = Z.lxor (xtime x) (xtime y).
Proof.
  unfold xtime. rewrite Z.shiftl_lxor, Z.lxor_spec.
  destruct (Z.testbit x 7), (Z.testbit y 7); cbn [xorb]; rewrite ?Z.lxor_0_r; xor_ac.
Qed.

Lemma gmulBits_lxor n : forall a x y, gmulBits n a (Z.lxor x y) = Z.lxor (gmulBits n a x) (gmulBits n a y).
Proof.
  induction n as [|n IH]; intros a x y; [done|]. cbn [gmulBits]. rewrite xtime_lxor, IH.
  destruct (Z.odd a); rewrite ?Z.lxor_0_l; xor_ac.
Qed.

Lemma gmul_lxor k x y : gmul k (Z.lxor x y) = Z.lxor (gmul k x) (gmul k y).
Proof. apply gmulBits_lxor. Qed.

Lemma xtime_ok x : in_width 8 x -> in_width 8 (xtime x).
Proof. revert x. apply byte_width. by vm_compute. Qed.

Lemma gmulBits_ok n : forall a x, in_width 8 x -> in_width 8 (gmulBits n a x).
Proof.
  induction n as [|n IH]; intros a x H; cbn [gmulBits]; [unfold in_width; lia|].
  apply in_width_lxor; [lia| |by apply IH, xtime_ok]. destruct (Z.odd a); [done|unfold in_width; lia].
Qed.

Lemma gmul_ok k x : in_width 8 x -> in_width 8 (gmul k x).
Proof. apply gmulBits_ok. Qed.

Lemma mix_ok a b c d : in_width 8 a -> in_width 8 b -> in_width 8 c -> in_width 8 d -> in_width 8 (mix a b c d).
Proof. intros. unfold mix. repeat simple apply in_width_lxor; try lia; eauto using gmul_ok. Qed.

Lemma invMix_ok a b c d : in_width 8 a -> in_width 8 b -> in_width 8 c -> in_width 8 d -> in_width 8 (invMix a b c d).
Proof. intros. unfold invMix. repeat simple apply in_width_lxor; try lia; eauto using gmul_ok. Qed.

Lemma invMix_lxor a b c d a' b' c' d' :
  invMix (Z.lxor a a') (Z.lxor b b') (Z.lxor c c') (Z.lxor d d') = Z.lxor (invMix a b c d) (invMix a' b' c' d').
Proof. unfold invMix. rewrite !gmul_lxor. xor_ac. Qed.

(** The products of the two matrices, for one coefficient: the diagonal, and the
    three places beside it. *)
Definition diagonal (x : Z) : bool :=
  gmul 14 (gmul 2 x) =? Z.lxor x (Z.lxor (gmul 11 x) (Z.lxor (gmul 13 x) (gmul 9 (gmul 3 x)))).
Definition beside (x : Z) : bool :=
  (gmul 14 (gmul 3 x) =? Z.lxor (gmul 11 (gmul 2 x)) (Z.lxor (gmul 13 x) (gmul 9 x)))
  && (gmul 11 (gmul 3 x) =? Z.lxor (gmul 14 x) (Z.lxor (gmul 13 (gmul 2 x)) (gmul 9 x)))
  && (gmul 13 (gmul 3 x) =? Z.lxor (gmul 14 x) (Z.lxor (gmul 11 x) (gmul 9 (gmul 2 x)))).

Lemma invMix_mix a b c d : in_width 8 a -> in_width 8 b -> in_width 8 c -> in_width 8 d ->
  invMix (mix a b c d) (mix b c d a) (mix c d a b) (mix d a b c) = a.
Proof.
  intros Ha Hb Hc Hd.
  assert (Ea : diagonal a = true) by (revert a Ha; apply byte_forall; by vm_compute).
  assert (B : forall x, in_width 8 x -> beside x = true) by (apply byte_forall; by vm_compute).
  pose proof (B b Hb) as Eb. pose proof (B c Hc) as Ec. pose proof (B d Hd) as Ed. clear B.
  unfold diagonal, beside in *. rewrite !andb_true_iff, !Z.eqb_eq in *.
  unfold invMix, mix. rewrite !gmul_lxor. rewrite Ea, (proj1 (proj1 Eb)), (proj2 (proj1 Ec)), (proj2 Ed). xor_ac.
Qed.

(** *** What the tables hold *)

Lemma sbox_ok x : in_width 8 x -> in_width 8 (sbox x).
Proof. revert x. apply byte_width. by vm_compute. Qed.

Lemma invSbox_ok x : in_width 8 x -> in_width 8 (invSbox x).
Proof. revert x. apply byte_width. by vm_compute. Qed.

Lemma invSbox_sbox x : in_width 8 x -> invSbox (sbox x) = x.
Proof. revert x. apply byte_eq. by vm_compute. Qed.

Lemma sbox0_spec x : in_width 8 x -> tab sbox0 x = sbox x.
Proof. revert x. apply byte_eq. by vm_compute. Qed.

Lemma sbox1_spec x : in_width 8 x -> tab sbox1 x = invSbox x.
Proof. revert x. apply byte_eq. by vm_compute. Qed.

(** The four entries of [x] in the tables of a direction are the four columns of
    its matrix, times [s]. *)
Definition te_entries (x : Z) : bool :=
  let s := sbox x in let s2 := gmul 2 s in let s3 := gmul 3 s in
  (tab te0 x =? word s2 s s s3) && (tab te1 x =? word s3 s2 s s)
  && (tab te2 x =? word s s3 s2 s) && (tab te3 x =? word s s s3 s2).
Definition td_entries (x : Z) : bool :=
  let s := invSbox x in
  let e := gmul 14 s in let b := gmul 11 s in let d := gmul 13 s in let n := gmul 9 s in
  (tab td0 x =? word e n d b) && (tab td1 x =? word b e n d)
  && (tab td2 x =? word d b e n) && (tab td3 x =? word n d b e).

Lemma te_spec x : in_width 8 x -> te_entries x = true.
Proof. apply byte_forall. by vm_compute. Qed.

Lemma td_spec x : in_width 8 x -> td_entries x = true.
Proof. apply byte_forall. by vm_compute. Qed.

Ltac entries H := unfold te_entries, td_entries in H; rewrite !andb_true_iff, !Z.eqb_eq in H; destruct H as [[[? ?] ?] ?].

Ltac bytes := auto using sbox_ok, invSbox_ok, gmul_ok, mix_ok, invMix_ok, in_width_lxor with lia.

(** The entries of four bytes together are a mixed column. *)
Lemma te_column a b c d : in_width 8 a -> in_width 8 b -> in_width 8 c -> in_width 8 d ->
  Z.lxor (Z.lxor (Z.lxor (tab te0 a) (tab te1 b)) (tab te2 c)) (tab te3 d)
  = let a := sbox a in let b := sbox b in let c := sbox c in let d := sbox d in
    word (mix a b c d) (mix b c d a) (mix c d a b) (mix d a b c).
Proof.
  intros Ha Hb Hc Hd. cbv zeta.
  pose proof (te_spec a Ha) as Ea. pose proof (te_spec b Hb) as Eb.
  pose proof (te_spec c Hc) as Ec. pose proof (te_spec d Hd) as Ed.
  entries Ea. entries Eb. entries Ec. entries Ed.
  replace (tab te0 a) with (word (gmul 2 (sbox a)) (sbox a) (sbox a) (gmul 3 (sbox a))) by congruence.
  replace (tab te1 b) with (word (gmul 3 (sbox b)) (gmul 2 (sbox b)) (sbox b) (sbox b)) by congruence.
  replace (tab te2 c) with (word (sbox c) (gmul 3 (sbox c)) (gmul 2 (sbox c)) (sbox c)) by congruence.
  replace (tab te3 d) with (word (sbox d) (sbox d) (gmul 3 (sbox d)) (gmul 2 (sbox d))) by congruence.
  rewrite !word_lxor by (repeat simple apply in_width_lxor; try lia; bytes).
  unfold mix. apply word_ext; xor_ac.
Qed.

Lemma td_column a b c d : in_width 8 a -> in_width 8 b -> in_width 8 c -> in_width 8 d ->
  Z.lxor (Z.lxor (Z.lxor (tab td0 a) (tab td1 b)) (tab td2 c)) (tab td3 d)
  = let a := invSbox a in let b := invSbox b in let c := invSbox c in let d := invSbox d in
    word (invMix a b c d) (invMix b c d a) (invMix c d a b) (invMix d a b c).
Proof.
  intros Ha Hb Hc Hd. cbv zeta.
  pose proof (td_spec a Ha) as Ea. pose proof (td_spec b Hb) as Eb.
  pose proof (td_spec c Hc) as Ec. pose proof (td_spec d Hd) as Ed.
  entries Ea. entries Eb. entries Ec. entries Ed.
  replace (tab td0 a) with (word (gmul 14 (invSbox a)) (gmul 9 (invSbox a)) (gmul 13 (invSbox a)) (gmul 11 (invSbox a))) by congruence.
  replace (tab td1 b) with (word (gmul 11 (invSbox b)) (gmul 14 (invSbox b)) (gmul 9 (invSbox b)) (gmul 13 (invSbox b))) by congruence.
  replace (tab td2 c) with (word (gmul 13 (invSbox c)) (gmul 11 (invSbox c)) (gmul 14 (invSbox c)) (gmul 9 (invSbox c))) by congruence.
  replace (tab td3 d) with (word (gmul 9 (invSbox d)) (gmul 13 (invSbox d)) (gmul 11 (invSbox d)) (gmul 14 (invSbox d))) by congruence.
  rewrite !word_lxor by (repeat simple apply in_width_lxor; try lia; bytes).
  unfold invMix. apply word_ext; xor_ac.
Qed.

End AesField.

(** ** Rounds on words and on bytes *)

Module AesRounds.
Import AesTables Aes Fips197 AesWords AesField.

Definition block_ok (st : list Z) : Prop := length st = 16%nat /\ bytes_ok st.
Definition word_ok (w : list Z) : Prop := length w = 4%nat /\ bytes_ok w.

Definition packw (w : list Z) : Z := match w with [a; b; c; d] => word a b c d | _ => 0 end.
Definition pack (st : list Z) : words :=
  mkW (packw (take 4 st)) (packw (take 4 (drop 4 st))) (packw (take 4 (drop 8 st))) (packw (take 4 (drop 12 st))).

Ltac cut_block st H :=
  let L := fresh "L" in let B := fresh "B" in
  destruct H as [L B]; do 16 (destruct st as [|? st]; [discriminate L|]);
  destruct st; [|discriminate L]; clear L; in_bytes; clear B.
Ltac cut_word w H :=
  let L := fresh "L" in let B := fresh "B" in
  destruct H as [L B]; do 4 (destruct w as [|? w]; [discriminate L|]);
  destruct w; [|discriminate L]; clear L; in_bytes; clear B.
Ltac all_bytes := repeat (first [apply Forall_nil_2 | apply Forall_cons_2]); bytes.
Ltac symbolic := lazy -[word mix invMix sbox invSbox Z.lxor].

Lemma lxor_key k a b c d :
  Z.lxor (Z.lxor (Z.lxor (Z.lxor k a) b) c) d = Z.lxor k (Z.lxor (Z.lxor (Z.lxor a b) c) d).
Proof. xor_ac. Qed.

Section Mix.
Context (k0 k1 k2 k3 a a1 a2 a3 b0 b b2 b3 c0 c1 c c3 d0 d1 d2 d : Z).
Context (H : bytes_ok [k0; k1; k2; k3; a; a1; a2; a3; b0; b; b2; b3; c0; c1; c; c3; d0; d1; d2; d]).

Lemma mixWord_te :
  mixWord te0 te1 te2 te3 (word k0 k1 k2 k3) (word a a1 a2 a3) (word b0 b b2 b3) (word c0 c1 c c3) (word d0 d1 d2 d)
  = let a := sbox a in let b := sbox b in let c := sbox c in let d := sbox d in
    word (Z.lxor (mix a b c d) k0) (Z.lxor (mix b c d a) k1) (Z.lxor (mix c d a b) k2) (Z.lxor (mix d a b c) k3).
Proof using All.
  in_bytes. unfold mixWord. rewrite word_byte3, word_byte2, word_byte1, word_byte0 by done.
  rewrite lxor_key.
  rewrite (u8_small a) by (unfold in_width in *; lia).
  rewrite te_column by done. cbv zeta. rewrite word_lxor by bytes. apply word_ext; apply Z.lxor_comm.
Qed.

Lemma mixWord_td :
  mixWord td0 td1 td2 td3 (word k0 k1 k2 k3) (word a a1 a2 a3) (word b0 b b2 b3) (word c0 c1 c c3) (word d0 d1 d2 d)
  = let a := invSbox a in let b := invSbox b in let c := invSbox c in let d := invSbox d in
    word (Z.lxor (invMix a b c d) k0) (Z.lxor (invMix b c d a) k1) (Z.lxor (invMix c d a b) k2) (Z.lxor (invMix d a b c) k3).
Proof using All.
  in_bytes. unfold mixWord. rewrite word_byte3, word_byte2, word_byte1, word_byte0 by done.
  rewrite lxor_key.
  rewrite (u8_small a) by (unfold in_width in *; lia).
  rewrite td_column by done. cbv zeta. rewrite word_lxor by bytes. apply word_ext; apply Z.lxor_comm.
Qed.

Lemma subWord_bytes t :
  subWord t (word a a1 a2 a3) (word b0 b b2 b3) (word c0 c1 c c3) (word d0 d1 d2 d)
  = word (tab t a) (tab t b) (tab t c) (tab t d).
Proof using All.
  in_bytes. unfold subWord. rewrite !land_ff. rewrite word_byte3, word_byte2, word_byte1, word_byte0 by done. done.
Qed.

End Mix.

(** *** The steps keep blocks *)

Lemma block_cells f : (forall r c, in_width 8 (f r c)) -> block_ok (cells f).
Proof. intros Hf. split; [done|]. apply Forall_fmap, Forall_forall. intros i _. apply Hf. Qed.

Lemma cell_ok st r c : block_ok st -> in_width 8 (cell st r c).
Proof.
  intros [_ B]. unfold cell. destruct (nth_in_or_default (r mod 4 + 4 * (c mod 4)) st 0) as [Hin| ->].
  - apply (proj1 (Forall_forall _ _) B), list_elem_of_In, Hin.
  - unfold in_width. lia.
Qed.

Lemma block_SubBytes st : block_ok st -> block_ok (SubBytes st).
Proof.
  intros [L B]. split; [unfold SubBytes; by rewrite length_fmap|].
  apply Forall_fmap. eapply Forall_impl; [exact B|]. intros x Hx. by apply sbox_ok.
Qed.
Lemma block_ShiftRows st : block_ok st -> block_ok (ShiftRows st).
Proof. intros H. apply block_cells. intros. by apply cell_ok. Qed.
Lemma block_MixColumns st : block_ok st -> block_ok (MixColumns st).
Proof. intros H. apply block_cells. intros. apply mix_ok; by apply cell_ok. Qed.
Lemma block_AddRoundKey st k : block_ok st -> block_ok k -> block_ok (AddRoundKey st k).
Proof.
  intros [L B] [L' B']. split; [unfold AddRoundKey; rewrite length_zip_with; lia|].
  eapply Forall_zip_with_fst; [exact B|]. eapply Forall_impl; [exact B'|].
  intros y Hy x Hx. apply in_width_lxor; [lia|done|done].
Qed.

(** *** A round *)

Definition key_at (xk : list Z) (k : nat) (rk : list Z) : Prop :=
  index xk (k + 0) = Ok (packw (take 4 rk)) /\ index xk (k + 1) = Ok (packw (take 4 (drop 4 rk)))
  /\ index xk (k + 2) = Ok (packw (take 4 (drop 8 rk))) /\ index xk (k + 3) = Ok (packw (take 4 (drop 12 rk))).

Ltac open_round Hk st Hst rk Hrk :=
  let E0 := fresh in let E1 := fresh in let E2 := fresh in let E3 := fresh in
  destruct Hk as (E0 & E1 & E2 & E3); rewrite E0, E1, E2, E3; clear E0 E1 E2 E3;
  cut_block st Hst; cut_block rk Hrk; cbn [mbind res_bind]; f_equal;
  cbn [pack packw take drop w0 w1 w2 w3].

Lemma xorKey_spec xk k rk st : key_at xk k rk -> block_ok rk -> block_ok st ->
  xorKey xk k (pack st) = Ok (pack (AddRoundKey st rk)).
Proof.
  intros Hk Hrk Hst. unfold xorKey. open_round Hk st Hst rk Hrk. rewrite !word_lxor by done. reflexivity.
Qed.

Lemma encRound_spec xk k rk st : key_at xk k rk -> block_ok rk -> block_ok st ->
  encRound xk k (pack st) = Ok (pack (encStep st rk)).
Proof.
  intros Hk Hrk Hst. unfold encRound. open_round Hk st Hst rk Hrk.
  rewrite !mixWord_te by all_bytes. symbolic. reflexivity.
Qed.

Lemma decRound_spec xk k rk st : key_at xk k rk -> block_ok rk -> block_ok st ->
  decRound xk k (pack st) = Ok (pack (decStep st rk)).
Proof.
  intros Hk Hrk Hst. unfold decRound. open_round Hk st Hst rk Hrk.
  rewrite !mixWord_td by all_bytes. symbolic. reflexivity.
Qed.

Lemma loadBlock_spec src : (16 <= length src)%nat -> loadBlock src = Ok (pack (take 16 src)).
Proof. intros L. do 16 (destruct src as [|? src]; [cbn in L; lia|]). reflexivity. Qed.

Lemma storeBlock_spec dst st : (16 <= length dst)%nat -> block_ok st -> storeBlock dst (pack st) = Ok (st ++ drop 16 dst).
Proof.
  intros L Hst. unfold storeBlock. rewrite (proj2 (Nat.ltb_ge _ _)) by lia. cut_block st Hst.
  cbn [pack packw take drop w0 w1 w2 w3]. rewrite !word_bytes by done. reflexivity.
Qed.

Lemma encLast_spec st : block_ok st ->
  let t := pack st in
  mkW (subWord sbox0 t.(w0) t.(w1) t.(w2) t.(w3)) (subWord sbox0 t.(w1) t.(w2) t.(w3) t.(w0))
      (subWord sbox0 t.(w2) t.(w3) t.(w0) t.(w1)) (subWord sbox0 t.(w3) t.(w0) t.(w1) t.(w2))
  = pack (ShiftRows (SubBytes st)).
Proof.
  intros Hst. cut_block st Hst. cbn [pack packw take drop w0 w1 w2 w3].
  rewrite !(subWord_bytes 0 0 0 0) by (all_bytes; unfold in_width; lia).
  rewrite !sbox0_spec by done. symbolic. reflexivity.
Qed.

Lemma decLast_spec st : block_ok st ->
  let t := pack st in
  mkW (subWord sbox1 t.(w0) t.(w3) t.(w2) t.(w1)) (subWord sbox1 t.(w1) t.(w0) t.(w3) t.(w2))
      (subWord sbox1 t.(w2) t.(w1) t.(w0) t.(w3)) (subWord sbox1 t.(w3) t.(w2) t.(w1) t.(w0))
  = pack (InvShiftRows (InvSubBytes st)).
Proof.
  intros Hst. cut_block st Hst. cbn [pack packw take drop w0 w1 w2 w3].
  rewrite !(subWord_bytes 0 0 0 0) by (all_bytes; unfold in_width; lia).
  rewrite !sbox1_spec by done. symbolic. reflexivity.
Qed.

Lemma block_InvSubBytes st : block_ok st -> block_ok (InvSubBytes st).
Proof.
  intros [L B]. split; [unfold InvSubBytes; by rewrite length_fmap|].
  apply Forall_fmap. eapply Forall_impl; [exact B|]. intros x Hx. by apply invSbox_ok.
Qed.
Lemma block_InvShiftRows st : block_ok st -> block_ok (InvShiftRows st).
Proof. intros H. apply block_cells. intros. by apply cell_ok. Qed.
Lemma block_InvMixColumns st : block_ok st -> block_ok (InvMixColumns st).
Proof. intros H. apply block_cells. intros. apply invMix_ok; by apply cell_ok. Qed.

Lemma block_encStep st k : block_ok st -> block_ok k -> block_ok (encStep st k).
Proof. intros. by apply block_AddRoundKey; [apply block_MixColumns, block_ShiftRows, block_SubBytes|]. Qed.
Lemma block_decStep st k : block_ok st -> block_ok k -> block_ok (decStep st k).
Proof. intros. by apply block_AddRoundKey; [apply block_InvMixColumns, block_InvShiftRows, block_InvSubBytes|]. Qed.

(** *** All rounds *)

Section Keys.
Context (xk : list Z) (nr : nat) (rk : nat -> list Z).
Context (Hkeys : forall r, (r <= nr)%nat -> key_at xk (4 * r) (rk r) /\ block_ok (rk r)).

Lemma block_rounds step n : (forall st k, block_ok st -> block_ok k -> block_ok (step st k)) ->
  forall r st, (r + n <= nr + 1)%nat -> block_ok st -> block_ok (rounds step n r rk st).
Proof using Hkeys.
  intros Hstep. induction n as [|n IH]; intros r st Hr Hst; [done|]. cbn [rounds]. apply IH; [lia|].
  apply Hstep; [done|]. apply Hkeys. lia.
Qed.

Lemma roundLoop_spec round step :
  (forall st k, block_ok st -> block_ok k -> block_ok (step st k)) ->
  (forall k r st, key_at xk k r -> block_ok r -> block_ok st -> round k (pack st) = Ok (pack (step st r))) ->
  forall n r st t, (r + S n <= nr)%nat -> block_ok st ->
  roundLoop round (S n) (4 * r) (pack st) t = Ok (4 * (r + S n), pack (rounds step (S n) r rk st))%nat.
Proof using Hkeys.
  intros Hok Hround n. induction n as [|n IH]; intros r st t Hr Hst.
  - cbn [roundLoop]. rewrite (Hround _ (rk r)) by (try done; apply Hkeys; lia). cbn [mbind res_bind rounds].
    do 2 f_equal. lia.
  - remember (S n) as m. cbn [roundLoop]. rewrite (Hround _ (rk r)) by (try done; apply Hkeys; lia).
    cbn [mbind res_bind rounds]. subst m.
    replace (4 * r + 4)%nat with (4 * S r)%nat by lia.
    rewrite IH; [do 2 f_equal; lia|lia|]. apply Hok; [done|]. apply Hkeys. lia.
Qed.

Context (Hnr : (2 <= nr)%nat) (Hlen : length xk = (4 * (nr + 1))%nat).

Lemma loop_length : (length xk / 4 - 2 = S (nr - 2))%nat.
Proof using Hlen Hnr. rewrite Hlen, Nat.mul_comm, Nat.div_mul by lia. lia. Qed.

Lemma encryptBlockGo_spec dst src :
  (16 <= length dst)%nat -> (16 <= length src)%nat -> bytes_ok (take 16 src) ->
  encryptBlockGo xk dst src = Ok (CipherWith nr rk (take 16 src) ++ drop 16 dst)
  /\ block_ok (CipherWith nr rk (take 16 src)).
Proof using All.
  intros Ld Ls Bs. assert (Hb : block_ok (take 16 src)).
  { split; [rewrite length_take; lia|done]. }
  destruct (Hkeys 0) as [K0 R0]; [lia|]. destruct (Hkeys nr) as [Kn Rn]; [lia|].
  pose proof (block_AddRoundKey _ _ Hb R0) as H0.
  pose proof (block_rounds encStep (nr - 1) block_encStep 1 _ ltac:(lia) H0) as H1.
  assert (H2 : block_ok (CipherWith nr rk (take 16 src))).
  { apply block_AddRoundKey; [|done]. by apply block_ShiftRows, block_SubBytes. }
  split; [|done]. unfold encryptBlockGo. rewrite loadBlock_spec by done. cbn [mbind res_bind].
  rewrite (xorKey_spec _ _ (rk 0%nat)) by done. cbn [mbind res_bind]. rewrite loop_length. change 4%nat with (4 * 1)%nat at 1.
  rewrite (roundLoop_spec _ encStep block_encStep (encRound_spec xk)) by (done || lia). cbn [mbind res_bind].
  replace (S (nr - 2)) with (nr - 1)%nat in * by lia. rewrite encLast_spec by done.
  replace (1 + (nr - 1))%nat with nr by lia.
  rewrite (xorKey_spec _ _ (rk nr)); [|done|done|by apply block_ShiftRows, block_SubBytes].
  cbn [mbind res_bind]. by apply storeBlock_spec.
Qed.

Lemma decryptBlockGo_spec dst src :
  (16 <= length dst)%nat -> (16 <= length src)%nat -> bytes_ok (take 16 src) ->
  decryptBlockGo xk dst src = Ok (EqInvCipherWith nr rk (take 16 src) ++ drop 16 dst).
Proof using All.
  intros Ld Ls Bs. assert (Hb : block_ok (take 16 src)).
  { split; [rewrite length_take; lia|done]. }
  destruct (Hkeys 0) as [K0 R0]; [lia|]. destruct (Hkeys nr) as [Kn Rn]; [lia|].
  pose proof (block_AddRoundKey _ _ Hb R0) as H0.
  pose proof (block_rounds decStep (nr - 1) block_decStep 1 _ ltac:(lia) H0) as H1.
  unfold decryptBlockGo. rewrite loadBlock_spec by done. cbn [mbind res_bind].
  rewrite (xorKey_spec _ _ (rk 0%nat)) by done. cbn [mbind res_bind]. rewrite loop_length. change 4%nat with (4 * 1)%nat at 1.
  rewrite (roundLoop_spec _ decStep block_decStep (decRound_spec xk)) by (done || lia). cbn [mbind res_bind].
  replace (S (nr - 2)) with (nr - 1)%nat in * by lia. rewrite decLast_spec by done.
  replace (1 + (nr - 1))%nat with nr by lia.
  rewrite (xorKey_spec _ _ (rk nr)); [|done|done|by apply block_InvShiftRows, block_InvSubBytes].
  cbn [mbind res_bind]. apply storeBlock_spec; [done|].
  apply block_AddRoundKey; [|done]. by apply block_InvShiftRows, block_InvSubBytes.
Qed.

End Keys.

End AesRounds.

(** ** The equivalent inverse cipher inverts the cipher *)

Module AesInverse.
Import Fips197 AesWords AesField AesRounds.

Lemma unsub st : block_ok st -> InvShiftRows (InvSubBytes (ShiftRows (SubBytes st))) = st.
Proof. intros H. cut_block st H. symbolic. by rewrite !invSbox_sbox by done. Qed.

Lemma unmix st : block_ok st -> InvMixColumns (MixColumns st) = st.
Proof. intros H. cut_block st H. symbolic. by rewrite !invMix_mix by done. Qed.

Lemma InvMixColumns_xor st k : block_ok st -> block_ok k ->
  InvMixColumns (AddRoundKey st k) = AddRoundKey (InvMixColumns st) (InvMixColumns k).
Proof. intros H Hk. cut_block st H. cut_block k Hk. symbolic. by rewrite !invMix_lxor. Qed.

Lemma AddRoundKey_twice st k : block_ok st -> block_ok k -> AddRoundKey (AddRoundKey st k) k = st.
Proof.
  intros H Hk. cut_block st H. cut_block k Hk. symbolic.
  rewrite !Z.lxor_assoc, !Z.lxor_nilpotent, !Z.lxor_0_r. done.
Qed.

Lemma rounds_snoc step rk n : forall r st,
  rounds step (S n) r rk st = step (rounds step n r rk st) (rk (r + n)%nat).
Proof.
  induction n as [|n IH]; intros r st; [cbn; by rewrite Nat.add_0_r|].
  change (rounds step (S (S n)) r rk st) with (rounds step (S n) (S r) rk (step st (rk r))).
  rewrite IH. cbn [rounds]. by replace (S r + n)%nat with (r + S n)%nat by lia.
Qed.

Section Inverse.
Context (nr : nat) (rk dk : nat -> list Z) (Hnr : (1 <= nr)%nat).
Context (Hrk : forall r, (r <= nr)%nat -> block_ok (rk r)).
Context (Hfirst : dk 0%nat = rk nr) (Hlast : dk nr = rk 0%nat).
Context (Hmiddle : forall r, (0 < r < nr)%nat -> dk r = InvMixColumns (rk (nr - r)%nat)).
Context (block : list Z) (Hblock : block_ok block).

(** The state before round [n + 1]. *)
Definition state (n : nat) : list Z := rounds encStep n 1 rk (AddRoundKey block (rk 0%nat)).

Lemma block_state n : (n <= nr)%nat -> block_ok (state n).
Proof using Hnr Hrk Hblock.
  induction n as [|n IH]; intros Hn; unfold state; [by apply block_AddRoundKey; [|apply Hrk; lia]|].
  rewrite rounds_snoc. apply block_encStep; [apply IH; lia|apply Hrk; lia].
Qed.

Lemma backwards i : (i < nr)%nat ->
  rounds decStep i 1 dk (AddRoundKey (CipherWith nr rk block) (dk 0%nat)) = ShiftRows (SubBytes (state (nr - 1 - i))).
Proof using All.
  induction i as [|i IH]; intros Hi.
  - cbn [rounds]. rewrite Hfirst. unfold CipherWith. rewrite AddRoundKey_twice.
    + by rewrite Nat.sub_0_r.
    + apply block_ShiftRows, block_SubBytes. apply block_state. lia.
    + apply Hrk. lia.
  - rewrite rounds_snoc, IH by lia. rewrite Hmiddle by lia. unfold decStep.
    rewrite unsub by (apply block_state; lia).
    replace (nr - 1 - i)%nat with (S (nr - 1 - S i)) by lia.
    replace (nr - (1 + i))%nat with (1 + (nr - 1 - S i))%nat by lia.
    assert (S1 : block_ok (state (nr - 1 - S i))) by (apply block_state; lia).
    assert (K1 : block_ok (rk (1 + (nr - 1 - S i))%nat)) by (apply Hrk; lia).
    unfold state at 1. rewrite rounds_snoc. fold (state (nr - 1 - S i)).
    assert (M : block_ok (MixColumns (ShiftRows (SubBytes (state (nr - 1 - S i)))))).
    { by apply block_MixColumns, block_ShiftRows, block_SubBytes. }
    unfold encStep. rewrite InvMixColumns_xor by done.
    rewrite AddRoundKey_twice; [|by apply block_InvMixColumns|by apply block_InvMixColumns].
    apply unmix. by apply block_ShiftRows, block_SubBytes.
Qed.

Lemma inverse_cipher : EqInvCipherWith nr dk (CipherWith nr rk block) = block.
Proof using All.
  unfold EqInvCipherWith. rewrite backwards by lia. rewrite Hlast.
  replace (nr - 1 - (nr - 1))%nat with 0%nat by lia. rewrite unsub by (apply block_state; lia).
  apply AddRoundKey_twice; [done|]. apply Hrk. lia.
Qed.

End Inverse.

End AesInverse.

(** ** The key schedule *)

Module AesKeys.
Import AesTables Aes Fips197 AesWords AesField AesRounds.

Lemma packw_lxor x y : word_ok x -> word_ok y -> Z.lxor (packw x) (packw y) = packw (zip_with Z.lxor x y).
Proof. intros Hx Hy. cut_word x Hx. cut_word y Hy. by apply word_lxor. Qed.

Lemma packw_subw x : word_ok x -> subw (packw x) = packw (SubWord x).
Proof.
  intros Hx. cut_word x Hx. cbn [packw]. unfold subw. rewrite (subWord_bytes 0 0 0 0) by (all_bytes; unfold in_width; lia).
  rewrite !sbox0_spec by done. symbolic. reflexivity.
Qed.

Lemma packw_rotw x : word_ok x -> rotw (packw x) = packw (RotWord x).
Proof. intros Hx. cut_word x Hx. by apply word_rotw. Qed.

Lemma powx_spec i : (i < 16)%nat -> exists p, index powx i = Ok p /\ Z.shiftl p 24 = packw (Rcon (S i)) /\ word_ok (Rcon (S i)).
Proof.
  intros Hi.
  do 16 (destruct i as [|i];
    [eexists; split; [reflexivity|]; split; [by vm_compute|]; split; [done|]; apply (bool_decide_unpack _); by vm_compute|]).
  lia.
Qed.

Lemma word_zip x y : word_ok x -> word_ok y -> word_ok (zip_with Z.lxor x y).
Proof.
  intros Hx Hy. cut_word x Hx. cut_word y Hy. split; [done|]. repeat (apply Forall_cons_2; [bytes|]). by apply Forall_nil_2.
Qed.
Lemma word_SubWord x : word_ok x -> word_ok (SubWord x).
Proof.
  intros Hx. cut_word x Hx. split; [done|]. repeat (apply Forall_cons_2; [bytes|]). by apply Forall_nil_2.
Qed.
Lemma word_RotWord x : word_ok x -> word_ok (RotWord x).
Proof. intros Hx. cut_word x Hx. split; [done|]. repeat (apply Forall_cons_2; [bytes|]). by apply Forall_nil_2. Qed.

(** A slice of [length w + m] words of which the first are those of [w]. *)
Definition filled (w : list (list Z)) (m : nat) : list Z := (packw <$> w) ++ replicate m 0.

Lemma length_filled w m : length (filled w m) = (length w + m)%nat.
Proof. unfold filled. by rewrite length_app, length_fmap, length_replicate. Qed.

Lemma index_filled w m j x : w !! j = Some x -> index (filled w m) j = Ok (packw x).
Proof.
  intros Hx. unfold index, filled. rewrite lookup_app_l by (rewrite length_fmap; by eapply lookup_lt_Some).
  by rewrite list_lookup_fmap, Hx.
Qed.

Lemma set_filled w m x : setIndex (filled w (S m)) (length w) (packw x) = Ok (filled (w ++ [x]) m).
Proof.
  unfold setIndex. rewrite length_filled, (proj2 (Nat.ltb_lt _ _)) by lia. f_equal. unfold filled.
  rewrite <- (length_fmap packw w) at 1. rewrite insert_app_r_alt by lia. rewrite Nat.sub_diag. cbn [replicate insert list_insert].
  rewrite fmap_app, <- app_assoc. done.
Qed.

Lemma load_spec key i : (i + 4 <= length key)%nat -> load key i = Ok (packw (take 4 (drop i key))).
Proof.
  intros H. unfold load, index. rewrite <- (Nat.add_0_r i) at 1. rewrite <- !lookup_drop.
  pose proof (length_drop key i) as L. destruct (drop i key) as [|a [|b [|c [|d l]]]]; cbn [length] in L; try lia. done.
Qed.

Lemma keyWords_spec key n : forall w m, (4 * (length w + n) <= length key)%nat ->
  keyWords n (length w) key (filled w (n + m)) = Ok (filled (w ++ chunk4 n (drop (4 * length w) key)) m).
Proof.
  induction n as [|n IH]; intros w m H; cbn [keyWords chunk4 Nat.add]; [by rewrite app_nil_r|].
  rewrite load_spec by lia. cbn [mbind res_bind]. rewrite set_filled. cbn [mbind res_bind].
  replace (S (length w)) with (length (w ++ [take 4 (drop (4 * length w) key)])) by (rewrite length_app; cbn; lia).
  rewrite IH by (rewrite length_app; cbn [length]; lia). rewrite drop_drop, length_app, <- app_assoc. cbn [length app].
  by replace (4 * (length w + 1))%nat with (4 * length w + 4)%nat by lia.
Qed.

Lemma chunk4_ok n : forall key, (4 * n <= length key)%nat -> bytes_ok key ->
  length (chunk4 n key) = n /\ Forall word_ok (chunk4 n key).
Proof.
  induction n as [|n IH]; intros key L B; [done|]. cbn [chunk4 length].
  destruct (IH (drop 4 key)) as [L' B']; [rewrite length_drop; lia|by apply Forall_drop|].
  split; [by rewrite L'|]. constructor; [|done]. split; [rewrite length_take; lia|by apply Forall_take].
Qed.

Section Expand.
Context (nk : nat) (Hnk : (0 < nk)%nat).

Lemma nth_word w j : Forall word_ok w -> (j < length w)%nat -> w !! j = Some (nth j w []) /\ word_ok (nth j w []).
Proof.
  intros B Hj. destruct (lookup_lt_is_Some_2 w j Hj) as [x Hx]. rewrite (nth_lookup_Some w j [] x Hx). split; [done|].
  by eapply Forall_lookup_1.
Qed.

Lemma expandStep_spec w m : Forall word_ok w -> (nk <= length w < 16 * nk)%nat ->
  expandStep nk (length w) (filled w (S m)) = Ok (filled (w ++ [nextWord nk w]) m) /\ word_ok (nextWord nk w).
Proof using Hnk.
  intros B Hw. unfold expandStep, nextWord. rewrite (proj2 (Nat.eqb_neq nk 0)) by lia.
  destruct (nth_word w (length w - 1) B) as [E1 W1]; [lia|].
  destruct (nth_word w (length w - nk) B) as [E2 W2]; [lia|].
  rewrite (index_filled _ _ _ _ E1). cbn [mbind res_bind]. rewrite (index_filled _ _ _ _ E2).
  assert (D : (0 < length w / nk < 16)%nat).
  { split; [apply Nat.div_str_pos; lia|apply Nat.Div0.div_lt_upper_bound; lia]. }
  destruct (powx_spec (length w / nk - 1)) as (p & Ep & Es & Wp); [lia|].
  replace (S (length w / nk - 1)) with (length w / nk)%nat in * by lia.
  destruct (Nat.eqb_spec (length w mod nk) 0); [|destruct ((6 <? nk)%nat && (length w mod nk =? 4)%nat)];
    rewrite ?Ep; cbn [mbind res_bind].
  - rewrite packw_rotw, packw_subw, Es, packw_lxor by auto 9 using word_RotWord, word_SubWord.
    rewrite packw_lxor by auto 9 using word_RotWord, word_SubWord, word_zip.
    rewrite set_filled. auto 9 using word_RotWord, word_SubWord, word_zip.
  - rewrite packw_subw, packw_lxor by auto using word_SubWord. rewrite set_filled. auto using word_SubWord, word_zip.
  - rewrite packw_lxor by done. rewrite set_filled. auto using word_zip.
Qed.

Lemma expandLoop_spec n : forall w m, Forall word_ok w -> (nk <= length w)%nat -> (length w + n <= 16 * nk)%nat ->
  expandLoop n nk (length w) (filled w (n + m)) = Ok (filled (expandWords n nk w) m)
  /\ Forall word_ok (expandWords n nk w) /\ length (expandWords n nk w) = (length w + n)%nat.
Proof using Hnk.
  induction n as [|n IH]; intros w m B H1 H2; cbn [expandLoop expandWords Nat.add]; [by rewrite Nat.add_0_r|].
  destruct (expandStep_spec w (n + m) B) as [E W]; [lia|]. rewrite E. cbn [mbind res_bind].
  assert (L : length (w ++ [nextWord nk w]) = S (length w)) by (rewrite length_app; cbn; lia).
  rewrite <- L. destruct (IH (w ++ [nextWord nk w]) m) as (E' & B' & L').
  { apply Forall_app. split; [done|]. by constructor. }
  { lia. }
  { lia. }
  rewrite E'. split; [done|]. split; [done|]. rewrite L'. lia.
Qed.

End Expand.

(** *** Round keys *)

Lemma four_words (w : list (list Z)) i : Forall word_ok w -> (i + 4 <= length w)%nat ->
  exists a b c d, take 4 (drop i w) = [a; b; c; d] /\ Forall word_ok [a; b; c; d]
    /\ w !! (i + 0)%nat = Some a /\ w !! (i + 1)%nat = Some b /\ w !! (i + 2)%nat = Some c /\ w !! (i + 3)%nat = Some d.
Proof.
  intros B H. rewrite <- !lookup_drop. pose proof (length_drop w i) as L. pose proof (Forall_drop word_ok i w B) as B'.
  destruct (drop i w) as [|a [|b [|c [|d l]]]]; cbn [length] in L; try lia.
  exists a, b, c, d. split; [done|]. split; [|done].
  rewrite !Forall_cons in B' |- *. naive_solver.
Qed.

Lemma block_concat a b c d : Forall word_ok [a; b; c; d] -> block_ok (concat [a; b; c; d]).
Proof.
  rewrite !Forall_cons. intros ([La Ba] & [Lb Bb] & [Lc Bc] & [Ld Bd] & _). cbn [concat]. split.
  - rewrite !length_app, La, Lb, Lc, Ld. done.
  - unfold bytes_ok in *. rewrite !Forall_app. auto.
Qed.

Lemma roundKey_spec w r m : Forall word_ok w -> (4 * r + 4 <= length w)%nat ->
  key_at (filled w m) (4 * r) (roundKey w r) /\ block_ok (roundKey w r).
Proof.
  intros B H. unfold roundKey.
  destruct (four_words w (4 * r) B H) as (a & b & c & d & E & W & Ea & Eb & Ec & Ed).
  rewrite E. split; [|by apply block_concat]. unfold key_at.
  rewrite (index_filled _ _ _ _ Ea), (index_filled _ _ _ _ Eb), (index_filled _ _ _ _ Ec), (index_filled _ _ _ _ Ed).
  rewrite !Forall_cons in W. destruct W as (Wa & Wb & Wc & Wd & _).
  cut_word a Wa. cut_word b Wb. cut_word c Wc. cut_word d Wd. done.
Qed.

(** *** The decryption key *)

Definition invMixWord (middle : bool) (w : list Z) : list Z :=
  if middle then
    match w with [a; b; c; d] => [invMix a b c d; invMix b c d a; invMix c d a b; invMix d a b c] | _ => w end
  else w.

Lemma decWord_spec middle w : word_ok w ->
  decWord middle (packw w) = packw (invMixWord middle w) /\ word_ok (invMixWord middle w).
Proof.
  intros Hw. cut_word w Hw. destruct middle; cbn [invMixWord]; [|split; [done|]; split; [done|]; by all_bytes].
  split; [|split; [done|]; by all_bytes]. cbn [packw]. unfold decWord. rewrite !land_ff.
  rewrite word_byte3, word_byte2, word_byte1, word_byte0 by done. rewrite !sbox0_spec by done.
  rewrite td_column by bytes. cbv zeta. rewrite !invSbox_sbox by done. done.
Qed.

Lemma invMixWord_concat middle a b c d : Forall word_ok [a; b; c; d] ->
  concat (invMixWord middle <$> [a; b; c; d])
  = if middle then InvMixColumns (concat [a; b; c; d]) else concat [a; b; c; d].
Proof.
  rewrite !Forall_cons. intros (Wa & Wb & Wc & Wd & _). destruct middle; [|done].
  cut_word a Wa. cut_word b Wb. cut_word c Wc. cut_word d Wd. symbolic. reflexivity.
Qed.

Lemma decWords_step cnt j i ei n w d m x middle :
  length d = (i + j)%nat -> w !! (ei + j)%nat = Some x -> word_ok x -> middle = ((0 <? i)%nat && (i + 4 <? n)%nat) ->
  decWords (S cnt) j i ei n (filled w 0) (filled d (S m))
  = decWords cnt (S j) i ei n (filled w 0) (filled (d ++ [invMixWord middle x]) m).
Proof.
  intros Ld Ex Wx ->. cbn [decWords]. rewrite (index_filled _ _ _ _ Ex). cbn [mbind res_bind].
  rewrite (proj1 (decWord_spec _ x Wx)), <- Ld, set_filled. done.
Qed.

Lemma decWords_spec w ei i n middle m d :
  Forall word_ok w -> (ei + 4 <= length w)%nat -> length d = i -> middle = ((0 <? i)%nat && (i + 4 <? n)%nat) ->
  decWords 4 0 i ei n (filled w 0) (filled d (4 + m)) = Ok (filled (d ++ (invMixWord middle <$> take 4 (drop ei w))) m).
Proof.
  intros B H Ld Hm. destruct (four_words w ei B H) as (a & b & c & e & E & W & Ea & Eb & Ec & Ee). rewrite E.
  rewrite !Forall_cons in W. destruct W as (Wa & Wb & Wc & We & _).
  change (4 + m)%nat with (S (S (S (S m)))).
  rewrite (decWords_step _ _ _ _ _ _ _ _ a middle) by (done || lia).
  rewrite (decWords_step _ _ _ _ _ _ _ _ b middle) by (rewrite ?length_app; cbn [length]; done || lia).
  rewrite (decWords_step _ _ _ _ _ _ _ _ c middle) by (rewrite ?length_app; cbn [length]; done || lia).
  rewrite (decWords_step _ _ _ _ _ _ _ _ e middle) by (rewrite ?length_app; cbn [length]; done || lia).
  cbn [decWords fmap list_fmap]. by rewrite <- !app_assoc.
Qed.

(** The round keys of the decryption key [d] are those of [w] in reverse, the
    middle ones mixed. *)
Definition dec_key (nr : nat) (w : list (list Z)) (r : nat) : list Z :=
  let k := roundKey w (nr - r) in if (0 <? r)%nat && (r <? nr)%nat then InvMixColumns k else k.
Definition dec_keys (nr : nat) (w d : list (list Z)) : Prop :=
  forall r, (4 * r + 4 <= length d)%nat -> roundKey d r = dec_key nr w r.

Lemma dec_keys_step nr r w d : Forall word_ok w -> length w = (4 * (nr + 1))%nat -> (r <= nr)%nat ->
  length d = (4 * r)%nat -> dec_keys nr w d -> Forall word_ok d ->
  let d' := d ++ (invMixWord ((0 <? r)%nat && (r <? nr)%nat) <$> take 4 (drop (4 * (nr - r)) w)) in
  dec_keys nr w d' /\ Forall word_ok d' /\ length d' = (4 * S r)%nat.
Proof.
  intros B Lw Hr Ld Hd Bd d'.
  destruct (four_words w (4 * (nr - r)) B) as (a & b & c & e & E & W & _); [lia|].
  assert (L4 : length d' = (4 * S r)%nat). { unfold d'. rewrite length_app, length_fmap, E. cbn [length]. lia. }
  split; [|split; [|done]].
  - intros r' Hr'. destruct (decide (r' = r)) as [->|Hne].
    + unfold d', roundKey at 1. rewrite drop_app_length' by lia. rewrite E.
      rewrite take_ge by (rewrite length_fmap; cbn; lia). rewrite invMixWord_concat by done.
      unfold dec_key, roundKey. by rewrite E.
    + rewrite <- Hd by lia. unfold d', roundKey. rewrite drop_app_le by lia. rewrite take_app_le by (rewrite length_drop; lia). done.
  - apply Forall_app. split; [done|]. rewrite E. apply Forall_fmap. eapply Forall_impl; [exact W|].
    intros x Hx. by apply (decWord_spec _ x).
Qed.

Lemma decLoop_spec nr w : Forall word_ok w -> length w = (4 * (nr + 1))%nat ->
  forall n r d fuel, (r + n = nr + 1)%nat -> (n <= fuel)%nat ->
  length d = (4 * r)%nat -> dec_keys nr w d -> Forall word_ok d ->
  exists dw, decLoop fuel (4 * r) (length w) (filled w 0) (filled d (4 * n)) = Ok (filled dw 0)
    /\ dec_keys nr w dw /\ Forall word_ok dw /\ length dw = length w.
Proof.
  intros B Lw n. induction n as [|n IH]; intros r d fuel Hr Hf Ld Hd Bd.
  - exists d. split; [|split; [done|]; split; [done|lia]].
    destruct fuel; [done|]. cbn [decLoop]. by rewrite (proj2 (Nat.ltb_ge _ _)) by lia.
  - destruct fuel as [|fuel]; [lia|]. cbn [decLoop].
    rewrite (proj2 (Nat.ltb_lt (4 * r) _)) by lia. rewrite (proj2 (Nat.ltb_ge (length w) _)) by lia.
    replace (length w - 4 * r - 4)%nat with (4 * (nr - r))%nat by lia.
    replace (4 * S n)%nat with (4 + 4 * n)%nat by lia.
    set (middle := (0 <? r)%nat && (r <? nr)%nat).
    rewrite (decWords_spec w _ _ _ middle); [|done|lia|done|].
    2:{ unfold middle. f_equal; apply eq_true_iff_eq; rewrite !Nat.ltb_lt; lia. }
    cbn [mbind res_bind]. replace (4 * r + 4)%nat with (4 * S r)%nat by lia.
    destruct (dec_keys_step nr r w d) as (K & W & L); [done|lia|lia|done|done|done|].
    apply IH; [lia|lia|done|done|done].
Qed.

End AesKeys.

(** ** The cipher *)

Module AesProofs.
Import Aes Fips197 AesWords AesField AesRounds AesInverse AesKeys.

(** The key sizes of AES. *)
Definition key_size (key : list Z) : Prop := (length key = 16 \/ length key = 24 \/ length key = 32)%nat.

Lemma newCipherGeneric_spec key : key_size key -> bytes_ok key ->
  let w := KeyExpansion key in let nr := (length key / 4 + 6)%nat in
  exists dw, NewCipher key = Ok (mkCipher (filled w 0) (filled dw 0))
    /\ Forall word_ok w /\ length w = (4 * (nr + 1))%nat
    /\ dec_keys nr w dw /\ Forall word_ok dw /\ length dw = length w.
Proof.
  intros Hk Bk w nr. unfold NewCipher. rewrite decide_True by exact Hk. unfold newCipherGeneric, expandKeyGo.
  set (nk := (length key / 4)%nat) in *.
  assert (Lk : length key = (4 * nk)%nat /\ (4 <= nk)%nat).
  { unfold nk. destruct Hk as [-> |[-> | ->]]; cbn; lia. }
  destruct Lk as [Lk Hnk]. destruct (chunk4_ok nk key) as [Lc Bc]; [lia|done|].
  replace (length key + 28)%nat with (nk + (4 * (nk + 6 + 1) - nk))%nat by lia.
  pose proof (keyWords_spec key nk [] (4 * (nk + 6 + 1) - nk)) as Ek. cbn [length app] in Ek.
  change (4 * 0)%nat with 0%nat in Ek. rewrite drop_0 in Ek. unfold filled at 1 in Ek. cbn [fmap list_fmap app] in Ek. rewrite Ek by lia. clear Ek.
  cbn [mbind res_bind]. rewrite length_filled, Lc.
  destruct (expandLoop_spec nk ltac:(lia) (4 * (nk + 6 + 1) - nk) (chunk4 nk key) 0) as (Ee & Bw & Lw); [done|lia|lia|].
  rewrite Lc, Nat.add_0_r in Ee. replace (nk + (4 * (nk + 6 + 1) - nk) - nk)%nat with (4 * (nk + 6 + 1) - nk)%nat by lia.
  rewrite Ee. cbn [mbind res_bind]. change (expandWords _ nk _) with w in *. rewrite length_filled, Nat.add_0_r.
  assert (Lw' : length w = (4 * (nr + 1))%nat) by lia.
  destruct (decLoop_spec nr w Bw Lw' (nr + 1) 0 [] (length w)) as (dw & Ed & Kd & Bd & Ld); [lia|lia|done| |done|].
  { intros r Hr. cbn in Hr. lia. }
  exists dw. split; [|done].
  replace (replicate (nk + (4 * (nk + 6 + 1) - nk)) 0) with (filled [] (4 * (nr + 1))) by (unfold filled, nr; cbn [fmap list_fmap app]; f_equal; lia).
  change (4 * 0)%nat with 0%nat in Ed. rewrite Ed. done.
Qed.

Section Cipher.
Context (key : list Z) (Hk : key_size key) (Bk : bytes_ok key).

Lemma rounds_of_key : (2 <= length key / 4 + 6)%nat /\ length (KeyExpansion key) = (4 * (length key / 4 + 6 + 1))%nat.
Proof using All. destruct (newCipherGeneric_spec key Hk Bk) as (dw & _ & _ & L & _). split; [lia|exact L]. Qed.

Lemma Encrypt_spec c dst src : NewCipher key = Ok c ->
  (16 <= length dst)%nat -> (16 <= length src)%nat -> bytes_ok (take 16 src) ->
  Encrypt c dst src = Ok (Cipher (KeyExpansion key) (take 16 src) ++ drop 16 dst)
  /\ block_ok (Cipher (KeyExpansion key) (take 16 src)).
Proof using All.
  intros Ec Ld Ls Bs. destruct (newCipherGeneric_spec key Hk Bk) as (dw & E & Bw & L & _).
  rewrite E in Ec. injection Ec as <-. unfold Encrypt, BlockSize. rewrite !(proj2 (Nat.ltb_ge _ _)) by done. cbn [enc].
  unfold Cipher. replace (length (KeyExpansion key) / 4 - 1)%nat with (length key / 4 + 6)%nat
    by (rewrite L, Nat.mul_comm, Nat.div_mul; lia).
  apply encryptBlockGo_spec; try done; try lia.
  - intros r Hr. apply roundKey_spec; [done|]. lia.
  - rewrite length_filled. lia.
Qed.

Lemma Decrypt_Encrypt c dst dst' src : NewCipher key = Ok c ->
  (16 <= length dst)%nat -> (16 <= length dst')%nat -> (16 <= length src)%nat -> bytes_ok (take 16 src) ->
  exists ct, Encrypt c dst src = Ok ct /\ length ct = length dst /\ Decrypt c dst' ct = Ok (take 16 src ++ drop 16 dst').
Proof using All.
  intros Ec Ld Ld' Ls Bs. destruct (Encrypt_spec c dst src Ec Ld Ls Bs) as [E [LC BC]].
  eexists. split; [exact E|]. split; [rewrite length_app, length_drop, LC; lia|].
  destruct (newCipherGeneric_spec key Hk Bk) as (dw & E' & Bw & L & Kd & Bd & Ldw).
  rewrite E' in Ec. injection Ec as <-. set (nr := (length key / 4 + 6)%nat) in *.
  unfold Decrypt, BlockSize. rewrite !(proj2 (Nat.ltb_ge _ _)) by (rewrite ?length_app, ?LC; lia). cbn [dec].
  rewrite (decryptBlockGo_spec _ nr (roundKey dw)).
  - rewrite take_app_length' by done. do 2 f_equal. unfold Cipher.
    replace (length (KeyExpansion key) / 4 - 1)%nat with nr by (rewrite L, Nat.mul_comm, Nat.div_mul; lia).
    apply inverse_cipher; [lia|intros r Hr; apply (roundKey_spec _ r 0); [done|lia]| | | |].
    + rewrite Kd by lia. unfold dec_key. by rewrite Nat.sub_0_r.
    + rewrite Kd by lia. unfold dec_key. by rewrite Nat.sub_diag, Nat.ltb_irrefl, andb_false_r.
    + intros r Hr. rewrite Kd by lia. unfold dec_key. by rewrite !(proj2 (Nat.ltb_lt _ _)) by lia.
    + split; [rewrite length_take; lia|done].
  - intros r Hr. apply roundKey_spec; [done|]. lia.
  - lia.
  - rewrite length_filled. lia.
  - done.
  - rewrite length_app, LC. lia.
  - by rewrite take_app_length'.
Qed.

End Cipher.

(** *** The cipher behind the [Block] interface *)

(** [Encrypt] into a new block. *)
Definition aes_encrypt (c : aesCipher) (b : list Z) : list Z :=
  match Encrypt c (replicate 16 0) b with Ok o => o | _ => replicate 16 0 end.

Lemma storeBlock_ok st o : storeBlock (replicate 16 0) st = Ok o -> length o = 16%nat /\ bytes_ok o.
Proof.
  unfold storeBlock. intros H. injection H as <-. split; [done|].
  unfold wordBytes. cbn [app drop replicate]. repeat (apply Forall_cons_2; [apply u8_range|]). by apply Forall_nil_2.
Qed.

Lemma aes_encrypt_ok c b : length (aes_encrypt c b) = 16%nat /\ bytes_ok (aes_encrypt c b).
Proof.
  unfold aes_encrypt. destruct (Encrypt c (replicate 16 0) b) as [o| |] eqn:E.
  2,3: split; [done|]; apply (bool_decide_unpack _); by vm_compute.
  unfold Encrypt in E. destruct (length b <? BlockSize)%nat; [done|]. cbn [length replicate Nat.ltb Nat.leb BlockSize] in E.
  unfold encryptBlockGo in E. destruct (loadBlock b); cbn [mbind res_bind] in E; [|done|done].
  destruct (xorKey _ 0 _); cbn [mbind res_bind] in E; [|done|done].
  destruct (roundLoop _ _ _ _ _) as [[k t]| |]; cbn [mbind res_bind] in E; [|done|done].
  destruct (xorKey _ k _); cbn [mbind res_bind] in E; [|done|done]. by eapply storeBlock_ok.
Qed.

Definition aes_block (c : aesCipher) : Block :=
  {| Gcm.Encrypt := aes_encrypt c; Encrypt_length b := proj1 (aes_encrypt_ok c b); Encrypt_ok b := proj2 (aes_encrypt_ok c b) |}.

(** C29: for every key of 16, 24 or 32 bytes the cipher is made without a panic,
    and encrypting a block with the tables writes the first 16 bytes of the
    destination with the AES ciphertext that FIPS-197 defines, for the round keys
    of its key expansion; the rest of the destination is kept. *)
Theorem aes_encrypts key : key_size key -> bytes_ok key ->
  exists c, NewCipher key = Ok c /\ forall dst src,
    (16 <= length dst)%nat -> (16 <= length src)%nat -> bytes_ok (take 16 src) ->
    Encrypt c dst src = Ok (Cipher (KeyExpansion key) (take 16 src) ++ drop 16 dst).
Proof.
  intros Hk Bk. destruct (newCipherGeneric_spec key Hk Bk) as (dw & E & _). eexists. split; [exact E|].
  intros dst src Ld Ls Bs. by apply Encrypt_spec.
Qed.

Lemma aes_encrypts_witness :
  let key := seqZ 0 32 in
  key_size key /\ bytes_ok key /\ exists c, NewCipher key = Ok c /\ forall dst src,
    (16 <= length dst)%nat -> (16 <= length src)%nat -> bytes_ok (take 16 src) ->
    Encrypt c dst src = Ok (Cipher (KeyExpansion key) (take 16 src) ++ drop 16 dst).
Proof.
  intros key. assert (H : key_size key) by (right; by right).
  assert (B : bytes_ok key) by (apply (bool_decide_unpack _); by vm_compute).
  split; [exact H|]. split; [exact B|]. exact (aes_encrypts key H B).
Defined.

(** For every key of 16, 24 or 32 bytes, decrypting what was encrypted gives the
    block back: the tables, the reversed and mixed round keys and the inverse
    S-box undo the rounds. *)
Theorem aes_decrypts key : key_size key -> bytes_ok key ->
  exists c, NewCipher key = Ok c /\ forall dst dst' src,
    (16 <= length dst)%nat -> (16 <= length dst')%nat -> (16 <= length src)%nat -> bytes_ok (take 16 src) ->
    exists ct, Encrypt c dst src = Ok ct /\ length ct = length dst /\ Decrypt c dst' ct = Ok (take 16 src ++ drop 16 dst').
Proof.
  intros Hk Bk. destruct (newCipherGeneric_spec key Hk Bk) as (dw & E & _). eexists. split; [exact E|].
  intros dst dst' src Ld Ld' Ls Bs. by apply (Decrypt_Encrypt key).
Qed.

Lemma aes_decrypts_witness :
  let key := seqZ 0 24 in
  key_size key /\ bytes_ok key /\ exists c, NewCipher key = Ok c /\ forall dst dst' src,
    (16 <= length dst)%nat -> (16 <= length dst')%nat -> (16 <= length src)%nat -> bytes_ok (take 16 src) ->
    exists ct, Encrypt c dst src = Ok ct /\ length ct = length dst /\ Decrypt c dst' ct = Ok (take 16 src ++ drop 16 dst').
Proof.
  intros key. assert (H : key_size key) by (right; by left).
  assert (B : bytes_ok key) by (apply (bool_decide_unpack _); by vm_compute).
  split; [exact H|]. split; [exact B|]. exact (aes_decrypts key H B).
Defined.

(** Test case 4 of the GCM specification, with the tag cut to 12 bytes. *)
Example gcm_test_case_4 :
  let key := [0xfe; 0xff; 0xe9; 0x92; 0x86; 0x65; 0x73; 0x1c; 0x6d; 0x6a; 0x8f; 0x94; 0x67; 0x30; 0x83; 0x08] in
  let nonce := [0xca; 0xfe; 0xba; 0xbe; 0xfa; 0xce; 0xdb; 0xad; 0xde; 0xca; 0xf8; 0x88] in
  let data := [0xfe; 0xed; 0xfa; 0xce; 0xde; 0xad; 0xbe; 0xef; 0xfe; 0xed; 0xfa; 0xce; 0xde; 0xad; 0xbe; 0xef; 0xab;
    0xad; 0xda; 0xd2] in
  let plain := [0xd9; 0x31; 0x32; 0x25; 0xf8; 0x84; 0x06; 0xe5; 0xa5; 0x59; 0x09; 0xc5; 0xaf; 0xf5; 0x26; 0x9a; 0x86;
    0xa7; 0xa9; 0x53; 0x15; 0x34; 0xf7; 0xda; 0x2e; 0x4c; 0x30; 0x3d; 0x8a; 0x31; 0x8a; 0x72; 0x1c; 0x3c;
    0x0c; 0x95; 0x95; 0x68; 0x09; 0x53; 0x2f; 0xcf; 0x0e; 0x24; 0x49; 0xa6; 0xb5; 0x25; 0xb1; 0x6a; 0xed;
    0xf5; 0xaa; 0x0d; 0xe6; 0x57; 0xba; 0x63; 0x7b; 0x39] in
  let cipher := [0x42; 0x83; 0x1e; 0xc2; 0x21; 0x77; 0x74; 0x24; 0x4b; 0x72; 0x21; 0xb7; 0x84; 0xd0; 0xd4; 0x9c; 0xe3;
    0xaa; 0x21; 0x2f; 0x2c; 0x02; 0xa4; 0xe0; 0x35; 0xc1; 0x7e; 0x23; 0x29; 0xac; 0xa1; 0x2e; 0x21; 0xd5;
    0x14; 0xb2; 0x54; 0x66; 0x93; 0x1c; 0x7d; 0x8f; 0x6a; 0x5a; 0xac; 0x84; 0xaa; 0x05; 0x1b; 0xa3; 0x0b;
    0x39; 0x6a; 0x0a; 0xac; 0x97; 0x3d; 0x58; 0xe0; 0x91] in
  let tag := [0x5b; 0xc9; 0x4f; 0xbc; 0x32; 0x21; 0xa5; 0xdb; 0x94; 0xfa; 0xe9; 0x5a] in
  (c ← NewCipher key; Gcm.Gcm.Seal (cipher:=aes_block c) 12 nonce plain data) = Ok (cipher ++ tag).
Proof. vm_compute. reflexivity. Qed.

End AesProofs.
