(* ===== verification/Aead.v ===== *)
(** * AEADs and key derivation ([internal/crypto])

    The [AEAD] interface and its implementations: the null AEADs that hash
    packets before the handshake, and AES-GCM with 12-byte tags; the Diffie-Hellman
    key exchange and the derivation of the packet keys from a shared secret.
    Curve25519 and HKDF (packages of [x/crypto]) and the block cipher are
    interfaces.  [Open] and [Seal] get a slice to append to, which the callers
    only use to work in place; the model returns the appended bytes. *)

From S2P Require Import Prelude ByteOrder Protocol WireHeader Fnv Gcm.

(** The [AEAD] interface. *)
Record AEAD : Type := mkAEAD {
  Open : list Z -> Z -> list Z -> res (list Z);
  Seal : list Z -> Z -> list Z -> res (list Z);
  Overhead : Z
}.

(** ** The null AEADs *)

Module NullAEAD.

Definition errShort12 : error := ErrorsNew "NullAEAD: ciphertext cannot be less than 12 bytes long".
Definition errShort8 : error := ErrorsNew "NullAEAD: ciphertext cannot be less than 8 bytes long".
Definition errAuth : error := ErrorsNew "NullAEAD: failed to authenticate received data".

(** [[]byte("Client")] and [[]byte("Server")] *)
Definition clientLabel : list Z := [67; 108; 105; 101; 110; 116].
Definition serverLabel : list Z := [83; 101; 114; 118; 101; 114].

Definition hash128 (associatedData data label : list Z) : Z * Z :=
  Fnv128a.Sum128 (Fnv128a.Write (Fnv128a.Write (Fnv128a.Write Fnv128a.New associatedData) data) label).

Definition Open128 (perspective : Perspective) (src : list Z) (packetNumber : Z) (associatedData : list Z)
  : res (list Z) :=
  if decide (length src < 12)%nat then Err errShort12
  else
    let '(testHigh, testLow) :=
      hash128 associatedData (drop 12 src) (if isServer perspective then clientLabel else serverLabel) in
    let low := le_combine (take 8 src) in
    let high := le_combine (take 4 (drop 8 src)) in
    if negb (u32 (Z.land testHigh 0xffffffff) =? high) || negb (testLow =? low) then Err errAuth
    else Ok (drop 12 src).

Definition Seal128 (perspective : Perspective) (src : list Z) (packetNumber : Z) (associatedData : list Z)
  : res (list Z) :=
  let '(high, low) := hash128 associatedData src (if isServer perspective then serverLabel else clientLabel) in
  Ok (le_split 8 low ++ le_split 4 (u32 high) ++ src).

Definition Open64 (src : list Z) (packetNumber : Z) (associatedData : list Z) : res (list Z) :=
  if decide (length src < 8)%nat then Err errShort8
  else
    let data := take (length src - 8) src in
    if negb (fnv64a (associatedData ++ data) =? be_combine (drop (length src - 8) src)) then Err errAuth
    else Ok data.

Definition Seal64 (src : list Z) (packetNumber : Z) (associatedData : list Z) : res (list Z) :=
  Ok (src ++ be_split 8 (fnv64a (associatedData ++ src))).

Definition NewNullAEAD (p : Perspective) (v : Z) : AEAD :=
  if UsesTLS v then mkAEAD Open64 Seal64 8 else mkAEAD (Open128 p) (Seal128 p) 12.

End NullAEAD.

(** ** AES-GCM with 12-byte tags *)

Section AesGcm12.

(** [newCipher]: the block cipher of a key. *)
Context (newCipher : list Z -> Block).

(** [aes12.NewCipher] *)
Definition NewCipher (key : list Z) : res Block :=
  if decide (length key = 16 \/ length key = 24 \/ length key = 32)%nat then Ok (newCipher key)
  else Err (Errorf "crypto/aes: invalid key size " [Z.of_nat (length key)]).

Definition makeNonce (iv : list Z) (packetNumber : Z) : list Z := iv ++ le_split 8 packetNumber.

Definition NewAEADAESGCM12 (otherKey myKey otherIV myIV : list Z) : res AEAD :=
  if negb (Nat.eqb (length myKey) 16) || negb (Nat.eqb (length otherKey) 16)
     || negb (Nat.eqb (length myIV) 4) || negb (Nat.eqb (length otherIV) 4)
  then Err (ErrorsNew "AES-GCM: expected 16-byte keys and 4-byte IVs")
  else
    encrypter ← NewCipher myKey;
    decrypter ← NewCipher otherKey;
    Ok (mkAEAD
      (fun src pn ad => Gcm.Open (cipher:=decrypter) Gcm.gcmStandardNonceSize (makeNonce otherIV pn) src ad)
      (fun src pn ad => Gcm.Seal (cipher:=encrypter) Gcm.gcmStandardNonceSize (makeNonce myIV pn) src ad)
      (Z.of_nat Gcm.gcmTagSize)).

(** ** Key derivation

    [hkdf secret salt info] is the byte stream of [hkdf.New(sha256.New, secret,
    salt, info)]: 255 blocks of 32 bytes, of which at most 40 bytes are read. *)
Context (hkdf : list Z -> list Z -> list Z -> nat -> Z).

(** [io.ReadFull] of [n] bytes after [pos] bytes were read. *)
Definition readStream (r : nat -> Z) (pos n : nat) : list Z := (fun i => u8 (r i)) <$> seq pos n.

(** [[]byte("QUIC forward secure key expansion\x00")] and [[]byte("QUIC key expansion\x00")] *)
Definition labelBytes (s : string) : list Z := (fun a => Z.of_N (Ascii.N_of_ascii a)) <$> String.list_ascii_of_string s.
Definition keyLabel (forwardSecure : bool) : list Z :=
  labelBytes (if forwardSecure then "QUIC forward secure key expansion" else "QUIC key expansion") ++ [0].

Definition diversify (key iv divNonce : list Z) : list Z * list Z :=
  let r := hkdf (key ++ iv) divNonce (labelBytes "QUIC key diversification") in
  (readStream r 0 (length key), readStream r (length key) (length iv)).

(** The result is [(otherKey, myKey, otherIV, myIV)]. *)
Definition deriveKeys (forwardSecure : bool) (sharedSecret nonces : list Z) (connID : Z)
    (chlo scfg cert divNonce : list Z) (keyLen : nat) (swap : bool) : list Z * list Z * list Z * list Z :=
  let info := keyLabel forwardSecure ++ le_split 8 connID ++ chlo ++ scfg ++ cert in
  let s := readStream (hkdf sharedSecret nonces info) 0 (2 * keyLen + 2 * 4) in
  let key1 := take keyLen s in
  let key2 := take keyLen (drop keyLen s) in
  let iv1 := take 4 (drop (2 * keyLen) s) in
  let iv2 := drop (2 * keyLen + 4) s in
  let '(key2, iv2) := if forwardSecure then (key2, iv2) else diversify key2 iv2 divNonce in
  if swap then (key2, key1, iv2, iv1) else (key1, key2, iv1, iv2).

Definition DeriveQuicCryptoAESKeys (forwardSecure : bool) (sharedSecret nonces : list Z) (connID : Z)
    (chlo scfg cert divNonce : list Z) (pers : Perspective) : res AEAD :=
  let swap := isClient pers in
  let '(otherKey, myKey, otherIV, myIV) :=
    deriveKeys forwardSecure sharedSecret nonces connID chlo scfg cert divNonce 16 swap in
  NewAEADAESGCM12 otherKey myKey otherIV myIV.

End AesGcm12.

(** ** The key exchange *)

(** [x/crypto/curve25519]: scalar multiplication of points of 32 bytes. *)
Class Curve25519 : Type := {
  ScalarMult : list Z -> list Z -> list Z;
  ScalarBaseMult : list Z -> list Z;
  ScalarBaseMult_length a : length (ScalarBaseMult a) = 32%nat;
  ScalarBaseMult_ok a : bytes_ok (ScalarBaseMult a);
  (** multiplying the base point by two scalars does not depend on their order *)
  ScalarMult_comm a b : ScalarMult a (ScalarBaseMult b) = ScalarMult b (ScalarBaseMult a);
  ScalarMult_length a p : length (ScalarMult a p) = 32%nat
}.

Module Kex.
Section WithCurve.
Context {curve : Curve25519}.

Record t : Type := mk { secret : list Z; public : list Z }.

(** [NewCurve25519KEX] with the 32 random bytes it reads. *)
Definition clamp (secret : list Z) : list Z :=
  let secret := alter (fun b => Z.land b 248) 0%nat secret in
  let secret := alter (fun b => Z.land b 127) 31%nat secret in
  alter (fun b => Z.lor b 64) 31%nat secret.

Definition NewCurve25519KEX (random : list Z) : t :=
  let secret := clamp random in
  mk secret (ScalarBaseMult secret).

Definition PublicKey (c : t) : list Z := c.(public).

Definition CalculateSharedKey (c : t) (otherPublic : list Z) : res (list Z) :=
  if decide (length otherPublic = 32%nat) then Ok (ScalarMult c.(secret) otherPublic)
  else Err (ErrorsNew "Curve25519: expected public key of 32 byte").

(** [getEphermalKEX]: the cached exchange with its creation time, the time and
    the random bytes for a new one; the cache after the call comes second. *)
Definition EphermalKeyLifetime : Z := 60 * 1000000000.
Definition getEphermalKEX (cache : option (t * Z)) (now : Z) (random : list Z) : t * option (t * Z) :=
  match cache with
  | Some (kex, time) =>
      if now - time <? EphermalKeyLifetime then (kex, cache)
      else if EphermalKeyLifetime <? now - time then
        let kex := NewCurve25519KEX random in (kex, Some (kex, now))
      else (kex, cache)
  | None => let kex := NewCurve25519KEX random in (kex, Some (kex, now))
  end.

End WithCurve.
End Kex.

(** ** Proofs *)

Module AeadProofs.

(** Two AEADs belong together: each opens what the other seals, for every packet
    number and associated data, and the ciphertext is [Overhead] bytes longer. *)
Definition opens (a b : AEAD) : Prop :=
  forall payload pn ad, exists sealed, a.(Seal) payload pn ad = Ok sealed
    /\ Z.of_nat (length sealed) = Z.of_nat (length payload) + a.(Overhead)
    /\ b.(Open) sealed pn ad = Ok payload.
Definition matching (a b : AEAD) : Prop := opens a b /\ opens b a.

Import NullAEAD.

Lemma hash128_range ad data label high low :
  hash128 ad data label = (high, low) -> in_width 64 high /\ in_width 64 low.
Proof. intros H. eapply FnvProofs.Sum128_range; [|exact H]. repeat apply FnvProofs.Write_words. apply FnvProofs.New_ok. Qed.

Lemma null128_opens p q : p <> q -> opens (mkAEAD (Open128 p) (Seal128 p) 12) (mkAEAD (Open128 q) (Seal128 q) 12).
Proof.
  intros Hpq payload pn ad. cbn [Seal]. unfold Seal128.
  set (label := if isServer p then serverLabel else clientLabel).
  destruct (hash128 ad payload label) as [high low] eqn:Eh.
  destruct (hash128_range _ _ _ _ _ Eh) as [Hh Hl].
  eexists. split; [reflexivity|]. split; [cbn [Overhead]; rewrite !length_app, !length_le_split; lia|].
  cbn [Open].
  unfold Open128. rewrite decide_False by (rewrite !length_app, !length_le_split; lia).
  assert (Ed : drop 12 (le_split 8 low ++ le_split 4 (u32 high) ++ payload) = payload) by reflexivity.
  assert (El : (if isServer q then clientLabel else serverLabel) = label) by (unfold label; by destruct p, q).
  rewrite Ed, El, Eh.
  rewrite take_app_length' by (by rewrite length_le_split).
  rewrite drop_app_length' by (by rewrite length_le_split).
  rewrite take_app_length' by (by rewrite length_le_split).
  rewrite !le_combine_split. change (8 * Z.of_nat 8) with 64. change (8 * Z.of_nat 4) with 32.
  rewrite (Z.mod_small low) by exact Hl. rewrite (Z.mod_small (u32 high)) by apply u32_range.
  change 0xffffffff with (Z.ones 32). rewrite Z.land_ones by lia.
  replace (u32 (high mod 2 ^ 32)) with (u32 high) by (unfold u32; by rewrite Z.mod_mod by lia).
  by rewrite !Z.eqb_refl.
Qed.

Lemma fnv64a_range data : in_width 64 (fnv64a data).
Proof.
  unfold fnv64a. destruct data as [|c data _] using rev_ind; [vm_compute; by split|].
  rewrite foldl_app. apply u64_range.
Qed.

Lemma null64_opens : opens (mkAEAD Open64 Seal64 8) (mkAEAD Open64 Seal64 8).
Proof.
  intros payload pn ad. cbn. eexists. split; [reflexivity|].
  assert (Hl : length (be_split 8 (fnv64a (ad ++ payload))) = 8%nat)
    by (unfold be_split; by rewrite length_rev, length_le_split).
  rewrite length_app, Hl. split; [lia|]. unfold Open64. rewrite length_app, Hl, Nat.add_sub.
  rewrite decide_False by lia. rewrite take_app_length' by done. rewrite drop_app_length' by done.
  unfold be_combine, be_split. rewrite rev_involutive, le_combine_split. change (8 * Z.of_nat 8) with 64.
  rewrite Z.mod_small by apply fnv64a_range. by rewrite Z.eqb_refl.
Qed.

(** The null AEADs of a client and a server of the same version match. *)
Lemma null_matching v :
  matching (NewNullAEAD PerspectiveClient v) (NewNullAEAD PerspectiveServer v).
Proof.
  unfold matching, NewNullAEAD. destruct (UsesTLS v).
  - split; apply null64_opens.
  - split; by apply null128_opens.
Qed.

(** ** Derived keys *)

Section Keys.
Context (newCipher : list Z -> Block) (hkdf : list Z -> list Z -> list Z -> nat -> Z).

Lemma length_readStream r pos n : length (readStream r pos n) = n.
Proof. unfold readStream. by rewrite length_fmap, length_seq. Qed.

(** Both ends cut the key material at the same places; the client's keys are the
    server's with the roles swapped. *)
Lemma deriveKeys_swap fs secret nonces connID chlo scfg cert div :
  exists k1 k2 iv1 iv2,
    (length k1 = 16 /\ length k2 = 16 /\ length iv1 = 4 /\ length iv2 = 4)%nat
    /\ deriveKeys hkdf fs secret nonces connID chlo scfg cert div 16 false = (k1, k2, iv1, iv2)
    /\ deriveKeys hkdf fs secret nonces connID chlo scfg cert div 16 true = (k2, k1, iv2, iv1).
Proof.
  unfold deriveKeys. set (s := readStream _ 0 _).
  assert (Hs : length s = 40%nat) by apply length_readStream.
  destruct fs; [|unfold diversify]; (do 4 eexists; split; [|split; reflexivity]);
    split_and!; rewrite ?length_readStream, ?length_take, ?length_drop, Hs; reflexivity.
Qed.

Lemma makeNonce_length iv pn : length iv = 4%nat -> length (makeNonce iv pn) = 12%nat.
Proof. intros H. unfold makeNonce. by rewrite length_app, H, length_le_split. Qed.

Lemma gcm12_opens otherKey myKey otherIV myIV :
  (length otherKey = 16 /\ length myKey = 16 /\ length otherIV = 4 /\ length myIV = 4)%nat ->
  exists a b, NewAEADAESGCM12 newCipher otherKey myKey otherIV myIV = Ok a
    /\ NewAEADAESGCM12 newCipher myKey otherKey myIV otherIV = Ok b /\ matching a b
    /\ Overhead a = 12 /\ Overhead b = 12.
Proof.
  intros (H1 & H2 & H3 & H4). unfold NewAEADAESGCM12, NewCipher. rewrite H1, H2, H3, H4. cbn [Nat.eqb negb orb].
  rewrite !decide_True by (by left). cbn [mbind res_bind].
  do 2 eexists. split; [reflexivity|]. split; [reflexivity|]. split; [|done].
  split; intros payload pn ad; cbn [Seal Open Overhead].
  - destruct (GcmProofs.Open_Seal (cipher:=newCipher myKey) 12 (makeNonce myIV pn) payload ad) as (sealed & E1 & E2 & E3).
    { by apply makeNonce_length. }
    exists sealed. split; [exact E1|]. split; [rewrite E2; unfold Gcm.gcmTagSize; lia|exact E3].
  - destruct (GcmProofs.Open_Seal (cipher:=newCipher otherKey) 12 (makeNonce otherIV pn) payload ad) as (sealed & E1 & E2 & E3).
    { by apply makeNonce_length. }
    exists sealed. split; [exact E1|]. split; [rewrite E2; unfold Gcm.gcmTagSize; lia|exact E3].
Qed.

Lemma derived_keys_match fs secret nonces connID chlo scfg cert div :
  exists c s, DeriveQuicCryptoAESKeys newCipher hkdf fs secret nonces connID chlo scfg cert div PerspectiveClient = Ok c
    /\ DeriveQuicCryptoAESKeys newCipher hkdf fs secret nonces connID chlo scfg cert div PerspectiveServer = Ok s
    /\ matching c s /\ Overhead c = 12 /\ Overhead s = 12.
Proof.
  destruct (deriveKeys_swap fs secret nonces connID chlo scfg cert div)
    as (k1 & k2 & iv1 & iv2 & (L1 & L2 & L3 & L4) & Es & Ec).
  unfold DeriveQuicCryptoAESKeys. cbn [isClient isServer negb]. rewrite Es, Ec. by apply gcm12_opens.
Qed.

End Keys.

Section Exchange.
Context {curve : Curve25519}.

(** Both ends of a key exchange compute the same secret. *)
Lemma shared_secret_agrees r1 r2 :
  exists secret, Kex.CalculateSharedKey (Kex.NewCurve25519KEX r1) (Kex.PublicKey (Kex.NewCurve25519KEX r2)) = Ok secret
    /\ Kex.CalculateSharedKey (Kex.NewCurve25519KEX r2) (Kex.PublicKey (Kex.NewCurve25519KEX r1)) = Ok secret
    /\ length secret = 32%nat.
Proof.
  unfold Kex.CalculateSharedKey, Kex.NewCurve25519KEX, Kex.PublicKey. cbn [Kex.secret Kex.public].
  rewrite !decide_True by apply ScalarBaseMult_length.
  eexists. split; [reflexivity|]. split; [by rewrite ScalarMult_comm|apply ScalarMult_length].
Qed.

End Exchange.

(** A curve for evaluation: bytewise addition of 32-byte scalars and points. *)
Definition demo_pad (l : list Z) : list Z := take 32 ((fun c => u8 c) <$> l ++ replicate 32 0).

Lemma demo_pad_length l : length (demo_pad l) = 32%nat.
Proof. unfold demo_pad. rewrite length_take, length_fmap, length_app, length_replicate. lia. Qed.

Lemma demo_pad_ok l : bytes_ok (demo_pad l).
Proof. apply Forall_take, Forall_fmap, Forall_forall. intros c _. apply u8_range. Qed.

Definition demo_mult (a p : list Z) : list Z := zip_with (fun x y => u8 (x + y)) (demo_pad a) (demo_pad p).

Lemma demo_pad_idem l : demo_pad (demo_pad l) = demo_pad l.
Proof.
  pose proof (demo_pad_length l) as Hl. pose proof (demo_pad_ok l) as Hok. set (m := demo_pad l) in *.
  unfold demo_pad. rewrite fmap_app, take_app_length' by (by rewrite length_fmap).
  rewrite <- (list_fmap_id m) at 2. apply list_fmap_ext. intros i x Hx. apply u8_small.
  unfold bytes_ok in Hok. rewrite Forall_forall in Hok. apply Hok. by eapply list_elem_of_lookup_2.
Qed.

Lemma demo_mult_comm a b : demo_mult a (demo_pad b) = demo_mult b (demo_pad a).
Proof.
  unfold demo_mult. rewrite !demo_pad_idem.
  generalize (demo_pad b). generalize (demo_pad a). clear. intros l.
  induction l as [|x l IH]; intros [|y m]; cbn; [done..|]. by rewrite IH, Z.add_comm.
Qed.

Lemma demo_mult_length a p : length (demo_mult a p) = 32%nat.
Proof. unfold demo_mult. rewrite length_zip_with, !demo_pad_length. lia. Qed.

Definition demo_curve : Curve25519 :=
  {| ScalarMult := demo_mult; ScalarBaseMult := demo_pad;
     ScalarBaseMult_length := demo_pad_length; ScalarBaseMult_ok := demo_pad_ok;
     ScalarMult_comm := demo_mult_comm; ScalarMult_length := demo_mult_length |}.

(** A key stream for evaluation. *)
Definition demo_hkdf (secret salt info : list Z) (i : nat) : Z :=
  foldr Z.add (Z.of_nat i) secret + foldr Z.add 0 salt * 3 + Z.of_nat (length info).

End AeadProofs.
