(* ===== verification/ServerConfig.v ===== *)
(** * Server configs and cookies ([internal/handshake/server_config.go],
      [server_config_client.go], [cookie_generator.go],
      [internal/crypto/source_address_token.go], [cert_manager.go])

    What a server hands out before it knows the client: its config (identifier,
    key exchange, public key, orbit, expiry) as a handshake message, which the
    client parses, and the source address token.  Times are nanoseconds since
    1970; [x509], signatures and [asn1] are interfaces, and so is the
    certificate compression, which [CertChain.v] implements. *)

From S2P Require Import Prelude ByteOrder Protocol MinMax WireHeader ConnParams HandshakeMessage Fnv Gcm Aead.

Definition CryptoMessageParameterNotFound : Z := 35.
Definition CryptoNoSupport : Z := 40.
Definition notFound (tag : string) : error := QuicError CryptoMessageParameterNotFound tag.
Definition badLength (tag : string) : error := QuicError CryptoInvalidValueLength tag.
Definition noSupport (msg : string) : error := QuicError CryptoNoSupport msg.

(** [[]byte("C255")], [[]byte("AESG")], [[]byte("X509")], [[]byte("quic-go")] *)
Definition C255 : list Z := [67; 50; 53; 53].
Definition AESG : list Z := [65; 69; 83; 71].
Definition X509 : list Z := [88; 53; 48; 57].
Definition quicgo : list Z := [113; 117; 105; 99; 45; 103; 111].

(** [crypto.CertChain]: the certificates and the key of a server. *)
Class CertChain : Type := {
  SignServerProof : list Z -> list Z -> list Z -> res (list Z);
  GetCertsCompressed : list Z -> list Z -> list Z -> res (list Z);
  ChainLeafCert : list Z -> res (list Z)
}.

Module ServerConfig.
Section WithCurve.
Context {curve : Curve25519}.

Record t : Type := mk { kex : Kex.t; ID : list Z; obit : list Z }.

(** [NewServerConfig] with the random bytes it reads. *)
Definition NewServerConfig (kex : Kex.t) (id obit : list Z) : t := mk kex id obit.

Definition message (s : t) : HandshakeMessage.t :=
  HandshakeMessage.mk TagSCFG
    (<[TagSCID := s.(ID)]> (<[TagKEXS := C255]> (<[TagAEAD := AESG]>
     (<[TagPUBS := [0x20; 0x00; 0x00] ++ Kex.PublicKey s.(kex)]> (<[TagOBIT := s.(obit)]>
     (<[TagEXPY := replicate 8 0xff]> ∅)))))).

Definition Get (s : t) : list Z := HandshakeMessage.bytes (message s).

Definition Sign {chain : CertChain} (s : t) (sni chlo : list Z) : res (list Z) := SignServerProof sni chlo (Get s).

End WithCurve.
End ServerConfig.

(** ** The client's view *)

Module ServerConfigClient.
Section WithCurve.
Context {curve : Curve25519}.

Record t : Type := mk {
  raw : list Z;
  ID : list Z;
  obit : list Z;
  expiry : Z; (* seconds *)
  kex : Kex.t;
  sharedSecret : list Z
}.

Definition errMessageNotServerConfig : error := ErrorsNew "ServerConfig must have TagSCFG".

(** The index of the first four-byte entry equal to [tag]. *)
Fixpoint findEntry (n : nat) (i : Z) (l tag : list Z) : option Z :=
  match n with
  | O => None
  | S n => if decide (take 4 l = tag) then Some i else findEntry n (i + 1) (drop 4 l) tag
  end.

(** [val, ok := tagMap[tag]; if !ok ...] *)
Definition lookupTag (tagMap : gmap Z (list Z)) (tag : Z) (name : string) : res (list Z) :=
  match tagMap !! tag with Some v => Ok v | None => Err (notFound name) end.

Definition check (cond : bool) (e : error) : res unit := if cond then Err e else Ok tt.

(** The loop over the public values; [pubs] is what is left of them, each
    iteration takes at least four bytes. *)
Fixpoint parsePubs (fuel : nat) (pubs : list Z) : res (list (Z * list Z)) :=
  match fuel with
  | O => Ok []
  | S fuel =>
      if (3 <? Z.of_nat (length pubs)) then
        let last_len := le_combine (take 3 pubs ++ [0]) in
        _ ← check (last_len =? 0) (badLength "PUBS");
        _ ← check (Z.of_nat (length pubs) <? 3 + last_len) (badLength "PUBS");
        rest ← parsePubs fuel (drop (3 + Z.to_nat last_len) pubs);
        Ok ((last_len, take (Z.to_nat last_len) (drop 3 pubs)) :: rest)
      else Ok []
  end.

Definition parseValues (rawData : list Z) (tagMap : gmap Z (list Z)) (random : list Z) : res t :=
  scfgID ← lookupTag tagMap TagSCID "SCID";
  _ ← check (negb (Nat.eqb (length scfgID) 16)) (badLength "SCID");
  kexs ← lookupTag tagMap TagKEXS "KEXS";
  _ ← check (negb (Nat.eqb (length kexs mod 4) 0)) (badLength "KEXS");
  match findEntry (length kexs / 4) 0 kexs C255 with
  | None => Err (noSupport "KEXS: Could not find C255, other key exchanges are not supported")
  | Some c255Foundat =>
  aead ← lookupTag tagMap TagAEAD "AEAD";
  _ ← check (negb (Nat.eqb (length aead mod 4) 0)) (badLength "AEAD");
  match findEntry (length aead / 4) 0 aead AESG with
  | None => Err (noSupport "AEAD")
  | Some _ =>
  pubs ← lookupTag tagMap TagPUBS "PUBS";
  pubs_kexs ← parsePubs (length pubs) pubs;
  match pubs_kexs !! Z.to_nat c255Foundat with
  | None => Err (notFound "KEXS not in PUBS")
  | Some (len, value) =>
  _ ← check (negb (len =? 32)) (badLength "PUBS");
  let kex := Kex.NewCurve25519KEX random in
  sharedSecret ← Kex.CalculateSharedKey kex value;
  obit ← lookupTag tagMap TagOBIT "OBIT";
  _ ← check (negb (Nat.eqb (length obit) 8)) (badLength "OBIT");
  expy ← lookupTag tagMap TagEXPY "EXPY";
  _ ← check (negb (Nat.eqb (length expy) 8)) (badLength "EXPY");
  let expyTimestamp := MinUint64 (Uint64 expy) (Z.quot (2 ^ 63 - 1) 2) in
  Ok (mk rawData scfgID obit expyTimestamp kex sharedSecret)
  end end end.

Definition parseServerConfig (data random : list Z) : res t :=
  '(message, _) ← HandshakeMessage.ParseHandshakeMessage data;
  if negb (message.(HandshakeMessage.Tag) =? TagSCFG) then Err errMessageNotServerConfig
  else parseValues data message.(HandshakeMessage.Data) random.

(** [s.expiry.Before(time.Now())] *)
Definition IsExpired (s : t) (now : Z) : bool := s.(expiry) * Second <? now.

Definition Get (s : t) : list Z := s.(raw).

End WithCurve.
End ServerConfigClient.

(** ** Cookies *)

(** The AES-GCM instance of the token source, and [encoding/asn1]. *)
Class StkCodec : Type := {
  stkSeal : list Z -> list Z -> list Z;
  stkOpen : list Z -> list Z -> res (list Z);
  stk_law nonce data : stkOpen nonce (stkSeal nonce data) = Ok data;
  Marshal : list Z * Z -> list Z;
  Unmarshal : list Z -> res ((list Z * Z) * list Z);
  asn1_law tok : Unmarshal (Marshal tok) = Ok (tok, []);
  (** [net.IP.String] *)
  ipString : list Z -> list Z
}.

Inductive Addr : Type :=
| UDPAddr (IP : list Z) (Port : Z)
| OtherAddr (str : list Z).

#[global] Instance Addr_eq_dec : EqDecision Addr.
Proof. solve_decision. Defined.

Module Cookie.
Section WithCodec.
Context {codec : StkCodec}.

(** [SentTime] has a resolution of one second. *)
Record t : Type := mk { RemoteAddr : list Z; SentTime : Z }.

Definition cookiePrefixIP : Z := 0.
Definition cookiePrefixString : Z := 1.
Definition stkNonceSize : nat := 16.

Definition encodeRemoteAddr (a : Addr) : list Z :=
  match a with
  | UDPAddr ip _ => cookiePrefixIP :: ip
  | OtherAddr s => cookiePrefixString :: s
  end.

Definition decodeRemoteAddr (data : list Z) : list Z :=
  match data with
  | [] => []
  | p :: rest => if p =? cookiePrefixIP then ipString rest else rest
  end.

(** [stkSource.NewToken] with the random nonce, [stkSource.DecodeToken] *)
Definition stkNewToken (nonce data : list Z) : list Z := nonce ++ stkSeal nonce data.
Definition stkDecodeToken (p : list Z) : res (list Z) :=
  if decide (length p < stkNonceSize)%nat then Err (Errorf "STK too short: %d" [Z.of_nat (length p)])
  else stkOpen (take stkNonceSize p) (drop stkNonceSize p).

Definition NewToken (raddr : Addr) (now : Z) (nonce : list Z) : list Z :=
  stkNewToken nonce (Marshal (encodeRemoteAddr raddr, now / Second)).

(** A missing token decodes to no cookie. *)
Definition DecodeToken (encrypted : list Z) : res (option t) :=
  match encrypted with
  | [] => Ok None
  | _ =>
      data ← stkDecodeToken encrypted;
      '((tokData, timestamp), rest) ← Unmarshal data;
      match rest with
      | [] => Ok (Some (mk (decodeRemoteAddr tokData) timestamp))
      | _ => Err (Errorf "rest when unpacking token: %d" [Z.of_nat (length rest)])
      end
  end.

(** [defaultAcceptCookie] of [server.go] *)
Definition CookieExpiryTime : Z := 24 * 3600 * Second.
Definition sourceAddr (a : Addr) : list Z :=
  match a with UDPAddr ip _ => ipString ip | OtherAddr s => s end.
Definition defaultAcceptCookie (now : Z) (clientAddr : Addr) (cookie : option t) : bool :=
  match cookie with
  | None => false
  | Some c =>
      if c.(SentTime) * Second + CookieExpiryTime <? now then false
      else bool_decide (sourceAddr clientAddr = c.(RemoteAddr))
  end.

End WithCodec.
End Cookie.

(** ** The certificates the client has received *)

(** [decompressChain], [x509.ParseCertificate] (its [Raw] field), the verification of a
    signature by the leaf certificate, which may panic, and of the chain. *)
Class X509Lib : Type := {
  decompressChain : list Z -> res (list (list Z));
  ParseCertificate : list Z -> res (list Z);
  verifyServerProof : list Z -> list Z -> list Z -> list Z -> res bool;
  VerifyChain : list (list Z) -> list Z -> res unit;
  getCommonCertificateHashes : list Z
}.

Module CertManager.
Section WithLib.
Context {x509 : X509Lib}.

Record t : Type := mk { chain : list (list Z); InsecureSkipVerify : bool }.

Definition errNoCertificateChain : error := ErrorsNew "CertManager BUG: No certicifate chain loaded".

Fixpoint parseAll (l : list (list Z)) : res (list (list Z)) :=
  match l with
  | [] => Ok []
  | d :: l => c ← ParseCertificate d; cs ← parseAll l; Ok (c :: cs)
  end.

Definition SetData (c : t) (data : list Z) : res t :=
  match decompressChain data with
  | Ok byteChain => chain ← parseAll byteChain; Ok (mk chain c.(InsecureSkipVerify))
  | Err _ => Err (QuicError InvalidCryptoMessageParameter "Certificate data invalid")
  | Panic => Panic
  end.

Definition GetCommonCertificateHashes (c : t) : list Z := getCommonCertificateHashes.

(** [nil] when no chain is set. *)
Definition GetLeafCert (c : t) : option (list Z) := head c.(chain).

Definition HashCert (cert : list Z) : Z := fnv64a cert.
Definition GetLeafCertHash (c : t) : res Z :=
  match GetLeafCert c with None => Err errNoCertificateChain | Some leaf => Ok (fnv64a leaf) end.

Definition VerifyServerProof (c : t) (proof chlo serverConfigData : list Z) : res bool :=
  match c.(chain) with
  | [] => Ok false
  | leaf :: _ => verifyServerProof proof leaf chlo serverConfigData
  end.

Definition Verify (c : t) (hostname : list Z) : res unit :=
  match c.(chain) with
  | [] => Err errNoCertificateChain
  | _ => if c.(InsecureSkipVerify) then Ok tt else VerifyChain c.(chain) hostname
  end.

End WithLib.
End CertManager.

(** ** Proofs *)

Module ServerConfigProofs.
Import HandshakeMessageProofs.

(** Looks a concrete tag up in a map built by insertions. *)
Ltac tag_lookup :=
  repeat first [rewrite lookup_insert_ne by discriminate | rewrite lookup_insert_eq | rewrite lookup_empty].

(** A map built by insertions satisfies [P] on every entry. *)
Ltac map_forall :=
  repeat (apply map_Forall_insert_2; [|]); try apply map_Forall_empty.

Section Parse.
Context {curve : Curve25519}.

Definition scfg_ok (s : ServerConfig.t) : Prop :=
  length s.(ServerConfig.ID) = 16%nat /\ length s.(ServerConfig.obit) = 8%nat
  /\ length (Kex.PublicKey s.(ServerConfig.kex)) = 32%nat.

Lemma scfg_message_ok s : scfg_ok s -> msg_ok (ServerConfig.message s).
Proof.
  intros (H1 & H2 & H3). split_and!.
  - by vm_compute.
  - change (size (HandshakeMessage.Data (ServerConfig.message s))) with 6%nat. vm_compute. discriminate.
  - cbn [ServerConfig.message HandshakeMessage.Data]. map_forall; (split; [by vm_compute|]);
      unfold CryptoParameterMaxLength; rewrite ?length_app, ?H1, ?H2, ?H3; vm_compute; discriminate.
Qed.

Lemma parsePubs_single f l : length l = 32%nat ->
  ServerConfigClient.parsePubs (S f) ([0x20; 0x00; 0x00] ++ l) = Ok [(32, l)].
Proof.
  intros Hl. cbn [ServerConfigClient.parsePubs].
  assert (E : Z.of_nat (length ([32; 0; 0] ++ l)) = 35) by (rewrite length_app, Hl; done).
  rewrite E. change (3 <? 35) with true. cbv iota.
  change (le_combine (take 3 ([32; 0; 0] ++ l) ++ [0])) with 32.
  change (32 =? 0) with false. change (35 <? 3 + 32) with false. cbn [mbind res_bind ServerConfigClient.check].
  change (Z.to_nat 32) with 32%nat. change (drop 3 ([32; 0; 0] ++ l)) with l. rewrite (take_ge l) by lia.
  rewrite (drop_ge ([32; 0; 0] ++ l)) by (rewrite length_app; cbn; lia). by destruct f.
Qed.

Lemma scfg_lookup s :
  let m := HandshakeMessage.Data (ServerConfig.message s) in
  m !! TagSCID = Some s.(ServerConfig.ID) /\ m !! TagKEXS = Some C255 /\ m !! TagAEAD = Some AESG
  /\ m !! TagPUBS = Some ([0x20; 0x00; 0x00] ++ Kex.PublicKey s.(ServerConfig.kex))
  /\ m !! TagOBIT = Some s.(ServerConfig.obit) /\ m !! TagEXPY = Some (replicate 8 0xff).
Proof. cbv zeta. cbn [ServerConfig.message HandshakeMessage.Data]. split_and!; tag_lookup; reflexivity. Qed.

(** The config a server sends is accepted by the client as it is. *)
Lemma parse_Get s random secret :
  scfg_ok s -> Kex.CalculateSharedKey (Kex.NewCurve25519KEX random) (Kex.PublicKey s.(ServerConfig.kex)) = Ok secret ->
  ServerConfigClient.parseServerConfig (ServerConfig.Get s) random
  = Ok (ServerConfigClient.mk (ServerConfig.Get s) s.(ServerConfig.ID) s.(ServerConfig.obit) (2 ^ 62 - 1)
          (Kex.NewCurve25519KEX random) secret).
Proof.
  intros Hok Hsec. pose proof (scfg_message_ok s Hok) as Hm. destruct Hok as (H1 & H2 & H3).
  assert (HP : HandshakeMessage.ParseHandshakeMessage (ServerConfig.Get s) = Ok (ServerConfig.message s, []))
    by (unfold ServerConfig.Get; rewrite (bytes_enc _ Hm), <- (app_nil_r (enc _)); by apply parse_message_enc).
  unfold ServerConfigClient.parseServerConfig. rewrite HP. cbn [mbind res_bind].
  change (HandshakeMessage.Tag (ServerConfig.message s) =? TagSCFG) with true. cbn [negb].
  destruct (scfg_lookup s) as (L1 & L2 & L3 & L4 & L5 & L6).
  unfold ServerConfigClient.parseValues, ServerConfigClient.lookupTag. rewrite L1, L2, L3, L4, L5, L6.
  cbn [mbind res_bind].
  rewrite H1. cbn [Nat.eqb negb ServerConfigClient.check mbind res_bind].
  change (ServerConfigClient.findEntry (length C255 / 4) 0 C255 C255) with (Some 0).
  change (ServerConfigClient.findEntry (length AESG / 4) 0 AESG AESG) with (Some 0).
  change (negb (Nat.eqb (length C255 mod 4) 0)) with false. change (negb (Nat.eqb (length AESG mod 4) 0)) with false.
  cbn [ServerConfigClient.check mbind res_bind]. rewrite length_app, H3.
  cbn [length Nat.add]. rewrite parsePubs_single by done. cbn [mbind res_bind].
  change ([(32, Kex.PublicKey (ServerConfig.kex s))] !! Z.to_nat 0) with (Some (32, Kex.PublicKey (ServerConfig.kex s))).
  cbn [Z.eqb Pos.eqb negb ServerConfigClient.check mbind res_bind]. rewrite Hsec. cbn [mbind res_bind].
  rewrite H2. reflexivity.
Qed.

End Parse.

(** ** Tokens *)

Section Tokens.
Context {codec : StkCodec}.
Import Cookie.

Lemma DecodeToken_NewToken raddr now nonce :
  length nonce = stkNonceSize ->
  DecodeToken (NewToken raddr now nonce) = Ok (Some (mk (sourceAddr raddr) (now / Second))).
Proof.
  intros Hn. unfold NewToken, stkNewToken. set (data := Marshal _).
  destruct (nonce ++ stkSeal nonce data) as [|b l] eqn:E; [by destruct nonce|]. rewrite <- E.
  unfold DecodeToken. destruct (nonce ++ stkSeal nonce data) as [|b' l'] eqn:E' in |- *; [congruence|].
  rewrite <- E'. unfold stkDecodeToken. rewrite decide_False by (rewrite length_app; lia).
  rewrite take_app_length' by done. rewrite drop_app_length' by done. rewrite stk_law. cbn [mbind res_bind].
  unfold data. rewrite asn1_law. cbn [mbind res_bind]. do 3 f_equal. by destruct raddr.
Qed.

(** A token that the server gave out is accepted from the address it was given
    to until it is 24 hours old, never from an address with another name, and
    never once it is a second older than that; a client without a token is not
    accepted. *)
Theorem cookie_accepted raddr clientAddr issued now nonce :
  length nonce = stkNonceSize -> 0 <= issued <= now ->
  exists cookie, DecodeToken (NewToken raddr issued nonce) = Ok cookie
    /\ (sourceAddr clientAddr = sourceAddr raddr -> now - issued <= CookieExpiryTime - Second ->
        defaultAcceptCookie now clientAddr cookie = true)
    /\ (sourceAddr clientAddr <> sourceAddr raddr -> defaultAcceptCookie now clientAddr cookie = false)
    /\ (CookieExpiryTime < now - issued -> defaultAcceptCookie now clientAddr cookie = false)
    /\ DecodeToken [] = Ok None /\ defaultAcceptCookie now clientAddr None = false.
Proof.
  intros Hn Ht. rewrite DecodeToken_NewToken by done. eexists. split; [reflexivity|].
  cbn [defaultAcceptCookie SentTime RemoteAddr].
  assert (Hd : issued - Second < issued / Second * Second <= issued) by (unfold Second; lia_div).
  split_and!; [intros Ha He|intros Ha|intros He|done|done].
  - destruct (Z.ltb_spec (issued / Second * Second + CookieExpiryTime) now); [lia|]. by apply bool_decide_eq_true.
  - case_match; [done|]. by apply bool_decide_eq_false.
  - destruct (Z.ltb_spec (issued / Second * Second + CookieExpiryTime) now); [done|lia].
Qed.

End Tokens.

(** A codec for evaluation. *)
Definition demo_marshal (tok : list Z * Z) : list Z := tok.2 :: tok.1.
Definition demo_unmarshal (l : list Z) : res ((list Z * Z) * list Z) :=
  match l with t :: d => Ok ((d, t), []) | [] => Err EOF end.

Lemma demo_stk_law (nonce data : list Z) : (fun (_ d : list Z) => Ok d) nonce ((fun (_ d : list Z) => d) nonce data) = Ok data.
Proof. done. Qed.
Lemma demo_asn1_law tok : demo_unmarshal (demo_marshal tok) = Ok (tok, []).
Proof. by destruct tok. Qed.

Definition demo_codec : StkCodec :=
  {| stkSeal _ d := d; stkOpen _ d := Ok d; stk_law := demo_stk_law;
     Marshal := demo_marshal; Unmarshal := demo_unmarshal; asn1_law := demo_asn1_law; ipString ip := ip |}.

Lemma cookie_accepted_witness :
  exists cookie, Cookie.DecodeToken (codec:=demo_codec)
      (Cookie.NewToken (codec:=demo_codec) (UDPAddr [10; 0; 0; 1] 4433) (5 * Second) (replicate 16 0)) = Ok cookie
    /\ Cookie.defaultAcceptCookie (codec:=demo_codec) (3600 * Second) (UDPAddr [10; 0; 0; 1] 1234) cookie = true.
Proof.
  destruct (cookie_accepted (codec:=demo_codec) (UDPAddr [10; 0; 0; 1] 4433) (UDPAddr [10; 0; 0; 1] 1234)
    (5 * Second) (3600 * Second) (replicate 16 0) eq_refl ltac:(unfold Second; lia)) as (cookie & H1 & H2 & _).
  exists cookie. split; [exact H1|]. apply H2; [reflexivity|]. unfold Cookie.CookieExpiryTime, Second. lia.
Defined.

End ServerConfigProofs.
