(* ===== verification/CryptoSetup.v ===== *)
(** * The crypto setups ([internal/handshake/crypto_setup_server.go],
      [crypto_setup_client.go])

    The two ends of the QUIC crypto handshake as state machines: the server's
    reaction to a client hello, the client's to rejections and server hellos, the
    choice of keys for sending and opening packets.  A handler runs in a monad
    with the setup as its state; an error result keeps the state reached.  What a
    handler takes from outside (the time, random bytes, the ephemeral key) is its
    [Env] argument; the channel [aeadChanged] is the list of levels sent on it and
    whether it is closed, and sending on a closed channel panics.  The bytes
    written to the crypto stream are a list of messages.  Mutexes are not
    modelled: each operation is atomic. *)

From S2P Require Import Prelude ByteOrder Protocol MinMax WireHeader ConnParams HandshakeMessage Fnv Gcm Aead.
From S2P Require Import ServerConfig.

Definition EncryptionUnspecified : Z := 0.
Definition EncryptionUnencrypted : Z := 1.
Definition EncryptionSecure : Z := 2.
Definition EncryptionForwardSecure : Z := 3.

Definition HandshakeFailed : Z := 28.
Definition InvalidCryptoMessageType : Z := 33.
Definition CryptoTooManyRejects : Z := 41.
Definition ProofInvalid : Z := 42.
Definition CryptoEncryptionLevelIncorrect : Z := 44.
Definition CryptoServerConfigExpired : Z := 45.
Definition VersionNegotiationMismatch : Z := 55.
Definition ClientHelloMinimumSize : Z := 1024.
Definition MaxClientHellos : Z := 3.

(** ** State and errors *)

Definition ST (S A : Type) : Type := S -> S * res A.

#[global] Instance ST_ret S : MRet (ST S) := fun A a s => (s, Ok a).
#[global] Instance ST_bind S : MBind (ST S) := fun A B k m s =>
  match m s with
  | (s, Ok a) => k a s
  | (s, Err e) => (s, Err e)
  | (s, Panic) => (s, Panic)
  end.

Definition get {S} : ST S S := fun s => (s, Ok s).
Definition modify {S} (f : S -> S) : ST S unit := fun s => (f s, Ok tt).
Definition fail {S A} (e : error) : ST S A := fun s => (s, Err e).
Definition lift {S A} (r : res A) : ST S A := fun s => (s, r).
Definition require {S} (cond : bool) (e : error) : ST S unit := if cond then mret tt else fail e.
Definition when {S} (cond : bool) (m : ST S unit) : ST S unit := if cond then m else mret tt.

(** The channel of encryption levels. *)
Record AeadChan : Type := mkChan { levels : list Z; closed : bool }.
Definition sendLevel (c : AeadChan) (l : Z) : res AeadChan :=
  if c.(closed) then Panic else Ok (mkChan (c.(levels) ++ [l]) false).
Definition closeChan (c : AeadChan) : res AeadChan :=
  if c.(closed) then Panic else Ok (mkChan c.(levels) true).

(** [map[Tag][]byte] with the empty slice for a missing tag. *)
Definition value (m : gmap Z (list Z)) (tag : Z) : list Z := default [] (m !! tag).
Definition present (m : gmap Z (list Z)) (tag : Z) : bool := bool_decide (is_Some (m !! tag)).

(** The two functions a setup derives keys with. *)
Class KeySchedule : Type := {
  newCipher : list Z -> Block;
  hkdf : list Z -> list Z -> list Z -> nat -> Z
}.

Definition keyDerivation {keys : KeySchedule} := DeriveQuicCryptoAESKeys newCipher hkdf.

(** ** The server *)

Module Server.
Section WithLibs.
Context {curve : Curve25519} {keys : KeySchedule} {codec : StkCodec} {chain : CertChain}.

Record config : Type := mkConfig {
  connID : Z;
  remoteAddr : Addr;
  scfg : ServerConfig.t;
  version : Z;
  supportedVersions : list Z;
  acceptSTKCallback : Z -> Addr -> option Cookie.t -> bool
}.

Record t : Type := mk {
  diversificationNonce : list Z;
  nullAEAD : AEAD;
  secureAEAD : option AEAD;
  forwardSecureAEAD : option AEAD;
  receivedForwardSecurePacket : bool;
  receivedSecurePacket : bool;
  sentSHLO : bool;
  aeadChanged : AeadChan;
  connectionParameters : ConnParams.t;
  written : list (list Z)
}.

Definition set_diversificationNonce (v : list Z) (h : t) : t :=
  mk v h.(nullAEAD) h.(secureAEAD) h.(forwardSecureAEAD) h.(receivedForwardSecurePacket)
    h.(receivedSecurePacket) h.(sentSHLO) h.(aeadChanged) h.(connectionParameters) h.(written).
Definition set_secureAEAD (v : option AEAD) (h : t) : t :=
  mk h.(diversificationNonce) h.(nullAEAD) v h.(forwardSecureAEAD) h.(receivedForwardSecurePacket)
    h.(receivedSecurePacket) h.(sentSHLO) h.(aeadChanged) h.(connectionParameters) h.(written).
Definition set_forwardSecureAEAD (v : option AEAD) (h : t) : t :=
  mk h.(diversificationNonce) h.(nullAEAD) h.(secureAEAD) v h.(receivedForwardSecurePacket)
    h.(receivedSecurePacket) h.(sentSHLO) h.(aeadChanged) h.(connectionParameters) h.(written).
Definition set_receivedForwardSecurePacket (v : bool) (h : t) : t :=
  mk h.(diversificationNonce) h.(nullAEAD) h.(secureAEAD) h.(forwardSecureAEAD) v h.(receivedSecurePacket)
    h.(sentSHLO) h.(aeadChanged) h.(connectionParameters) h.(written).
Definition set_receivedSecurePacket (v : bool) (h : t) : t :=
  mk h.(diversificationNonce) h.(nullAEAD) h.(secureAEAD) h.(forwardSecureAEAD)
    h.(receivedForwardSecurePacket) v h.(sentSHLO) h.(aeadChanged) h.(connectionParameters) h.(written).
Definition set_sentSHLO (v : bool) (h : t) : t :=
  mk h.(diversificationNonce) h.(nullAEAD) h.(secureAEAD) h.(forwardSecureAEAD)
    h.(receivedForwardSecurePacket) h.(receivedSecurePacket) v h.(aeadChanged) h.(connectionParameters)
    h.(written).
Definition set_aeadChanged (v : AeadChan) (h : t) : t :=
  mk h.(diversificationNonce) h.(nullAEAD) h.(secureAEAD) h.(forwardSecureAEAD)
    h.(receivedForwardSecurePacket) h.(receivedSecurePacket) h.(sentSHLO) v h.(connectionParameters)
    h.(written).
Definition set_connectionParameters (v : ConnParams.t) (h : t) : t :=
  mk h.(diversificationNonce) h.(nullAEAD) h.(secureAEAD) h.(forwardSecureAEAD)
    h.(receivedForwardSecurePacket) h.(receivedSecurePacket) h.(sentSHLO) h.(aeadChanged) v h.(written).
Definition set_written (v : list (list Z)) (h : t) : t :=
  mk h.(diversificationNonce) h.(nullAEAD) h.(secureAEAD) h.(forwardSecureAEAD)
    h.(receivedForwardSecurePacket) h.(receivedSecurePacket) h.(sentSHLO) h.(aeadChanged)
    h.(connectionParameters) v.

(** What one message needs from outside. *)
Record Env : Type := mkEnv {
  now : Z;
  tokenNonce : list Z;
  serverNonce : list Z;
  divNonce : list Z;
  ephermalKex : Kex.t
}.

Definition ErrHOLExperiment : error := QuicError InvalidCryptoMessageParameter "HOL experiment. Unsupported".
Definition ErrNSTPExperiment : error := QuicError InvalidCryptoMessageParameter "NSTP experiment. Unsupported".

(** [NewCryptoSetup] *)
Definition New (cfg : config) (connectionParameters : ConnParams.t) : t :=
  mk [] (NullAEAD.NewNullAEAD PerspectiveServer cfg.(version)) None None false false false (mkChan [] false)
    connectionParameters [].

Definition send (level : Z) : ST t unit :=
  h ← get; c ← lift (sendLevel h.(aeadChanged) level); modify (set_aeadChanged c).

(** [h.cryptoStream.Write(reply)] *)
Definition write (reply : list Z) : ST t unit := modify (fun h => set_written (h.(written) ++ [reply]) h).

Definition acceptSTK (cfg : config) (env : Env) (token : list Z) : bool :=
  match Cookie.DecodeToken token with
  | Ok stk => cfg.(acceptSTKCallback) env.(now) cfg.(remoteAddr) stk
  | _ => false
  end.

Definition isInchoateCHLO (cfg : config) (env : Env) (cryptoData : gmap Z (list Z)) (cert : list Z) : bool :=
  if negb (present cryptoData TagPUBS) then true
  else if negb (present cryptoData TagSCID) || negb (bool_decide (cfg.(scfg).(ServerConfig.ID) = value cryptoData TagSCID))
  then true
  else if negb (present cryptoData TagXLCT) || negb (Nat.eqb (length (value cryptoData TagXLCT)) 8) then true
  else if negb (CertManager.HashCert cert =? Uint64 (value cryptoData TagXLCT)) then true
  else negb (acceptSTK cfg env (value cryptoData TagSTK)).

Definition validateClientNonce (cfg : config) (nonce : list Z) : option error :=
  if negb (Nat.eqb (length nonce) 32) then
    Some (QuicError InvalidCryptoMessageParameter "invalid client nonce length")
  else if negb (bool_decide (take 8 (drop 4 nonce) = cfg.(scfg).(ServerConfig.obit))) then
    Some (QuicError InvalidCryptoMessageParameter "OBIT not matching")
  else None.

Definition handleInchoateCHLO (cfg : config) (env : Env) (sni chlo : list Z) (cryptoData : gmap Z (list Z))
  : res (list Z) :=
  if Z.of_nat (length chlo) <? ClientHelloMinimumSize then Err (QuicError CryptoInvalidValueLength "CHLO too small")
  else
    let token := Cookie.NewToken cfg.(remoteAddr) env.(now) env.(tokenNonce) in
    let replyMap := <[TagSCFG := ServerConfig.Get cfg.(scfg)]> (<[TagSTK := token]> (<[TagSVID := quicgo]> ∅)) in
    replyMap ← (if acceptSTK cfg env (value cryptoData TagSTK) then
                  proof ← ServerConfig.Sign cfg.(scfg) sni chlo;
                  certCompressed ← GetCertsCompressed sni (value cryptoData TagCCS) (value cryptoData TagCCRT);
                  Ok (<[TagCERT := certCompressed]> (<[TagPROF := proof]> replyMap))
                else Ok replyMap);
    Ok (HandshakeMessage.bytes (HandshakeMessage.mk TagREJ replyMap)).

(** [h.secureAEAD, err = h.keyDerivation(...)]: an error resets the field. *)
Definition assign (set : option AEAD -> t -> t) (r : res AEAD) : ST t unit :=
  match r with
  | Ok a => modify (set (Some a))
  | Err e => _ ← modify (set None); fail e
  | Panic => lift Panic
  end.

Definition versionTags (versions : list Z) : list Z :=
  concat ((fun v => le_split 4 (VersionNumberToTag v)) <$> versions).

Definition handleCHLO (cfg : config) (env : Env) (sni data : list Z) (cryptoData : gmap Z (list Z)) : ST t (list Z) :=
  sharedSecret ← lift (Kex.CalculateSharedKey cfg.(scfg).(ServerConfig.kex) (value cryptoData TagPUBS));
  certUncompressed ← lift (ChainLeafCert sni);
  _ ← modify (set_diversificationNonce env.(divNonce));
  let clientNonce := value cryptoData TagNONC in
  _ ← match validateClientNonce cfg clientNonce with Some e => fail e | None => mret tt end;
  _ ← require (bool_decide (value cryptoData TagAEAD = AESG)) (noSupport "Unsupported AEAD or KEXS");
  _ ← require (bool_decide (value cryptoData TagKEXS = C255)) (noSupport "Unsupported AEAD or KEXS");
  _ ← assign set_secureAEAD
        (keyDerivation false sharedSecret clientNonce cfg.(connID) data (ServerConfig.Get cfg.(scfg))
           certUncompressed env.(divNonce) PerspectiveServer);
  _ ← send EncryptionSecure;
  let fsNonce := clientNonce ++ env.(serverNonce) in
  ephermalSharedSecret ← lift (Kex.CalculateSharedKey env.(ephermalKex) (value cryptoData TagPUBS));
  _ ← assign set_forwardSecureAEAD
        (keyDerivation true ephermalSharedSecret fsNonce cfg.(connID) data (ServerConfig.Get cfg.(scfg))
           certUncompressed [] PerspectiveServer);
  h ← get;
  let '(params, e) := ConnParams.SetFromMap h.(connectionParameters) cryptoData in
  _ ← modify (set_connectionParameters params);
  _ ← match e with Some e => fail e | None => mret tt end;
  let replyMap := ConnParams.GetHelloMap params in
  let replyMap := <[TagVER := versionTags cfg.(supportedVersions)]> (<[TagSNO := env.(serverNonce)]>
                  (<[TagPUBS := Kex.PublicKey env.(ephermalKex)]> replyMap)) in
  mret (HandshakeMessage.bytes (HandshakeMessage.mk TagSHLO replyMap)).

(** The result says whether the handshake is done. *)
Definition handleMessage (cfg : config) (env : Env) (chloData : list Z) (cryptoData : gmap Z (list Z)) : ST t bool :=
  _ ← require (negb (present cryptoData TagFHL2)) ErrHOLExperiment;
  _ ← require (negb (present cryptoData TagNSTP)) ErrNSTPExperiment;
  let sni := value cryptoData TagSNI in
  _ ← require (present cryptoData TagSNI && negb (Nat.eqb (length sni) 0)) (notFound "SNI required");
  let verSlice := value cryptoData TagVER in
  _ ← require (present cryptoData TagVER)
        (QuicError InvalidCryptoMessageParameter "client hello missing version tag");
  _ ← require (Nat.eqb (length verSlice) 4) (QuicError InvalidCryptoMessageParameter "incorrect version tag");
  let ver := VersionTagToNumber (Uint32 verSlice) in
  _ ← require (negb (negb (ver =? cfg.(version)) && IsSupportedVersion cfg.(supportedVersions) ver))
        (QuicError VersionNegotiationMismatch "Downgrade attack detected");
  certUncompressed ← lift (ChainLeafCert sni);
  if negb (isInchoateCHLO cfg env cryptoData certUncompressed) then
    reply ← handleCHLO cfg env sni chloData cryptoData;
    _ ← write reply;
    _ ← send EncryptionForwardSecure;
    _ ← modify (set_sentSHLO true);
    mret true
  else
    reply ← lift (handleInchoateCHLO cfg env sni chloData cryptoData);
    _ ← write reply;
    mret false.

(** One iteration of [HandleCryptoStream]: the bytes read from the crypto stream
    are the message as the server saw it. *)
Definition handleStream (cfg : config) (env : Env) (stream : list Z) : ST t (bool * list Z) :=
  match HandshakeMessage.ParseHandshakeMessage stream with
  | Ok (message, rest) =>
      let chloData := take (length stream - length rest) stream in
      _ ← require (message.(HandshakeMessage.Tag) =? TagCHLO) (ErrorCode InvalidCryptoMessageType);
      done ← handleMessage cfg env chloData message.(HandshakeMessage.Data);
      mret (done, rest)
  | _ => fail (ErrorCode HandshakeFailed)
  end.

(** [Open]: there is no result as long as the call waits for the server hello to
    be written.  The level comes with the plaintext. *)
Definition Open (src : list Z) (packetNumber : Z) (associatedData : list Z) (h : t)
  : option (t * res (list Z * Z)) :=
  let tryNull (h : t) :=
    match Aead.Open h.(nullAEAD) src packetNumber associatedData with
    | Ok r => Some (h, Ok (r, EncryptionUnencrypted))
    | Err e => Some (h, Err e)
    | Panic => Some (h, Panic)
    end in
  let trySecure (h : t) :=
    match h.(secureAEAD) with
    | Some a =>
        match Aead.Open a src packetNumber associatedData with
        | Ok r => Some (set_receivedSecurePacket true h, Ok (r, EncryptionSecure))
        | Err e => if h.(receivedSecurePacket) then Some (h, Err e) else tryNull h
        | Panic => Some (h, Panic)
        end
    | None => tryNull h
    end in
  match h.(forwardSecureAEAD) with
  | Some a =>
      match Aead.Open a src packetNumber associatedData with
      | Ok r =>
          if h.(receivedForwardSecurePacket) then Some (h, Ok (r, EncryptionForwardSecure))
          else
            let h := set_receivedForwardSecurePacket true h in
            if h.(sentSHLO) then
              match closeChan h.(aeadChanged) with
              | Ok c => Some (set_aeadChanged c h, Ok (r, EncryptionForwardSecure))
              | _ => Some (h, Panic)
              end
            else None
      | Err e => if h.(receivedForwardSecurePacket) then Some (h, Err e) else trySecure h
      | Panic => Some (h, Panic)
      end
  | None => trySecure h
  end.

Definition GetSealer (h : t) : Z * AEAD :=
  match h.(forwardSecureAEAD) with
  | Some a => (EncryptionForwardSecure, a)
  | None => (EncryptionUnencrypted, h.(nullAEAD))
  end.

Definition GetSealerForCryptoStream (h : t) : Z * AEAD :=
  match h.(secureAEAD) with
  | Some a => (EncryptionSecure, a)
  | None => (EncryptionUnencrypted, h.(nullAEAD))
  end.

Definition GetSealerWithEncryptionLevel (h : t) (encLevel : Z) : res AEAD :=
  if encLevel =? EncryptionUnencrypted then Ok h.(nullAEAD)
  else if encLevel =? EncryptionSecure then
    match h.(secureAEAD) with Some a => Ok a | None => Err (ErrorsNew "CryptoSetupServer: no secureAEAD") end
  else if encLevel =? EncryptionForwardSecure then
    match h.(forwardSecureAEAD) with Some a => Ok a | None => Err (ErrorsNew "CryptoSetupServer: no forwardSecureAEAD") end
  else Err (ErrorsNew "CryptoSetupServer: no encryption level specified").

Definition DiversificationNonce (h : t) : list Z := h.(diversificationNonce).

End WithLibs.
End Server.

(** ** The client *)

Module Client.
Section WithLibs.
Context {curve : Curve25519} {keys : KeySchedule} {x509 : X509Lib}.

Record config : Type := mkConfig {
  hostname : list Z;
  connID : Z;
  version : Z;
  negotiatedVersions : list Z;
  RequestConnectionIDTruncation : bool;
  CacheHandshake : bool
}.

Record t : Type := mk {
  serverConfig : option ServerConfigClient.t;
  stk : list Z;
  sno : list Z;
  nonc : list Z;
  proof : list Z;
  chloForSignature : list Z;
  lastSentCHLO : list Z;
  certManager : CertManager.t;
  certData : list Z;
  scfgData : list Z;
  diversificationNonce : list Z;
  clientHelloCounter : Z;
  serverVerified : bool;
  receivedSecurePacket : bool;
  nullAEAD : AEAD;
  secureAEAD : option AEAD;
  forwardSecureAEAD : option AEAD;
  aeadChanged : AeadChan;
  connectionParameters : ConnParams.t;
  written : list (list Z);
  files : gmap (list Z) (list Z)
}.

Definition set_serverConfig (v : option ServerConfigClient.t) (h : t) : t :=
  mk v h.(stk) h.(sno) h.(nonc) h.(proof) h.(chloForSignature) h.(lastSentCHLO) h.(certManager)
    h.(certData) h.(scfgData) h.(diversificationNonce) h.(clientHelloCounter) h.(serverVerified)
    h.(receivedSecurePacket) h.(nullAEAD) h.(secureAEAD) h.(forwardSecureAEAD) h.(aeadChanged)
    h.(connectionParameters) h.(written) h.(files).
Definition set_stk (v : list Z) (h : t) : t :=
  mk h.(serverConfig) v h.(sno) h.(nonc) h.(proof) h.(chloForSignature) h.(lastSentCHLO) h.(certManager)
    h.(certData) h.(scfgData) h.(diversificationNonce) h.(clientHelloCounter) h.(serverVerified)
    h.(receivedSecurePacket) h.(nullAEAD) h.(secureAEAD) h.(forwardSecureAEAD) h.(aeadChanged)
    h.(connectionParameters) h.(written) h.(files).
Definition set_sno (v : list Z) (h : t) : t :=
  mk h.(serverConfig) h.(stk) v h.(nonc) h.(proof) h.(chloForSignature) h.(lastSentCHLO) h.(certManager)
    h.(certData) h.(scfgData) h.(diversificationNonce) h.(clientHelloCounter) h.(serverVerified)
    h.(receivedSecurePacket) h.(nullAEAD) h.(secureAEAD) h.(forwardSecureAEAD) h.(aeadChanged)
    h.(connectionParameters) h.(written) h.(files).
Definition set_nonc (v : list Z) (h : t) : t :=
  mk h.(serverConfig) h.(stk) h.(sno) v h.(proof) h.(chloForSignature) h.(lastSentCHLO) h.(certManager)
    h.(certData) h.(scfgData) h.(diversificationNonce) h.(clientHelloCounter) h.(serverVerified)
    h.(receivedSecurePacket) h.(nullAEAD) h.(secureAEAD) h.(forwardSecureAEAD) h.(aeadChanged)
    h.(connectionParameters) h.(written) h.(files).
Definition set_proof (v : list Z) (h : t) : t :=
  mk h.(serverConfig) h.(stk) h.(sno) h.(nonc) v h.(chloForSignature) h.(lastSentCHLO) h.(certManager)
    h.(certData) h.(scfgData) h.(diversificationNonce) h.(clientHelloCounter) h.(serverVerified)
    h.(receivedSecurePacket) h.(nullAEAD) h.(secureAEAD) h.(forwardSecureAEAD) h.(aeadChanged)
    h.(connectionParameters) h.(written) h.(files).
Definition set_chloForSignature (v : list Z) (h : t) : t :=
  mk h.(serverConfig) h.(stk) h.(sno) h.(nonc) h.(proof) v h.(lastSentCHLO) h.(certManager) h.(certData)
    h.(scfgData) h.(diversificationNonce) h.(clientHelloCounter) h.(serverVerified)
    h.(receivedSecurePacket) h.(nullAEAD) h.(secureAEAD) h.(forwardSecureAEAD) h.(aeadChanged)
    h.(connectionParameters) h.(written) h.(files).
Definition set_lastSentCHLO (v : list Z) (h : t) : t :=
  mk h.(serverConfig) h.(stk) h.(sno) h.(nonc) h.(proof) h.(chloForSignature) v h.(certManager)
    h.(certData) h.(scfgData) h.(diversificationNonce) h.(clientHelloCounter) h.(serverVerified)
    h.(receivedSecurePacket) h.(nullAEAD) h.(secureAEAD) h.(forwardSecureAEAD) h.(aeadChanged)
    h.(connectionParameters) h.(written) h.(files).
Definition set_certManager (v : CertManager.t) (h : t) : t :=
  mk h.(serverConfig) h.(stk) h.(sno) h.(nonc) h.(proof) h.(chloForSignature) h.(lastSentCHLO) v
    h.(certData) h.(scfgData) h.(diversificationNonce) h.(clientHelloCounter) h.(serverVerified)
    h.(receivedSecurePacket) h.(nullAEAD) h.(secureAEAD) h.(forwardSecureAEAD) h.(aeadChanged)
    h.(connectionParameters) h.(written) h.(files).
Definition set_certData (v : list Z) (h : t) : t :=
  mk h.(serverConfig) h.(stk) h.(sno) h.(nonc) h.(proof) h.(chloForSignature) h.(lastSentCHLO)
    h.(certManager) v h.(scfgData) h.(diversificationNonce) h.(clientHelloCounter) h.(serverVerified)
    h.(receivedSecurePacket) h.(nullAEAD) h.(secureAEAD) h.(forwardSecureAEAD) h.(aeadChanged)
    h.(connectionParameters) h.(written) h.(files).
Definition set_scfgData (v : list Z) (h : t) : t :=
  mk h.(serverConfig) h.(stk) h.(sno) h.(nonc) h.(proof) h.(chloForSignature) h.(lastSentCHLO)
    h.(certManager) h.(certData) v h.(diversificationNonce) h.(clientHelloCounter) h.(serverVerified)
    h.(receivedSecurePacket) h.(nullAEAD) h.(secureAEAD) h.(forwardSecureAEAD) h.(aeadChanged)
    h.(connectionParameters) h.(written) h.(files).
Definition set_diversificationNonce (v : list Z) (h : t) : t :=
  mk h.(serverConfig) h.(stk) h.(sno) h.(nonc) h.(proof) h.(chloForSignature) h.(lastSentCHLO)
    h.(certManager) h.(certData) h.(scfgData) v h.(clientHelloCounter) h.(serverVerified)
    h.(receivedSecurePacket) h.(nullAEAD) h.(secureAEAD) h.(forwardSecureAEAD) h.(aeadChanged)
    h.(connectionParameters) h.(written) h.(files).
Definition set_clientHelloCounter (v : Z) (h : t) : t :=
  mk h.(serverConfig) h.(stk) h.(sno) h.(nonc) h.(proof) h.(chloForSignature) h.(lastSentCHLO)
    h.(certManager) h.(certData) h.(scfgData) h.(diversificationNonce) v h.(serverVerified)
    h.(receivedSecurePacket) h.(nullAEAD) h.(secureAEAD) h.(forwardSecureAEAD) h.(aeadChanged)
    h.(connectionParameters) h.(written) h.(files).
Definition set_serverVerified (v : bool) (h : t) : t :=
  mk h.(serverConfig) h.(stk) h.(sno) h.(nonc) h.(proof) h.(chloForSignature) h.(lastSentCHLO)
    h.(certManager) h.(certData) h.(scfgData) h.(diversificationNonce) h.(clientHelloCounter) v
    h.(receivedSecurePacket) h.(nullAEAD) h.(secureAEAD) h.(forwardSecureAEAD) h.(aeadChanged)
    h.(connectionParameters) h.(written) h.(files).
Definition set_receivedSecurePacket (v : bool) (h : t) : t :=
  mk h.(serverConfig) h.(stk) h.(sno) h.(nonc) h.(proof) h.(chloForSignature) h.(lastSentCHLO)
    h.(certManager) h.(certData) h.(scfgData) h.(diversificationNonce) h.(clientHelloCounter)
    h.(serverVerified) v h.(nullAEAD) h.(secureAEAD) h.(forwardSecureAEAD) h.(aeadChanged)
    h.(connectionParameters) h.(written) h.(files).
Definition set_secureAEAD (v : option AEAD) (h : t) : t :=
  mk h.(serverConfig) h.(stk) h.(sno) h.(nonc) h.(proof) h.(chloForSignature) h.(lastSentCHLO)
    h.(certManager) h.(certData) h.(scfgData) h.(diversificationNonce) h.(clientHelloCounter)
    h.(serverVerified) h.(receivedSecurePacket) h.(nullAEAD) v h.(forwardSecureAEAD) h.(aeadChanged)
    h.(connectionParameters) h.(written) h.(files).
Definition set_forwardSecureAEAD (v : option AEAD) (h : t) : t :=
  mk h.(serverConfig) h.(stk) h.(sno) h.(nonc) h.(proof) h.(chloForSignature) h.(lastSentCHLO)
    h.(certManager) h.(certData) h.(scfgData) h.(diversificationNonce) h.(clientHelloCounter)
    h.(serverVerified) h.(receivedSecurePacket) h.(nullAEAD) h.(secureAEAD) v h.(aeadChanged)
    h.(connectionParameters) h.(written) h.(files).
Definition set_aeadChanged (v : AeadChan) (h : t) : t :=
  mk h.(serverConfig) h.(stk) h.(sno) h.(nonc) h.(proof) h.(chloForSignature) h.(lastSentCHLO)
    h.(certManager) h.(certData) h.(scfgData) h.(diversificationNonce) h.(clientHelloCounter)
    h.(serverVerified) h.(receivedSecurePacket) h.(nullAEAD) h.(secureAEAD) h.(forwardSecureAEAD) v
    h.(connectionParameters) h.(written) h.(files).
Definition set_connectionParameters (v : ConnParams.t) (h : t) : t :=
  mk h.(serverConfig) h.(stk) h.(sno) h.(nonc) h.(proof) h.(chloForSignature) h.(lastSentCHLO)
    h.(certManager) h.(certData) h.(scfgData) h.(diversificationNonce) h.(clientHelloCounter)
    h.(serverVerified) h.(receivedSecurePacket) h.(nullAEAD) h.(secureAEAD) h.(forwardSecureAEAD)
    h.(aeadChanged) v h.(written) h.(files).
Definition set_written (v : list (list Z)) (h : t) : t :=
  mk h.(serverConfig) h.(stk) h.(sno) h.(nonc) h.(proof) h.(chloForSignature) h.(lastSentCHLO)
    h.(certManager) h.(certData) h.(scfgData) h.(diversificationNonce) h.(clientHelloCounter)
    h.(serverVerified) h.(receivedSecurePacket) h.(nullAEAD) h.(secureAEAD) h.(forwardSecureAEAD)
    h.(aeadChanged) h.(connectionParameters) v h.(files).
Definition set_files (v : gmap (list Z) (list Z)) (h : t) : t :=
  mk h.(serverConfig) h.(stk) h.(sno) h.(nonc) h.(proof) h.(chloForSignature) h.(lastSentCHLO)
    h.(certManager) h.(certData) h.(scfgData) h.(diversificationNonce) h.(clientHelloCounter)
    h.(serverVerified) h.(receivedSecurePacket) h.(nullAEAD) h.(secureAEAD) h.(forwardSecureAEAD)
    h.(aeadChanged) h.(connectionParameters) h.(written) v.

(** What one step needs from outside: the time, the random bytes of a new key
    and of the client nonce. *)
Record Env : Type := mkEnv { now : Z; kexRandom : list Z; nonceRandom : list Z }.

Definition errNoObitForClientNonce : error := ErrorsNew "CryptoSetup BUG: No OBIT for client nonce available".
Definition errClientNonceAlreadyExists : error := ErrorsNew "CryptoSetup BUG: A client nonce was already generated".
Definition errConflictingDiversificationNonces : error := ErrorsNew "Received two different diversification nonces".

(** [NewCryptoSetupClient] *)
Definition New (cfg : config) (insecureSkipVerify : bool) (connectionParameters : ConnParams.t)
    (files : gmap (list Z) (list Z)) : t :=
  mk None [] [] [] [] [] [] (CertManager.mk [] insecureSkipVerify) [] [] [] 0 false false
    (NullAEAD.NewNullAEAD PerspectiveClient cfg.(version)) None None (mkChan [] false) connectionParameters [] files.

Definition send (level : Z) : ST t unit :=
  h ← get; c ← lift (sendLevel h.(aeadChanged) level); modify (set_aeadChanged c).
Definition write (b : list Z) : ST t unit := modify (fun h => set_written (h.(written) ++ [b]) h).

Definition leafCert (h : t) : list Z := default [] (CertManager.GetLeafCert h.(certManager)).

(** ** The handshake cache: files named after the host *)

Definition fileName (prefix : string) (cfg : config) : list Z := labelBytes prefix ++ cfg.(hostname).

(** [writeBinaryFile]: an existing file is left as it is. *)
Definition writeBinaryFile (name data : list Z) (files : gmap (list Z) (list Z)) : gmap (list Z) (list Z) :=
  match files !! name with Some _ => files | None => <[name := data]> files end.

Definition cacheHandshake (cfg : config) : ST t unit := modify (fun h =>
  set_files
    (writeBinaryFile (fileName "cache_scfg_" cfg) h.(scfgData)
    (writeBinaryFile (fileName "cache_cert_" cfg) h.(certData)
    (writeBinaryFile (fileName "cache_stk_" cfg) h.(stk)
    (writeBinaryFile (fileName "cache_sni_" cfg) cfg.(hostname) h.(files))))) h).

Definition generateClientNonce (env : Env) : ST t unit :=
  h ← get;
  _ ← require (Nat.eqb (length h.(nonc)) 0) errClientNonceAlreadyExists;
  let obit := match h.(serverConfig) with Some s => s.(ServerConfigClient.obit) | None => [] end in
  _ ← require (Nat.eqb (length obit) 8) errNoObitForClientNonce;
  modify (set_nonc (be_split 4 (u32 (env.(now) / Second)) ++ obit ++ env.(nonceRandom))).

(** [useHandshakeCache] ends at the first file that is missing or does not
    parse; what was read before stays set. *)
Definition useHandshakeCache (cfg : config) (env : Env) (h : t) : t :=
  match h.(files) !! fileName "cache_sni_" cfg with
  | None => h
  | Some sni =>
  if negb (bool_decide (cfg.(hostname) = sni)) then h else
  match h.(files) !! fileName "cache_stk_" cfg with
  | None => h
  | Some stk =>
  let h := set_stk stk h in
  match h.(files) !! fileName "cache_cert_" cfg with
  | None => h
  | Some certData =>
  let h := set_certData certData h in
  match CertManager.SetData h.(certManager) certData with
  | Ok cm =>
  let h := set_certManager cm h in
  match h.(files) !! fileName "cache_scfg_" cfg with
  | None => h
  | Some scfgData =>
  let h := set_scfgData scfgData h in
  match ServerConfigClient.parseServerConfig scfgData env.(kexRandom) with
  | Ok scfg =>
  let h := set_serverConfig (Some scfg) h in
  match generateClientNonce env h with
  | (h, Ok _) => set_serverVerified true h
  | (h, _) => h
  end
  | _ => set_serverConfig None h
  end end
  | _ => h
  end end end end.

(** ** Sending client hellos *)

Definition getTags (cfg : config) (h : t) : gmap Z (list Z) :=
  let tags := ConnParams.GetHelloMap h.(connectionParameters) in
  let tags := <[TagSNI := cfg.(hostname)]> tags in
  let tags := <[TagPDMD := X509]> tags in
  let ccs := CertManager.GetCommonCertificateHashes h.(certManager) in
  let tags := if negb (Nat.eqb (length ccs) 0) then <[TagCCS := ccs]> tags else tags in
  let tags := <[TagVER := le_split 4 (VersionNumberToTag cfg.(version))]> tags in
  let tags := if cfg.(RequestConnectionIDTruncation) then <[TagTCID := [0; 0; 0; 0]]> tags else tags in
  let tags := if negb (Nat.eqb (length h.(stk)) 0) then <[TagSTK := h.(stk)]> tags else tags in
  let tags := if negb (Nat.eqb (length h.(sno)) 0) then <[TagSNO := h.(sno)]> tags else tags in
  match h.(serverConfig) with
  | Some s =>
      let tags := <[TagSCID := s.(ServerConfigClient.ID)]> tags in
      match CertManager.GetLeafCert h.(certManager) with
      | Some leaf =>
          let tags := <[TagNONC := h.(nonc)]> tags in
          let tags := <[TagXLCT := le_split 8 (fnv64a leaf)]> tags in
          let tags := <[TagKEXS := C255]> tags in
          let tags := <[TagAEAD := AESG]> tags in
          <[TagPUBS := Kex.PublicKey s.(ServerConfigClient.kex)]> tags
      | None => tags
      end
  | None => tags
  end.

Definition tagsSize (tags : gmap Z (list Z)) : Z :=
  foldr (fun e size => 8 + Z.of_nat (length e.2) + size) 0 (map_to_list tags).

Definition addPadding (tags : gmap Z (list Z)) : gmap Z (list Z) :=
  let paddingSize := ClientHelloMinimumSize - tagsSize tags in
  if 0 <? paddingSize then <[TagPAD := replicate (Z.to_nat paddingSize) 0]> tags else tags.

Definition sendCHLO (cfg : config) : ST t unit :=
  _ ← modify (fun h => set_clientHelloCounter (h.(clientHelloCounter) + 1) h);
  h ← get;
  _ ← require (negb (MaxClientHellos <? h.(clientHelloCounter)))
        (QuicErrorf CryptoTooManyRejects "More than %d rejects" [MaxClientHellos]);
  let tags := addPadding (getTags cfg h) in
  let b := HandshakeMessage.bytes (HandshakeMessage.mk TagCHLO tags) in
  _ ← write b;
  modify (set_lastSentCHLO b).

(** [h.secureAEAD, err = h.keyDerivation(...)]: an error resets the field. *)
Definition assign (set : option AEAD -> t -> t) (r : res AEAD) : ST t unit :=
  match r with
  | Ok a => modify (set (Some a))
  | Err e => _ ← modify (set None); fail e
  | Panic => lift Panic
  end.

Definition maybeUpgradeCrypto (cfg : config) : ST t unit :=
  h ← get;
  if negb h.(serverVerified) then mret tt
  else
    match h.(secureAEAD), h.(serverConfig) with
    | None, Some s =>
        if negb (Nat.eqb (length s.(ServerConfigClient.sharedSecret)) 0) && negb (Nat.eqb (length h.(nonc)) 0)
           && negb (Nat.eqb (length (leafCert h)) 0) && negb (Nat.eqb (length h.(diversificationNonce)) 0)
           && negb (Nat.eqb (length h.(lastSentCHLO)) 0)
        then
          let nonce := h.(nonc) ++ h.(sno) in
          _ ← assign set_secureAEAD
                (keyDerivation false s.(ServerConfigClient.sharedSecret) nonce cfg.(connID) h.(lastSentCHLO)
                   (ServerConfigClient.Get s) (leafCert h) h.(diversificationNonce) PerspectiveClient);
          send EncryptionSecure
        else mret tt
    | _, _ => mret tt
    end.

(** ** Handling the server's messages *)

(** The host name of the certificate is not the one of the connection. *)
Definition verifiedHostname : list Z := labelBytes "quic.clemente.io".

Definition handleREJMessage (env : Env) (cryptoData : gmap Z (list Z)) : ST t unit :=
  _ ← when (present cryptoData TagSTK) (modify (set_stk (value cryptoData TagSTK)));
  _ ← when (present cryptoData TagSNO) (modify (set_sno (value cryptoData TagSNO)));
  _ ← (if present cryptoData TagSCFG then
         let data := value cryptoData TagSCFG in
         match ServerConfigClient.parseServerConfig data env.(kexRandom) with
         | Ok scfg =>
             _ ← modify (set_serverConfig (Some scfg));
             _ ← require (negb (ServerConfigClient.IsExpired scfg env.(now))) (ErrorCode CryptoServerConfigExpired);
             _ ← modify (set_scfgData data);
             h ← get;
             when (Nat.eqb (length h.(nonc)) 0) (generateClientNonce env)
         | Err e => _ ← modify (set_serverConfig None); fail e
         | Panic => lift Panic
         end
       else mret tt);
  _ ← when (present cryptoData TagPROF)
        (modify (fun h => set_chloForSignature h.(lastSentCHLO) (set_proof (value cryptoData TagPROF) h)));
  _ ← (if present cryptoData TagCERT then
         let crt := value cryptoData TagCERT in
         h ← get;
         match CertManager.SetData h.(certManager) crt with
         | Ok cm =>
             _ ← modify (fun h => set_certData crt (set_certManager cm h));
             match CertManager.Verify cm verifiedHostname with
             | Ok _ => mret tt
             | Err _ => fail (ErrorCode ProofInvalid)
             | Panic => lift Panic
             end
         | Err _ => fail (QuicError InvalidCryptoMessageParameter "Certificate data invalid")
         | Panic => lift Panic
         end
       else mret tt);
  h ← get;
  match h.(serverConfig), CertManager.GetLeafCert h.(certManager) with
  | Some s, Some _ =>
      if negb (Nat.eqb (length h.(proof)) 0) then
        validProof ← lift (CertManager.VerifyServerProof h.(certManager) h.(proof) h.(chloForSignature) (ServerConfigClient.Get s));
        _ ← require validProof (ErrorCode ProofInvalid);
        modify (set_serverVerified true)
      else mret tt
  | _, _ => mret tt
  end.

(** The loop of [validateVersionList]; the length was checked before. *)
Fixpoint matchVersions (negotiated : list Z) (b : list Z) : bool :=
  match negotiated with
  | [] => true
  | negotiatedVersion :: negotiated =>
      match ReadUint32 LittleEndian b with
      | Ok (verTag, b) =>
          let ver := VersionTagToNumber verTag in
          let ver := if IsSupportedVersion SupportedVersions ver then ver else VersionUnsupported in
          if ver =? negotiatedVersion then matchVersions negotiated b else false
      | _ => false
      end
  end.

Definition validateVersionList (cfg : config) (verTags : list Z) : bool :=
  match cfg.(negotiatedVersions) with
  | [] => true
  | _ =>
      if negb (Nat.eqb (length verTags mod 4) 0)
         || negb (Nat.eqb (length verTags / 4) (length cfg.(negotiatedVersions))) then false
      else matchVersions cfg.(negotiatedVersions) verTags
  end.

Definition handleSHLOMessage (cfg : config) (cryptoData : gmap Z (list Z)) : ST t unit :=
  h ← get;
  _ ← require h.(receivedSecurePacket) (QuicError CryptoEncryptionLevelIncorrect "unencrypted SHLO message");
  _ ← when (present cryptoData TagSNO) (modify (set_sno (value cryptoData TagSNO)));
  _ ← require (present cryptoData TagPUBS) (notFound "PUBS");
  let serverPubs := value cryptoData TagPUBS in
  _ ← require (present cryptoData TagVER)
        (QuicError InvalidCryptoMessageParameter "server hello missing version list");
  _ ← require (validateVersionList cfg (value cryptoData TagVER))
        (QuicError VersionNegotiationMismatch "Downgrade attack detected");
  h ← get;
  let nonce := h.(nonc) ++ h.(sno) in
  match h.(serverConfig) with
  | None => lift Panic
  | Some s =>
      ephermalSharedSecret ← lift (Kex.CalculateSharedKey s.(ServerConfigClient.kex) serverPubs);
      _ ← assign set_forwardSecureAEAD
            (keyDerivation true ephermalSharedSecret nonce cfg.(connID) h.(lastSentCHLO)
               (ServerConfigClient.Get s) (leafCert h) [] PerspectiveClient);
      h ← get;
      let '(params, e) := ConnParams.SetFromMap h.(connectionParameters) cryptoData in
      _ ← modify (set_connectionParameters params);
      _ ← match e with Some _ => fail (ErrorCode InvalidCryptoMessageParameter) | None => mret tt end;
      _ ← send EncryptionForwardSecure;
      h ← get;
      c ← lift (closeChan h.(aeadChanged));
      modify (set_aeadChanged c)
  end.

(** ** The loop of [HandleCryptoStream] *)

(** What the loop waits for. *)
Inductive Event : Type :=
| DivNonce (nonce : list Z)
| Message (m : HandshakeMessage.t)
| ReadError (e : error).

(** Before waiting: upgrade the keys, or send another hello. *)
Definition prepare (cfg : config) : ST t unit :=
  _ ← maybeUpgradeCrypto cfg;
  h ← get;
  match h.(secureAEAD) with None => sendCHLO cfg | Some _ => mret tt end.

Definition onEvent (cfg : config) (env : Env) (ev : Event) : ST t unit :=
  match ev with
  | DivNonce divNonce =>
      h ← get;
      _ ← require (negb (negb (Nat.eqb (length h.(diversificationNonce)) 0)
                         && negb (bool_decide (h.(diversificationNonce) = divNonce))))
            errConflictingDiversificationNonces;
      modify (set_diversificationNonce divNonce)
  | Message message =>
      if message.(HandshakeMessage.Tag) =? TagREJ then handleREJMessage env message.(HandshakeMessage.Data)
      else if message.(HandshakeMessage.Tag) =? TagSHLO then
        _ ← handleSHLOMessage cfg message.(HandshakeMessage.Data);
        when cfg.(CacheHandshake) (cacheHandshake cfg)
      else fail (ErrorCode InvalidCryptoMessageType)
  | ReadError e => fail (QuicErrorOf HandshakeFailed e)
  end.

(** The start of the loop, and one event with the preparation that follows it. *)
Definition start (cfg : config) (env : Env) : ST t unit :=
  _ ← when cfg.(CacheHandshake) (modify (useHandshakeCache cfg env));
  prepare cfg.

Definition step (cfg : config) (env : Env) (ev : Event) : ST t unit :=
  _ ← onEvent cfg env ev;
  prepare cfg.

(** ** Opening and sealing packets *)

Definition Open (src : list Z) (packetNumber : Z) (associatedData : list Z) (h : t) : t * res (list Z * Z) :=
  let tryNull (h : t) :=
    match Aead.Open h.(nullAEAD) src packetNumber associatedData with
    | Ok r => (h, Ok (r, EncryptionUnencrypted))
    | Err e => (h, Err e)
    | Panic => (h, Panic)
    end in
  match h.(forwardSecureAEAD) with
  | Some a =>
      match Aead.Open a src packetNumber associatedData with
      | Ok r => (h, Ok (r, EncryptionForwardSecure))
      | Err e => (h, Err e)
      | Panic => (h, Panic)
      end
  | None =>
      match h.(secureAEAD) with
      | Some a =>
          match Aead.Open a src packetNumber associatedData with
          | Ok r => (set_receivedSecurePacket true h, Ok (r, EncryptionSecure))
          | Err e => if h.(receivedSecurePacket) then (h, Err e) else tryNull h
          | Panic => (h, Panic)
          end
      | None => tryNull h
      end
  end.

Definition GetSealer (h : t) : Z * AEAD :=
  match h.(forwardSecureAEAD), h.(secureAEAD) with
  | Some a, _ => (EncryptionForwardSecure, a)
  | None, Some a => (EncryptionSecure, a)
  | None, None => (EncryptionUnencrypted, h.(nullAEAD))
  end.

Definition GetSealerForCryptoStream (h : t) : Z * AEAD := (EncryptionUnencrypted, h.(nullAEAD)).

Definition GetSealerWithEncryptionLevel (h : t) (encLevel : Z) : res AEAD :=
  if encLevel =? EncryptionUnencrypted then Ok h.(nullAEAD)
  else if encLevel =? EncryptionSecure then
    match h.(secureAEAD) with Some a => Ok a | None => Err (ErrorsNew "CryptoSetupClient: no secureAEAD") end
  else if encLevel =? EncryptionForwardSecure then
    match h.(forwardSecureAEAD) with Some a => Ok a | None => Err (ErrorsNew "CryptoSetupClient: no forwardSecureAEAD") end
  else Err (ErrorsNew "CryptoSetupClient: no encryption level specified").

End WithLibs.
End Client.
