(* ===== verification/CryptoSetupProofs.v ===== *)
(** * Correctness of the crypto setups

    Packets are never opened at a lower encryption level than an earlier packet, at
    either end and for every interleaving of packets and handshake messages, and
    the hellos a client sends are few and big enough. *)

From S2P Require Import Prelude ByteOrder Protocol MinMax WireHeader ConnParams HandshakeMessage Fnv Gcm Aead.
From S2P Require Import ServerConfig CryptoSetup.

(** ** Relations kept by handlers *)

(** A handler relates the state before it to the state after it, whatever it
    returns. *)
Definition keeps {S A} (R : relation S) (m : ST S A) : Prop := forall s, R s (m s).1.

Section Keeps.
Context {S : Type} (R : relation S) `{!PreOrder R}.

Lemma keeps_ret {A} (a : A) : keeps R (mret a).
Proof. intros s. reflexivity. Qed.
Lemma keeps_get : keeps R get.
Proof. intros s. reflexivity. Qed.
Lemma keeps_fail {A} e : keeps R (fail (A:=A) e).
Proof. intros s. reflexivity. Qed.
Lemma keeps_lift {A} (r : res A) : keeps R (lift r).
Proof. intros s. reflexivity. Qed.
Lemma keeps_modify f : (forall s, R s (f s)) -> keeps R (modify f).
Proof. intros H s. apply H. Qed.
Lemma keeps_bind {A B} (m : ST S A) (k : A -> ST S B) :
  keeps R m -> (forall a, keeps R (k a)) -> keeps R (m ≫= k).
Proof.
  intros Hm Hk s. unfold mbind, ST_bind. specialize (Hm s). destruct (m s) as [s' [a|e|]]; cbn in *; [|done..].
  etransitivity; [exact Hm|]. apply Hk.
Qed.
Lemma keeps_require c e : keeps R (require c e).
Proof. unfold require. destruct c; [apply keeps_ret|apply keeps_fail]. Qed.
Lemma keeps_when c m : keeps R m -> keeps R (when c m).
Proof. unfold when. destruct c; [done|]. intros _. apply keeps_ret. Qed.

End Keeps.

(** Walks through a handler; the assignments of the state are left. *)
Ltac solve_keeps :=
  repeat match goal with
  | |- keeps _ (mbind _ _) => apply keeps_bind; [apply _| |intros ?]
  | |- keeps _ (mret _) => apply keeps_ret; apply _
  | |- keeps _ get => apply keeps_get; apply _
  | |- keeps _ (fail _) => apply keeps_fail; apply _
  | |- keeps _ (lift _) => apply keeps_lift; apply _
  | |- keeps _ (require _ _) => apply keeps_require; apply _
  | |- keeps _ (when _ _) => apply keeps_when; [apply _|]
  | |- keeps _ (modify _) => apply keeps_modify; intros ?
  | |- keeps _ (match ?x with _ => _ end) => destruct x
  end.

Lemma bind_Ok {S A B} (m : ST S A) (k : A -> ST S B) s s' a :
  m s = (s', Ok a) -> (m ≫= k) s = k a s'.
Proof. intros H. unfold mbind, ST_bind. by rewrite H. Qed.

(** Keys can always be derived. *)
Lemma keyDerivation_Ok {keys : KeySchedule} fs secret nonces connID chlo scfg cert div pers :
  exists a, keyDerivation fs secret nonces connID chlo scfg cert div pers = Ok a.
Proof.
  destruct (AeadProofs.derived_keys_match newCipher hkdf fs secret nonces connID chlo scfg cert div)
    as (c & s & Hc & Hs & _). unfold keyDerivation. destruct pers; eauto.
Qed.

(** ** Encryption levels at the server *)

Module ServerLevels.
Import Server.
Section WithLibs.
Context {curve : Curve25519} {keys : KeySchedule} {codec : StkCodec} {chain : CertChain}.

(** What a handshake message cannot change: keys are only added. *)
Definition grows (h h' : t) : Prop :=
  h'.(receivedForwardSecurePacket) = h.(receivedForwardSecurePacket)
  /\ h'.(receivedSecurePacket) = h.(receivedSecurePacket)
  /\ (is_Some h.(secureAEAD) -> is_Some h'.(secureAEAD))
  /\ (is_Some h.(forwardSecureAEAD) -> is_Some h'.(forwardSecureAEAD)).

#[local] Instance grows_preorder : PreOrder grows.
Proof.
  split.
  - intros h. by repeat split.
  - intros a b c (? & ? & H1 & H2) (? & ? & H3 & H4). repeat split; try congruence; auto.
Qed.

Lemma assign_keeps (set : option AEAD -> t -> t) r :
  (exists a, r = Ok a) -> (forall a h, grows h (set (Some a) h)) -> keeps grows (assign set r).
Proof. intros [a ->] H. apply keeps_modify. intros h. apply H. Qed.

Lemma send_keeps level : keeps grows (send level).
Proof. unfold send. solve_keeps; by repeat split. Qed.

Lemma handleCHLO_keeps cfg env sni data m : keeps grows (handleCHLO cfg env sni data m).
Proof.
  unfold handleCHLO. solve_keeps; try apply send_keeps; try (by repeat split);
    (apply assign_keeps; [apply keyDerivation_Ok|intros; repeat split; eauto]).
Qed.

Lemma handleStream_keeps cfg env stream : keeps grows (handleStream cfg env stream).
Proof.
  unfold handleStream, handleMessage, write. solve_keeps;
    try (by repeat split); try apply handleCHLO_keeps; apply send_keeps.
Qed.

(** A packet that was opened proves that its keys were installed. *)
Definition inv (h : t) : Prop :=
  (h.(receivedForwardSecurePacket) = true -> is_Some h.(forwardSecureAEAD))
  /\ (h.(receivedSecurePacket) = true -> is_Some h.(secureAEAD)).

(** The lowest level at which a packet can still be opened. *)
Definition floor (h : t) : Z :=
  if h.(receivedForwardSecurePacket) then EncryptionForwardSecure
  else if h.(receivedSecurePacket) then EncryptionSecure else EncryptionUnencrypted.

Lemma grows_inv h h' : grows h h' -> inv h -> inv h' /\ floor h' = floor h.
Proof.
  intros (E1 & E2 & H1 & H2) [I1 I2]. unfold inv, floor. rewrite E1, E2. auto.
Qed.

Lemma Open_level src pn ad h h' r :
  inv h -> Open src pn ad h = Some (h', r) ->
  inv h' /\ floor h <= floor h' /\ match r with Ok (_, l) => floor h <= l <= floor h' | _ => True end.
Proof.
  intros Hi. unfold Open.
  destruct h as [dn null sec fs rfs rs sent ch cp wr]. unfold inv, floor in *. cbn in *.
  destruct Hi as [I1 I2].
  repeat (case_match; cbn in *; simplify_eq/=); intros; simplify_eq/=;
    unfold EncryptionForwardSecure, EncryptionSecure, EncryptionUnencrypted;
    try (destruct (I1 eq_refl); done); try (destruct (I2 eq_refl); done);
    split_and!; try (intros; eauto; done); try lia.
Qed.

(** What arrives at a server: bytes of the crypto stream, and packets. *)
Inductive Op : Type :=
| OnStream (env : Env) (stream : list Z)
| OnPacket (src : list Z) (pn : Z) (ad : list Z).

(** The levels of the packets that were opened. *)
Fixpoint opened (cfg : config) (ops : list Op) (h : t) : list Z :=
  match ops with
  | [] => []
  | OnStream env stream :: ops => opened cfg ops (handleStream cfg env stream h).1
  | OnPacket src pn ad :: ops =>
      match Open src pn ad h with
      | Some (h, Ok (_, l)) => l :: opened cfg ops h
      | Some (h, _) => opened cfg ops h
      | None => opened cfg ops h
      end
  end.

Lemma opened_sorted cfg ops : forall h, inv h ->
  StronglySorted Z.le (opened cfg ops h) /\ Forall (Z.le (floor h)) (opened cfg ops h).
Proof.
  induction ops as [|[env stream|src pn ad] ops IH]; intros h Hi; cbn [opened]; [by split; constructor| |].
  - destruct (grows_inv h (handleStream cfg env stream h).1 (handleStream_keeps _ _ _ h) Hi) as [Hi' <-]. by apply IH.
  - destruct (Open src pn ad h) as [[h' r]|] eqn:E; [|by apply IH].
    destruct (Open_level _ _ _ _ _ _ Hi E) as (Hi' & Hf & Hl). destruct (IH h' Hi') as [Hs Hall].
    destruct r as [[p l]|e|].
    + split; constructor; try done; (eapply Forall_impl; [exact Hall|]; intros ? ?; lia) || lia.
    + split; [done|]. eapply Forall_impl; [exact Hall|]. intros ? ?; cbn in *; lia.
    + split; [done|]. eapply Forall_impl; [exact Hall|]. intros ? ?; cbn in *; lia.
Qed.

End WithLibs.
End ServerLevels.

(** ** Encryption levels and hellos at the client *)

Module ClientLevels.
Import Client.
Section WithLibs.
Context {curve : Curve25519} {keys : KeySchedule} {x509 : X509Lib}.

(** Keys are only added, and hellos written only by [sendCHLO]. *)
Definition grows (h h' : t) : Prop :=
  h'.(receivedSecurePacket) = h.(receivedSecurePacket)
  /\ (is_Some h.(secureAEAD) -> is_Some h'.(secureAEAD))
  /\ (is_Some h.(forwardSecureAEAD) -> is_Some h'.(forwardSecureAEAD)).
Definition silent (h h' : t) : Prop :=
  h'.(clientHelloCounter) = h.(clientHelloCounter) /\ h'.(written) = h.(written).
Definition quiet (h h' : t) : Prop := grows h h' /\ silent h h'.

#[local] Instance grows_preorder : PreOrder grows.
Proof.
  split.
  - intros h. by repeat split.
  - intros a b c (? & H1 & H2) (? & H3 & H4). repeat split; try congruence; auto.
Qed.
#[local] Instance quiet_preorder : PreOrder quiet.
Proof.
  split.
  - intros h. by repeat split.
  - intros a b c [H1 [? ?]] [H2 [? ?]]. split; [by etransitivity|]. split; congruence.
Qed.

Ltac solve_quiet := solve_keeps; try (by repeat split).

Lemma client_assign_keeps (set : option AEAD -> t -> t) r :
  (exists a, r = Ok a) -> (forall a h, quiet h (set (Some a) h)) -> keeps quiet (assign set r).
Proof. intros [a ->] H. apply keeps_modify. intros h. apply H. Qed.

Lemma client_send_keeps level : keeps quiet (send level).
Proof. unfold send. solve_quiet. Qed.

Lemma generateClientNonce_keeps env : keeps quiet (generateClientNonce env).
Proof. unfold generateClientNonce. solve_quiet. Qed.

Lemma maybeUpgradeCrypto_keeps cfg : keeps quiet (maybeUpgradeCrypto cfg).
Proof.
  unfold maybeUpgradeCrypto. solve_keeps; [|apply client_send_keeps].
  apply client_assign_keeps; [apply keyDerivation_Ok|intros; repeat split; cbn; eauto].
Qed.

Lemma handleREJMessage_keeps env m : keeps quiet (handleREJMessage env m).
Proof. unfold handleREJMessage. solve_quiet; apply generateClientNonce_keeps. Qed.

Lemma handleSHLOMessage_keeps cfg m : keeps quiet (handleSHLOMessage cfg m).
Proof.
  unfold handleSHLOMessage. solve_keeps; first
    [ apply client_send_keeps
    | apply client_assign_keeps; [apply keyDerivation_Ok|intros; repeat split; cbn; eauto]
    | by repeat split ].
Qed.

Lemma onEvent_keeps cfg env ev : keeps quiet (onEvent cfg env ev).
Proof.
  unfold onEvent, cacheHandshake. solve_quiet; try apply handleREJMessage_keeps; apply handleSHLOMessage_keeps.
Qed.

Lemma useHandshakeCache_keeps cfg env h : quiet h (useHandshakeCache cfg env h).
Proof.
  unfold useHandshakeCache. cbv zeta.
  repeat match goal with
  | |- quiet _ (match ?x with _ => _ end) =>
      lazymatch x with
      | generateClientNonce _ ?h' =>
          let H := fresh in pose proof (generateClientNonce_keeps env h') as H; destruct x as [? [?| |]]; cbn [fst] in H;
          (etransitivity; [|first [exact H|etransitivity; [exact H|]]]); by repeat split
      | _ => destruct x
      end
  end; by repeat split.
Qed.

(** ** Levels *)

Definition inv (h : t) : Prop := h.(receivedSecurePacket) = true -> is_Some h.(secureAEAD).
Definition floor (h : t) : Z :=
  match h.(forwardSecureAEAD) with
  | Some _ => EncryptionForwardSecure
  | None => if h.(receivedSecurePacket) then EncryptionSecure else EncryptionUnencrypted
  end.

Lemma client_grows_inv h h' : grows h h' -> inv h -> inv h' /\ floor h <= floor h'.
Proof.
  intros (E & H1 & H2) Hi. unfold inv, floor. rewrite E. split; [auto|].
  unfold EncryptionForwardSecure, EncryptionSecure, EncryptionUnencrypted.
  destruct (forwardSecureAEAD h) as [a|].
  - destruct (H2 ltac:(eauto)) as [? ->]. lia.
  - repeat case_match; lia.
Qed.

Lemma client_Open_level src pn ad h h' r :
  inv h -> Open src pn ad h = (h', r) ->
  inv h' /\ floor h <= floor h' /\ match r with Ok (_, l) => floor h <= l <= floor h' | _ => True end.
Proof.
  intros Hi. unfold Open.
  destruct h as [f1 f2 f3 f4 f5 f6 f7 f8 f9 f10 f11 f12 f13 rs null sec fs ch cp wr fl].
  unfold inv, floor in *. cbn in *.
  unfold EncryptionForwardSecure, EncryptionSecure, EncryptionUnencrypted in *.
  repeat (case_match; cbn in *; simplify_eq/=); intros; simplify_eq/=;
    try (destruct (Hi eq_refl); done);
    split_and!; try (intros; eauto; done); try lia.
Qed.

Lemma sendCHLO_grows cfg : keeps grows (sendCHLO cfg).
Proof. unfold sendCHLO, write. solve_keeps; by repeat split. Qed.

Lemma keeps_weaken {A} (m : ST t A) : keeps quiet m -> keeps grows m.
Proof. intros H s. apply H. Qed.

Lemma prepare_grows cfg : keeps grows (prepare cfg).
Proof.
  unfold prepare. solve_keeps; [apply keeps_weaken, maybeUpgradeCrypto_keeps|apply sendCHLO_grows].
Qed.

Lemma step_grows cfg env ev : keeps grows (step cfg env ev).
Proof. unfold step. solve_keeps; [apply keeps_weaken, onEvent_keeps|apply prepare_grows]. Qed.

Lemma start_grows cfg env : keeps grows (start cfg env).
Proof.
  unfold start. solve_keeps; [|apply prepare_grows]. apply (useHandshakeCache_keeps cfg env).
Qed.

(** What happens at a client: the start of the handshake, an event of its
    loop, or a packet. *)
Inductive Op : Type :=
| Start (env : Env)
| OnEvent (env : Env) (ev : Event)
| OnPacket (src : list Z) (pn : Z) (ad : list Z).

Definition run (cfg : config) (op : Op) (h : t) : t * option Z :=
  match op with
  | Start env => ((start cfg env h).1, None)
  | OnEvent env ev => ((step cfg env ev h).1, None)
  | OnPacket src pn ad =>
      match Open src pn ad h with
      | (h, Ok (_, l)) => (h, Some l)
      | (h, _) => (h, None)
      end
  end.

Fixpoint opened (cfg : config) (ops : list Op) (h : t) : list Z :=
  match ops with
  | [] => []
  | op :: ops =>
      match run cfg op h with
      | (h, Some l) => l :: opened cfg ops h
      | (h, None) => opened cfg ops h
      end
  end.

Lemma run_level cfg op h : inv h ->
  let '(h', l) := run cfg op h in
  inv h' /\ floor h <= floor h' /\ match l with Some l => floor h <= l <= floor h' | None => True end.
Proof.
  intros Hi. destruct op as [env|env ev|src pn ad]; cbn [run].
  - destruct (client_grows_inv h _ (start_grows cfg env h) Hi). done.
  - destruct (client_grows_inv h _ (step_grows cfg env ev h) Hi). done.
  - destruct (Open src pn ad h) as [h' r] eqn:E. destruct (client_Open_level _ _ _ _ _ _ Hi E) as (H1 & H2 & H3).
    by destruct r as [[? ?]| |].
Qed.

Lemma client_opened_sorted cfg ops : forall h, inv h ->
  StronglySorted Z.le (opened cfg ops h) /\ Forall (Z.le (floor h)) (opened cfg ops h).
Proof.
  induction ops as [|op ops IH]; intros h Hi; cbn [opened]; [by split; constructor|].
  pose proof (run_level cfg op h Hi) as Hr. destruct (run cfg op h) as [h' [l|]];
    destruct Hr as (Hi' & Hf & Hl); destruct (IH h' Hi') as [Hs Hall].
  - split; constructor; try done; (eapply Forall_impl; [exact Hall|]; intros ? ?; lia) || lia.
  - split; [done|]. eapply Forall_impl; [exact Hall|]. intros ? ?; cbn in *; lia.
Qed.

(** ** Client hellos *)

(** Every hello written is counted, and big enough for the server to answer. *)
Definition hellos_ok (h : t) : Prop :=
  Z.of_nat (length h.(written)) <= Z.min h.(clientHelloCounter) MaxClientHellos
  /\ Forall (fun b => ClientHelloMinimumSize <= Z.of_nat (length b)) h.(written).

Lemma tagsSize_insert tags v : tags !! TagPAD = None ->
  tagsSize (<[TagPAD := v]> tags) = 8 + Z.of_nat (length v) + tagsSize tags.
Proof.
  intros H. unfold tagsSize.
  transitivity (foldr (fun e size => 8 + Z.of_nat (length e.2) + size) 0 ((TagPAD, v) :: map_to_list tags)); [|done].
  apply foldr_permutation_proper; [apply _|solve_proper|intros; lia|]. by apply map_to_list_insert.
Qed.

Lemma getTags_no_pad cfg h : getTags cfg h !! TagPAD = None.
Proof.
  unfold getTags, ConnParams.GetHelloMap. repeat case_match;
    repeat (rewrite lookup_insert_ne by discriminate); apply lookup_empty.
Qed.

Lemma hello_size cfg h :
  ClientHelloMinimumSize
  <= Z.of_nat (length (HandshakeMessage.bytes (HandshakeMessage.mk TagCHLO (addPadding (getTags cfg h))))).
Proof.
  rewrite HandshakeMessageProofs.length_bytes. cbn [HandshakeMessage.Data]. fold (tagsSize (addPadding (getTags cfg h))).
  unfold addPadding. destruct (Z.ltb_spec 0 (ClientHelloMinimumSize - tagsSize (getTags cfg h))); [|lia].
  rewrite tagsSize_insert by apply getTags_no_pad. rewrite length_replicate. lia.
Qed.

Lemma sendCHLO_hellos cfg h : hellos_ok h -> hellos_ok (sendCHLO cfg h).1.
Proof.
  intros [Hn Hs]. unfold sendCHLO, modify, get, require, write, mbind, ST_bind. cbn [mret ST_ret].
  cbn [clientHelloCounter set_clientHelloCounter].
  destruct (Z.ltb_spec MaxClientHellos (clientHelloCounter h + 1)) as [Hlt|Hge]; cbn.
  - split; cbn; [lia|done].
  - split; cbn [written clientHelloCounter set_lastSentCHLO set_written set_clientHelloCounter].
    + rewrite length_app. cbn [length]. lia.
    + apply Forall_app. split; [done|]. apply Forall_singleton, hello_size.
Qed.

Lemma quiet_hellos {A} (m : ST t A) : keeps quiet m -> forall h, hellos_ok h -> hellos_ok (m h).1.
Proof. intros Hm h Hh. destruct (Hm h) as [_ [E1 E2]]. unfold hellos_ok. by rewrite E1, E2. Qed.

Lemma bind_hellos {A B} (m : ST t A) (k : A -> ST t B) :
  (forall h, hellos_ok h -> hellos_ok (m h).1) -> (forall a h, hellos_ok h -> hellos_ok (k a h).1) ->
  forall h, hellos_ok h -> hellos_ok ((m ≫= k) h).1.
Proof.
  intros Hm Hk h Hh. unfold mbind, ST_bind. specialize (Hm h Hh). destruct (m h) as [h' [a| |]]; cbn in *; auto.
Qed.

Lemma prepare_hellos cfg : forall h, hellos_ok h -> hellos_ok (prepare cfg h).1.
Proof.
  apply bind_hellos; [apply quiet_hellos, maybeUpgradeCrypto_keeps|intros _].
  apply bind_hellos; [done|]. intros h' h. destruct (secureAEAD h'); [done|apply sendCHLO_hellos].
Qed.

Lemma run_hellos cfg op h : hellos_ok h -> hellos_ok (run cfg op h).1.
Proof.
  intros Hh. destruct op as [env|env ev|src pn ad]; cbn [run fst].
  - revert h Hh. apply bind_hellos; [|intros _; apply prepare_hellos].
    apply quiet_hellos. apply keeps_when; [apply _|]. apply keeps_modify. apply useHandshakeCache_keeps.
  - revert h Hh. apply bind_hellos; [apply quiet_hellos, onEvent_keeps|intros _; apply prepare_hellos].
  - assert (E : forall h' r, Open src pn ad h = (h', r) -> silent h h').
    { intros h' r. unfold Open. repeat case_match; intros; simplify_eq/=; done. }
    destruct (Open src pn ad h) as [h' r]. destruct (E _ _ eq_refl) as [E1 E2].
    unfold hellos_ok in *. destruct r as [[? ?]| |]; cbn [fst]; by rewrite E1, E2.
Qed.

Fixpoint final (cfg : config) (ops : list Op) (h : t) : t :=
  match ops with [] => h | op :: ops => final cfg ops (run cfg op h).1 end.

End WithLibs.
End ClientLevels.

(** C8: whatever packets and handshake messages arrive in whatever order, neither the
    server nor the client ever opens a packet at a lower encryption level than a
    packet it has opened before: once a packet was opened with the secure or the
    forward-secure keys, unencrypted or less protected packets are refused. *)
Theorem levels_never_drop {curve : Curve25519} {keys : KeySchedule} {codec : StkCodec} {chain : CertChain} {x509 : X509Lib}
    scfg ccfg serverParams clientParams skip files serverOps clientOps :
  StronglySorted Z.le (ServerLevels.opened scfg serverOps (Server.New scfg serverParams))
  /\ StronglySorted Z.le (ClientLevels.opened ccfg clientOps (Client.New ccfg skip clientParams files)).
Proof.
  split; [apply ServerLevels.opened_sorted|apply ClientLevels.client_opened_sorted].
  - by split.
  - done.
Qed.

(** Whatever a server answers, a client writes at most [MaxClientHellos] client
    hellos, and every one of them has at least the size below which the server
    refuses it. *)
Theorem client_hellos_bounded {curve : Curve25519} {keys : KeySchedule} {x509 : X509Lib} cfg skip params files ops :
  let h := ClientLevels.final cfg ops (Client.New cfg skip params files) in
  Z.of_nat (length h.(Client.written)) <= MaxClientHellos
  /\ Forall (fun b => ClientHelloMinimumSize <= Z.of_nat (length b)) h.(Client.written).
Proof.
  assert (H : forall ops h, ClientLevels.hellos_ok h -> ClientLevels.hellos_ok (ClientLevels.final cfg ops h)).
  { clear ops. induction ops as [|op ops IH]; intros h Hh; [done|]. apply IH, ClientLevels.run_hellos, Hh. }
  destruct (H ops (Client.New cfg skip params files)) as [Hn Hs]; [by split; [cbn; unfold MaxClientHellos; lia|constructor]|].
  split; [lia|done].
Qed.
