(* ===== verification/Handshake.v ===== *)
(** * The handshake of a client and a server

    The two crypto setups composed: every message is sealed by its sender's
    crypto stream sealer and opened by the receiver, and the diversification
    nonce reaches the client in the header of the first packet sealed with the
    secure keys.  A connection with a server the client knows nothing about takes
    three client hellos (no token, no proof, complete); it is shown to end with
    matching secure and forward-secure keys and negotiated parameters on both
    sides. *)

From S2P Require Import Prelude ByteOrder Protocol MinMax WireHeader ConnParams HandshakeMessage Fnv Gcm Aes AesProofs Aead.
From S2P Require Import ServerConfig CryptoSetup CryptoSetupProofs.
Import HandshakeMessageProofs.

Module Handshake.
Section WithLibs.
Context {curve : Curve25519} {keys : KeySchedule} {codec : StkCodec} {chain : CertChain} {x509 : X509Lib}.

(** A client hello on its way: sealed by the client, opened by the server and
    handled; the reply is what the server wrote last. *)
Definition toServer (scfg : Server.config) (env : Server.Env) (pn : Z) (c : Client.t) (s : Server.t)
  : option (Server.t * bool * list Z) :=
  match last c.(Client.written) with
  | None => None
  | Some chlo =>
      match Seal (Client.GetSealerForCryptoStream c).2 chlo pn [] with
      | Ok packet =>
          match Server.Open packet pn [] s with
          | Some (s, Ok (stream, _)) =>
              match Server.handleStream scfg env stream s with
              | (s, Ok (done, _)) => match last s.(Server.written) with Some r => Some (s, done, r) | None => None end
              | _ => None
              end
          | _ => None
          end
      | _ => None
      end
  end.

(** The reply on its way back; a packet sealed with the secure keys carries the
    diversification nonce. *)
Definition toClient (ccfg : Client.config) (env : Client.Env) (pn : Z) (reply : list Z) (s : Server.t) (c : Client.t)
  : option Client.t :=
  let '(level, sealer) := Server.GetSealerForCryptoStream s in
  match Seal sealer reply pn [] with
  | Ok packet =>
      let c := if level =? EncryptionSecure
               then Client.step ccfg env (Client.DivNonce (Server.DiversificationNonce s)) c else (c, Ok tt) in
      match c with
      | (c, Ok _) =>
          match Client.Open packet pn [] c with
          | (c, Ok (stream, _)) =>
              match HandshakeMessage.ParseHandshakeMessage stream with
              | Ok (m, _) =>
                  match Client.step ccfg env (Client.Message m) c with (c, Ok _) => Some c | _ => None end
              | _ => None
              end
          | _ => None
          end
      | _ => None
      end
  | _ => None
  end.

Definition round (scfg : Server.config) (ccfg : Client.config) (senv : Server.Env) (cenv : Client.Env) (pn : Z)
    (st : Client.t * Server.t) : option (Client.t * Server.t * bool) :=
  match toServer scfg senv pn st.1 st.2 with
  | Some (s, done, reply) =>
      match toClient ccfg cenv pn reply s st.1 with Some c => Some (c, s, done) | None => None end
  | None => None
  end.

End WithLibs.
End Handshake.

Module HandshakeProofs.
Import Handshake ServerConfigProofs.

(** ** The tags of a message *)

Definition tags_ok (n : nat) (m : gmap Z (list Z)) : Prop := entries_ok m /\ (size m <= n)%nat.
Definition value_ok (v : list Z) : Prop := Z.of_nat (length v) <= CryptoParameterMaxLength.

Lemma tags_ok_empty : tags_ok 0 ∅.
Proof. split; [apply map_Forall_empty|]. by rewrite map_size_empty. Qed.

Lemma tags_ok_insert n m k v : in_width 32 k -> value_ok v -> tags_ok n m -> tags_ok (S n) (<[k := v]> m).
Proof.
  intros Hk Hv [He Hs]. split; [by apply map_Forall_insert_2|].
  pose proof (size_insert_le m k v). lia.
Qed.

Lemma tags_ok_weaken n n' m : (n <= n')%nat -> tags_ok n m -> tags_ok n' m.
Proof. intros Hn [He Hs]. split; [done|lia]. Qed.

Lemma tags_ok_if (c : bool) n m k v :
  in_width 32 k -> (c = true -> value_ok v) -> tags_ok n m -> tags_ok (S n) (if c then <[k := v]> m else m).
Proof.
  intros Hk Hv Hm. destruct c; [by apply tags_ok_insert; auto|]. eapply tags_ok_weaken; [|exact Hm]. lia.
Qed.

Lemma tags_msg_ok n m tag : in_width 32 tag -> Z.of_nat n <= CryptoMaxParams -> tags_ok n m -> msg_ok (HandshakeMessage.mk tag m).
Proof. intros Ht Hn [He Hs]. split_and!; [done|cbn; lia|done]. Qed.

Lemma hello_tags_ok p : tags_ok 5 (ConnParams.GetHelloMap p).
Proof.
  unfold ConnParams.GetHelloMap.
  repeat (apply tags_ok_insert; [by vm_compute| |]); [..|apply tags_ok_empty];
    unfold value_ok, ConnParams.uint32Bytes; rewrite bo_WriteUint32; cbn [app];
    rewrite bo_enc_length; vm_compute; discriminate.
Qed.

Lemma size_value_ok (n : nat) v : length v = n -> (n <= 4000)%nat -> value_ok v.
Proof. intros <- H. unfold value_ok, CryptoParameterMaxLength. lia. Qed.

Lemma lookup_if (c : bool) k v (m : gmap Z (list Z)) k' :
  k <> k' -> (if c then <[k := v]> m else m) !! k' = m !! k'.
Proof. intros H. destruct c; [by apply lookup_insert_ne|done]. Qed.

Ltac skip_tags :=
  repeat first [rewrite lookup_if by discriminate|rewrite lookup_insert_ne by discriminate|rewrite lookup_insert_eq].

Lemma present_Some (m : gmap Z (list Z)) k v : m !! k = Some v -> present m k = true.
Proof. intros H. unfold present. rewrite H. by apply bool_decide_eq_true_2. Qed.
Lemma present_None (m : gmap Z (list Z)) k : m !! k = None -> present m k = false.
Proof. intros H. unfold present. rewrite H. apply bool_decide_eq_false_2. by intros [? ?]. Qed.
Lemma value_Some (m : gmap Z (list Z)) k v : m !! k = Some v -> value m k = v.
Proof. intros H. unfold value. by rewrite H. Qed.

(** ** Client hellos *)

Section ClientHello.
Context {curve : Curve25519} {keys : KeySchedule} {x509 : X509Lib}.
Import Client.

Definition hello (cfg : config) (h : t) : gmap Z (list Z) := addPadding (getTags cfg h).
Definition hello_bytes (cfg : config) (h : t) : list Z :=
  HandshakeMessage.bytes (HandshakeMessage.mk TagCHLO (hello cfg h)).

Definition client_ok (cfg : config) (h : t) : Prop :=
  value_ok cfg.(hostname) /\ value_ok getCommonCertificateHashes /\ value_ok h.(stk) /\ value_ok h.(sno)
  /\ value_ok h.(nonc)
  /\ match h.(serverConfig) with
     | Some s => value_ok s.(ServerConfigClient.ID) /\ value_ok (Kex.PublicKey s.(ServerConfigClient.kex))
     | None => True
     end.

(** The hello without the part for a known server config. *)
Lemma getTags_ok cfg h : client_ok cfg h -> tags_ok 18 (getTags cfg h).
Proof.
  intros (H1 & H2 & H3 & H4 & H5 & H6). unfold getTags.
  match goal with |- context [match serverConfig h with Some _ => _ | None => ?b end] => set (base := b) end.
  assert (Hb : tags_ok 12 base).
  { unfold base. cbv zeta.
    apply tags_ok_if; [by vm_compute|by intros _|]. apply tags_ok_if; [by vm_compute|by intros _|].
    apply tags_ok_if; [by vm_compute|intros _; by eapply size_value_ok; [reflexivity|cbn; lia]|].
    apply tags_ok_insert; [by vm_compute|eapply size_value_ok; [apply length_le_split|lia]|].
    apply tags_ok_if; [by vm_compute|by intros _|].
    apply tags_ok_insert; [by vm_compute|by eapply size_value_ok; [reflexivity|cbn; lia]|].
    apply tags_ok_insert; [by vm_compute|exact H1|]. apply hello_tags_ok. }
  clearbody base. destruct (serverConfig h) as [s|]; [|eapply tags_ok_weaken; [|exact Hb]; lia].
  destruct H6 as [H6 H7]. destruct (CertManager.GetLeafCert (certManager h)) as [leaf|];
    [|eapply tags_ok_weaken; [|apply tags_ok_insert; [by vm_compute|done|exact Hb]]; lia].
  eapply tags_ok_weaken; [|repeat (apply tags_ok_insert; [by vm_compute| |]); [..|exact Hb]]; try done;
    (eapply size_value_ok; [by rewrite ?length_le_split|cbn; lia]).
Qed.

Definition baseTags (cfg : config) (h : t) : gmap Z (list Z) :=
  let tags := <[TagPDMD := X509]> (<[TagSNI := cfg.(hostname)]> (ConnParams.GetHelloMap h.(connectionParameters))) in
  let ccs := CertManager.GetCommonCertificateHashes h.(certManager) in
  let tags := if negb (Nat.eqb (length ccs) 0) then <[TagCCS := ccs]> tags else tags in
  let tags := <[TagVER := le_split 4 (VersionNumberToTag cfg.(version))]> tags in
  let tags := if cfg.(RequestConnectionIDTruncation) then <[TagTCID := [0; 0; 0; 0]]> tags else tags in
  let tags := if negb (Nat.eqb (length h.(stk)) 0) then <[TagSTK := h.(stk)]> tags else tags in
  if negb (Nat.eqb (length h.(sno)) 0) then <[TagSNO := h.(sno)]> tags else tags.

(** What every hello says. *)
Lemma base_lookup cfg h :
  let m := baseTags cfg h in
  m !! TagFHL2 = None /\ m !! TagNSTP = None /\ m !! TagSNI = Some cfg.(hostname)
  /\ m !! TagVER = Some (le_split 4 (VersionNumberToTag cfg.(version)))
  /\ value m TagSTK = h.(stk) /\ m !! TagPUBS = None
  /\ (m !! TagTCID = None \/ m !! TagTCID = Some [0; 0; 0; 0])
  /\ ConnParamsProofs.same_params m (ConnParams.GetHelloMap h.(connectionParameters)).
Proof.
  unfold baseTags, ConnParamsProofs.same_params. cbv zeta.
  assert (Hh : forall k, k <> TagICSL -> k <> TagMSPC -> k <> TagMIDS -> k <> TagCFCW -> k <> TagSFCW ->
    ConnParams.GetHelloMap (connectionParameters h) !! k = None).
  { intros k H1 H2 H3 H4 H5. unfold ConnParams.GetHelloMap. by rewrite !lookup_insert_ne by congruence. }
  split_and!; skip_tags; try done; try (apply Hh; discriminate).
  - unfold value. skip_tags. destruct (stk h) as [|b l] eqn:E; cbn [length Nat.eqb negb]; skip_tags; [|done].
    rewrite Hh by discriminate. done.
  - destruct (RequestConnectionIDTruncation cfg); skip_tags; [by right|]. left. apply Hh; discriminate.
Qed.

Lemma getTags_base cfg h :
  getTags cfg h = match h.(serverConfig) with
                  | Some s =>
                      let tags := <[TagSCID := s.(ServerConfigClient.ID)]> (baseTags cfg h) in
                      match CertManager.GetLeafCert h.(certManager) with
                      | Some leaf =>
                          <[TagPUBS := Kex.PublicKey s.(ServerConfigClient.kex)]> (<[TagAEAD := AESG]>
                            (<[TagKEXS := C255]> (<[TagXLCT := le_split 8 (fnv64a leaf)]> (<[TagNONC := h.(nonc)]> tags))))
                      | None => tags
                      end
                  | None => baseTags cfg h
                  end.
Proof. reflexivity. Qed.

Lemma getTags_other cfg h k :
  k <> TagSCID -> k <> TagPUBS -> k <> TagAEAD -> k <> TagKEXS -> k <> TagXLCT -> k <> TagNONC ->
  getTags cfg h !! k = baseTags cfg h !! k.
Proof.
  intros. rewrite getTags_base. destruct (serverConfig h); [|done].
  destruct (CertManager.GetLeafCert _); by rewrite !lookup_insert_ne by congruence.
Qed.

Lemma hello_getTags cfg h k : k <> TagPAD -> hello cfg h !! k = getTags cfg h !! k.
Proof. intros Hk. unfold hello, addPadding. case_match; [|done]. by apply lookup_insert_ne. Qed.

Lemma hello_base cfg h k :
  k <> TagPAD -> k <> TagSCID -> k <> TagPUBS -> k <> TagAEAD -> k <> TagKEXS -> k <> TagXLCT -> k <> TagNONC ->
  hello cfg h !! k = baseTags cfg h !! k.
Proof. intros. rewrite hello_getTags by done. by apply getTags_other. Qed.

(** What the server reads from every hello ... *)
Lemma hello_common cfg h :
  let m := hello cfg h in
  present m TagFHL2 = false /\ present m TagNSTP = false
  /\ present m TagSNI = true /\ value m TagSNI = cfg.(hostname)
  /\ present m TagVER = true /\ value m TagVER = le_split 4 (VersionNumberToTag cfg.(version))
  /\ value m TagSTK = h.(stk).
Proof.
  cbv zeta. unfold present, value. rewrite !hello_base by discriminate.
  destruct (base_lookup cfg h) as (L1 & L2 & L3 & L4 & L5 & _). unfold value in L5. rewrite L1, L2, L3, L4. done.
Qed.

Lemma hello_params cfg h :
  let m := hello cfg h in
  (m !! TagTCID = None \/ m !! TagTCID = Some [0; 0; 0; 0])
  /\ ConnParamsProofs.same_params m (ConnParams.GetHelloMap h.(connectionParameters)).
Proof.
  cbv zeta. unfold ConnParamsProofs.same_params. rewrite !hello_base by discriminate.
  destruct (base_lookup cfg h) as (_ & _ & _ & _ & _ & _ & L7 & L8). by split.
Qed.

(** ... the certificates the client has, ... *)
Lemma hello_hashes cfg h :
  value (hello cfg h) TagCCS = getCommonCertificateHashes /\ value (hello cfg h) TagCCRT = [].
Proof.
  unfold value. rewrite !hello_base by discriminate. unfold baseTags, CertManager.GetCommonCertificateHashes.
  assert (Hh : forall k, k = TagCCS \/ k = TagCCRT -> ConnParams.GetHelloMap (connectionParameters h) !! k = None)
    by (intros k [-> | ->]; unfold ConnParams.GetHelloMap; by rewrite !lookup_insert_ne by discriminate).
  split; skip_tags; [|by rewrite Hh by auto]. destruct getCommonCertificateHashes; cbn [length Nat.eqb negb]; skip_tags; [|done].
  by rewrite Hh by auto.
Qed.

(** ... and from a complete one. *)
Lemma hello_inchoate cfg h :
  h.(serverConfig) = None \/ CertManager.GetLeafCert h.(certManager) = None -> present (hello cfg h) TagPUBS = false.
Proof.
  intros H. unfold present. rewrite hello_getTags by discriminate. rewrite getTags_base.
  destruct (base_lookup cfg h) as (_ & _ & _ & _ & _ & L6 & _).
  destruct (serverConfig h); [|by rewrite L6]. destruct H as [H|H]; [done|]. rewrite H. cbv zeta.
  by rewrite lookup_insert_ne, L6 by discriminate.
Qed.

Lemma hello_complete cfg h s leaf :
  h.(serverConfig) = Some s -> CertManager.GetLeafCert h.(certManager) = Some leaf ->
  let m := hello cfg h in
  m !! TagPUBS = Some (Kex.PublicKey s.(ServerConfigClient.kex)) /\ m !! TagSCID = Some s.(ServerConfigClient.ID)
  /\ m !! TagXLCT = Some (le_split 8 (fnv64a leaf)) /\ m !! TagNONC = Some h.(nonc)
  /\ m !! TagAEAD = Some AESG /\ m !! TagKEXS = Some C255.
Proof.
  intros Hs Hl. cbv zeta. rewrite !hello_getTags by discriminate. rewrite getTags_base, Hs, Hl. cbv zeta.
  generalize (baseTags cfg h). intros b. split_and!; skip_tags; done.
Qed.

(** A hello is long enough, and the server parses what the client sent. *)
Lemma hello_msg_ok cfg h : client_ok cfg h -> msg_ok (HandshakeMessage.mk TagCHLO (hello cfg h)).
Proof.
  intros H. apply (tags_msg_ok 19); [by vm_compute|by vm_compute|]. unfold hello, addPadding.
  apply getTags_ok in H. apply tags_ok_if; [by vm_compute| |done]. intros _.
  unfold value_ok. rewrite length_replicate. unfold ClientHelloMinimumSize, CryptoParameterMaxLength.
  assert (0 <= tagsSize (getTags cfg h)); [|lia].
  unfold tagsSize. induction (map_to_list _) as [|e l IH]; cbn [foldr]; lia.
Qed.

End ClientHello.

(** ** The server's reaction *)

Section ServerSide.
Context {curve : Curve25519} {keys : KeySchedule} {codec : StkCodec} {chain : CertChain} {x509 : X509Lib}.
Context (scfg : Server.config) (ccfg : Client.config) (leaf : list Z).
Context (Hhost : ccfg.(Client.hostname) <> []) (Hver : scfg.(Server.version) = ccfg.(Client.version))
  (Hvr : 0 <= ccfg.(Client.version) < 1000) (Hleaf : ChainLeafCert ccfg.(Client.hostname) = Ok leaf).

Lemma parse_bytes m : msg_ok m -> HandshakeMessage.ParseHandshakeMessage (HandshakeMessage.bytes m) = Ok (m, []).
Proof. intros H. rewrite bytes_enc, <- (app_nil_r (enc m)) by done. by apply parse_message_enc. Qed.

Lemma handleStream_hello env c s : client_ok ccfg c ->
  Server.handleStream scfg env (hello_bytes ccfg c) s
  = (done ← Server.handleMessage scfg env (hello_bytes ccfg c) (hello ccfg c); mret (done, [])) s.
Proof.
  intros Hc. unfold Server.handleStream, hello_bytes at 1.
  rewrite parse_bytes by (by apply hello_msg_ok). cbn [length]. fold (hello_bytes ccfg c).
  rewrite Nat.sub_0_r, firstn_all. reflexivity.
Qed.

Lemma handleMessage_hello env c chlo s :
  Server.handleMessage scfg env chlo (hello ccfg c) s
  = (if negb (Server.isInchoateCHLO scfg env (hello ccfg c) leaf) then
       reply ← Server.handleCHLO scfg env ccfg.(Client.hostname) chlo (hello ccfg c);
       _ ← Server.write reply; _ ← Server.send EncryptionForwardSecure;
       _ ← modify (Server.set_sentSHLO true); mret true
     else
       reply ← lift (Server.handleInchoateCHLO scfg env ccfg.(Client.hostname) chlo (hello ccfg c));
       _ ← Server.write reply; mret false) s.
Proof.
  destruct (hello_common ccfg c) as (L1 & L2 & L3 & L4 & L5 & L6 & _). unfold Server.handleMessage.
  rewrite L1, L2, L3, L4, L5, L6, length_le_split, <- (app_nil_r (le_split 4 _)), Uint32_split
    by apply VersionNumberToTag_range.
  rewrite version_tag_roundtrip, Hver, Z.eqb_refl by done.
  assert (E : negb (Nat.eqb (length (Client.hostname ccfg)) 0) = true) by (by destruct (Client.hostname ccfg)).
  rewrite E, Hleaf. reflexivity.
Qed.

(** The rejection without and with the proof. *)
Definition rejTags (env : Server.Env) : gmap Z (list Z) :=
  <[TagSCFG := ServerConfig.Get scfg.(Server.scfg)]>
  (<[TagSTK := Cookie.NewToken scfg.(Server.remoteAddr) env.(Server.now) env.(Server.tokenNonce)]>
  (<[TagSVID := quicgo]> ∅)).

Lemma server_rejects env c s tags :
  client_ok ccfg c ->
  Server.isInchoateCHLO scfg env (hello ccfg c) leaf = true ->
  (if Server.acceptSTK scfg env c.(Client.stk) then
     exists proof certs, SignServerProof ccfg.(Client.hostname) (hello_bytes ccfg c) (ServerConfig.Get scfg.(Server.scfg)) = Ok proof
       /\ GetCertsCompressed ccfg.(Client.hostname) (value (hello ccfg c) TagCCS) (value (hello ccfg c) TagCCRT) = Ok certs
       /\ tags = <[TagCERT := certs]> (<[TagPROF := proof]> (rejTags env))
   else tags = rejTags env) ->
  Server.handleStream scfg env (hello_bytes ccfg c) s
  = (Server.set_written (s.(Server.written) ++ [HandshakeMessage.bytes (HandshakeMessage.mk TagREJ tags)]) s, Ok (false, [])).
Proof.
  intros Hc Hi Ht. rewrite handleStream_hello by done.
  assert (E : Server.handleInchoateCHLO scfg env (Client.hostname ccfg) (hello_bytes ccfg c) (hello ccfg c)
              = Ok (HandshakeMessage.bytes (HandshakeMessage.mk TagREJ tags))).
  { unfold Server.handleInchoateCHLO. unfold hello_bytes at 1.
    destruct (Z.ltb_spec (Z.of_nat (length (HandshakeMessage.bytes (HandshakeMessage.mk TagCHLO (hello ccfg c)))))
      ClientHelloMinimumSize) as [Hlt|_]; [pose proof (ClientLevels.hello_size ccfg c); unfold hello in Hlt; lia|].
    destruct (hello_common ccfg c) as (_ & _ & _ & _ & _ & _ & L7). rewrite L7.
    destruct (Server.acceptSTK scfg env (Client.stk c)).
    - destruct Ht as (proof & certs & E1 & E2 & ->). unfold ServerConfig.Sign. by rewrite E1, E2.
    - by rewrite Ht. }
  unfold mbind, ST_bind. rewrite handleMessage_hello, Hi. cbn [negb]. unfold mbind, ST_bind, lift. rewrite E.
  reflexivity.
Qed.

Lemma server_send level l s : s.(Server.aeadChanged) = mkChan l false ->
  Server.send level s = (Server.set_aeadChanged (mkChan (l ++ [level]) false) s, Ok tt).
Proof. intros H. unfold Server.send, mbind, ST_bind, get, lift. by rewrite H. Qed.

(** The server hello. *)
Definition shloTags (env : Server.Env) (params : ConnParams.t) : gmap Z (list Z) :=
  <[TagVER := Server.versionTags scfg.(Server.supportedVersions)]> (<[TagSNO := env.(Server.serverNonce)]>
  (<[TagPUBS := Kex.PublicKey env.(Server.ephermalKex)]> (ConnParams.GetHelloMap params))).

(** The client knows the server's config and certificate and has a token. *)
Definition knows (c : Client.t) (kex : Kex.t) : Prop :=
  (exists sc, c.(Client.serverConfig) = Some sc /\ sc.(ServerConfigClient.kex) = kex
     /\ sc.(ServerConfigClient.ID) = scfg.(Server.scfg).(ServerConfig.ID))
  /\ CertManager.GetLeafCert c.(Client.certManager) = Some leaf
  /\ length c.(Client.nonc) = 32%nat
  /\ take 8 (drop 4 c.(Client.nonc)) = scfg.(Server.scfg).(ServerConfig.obit).

Lemma complete_hello env c kex : knows c kex -> Server.acceptSTK scfg env c.(Client.stk) = true ->
  Server.isInchoateCHLO scfg env (hello ccfg c) leaf = false.
Proof.
  intros ((sc & H1 & H2 & H3) & H4 & _ & _) Ha.
  destruct (hello_complete ccfg c sc leaf H1 H4) as (L1 & L2 & L3 & _).
  destruct (hello_common ccfg c) as (_ & _ & _ & _ & _ & _ & L7).
  unfold Server.isInchoateCHLO. rewrite L7, Ha. unfold present, value. rewrite L1, L2, L3. cbn [from_option id].
  rewrite !bool_decide_eq_true_2 by done. rewrite length_le_split. cbn [negb orb Nat.eqb].
  rewrite Uint64_split by apply AeadProofs.fnv64a_range. unfold CertManager.HashCert. by rewrite Z.eqb_refl.
Qed.

Lemma server_accepts env c kex s secret esecret sa sf params :
  client_ok ccfg c -> knows c kex -> Server.acceptSTK scfg env c.(Client.stk) = true ->
  Kex.CalculateSharedKey scfg.(Server.scfg).(ServerConfig.kex) (Kex.PublicKey kex) = Ok secret ->
  Kex.CalculateSharedKey env.(Server.ephermalKex) (Kex.PublicKey kex) = Ok esecret ->
  keyDerivation false secret c.(Client.nonc) scfg.(Server.connID) (hello_bytes ccfg c)
    (ServerConfig.Get scfg.(Server.scfg)) leaf env.(Server.divNonce) PerspectiveServer = Ok sa ->
  keyDerivation true esecret (c.(Client.nonc) ++ env.(Server.serverNonce)) scfg.(Server.connID) (hello_bytes ccfg c)
    (ServerConfig.Get scfg.(Server.scfg)) leaf [] PerspectiveServer = Ok sf ->
  ConnParams.SetFromMap s.(Server.connectionParameters) (hello ccfg c) = (params, None) ->
  s.(Server.aeadChanged) = mkChan [] false ->
  Server.handleStream scfg env (hello_bytes ccfg c) s
  = (Server.mk env.(Server.divNonce) s.(Server.nullAEAD) (Some sa) (Some sf) s.(Server.receivedForwardSecurePacket)
       s.(Server.receivedSecurePacket) true (mkChan [EncryptionSecure; EncryptionForwardSecure] false) params
       (s.(Server.written) ++ [HandshakeMessage.bytes (HandshakeMessage.mk TagSHLO (shloTags env params))]), Ok (true, [])).
Proof.
  intros Hc Hk Ha Hs He Hsa Hsf Hp Hch. rewrite handleStream_hello by done.
  pose proof (complete_hello env c kex Hk Ha) as Hi.
  destruct Hk as ((sc & H1 & H2 & H3) & H4 & H5 & H6).
  destruct (hello_complete ccfg c sc leaf H1 H4) as (L1 & _ & _ & L4 & L5 & L6). rewrite H2 in L1.
  unfold mbind, ST_bind. rewrite handleMessage_hello, Hi. cbn [negb]. unfold Server.handleCHLO.
  unfold value. rewrite L1, L4, L5, L6. cbn [from_option id]. unfold Server.validateClientNonce. rewrite H5, H6.
  rewrite !bool_decide_eq_true_2 by done. cbn [Nat.eqb negb]. rewrite Hs, Hleaf, He.
  destruct s as [a1 a2 a3 a4 a5 a6 a7 a8 a9 a10]. cbn [Server.connectionParameters Server.aeadChanged] in Hp, Hch. subst a8.
  unfold mbind, ST_bind, lift, modify, get, require, mret, ST_ret. cbv beta iota. rewrite Hsa, Hsf.
  cbn - [hello hello_bytes]. rewrite (server_send _ []) by reflexivity.
  cbn - [hello hello_bytes]. rewrite Hp. cbn - [hello hello_bytes].
  rewrite (server_send _ [EncryptionSecure]) by reflexivity. reflexivity.
Qed.

End ServerSide.

(** ** The client's reaction *)

Section ClientSide.
Context {curve : Curve25519} {keys : KeySchedule} {codec : StkCodec} {chain : CertChain} {x509 : X509Lib}.
Context (scfg : Server.config) (ccfg : Client.config).
Import Client.

(** The client after another hello. *)
Definition sent (h : t) : t :=
  set_lastSentCHLO (hello_bytes ccfg h)
    (set_written (h.(written) ++ [hello_bytes ccfg h]) (set_clientHelloCounter (h.(clientHelloCounter) + 1) h)).

Lemma sendCHLO_sent h : h.(clientHelloCounter) < MaxClientHellos -> sendCHLO ccfg h = (sent h, Ok tt).
Proof.
  intros H. unfold sendCHLO, mbind, ST_bind, modify, get, require, write. cbn [clientHelloCounter set_clientHelloCounter].
  destruct (Z.ltb_spec MaxClientHellos (clientHelloCounter h + 1)); [lia|]. reflexivity.
Qed.

Lemma prepare_sends h :
  h.(serverVerified) = false \/ h.(diversificationNonce) = [] -> h.(secureAEAD) = None ->
  h.(clientHelloCounter) < MaxClientHellos -> prepare ccfg h = (sent h, Ok tt).
Proof.
  intros Hd Hs Hn.
  assert (E : maybeUpgradeCrypto ccfg h = (h, Ok tt)).
  { unfold maybeUpgradeCrypto, mbind, ST_bind, get. destruct (serverVerified h); [|done]. cbn [negb]. rewrite Hs.
    destruct Hd as [Hd|Hd]; [done|]. rewrite Hd. cbn [length Nat.eqb negb].
    destruct (serverConfig h); [|done]. rewrite andb_false_r. by case_match. }
  unfold prepare. rewrite (bind_Ok _ _ _ _ _ E), (bind_Ok get _ h h h eq_refl), Hs. by apply sendCHLO_sent.
Qed.

(** What the client learns from a rejection without a proof. *)
Definition parsedConfig (env : Env) (secret : list Z) : ServerConfigClient.t :=
  let s := scfg.(Server.scfg) in
  ServerConfigClient.mk (ServerConfig.Get s) s.(ServerConfig.ID) s.(ServerConfig.obit) (2 ^ 62 - 1)
    (Kex.NewCurve25519KEX env.(kexRandom)) secret.

Definition clientNonce (env : Env) : list Z :=
  be_split 4 (u32 (env.(now) / Second)) ++ scfg.(Server.scfg).(ServerConfig.obit) ++ env.(nonceRandom).

Definition token (senv : Server.Env) : list Z :=
  Cookie.NewToken scfg.(Server.remoteAddr) senv.(Server.now) senv.(Server.tokenNonce).

Definition learn (env : Env) (senv : Server.Env) (secret : list Z) (h : t) : t :=
  let h := set_scfgData (ServerConfig.Get scfg.(Server.scfg))
             (set_serverConfig (Some (parsedConfig env secret)) (set_stk (token senv) h)) in
  if Nat.eqb (length h.(nonc)) 0 then set_nonc (clientNonce env) h else h.

Definition believe (proof certs : list Z) (cm : CertManager.t) (h : t) : t :=
  set_serverVerified true (set_certData certs (set_certManager cm (set_chloForSignature h.(lastSentCHLO) (set_proof proof h)))).

Context (Hok : scfg_ok scfg.(Server.scfg)).

Lemma rejTags_lookup senv :
  let m := rejTags scfg senv in
  m !! TagSTK = Some (token senv) /\ m !! TagSNO = None
  /\ m !! TagSCFG = Some (ServerConfig.Get scfg.(Server.scfg)) /\ m !! TagPROF = None /\ m !! TagCERT = None.
Proof.
  unfold rejTags, token. cbv zeta. generalize (ServerConfig.Get scfg.(Server.scfg)). intros g.
  split_and!; skip_tags; done.
Qed.

(** The part of [handleREJMessage] up to the server config. *)
Lemma learn_scfg env senv secret (m : gmap Z (list Z)) (k : ST t unit) h :
  m !! TagSTK = Some (token senv) -> m !! TagSNO = None -> m !! TagSCFG = Some (ServerConfig.Get scfg.(Server.scfg)) ->
  Kex.CalculateSharedKey (Kex.NewCurve25519KEX env.(kexRandom)) (Kex.PublicKey scfg.(Server.scfg).(ServerConfig.kex)) = Ok secret ->
  env.(now) <= (2 ^ 62 - 1) * Second ->
  (_ ← when (present m TagSTK) (modify (set_stk (value m TagSTK)));
   _ ← when (present m TagSNO) (modify (set_sno (value m TagSNO)));
   _ ← (if present m TagSCFG then
          match ServerConfigClient.parseServerConfig (value m TagSCFG) env.(kexRandom) with
          | Ok scfg =>
              _ ← modify (set_serverConfig (Some scfg));
              _ ← require (negb (ServerConfigClient.IsExpired scfg env.(now))) (ErrorCode CryptoServerConfigExpired);
              _ ← modify (set_scfgData (value m TagSCFG));
              h ← get;
              when (Nat.eqb (length h.(nonc)) 0) (generateClientNonce env)
          | Err e => _ ← modify (set_serverConfig None); fail e
          | Panic => lift Panic
          end
        else mret tt);
   k) h = k (learn env senv secret h).
Proof.
  intros L1 L2 L3 Hs Hn.
  rewrite (present_Some _ _ _ L1), (present_None _ _ L2), (present_Some _ _ _ L3), (value_Some _ _ _ L1), (value_Some _ _ _ L3).
  cbn [when].
  rewrite (parse_Get _ _ _ Hok Hs).
  assert (Ex : ServerConfigClient.IsExpired (parsedConfig env secret) (now env) = false).
  { unfold ServerConfigClient.IsExpired, parsedConfig. cbn [ServerConfigClient.expiry]. apply Z.ltb_ge. lia. }
  unfold parsedConfig in Ex. cbv zeta in Ex.
  destruct Hok as (_ & Ho & _).
  destruct h as [a1 a2 a3 a4 a5 a6 a7 a8 a9 a10 a11 a12 a13 a14 a15 a16 a17 a18 a19 a20 a21].
  unfold mbind, ST_bind, lift, modify, get, require, mret, ST_ret, learn. cbv zeta. rewrite Ex. cbn [negb].
  cbn [nonc set_stk set_serverConfig set_scfgData]. unfold when.
  destruct (Nat.eqb (length a4) 0) eqn:H; [|reflexivity].
  unfold generateClientNonce, mbind, ST_bind, lift, modify, get, require, mret, ST_ret.
  cbn [nonc set_stk set_serverConfig set_scfgData serverConfig ServerConfigClient.obit].
  rewrite H, Ho. reflexivity.
Qed.

Lemma rej_first env senv secret h :
  Kex.CalculateSharedKey (Kex.NewCurve25519KEX env.(kexRandom)) (Kex.PublicKey scfg.(Server.scfg).(ServerConfig.kex)) = Ok secret ->
  env.(now) <= (2 ^ 62 - 1) * Second -> CertManager.GetLeafCert h.(certManager) = None ->
  handleREJMessage env (rejTags scfg senv) h = (learn env senv secret h, Ok tt).
Proof.
  intros Hs Hn Hc. destruct (rejTags_lookup senv) as (L1 & L2 & L3 & L4 & L5). unfold handleREJMessage.
  rewrite (learn_scfg env senv secret _ _ h L1 L2 L3 Hs Hn). rewrite (present_None _ _ L4), (present_None _ _ L5).
  unfold mbind, ST_bind, get, when, mret, ST_ret.
  assert (E : CertManager.GetLeafCert (certManager (learn env senv secret h)) = None)
    by (unfold learn; cbv zeta; by case_match).
  rewrite E. by destruct (serverConfig _).
Qed.

Lemma rej_second env senv secret proof certs cm leaf rest h :
  Kex.CalculateSharedKey (Kex.NewCurve25519KEX env.(kexRandom)) (Kex.PublicKey scfg.(Server.scfg).(ServerConfig.kex)) = Ok secret ->
  env.(now) <= (2 ^ 62 - 1) * Second ->
  CertManager.SetData h.(certManager) certs = Ok cm -> cm.(CertManager.chain) = leaf :: rest ->
  CertManager.Verify cm verifiedHostname = Ok tt -> proof <> [] ->
  verifyServerProof proof leaf h.(lastSentCHLO) (ServerConfig.Get scfg.(Server.scfg)) = Ok true ->
  handleREJMessage env (<[TagCERT := certs]> (<[TagPROF := proof]> (rejTags scfg senv))) h
  = (believe proof certs cm (learn env senv secret h), Ok tt).
Proof.
  intros Hs Hn Hcm Hch Hv Hp Hvp. destruct (rejTags_lookup senv) as (L1 & L2 & L3 & _ & _).
  set (m := <[TagCERT := certs]> _).
  assert (M : forall k, k <> TagCERT -> k <> TagPROF -> m !! k = rejTags scfg senv !! k)
    by (intros; unfold m; by rewrite !lookup_insert_ne by congruence).
  assert (L4 : m !! TagPROF = Some proof) by (unfold m; rewrite lookup_insert_ne by discriminate; apply lookup_insert_eq).
  assert (L5 : m !! TagCERT = Some certs) by apply lookup_insert_eq.
  rewrite <- M in L1, L2, L3 by discriminate. clear M. clearbody m.
  unfold handleREJMessage. rewrite (learn_scfg env senv secret _ _ h L1 L2 L3 Hs Hn).
  rewrite (present_Some _ _ _ L4), (present_Some _ _ _ L5), (value_Some _ _ _ L4), (value_Some _ _ _ L5).
  assert (E1 : certManager (learn env senv secret h) = certManager h) by (unfold learn; cbv zeta; by case_match).
  assert (E2 : lastSentCHLO (learn env senv secret h) = lastSentCHLO h) by (unfold learn; cbv zeta; by case_match).
  assert (E3 : serverConfig (learn env senv secret h) = Some (parsedConfig env secret))
    by (unfold learn; cbv zeta; by case_match).
  set (h' := learn env senv secret h) in *. clearbody h'.
  unfold mbind, ST_bind, get, when, modify, mret, ST_ret.
  cbn [certManager set_chloForSignature set_proof]. rewrite E1, Hcm. rewrite Hv.
  cbn [certManager set_chloForSignature set_proof set_certData set_certManager serverConfig]. rewrite E3.
  unfold CertManager.GetLeafCert. rewrite Hch. cbn [head Client.proof set_proof set_chloForSignature set_certData set_certManager].
  destruct proof as [|b l]; [done|]. cbn [length Nat.eqb negb]. unfold CertManager.VerifyServerProof. rewrite Hch.
  cbn [chloForSignature set_chloForSignature set_proof set_certData set_certManager]. rewrite E2.
  unfold ServerConfigClient.Get, parsedConfig. cbn [ServerConfigClient.raw]. rewrite Hvp.
  unfold believe. rewrite E2. reflexivity.
Qed.

(** ** The keys *)

Lemma client_send level l h : h.(aeadChanged) = mkChan l false ->
  send level h = (set_aeadChanged (mkChan (l ++ [level]) false) h, Ok tt).
Proof. intros H. unfold send, mbind, ST_bind, get, lift. by rewrite H. Qed.

Lemma prepare_done h a : h.(secureAEAD) = Some a -> prepare ccfg h = (h, Ok tt).
Proof.
  intros H. unfold prepare.
  assert (E : maybeUpgradeCrypto ccfg h = (h, Ok tt))
    by (unfold maybeUpgradeCrypto, mbind, ST_bind, get; rewrite H; by destruct (negb _)).
  rewrite (bind_Ok _ _ _ _ _ E), (bind_Ok get _ h h h eq_refl), H. reflexivity.
Qed.

Lemma length_nonempty {A} (l : list A) : l <> [] -> Nat.eqb (length l) 0 = false.
Proof. by destruct l. Qed.

(** The diversification nonce completes the secure keys. *)
Lemma client_diversify env div h sc ca :
  h.(serverVerified) = true -> h.(secureAEAD) = None -> h.(serverConfig) = Some sc ->
  sc.(ServerConfigClient.sharedSecret) <> [] -> h.(nonc) <> [] -> leafCert h <> [] -> div <> [] ->
  h.(lastSentCHLO) <> [] -> h.(diversificationNonce) = [] -> h.(aeadChanged) = mkChan [] false ->
  keyDerivation false sc.(ServerConfigClient.sharedSecret) (h.(nonc) ++ h.(sno)) ccfg.(connID) h.(lastSentCHLO)
    (ServerConfigClient.Get sc) (leafCert h) div PerspectiveClient = Ok ca ->
  step ccfg env (DivNonce div) h
  = (set_aeadChanged (mkChan [EncryptionSecure] false) (set_secureAEAD (Some ca) (set_diversificationNonce div h)), Ok tt).
Proof.
  intros H1 H2 H3 H4 H5 H6 H7 H8 H9 H10 H11. unfold step, onEvent.
  assert (E : maybeUpgradeCrypto ccfg (set_diversificationNonce div h)
    = (set_aeadChanged (mkChan [EncryptionSecure] false) (set_secureAEAD (Some ca) (set_diversificationNonce div h)), Ok tt)).
  { unfold maybeUpgradeCrypto. rewrite (bind_Ok get _ _ _ _ eq_refl).
    change (serverVerified (set_diversificationNonce div h)) with (serverVerified h).
    change (secureAEAD (set_diversificationNonce div h)) with (secureAEAD h).
    change (serverConfig (set_diversificationNonce div h)) with (serverConfig h).
    change (nonc (set_diversificationNonce div h)) with (nonc h).
    change (sno (set_diversificationNonce div h)) with (sno h).
    change (leafCert (set_diversificationNonce div h)) with (leafCert h).
    change (lastSentCHLO (set_diversificationNonce div h)) with (lastSentCHLO h).
    change (diversificationNonce (set_diversificationNonce div h)) with div.
    rewrite H1, H2, H3, H11, !length_nonempty by done. cbn [negb andb].
    rewrite (bind_Ok _ _ _ (set_secureAEAD (Some ca) (set_diversificationNonce div h)) tt) by reflexivity.
    rewrite (client_send _ []) by exact H10. reflexivity. }
  unfold mbind at 1, ST_bind at 1. rewrite (bind_Ok get _ h h h eq_refl), H9. cbn [length Nat.eqb negb andb].
  rewrite (bind_Ok _ _ _ h tt) by reflexivity. unfold modify. cbv iota beta. unfold prepare.
  rewrite (bind_Ok _ _ _ _ _ E), (bind_Ok get _ _ _ _ eq_refl). reflexivity.
Qed.

Lemma shloTags_lookup senv params :
  let m := shloTags scfg senv params in
  m !! TagSNO = Some senv.(Server.serverNonce) /\ m !! TagPUBS = Some (Kex.PublicKey senv.(Server.ephermalKex))
  /\ m !! TagVER = Some (Server.versionTags scfg.(Server.supportedVersions))
  /\ m !! TagTCID = None /\ ConnParamsProofs.same_params m (ConnParams.GetHelloMap params).
Proof.
  unfold shloTags, ConnParamsProofs.same_params. cbv zeta.
  destruct (ConnParamsProofs.hello_lookup params) as [L _].
  split_and!; skip_tags; done.
Qed.

(** The server hello completes the forward-secure keys. *)
Lemma client_finishes env senv params cparams h sc ca cf esecret :
  ccfg.(negotiatedVersions) = [] -> ccfg.(CacheHandshake) = false ->
  h.(receivedSecurePacket) = true -> h.(secureAEAD) = Some ca -> h.(serverConfig) = Some sc ->
  h.(aeadChanged) = mkChan [EncryptionSecure] false ->
  Kex.CalculateSharedKey sc.(ServerConfigClient.kex) (Kex.PublicKey senv.(Server.ephermalKex)) = Ok esecret ->
  keyDerivation true esecret (h.(nonc) ++ senv.(Server.serverNonce)) ccfg.(connID) h.(lastSentCHLO)
    (ServerConfigClient.Get sc) (leafCert h) [] PerspectiveClient = Ok cf ->
  ConnParams.SetFromMap h.(connectionParameters) (shloTags scfg senv params) = (cparams, None) ->
  step ccfg env (Message (HandshakeMessage.mk TagSHLO (shloTags scfg senv params))) h
  = (set_aeadChanged (mkChan [EncryptionSecure; EncryptionForwardSecure] true)
       (set_connectionParameters cparams (set_forwardSecureAEAD (Some cf) (set_sno senv.(Server.serverNonce) h))), Ok tt).
Proof.
  intros Hneg Hcache H1 H2 H3 H4 Hes Hcf Hp. destruct (shloTags_lookup senv params) as (L1 & L2 & L3 & _).
  set (m := shloTags scfg senv params) in *. clearbody m.
  unfold step. set (h' := set_aeadChanged _ _).
  assert (E : handleSHLOMessage ccfg m h = (h', Ok tt)).
  { unfold handleSHLOMessage.
    rewrite (present_Some _ _ _ L1), (present_Some _ _ _ L2), (present_Some _ _ _ L3), (value_Some _ _ _ L1),
      (value_Some _ _ _ L2). unfold validateVersionList. rewrite Hneg.
    rewrite (bind_Ok get _ h h h eq_refl), H1.
    rewrite (bind_Ok _ _ h h tt) by reflexivity.
    rewrite (bind_Ok _ _ h (set_sno (Server.serverNonce senv) h) tt) by reflexivity.
    rewrite !(bind_Ok (require _ _) _ (set_sno (Server.serverNonce senv) h) (set_sno (Server.serverNonce senv) h) tt)
      by reflexivity.
    rewrite (bind_Ok get _ _ _ _ eq_refl).
    change (serverConfig (set_sno (Server.serverNonce senv) h)) with (serverConfig h). rewrite H3.
    rewrite (bind_Ok _ _ _ _ esecret) by (unfold lift; by rewrite Hes).
    rewrite (bind_Ok _ _ _ (set_forwardSecureAEAD (Some cf) (set_sno (Server.serverNonce senv) h)) tt)
      by (unfold assign, modify; cbn [nonc sno set_sno lastSentCHLO certManager leafCert]; unfold leafCert in *;
          cbn [certManager set_sno]; by rewrite Hcf).
    rewrite (bind_Ok get _ _ _ _ eq_refl).
    change (connectionParameters (set_forwardSecureAEAD (Some cf) (set_sno (Server.serverNonce senv) h)))
      with (connectionParameters h). rewrite Hp.
    set (h1 := set_forwardSecureAEAD _ _).
    rewrite (bind_Ok _ _ _ (set_connectionParameters cparams h1) tt) by reflexivity.
    rewrite (bind_Ok _ _ _ (set_connectionParameters cparams h1) tt) by reflexivity.
    rewrite (bind_Ok _ _ _ _ _ (client_send EncryptionForwardSecure [EncryptionSecure]
      (set_connectionParameters cparams h1) H4)). reflexivity. }
  unfold mbind at 1, ST_bind at 1. unfold onEvent. cbn [HandshakeMessage.Tag HandshakeMessage.Data].
  change (TagSHLO =? TagREJ) with false. change (TagSHLO =? TagSHLO) with true. cbv iota.
  rewrite (bind_Ok _ _ _ _ _ E), Hcache. cbn [when mret]. unfold mret, ST_ret. cbv iota beta.
  apply (prepare_done _ ca). exact H2.
Qed.

End ClientSide.

(** ** Messages on their way *)

Section Delivery.
Context {curve : Curve25519} {keys : KeySchedule} {codec : StkCodec} {chain : CertChain} {x509 : X509Lib}.
Context (scfg : Server.config) (ccfg : Client.config).
Import AeadProofs.

Lemma deliver_hello env pn c s chlo s' done rest r :
  last c.(Client.written) = Some chlo -> opens c.(Client.nullAEAD) s.(Server.nullAEAD) ->
  s.(Server.secureAEAD) = None -> s.(Server.forwardSecureAEAD) = None ->
  Server.handleStream scfg env chlo s = (s', Ok (done, rest)) -> last s'.(Server.written) = Some r ->
  toServer scfg env pn c s = Some (s', done, r).
Proof.
  intros Hl Ho H1 H2 H3 H4. unfold toServer, Client.GetSealerForCryptoStream. rewrite Hl. cbn [snd].
  destruct (Ho chlo pn []) as (sealed & -> & _ & Ho'). unfold Server.Open. by rewrite H2, H1, Ho', H3, H4.
Qed.

Lemma deliver_rej env pn c s m c' :
  msg_ok m -> opens s.(Server.nullAEAD) c.(Client.nullAEAD) -> s.(Server.secureAEAD) = None ->
  c.(Client.secureAEAD) = None -> c.(Client.forwardSecureAEAD) = None ->
  Client.step ccfg env (Client.Message m) c = (c', Ok tt) ->
  toClient ccfg env pn (HandshakeMessage.bytes m) s c = Some c'.
Proof.
  intros Hm Ho H1 H2 H3 H4. unfold toClient, Server.GetSealerForCryptoStream. rewrite H1.
  destruct (Ho (HandshakeMessage.bytes m) pn []) as (sealed & -> & _ & Ho').
  change (EncryptionUnencrypted =? EncryptionSecure) with false. cbv iota.
  unfold Client.Open. by rewrite H3, H2, Ho', parse_bytes, H4.
Qed.

Lemma deliver_shlo env pn c c1 s sa ca m c' :
  msg_ok m -> s.(Server.secureAEAD) = Some sa -> opens sa ca ->
  Client.step ccfg env (Client.DivNonce s.(Server.diversificationNonce)) c = (c1, Ok tt) ->
  c1.(Client.secureAEAD) = Some ca -> c1.(Client.forwardSecureAEAD) = None ->
  Client.step ccfg env (Client.Message m) (Client.set_receivedSecurePacket true c1) = (c', Ok tt) ->
  toClient ccfg env pn (HandshakeMessage.bytes m) s c = Some c'.
Proof.
  intros Hm H1 Ho H2 H3 H4 H5. unfold toClient, Server.GetSealerForCryptoStream, Server.DiversificationNonce. rewrite H1.
  destruct (Ho (HandshakeMessage.bytes m) pn []) as (sealed & -> & _ & Ho').
  change (EncryptionSecure =? EncryptionSecure) with true. cbv iota.
  rewrite H2. unfold Client.Open. by rewrite H4, H3, Ho', parse_bytes, H5.
Qed.

(** ** A client and a server that fit together *)

(** The certificates: the client gets the chain the server sends, trusts it, and
    accepts the server's signatures. *)
Definition trusts (skip : bool) (leaf : list Z) : Prop :=
  ChainLeafCert ccfg.(Client.hostname) = Ok leaf /\ leaf <> []
  /\ (exists certs raw rest, GetCertsCompressed ccfg.(Client.hostname) getCommonCertificateHashes [] = Ok certs /\ value_ok certs
        /\ decompressChain certs = Ok raw /\ CertManager.parseAll raw = Ok (leaf :: rest)
        /\ CertManager.Verify (CertManager.mk (leaf :: rest) skip) Client.verifiedHostname = Ok tt)
  /\ (forall chlo, exists proof, SignServerProof ccfg.(Client.hostname) chlo (ServerConfig.Get scfg.(Server.scfg)) = Ok proof
        /\ proof <> [] /\ value_ok proof
        /\ verifyServerProof proof leaf chlo (ServerConfig.Get scfg.(Server.scfg)) = Ok true).

Definition configs_fit : Prop :=
  scfg.(Server.version) = ccfg.(Client.version) /\ 0 <= ccfg.(Client.version) < 1000
  /\ scfg.(Server.connID) = ccfg.(Client.connID)
  /\ ccfg.(Client.hostname) <> [] /\ value_ok ccfg.(Client.hostname) /\ value_ok getCommonCertificateHashes
  /\ ccfg.(Client.negotiatedVersions) = [] /\ ccfg.(Client.CacheHandshake) = false
  /\ (length scfg.(Server.supportedVersions) <= 1000)%nat
  /\ scfg.(Server.acceptSTKCallback) = Cookie.defaultAcceptCookie
  /\ length scfg.(Server.scfg).(ServerConfig.ID) = 16%nat /\ length scfg.(Server.scfg).(ServerConfig.obit) = 8%nat
  /\ exists random, scfg.(Server.scfg).(ServerConfig.kex) = Kex.NewCurve25519KEX random.

Definition senv_ok (env : Server.Env) : Prop :=
  0 <= env.(Server.now) /\ length env.(Server.tokenNonce) = Cookie.stkNonceSize /\ value_ok (token scfg env)
  /\ value_ok env.(Server.serverNonce) /\ env.(Server.divNonce) <> []
  /\ exists random, env.(Server.ephermalKex) = Kex.NewCurve25519KEX random.

Definition cenv_ok (env : Client.Env) : Prop :=
  env.(Client.now) <= (2 ^ 62 - 1) * Second /\ length env.(Client.nonceRandom) = 20%nat.

(** The next hello arrives before the token of the last rejection expires. *)
Definition in_time (e1 e2 : Server.Env) : Prop :=
  e1.(Server.now) <= e2.(Server.now) <= e1.(Server.now) + Cookie.CookieExpiryTime - Second.

Lemma token_accepted e1 e2 :
  configs_fit -> senv_ok e1 -> in_time e1 e2 -> Server.acceptSTK scfg e2 (token scfg e1) = true.
Proof.
  intros (_ & _ & _ & _ & _ & _ & _ & _ & _ & Ha & _) (Hn & Hl & _) Ht. unfold Server.acceptSTK, token.
  rewrite DecodeToken_NewToken, Ha by done. unfold Cookie.defaultAcceptCookie. cbn [Cookie.SentTime Cookie.RemoteAddr].
  destruct (Z.ltb_spec (Server.now e1 / Second * Second + Cookie.CookieExpiryTime) (Server.now e2)) as [H|_].
  - unfold in_time, Second in *. lia_div.
  - by apply bool_decide_eq_true_2.
Qed.

Lemma no_token_refused env : configs_fit -> Server.acceptSTK scfg env [] = false.
Proof.
  intros (_ & _ & _ & _ & _ & _ & _ & _ & _ & Ha & _). unfold Server.acceptSTK. cbn [Cookie.DecodeToken]. by rewrite Ha.
Qed.

Lemma configs_scfg_ok : configs_fit -> scfg_ok scfg.(Server.scfg).
Proof.
  intros (_ & _ & _ & _ & _ & _ & _ & _ & _ & _ & H1 & H2 & r & H3). split_and!; [done..|]. rewrite H3.
  apply ScalarBaseMult_length.
Qed.

(** ** The server's messages fit in the limits *)

Lemma bytes_length_le m B :
  map_Forall (fun _ v => Z.of_nat (length v) <= B) m.(HandshakeMessage.Data) ->
  Z.of_nat (length (HandshakeMessage.bytes m)) <= 8 + Z.of_nat (size m.(HandshakeMessage.Data)) * (8 + B).
Proof.
  intros H. rewrite length_bytes, <- length_map_to_list. apply map_Forall_to_list in H.
  induction H as [|[k v] l Hv Hl IH]; cbn [foldr length snd fst uncurry] in *; lia.
Qed.

Lemma scfg_value_ok : configs_fit -> value_ok (ServerConfig.Get scfg.(Server.scfg)).
Proof.
  intros H. destruct (configs_scfg_ok H) as (H1 & H2 & H3). unfold value_ok, ServerConfig.Get.
  etransitivity; [apply (bytes_length_le _ 35)|].
  - cbn [ServerConfig.message HandshakeMessage.Data].
    repeat (apply map_Forall_insert_2; [rewrite ?length_app, ?H1, ?H2, ?H3; vm_compute; discriminate|]). apply map_Forall_empty.
  - change (size (HandshakeMessage.Data (ServerConfig.message (Server.scfg scfg)))) with 6%nat. vm_compute. discriminate.
Qed.

Lemma rejTags_ok env : configs_fit -> senv_ok env -> tags_ok 3 (rejTags scfg env).
Proof.
  intros Hf (_ & _ & Ht & _). unfold rejTags. pose proof (scfg_value_ok Hf) as Hg.
  apply tags_ok_insert; [by vm_compute|exact Hg|]. apply tags_ok_insert; [by vm_compute|exact Ht|].
  apply tags_ok_insert; [by vm_compute|by eapply size_value_ok; [reflexivity|cbn; lia]|apply tags_ok_empty].
Qed.

Lemma rej_msg_ok env : configs_fit -> senv_ok env -> msg_ok (HandshakeMessage.mk TagREJ (rejTags scfg env)).
Proof. intros Hf He. apply (tags_msg_ok 3); [by vm_compute|by vm_compute|by apply rejTags_ok]. Qed.

Lemma proof_msg_ok env proof certs : configs_fit -> senv_ok env -> value_ok proof -> value_ok certs ->
  msg_ok (HandshakeMessage.mk TagREJ (<[TagCERT := certs]> (<[TagPROF := proof]> (rejTags scfg env)))).
Proof.
  intros Hf He Hp Hc. apply (tags_msg_ok 5); [by vm_compute|by vm_compute|].
  apply tags_ok_insert; [by vm_compute|done|]. apply tags_ok_insert; [by vm_compute|done|]. by apply rejTags_ok.
Qed.

Lemma length_versionTags versions : length (Server.versionTags versions) = (4 * length versions)%nat.
Proof.
  induction versions as [|v l IH]; [done|].
  change (Server.versionTags (v :: l)) with (le_split 4 (VersionNumberToTag v) ++ Server.versionTags l).
  rewrite length_app, length_le_split, IH. cbn [length]. lia.
Qed.

Lemma shlo_msg_ok env params : configs_fit -> senv_ok env ->
  msg_ok (HandshakeMessage.mk TagSHLO (shloTags scfg env params)).
Proof.
  intros (_ & _ & _ & _ & _ & _ & _ & _ & Hv & _) (_ & _ & _ & Hn & _ & r & Hk).
  apply (tags_msg_ok 8); [by vm_compute|by vm_compute|]. unfold shloTags.
  apply tags_ok_insert; [by vm_compute|eapply size_value_ok; [apply length_versionTags|lia]|].
  apply tags_ok_insert; [by vm_compute|done|].
  apply tags_ok_insert; [by vm_compute| |apply hello_tags_ok].
  rewrite Hk. eapply size_value_ok; [apply ScalarBaseMult_length|lia].
Qed.

(** ** The three rounds *)

Context (skip : bool) (leaf : list Z) (cparams sparams : ConnParams.t).

(** The client before the first rejection, after it, and after the proof. *)
Definition client1 (files : gmap (list Z) (list Z)) : Client.t := sent ccfg (Client.New ccfg skip cparams files).
Definition client2 files cenv senv secret : Client.t := sent ccfg (learn scfg cenv senv secret (client1 files)).
Definition client3 files cenv1 senv1 secret1 cenv2 senv2 secret2 proof certs rest : Client.t :=
  sent ccfg (believe proof certs (CertManager.mk (leaf :: rest) skip)
    (learn scfg cenv2 senv2 secret2 (client2 files cenv1 senv1 secret1))).

Lemma first_hello files env : configs_fit ->
  Client.start ccfg env (Client.New ccfg skip cparams files) = (client1 files, Ok tt).
Proof.
  intros (_ & _ & _ & _ & _ & _ & _ & Hc & _). unfold Client.start. rewrite Hc.
  rewrite (bind_Ok _ _ _ (Client.New ccfg skip cparams files) tt) by reflexivity.
  apply prepare_sends; [by left|done|by vm_compute].
Qed.

Lemma value_ok_nil : value_ok [].
Proof. by vm_compute. Qed.

Lemma client1_ok files : configs_fit -> client_ok ccfg (Client.New ccfg skip cparams files).
Proof. intros (_ & _ & _ & _ & H5 & H6 & _). split_and!; done || apply value_ok_nil. Qed.

Lemma nonce_length env : configs_fit -> cenv_ok env ->
  length (clientNonce scfg env) = 32%nat /\ take 8 (drop 4 (clientNonce scfg env)) = scfg.(Server.scfg).(ServerConfig.obit).
Proof.
  intros Hf (_ & Hn). destruct (configs_scfg_ok Hf) as (_ & Ho & _). unfold clientNonce.
  assert (Hl : forall x, length (be_split 4 x) = 4%nat) by (intros; unfold be_split; by rewrite length_rev, length_le_split).
  rewrite !length_app, Hl, Ho, Hn. split; [done|].
  rewrite drop_app_length' by (by rewrite Hl). by rewrite take_app_length' by done.
Qed.

Lemma step_rej env m h h' :
  Client.handleREJMessage env m h = (h', Ok tt) ->
  h'.(Client.serverVerified) = false \/ h'.(Client.diversificationNonce) = [] -> h'.(Client.secureAEAD) = None ->
  h'.(Client.clientHelloCounter) < MaxClientHellos ->
  Client.step ccfg env (Client.Message (HandshakeMessage.mk TagREJ m)) h = (sent ccfg h', Ok tt).
Proof.
  intros H1 H2 H3 H4. unfold Client.step. rewrite (bind_Ok _ _ h h' tt) by exact H1. by apply prepare_sends.
Qed.

Lemma shared_with_config env : configs_fit -> exists secret, secret <> []
  /\ Kex.CalculateSharedKey (Kex.NewCurve25519KEX env.(Client.kexRandom)) (Kex.PublicKey scfg.(Server.scfg).(ServerConfig.kex)) = Ok secret
  /\ Kex.CalculateSharedKey scfg.(Server.scfg).(ServerConfig.kex) (Kex.PublicKey (Kex.NewCurve25519KEX env.(Client.kexRandom))) = Ok secret.
Proof.
  intros (_ & _ & _ & _ & _ & _ & _ & _ & _ & _ & _ & _ & r & ->).
  destruct (shared_secret_agrees (Client.kexRandom env) r) as (secret & H1 & H2 & Hl).
  exists secret. split_and!; [by destruct secret|done..].
Qed.

(** The server between the rounds. *)
Definition server1 : Server.t := Server.New scfg sparams.
Definition waiting (s : Server.t) : Prop :=
  s.(Server.nullAEAD) = server1.(Server.nullAEAD) /\ s.(Server.secureAEAD) = None /\ s.(Server.forwardSecureAEAD) = None
  /\ s.(Server.aeadChanged) = mkChan [] false /\ s.(Server.connectionParameters) = sparams.

Definition rejected (tags : gmap Z (list Z)) (s : Server.t) : Server.t :=
  Server.set_written (s.(Server.written) ++ [HandshakeMessage.bytes (HandshakeMessage.mk TagREJ tags)]) s.

(** A round that ends in a rejection. *)
Lemma round_rejected senv cenv pn c s tags c' :
  configs_fit -> trusts skip leaf -> client_ok ccfg c -> waiting s ->
  c.(Client.nullAEAD) = NullAEAD.NewNullAEAD PerspectiveClient ccfg.(Client.version) ->
  c.(Client.secureAEAD) = None -> c.(Client.forwardSecureAEAD) = None ->
  Server.isInchoateCHLO scfg senv (hello ccfg c) leaf = true ->
  (if Server.acceptSTK scfg senv c.(Client.stk) then
     exists proof certs, SignServerProof ccfg.(Client.hostname) (hello_bytes ccfg c) (ServerConfig.Get scfg.(Server.scfg)) = Ok proof
       /\ GetCertsCompressed ccfg.(Client.hostname) (value (hello ccfg c) TagCCS) (value (hello ccfg c) TagCCRT) = Ok certs
       /\ tags = <[TagCERT := certs]> (<[TagPROF := proof]> (rejTags scfg senv))
   else tags = rejTags scfg senv) ->
  msg_ok (HandshakeMessage.mk TagREJ tags) ->
  Client.step ccfg cenv (Client.Message (HandshakeMessage.mk TagREJ tags)) (sent ccfg c) = (c', Ok tt) ->
  round scfg ccfg senv cenv pn (sent ccfg c, s) = Some (c', rejected tags s, false).
Proof.
  intros (Hv & Hvr & _ & Hh & _) (Hleaf & _) Hc (W1 & W2 & W3 & _) N1 N2 N3 Hi Ht Hm Hstep.
  destruct (null_matching (Client.version ccfg)) as [M1 M2].
  unfold round. cbn [fst snd].
  erewrite deliver_hello; [|by apply last_snoc| |done|done|
    by apply (server_rejects scfg ccfg leaf Hh Hv Hvr Hleaf senv c s tags Hc Hi Ht)|by apply last_snoc].
  - unfold rejected. erewrite deliver_rej; [done|done| |done|exact N2|exact N3|exact Hstep].
    cbn [Server.set_written Server.nullAEAD sent Client.nullAEAD Client.set_lastSentCHLO Client.set_written Client.set_clientHelloCounter].
    rewrite W1, N1. cbn [server1 Server.New Server.nullAEAD]. rewrite Hv. exact M2.
  - cbn [sent Client.nullAEAD Client.set_lastSentCHLO Client.set_written Client.set_clientHelloCounter].
    rewrite W1, N1. cbn [server1 Server.New Server.nullAEAD]. rewrite Hv. exact M1.
Qed.

Lemma inchoate env c :
  c.(Client.serverConfig) = None \/ CertManager.GetLeafCert c.(Client.certManager) = None ->
  Server.isInchoateCHLO scfg env (hello ccfg c) leaf = true.
Proof. intros H. unfold Server.isInchoateCHLO. by rewrite (hello_inchoate ccfg c H). Qed.

(** No token: the client learns the config and gets one. *)
Lemma first_round files senv cenv pn secret :
  configs_fit -> trusts skip leaf -> senv_ok senv -> cenv_ok cenv ->
  Kex.CalculateSharedKey (Kex.NewCurve25519KEX cenv.(Client.kexRandom)) (Kex.PublicKey scfg.(Server.scfg).(ServerConfig.kex)) = Ok secret ->
  round scfg ccfg senv cenv pn (client1 files, server1)
  = Some (client2 files cenv senv secret, rejected (rejTags scfg senv) server1, false).
Proof.
  intros Hf Ht Hs [Hc _] Hsec. unfold client1.
  apply round_rejected;
    [done|done|by apply client1_ok|by split_and!|reflexivity|reflexivity|reflexivity|apply inchoate; by left| |by apply rej_msg_ok|].
  - change (Client.stk (Client.New ccfg skip cparams files)) with (@nil Z). rewrite no_token_refused by done. done.
  - apply step_rej; [|by left|done|by vm_compute].
    apply rej_first; [by apply configs_scfg_ok|done..].
Qed.

Lemma learn_ok cenv senv secret h : configs_fit -> senv_ok senv -> cenv_ok cenv ->
  client_ok ccfg h -> client_ok ccfg (learn scfg cenv senv secret h).
Proof.
  intros Hf (_ & _ & Ht & _) Hc (H1 & H2 & H3 & H4 & H5 & _).
  destruct (nonce_length cenv Hf Hc) as [Hn _]. destruct (configs_scfg_ok Hf) as (Hi & _).
  assert (Hnv : value_ok (clientNonce scfg cenv)) by (eapply size_value_ok; [exact Hn|lia]).
  assert (Hiv : value_ok (ServerConfig.ID (Server.scfg scfg))) by (eapply size_value_ok; [exact Hi|lia]).
  assert (Hkv : value_ok (ScalarBaseMult (Kex.clamp (Client.kexRandom cenv))))
    by (eapply size_value_ok; [apply ScalarBaseMult_length|lia]).
  unfold learn. cbv zeta. case_match; split_and!; done.
Qed.

Lemma believe_ok proof certs cm h : client_ok ccfg h -> client_ok ccfg (believe proof certs cm h).
Proof. intros H. exact H. Qed.

Lemma sent_ok h : client_ok ccfg h -> client_ok ccfg (sent ccfg h).
Proof. intros H. exact H. Qed.

(** A token: the server proves who it is. *)
Lemma second_round files senv1 cenv1 secret1 senv cenv pn secret s :
  configs_fit -> trusts skip leaf -> senv_ok senv1 -> cenv_ok cenv1 -> senv_ok senv -> cenv_ok cenv ->
  in_time senv1 senv -> waiting s ->
  Kex.CalculateSharedKey (Kex.NewCurve25519KEX cenv.(Client.kexRandom)) (Kex.PublicKey scfg.(Server.scfg).(ServerConfig.kex)) = Ok secret ->
  exists proof certs rest, round scfg ccfg senv cenv pn (client2 files cenv1 senv1 secret1, s)
    = Some (client3 files cenv1 senv1 secret1 cenv senv secret proof certs rest,
            rejected (<[TagCERT := certs]> (<[TagPROF := proof]> (rejTags scfg senv))) s, false).
Proof.
  intros Hf Ht Hs1 Hc1 Hs Hc Hin Hw Hsec. pose proof Ht as (_ & _ & Hcerts & Hproof).
  set (c := learn scfg cenv1 senv1 secret1 (client1 files)).
  destruct (Hproof (hello_bytes ccfg c)) as (proof & P1 & P2 & P3 & P4).
  destruct Hcerts as (certs & raw & rest & C1 & C2 & C3 & C4 & C5). destruct (hello_hashes ccfg c) as [<- <-] in C1.
  exists proof, certs, rest. change (client2 files cenv1 senv1 secret1) with (sent ccfg c).
  assert (Hok : client_ok ccfg c) by (apply learn_ok; [done..|by apply client1_ok]).
  apply round_rejected; [done|done|exact Hok|done|reflexivity|reflexivity|reflexivity|apply inchoate; by right|..].
  - change (Client.stk c) with (token scfg senv1). rewrite token_accepted by done. eauto.
  - by apply proof_msg_ok.
  - apply step_rej; [|by right|done|by vm_compute].
    apply (rej_second scfg (configs_scfg_ok Hf) cenv senv secret proof certs
             (CertManager.mk (leaf :: rest) skip) leaf rest); try done.
    + apply Hc.
    + unfold CertManager.SetData. rewrite C3, C4. reflexivity.
Qed.

Lemma learn_again cenv senv secret h : h.(Client.nonc) <> [] ->
  learn scfg cenv senv secret h
  = Client.set_scfgData (ServerConfig.Get scfg.(Server.scfg))
      (Client.set_serverConfig (Some (parsedConfig scfg cenv secret)) (Client.set_stk (token scfg senv) h)).
Proof. intros H. unfold learn. cbv zeta. by rewrite (length_nonempty (Client.nonc _)). Qed.

(** Both ends after the handshake. *)
Definition finished (c : Client.t) (s : Server.t) : Prop :=
  (exists ca sa, c.(Client.secureAEAD) = Some ca /\ s.(Server.secureAEAD) = Some sa /\ matching ca sa)
  /\ (exists ca sa, c.(Client.forwardSecureAEAD) = Some ca /\ s.(Server.forwardSecureAEAD) = Some sa /\ matching ca sa)
  /\ c.(Client.aeadChanged) = mkChan [EncryptionSecure; EncryptionForwardSecure] true
  /\ s.(Server.aeadChanged) = mkChan [EncryptionSecure; EncryptionForwardSecure] false
  /\ s.(Server.sentSHLO) = true
  /\ c.(Client.connectionParameters).(ConnParams.sendStreamFlowControlWindow) = sparams.(ConnParams.receiveStreamFlowControlWindow)
  /\ c.(Client.connectionParameters).(ConnParams.sendConnectionFlowControlWindow) = sparams.(ConnParams.receiveConnectionFlowControlWindow)
  /\ s.(Server.connectionParameters).(ConnParams.sendStreamFlowControlWindow) = cparams.(ConnParams.receiveStreamFlowControlWindow)
  /\ s.(Server.connectionParameters).(ConnParams.sendConnectionFlowControlWindow) = cparams.(ConnParams.receiveConnectionFlowControlWindow)
  /\ c.(Client.connectionParameters).(ConnParams.idleConnectionStateLifetime)
     <= s.(Server.connectionParameters).(ConnParams.idleConnectionStateLifetime).

(** What the client knows before the last hello. *)
Definition informed (nonce : list Z) (cenv : Client.Env) (senv : Server.Env) (secret : list Z) (c : Client.t) : Prop :=
  c.(Client.serverConfig) = Some (parsedConfig scfg cenv secret) /\ c.(Client.stk) = token scfg senv /\ c.(Client.sno) = []
  /\ c.(Client.nonc) = nonce /\ head c.(Client.certManager).(CertManager.chain) = Some leaf
  /\ c.(Client.diversificationNonce) = [] /\ c.(Client.serverVerified) = true
  /\ c.(Client.nullAEAD) = NullAEAD.NewNullAEAD PerspectiveClient ccfg.(Client.version)
  /\ c.(Client.secureAEAD) = None /\ c.(Client.forwardSecureAEAD) = None
  /\ c.(Client.aeadChanged) = mkChan [] false /\ c.(Client.connectionParameters) = cparams.

Lemma informed_sent nonce cenv senv secret c :
  informed nonce cenv senv secret c -> informed nonce cenv senv secret (sent ccfg c).
Proof. done. Qed.

(** Everything known: the server derives its keys ... *)
Lemma server_finishes nonce cenv1 senv1 secret c senv s :
  configs_fit -> trusts skip leaf -> client_ok ccfg c -> informed nonce cenv1 senv1 secret c ->
  length nonce = 32%nat -> take 8 (drop 4 nonce) = scfg.(Server.scfg).(ServerConfig.obit) ->
  senv_ok senv1 -> senv_ok senv -> in_time senv1 senv -> waiting s ->
  Kex.CalculateSharedKey scfg.(Server.scfg).(ServerConfig.kex) (Kex.PublicKey (Kex.NewCurve25519KEX cenv1.(Client.kexRandom))) = Ok secret ->
  ConnParamsProofs.params_ok cparams -> ConnParamsProofs.params_ok sparams -> sparams.(ConnParams.flowControlNegotiated) = false ->
  exists esecret ca sa cf sf params,
    Kex.CalculateSharedKey (Kex.NewCurve25519KEX cenv1.(Client.kexRandom)) (Kex.PublicKey senv.(Server.ephermalKex)) = Ok esecret
    /\ keyDerivation false secret nonce ccfg.(Client.connID) (hello_bytes ccfg c) (ServerConfig.Get scfg.(Server.scfg))
         leaf senv.(Server.divNonce) PerspectiveClient = Ok ca
    /\ keyDerivation true esecret (nonce ++ senv.(Server.serverNonce)) ccfg.(Client.connID) (hello_bytes ccfg c)
         (ServerConfig.Get scfg.(Server.scfg)) leaf [] PerspectiveClient = Ok cf
    /\ matching ca sa /\ matching cf sf
    /\ ConnParamsProofs.params_ok params
    /\ params.(ConnParams.sendStreamFlowControlWindow) = cparams.(ConnParams.receiveStreamFlowControlWindow)
    /\ params.(ConnParams.sendConnectionFlowControlWindow) = cparams.(ConnParams.receiveConnectionFlowControlWindow)
    /\ params.(ConnParams.receiveStreamFlowControlWindow) = sparams.(ConnParams.receiveStreamFlowControlWindow)
    /\ params.(ConnParams.receiveConnectionFlowControlWindow) = sparams.(ConnParams.receiveConnectionFlowControlWindow)
    /\ Server.handleStream scfg senv (hello_bytes ccfg c) s
       = (Server.mk senv.(Server.divNonce) s.(Server.nullAEAD) (Some sa) (Some sf) s.(Server.receivedForwardSecurePacket)
            s.(Server.receivedSecurePacket) true (mkChan [EncryptionSecure; EncryptionForwardSecure] false) params
            (s.(Server.written) ++ [HandshakeMessage.bytes (HandshakeMessage.mk TagSHLO (shloTags scfg senv params))]),
          Ok (true, [])).
Proof.
  intros Hf (Hleaf & _) Hok (I1 & I2 & I3 & I4 & I5 & I6 & I7 & I8 & I9 & I10 & I11 & I12) Hn Ho Hs1 Hs Hin
    (W1 & W2 & W3 & W4 & W5) Hsec Hcp Hsp Hneg.
  pose proof (token_accepted senv1 senv Hf Hs1 Hin) as Htok. rewrite <- I2 in Htok.
  destruct Hs as (_ & _ & _ & _ & _ & re & Hre).
  destruct (shared_secret_agrees (Client.kexRandom cenv1) re) as (esecret & E1 & E2 & _). rewrite <- Hre in E1, E2.
  pose proof Hf as (Hv & Hvr & Hid & Hh & _).
  destruct (derived_keys_match newCipher hkdf false secret nonce (Client.connID ccfg) (hello_bytes ccfg c)
    (ServerConfig.Get (Server.scfg scfg)) leaf (Server.divNonce senv)) as (ca & sa & K1 & K2 & K3 & _).
  destruct (derived_keys_match newCipher hkdf true esecret (nonce ++ Server.serverNonce senv) (Client.connID ccfg)
    (hello_bytes ccfg c) (ServerConfig.Get (Server.scfg scfg)) leaf []) as (cf & sf & F1 & F2 & F3 & _).
  destruct (hello_params ccfg c) as [P1 P2]. rewrite I12 in P2.
  destruct (ConnParamsProofs.SetFromMap_ok sparams cparams (hello ccfg c) Hneg Hcp Hsp P2 P1)
    as (params & S1 & S2 & S3 & S4 & S5 & S6 & _).
  exists esecret, ca, sa, cf, sf, params. split_and!; [done..|].
  apply (server_accepts scfg ccfg leaf Hh Hv Hvr Hleaf senv c (Kex.NewCurve25519KEX (Client.kexRandom cenv1)) s secret esecret);
    [done| |done|done|done|by rewrite I4, Hid|by rewrite I4, Hid|by rewrite W5|done].
  split_and!; [|done|by rewrite I4|by rewrite I4].
  eexists. split; [exact I1|]. done.
Qed.

(** ... and the client the same ones. *)
Lemma third_round nonce cenv1 senv1 secret c senv cenv pn s :
  configs_fit -> trusts skip leaf -> client_ok ccfg c -> informed nonce cenv1 senv1 secret c ->
  length nonce = 32%nat -> take 8 (drop 4 nonce) = scfg.(Server.scfg).(ServerConfig.obit) ->
  senv_ok senv1 -> senv_ok senv -> in_time senv1 senv -> waiting s -> secret <> [] ->
  Kex.CalculateSharedKey scfg.(Server.scfg).(ServerConfig.kex) (Kex.PublicKey (Kex.NewCurve25519KEX cenv1.(Client.kexRandom))) = Ok secret ->
  ConnParamsProofs.params_ok cparams -> ConnParamsProofs.params_ok sparams ->
  sparams.(ConnParams.flowControlNegotiated) = false -> cparams.(ConnParams.flowControlNegotiated) = false ->
  exists c' s', round scfg ccfg senv cenv pn (sent ccfg c, s) = Some (c', s', true) /\ finished c' s'.
Proof.
  intros Hf Ht Hok Hi Hn Ho Hs1 Hs Hin Hw Hne Hsec Hcp Hsp Hneg Hcneg.
  destruct (server_finishes nonce cenv1 senv1 secret c senv s Hf Ht Hok Hi Hn Ho Hs1 Hs Hin Hw Hsec Hcp Hsp Hneg)
    as (esecret & ca & sa & cf & sf & params & E1 & K1 & F1 & Mk & Mf & Q1 & Q2 & Q3 & Q4 & Q5 & Hserver).
  destruct Hw as (W1 & W2 & W3 & W4 & W5). pose proof Hs as (_ & _ & _ & _ & Hdiv & _).
  pose proof Ht as (_ & Hlne & _). pose proof Hf as (Hv & _ & _ & _ & _ & _ & Hnv & Hcache & _).
  pose proof (informed_sent nonce cenv1 senv1 secret c Hi) as (J1 & _ & J3 & J4 & J5 & J6 & J7 & J8 & J9 & J10 & J11 & J12).
  assert (Hleafc : Client.leafCert (sent ccfg c) = leaf)
    by (unfold Client.leafCert, CertManager.GetLeafCert; by rewrite J5).
  assert (Hlast : Client.lastSentCHLO (sent ccfg c) = hello_bytes ccfg c) by reflexivity.
  assert (Hbne : hello_bytes ccfg c <> []).
  { intros E. pose proof (ClientLevels.hello_size ccfg c) as Hl. fold (hello ccfg c) in Hl. fold (hello_bytes ccfg c) in Hl.
    rewrite E in Hl. cbn in Hl. unfold ClientHelloMinimumSize in Hl. lia. }
  destruct (shloTags_lookup scfg senv params) as (_ & _ & _ & L4 & L5).
  destruct (ConnParamsProofs.SetFromMap_ok cparams params (shloTags scfg senv params) Hcneg Q1 Hcp L5 (or_introl L4))
    as (cp & S1 & S2 & S3 & S4 & S5 & S6 & S7).
  destruct (null_matching (Client.version ccfg)) as [M1 _].
  set (c1 := Client.set_aeadChanged (mkChan [EncryptionSecure] false) (Client.set_secureAEAD (Some ca)
    (Client.set_diversificationNonce (Server.divNonce senv) (sent ccfg c)))).
  assert (Hd : Client.step ccfg cenv (Client.DivNonce (Server.divNonce senv)) (sent ccfg c) = (c1, Ok tt)).
  { apply (client_diversify ccfg cenv (Server.divNonce senv) (sent ccfg c) (parsedConfig scfg cenv1 secret) ca);
      [exact J7|exact J9|exact J1|exact Hne|rewrite J4; by destruct nonce|by rewrite Hleafc|exact Hdiv
      |exact Hbne|exact J6|exact J11|].
    rewrite J4, J3, app_nil_r, Hleafc, Hlast. exact K1. }
  assert (Hc1 : Client.leafCert (Client.set_receivedSecurePacket true c1) = leaf) by exact Hleafc.
  set (c2 := Client.set_receivedSecurePacket true c1) in *.
  assert (Hshlo : Client.step ccfg cenv (Client.Message (HandshakeMessage.mk TagSHLO (shloTags scfg senv params))) c2
    = (Client.set_aeadChanged (mkChan [EncryptionSecure; EncryptionForwardSecure] true)
         (Client.set_connectionParameters cp (Client.set_forwardSecureAEAD (Some cf)
           (Client.set_sno senv.(Server.serverNonce) c2))), Ok tt)).
  { apply (client_finishes scfg ccfg cenv senv params cp c2 (parsedConfig scfg cenv1 secret) ca cf esecret);
      [exact Hnv|exact Hcache|reflexivity|reflexivity|exact J1|reflexivity|exact E1|..].
    - rewrite Hc1. change (Client.nonc c2) with (Client.nonc (sent ccfg c)). rewrite J4. exact F1.
    - change (Client.connectionParameters c2) with (Client.connectionParameters (sent ccfg c)). rewrite J12. exact S1. }
  eexists _, _. split.
  - unfold round. cbn [fst snd].
    erewrite deliver_hello; [|by apply last_snoc| |exact W2|exact W3|exact Hserver|by apply last_snoc].
    + erewrite (deliver_shlo cenv pn (sent ccfg c) c1 _ sa ca);
        [|by apply shlo_msg_ok|reflexivity|apply Mk|exact Hd|reflexivity|exact J10|exact Hshlo]. reflexivity.
    + change (opens (Client.nullAEAD (sent ccfg c)) (Server.nullAEAD s)). rewrite J8, W1. cbn [server1 Server.New Server.nullAEAD].
      rewrite Hv. exact M1.
  - unfold finished. cbn. split_and!; [by eexists _, _|by eexists _, _|done|done|done|congruence|congruence|done|done|].
    rewrite S7. destruct Q1 as (_ & _ & _ & Q). unfold Second in *. lia_div.
Qed.

End Delivery.

(** C3: a client that knows nothing about the server, and a server whose certificate
    it trusts, finish the handshake after three client hellos: the first is
    answered with the config and a token, the second with a proof, the third with
    a server hello.  Then both have secure keys and forward-secure keys, each end
    opens what the other one seals with them, both announced the two key changes
    in order, and each end may send as much as the other one is willing to
    receive. *)
Theorem handshake_completes {curve : Curve25519} {keys : KeySchedule} {codec : StkCodec} {chain : CertChain} {x509 : X509Lib}
    scfg ccfg skip leaf cparams sparams files senv1 senv2 senv3 cenv1 cenv2 cenv3 env0 pn1 pn2 pn3 :
  configs_fit scfg ccfg -> trusts scfg ccfg skip leaf ->
  senv_ok scfg senv1 -> senv_ok scfg senv2 -> senv_ok scfg senv3 -> cenv_ok cenv1 -> cenv_ok cenv2 ->
  in_time senv1 senv2 -> in_time senv2 senv3 ->
  ConnParamsProofs.params_ok cparams -> ConnParamsProofs.params_ok sparams ->
  sparams.(ConnParams.flowControlNegotiated) = false -> cparams.(ConnParams.flowControlNegotiated) = false ->
  exists c1 c2 s2 c3 s3 c4 s4,
    Client.start ccfg env0 (Client.New ccfg skip cparams files) = (c1, Ok tt)
    /\ round scfg ccfg senv1 cenv1 pn1 (c1, Server.New scfg sparams) = Some (c2, s2, false)
    /\ round scfg ccfg senv2 cenv2 pn2 (c2, s2) = Some (c3, s3, false)
    /\ round scfg ccfg senv3 cenv3 pn3 (c3, s3) = Some (c4, s4, true)
    /\ finished cparams sparams c4 s4.
Proof.
  intros Hf Ht Hs1 Hs2 Hs3 Hc1 Hc2 T1 T2 Hcp Hsp Hneg Hcneg.
  destruct (shared_with_config scfg ccfg cenv1 Hf) as (secret1 & _ & X1 & _).
  destruct (shared_with_config scfg ccfg cenv2 Hf) as (secret2 & Xne & X2 & X3).
  pose proof (first_hello scfg ccfg skip cparams files env0 Hf) as H0.
  pose proof (first_round scfg ccfg skip leaf cparams sparams files senv1 cenv1 pn1 secret1 Hf Ht Hs1 Hc1 X1) as H1.
  destruct (second_round scfg ccfg skip leaf cparams sparams files senv1 cenv1 secret1 senv2 cenv2 pn2 secret2
    (rejected (rejTags scfg senv1) (server1 scfg sparams)) Hf Ht Hs1 Hc1 Hs2 Hc2 T1 ltac:(by split_and!) X2)
    as (proof & certs & rest & H2).
  destruct (nonce_length scfg ccfg cenv1 Hf Hc1) as [Hn Ho].
  set (c := believe proof certs (CertManager.mk (leaf :: rest) skip)
    (learn scfg cenv2 senv2 secret2 (client2 scfg ccfg skip cparams files cenv1 senv1 secret1))) in *.
  assert (Hnn : clientNonce scfg cenv1 <> []) by (intros E; by rewrite E in Hn).
  assert (Hok : client_ok ccfg (learn scfg cenv2 senv2 secret2 (client2 scfg ccfg skip cparams files cenv1 senv1 secret1))).
  { apply (learn_ok scfg ccfg); [done..|]. apply sent_ok, (learn_ok scfg ccfg); [done..|].
    by apply sent_ok, (client1_ok scfg ccfg). }
  assert (Hi : informed scfg ccfg leaf cparams (clientNonce scfg cenv1) cenv2 senv2 secret2 c)
    by (unfold c; rewrite learn_again by exact Hnn; done).
  destruct (third_round scfg ccfg skip leaf cparams sparams (clientNonce scfg cenv1) cenv2 senv2 secret2 c senv3 cenv3 pn3
    (rejected (<[TagCERT := certs]> (<[TagPROF := proof]> (rejTags scfg senv2)))
       (rejected (rejTags scfg senv1) (server1 scfg sparams)))
    Hf Ht (believe_ok ccfg _ _ _ _ Hok) Hi Hn Ho Hs2 Hs3 T2 ltac:(by split_and!) Xne X3 Hcp Hsp Hneg Hcneg) as (c4 & s4 & H3 & H4).
  do 7 eexists. split_and!; [exact H0|exact H1|exact H2|exact H3|exact H4].
Qed.

(** Two ends for evaluation. *)
Import AeadProofs.

(** The cipher is AES. *)
Definition demo_keys : KeySchedule :=
  {| newCipher key := match Aes.NewCipher key with Ok c => AesProofs.aes_block c | _ => GcmProofs.demo_block end;
     hkdf := demo_hkdf |}.
Definition demo_chain : CertChain :=
  {| SignServerProof _ chlo _ := Ok [Z.of_nat (length chlo)]; GetCertsCompressed _ _ _ := Ok [1; 2];
     ChainLeafCert _ := Ok [48; 130] |}.
Definition demo_x509 : X509Lib :=
  {| decompressChain _ := Ok [[48; 130]]; ParseCertificate c := Ok c;
     verifyServerProof proof _ chlo _ := Ok (bool_decide (proof = [Z.of_nat (length chlo)]));
     VerifyChain _ _ := Ok tt; getCommonCertificateHashes := [] |}.
Definition demo_scfg : Server.config :=
  Server.mkConfig 7 (UDPAddr [10; 0; 0; 1] 4433)
    (ServerConfig.mk (Kex.NewCurve25519KEX (curve:=demo_curve) (replicate 32 9)) (replicate 16 1) (replicate 8 2))
    Version39 SupportedVersions (Cookie.defaultAcceptCookie (codec:=demo_codec)).
Definition demo_ccfg : Client.config := Client.mkConfig [113; 117; 105; 99] 7 Version39 [] false false.
Definition demo_senv (now : Z) : Server.Env :=
  Server.mkEnv (now * Second) (replicate 16 3) (replicate 32 4) (replicate 32 5)
    (Kex.NewCurve25519KEX (curve:=demo_curve) (replicate 32 6)).
Definition demo_cenv : Client.Env := Client.mkEnv (8 * Second) (replicate 32 7) (replicate 20 8).
Definition demo_cparams : ConnParams.t := ConnParams.New PerspectiveClient Version39 1048576 1572864 (30 * Second).
Definition demo_sparams : ConnParams.t := ConnParams.New PerspectiveServer Version39 1048576 1572864 (10 * Second).

Lemma demo_fit : configs_fit (curve:=demo_curve) (codec:=demo_codec) (x509:=demo_x509) demo_scfg demo_ccfg.
Proof. split_and!; try reflexivity; try (vm_compute; congruence). - vm_compute. lia. - by eexists. Qed.

Lemma demo_trusts : trusts (chain:=demo_chain) (x509:=demo_x509) demo_scfg demo_ccfg false [48; 130].
Proof.
  split_and!; [done..| |].
  - exists [1; 2], [[48; 130]], []. split_and!; vm_compute; congruence.
  - intros chlo. exists [Z.of_nat (length chlo)]. split_and!; [done..|by vm_compute|cbn; f_equal; by apply bool_decide_eq_true_2].
Qed.

Lemma demo_senv_ok now : 0 <= now -> senv_ok (curve:=demo_curve) (codec:=demo_codec) demo_scfg (demo_senv now).
Proof.
  intros Hn. split_and!; [cbn [demo_senv Server.now]; unfold Second; lia|done|..|done|by eexists];
    unfold value_ok; cbn; vm_compute; congruence.
Qed.

Lemma demo_params_ok :
  ConnParamsProofs.params_ok demo_cparams /\ ConnParamsProofs.params_ok demo_sparams.
Proof. split; split_and!; vm_compute; (congruence || (split; congruence)). Qed.

Lemma handshake_completes_witness :
  exists c1 c2 s2 c3 s3 c4 s4,
    Client.start (keys:=demo_keys) (x509:=demo_x509) (curve:=demo_curve) demo_ccfg demo_cenv
      (Client.New demo_ccfg false demo_cparams ∅) = (c1, Ok tt)
    /\ round (curve:=demo_curve) (keys:=demo_keys) (codec:=demo_codec) (chain:=demo_chain) (x509:=demo_x509)
         demo_scfg demo_ccfg (demo_senv 1) demo_cenv 1 (c1, Server.New demo_scfg demo_sparams) = Some (c2, s2, false)
    /\ round (curve:=demo_curve) (keys:=demo_keys) (codec:=demo_codec) (chain:=demo_chain) (x509:=demo_x509)
         demo_scfg demo_ccfg (demo_senv 2) demo_cenv 2 (c2, s2) = Some (c3, s3, false)
    /\ round (curve:=demo_curve) (keys:=demo_keys) (codec:=demo_codec) (chain:=demo_chain) (x509:=demo_x509)
         demo_scfg demo_ccfg (demo_senv 3) demo_cenv 3 (c3, s3) = Some (c4, s4, true)
    /\ finished demo_cparams demo_sparams c4 s4.
Proof.
  apply (handshake_completes (curve:=demo_curve) (keys:=demo_keys) (codec:=demo_codec) (chain:=demo_chain) (x509:=demo_x509)
    demo_scfg demo_ccfg false [48; 130] demo_cparams demo_sparams ∅ (demo_senv 1) (demo_senv 2) (demo_senv 3)
    demo_cenv demo_cenv demo_cenv demo_cenv 1 2 3 demo_fit demo_trusts).
  - apply demo_senv_ok. lia.
  - apply demo_senv_ok. lia.
  - apply demo_senv_ok. lia.
  - split; [vm_compute; congruence|reflexivity].
  - split; [vm_compute; congruence|reflexivity].
  - split; vm_compute; congruence.
  - split; vm_compute; congruence.
  - apply demo_params_ok.
  - apply demo_params_ok.
  - reflexivity.
  - reflexivity.
Defined.

End HandshakeProofs.
