(* ===== verification/SessionStreams.v ===== *)
(** * What the session relies on: received frames and the streams map

    Frames that the unpacker accepts have valid acknowledgement ranges and 32-bit
    stream IDs, and every operation of the packer and the framer on the streams
    map keeps its books. *)

From S2P Require Import Prelude ByteOrder Protocol WireHeader WireFrames WireStream WireAck WireAckParse.
From S2P Require Import PacketUnpacker MinMax AckReceived ConnParams FlowControl StreamSorter Stream StreamsMap.
From S2P Require Import StreamsMapProofs StreamFramer RTTStats SentPackets Path PacketPacker.

(** ** Received frames *)

Definition frame_valid (fr : Frame) : Prop :=
  match fr with
  | FAck f => parsed_ok f.(AckFrame.LargestAcked) f.(AckFrame.LowestAcked) f.(AckFrame.AckRanges)
  | FClosePath f => parsed_ok f.(ClosePathFrame.LargestAcked) f.(ClosePathFrame.LowestAcked) f.(ClosePathFrame.AckRanges)
  | FStream f => in_width 32 f.(StreamFrame.StreamID)
  | FRstStream f => in_width 32 f.(RstStreamFrame.StreamID)
  | FWindowUpdate f => in_width 32 f.(WindowUpdateFrame.StreamID)
  | _ => True
  end.

Section Unpacked.
Import PacketUnpacker UnpackerProofs.

Lemma wrapped_Ok_inv {A} code (mk : A -> Frame) (m : Reader A) r fr r' :
  wrapped code mk m r = Ok (fr, r') -> exists a, m r = Ok (a, r') /\ fr = mk a.
Proof. unfold wrapped. destruct (m r) as [[a r1]| |]; [|done..]. intros [= <- <-]. eauto. Qed.

Lemma plain_Ok_inv {A} (mk : A -> Frame) (m : Reader A) r fr r' :
  plain mk m r = Ok (fr, r') -> exists a, m r = Ok (a, r') /\ fr = mk a.
Proof. intros (a & r1 & E & [= <- <-])%rbind_Ok_inv. eauto. Qed.

Lemma ReadUint32_Ok version r x r' :
  bytes_ok r -> ReadUint32 (GetByteOrder version) r = Ok (x, r') -> in_width 32 x.
Proof.
  intros Hr H. destruct (le_lt_dec 4 (length r)) as [Hle|Hlt]; [|by rewrite bo_ReadUint32_short in H].
  assert (Hl : length (take 4 r) = 4%nat) by (rewrite length_take; lia).
  assert (Hok : bytes_ok (take 4 r)) by by apply Forall_take.
  rewrite <- (take_drop 4 r), bo_ReadUint32 in H by done. injection H as <- _.
  pose proof (bo_dec_bound (bo:=GetByteOrder version) _ Hok) as Hb. by rewrite Hl in Hb.
Qed.

Lemma ReadByte_Ok r b r' : bytes_ok r -> ReadByte r = Ok (b, r') -> bytes_ok r'.
Proof. destruct 1 as [|x l Hx Hl]; [done|]. by intros [= _ <-]. Qed.

Lemma parseOther_valid version pn pnl tb r fr r' :
  bytes_ok r -> parseOther version pn pnl tb r = Ok (fr, r') -> frame_valid fr.
Proof.
  intros Hr. unfold parseOther.
  repeat (case_match; [first [intros (a & E & ->)%wrapped_Ok_inv | intros (a & E & ->)%plain_Ok_inv | done]; cbn [frame_valid]; try done|]);
    [..|done].
  - by apply (rspec_inv _ _ _ (AckFrame_Parse_rspec version r Hr)) in E.
  - unfold RstStreamFrame.Parse in E. rinv E. injection E as <- <-. eapply ReadUint32_Ok; [|done]. by eapply ReadByte_Ok.
  - unfold WindowUpdateFrame.Parse in E. rinv E. injection E as <- <-. eapply ReadUint32_Ok; [|done]. by eapply ReadByte_Ok.
  - by apply (rspec_inv _ _ _ (ClosePathFrame_Parse_rspec version r Hr)) in E.
Qed.

Lemma StreamFrame_id version r f r' : StreamFrame.Parse version r = Ok (f, r') -> in_width 32 f.(StreamFrame.StreamID).
Proof.
  unfold StreamFrame.Parse, StreamFrame.Parse_fields. intros E. rinv E. injection E as <- <-. apply u32_range.
Qed.

Lemma parseFrame_valid version pn pnl level tb marks r marks' fr r' :
  bytes_ok r -> parseFrame version pn pnl level tb marks r = (marks', Ok (fr, r')) -> frame_valid fr.
Proof.
  intros Hr. unfold parseFrame, parseStream. case_match; [|intros [= _ HP]; by eapply parseOther_valid].
  destruct (StreamFrame.Parse version r) as [[f r1]| |] eqn:E; [|done..].
  destruct (negb _ && _); [done|]. intros [= _ <- <-]. by eapply StreamFrame_id.
Qed.

Lemma unpackFrames_valid version pn pnl level fuel : forall marks fs r marks' fs',
  bytes_ok r -> Forall frame_valid fs ->
  unpackFrames fuel version pn pnl level marks fs r = Some (marks', Ok fs') -> Forall frame_valid fs'.
Proof.
  induction fuel as [|fuel IH]; intros marks fs [|tb r] marks' fs' Hr Hfs; cbn [unpackFrames];
    [by intros [= <- <-]|done|by intros [= <- <-]|].
  pose proof (proj2 (proj1 (Forall_cons _ _ _) Hr)) as Hr1.
  case_match; [by apply IH|].
  destruct (parseFrame _ _ _ _ _ _ _) as [marks1 [[f r2]| |]] eqn:E; [|done..].
  pose proof (parseFrame_valid _ _ _ _ _ _ _ _ _ _ Hr E) as Hv.
  apply parseFrame_advances in E as [_ Hsuf].
  apply IH; [by eapply Forall_suffix|]. apply Forall_app_2; [done|]. by apply Forall_singleton.
Qed.

(** The frames of a packet, provided that opening it gives bytes. *)
Lemma Unpack_valid `{aead : QuicAEAD} version marks phb hdr data marks' level fs :
  (forall payload l, Open data hdr.(PublicHeader.PacketNumber) phb = inr (payload, l) -> bytes_ok payload) ->
  Unpack version marks phb hdr data = Some (marks', Ok (level, fs)) -> Forall frame_valid fs.
Proof.
  intros Hopen. unfold Unpack. destruct (Open _ _ _) as [|[payload level']]; [done|]. case_match; [done|].
  destruct (unpackFrames _ _ _ _ _ _ _ _) as [[m [fs0| |]]|] eqn:E; [|done..].
  intros [= <- <- <-]. eapply unpackFrames_valid; [by eapply Hopen|constructor|done].
Qed.

End Unpacked.

(** ** The streams map *)

Section Books.
Import StreamsMap StreamsMapProofs.

(** The books stay in order, and this side opens no stream. *)
Definition books (st st' : state) : Prop := map_inv st'.1 /\ st'.1.(nextStream) = st.1.(nextStream).

Lemma books_refl st : map_inv st.1 -> books st st.
Proof. done. Qed.

Lemma books_trans st1 st2 st3 : books st1 st2 -> books st2 st3 -> books st1 st3.
Proof. intros [_ E1] [H E2]. split; [done|congruence]. Qed.

Lemma books_flow st f : map_inv st.1 -> books st (st.1, f).
Proof. done. Qed.

Lemma openLoop_books id fuel : forall st sid,
  map_inv st.1 -> ~ is_local st.1.(perspective) id -> sid mod 2 = id mod 2 ->
  st.1.(highestStreamOpenedByPeer) < sid -> sid <= id -> id < 2 ^ 32 -> Z.to_nat ((id - sid) / 2 + 1) = fuel ->
  forall st' err, openLoop fuel sid id st = Some (st', err) -> books st st'.
Proof.
  induction fuel as [|fuel IH]; intros st sid Hi Hpar Hsid Hlo Hle Hid Hf st' err; cbn [openLoop].
  { rewrite (proj2 (Z.leb_le _ _) Hle). done. }
  rewrite (proj2 (Z.leb_le _ _) Hle).
  assert (Hpar' : ~ is_local st.1.(perspective) sid) by (destruct st.1.(perspective); cbn [is_local] in *; lia).
  pose proof (openRemoteStream_ok st sid Hi Hpar' ltac:(lia)) as Hopen.
  destruct (openRemoteStream st sid) as [st1 [e|]].
  { cbn in Hopen. subst. by intros [= <- <-]. }
  destruct Hopen as (Hev & Hh & _ & Hn). pose proof Hev as (Hi1 & _ & Hp & _). destruct (inv_peer _ Hi).
  assert (H1 : books st st1) by done.
  destruct (Z.le_gt_cases (sid + 2) id) as [Hle2|Hgt].
  - rewrite u32_small by lia. intros Hr. eapply books_trans; [exact H1|].
    apply (IH st1 (sid + 2)) with (err := err); try done; try lia.
    + by rewrite Hp.
    + rewrite <- Z.add_mod_idemp_r by lia. cbn. by rewrite Z.add_0_r.
    + assert (Hq : (id - (sid + 2)) / 2 = (id - sid) / 2 - 1)
        by (replace (id - (sid + 2)) with (id - sid + (-1) * 2) by lia; rewrite Z.div_add by lia; lia).
      rewrite Hq. pose proof (Z.div_pos (id - sid) 2 ltac:(lia) ltac:(lia)). lia.
  - assert (fuel = 0)%nat as ->.
    { assert ((id - sid) / 2 = 0) by (apply Z.div_small; lia). lia. }
    cbn [openLoop]. case_match; [done|]. by intros [= <- <-].
Qed.

Lemma GetOrOpenStream_books st id st' r :
  map_inv st.1 -> in_width 32 id -> GetOrOpenStream st id = Some (st', r) -> books st st'.
Proof.
  intros Hi Hid. unfold GetOrOpenStream. destruct (lookupRemote st.1 id) as [r0|] eqn:Hl; [by intros [= <- <-]|].
  unfold in_width in Hid.
  destruct (lookupRemote_None st.1 id Hi ltac:(lia) Hl) as [Hpar Hhi].
  destruct (nextRemote_ok st.1 id Hi Hpar ltac:(lia)) as [Hm Hn].
  destruct (openLoop _ _ _ _) as [[st1 err]|] eqn:E; [|done]. intros Heq.
  assert (st1 = st') as -> by (destruct err; congruence).
  eapply openLoop_books; [done|done|exact Hm|..|exact E]; try lia; done.
Qed.

(** A stream of the map is replaced by one with its ID. *)
Lemma books_stream m f f' id s s' :
  map_inv m -> m.(streams) !! id = Some s -> s'.(Stream.streamID) = s.(Stream.streamID) ->
  books (m, f) (set_streams m (<[id := s']> m.(streams)), f').
Proof.
  intros Hi E Hs.
  assert (Hev : evolves (m, f) (set_streams m (<[id := s']> m.(streams)), f)).
  { apply inv_same; try done. intros x. cbn [fst set_streams streams]. destruct (decide (id = x)) as [<-|].
    - by rewrite lookup_insert_eq, E; cbn; rewrite Hs.
    - by rewrite lookup_insert_ne. }
  split; [apply Hev|done].
Qed.

Lemma getDataForWriting_id s n : (Stream.getDataForWriting s n).1.(Stream.streamID) = s.(Stream.streamID).
Proof. unfold Stream.getDataForWriting. repeat case_match; done. Qed.

Lemma sentFin_id s : (Stream.sentFin s).(Stream.streamID) = s.(Stream.streamID).
Proof. done. Qed.

Lemma AddStreamFrame_id s f fr now : (Stream.AddStreamFrame s f fr now).1.1.(Stream.streamID) = s.(Stream.streamID).
Proof.
  unfold Stream.AddStreamFrame. destruct (FlowControlManager.UpdateHighestReceived _ _ _) as [f' [e|]]; [done|].
  destruct (StreamSorter.StreamFrameSorter.Push _ _ _ _) as [q err]. repeat case_match; done.
Qed.

Lemma RegisterRemoteError_id s e : (Stream.RegisterRemoteError s e).1.(Stream.streamID) = s.(Stream.streamID).
Proof. unfold Stream.RegisterRemoteError, Stream.sendReset. repeat case_match; done. Qed.

(** *** Polling *)

Section Poll.
Context {A : Type} (fn : streamLambda A) (P : state -> Prop).
Context (Hfn : forall id p, P p.1 -> P (fn id p).1.1).
Context (Hadvance : forall m f r u, P (m, f) -> P (set_robin m r u, f)).

Lemma iterateFunc_keeps id p : P p.1 -> P (iterateFunc id fn p).1.1.
Proof using Hfn. intros H. unfold iterateFunc. case_match; [by apply Hfn|done]. Qed.

Lemma priorityLoop_keeps ids : forall p, P p.1 -> P (priorityLoop ids fn p).1.1.
Proof using Hfn.
  induction ids as [|id ids IH]; intros p H; cbn [priorityLoop]; [done|].
  pose proof (iterateFunc_keeps id p H). destruct (iterateFunc id fn p) as [p' [cont err]]. cbn [fst] in *.
  repeat case_match; auto.
Qed.

Lemma robinLoop_keeps marked numStreams start n : forall i p, P p.1 -> P (robinLoop marked n i start numStreams fn p).1.1.
Proof using Hfn Hadvance.
  induction n as [|n IH]; intros i p H; cbn [robinLoop]; [done|].
  case_match; [|done]. case_match; [by apply IH|]. case_match; [by apply IH|].
  match goal with |- context [iterateFunc ?z fn p] => pose proof (iterateFunc_keeps z p H) end.
  destruct (iterateFunc _ fn p) as [p' [cont [e|]]]; [done|]. cbn [fst] in *.
  assert (P (advance marked numStreams p').1).
  { destruct p' as [[m f] a]. unfold advance. cbn [fst]. case_match; by apply Hadvance. }
  destruct cont; [by apply IH|done].
Qed.

Lemma robin_keeps allowed p : P p.1 -> P (robin allowed fn p).1.1.
Proof using Hfn Hadvance.
  intros H. unfold robin. pose proof (priorityLoop_keeps [1; 3] p H) as H1.
  destruct (priorityLoop [1; 3] fn p) as [p1 [| |]]; [|done..]. cbn [fst] in H1.
  set (first := if allowed then _ else _).
  assert (H2 : P first.1.1) by (unfold first; destruct allowed; [by apply robinLoop_keeps|done]).
  destruct first as [p2 [| |]]; [|done..]. cbn [fst] in H2.
  pose proof (robinLoop_keeps true (u32 (Z.of_nat (size p.1.1.(streams)))) p.1.1.(roundRobinIndex)
    (Z.to_nat (u32 (Z.of_nat (size p.1.1.(streams))))) 0 p2 H2) as H3.
  destruct (robinLoop true _ _ _ _ _ _) as [p3 [| |]]; done.
Qed.

End Poll.

End Books.

(** *** The framer and the packer *)

Section Packing.
Import StreamsMap StreamsMapProofs StreamFramer.

Lemma books_robin st m f r u : books st (m, f) -> books st (set_robin m r u, f).
Proof.
  intros [Hi E]. split; [|exact E]. cbn [fst] in *.
  assert (Hev : evolves (m, f) (set_robin m r u, f)) by by apply inv_same. apply Hev.
Qed.

Lemma emit_books maxBytes hdr w data fin id s m f c st :
  books st (m, f) -> (exists s0, m.(streams) !! id = Some s0 /\ s.(Stream.streamID) = s0.(Stream.streamID)) ->
  books st (emit maxBytes hdr w data fin id s (m, f) c).1.1.
Proof.
  intros Hb (s0 & E & Hs). unfold emit.
  destruct fin; (case_match; cbn [fst]; (eapply books_trans; [exact Hb|]); apply (books_stream m f _ id s0);
    [apply Hb|exact E|by rewrite ?sentFin_id|apply Hb|exact E|by rewrite ?sentFin_id]).
Qed.

Lemma popFrame_books maxBytes st id p : books st p.1 -> books st (popFrame maxBytes id p).1.1.
Proof.
  destruct p as [[m f] c]. cbn [fst]. intros Hb. unfold popFrame.
  destruct (m.(streams) !! id) as [s|] eqn:E; [|done]. case_match; [done|]. case_match; [done|].
  cbv zeta. case_match; [done|].
  set (r := if negb (Stream.lenOfDataForWriting s =? 0) then _ else _).
  assert (Hr : r.1.(Stream.streamID) = s.(Stream.streamID)).
  { unfold r. case_match; [apply getDataForWriting_id|done]. }
  destruct r as [s' data]. cbn [fst] in Hr.
  destruct data as [d|]; [by apply emit_books; eauto|].
  destruct (Stream.shouldSendFin s'); [by apply emit_books; eauto|].
  cbn [fst]. eapply books_trans; [exact Hb|]. eapply books_stream; [apply Hb|done|done].
Qed.

Lemma PopStreamFrames2_books fr st maxLen allowed fr' st' fs :
  map_inv st.1 -> PopStreamFrames2 fr st maxLen allowed = Some (fr', st', fs) -> books st st'.
Proof.
  intros Hi. unfold PopStreamFrames2.
  destruct (maybePopFramesForRetransmission fr st.2 maxLen) as [[[fr1 f1] fs1] n].
  unfold maybePopNormalFrames, RoundRobinIterate2.
  set (c := mkClosure _ _ _ _ _). set (mx := u64 _).
  pose proof (robin_keeps (popFrame mx) (books st) (popFrame_books mx st) (books_robin st) allowed
    ((st.1, f1), c) ltac:(by split)) as H.
  destruct (robin allowed (popFrame mx) ((st.1, f1), c)) as [[st1 c1] [e|]]; [|done].
  by intros [= <- <- <-].
Qed.

Lemma cryptoStream_books st st' s :
  map_inv st.1 -> cryptoStream st = Ok (st', s) -> books st st' /\ st'.1.(streams) !! 1 = Some s.
Proof.
  intros Hi. unfold cryptoStream. destruct (GetOrOpenStream st 1) as [[st1 [[id|]| |]]|] eqn:E; try done.
  assert (Hw : in_width 32 1) by (unfold in_width; lia).
  pose proof (GetOrOpenStream_books st 1 _ _ Hi Hw E) as Hb.
  destruct (GetOrOpenStream_ok st 1 Hi ltac:(lia)) as (st2 & r2 & E2 & _ & _ & _ & Hx).
  rewrite E in E2. injection E2 as <- <-. destruct (Hx id eq_refl) as [-> _].
  destruct (st1.1.(streams) !! 1) eqn:Es; [|done]. by intros [= <- <-].
Qed.

Lemma HasCryptoStreamFrame_books st st' b :
  map_inv st.1 -> HasCryptoStreamFrame st = Ok (st', b) -> books st st'.
Proof.
  intros Hi. unfold HasCryptoStreamFrame. destruct (cryptoStream st) as [[st1 s]| |] eqn:E; [|done..].
  intros [= <- <-]. by eapply cryptoStream_books.
Qed.

Lemma PopCryptoStreamFrame_books st n st' fr :
  map_inv st.1 -> PopCryptoStreamFrame st n = Ok (st', fr) -> books st st'.
Proof.
  intros Hi. unfold PopCryptoStreamFrame. destruct (cryptoStream st) as [[[m f] s]| |] eqn:E; [|done..].
  destruct (cryptoStream_books _ _ _ Hi E) as [Hb Es]. cbn [fst] in Es.
  case_match; [|by intros [= <- <-]].
  pose proof (getDataForWriting_id s (u64 (n - headerLen (StreamFrame.mk 1 false false false s.(Stream.writeOffset) [])))) as Hid.
  destruct (Stream.getDataForWriting _ _) as [s' data]. intros [= <- <-].
  eapply books_trans; [exact Hb|]. eapply books_stream; [apply Hb|exact Es|exact Hid].
Qed.

Context {S : Type} `{cong : SendAlgorithm S} `{crypto : CryptoSetup}.

(** The packer changes no more of a path than its packet number generator. *)
Definition same_path (p p' : Path.t S) : Prop :=
  p'.(Path.pathID) = p.(Path.pathID) /\ p'.(Path.sentPacketHandler) = p.(Path.sentPacketHandler)
  /\ p'.(Path.open) = p.(Path.open).

Lemma writeAndSealPacket_path p hdr fs sealer pth now num :
  same_path pth (PacketPacker.writeAndSealPacket p hdr fs sealer pth now num).1.
Proof.
  unfold PacketPacker.writeAndSealPacket. case_match; [|done..]. case_match; [|done..]. case_match; [done|].
  destruct (PacketNumberGenerator.Pop _ _). by case_match.
Qed.

Lemma PackConnectionClose_path p params ccf pth hc now num :
  same_path pth (PacketPacker.PackConnectionClose p params ccf pth hc now num).1.
Proof.
  unfold PacketPacker.PackConnectionClose. destruct GetSealer as [level sealer].
  match goal with |- context [PacketPacker.writeAndSealPacket ?a ?b ?c ?d ?e ?g ?h] =>
    pose proof (writeAndSealPacket_path a b c d e g h) as H; destruct (PacketPacker.writeAndSealPacket a b c d e g h) end.
  exact H.
Qed.

Lemma PackAckPacket_path p params pth hc now num :
  same_path pth (PacketPacker.PackAckPacket p params pth hc now num).1.2.
Proof.
  unfold PacketPacker.PackAckPacket. case_match; [|done]. destruct GetSealer as [level sealer].
  match goal with |- context [PacketPacker.writeAndSealPacket ?a ?b ?c ?d ?e ?g ?h] =>
    pose proof (writeAndSealPacket_path a b c d e g h) as H'; destruct (PacketPacker.writeAndSealPacket a b c d e g h) end.
  exact H'.
Qed.

Lemma PackHandshakeRetransmission_path p params packet pth hc now num :
  same_path pth (PacketPacker.PackHandshakeRetransmission p params packet pth hc now num).1.2.
Proof.
  unfold PacketPacker.PackHandshakeRetransmission. repeat (case_match; [done|]). case_match; [|done].
  match goal with |- context [PacketPacker.writeAndSealPacket ?a ?b ?c ?d ?e ?g ?h] =>
    pose proof (writeAndSealPacket_path a b c d e g h) as H'; destruct (PacketPacker.writeAndSealPacket a b c d e g h) end.
  exact H'.
Qed.

Lemma composeNextPacket_books p fr st n can (pth : Path.t S) :
  map_inv st.1 -> books st (PacketPacker.composeNextPacket p fr st n can pth).1.2.
Proof.
  intros Hi. unfold PacketPacker.composeNextPacket. case_match; [|done..].
  destruct (PacketPacker.takeControl _ _ _ _) as [[taken remaining] [len| |]]; [|done..].
  case_match; [done|]. case_match; [done|].
  destruct (PopStreamFrames2 _ _ _ _) as [[[fr' st'] fs]|] eqn:E; [|done].
  destruct (PacketPacker.popBlocked _ _ _). by eapply PopStreamFrames2_books.
Qed.

Lemma nextFrames_books p fr st n can (pth : Path.t S) :
  map_inv st.1 -> books st (PacketPacker.nextFrames p fr st n can pth).1.2.
Proof.
  intros Hi. unfold PacketPacker.nextFrames.
  destruct (PacketPacker.controlFrames p) as [|[] l]; try (by apply composeNextPacket_books). by apply books_refl.
Qed.

Definition packs (st : state) (pth : Path.t S)
    (out : PacketPacker.t * StreamFramer.t * state * Path.t S * Prelude.res (option PacketPacker.packedPacket)) : Prop :=
  books st out.1.1.2 /\ same_path pth out.1.2.

Lemma packs_books st st' pth p fr r : books st st' -> packs st pth (p, fr, st', pth, r).
Proof. intros H. split; [exact H|done]. Qed.

Lemma packCryptoPacket_packs p st pth hc now num : map_inv st.1 ->
  books st (PacketPacker.packCryptoPacket p st pth hc now num).1.1
  /\ same_path pth (PacketPacker.packCryptoPacket p st pth hc now num).1.2.
Proof.
  intros Hi. unfold PacketPacker.packCryptoPacket. destruct GetSealerForCryptoStream as [level sealer].
  case_match; [|done..].
  destruct (PopCryptoStreamFrame st _) as [[st2 [f|]]| |] eqn:Ep; [|done..].
  pose proof (PopCryptoStreamFrame_books _ _ _ _ Hi Ep) as Hb2.
  match goal with |- context [PacketPacker.writeAndSealPacket ?a ?b ?c ?d ?e ?g ?h] =>
    pose proof (writeAndSealPacket_path a b c d e g h) as H'; destruct (PacketPacker.writeAndSealPacket a b c d e g h) end.
  split; [exact Hb2|exact H'].
Qed.

Lemma PackPacket_packs p fr st pth hc now num :
  map_inv st.1 -> packs st pth (PacketPacker.PackPacket p fr st pth hc now num).
Proof.
  intros Hi. unfold PacketPacker.PackPacket.
  destruct (HasCryptoStreamFrame st) as [[st1 [|]]| |] eqn:Eh; [| |by apply packs_books, books_refl..].
  - pose proof (HasCryptoStreamFrame_books _ _ _ Hi Eh) as Hb.
    pose proof (packCryptoPacket_packs p st1 pth hc now num (proj1 Hb)) as [H1 H2].
    destruct (PacketPacker.packCryptoPacket p st1 pth hc now num) as [[st2 pth2] r]. cbn [fst snd] in H1, H2.
    split; [by eapply books_trans|exact H2].
  - pose proof (HasCryptoStreamFrame_books _ _ _ Hi Eh) as Hb. destruct GetSealer as [level sealer].
    case_match; [|by apply packs_books..].
    match goal with |- context [PacketPacker.nextFrames ?a ?b ?c ?d ?e ?g] =>
      assert (Hn : books st1 (PacketPacker.nextFrames a b c d e g).1.2);
      [apply nextFrames_books, Hb
      |destruct (PacketPacker.nextFrames a b c d e g) as [[[p2 fr2] st2] r]] end.
    cbn [fst snd] in Hn. pose proof (books_trans _ _ _ Hb Hn) as Hbn.
    destruct r as [[|f fs]| |]; [by apply packs_books| |by apply packs_books..].
    case_match; [by apply packs_books|].
    match goal with |- context [PacketPacker.writeAndSealPacket ?a ?b ?c ?d ?e ?g ?h] =>
      pose proof (writeAndSealPacket_path a b c d e g h) as H'; destruct (PacketPacker.writeAndSealPacket a b c d e g h) end.
    split; [exact Hbn|exact H'].
Qed.

Lemma PackPing_packs p fr st pth hc now num :
  map_inv st.1 -> packs st pth (PacketPacker.PackPing p fr st pth hc now num).
Proof. intros Hi. by apply PackPacket_packs. Qed.

End Packing.
