(* ===== verification/SessionProofs.v ===== *)
(** * A session stays well formed ([Session.v], [Scheduler.v])

    The well-formedness of a session joins the invariants of its components: every
    path is filed under its ID and has addresses, the initial path is there,
    only known paths are closed, the sent packets of every path are in order and
    accounted for with the loss alarm set while packets are outstanding, and the
    books of the streams map are right.  Every operation of the session and of
    the scheduler keeps it, also when it ends with an error. *)

From S2P Require Import Prelude ByteOrder Protocol WireHeader WireFrames WireStream WireAck WireAckParse.
From S2P Require Import PacketUnpacker MinMax AckReceived ConnParams FlowControl StreamSorter Stream StreamsMap.
From S2P Require Import StreamsMapProofs StreamFramer RTTStats SentPackets SentPacketsProofs Path PacketPacker Session.
From S2P Require Import Scheduler SessionStreams.

Module SessionProofs.
Import Session.

Section Session.
Context {S : Type} `{cong : SendAlgorithm S} `{crypto : CryptoSetup} `{aead : QuicAEAD}.
Context (newController : Z -> S).

(** ** The sent packets of a path *)

Section Sent.
Import SentPacketHandler.

Definition sent_ok (h : t S) : Prop := good h /\ armed h.

Lemma sent_new rtt c : sent_ok (NewSentPacketHandler rtt c).
Proof. destruct (accounted_run [] rtt c) as (acked & Hg & Ha & _); [constructor|]. by split. Qed.

Lemma sent_step h o (w : world) : w.(hnd) = h -> sent_ok h -> op_ok o -> sent_ok (step w o).(hnd).
Proof.
  intros <- [Hg Ha] Ho.
  set (w' := mkWorld w.(hnd) (w.(hnd).(packetHistory) ++ w.(hnd).(retransmissionQueue)) []).
  destruct (accounted_step [] o w' []) as (acked & Hg' & Ha' & _); [|done|].
  - split_and!; [done|done|by rewrite !app_nil_r|constructor].
  - assert (E : (step w' o).(hnd) = (step w o).(hnd)).
    { destruct o; cbn [step hnd w']; try done.
      - by destruct (SentPacket _ _ _) as [? []].
      - by destruct (DequeuePacketForRetransmission _) as [? []]. }
    rewrite E in Hg', Ha'. by split.
Qed.

Lemma sent_SentPacket h p now : sent_ok h -> sent_ok (SentPacket h p now).1.
Proof.
  intros H. pose proof (sent_step h (OpSent p now) (mkWorld h [] []) eq_refl H I) as Hs. cbn [step hnd] in Hs.
  by destruct (SentPacket h p now) as [h' []].
Qed.
Lemma sent_ReceivedAck h f wpn rcv now : sent_ok h ->
  parsed_ok f.(AckFrame.LargestAcked) f.(AckFrame.LowestAcked) f.(AckFrame.AckRanges) ->
  sent_ok (ReceivedAck h f wpn rcv now).1.
Proof. intros H Hf. exact (sent_step h (OpAck f wpn rcv now) (mkWorld h [] []) eq_refl H Hf). Qed.
Lemma sent_ReceivedClosePath h f wpn now : sent_ok h ->
  parsed_ok f.(ClosePathFrame.LargestAcked) f.(ClosePathFrame.LowestAcked) f.(ClosePathFrame.AckRanges) ->
  sent_ok (ReceivedClosePath h f wpn now).1.
Proof. intros H Hf. exact (sent_step h (OpClosePath f wpn now) (mkWorld h [] []) eq_refl H Hf). Qed.
Lemma sent_OnAlarm h failed now : sent_ok h -> sent_ok (OnAlarm h failed now).
Proof. intros H. exact (sent_step h (OpAlarm failed now) (mkWorld h [] []) eq_refl H I). Qed.
Lemma sent_SetInflightAsLost h now : sent_ok h -> sent_ok (SetInflightAsLost h now).
Proof. intros H. exact (sent_step h (OpInflightLost now) (mkWorld h [] []) eq_refl H I). Qed.
Lemma sent_Dequeue h : sent_ok h -> sent_ok (DequeuePacketForRetransmission h).1.
Proof.
  intros H. pose proof (sent_step h OpDequeue (mkWorld h [] []) eq_refl H I) as Hs. cbn [step hnd] in Hs.
  by destruct (DequeuePacketForRetransmission h) as [h' []].
Qed.
Lemma sent_Duplicate h p : sent_ok h -> sent_ok (DuplicatePacket h p).
Proof. intros H. exact (sent_step h (OpDuplicate p) (mkWorld h [] []) eq_refl H I). Qed.
Lemma sent_StopWaiting h force : sent_ok h -> sent_ok (GetStopWaitingFrame h force).1.
Proof. intros H. exact (sent_step h (OpStopWaiting force) (mkWorld h [] []) eq_refl H I). Qed.
Lemma sent_rtt h r : sent_ok h -> sent_ok (set_rttStats h r).
Proof. intros [Hg Ha]. split; [by apply (good_ext h)|exact Ha]. Qed.

End Sent.

(** ** Well-formed sessions *)

Definition path_ok (id : Z) (p : Path.t S) : Prop := p.(Path.pathID) = id /\ sent_ok p.(Path.sentPacketHandler).

Record wf (s : t S) : Prop := {
  wf_paths : forall id p, s.(paths) !! id = Some p -> path_ok id p;
  wf_initial : is_Some (s.(paths) !! 0);
  wf_closed : forall id, is_Some (s.(closedPaths) !! id) -> is_Some (s.(paths) !! id);
  wf_addrs : forall id, is_Some (s.(pathAddrs) !! id) <-> is_Some (s.(paths) !! id);
  wf_streams : StreamsMapProofs.map_inv s.(streams).1
}.

(** Paths are not dropped, closed ones stay closed, no stream is opened, a handshake
    stays complete, and the time of the first overflow stays. *)
Record extends (s s' : t S) : Prop := {
  ext_paths : forall id, is_Some (s.(paths) !! id) -> is_Some (s'.(paths) !! id);
  ext_closed : forall id, is_Some (s.(closedPaths) !! id) -> is_Some (s'.(closedPaths) !! id);
  ext_next : s'.(streams).1.(StreamsMap.nextStream) = s.(streams).1.(StreamsMap.nextStream);
  ext_complete : s.(handshakeComplete) = true -> s'.(handshakeComplete) = true;
  ext_overflow : forall time, s.(tooManyUndecryptableTime) = Some time -> s'.(tooManyUndecryptableTime) = Some time
}.

Lemma extends_refl s : extends s s.
Proof. by split. Qed.

Lemma extends_trans s1 s2 s3 : extends s1 s2 -> extends s2 s3 -> extends s1 s3.
Proof. intros [P1 C1 N1 K1 O1] [P2 C2 N2 K2 O2]. split; [auto|auto|congruence|auto|auto]. Qed.

Definition becomes (s s' : t S) : Prop := wf s' /\ extends s s'.
Definition preserves {A} (s : t S) (m : M S A) : Prop := becomes s (m s).1.

Lemma becomes_refl s : wf s -> becomes s s.
Proof. split; [done|apply extends_refl]. Qed.

Lemma becomes_trans s1 s2 s3 : becomes s1 s2 -> becomes s2 s3 -> becomes s1 s3.
Proof. intros [_ E1] [H E2]. split; [done|by eapply extends_trans]. Qed.

(** A change of the fields that [wf] does not speak of. *)
Lemma becomes_same s s' : wf s -> s'.(paths) = s.(paths) -> s'.(closedPaths) = s.(closedPaths) ->
  s'.(pathAddrs) = s.(pathAddrs) -> s'.(streams) = s.(streams) ->
  (s.(handshakeComplete) = true -> s'.(handshakeComplete) = true) ->
  (forall time, s.(tooManyUndecryptableTime) = Some time -> s'.(tooManyUndecryptableTime) = Some time) -> becomes s s'.
Proof.
  intros [H1 H2 H3 H4 H5] E1 E2 E3 E4 E5 E6. split; split; rewrite ?E1, ?E2, ?E3, ?E4; done.
Qed.

Lemma becomes_streams s st : wf s -> books s.(streams) st -> becomes s (set_streams s st).
Proof. intros [H1 H2 H3 H4 H5] [Hi Hn]. by split; split. Qed.

(** The paths change, but not their IDs. *)
Lemma becomes_paths s ps : wf s -> (forall id, is_Some (ps !! id) <-> is_Some (s.(paths) !! id)) ->
  (forall id p, ps !! id = Some p -> path_ok id p) -> becomes s (set_paths s ps).
Proof.
  intros [H1 H2 H3 H4 H5] Hs Hp. split; split; cbn [set_paths paths closedPaths pathAddrs streams]; try done.
  - by apply Hs.
  - intros x Hx. by apply Hs, H3.
  - intros x. rewrite Hs. apply H4.
  - intros x. by rewrite Hs.
Qed.

Lemma becomes_path s id p : wf s -> is_Some (s.(paths) !! id) -> path_ok id p ->
  becomes s (set_paths s (<[id := p]> s.(paths))).
Proof.
  intros H Hid Hp. apply becomes_paths; [done|..]; intros x.
  - destruct (decide (id = x)) as [<-|]; [rewrite lookup_insert_eq; by split|by rewrite lookup_insert_ne].
  - intros q. destruct (decide (id = x)) as [<-|]; [rewrite lookup_insert_eq; by intros [= <-]|].
    rewrite lookup_insert_ne by done. by apply (wf_paths s H).
Qed.

Lemma becomes_fmap s (g : Path.t S -> Path.t S) : wf s ->
  (forall id p, path_ok id p -> path_ok id (g p)) -> becomes s (set_paths s (g <$> s.(paths))).
Proof.
  intros H Hg. apply becomes_paths; [done|..]; intros x; rewrite lookup_fmap; [apply fmap_is_Some|].
  intros q (p & E & ->)%fmap_Some. apply Hg. by apply (wf_paths s H).
Qed.

(** *** Rules *)

Lemma preserves_ret {A} s (a : A) : wf s -> preserves s (mret a).
Proof. apply becomes_refl. Qed.
Lemma preserves_fail {A} s e : wf s -> preserves s (fail (A:=A) e).
Proof. apply becomes_refl. Qed.
Lemma preserves_panic {A} s : wf s -> preserves s (panic (A:=A)).
Proof. apply becomes_refl. Qed.
Lemma preserves_check s e : wf s -> preserves s (check e).
Proof. intros H. destruct e; by apply becomes_refl. Qed.
Lemma preserves_modify s g : becomes s (g s) -> preserves s (modify g).
Proof. done. Qed.

Lemma preserves_bind {A B} s (m : M S A) (k : A -> M S B) :
  preserves s m -> (forall a s', m s = (s', Ok a) -> wf s' -> extends s s' -> preserves s' (k a)) -> preserves s (m ≫= k).
Proof.
  unfold preserves, mbind, session_bind. intros Hm Hk. destruct (m s) as [s' [a|e|]]; [|exact Hm..].
  pose proof Hm as [Hw He]. eapply becomes_trans; [exact Hm|]. by apply Hk.
Qed.

Lemma preserves_get {A} s (k : t S -> M S A) : preserves s (k s) -> preserves s (get ≫= k).
Proof. done. Qed.

Lemma preserves_getPath {A} s id (k : Path.t S -> M S A) :
  wf s -> (forall p, is_Some (s.(paths) !! id) -> path_ok id p -> s.(paths) !! id = Some p -> preserves s (k p)) ->
  preserves s (getPath id ≫= k).
Proof.
  intros H Hk. unfold preserves, mbind, session_bind, getPath. destruct (s.(paths) !! id) as [p|] eqn:E; [|by apply becomes_refl].
  apply Hk; [done|by apply (wf_paths s H)|done].
Qed.

Lemma preserves_putPath s id p : wf s -> is_Some (s.(paths) !! id) -> path_ok id p -> preserves s (putPath id p).
Proof. apply becomes_path. Qed.

Lemma preserves_forEach {A} (k : A -> M S unit) l : forall s,
  wf s -> (forall a s', a ∈ l -> wf s' -> extends s s' -> preserves s' (k a)) -> preserves s (forEach l k).
Proof.
  induction l as [|a l IH]; intros s H Hk; cbn [forEach]; [by apply preserves_ret|].
  apply preserves_bind; [apply Hk; [apply list_elem_of_here|done|apply extends_refl]|].
  intros _ s' _ H' He. apply IH; [done|]. intros b s2 Hb H2 He2.
  apply Hk; [by apply list_elem_of_further|done|by eapply extends_trans].
Qed.

Lemma preserves_dropError s (m : M S unit) : preserves s m -> preserves s (dropError m).
Proof. unfold preserves, dropError. by destruct (m s) as [s' [| |]]. Qed.

Lemma path_ok_handler id p h : path_ok id p -> sent_ok h -> path_ok id (Path.set_sentPacketHandler p h).
Proof. intros [Hi _] Hh. by split. Qed.

Lemma path_ok_same id p p' : same_path p p' -> path_ok id p -> path_ok id p'.
Proof. intros (E1 & E2 & _) [Hi Hh]. unfold path_ok. by rewrite E1, E2. Qed.

Ltac present := eauto 8 using ext_paths, extends_refl.

(** A change of one of the other fields *)
Ltac same := by apply becomes_same.

(** Case analysis on the goal only *)
Ltac cases := match goal with |- context [match ?x with _ => _ end] => destruct x eqn:? end.

Ltac keep1 :=
  match goal with
  | |- preserves _ (mret _) => by apply preserves_ret
  | |- preserves _ (fail _) => by apply preserves_fail
  | |- preserves _ panic => by apply preserves_panic
  | |- preserves _ (check _) => by apply preserves_check
  | |- preserves _ (get ≫= _) => apply preserves_get
  | |- preserves _ (getPath _ ≫= _) => apply preserves_getPath; [done|intros ? ? ? ?]
  | |- preserves _ (_ ≫= _) => apply preserves_bind; [|intros ? ? ? ? ?]
  | |- preserves _ (forEach _ _) => apply preserves_forEach; [done|intros ? ? ? ? ?]
  | |- preserves _ (putPath _ _) => apply preserves_putPath; [done|solve [present]|]
  | |- preserves _ (modify _) => apply preserves_modify; try same
  end.
Ltac keep := repeat keep1.

Lemma preserves_rangePaths s : wf s -> preserves s rangePaths.
Proof. intros H. unfold preserves, rangePaths. case_match; [by apply becomes_refl|same]. Qed.

Lemma preserves_nextRandom s : wf s -> preserves s nextRandom.
Proof. intros H. unfold preserves, nextRandom. case_match; [by apply becomes_refl|same]. Qed.

(** The packer, the framer, the streams and a path change together. *)
Lemma becomes_packed s pk fr st id p : wf s -> is_Some (s.(paths) !! id) -> path_ok id p -> books s.(streams) st ->
  becomes s (set_paths (set_streams (set_streamFramer (set_packer s pk) fr) st) (<[id := p]> s.(paths))).
Proof.
  intros H Hid Hp Hb. set (s1 := set_streamFramer (set_packer s pk) fr).
  assert (B1 : becomes s s1) by same. assert (B2 : becomes s1 (set_streams s1 st)) by (apply becomes_streams; [apply B1|exact Hb]).
  eapply becomes_trans; [exact (becomes_trans _ _ _ B1 B2)|]. exact (becomes_path (set_streams s1 st) id p (proj1 B2) Hid Hp).
Qed.

(** ** Sending *)

Lemma preserves_sendPackedPacket s packet id now : wf s -> preserves s (sendPackedPacket packet id now).
Proof.
  intros H. unfold sendPackedPacket. keep1.
  match goal with |- context [SentPacketHandler.SentPacket ?h ?q ?n] =>
    assert (Hs : sent_ok (SentPacketHandler.SentPacket h q n).1) by (apply sent_SentPacket; apply H1);
    destruct (SentPacketHandler.SentPacket h q n) as [h' err] end.
  keep. by apply path_ok_handler.
Qed.

Definition packer_ok (pack : PacketPacker.t -> StreamFramer.t -> StreamsMap.t * FlowControlManager.mgr -> Path.t S ->
    bool -> Z -> option Z -> PacketPacker.t * StreamFramer.t * (StreamsMap.t * FlowControlManager.mgr) * Path.t S
      * res (option PacketPacker.packedPacket)) : Prop :=
  forall p fr st pth hc now num, StreamsMapProofs.map_inv st.1 -> packs st pth (pack p fr st pth hc now num).

Lemma preserves_packWith s pack id now : packer_ok pack -> wf s -> preserves s (packWith pack id now).
Proof.
  intros Hp H. unfold packWith. keep; [by apply preserves_nextRandom|].
  unfold state, preserves.
  match goal with |- context [pack ?a ?b ?c ?d ?e ?g ?h] => pose proof (Hp a b c d e g h) as Hk; destruct (pack a b c d e g h) as [[[[pk fr] st] p'] r] end.
  destruct Hk as [Hb Hsame]; [by apply wf_streams|]. cbn [fst snd] in *.
  apply becomes_packed; [done|present|by eapply path_ok_same|done].
Qed.

Lemma preserves_sendPing s id now : wf s -> preserves s (sendPing id now).
Proof.
  intros H. unfold sendPing. keep1; [apply preserves_packWith; [|done]; intros ? ? ? ? ? ? ?; apply PackPing_packs|].
  cases; [by apply preserves_sendPackedPacket|keep].
Qed.

Lemma preserves_sendConnectionClose s ccf now : wf s -> preserves s (sendConnectionClose ccf now).
Proof.
  intros H. unfold sendConnectionClose. keep; [by apply preserves_nextRandom|]. keep.
  match goal with |- context [PacketPacker.PackConnectionClose ?a ?b ?c ?d ?e ?g ?h] =>
    pose proof (PackConnectionClose_path a b c d e g h) as Hp; destruct (PacketPacker.PackConnectionClose a b c d e g h) as [p' r] end.
  keep; [by eapply path_ok_same|]. cases; keep.
Qed.

Lemma preserves_QueueControlFrame s fr id : wf s -> preserves s (QueueControlFrame fr id).
Proof. intros H. unfold QueueControlFrame. keep. Qed.

Lemma preserves_handleEvents s es : wf s -> preserves s (handleEvents es).
Proof. intros H. unfold handleEvents. keep. cases; [keep|by apply preserves_QueueControlFrame]. Qed.

Lemma preserves_schedulePathsFrame s now : wf s -> preserves s (schedulePathsFrame now).
Proof. intros H. unfold schedulePathsFrame. keep. by apply preserves_rangePaths. Qed.

Lemma preserves_closeWith s e remote : wf s -> preserves s (closeWith e remote).
Proof. intros H. unfold closeWith. apply preserves_modify. cases; [by apply becomes_refl|same]. Qed.

(** ** Paths *)

Lemma preserves_advertiseAddresses s : wf s -> preserves s advertiseAddresses.
Proof. intros H. unfold advertiseAddresses. keep. cases; [by apply becomes_refl|same]. Qed.

Lemma preserves_newPath s id loc rem now : wf s -> preserves s (newPath newController id loc rem now).
Proof.
  intros [H1 H2 H3 H4 H5]. unfold newPath, preserves, modify. cbn [fst].
  assert (Hp : path_ok id (Path.setup id s.(version) (newController id) now)) by (split; [done|apply sent_new]).
  split; split; cbn [set_pathAddrs set_paths paths closedPaths pathAddrs streams]; try done.
  - intros x q. destruct (decide (id = x)) as [<-|]; [rewrite lookup_insert_eq; by intros [= <-]|].
    rewrite lookup_insert_ne by done. apply H1.
  - apply lookup_insert_is_Some'. auto.
  - intros x Hx. apply lookup_insert_is_Some'. auto.
  - intros x. rewrite !lookup_insert_is_Some'. by rewrite H4.
  - intros x Hx. apply lookup_insert_is_Some'. auto.
Qed.

Lemma preserves_createPath s loc rem now : wf s -> preserves s (createPath newController loc rem now).
Proof.
  intros H. unfold createPath. keep. cases; [keep|]. keep; [by apply preserves_newPath|]. by apply preserves_sendPing.
Qed.

Lemma preserves_createPaths s now : wf s -> preserves s (createPaths newController now).
Proof.
  intros H. unfold createPaths. keep. cases; [by apply preserves_advertiseAddresses|].
  keep; [by apply preserves_createPath|by apply preserves_schedulePathsFrame].
Qed.

Lemma preserves_createPathFromRemote s p now : wf s -> preserves s (createPathFromRemote newController p now).
Proof.
  intros H. unfold createPathFromRemote. keep. repeat (cases; [keep|]). by apply preserves_newPath.
Qed.

Lemma preserves_handleAddAddressFrame s f now : wf s -> preserves s (handleAddAddressFrame newController f now).
Proof.
  intros H. unfold handleAddAddressFrame. keep.
  - repeat (cases; [keep|]). keep.
  - cases; [by apply preserves_createPaths|keep].
Qed.

Lemma becomes_closed s id : wf s -> is_Some (s.(paths) !! id) -> becomes s (set_closedPaths s (<[id := true]> s.(closedPaths))).
Proof.
  intros [H1 H2 H3 H4 H5] Hid. split; split; cbn [set_closedPaths paths closedPaths pathAddrs streams]; try done.
  - intros x [<-|Hx]%lookup_insert_is_Some'; auto.
  - intros x Hx. apply lookup_insert_is_Some'. auto.
Qed.

Lemma preserves_closePath s id send now : wf s -> preserves s (closePath id send now).
Proof.
  intros H. unfold closePath. keep. destruct (s.(paths) !! id) as [p|] eqn:E; [|keep].
  cases; [keep|]. pose proof (wf_paths s H id p E) as Hp.
  set (p' := if p.(Path.open) then _ else _).
  assert (Hp' : path_ok id p') by (unfold p'; cases; exact Hp).
  assert (Hid : is_Some (s.(paths) !! id)) by done.
  keep; [done|apply becomes_closed; [done|present]|]. cases; [keep|].
  keep; [apply path_ok_handler; [done|apply sent_SetInflightAsLost; apply Hp']|]. cases; keep.
Qed.

(** ** Received frames *)

Lemma preserves_GetOrOpenStream s id : wf s -> in_width 32 id -> preserves s (GetOrOpenStream id).
Proof.
  intros H Hid. unfold preserves, GetOrOpenStream.
  destruct (StreamsMap.GetOrOpenStream s.(streams) id) as [[st r]|] eqn:E; [|by apply becomes_refl].
  apply becomes_streams; [done|]. eapply GetOrOpenStream_books; [by apply wf_streams|done|exact E].
Qed.

Lemma preserves_withStream {A} s id (k : Stream.t -> FlowControlManager.mgr -> Stream.t * FlowControlManager.mgr * A) :
  wf s -> (forall str f, (k str f).1.1.(Stream.streamID) = str.(Stream.streamID)) -> preserves s (withStream id k).
Proof.
  intros H Hk. unfold preserves, withStream. destruct (s.(streams)) as [m f] eqn:Es.
  destruct (m.(StreamsMap.streams) !! id) as [str|] eqn:E; [|by apply becomes_refl].
  specialize (Hk str f). destruct (k str f) as [[str' f'] a]. apply becomes_streams; [done|]. rewrite Es.
  eapply books_stream; [|exact E|exact Hk]. pose proof (wf_streams s H) as Hi. by rewrite Es in Hi.
Qed.

Lemma preserves_flow {A} s f (r : res A) : wf s -> preserves s (fun s0 => (set_streams s0 (s0.(streams).1, f), r)).
Proof. intros H. apply becomes_streams; [done|]. by apply books_flow, wf_streams. Qed.

Lemma preserves_handleStreamFrame s f now : wf s -> in_width 32 f.(StreamFrame.StreamID) -> preserves s (handleStreamFrame f now).
Proof.
  intros H Hid. unfold handleStreamFrame. keep; [by apply preserves_GetOrOpenStream|].
  cases; [|keep]. keep. apply preserves_withStream; [done|]. intros. apply AddStreamFrame_id.
Qed.

Lemma preserves_handleWindowUpdateFrame s f : wf s -> in_width 32 f.(WindowUpdateFrame.StreamID) -> preserves s (handleWindowUpdateFrame f).
Proof.
  intros H Hid. unfold handleWindowUpdateFrame. keep.
  - cases; keep; [by apply preserves_GetOrOpenStream|cases; keep].
  - unfold state, preserves. cases; [|by apply becomes_refl..]. cases. by apply becomes_streams; [|apply books_flow, wf_streams].
Qed.

Lemma preserves_handleRstStreamFrame s f : wf s -> in_width 32 f.(RstStreamFrame.StreamID) -> preserves s (handleRstStreamFrame f).
Proof.
  intros H Hid. unfold handleRstStreamFrame. keep; [by apply preserves_GetOrOpenStream|]. cases; [|keep].
  keep; [|by apply preserves_handleEvents|].
  - apply preserves_withStream; [done|]. intros str g.
    match goal with |- context [Stream.RegisterRemoteError str ?e] => pose proof (RegisterRemoteError_id str e) as Hr; destruct (Stream.RegisterRemoteError str e) end.
    exact Hr.
  - unfold state, preserves. cases. by apply becomes_streams; [|apply books_flow, wf_streams].
Qed.

Lemma preserves_updateSessionRTT s rtt : wf s -> preserves s (updateSessionRTT rtt).
Proof.
  intros H. unfold updateSessionRTT. apply preserves_modify. apply becomes_paths; [done|..]; intros x.
  - apply lookup_alter_is_Some.
  - intros q [(<- & p & E & ->)|[_ E]]%lookup_alter_Some; [|by apply (wf_paths s H)].
    pose proof (wf_paths s H 0 p E) as [Hi Hs]. split; [done|by apply sent_rtt].
Qed.

Lemma preserves_handleAckFrame s f now :
  wf s -> parsed_ok f.(AckFrame.LargestAcked) f.(AckFrame.LowestAcked) f.(AckFrame.AckRanges) ->
  preserves s (handleAckFrame f now).
Proof.
  intros H Hf. unfold handleAckFrame. keep1.
  match goal with |- context [SentPacketHandler.ReceivedAck ?h ?q ?n ?m ?o] =>
    assert (Hs : sent_ok (SentPacketHandler.ReceivedAck h q n m o).1)
      by (apply sent_ReceivedAck; [|done]; match goal with Hp : path_ok _ _ |- _ => apply Hp end);
    destruct (SentPacketHandler.ReceivedAck h q n m o) as [h' err] end.
  keep; [by apply path_ok_handler|]. keep. cases; [by apply preserves_updateSessionRTT|keep].
Qed.

Lemma preserves_handleClosePathFrame s f now :
  wf s -> parsed_ok f.(ClosePathFrame.LargestAcked) f.(ClosePathFrame.LowestAcked) f.(ClosePathFrame.AckRanges) ->
  preserves s (handleClosePathFrame f now).
Proof.
  intros H Hf. unfold handleClosePathFrame. keep; [by apply preserves_closePath|].
  match goal with |- context [SentPacketHandler.ReceivedClosePath ?h ?q ?n ?m] =>
    assert (Hs : sent_ok (SentPacketHandler.ReceivedClosePath h q n m).1)
      by (apply sent_ReceivedClosePath; [|done]; match goal with Hp : path_ok _ _ |- _ => apply Hp end);
    destruct (SentPacketHandler.ReceivedClosePath h q n m) as [h' err] end.
  keep. by apply path_ok_handler.
Qed.

Lemma preserves_handlePathsFrame s f : wf s -> preserves s (handlePathsFrame f).
Proof.
  intros H. unfold handlePathsFrame. keep. cases; [|keep]. cases; [|keep]. keep. cases; [|keep]. keep. done.
Qed.

Lemma preserves_handleFrame s fr id now : wf s -> frame_valid fr -> preserves s (handleFrame newController fr id now).
Proof.
  intros H Hv. destruct fr; cbn [frame_valid handleFrame] in *.
  - by apply preserves_handleStreamFrame.
  - by apply preserves_handleAckFrame.
  - by apply preserves_handleRstStreamFrame.
  - by apply preserves_closeWith.
  - keep.
  - by apply preserves_handleWindowUpdateFrame.
  - keep.
  - keep. done.
  - keep.
  - pose proof (preserves_handleAddAddressFrame s f now H) as H1. unfold preserves in *.
    destruct (handleAddAddressFrame newController f now s) as [s1 r]. cbn [fst] in H1.
    pose proof (preserves_schedulePathsFrame s1 now (proj1 H1)) as H2. unfold preserves in H2.
    destruct (schedulePathsFrame now s1) as [s2 r2]. destruct r; [by eapply becomes_trans..|exact H1].
  - apply preserves_dropError. by apply preserves_handleClosePathFrame.
  - by apply preserves_handlePathsFrame.
Qed.

Lemma preserves_handleFrames s fs id now : wf s -> Forall frame_valid fs -> preserves s (handleFrames newController fs id now).
Proof.
  intros H Hfs. unfold handleFrames. keep.
  match goal with Ha : ?f ∈ fs, Hw : wf ?s1 |- _ =>
    pose proof (preserves_handleFrame s1 f id now Hw (proj1 (Forall_forall _ _) Hfs f Ha)) as Hk end.
  unfold preserves in *. destruct (handleFrame newController _ id now _) as [s1 [| |]]; [done| |done]. by cases.
Qed.

(** ** Received packets *)

(** Opening a packet gives bytes. *)
Context (Hopen : forall data pn ad payload level, Open data pn ad = inr (payload, level) -> bytes_ok payload).

Lemma path_handlePacketImpl (p : Path.t S) v pers marks hdr data rcv now p' marks' b r :
  Path.handlePacketImpl p v pers marks hdr data rcv now = Some (p', marks', b, r) ->
  same_path p p' /\ forall level fs, r = Ok (Some (level, fs)) -> Forall frame_valid fs.
Proof using Hopen.
  unfold Path.handlePacketImpl. destruct (negb (Path.open p)); [by intros [= <- <- <- <-]|]. cbv zeta.
  set (p1 := Path.set_potentiallyFailed _ _).
  assert (Hp1 : same_path p p1) by (unfold p1; by destruct rcv).
  destruct (PacketUnpacker.Unpack _ _ _ _ _) as [[m [[level fs]|e|]]|] eqn:E; [|by intros [= <- <- <- <-]..|done].
  destruct (ReceivedPacketHandler.ReceivedPacket _ _ _ _) as [h err]. intros [= <- <- <- <-].
  split; [exact Hp1|]. intros level' fs'. destruct err; [done|]. intros [= <- <-].
  eapply Unpack_valid; [|exact E]. intros payload l. apply Hopen.
Qed.

Lemma becomes_marks s marks : wf s ->
  becomes s (set_streams s (set_unreliableStreamMark s.(streams).1 marks, s.(streams).2)).
Proof.
  intros H. apply becomes_streams; [done|]. destruct s.(streams) as [m f] eqn:E.
  pose proof (wf_streams s H) as Hi. rewrite E in Hi. cbn [fst snd] in *.
  assert (Hev : StreamsMapProofs.evolves (m, f) (set_unreliableStreamMark m marks, f)) by by apply StreamsMapProofs.inv_same.
  split; [apply Hev|done].
Qed.

Lemma becomes_addrs s g id : wf s -> becomes s (set_pathAddrs s (alter g id s.(pathAddrs))).
Proof.
  intros [H1 H2 H3 H4 H5]. split; split; cbn [set_pathAddrs paths closedPaths pathAddrs streams]; try done.
  intros x. by rewrite lookup_alter_is_Some.
Qed.

Lemma preserves_handleOnPath s id p time now : wf s -> preserves s (handleOnPath newController id p time now).
Proof using Hopen.
  intros H. unfold handleOnPath. keep.
  destruct (Path.handlePacketImpl _ _ _ _ _ _ _ _) as [[[[p' marks] b] r]|] eqn:E; [|keep].
  destruct (path_handlePacketImpl _ _ _ _ _ _ _ _ _ _ _ _ E) as [Hsame Hfs].
  keep; [by eapply path_ok_same|by apply becomes_marks|destruct b; keep; by apply becomes_addrs|].
  destruct r as [[[level fs]|]| |]; [|keep..]. apply preserves_handleFrames; [done|]. by eapply Hfs.
Qed.

Lemma preserves_handlePacketImpl s p now : wf s -> preserves s (handlePacketImpl newController p now).
Proof using Hopen.
  intros H. unfold handlePacketImpl. keep.
  - cases; [keep|by apply preserves_createPathFromRemote].
  - by apply preserves_handleOnPath.
Qed.

Lemma preserves_tryQueueing s p now : wf s -> preserves s (tryQueueingUndecryptablePacket p now).
Proof.
  intros H. unfold tryQueueingUndecryptablePacket. apply preserves_modify. cases; [by apply becomes_refl|].
  cases; [|same]. destruct s.(tooManyUndecryptableTime) eqn:E; [by apply becomes_refl|].
  apply becomes_same; [done..|]. intros time. by rewrite E.
Qed.

Lemma preserves_getWindowUpdateFrames s order force now : wf s -> preserves s (getWindowUpdateFrames order force now).
Proof.
  intros H. unfold preserves, getWindowUpdateFrames. destruct (FlowControlManager.GetWindowUpdates _ _ _ _ _ _) as [f u].
  apply becomes_streams; [done|]. by apply books_flow, wf_streams.
Qed.

(** ** The scheduler *)

Import Scheduler.

Lemma preserves_onlyPath s b : wf s -> preserves s (onlyPath b).
Proof. intros H. unfold onlyPath. keep. cases; keep. cases; keep. Qed.

Lemma preserves_selectByRTT s b : wf s -> preserves s (selectByRTT b).
Proof.
  intros H. unfold selectByRTT. keep; [by apply preserves_rangePaths|]. cases. cases. unfold set_quotas. keep.
Qed.

Lemma preserves_selectPath s b1 b2 from : wf s -> preserves s (selectPath b1 b2 from).
Proof.
  intros H. unfold selectPath, selectPathLowLatency. keep. cases; [by apply preserves_onlyPath|]. keep.
  - unfold unprobedSource. cases; [|keep]. cases; keep.
  - cases; [|by apply preserves_selectByRTT]. keep; [by apply preserves_rangePaths|].
    cases; [keep|by apply preserves_selectByRTT].
Qed.

Lemma preserves_selectPathUnreliable s b : wf s -> preserves s (selectPathUnreliable b).
Proof.
  intros H. unfold selectPathUnreliable. keep. cases; [by apply preserves_onlyPath|].
  keep; [by apply preserves_rangePaths|]. cases. unfold set_quotas2. keep.
Qed.

Lemma preserves_dequeueLoop ids : forall s, wf s -> preserves s (dequeueLoop ids).
Proof.
  induction ids as [|id ids IH]; intros s H; cbn [dequeueLoop]; [keep|]. keep1.
  match goal with Hp : path_ok id ?p |- _ => pose proof (sent_Dequeue _ (proj2 Hp)) as Hs end.
  destruct (SentPacketHandler.DequeuePacketForRetransmission _) as [h [packet|]]; [|by apply IH].
  keep. by apply path_ok_handler.
Qed.

Lemma preserves_retransmitFrame s id now fr : wf s -> preserves s (retransmitFrame id now fr).
Proof.
  intros H. destruct fr; cbn [retransmitFrame];
    [apply preserves_modify; cases; [by apply becomes_refl|same]| | | | |
    |by apply preserves_QueueControlFrame..|by apply preserves_schedulePathsFrame]; try by apply preserves_QueueControlFrame.
  keep. cases; [|keep..]. cases; [by apply preserves_QueueControlFrame|keep].
Qed.

Lemma preserves_retransmissionLoop fuel b pth now : forall s, wf s -> preserves s (retransmissionLoop fuel b pth now).
Proof.
  revert b pth. induction fuel as [|fuel IH]; intros b pth s H; cbn [retransmissionLoop]; [keep|].
  keep; [by apply preserves_rangePaths|by apply preserves_dequeueLoop|].
  cases; [|keep]. cases. keep. cases; [cases; [by apply IH|keep]|]. keep; [by apply preserves_retransmitFrame|by apply IH].
Qed.

Lemma preserves_getRetransmission s now : wf s -> preserves s (getRetransmission now).
Proof. intros H. unfold getRetransmission. keep. by apply preserves_retransmissionLoop. Qed.

Lemma preserves_incrementQuota s id : wf s -> preserves s (incrementQuota id).
Proof. intros H. unfold incrementQuota, set_quotas, set_quotas2. keep. cases; keep. Qed.

Lemma preserves_performPacketSending s wufs id now : wf s -> preserves s (performPacketSending wufs id now).
Proof.
  intros H. unfold performPacketSending. keep.
  - cases; [by apply preserves_QueueControlFrame|keep].
  - apply preserves_packWith; [|done]. intros ? ? ? ? ? ? ?. apply PackPacket_packs.
  - cases; [|keep].
    keep; [by apply preserves_sendPackedPacket|by apply preserves_QueueControlFrame|by apply preserves_incrementQuota].
Qed.

Lemma preserves_takeAck s id now : wf s -> preserves s (takeAck id now).
Proof.
  intros H. unfold takeAck. keep. destruct (Path.GetAckFrame _ now) as [[p' ack]| |] eqn:E; keep.
  eapply path_ok_same; [|done]. unfold Path.GetAckFrame in E. repeat case_match; by simplify_eq.
Qed.

Lemma preserves_takeStopWaiting s id force : wf s -> preserves s (takeStopWaiting id force).
Proof.
  intros H. unfold takeStopWaiting. keep1. unfold Path.GetStopWaitingFrame.
  match goal with Hp : path_ok id ?p |- _ => pose proof (sent_StopWaiting _ force (proj2 Hp)) as Hs end.
  destruct (SentPacketHandler.GetStopWaitingFrame _ force) as [h swf]. keep. by apply path_ok_handler.
Qed.

Lemma preserves_queueAck s id ack : wf s -> preserves s (queueAck id ack).
Proof. intros H. unfold queueAck. cases; [by apply preserves_QueueControlFrame|keep]. Qed.

Lemma preserves_queueStopWaiting s id swf : wf s -> preserves s (queueStopWaiting id swf).
Proof. intros H. unfold queueStopWaiting. cases; [by apply preserves_QueueControlFrame|keep]. Qed.

Lemma becomes_packer s pk id p : wf s -> is_Some (s.(paths) !! id) -> path_ok id p ->
  becomes s (set_paths (set_packer s pk) (<[id := p]> s.(paths))).
Proof.
  intros H Hid Hp. assert (B : becomes s (set_packer s pk)) by same.
  eapply becomes_trans; [exact B|]. exact (becomes_path (set_packer s pk) id p (proj1 B) Hid Hp).
Qed.

Lemma preserves_packAck s id now : wf s -> preserves s (packAck id now).
Proof.
  intros H. unfold packAck. keep; [by apply preserves_nextRandom|]. unfold state, preserves.
  match goal with |- context [PacketPacker.PackAckPacket ?a ?b ?c ?d ?e ?g] =>
    pose proof (PackAckPacket_path a b c d e g) as Hp; destruct (PacketPacker.PackAckPacket a b c d e g) as [[pk p'] r] end.
  apply becomes_packer; [done|present|by eapply path_ok_same].
Qed.

Lemma preserves_retransmitHandshake s packet id now : wf s -> preserves s (retransmitHandshake packet id now).
Proof.
  intros H. unfold retransmitHandshake. keep1.
  match goal with Hp : path_ok id ?p |- _ => pose proof (sent_StopWaiting _ true (proj2 Hp)) as Hs end.
  destruct (SentPacketHandler.GetStopWaitingFrame _ true) as [h swf].
  assert (Hok : path_ok id (Path.set_sentPacketHandler p h)) by by apply path_ok_handler.
  keep; [done|cases; [by apply preserves_QueueControlFrame|keep]|by apply preserves_nextRandom| |by apply preserves_sendPackedPacket].
  unfold state, preserves.
  match goal with |- context [PacketPacker.PackHandshakeRetransmission ?a ?b ?c ?d ?e ?g ?i] =>
    pose proof (PackHandshakeRetransmission_path a b c d e g i) as Hp;
    destruct (PacketPacker.PackHandshakeRetransmission a b c d e g i) as [[pk p'] r] end.
  apply becomes_packer; [done|present|by eapply path_ok_same].
Qed.

Lemma preserves_ackPath s wufs now id : wf s -> preserves s (ackPath wufs now id).
Proof.
  intros H. unfold ackPath. keep; [by apply preserves_takeAck|by apply preserves_QueueControlFrame|].
  cases; [keep|]. cases; [keep|].
  keep; [by apply preserves_takeStopWaiting|by apply preserves_queueStopWaiting|by apply preserves_queueAck| |].
  - cases; [keep; by apply preserves_packAck|]. apply preserves_packWith; [|done]. intros ? ? ? ? ? ? ?. apply PackPacket_packs.
  - cases; [by apply preserves_sendPackedPacket|keep].
Qed.

Lemma preserves_ackRemainingPaths s order total now : wf s -> preserves s (ackRemainingPaths order total now).
Proof.
  intros H. unfold ackRemainingPaths. keep; [|by apply preserves_rangePaths|by apply preserves_ackPath].
  cases; [by apply preserves_getWindowUpdateFrames|keep].
Qed.

Lemma preserves_unreliableData s : wf s -> preserves s unreliableData.
Proof. intros H. unfold preserves, unreliableData. cases; by apply becomes_refl. Qed.

Lemma preserves_popFrames fuel pop id : forall s, wf s -> preserves s (popFrames fuel pop id).
Proof.
  induction fuel as [|fuel IH]; intros s H; cbn [popFrames]; [keep|]. keep. cases. cases; [|keep].
  keep; [by apply preserves_QueueControlFrame|by apply IH].
Qed.

Lemma preserves_queueFramerFrames s id : wf s -> preserves s (queueFramerFrames id).
Proof. intros H. unfold queueFramerFrames. keep; by apply preserves_popFrames. Qed.

Lemma preserves_maybeDuplicate s id packet : wf s -> preserves s (maybeDuplicate id packet).
Proof.
  intros H. unfold maybeDuplicate. keep. cases; [keep|]. keep; [by apply preserves_rangePaths|]. keep.
  cases; [|keep]. keep. apply path_ok_handler; [done|]. apply sent_Duplicate. by match goal with Hp : path_ok _ _ |- _ => destruct Hp end.
Qed.

Lemma preserves_choosePath s b1 b2 from : wf s -> preserves s (choosePath b1 b2 from).
Proof.
  intros H. unfold choosePath. keep; [by apply preserves_selectPath|by apply preserves_unreliableData|].
  cases; [keep|]. cases; [|keep]. keep; [by apply preserves_selectPathUnreliable|]. cases; keep.
Qed.

Lemma preserves_queuePathFrames s id b now : wf s -> preserves s (queuePathFrames id b now).
Proof.
  intros H. unfold queuePathFrames. keep; [by apply preserves_takeAck|..|by apply preserves_queueFramerFrames].
  - cases; [by apply preserves_QueueControlFrame|keep].
  - cases; [|keep]. keep; [by apply preserves_takeStopWaiting|by apply preserves_queueStopWaiting].
Qed.

Lemma preserves_pingFailedPath s from now : wf s -> preserves s (pingFailedPath from now).
Proof. intros H. unfold pingFailedPath. cases; [|keep]. keep. cases; [by apply preserves_sendPing|keep]. Qed.

Lemma preserves_sendLoop fuel order now : forall s wufs, wf s -> preserves s (sendLoop fuel order wufs now).
Proof.
  induction fuel as [|fuel IH]; intros s wufs H; cbn [sendLoop]; [keep|].
  keep1; [by apply preserves_getRetransmission|]. cases. cases. keep; [by apply preserves_choosePath|].
  cases; [cases|].
  - keep; [by apply preserves_retransmitHandshake|by apply IH].
  - keep; [by apply preserves_queuePathFrames|by apply preserves_performPacketSending|]. cases.
    + keep; [by apply preserves_maybeDuplicate|by apply preserves_pingFailedPath|by apply IH].
    + keep. by apply preserves_ackRemainingPaths.
  - keep; [by apply preserves_getWindowUpdateFrames|by apply preserves_ackRemainingPaths].
Qed.

Lemma preserves_sendPacket s fuel order now : wf s -> preserves s (sendPacket fuel order now).
Proof.
  intros H. unfold sendPacket.
  keep; [|by apply preserves_getWindowUpdateFrames|by apply preserves_QueueControlFrame|by apply preserves_sendLoop].
  by apply becomes_fmap.
Qed.

End Session.

End SessionProofs.
