(* ===== verification/SessionLoop.v ===== *)
(** * The main loop of a session ([session.go], [utils/timer.go])

    The loop that drives a session.  One iteration handles one event (a timer, a
    received packet, a change of the encryption level, the path manager) and then
    does what is due: it sends packets, closes the session on a timeout, and
    collects finished streams.  The channels are part of the state or are the
    events; the clock is read once per iteration.  The path manager's goroutine
    takes part as an event of the loop. *)

From S2P Require Import CryptoSetup.
From S2P Require Import Prelude ByteOrder Protocol WireHeader WireFrames WireStream WireAck.
From S2P Require Import PacketUnpacker MinMax AckReceived ConnParams FlowControl StreamSorter Stream StreamsMap.
From S2P Require Import StreamFramer RTTStats SentPackets Cubic Path PacketPacker Session Scheduler HandshakeMessage.

(** ** Timers *)

Module Timer.

(** The timer of the runtime: running, expired with a value in its channel, or
    expired (or stopped) with an empty channel. *)
Inductive clock : Type := Running (at_ : Z) | Fired | Idle.

Record t : Type := mk { timer : clock; read : bool; deadline : option Z }.

Definition NewTimer (now : Z) : t := mk (Running now) false None.

(** Time passes. *)
Definition tick (t : t) (now : Z) : Timer.t :=
  match t.(timer) with
  | Running d => if d <=? now then mk Fired t.(read) t.(deadline) else t
  | _ => t
  end.

(** [<-t.Chan()]: the value is taken. *)
Definition receive (t : t) : Timer.t := mk Idle t.(read) t.(deadline).

(** [None] when it waits for a value that never comes. *)
Definition Reset (t : t) (deadline : Z) : option Timer.t :=
  if bool_decide (t.(Timer.deadline) = Some deadline) then Some t
  else
    match t.(timer), t.(read) with
    | Idle, false => None
    | _, _ => Some (mk (Running deadline) false (Some deadline))
    end.

Definition SetRead (t : t) : Timer.t := mk t.(timer) true t.(deadline).

End Timer.

(** ** The goroutine of a path ([path.run]) *)

Module PathRun.

(** At the top of its loop it waits for its timer; when this has fired it waits
    until the session takes the path from [pathTimers]. *)
Inductive phase : Type := Waits | Relays | Closed.

Record t : Type := mk { timer : Timer.t; at_ : phase }.

(** What its [select]s choose *)
Inductive event : Type := TimerFired | Relayed | SentPacket | CloseRequested.

(** The next round, with the deadline of [maybeResetTimer] *)
Definition again (deadline : Z) (r : t) : option t :=
  (fun tm => mk tm Waits) <$> Timer.Reset r.(timer) deadline.

(** The start of the goroutine for a path that was just set up *)
Definition start (deadline now : Z) : option t := again deadline (mk (Timer.NewTimer now) Waits).

(** A choice at the time [now]; [None] when it hangs in the reset of its timer.  A
    choice that is not there (a timer that has not fired) changes nothing. *)
Definition step (deadline : Z) (ev : event) (now : Z) (r : t) : option t :=
  let r := mk (Timer.tick r.(timer) now) r.(at_) in
  match r.(at_), ev with
  | Waits, TimerFired =>
      match r.(timer).(Timer.timer) with
      | Timer.Fired => Some (mk (Timer.SetRead (Timer.receive r.(timer))) Relays)
      | _ => Some r
      end
  | Waits, SentPacket | Relays, Relayed | Relays, SentPacket => again deadline r
  | Waits, CloseRequested | Relays, CloseRequested => Some (mk r.(timer) Closed)
  | _, _ => Some r
  end.

(** A run: every choice with the path and the idle timeout of its time *)
Fixpoint run {S : Type} `{cong : SendAlgorithm S} (evs : list (Path.t S * Z * event * Z)) (r : t) : option t :=
  match evs with
  | [] => Some r
  | (p, idle, ev, now) :: evs =>
      match step (Path.maybeResetTimer p idle now) ev now r with
      | Some r => run evs r
      | None => None
      end
  end.

End PathRun.

(** ** The loop *)

Definition PublicResetTimeout : Z := 500 * Millisecond.
Definition MaxSessionUnprocessedPackets : Z := DefaultMaxCongestionWindow.
Definition InternalError : Z := 1.
Definition PeerGoingAway : Z := 16.
Definition NetworkIdleTimeout : Z := 25.
Definition HandshakeTimeoutCode : Z := 67.

(** The part of [Config] that the session reads. *)
Record Config : Type := mkConfig {
  KeepAlive : bool;
  HandshakeTimeout : Z;
  IdleTimeout : Z;
  MaxReceiveStreamFlowControlWindow : Z;
  MaxReceiveConnectionFlowControlWindow : Z
}.

Module SessionLoop.
Import Session.

Section loop.
Context {S : Type} `{cong : SendAlgorithm S} `{crypto : CryptoSetup} `{aead : QuicAEAD}.
Context (newController : Z -> S).
(** The message of a [QuicError], which is the reason phrase of CONNECTION_CLOSE:
    the texts are formatted by [fmt]. *)
Context (message : error -> list Z).
(** [errCloseSessionForNewVersion] of the client *)
Context (errCloseSessionForNewVersion : error).

Abbreviation session := (Session.t S).

(** The path manager waits for the end of the handshake, then for changes of the
    local addresses, and stops when the first paths cannot be created. *)
Inductive managerState : Type := AwaitsHandshake | AwaitsChanges | Stopped.

(** What the loop adds to the session: [receivedPackets] is the channel of that
    name, [handshakeChan] what was sent on it, [launched] is [pathManagerLaunched], and
    [manager] where the goroutine of the path manager is. *)
Record t : Type := mk {
  sess : session;
  config : Config;
  sessionCreationTime : Z;
  receivedPackets : list receivedPacket;
  timer : Timer.t;
  launched : bool;
  manager : managerState;
  handshakeChan : list (Z + option error)
}.

Definition set_sess (l : t) (s : session) : t :=
  mk s l.(config) l.(sessionCreationTime) l.(receivedPackets) l.(timer) l.(launched) l.(manager) l.(handshakeChan).
Definition set_receivedPackets (l : t) (q : list receivedPacket) : t :=
  mk l.(sess) l.(config) l.(sessionCreationTime) q l.(timer) l.(launched) l.(manager) l.(handshakeChan).
Definition set_timer (l : t) (tm : Timer.t) : t :=
  mk l.(sess) l.(config) l.(sessionCreationTime) l.(receivedPackets) tm l.(launched) l.(manager) l.(handshakeChan).
Definition set_launched (l : t) : t :=
  mk l.(sess) l.(config) l.(sessionCreationTime) l.(receivedPackets) l.(timer) true l.(manager) l.(handshakeChan).
Definition set_manager (l : t) (m : managerState) : t :=
  mk l.(sess) l.(config) l.(sessionCreationTime) l.(receivedPackets) l.(timer) l.(launched) m l.(handshakeChan).
Definition notify (l : t) (e : Z + option error) : t :=
  mk l.(sess) l.(config) l.(sessionCreationTime) l.(receivedPackets) l.(timer) l.(launched) l.(manager) (l.(handshakeChan) ++ [e]).

Definition set_handshakeComplete (s : session) : session :=
  Session.mk s.(perspective) s.(version) s.(createPathsFlag) s.(paths) s.(closedPaths) s.(pathAddrs) s.(streams)
    s.(remoteRTTs) s.(lastPathsFrameSent) s.(streamFramer) s.(packer) s.(peerBlocked) true
    s.(lastNetworkActivityTime) s.(keepAlivePingSent) s.(closeErr) s.(undecryptablePackets)
    s.(tooManyUndecryptableTime) s.(pathManager) s.(scheduler) s.(choices) s.(randoms) s.(written).

(** *** Setup *)

(** [newSession] and [newClientSession] with [session.setup] and [pathManager.setup]:
    the initial path from [locAddr] to [remAddr], and the crypto stream, which the
    client opens and the server waits for.  The crypto setup is an interface. *)
Definition setup (pers : Perspective) (v : Z) (createPaths : bool) (connectionID : Z) (config : Config)
    (locAddr remAddr : UDPAddr) (localAddrs : list UDPAddr) (choices : list (list Z)) (randoms : list (option Z))
    (now : Z) : t :=
  let params := ConnParams.New pers v config.(MaxReceiveStreamFlowControlWindow)
                  config.(MaxReceiveConnectionFlowControlWindow) config.(IdleTimeout) in
  let st := (StreamsMap.newStreamsMap pers, FlowControlManager.NewFlowControlManager params) in
  let st := match pers with
            | PerspectiveServer =>
                match StreamsMap.GetOrOpenStream st 1 with
                | Some (st, _) => (StreamsMap.AcceptStream st).1
                | None => st
                end
            | PerspectiveClient => (StreamsMap.OpenStream st).1
            end in
  let four := getIPVersion remAddr.(IP) =? 4 in
  let pm := mkPathManager (match pers with PerspectiveClient => 1 | PerspectiveServer => 2 end)
              (if four then [remAddr] else []) (if four then [] else [remAddr]) [] localAddrs in
  mk (Session.mk pers v createPaths {[0 := Path.setup 0 v (newController 0) now]} ∅ {[0 := (locAddr, remAddr)]} st ∅ 0
        StreamFramer.newStreamFramer (PacketPacker.newPacketPacker connectionID pers v) false false now false None []
        None pm (mkScheduler ∅ ∅) choices randoms [])
     config now [] (Timer.NewTimer now) false AwaitsHandshake [].

(** *** Deadlines *)

Definition idleTimeout (s : session) : Z :=
  ConnParams.GetIdleConnectionStateLifetime s.(streams).2.(FlowControlManager.params).

(** The deadline of [maybeResetTimer] *)
Definition deadline (l : t) : Z :=
  let s := l.(sess) in
  let d := if l.(config).(KeepAlive) && s.(handshakeComplete) && negb s.(keepAlivePingSent)
           then s.(lastNetworkActivityTime) + Z.quot (idleTimeout s) 2
           else s.(lastNetworkActivityTime) + idleTimeout s in
  let d := if negb s.(handshakeComplete)
           then MinTime d (l.(sessionCreationTime) + l.(config).(HandshakeTimeout)) else d in
  match s.(tooManyUndecryptableTime) with
  | Some time => MinTime d (time + PublicResetTimeout)
  | None => d
  end.

Definition maybeResetTimer (l : t) : option t := set_timer l <$> Timer.Reset l.(timer) (deadline l).

(** *** Packets and closing *)

(** [handlePacket]: a packet that does not fit into the channel is dropped. *)
Definition handlePacket (l : t) (p : receivedPacket) : t :=
  if Z.of_nat (length l.(receivedPackets)) <? MaxSessionUnprocessedPackets
  then set_receivedPackets l (l.(receivedPackets) ++ [p]) else l.

(** A step of the session *)
Definition lift {A} (m : Session.M S A) (l : t) : t * res A :=
  let '(s, r) := m l.(sess) in (set_sess l s, r).

(** [pathManager.closePaths] and [session.closePaths], which waits for the paths:
    every path is closed. *)
Definition closePaths (s : session) : session := set_paths s (Path.close <$> s.(paths)).

(** [qerr.ToQuicError] and the code of its result *)
Definition ToQuicError (e : error) : error :=
  match e with
  | QuicError _ _ | QuicErrorf _ _ _ | QuicErrorOf _ _ => e
  | ErrorCode code => QuicError code ""
  | _ => QuicErrorOf InternalError e
  end.
Definition quicErrorCode (quicErr : error) : Z :=
  match quicErr with
  | QuicError code _ | QuicErrorf code _ _ | QuicErrorOf code _ | ErrorCode code => code
  | _ => InternalError
  end.

Definition sendPublicReset (rejectedPacketNumber : Z) : Session.M S unit := fun s =>
  match PublicReset.WritePublicReset s.(packer).(PacketPacker.connectionID) rejectedPacketNumber 0 with
  | WOk raw => (set_written s (s.(written) ++ [(0, raw)]), Ok tt)
  | WErr e _ => (s, Err e)
  | WPanic => (s, Panic)
  end.

Definition sendsPublicReset (quicErr : error) : bool :=
  (quicErrorCode quicErr =? DecryptionFailure) || bool_decide (quicErr = Server.ErrHOLExperiment)
  || bool_decide (quicErr = Server.ErrNSTPExperiment).

(** [nil] stands for [PeerGoingAway] here, and here only. *)
Definition handleCloseError (closeErr : option error) (remote : bool) (now : Z) : Session.M S unit :=
  let e := default (ErrorCode PeerGoingAway) closeErr in
  s ← get;
  let quicErr := ToQuicError e in
  _ ← (match StreamsMap.CloseWithError s.(streams).1 quicErr with
       | Ok m => modify (fun s => set_streams s (m, s.(streams).2))
       | Err e => fail e
       | Panic => panic
       end);
  if bool_decide (e = errCloseSessionForNewVersion) then mret tt
  else
    _ ← modify closePaths;
    if remote then mret tt
    else if sendsPublicReset quicErr then p ← getPath 0; sendPublicReset p.(Path.lastRcvdPacketNumber)
    else sendConnectionClose (ConnectionCloseFrame.mk (quicErrorCode quicErr) (message quicErr)) now.

(** *** One iteration *)

Inductive event : Type :=
| TimerFired
| SendingScheduled
| PathTimer (id : Z)
| PacketReceived
| AeadChanged (level : Z)
| AeadClosed
| PathsChanged.

(** [Again] is the [continue] of the loop. *)
Inductive outcome : Type := Fallthrough | Again | Panicked.

Definition handlePathTimer (id now : Z) : Session.M S unit :=
  p ← getPath id;
  let '(p, failed) := Path.handleTimer p now in
  _ ← putPath id p;
  if failed : bool then schedulePathsFrame now else mret tt.

Definition outcomeOf (r : t * res unit) : t * outcome :=
  (r.1, match r.2 with Panic => Panicked | _ => Fallthrough end).

(** A round of the path manager: the signal after the handshake, where an error ends
    it and closes all paths, or a change of the addresses, where an error is dropped. *)
Definition managePaths (now : Z) (l : t) : t * outcome :=
  match l.(manager) with
  | Stopped => (l, Fallthrough)
  | AwaitsHandshake =>
      if l.(sess).(createPathsFlag) then
        match lift (createPaths newController now) l with
        | (l, Err _) => (set_manager (set_sess l (closePaths l.(sess))) Stopped, Fallthrough)
        | (l, r) => outcomeOf (set_manager l AwaitsChanges, r)
        end
      else (set_manager l AwaitsChanges, Fallthrough)
  | AwaitsChanges =>
      if l.(sess).(createPathsFlag) then outcomeOf (lift (createPaths newController now) l) else (l, Fallthrough)
  end.

Definition receivePacket (p : receivedPacket) (now : Z) (l : t) : t * outcome :=
  match handlePacketImpl newController p now l.(sess) with
  | (s, Ok _) => (set_sess l s, Fallthrough)
  | (s, Err e) =>
      (set_sess l (if Path.decryptionFailed e then (tryQueueingUndecryptablePacket p now s).1 else (closeLocal (Some e) s).1), Again)
  | (s, Panic) => (set_sess l s, Panicked)
  end.

(** An event that is not there yet (a timer that has not fired, no packet in the
    channel) stands for a round in which nothing happened. *)
Definition handleEvent (ev : event) (now : Z) (l : t) : t * outcome :=
  match ev with
  | TimerFired =>
      match l.(timer).(Timer.timer) with
      | Timer.Fired => (set_timer l (Timer.SetRead (Timer.receive l.(timer))), Fallthrough)
      | _ => (l, Fallthrough)
      end
  | SendingScheduled => (l, Fallthrough)
  | PathTimer id => outcomeOf (lift (handlePathTimer id now) l)
  | PacketReceived =>
      match l.(receivedPackets) with
      | [] => (l, Fallthrough)
      | p :: q => receivePacket p now (set_receivedPackets l q)
      end
  | AeadClosed => (set_sess l (set_handshakeComplete l.(sess)), Fallthrough)
  | AeadChanged level =>
      let queued := l.(sess).(undecryptablePackets) in
      let l := foldl handlePacket (set_sess l (set_undecryptablePackets l.(sess) [])) queued in
      (notify l (inl level), Fallthrough)
  | PathsChanged => if l.(launched) then managePaths now l else (l, Fallthrough)
  end.

(** [closeLocal] when the condition holds *)
Definition closeWhen (b : bool) (e : error) (s : session) : session := if b then (closeLocal (Some e) s).1 else s.

Definition keepAliveDue (l : t) (now : Z) : bool :=
  l.(config).(KeepAlive) && l.(sess).(handshakeComplete)
  && (Z.quot (idleTimeout l.(sess)) 2 <=? now - l.(sess).(lastNetworkActivityTime)).

Definition sendKeepAlive : Session.M S unit :=
  ids ← rangePaths;
  _ ← forEach ids (QueueControlFrame (FPing PingFrame.mk));
  modify (fun s => set_keepAlivePingSent s true).

(** The checks of the timeouts *)
Definition tooMany (s : session) (now : Z) : bool :=
  match s.(tooManyUndecryptableTime) with
  | Some time => (time + PublicResetTimeout <? now) && negb (length s.(undecryptablePackets) =? 0)%nat
  | None => false
  end.
Definition handshakeTimedOut (l : t) (now : Z) : bool :=
  negb l.(sess).(handshakeComplete) && (l.(config).(HandshakeTimeout) <=? now - l.(sessionCreationTime)).
Definition idleTimedOut (s : session) (now : Z) : bool :=
  s.(handshakeComplete) && (idleTimeout s <=? now - s.(lastNetworkActivityTime)).

Definition closeOnTimeout (now : Z) (l : t) : t :=
  let s := closeWhen (tooMany l.(sess) now)
             (QuicError DecryptionFailure "too many undecryptable packets received") l.(sess) in
  let s := closeWhen (handshakeTimedOut l now)
             (QuicError HandshakeTimeoutCode "Crypto handshake did not complete in time.") s in
  let s := closeWhen (idleTimedOut s now) (QuicError NetworkIdleTimeout "No recent network activity.") s in
  set_sess l s.

(** A PATHS frame every 200 ms while a stream is open *)
Definition pathsFrameDue (s : session) (now : Z) : bool :=
  s.(handshakeComplete) && (VersionMP <=? s.(version)) && (200 * Millisecond <=? now - s.(lastPathsFrameSent))
  && (2 <? length s.(streams).1.(StreamsMap.openStreams))%nat.

Definition collectStreams (s : session) : session := set_streams s (StreamsMap.garbageCollectStreams s.(streams)).

(** After the event; [fuel] and [order] are those of [Scheduler.sendPacket]. *)
Definition afterEvent (fuel : nat) (order : list Z) (now : Z) (l : t) : t * outcome :=
  let l := if negb l.(launched) && l.(sess).(handshakeComplete) then set_launched l else l in
  let l := if keepAliveDue l now then (lift sendKeepAlive l).1 else l in
  let '(l, r) := lift (Scheduler.sendPacket fuel order now) l in
  match r with
  | Panic => (l, Panicked)
  | _ =>
      let l := match r with Err e => (lift (closeLocal (Some e)) l).1 | _ => l end in
      let l := closeOnTimeout now l in
      let l := if pathsFrameDue l.(sess) now then (lift (schedulePathsFrame now) l).1 else l in
      (set_sess l (collectStreams l.(sess)), Fallthrough)
  end.

(** The states of the loop: it waits for the next event, has ended with the error
    that closed the session, hangs in the reset of its timer, or has panicked. *)
Inductive status : Type := Looping | Ended (e : option error) (remote : bool) | Hangs | Crashed.

(** What follows the loop *)
Definition finish (e : option error) (remote : bool) (now : Z) (l : t) : t * status :=
  let l := if l.(sess).(handshakeComplete) then l else notify l (inr e) in
  let '(l, r) := lift (handleCloseError e remote now) l in
  (l, match r with Panic => Crashed | _ => Ended e remote end).

(** One round of the loop, with the event that is chosen by [select] *)
Definition iterate (fuel : nat) (order : list Z) (ev : event) (now : Z) (l : t) : t * status :=
  let l := set_timer l (Timer.tick l.(timer) now) in
  match l.(sess).(closeErr) with
  | Some (e, remote) => finish e remote now (set_sess l (closePaths l.(sess)))
  | None =>
      match maybeResetTimer l with
      | None => (l, Hangs)
      | Some l =>
          match handleEvent ev now l with
          | (l, Panicked) => (l, Crashed)
          | (l, Again) => (l, Looping)
          | (l, Fallthrough) =>
              match afterEvent fuel order now l with
              | (l, Panicked) => (l, Crashed)
              | (l, _) => (l, Looping)
              end
          end
      end
  end.

(** *** The application *)

(** A call on a stream *)
Inductive call : Type :=
| Write (p : list Z)
| Read (len : Z)
| CloseStream
| Reset (e : option error)
| SetDeadline (d : option Z).

Definition perform (c : call) (now : Z) (str : Stream.t) (f : FlowControlManager.mgr)
  : Stream.t * FlowControlManager.mgr * list Stream.event :=
  match c with
  | Write p => let '(str, es, _) := Stream.Write str p now in (str, f, es)
  | Read len => (Stream.Read len now (str, f, [])).1
  | CloseStream => let '(str, es) := Stream.Close str in (str, f, es)
  | Reset e => let '(str, es) := Stream.Reset str e in (str, f, es)
  | SetDeadline d => (Stream.SetDeadline str d, f, [])
  end.

(** The call on the stream [id], with what its callbacks ask the session for.  A
    stream that was removed is no longer part of the session. *)
Definition callStream (id : Z) (c : call) (now : Z) : Session.M S unit :=
  s ← get;
  match s.(streams).1.(StreamsMap.streams) !! id with
  | None => mret tt
  | Some _ => es ← withStream id (perform c now); handleEvents es
  end.

(** The crypto setup has read the peer's parameters. *)
Definition negotiate (tags : gmap Z (list Z)) : Session.M S unit := fun s =>
  let '(m, f) := s.(streams) in
  let '(params, e) := ConnParams.SetFromMap f.(FlowControlManager.params) tags in
  (set_streams s (m, FlowControlManager.mkMgr params f.(FlowControlManager.streams) f.(FlowControlManager.conn)),
   match e with Some e => Err e | None => Ok tt end).

(** What happens to a session between its creation and its end: an iteration of
    its loop, a packet from the network, the application's [Close], its
    operations on the streams map and on the streams, and the parameters of the handshake. *)
Inductive input : Type :=
| Iteration (fuel : nat) (order : list Z) (ev : event) (now : Z)
| Arrives (p : receivedPacket)
| Close (e : option error)
| OpenStream
| OpenUnreliableStream
| OpenStreamSync
| AcceptStream
| OnStream (id : Z) (c : call) (now : Z)
| Negotiated (tags : gmap Z (list Z)).

Definition step (i : input) (l : t) : t * status :=
  match i with
  | Iteration fuel order ev now => iterate fuel order ev now l
  | Arrives p => (handlePacket l p, Looping)
  | Close e => (set_sess l (closeLocal e l.(sess)).1, Looping)
  | OpenStream => (set_sess l (set_streams l.(sess) (StreamsMap.OpenStream l.(sess).(streams)).1), Looping)
  | OpenUnreliableStream =>
      (set_sess l (set_streams l.(sess) (StreamsMap.OpenUnreliableStream l.(sess).(streams)).1), Looping)
  | OpenStreamSync => (set_sess l (set_streams l.(sess) (StreamsMap.OpenStreamSync l.(sess).(streams)).1), Looping)
  | AcceptStream => (set_sess l (set_streams l.(sess) (StreamsMap.AcceptStream l.(sess).(streams)).1), Looping)
  | OnStream id c now => ((lift (callStream id c now) l).1, Looping)
  | Negotiated tags => ((lift (negotiate tags) l).1, Looping)
  end.

End loop.

(** The keys of the crypto setup change during the handshake: every step has those
    of its time. *)
Record round : Type := mkRound { keys : CryptoSetup; opener : QuicAEAD; what : input }.

Fixpoint run {S : Type} `{cong : SendAlgorithm S} (newController : Z -> S) (message : error -> list Z)
    (errNewVersion : error) (rs : list round) (l : t (S:=S)) : t (S:=S) * status :=
  match rs with
  | [] => (l, Looping)
  | r :: rs =>
      match step (crypto:=r.(keys)) (aead:=r.(opener)) newController message errNewVersion r.(what) l with
      | (l, Looping) => run newController message errNewVersion rs l
      | r => r
      end
  end.

Arguments t : clear implicits.

End SessionLoop.
