(* ===== verification/SessionLoopProofs.v ===== *)
(** * Runs of a session ([SessionLoop.v])

    A session that is set up is well formed and stays so, whatever packets arrive,
    whatever the application does and whichever events its loop chooses, and its
    timer never blocks the loop. *)

From S2P Require Import CryptoSetup.
From S2P Require Import Prelude ByteOrder Protocol WireHeader WireFrames WireStream WireAck.
From S2P Require Import PacketUnpacker MinMax AckReceived ConnParams FlowControl StreamSorter Stream StreamsMap.
From S2P Require Import StreamsMapProofs StreamFramer RTTStats SentPackets SentPacketsProofs Cubic Path PacketPacker PackerProofs Session.
From S2P Require Import Scheduler HandshakeMessage SessionStreams SessionProofs SessionLoop.

Module SessionLoopProofs.
Import Session SessionProofs SessionLoop.

(** ** The streams *)

Lemma copyFrame_id frame room now st : (Stream.copyFrame frame room now st).1.1.1.(Stream.streamID) = st.1.1.(Stream.streamID).
Proof. destruct st as [[s f] evs]. unfold Stream.copyFrame. repeat case_match; done. Qed.

Lemma readFrame_id frame room now acc next st :
  (forall acc st, (next acc st).1.1.1.(Stream.streamID) = st.1.1.(Stream.streamID)) ->
  (Stream.readFrame frame room now acc next st).1.1.1.(Stream.streamID) = st.1.1.(Stream.streamID).
Proof.
  intros Hn. unfold Stream.readFrame. pose proof (copyFrame_id frame room now st) as Hc.
  destruct (Stream.copyFrame frame room now st) as [[[s f] evs] [[data []]|[bug|]]]; try done.
  - destruct (StreamFrameSorter.Pop _ _) as [[q ?]| |]; try done. case_match; [done|]. by rewrite Hn.
  - by rewrite Hn.
Qed.

Lemma readLoop_id len now fuel : forall acc st,
  (Stream.readLoop fuel len now acc st).1.1.1.(Stream.streamID) = st.1.1.(Stream.streamID).
Proof.
  induction fuel as [|fuel IH]; intros acc [[s f] evs]; cbn [Stream.readLoop]; [done|].
  case_match; [done|]. destruct (StreamFrameSorter.Head _ _) as [[q head]| |]; [|done..]. cbv zeta.
  destruct head as [frame|], acc; try done; repeat case_match; simplify_eq; try done; by rewrite readFrame_id.
Qed.

Lemma perform_id c now str f : (perform c now str f).1.1.(Stream.streamID) = str.(Stream.streamID).
Proof.
  destruct c as [p|len| |e|d]; cbn [perform].
  - unfold Stream.Write. repeat case_match; by simplify_eq.
  - unfold Stream.Read. repeat case_match; [done..|]. by rewrite readLoop_id.
  - done.
  - unfold Stream.Reset, Stream.sendReset. repeat case_match; by simplify_eq.
  - unfold Stream.SetDeadline, Stream.SetWriteDeadline, Stream.SetReadDeadline. repeat case_match; done.
Qed.

(** ** The timer *)

(** A timer whose value was taken is marked as read. *)
Definition timer_ok (tm : Timer.t) : Prop :=
  match tm.(Timer.timer) with Timer.Idle => tm.(Timer.read) = true | _ => tm.(Timer.read) = false end.

Lemma tick_ok tm now : timer_ok tm -> timer_ok (Timer.tick tm now).
Proof. unfold timer_ok, Timer.tick. intros H. repeat case_match; simplify_eq; try done; cbn in *; congruence. Qed.

Lemma tick_running tm now d : (Timer.tick tm now).(Timer.timer) = Timer.Running d -> now < d.
Proof.
  unfold Timer.tick. destruct (Timer.timer tm) as [at_| |] eqn:E; [|congruence..].
  destruct (Z.leb_spec at_ now); cbn; [done|]. rewrite E. by intros [= <-].
Qed.

Lemma reset_ok tm d : timer_ok tm -> exists tm', Timer.Reset tm d = Some tm' /\ timer_ok tm'.
Proof.
  unfold timer_ok, Timer.Reset. intros H. case_bool_decide; [eauto|].
  destruct tm.(Timer.timer); [by eexists..|]. rewrite H. by eexists.
Qed.

(** ** The timer of a path *)

Section PathTimer.
Context {S : Type} `{cong : SendAlgorithm S}.
Import PathRun.

Lemma maybeResetTimer_bounds (p : Path.t S) idle now :
  now + minPathTimer <= Path.maybeResetTimer p idle now <= now + maxPathTimer.
Proof. unfold Path.maybeResetTimer, MinTime, MaxTime, minPathTimer, maxPathTimer, Millisecond, Second. repeat case_match; lia. Qed.

(** An ideal alarm clock.  Every round sets it for the deadline of the path as it is
    then; [lastReset] is the path, its idle timeout and the time of the last round. *)
Record watch : Type := mkWatch { lastReset : Path.t S * Z * Z; watchPhase : phase }.

Definition due (w : watch) : Z := let '(p, idle, now) := w.(lastReset) in Path.maybeResetTimer p idle now.

Definition watch_step (w : watch) (e : Path.t S * Z * event * Z) : watch :=
  let '(p, idle, ev, now) := e in
  match w.(watchPhase), ev with
  | Waits, TimerFired => if due w <=? now then mkWatch w.(lastReset) Relays else w
  | Waits, SentPacket | Relays, Relayed | Relays, SentPacket => mkWatch (p, idle, now) Waits
  | Waits, CloseRequested | Relays, CloseRequested => mkWatch w.(lastReset) Closed
  | _, _ => w
  end.

(** The timer of the goroutine agrees with the alarm clock at the time [time]. *)
Definition path_timer_ok (w : watch) (time : Z) (r : PathRun.t) : Prop :=
  timer_ok r.(timer) /\ r.(at_) = w.(watchPhase) /\ w.(lastReset).2 <= time /\
  match r.(at_) with
  | Waits => r.(timer).(Timer.deadline) = Some (due w)
      /\ (r.(timer).(Timer.timer) = Timer.Running (due w) \/ r.(timer).(Timer.timer) = Timer.Fired /\ due w <= time)
  | Relays => r.(timer).(Timer.timer) = Timer.Idle /\ exists d, r.(timer).(Timer.deadline) = Some d /\ d <= time
  | Closed => True
  end.

Lemma path_timer_tick w time now r : time <= now -> path_timer_ok w time r ->
  path_timer_ok w now (mk (Timer.tick r.(timer) now) r.(at_)).
Proof.
  intros Hle (Ht & Hph & Hl & H). split; [by apply tick_ok|]. split; [done|]. split; [lia|]. cbn [timer at_].
  unfold Timer.tick. destruct r.(at_); [| |done].
  - destruct H as (E & H). destruct H as [H|[H ?]]; rewrite H; [|split; [done|right; split; [done|lia]]].
    destruct (Z.leb_spec (due w) now); (split; [done|]); [by right|by left].
  - destruct H as (E & d & Ed & Hd). rewrite E. split; [done|]. exists d. split; [done|lia].
Qed.

(** A deadline that is ahead starts the timer, unless it runs for it already. *)
Lemma path_timer_again w r p idle now :
  path_timer_ok w now r -> r.(at_) <> Closed ->
  exists r', again (Path.maybeResetTimer p idle now) r = Some r' /\ path_timer_ok (mkWatch (p, idle, now) Waits) now r'.
Proof.
  intros (Ht & _ & _ & H) Hc. pose proof (maybeResetTimer_bounds p idle now) as Hb.
  set (d := Path.maybeResetTimer p idle now) in *. destruct (reset_ok r.(timer) d Ht) as (tm & E & Htm).
  unfold again. rewrite E. eexists. split; [done|]. split; [done|]. split; [done|]. split; [cbn; lia|]. cbn [at_ timer].
  change (due _) with d. unfold Timer.Reset in E. case_bool_decide as Ed.
  - injection E as <-. split; [done|]. unfold minPathTimer, Millisecond in Hb.
    destruct r.(at_); [destruct H as (E' & [H|[_ H]])|destruct H as (_ & d' & E' & H)|done]; rewrite Ed in E'; simplify_eq; try lia.
    left. congruence.
  - repeat case_match; simplify_eq; cbn; auto.
Qed.

Lemma path_timer_step w p idle ev now r time :
  path_timer_ok w time r -> time <= now ->
  exists r', step (Path.maybeResetTimer p idle now) ev now r = Some r' /\ path_timer_ok (watch_step w (p, idle, ev, now)) now r'.
Proof.
  intros H Hle. apply (path_timer_tick _ _ now) in H; [|done]. unfold step.
  set (r1 := mk (Timer.tick r.(timer) now) r.(at_)) in *.
  pose proof (path_timer_again w r1 p idle now H) as Hag.
  pose proof H as (Ht & Hph & Hl & Hp). unfold watch_step. rewrite <-Hph.
  destruct r1.(at_) eqn:E, ev; try (apply Hag; discriminate); try (eexists; split; [done|]; by rewrite ?E);
    try (eexists; split; [done|]; split_and!; done).
  destruct Hp as (Ed & [Hd|[Hd Hle']]); rewrite Hd.
  - apply tick_running in Hd. replace (due w <=? now) with false by lia. by eexists.
  - rewrite (proj2 (Z.leb_le _ _) Hle'). eexists. split; [done|]. split_and!; [done..|]. cbn. split; [done|]. eauto.
Qed.

(** The times of the choices do not decrease. *)
Fixpoint ordered (time : Z) (evs : list (Path.t S * Z * event * Z)) : Prop :=
  match evs with [] => True | (_, _, _, now) :: evs => time <= now /\ ordered now evs end.
Fixpoint lastTime (time : Z) (evs : list (Path.t S * Z * event * Z)) : Z :=
  match evs with [] => time | (_, _, _, now) :: evs => lastTime now evs end.

Lemma path_timer_run evs : forall w time r,
  path_timer_ok w time r -> ordered time evs ->
  exists r', run evs r = Some r' /\ path_timer_ok (foldl watch_step w evs) (lastTime time evs) r'.
Proof.
  induction evs as [|[[[p idle] ev] now] evs IH]; intros w time r H Ho; cbn [run lastTime foldl]; [eauto|].
  destruct Ho as [Hle Ho]. destruct (path_timer_step w p idle ev now r time H Hle) as (r' & -> & Hr'). by apply IH.
Qed.

End PathTimer.

(** C30: the timer of a path wakes the session when it should.  The goroutine of a
    path never hangs in the reset of its timer, and behaves as the alarm clock that
    every round sets again: it is in the same phase after every run, and while it
    waits its timer fires exactly from the deadline of the last round on, and the
    goroutine then offers its path to the session.  That deadline is at least 10 ms
    and at most a second after the round, and when the path had an alarm for its sent
    packets then, not later than this alarm or than those 10 ms. *)
Theorem path_timer_fires {S : Type} `{cong : SendAlgorithm S} (p0 : Path.t S) (idle0 now0 : Z)
  (evs : list (Path.t S * Z * PathRun.event * Z)) (Hord : ordered now0 evs) :
  let w := foldl watch_step (mkWatch (p0, idle0, now0) PathRun.Waits) evs in
  exists r0 r, PathRun.start (Path.maybeResetTimer p0 idle0 now0) now0 = Some r0 /\ PathRun.run evs r0 = Some r
    /\ r.(PathRun.at_) = w.(watchPhase)
    /\ (w.(watchPhase) = PathRun.Waits -> forall later, lastTime now0 evs <= later ->
          ((Timer.tick r.(PathRun.timer) later).(Timer.timer) = Timer.Fired <-> due w <= later)
          /\ (due w <= later -> forall d, exists r', PathRun.step d PathRun.TimerFired later r = Some r'
                /\ r'.(PathRun.at_) = PathRun.Relays))
    /\ let '(p, idle, now) := w.(lastReset) in
       now <= lastTime now0 evs /\ now + 10 * Millisecond <= due w <= now + Second
       /\ forall alarm, SentPacketHandler.GetAlarmTimeout p.(Path.sentPacketHandler) = Some alarm ->
            due w <= Z.max alarm (now + 10 * Millisecond).
Proof.
  cbv zeta. pose proof (maybeResetTimer_bounds p0 idle0 now0) as Hb0.
  set (d0 := Path.maybeResetTimer p0 idle0 now0) in *. set (w0 := mkWatch (p0, idle0, now0) PathRun.Waits).
  assert (H0 : exists r0, PathRun.start d0 now0 = Some r0 /\ path_timer_ok w0 now0 r0).
  { unfold PathRun.start, PathRun.again. cbn. eexists. split; [done|]. split_and!; [done..|cbn; lia|]. cbn. auto. }
  destruct H0 as (r0 & E0 & H0). destruct (path_timer_run evs w0 now0 r0 H0 Hord) as (r & E & Ht & Hph & Hl & Hr).
  exists r0, r. split_and!; [done..| |]; set (w := foldl _ _ _) in *; clearbody w.
  - intros Hw later Hlt. rewrite Hph, Hw in Hr. destruct Hr as (Ed & Hd).
    assert (Hf : (Timer.tick r.(PathRun.timer) later).(Timer.timer) = Timer.Fired <-> due w <= later).
    { unfold Timer.tick. destruct Hd as [Hd|[Hd Hle]]; rewrite Hd; [|rewrite Hd; split; [lia|done]].
      destruct (Z.leb_spec (due w) later); cbn; rewrite ?Hd; split; (done || lia). }
    split; [exact Hf|]. intros Hdue d. unfold PathRun.step. cbn [PathRun.at_ PathRun.timer]. rewrite Hph, Hw, (proj2 Hf Hdue).
    by eexists.
  - destruct w as [[[p idle] now] ph]. cbn [lastReset due fst snd] in *. unfold due. cbn [lastReset].
    pose proof (maybeResetTimer_bounds p idle now) as Hb. split_and!; [exact Hl|apply Hb|apply Hb|].
    intros alarm Ha. unfold Path.maybeResetTimer. rewrite Ha.
    unfold MinTime, MaxTime, minPathTimer. repeat case_match; lia.
Qed.

(** The handshake is complete, and more packets than are kept could not be decrypted
    before, first at the time [overflow]; [None] asks for nothing. *)
Definition overflowed {S : Type} (overflow : option Z) (s : Session.t S) : Prop :=
  forall t0, overflow = Some t0 -> s.(handshakeComplete) = true /\ s.(tooManyUndecryptableTime) = Some t0.

Section Loop.
Context {S : Type} `{cong : SendAlgorithm S} `{crypto : CryptoSetup} `{aead : QuicAEAD}.
Context (newController : Z -> S) (message : error -> list Z) (errCloseSessionForNewVersion : error).
Context (Hopen : forall data pn ad payload level, Open data pn ad = inr (payload, level) -> bytes_ok payload).
Context (overflow : option Z).

(** ** The steps of the session in the loop *)

Lemma becomes_closePaths (s : Session.t S) : wf s -> becomes s (closePaths s).
Proof. intros H. by apply becomes_fmap. Qed.

Lemma becomes_closeLocal (s : Session.t S) e : wf s -> becomes s (closeLocal e s).1.
Proof. apply preserves_closeWith. Qed.

Lemma becomes_closeWhen (s : Session.t S) b e : wf s -> becomes s (closeWhen b e s).
Proof. intros H. destruct b; [by apply becomes_closeLocal|by apply becomes_refl]. Qed.

Lemma path_ok_timer id (p : Path.t S) now : path_ok id p -> path_ok id (Path.handleTimer p now).1.
Proof.
  intros Hp. unfold Path.handleTimer. destruct (SentPacketHandler.GetAlarmTimeout _) as [d|]; [|done].
  destruct (d <? now); [|done]. unfold Path.OnAlarm, Path.onRTO. destruct (Path.timesOut _); [destruct (_ <? _)|];
    (split; [apply Hp|apply sent_OnAlarm, Hp]).
Qed.

Lemma preserves_handlePathTimer (s : Session.t S) id now : wf s -> preserves s (handlePathTimer id now).
Proof.
  intros H. unfold handlePathTimer. apply preserves_getPath; [done|]. intros p Hid Hp _.
  pose proof (path_ok_timer id p now Hp) as Hp'. destruct (Path.handleTimer p now) as [p' failed].
  apply preserves_bind; [by apply preserves_putPath|]. intros _ s' _ H' _.
  destruct failed; [by apply preserves_schedulePathsFrame|by apply preserves_ret].
Qed.

Lemma preserves_sendPublicReset (s : Session.t S) pn : wf s -> preserves s (sendPublicReset pn).
Proof. intros H. unfold preserves, sendPublicReset. case_match; [by apply becomes_same|by apply becomes_refl..]. Qed.

Lemma preserves_handleCloseError (s : Session.t S) e remote now :
  wf s -> preserves s (handleCloseError message errCloseSessionForNewVersion e remote now).
Proof.
  intros H. unfold handleCloseError. apply preserves_get.
  destruct (StreamsMapProofs.CloseWithError_ok s.(streams) (ToQuicError (default (ErrorCode PeerGoingAway) e)) (wf_streams s H)) as (m & -> & Hev & Hn).
  apply preserves_bind; [apply preserves_modify, becomes_streams; [done|]; split; [apply Hev|exact Hn]|].
  intros _ s1 _ H1 _. case_bool_decide; [by apply preserves_ret|].
  apply preserves_bind; [by apply preserves_modify, becomes_closePaths|].
  intros _ s2 _ H2 _. case_match; [by apply preserves_ret|]. case_match; [|by apply preserves_sendConnectionClose].
  apply preserves_getPath; [done|]. intros. by apply preserves_sendPublicReset.
Qed.

Lemma becomes_collectStreams (s : Session.t S) : wf s -> becomes s (collectStreams s).
Proof.
  intros H. destruct (StreamsMapProofs.garbageCollect_ok s.(streams) (wf_streams s H)) as [Hev Hn].
  apply becomes_streams; [done|]. split; [apply Hev|exact Hn].
Qed.

Lemma preserves_sendKeepAlive (s : Session.t S) : wf s -> preserves s sendKeepAlive.
Proof.
  intros H. unfold sendKeepAlive. apply preserves_bind; [by apply preserves_rangePaths|]. intros ids s1 _ H1 _.
  apply preserves_bind; [|intros _ s2 _ H2 _; by apply preserves_modify, becomes_same].
  apply preserves_forEach; [done|]. intros. by apply preserves_QueueControlFrame.
Qed.

Lemma preserves_callStream (s : Session.t S) id c now : wf s -> preserves s (callStream id c now).
Proof.
  intros H. unfold callStream. apply preserves_get. case_match; [|by apply preserves_ret].
  apply preserves_bind; [apply preserves_withStream; [done|]; intros; apply perform_id|].
  intros. by apply preserves_handleEvents.
Qed.

Lemma preserves_negotiate (s : Session.t S) tags : wf s -> preserves s (negotiate tags).
Proof.
  intros H. unfold preserves, negotiate. destruct s.(streams) as [m f] eqn:E.
  destruct (ConnParams.SetFromMap _ _) as [params e]. apply becomes_streams; [done|]. rewrite E.
  apply (books_flow (m, f)). pose proof (wf_streams s H) as Hi. by rewrite E in Hi.
Qed.

Lemma becomes_acceptStream (s : Session.t S) :
  wf s -> becomes s (set_streams s (StreamsMap.AcceptStream s.(streams)).1).
Proof.
  intros H. apply becomes_streams; [done|]. split; [apply StreamsMapProofs.AcceptStream_ok, H|].
  destruct s.(streams) as [m f]. unfold StreamsMap.AcceptStream. repeat case_match; done.
Qed.

(** ** The loop *)

(** The loop is in order, and this side has used the stream IDs below [n] at most. *)
Definition loop_ok (n : Z) (l : SessionLoop.t S) : Prop :=
  wf l.(sess) /\ l.(sess).(streams).1.(StreamsMap.nextStream) <= n /\ timer_ok l.(timer) /\ overflowed overflow l.(sess).

Lemma loop_becomes n l l' : loop_ok n l -> becomes l.(sess) l'.(sess) -> l'.(timer) = l.(timer) -> loop_ok n l'.
Proof.
  intros (H & Hn & Ht & Ho) [H' He] E. split_and!; [done|rewrite (ext_next _ _ He); lia|by rewrite E|].
  intros t0 Et. destruct (Ho t0 Et) as [Hc Hm]. split; [by apply (ext_complete _ _ He)|by apply (ext_overflow _ _ He)].
Qed.

Lemma loop_lift {A} n l (m : Session.M S A) : loop_ok n l -> preserves l.(sess) m -> loop_ok n (lift m l).1.
Proof.
  intros H Hm. unfold preserves in Hm. unfold lift. destruct (m l.(sess)) as [s r]. by apply (loop_becomes n l).
Qed.

Lemma loop_timer n l tm : loop_ok n l -> timer_ok tm -> loop_ok n (set_timer l tm).
Proof. intros (H & Hn & _ & Ho) Htm. by split_and!. Qed.

Lemma loop_handlePacket n l p : loop_ok n l -> loop_ok n (handlePacket l p).
Proof. intros H. unfold handlePacket. by case_match. Qed.

Lemma loop_requeue n ps : forall l, loop_ok n l -> loop_ok n (foldl handlePacket l ps).
Proof. induction ps as [|p ps IH]; intros l H; cbn [foldl]; [done|]. by apply IH, loop_handlePacket. Qed.

Lemma loop_receivePacket n l p now : loop_ok n l -> loop_ok n (receivePacket newController p now l).1.
Proof using Hopen.
  intros H. pose proof (preserves_handlePacketImpl newController Hopen l.(sess) p now (proj1 H)) as Hp.
  unfold receivePacket, preserves in *. destruct (handlePacketImpl newController p now l.(sess)) as [s [| |]];
    cbn [fst] in *; apply (loop_becomes n l); try done.
  cbn [sess set_sess]. eapply becomes_trans; [done|].
  case_match; [apply preserves_tryQueueing, Hp|apply becomes_closeLocal, Hp].
Qed.

Lemma loop_managePaths n l now : loop_ok n l -> loop_ok n (managePaths newController now l).1.
Proof.
  intros H. pose proof (loop_lift n l _ H (preserves_createPaths newController l.(sess) now (proj1 H))) as Hc.
  unfold managePaths, outcomeOf. destruct l.(manager); [| |done].
  - case_match; [|by apply (loop_becomes n l); [|apply becomes_refl, H|]].
    destruct (lift _ l) as [l1 [| |]]; [exact Hc| |exact Hc].
    apply (loop_becomes n l1); [done|apply becomes_closePaths, Hc|done].
  - case_match; [exact Hc|done].
Qed.

Lemma loop_handleEvent n l ev now : loop_ok n l -> loop_ok n (handleEvent newController ev now l).1.
Proof using Hopen.
  intros H. pose proof (proj1 H) as Hw. destruct ev as [| |id| |level| |]; cbn [handleEvent].
  - destruct l.(timer).(Timer.timer); [done| |done]. by apply loop_timer.
  - done.
  - by apply loop_lift; [|apply preserves_handlePathTimer].
  - destruct l.(receivedPackets); [done|]. by apply loop_receivePacket.
  - apply (loop_requeue n). apply (loop_becomes n l); [done|by apply becomes_same|done].
  - apply (loop_becomes n l); [done|by apply becomes_same|done].
  - case_match; [by apply loop_managePaths|done].
Qed.

Lemma loop_closeOnTimeout n l now : loop_ok n l -> loop_ok n (closeOnTimeout now l).
Proof.
  intros H. apply (loop_becomes n l); [done| |done]. unfold closeOnTimeout. cbn [sess set_sess].
  pose proof (becomes_closeWhen l.(sess) (tooMany l.(sess) now)
    (QuicError DecryptionFailure "too many undecryptable packets received") (proj1 H)) as B1.
  set (s1 := closeWhen _ _ l.(sess)) in *.
  pose proof (becomes_closeWhen s1 (handshakeTimedOut l now)
    (QuicError HandshakeTimeoutCode "Crypto handshake did not complete in time.") (proj1 B1)) as B2.
  set (s2 := closeWhen _ _ s1) in *. eapply becomes_trans; [exact B1|]. eapply becomes_trans; [exact B2|].
  apply becomes_closeWhen, B2.
Qed.

Lemma loop_endRound n l now : loop_ok n l ->
  let l1 := closeOnTimeout now l in
  let l2 := if pathsFrameDue l1.(sess) now then (lift (schedulePathsFrame now) l1).1 else l1 in
  loop_ok n (set_sess l2 (collectStreams l2.(sess))).
Proof.
  intros H l1 l2. assert (H1 : loop_ok n l1) by by apply loop_closeOnTimeout.
  assert (H2 : loop_ok n l2) by (unfold l2; case_match; [apply loop_lift; [done|apply preserves_schedulePathsFrame, H1]|done]).
  apply (loop_becomes n l2); [done|apply becomes_collectStreams, H2|done].
Qed.

Lemma loop_afterEvent n l fuel order now : loop_ok n l -> loop_ok n (afterEvent fuel order now l).1.
Proof.
  intros H. unfold afterEvent. set (l1 := if negb _ && _ then set_launched l else l).
  assert (H1 : loop_ok n l1) by (unfold l1; by case_match).
  set (l2 := if keepAliveDue l1 now then _ else _).
  assert (H2 : loop_ok n l2) by (unfold l2; case_match; [by apply loop_lift; [|apply preserves_sendKeepAlive, H1]|done]).
  pose proof (loop_lift n l2 _ H2 (preserves_sendPacket l2.(sess) fuel order now (proj1 H2))) as H3.
  destruct (lift _ l2) as [l3 r]. cbn [fst] in H3. destruct r as [b|e|]; [by apply loop_endRound| |done].
  apply loop_endRound. apply loop_lift; [done|apply preserves_closeWith, H3].
Qed.

Lemma loop_finish n l e remote now :
  loop_ok n l -> loop_ok n (finish message errCloseSessionForNewVersion e remote now l).1.
Proof.
  intros H. unfold finish. set (l1 := if _ : bool then l else _). assert (H1 : loop_ok n l1) by (unfold l1; by case_match).
  pose proof (loop_lift n l1 _ H1 (preserves_handleCloseError l1.(sess) e remote now (proj1 H1))) as H2.
  by destruct (lift _ l1).
Qed.

Lemma loop_iterate n l fuel order ev now :
  loop_ok n l -> let r := iterate newController message errCloseSessionForNewVersion fuel order ev now l in
  loop_ok n r.1 /\ r.2 <> Hangs.
Proof using Hopen.
  intros H. unfold iterate. set (l1 := set_timer l _).
  assert (H1 : loop_ok n l1) by (apply loop_timer; [done|apply tick_ok, H]). cbv zeta.
  destruct l1.(sess).(closeErr) as [[e remote]|].
  - split; [apply loop_finish, (loop_becomes n l1); [done|apply becomes_closePaths, H1|done]|].
    unfold finish. destruct (lift _ _) as [? []]; done.
  - unfold maybeResetTimer. destruct (reset_ok l1.(timer) (deadline l1)) as (tm & -> & Htm); [apply H1|]. cbn [fmap option_fmap option_map].
    pose proof (loop_handleEvent n (set_timer l1 tm) ev now (loop_timer n l1 tm H1 Htm)) as H2.
    destruct (handleEvent _ _ _ _) as [l2 [| |]]; [|done..].
    pose proof (loop_afterEvent n l2 fuel order now H2) as H3. by destruct (afterEvent _ _ _ l2) as [l3 [| |]].
Qed.

Lemma open_evolves (st : StreamsMap.state) marker :
  StreamsMapProofs.map_inv st.1 -> st.1.(StreamsMap.nextStream) + 2 < 2 ^ 32 ->
  let st' := (StreamsMap.openLocal st marker).1 in
  StreamsMapProofs.map_inv st'.1 /\ st'.1.(StreamsMap.nextStream) <= st.1.(StreamsMap.nextStream) + 2.
Proof. intros Hi Hn. destruct (StreamsMapProofs.openLocal_evolves st marker Hi Hn) as [Hev Hb]. split; [apply Hev|exact Hb]. Qed.

Lemma loop_streams n l st : loop_ok n l -> StreamsMapProofs.map_inv st.1 ->
  st.1.(StreamsMap.nextStream) <= l.(sess).(streams).1.(StreamsMap.nextStream) + 2 ->
  loop_ok (n + 2) (set_sess l (set_streams l.(sess) st)).
Proof. intros ([H1 H2 H3 H4 H5] & Hn & Ht & Ho) Hi Hb. split; [by split|]. split; [cbn; lia|by split]. Qed.

Lemma loop_weaken n m l : loop_ok n l -> n <= m -> loop_ok m l.
Proof. intros (H & Hn & Ht) Hm. split; [done|split; [lia|done]]. Qed.

Lemma loop_step n l i : loop_ok n l -> n + 2 < 2 ^ 32 ->
  let r := step newController message errCloseSessionForNewVersion i l in loop_ok (n + 2) r.1 /\ r.2 <> Hangs.
Proof using Hopen.
  intros H Hn. assert (Hweak : forall l, loop_ok n l -> loop_ok (n + 2) l) by (intros; eapply loop_weaken; [done|lia]).
  pose proof H as (Hw & Hb & _). pose proof (wf_streams _ Hw) as Hi.
  destruct i as [fuel order ev now|p|e| | | | |id c now|tags]; cbn [step]; try (split; [|done]); cbn [fst].
  - destruct (loop_iterate n l fuel order ev now H) as [H1 H2]. auto.
  - by apply Hweak, loop_handlePacket.
  - apply Hweak, (loop_becomes n l); [done|by apply becomes_closeLocal|done].
  - destruct (open_evolves l.(sess).(streams) false) as [? ?]; [done|lia|]. apply loop_streams; [done|..];
      unfold StreamsMap.OpenStream, StreamsMap.openStreamImpl; case_match; try done; cbn; lia.
  - destruct (open_evolves l.(sess).(streams) true) as [? ?]; [done|lia|]. apply loop_streams; [done|..];
      unfold StreamsMap.OpenUnreliableStream, StreamsMap.openUnreliableStreamImpl; case_match; try done; cbn; lia.
  - destruct (open_evolves l.(sess).(streams) false) as [? ?]; [done|lia|]. apply loop_streams; [done|..];
      unfold StreamsMap.OpenStreamSync, StreamsMap.openStreamImpl; case_match; try done; try (cbn; lia);
      destruct (StreamsMap.openLocal _ _) as [st' [| |]]; try done; by case_decide.
  - apply Hweak, (loop_becomes n l); [done|by apply becomes_acceptStream|done].
  - apply Hweak. by apply loop_lift; [|apply preserves_callStream].
  - apply Hweak. by apply loop_lift; [|apply preserves_negotiate].
Qed.

End Loop.

(** ** Setup *)

Section Setup.
Context {S : Type} `{cong : SendAlgorithm S} (newController : Z -> S).

Lemma setup_ok pers v cp cid config loc rem addrs choices randoms now :
  loop_ok None 3 (setup newController pers v cp cid config loc rem addrs choices randoms now).
Proof.
  set (f := FlowControlManager.NewFlowControlManager (ConnParams.New pers v config.(MaxReceiveStreamFlowControlWindow)
    config.(MaxReceiveConnectionFlowControlWindow) config.(IdleTimeout))).
  set (l := setup _ _ _ _ _ _ _ _ _ _ _ _).
  assert (Hst : StreamsMapProofs.map_inv l.(sess).(streams).1 /\ l.(sess).(streams).1.(StreamsMap.nextStream) <= 3).
  { pose proof (StreamsMapProofs.map_new_inv pers) as Hi. destruct pers; cbn [l setup sess streams].
    - destruct (StreamsMapProofs.GetOrOpenStream_ok (StreamsMap.newStreamsMap PerspectiveServer, f) 1 Hi) as (st & r & E & Hev & Hn & _); [lia|].
      fold f. rewrite E. destruct (StreamsMapProofs.AcceptStream_ok st (proj1 Hev)) as [Hi' _]. split; [exact Hi'|].
      destruct st as [m g]. unfold StreamsMap.AcceptStream. repeat case_match; cbn in *; lia.
    - fold f. unfold StreamsMap.OpenStream, StreamsMap.openStreamImpl. cbn [fst StreamsMap.closeErr StreamsMap.newStreamsMap].
      destruct (open_evolves (StreamsMap.newStreamsMap PerspectiveClient, f) false Hi) as [? ?]; [cbn; lia|].
      split; [done|]. cbn in *; lia. }
  split; [|split; [apply Hst|by split]]. split; cbn [l setup sess paths closedPaths pathAddrs].
  - intros id p [<- <-]%lookup_singleton_Some. split; [done|apply sent_new].
  - rewrite lookup_singleton_eq. done.
  - intros id. rewrite lookup_empty. by intros [].
  - intros id. rewrite !lookup_singleton_is_Some. done.
  - apply Hst.
Qed.

End Setup.

(** ** Runs *)

(** The packets that the AEAD opens are bytes. *)
Definition opens_bytes (r : round) : Prop :=
  forall data pn ad payload level, Open (QuicAEAD:=r.(opener)) data pn ad = inr (payload, level) -> bytes_ok payload.

Lemma loop_run {S : Type} `{cong : SendAlgorithm S} (newController : Z -> S) message errNewVersion overflow rs : forall n l,
  Forall opens_bytes rs -> loop_ok overflow n l -> n + 2 * Z.of_nat (length rs) < 2 ^ 32 ->
  let r := run newController message errNewVersion rs l in loop_ok overflow (n + 2 * Z.of_nat (length rs)) r.1 /\ r.2 <> Hangs.
Proof.
  induction rs as [|r rs IH]; intros n l Hrs H Hn; cbn [run length].
  - split; [|done]. eapply loop_weaken; [done|]. cbn. lia.
  - inversion_clear Hrs as [|? ? Hr Hrs']. cbn [length] in Hn.
    destruct (loop_step (crypto:=r.(keys)) (aead:=r.(opener)) newController message errNewVersion Hr overflow n l r.(what) H)
      as [H1 H2]; [lia|]. cbv zeta in *. destruct (step _ _ _ _ _) as [l' []]; cbn [fst snd] in *; try done;
      try (split; [eapply loop_weaken; [done|lia]|done]).
    destruct (IH (n + 2) l' Hrs' H1) as [H3 H4]; [lia|]. split; [|done]. eapply loop_weaken; [done|lia].
Qed.

(** ** The lost timer *)

Section Lost.
Context {S : Type} `{cong : SendAlgorithm S} `{crypto : CryptoSetup} `{aead : QuicAEAD}.
Context (newController : Z -> S) (message : error -> list Z) (errCloseSessionForNewVersion : error).

Lemma lift_timer {A} (m : Session.M S A) l : (lift m l).1.(timer) = l.(timer).
Proof. unfold lift. by destruct (m l.(sess)). Qed.

Lemma requeue_timer ps : forall l : SessionLoop.t S, (foldl handlePacket l ps).(timer) = l.(timer).
Proof.
  induction ps as [|p ps IH]; intros l; cbn [foldl]; [done|]. rewrite IH. unfold handlePacket. by case_match.
Qed.

Lemma managePaths_timer now (l : SessionLoop.t S) : (managePaths newController now l).1.(timer) = l.(timer).
Proof.
  unfold managePaths, outcomeOf. pose proof (lift_timer (createPaths newController now) l) as Hc.
  destruct l.(manager); [| |done]; case_match; try done. by destruct (lift _ l) as [? []].
Qed.

Lemma handleEvent_timer ev now (l : SessionLoop.t S) :
  l.(timer).(Timer.timer) = Timer.Idle -> (handleEvent newController ev now l).1.(timer) = l.(timer).
Proof.
  intros E. destruct ev as [| |id| |level| |]; cbn [handleEvent]; rewrite ?E; try done.
  - apply lift_timer.
  - destruct l.(receivedPackets); [done|]. unfold receivePacket. by destruct (handlePacketImpl _ _ _ _) as [? []].
  - cbn. by rewrite requeue_timer.
  - case_match; [apply managePaths_timer|done].
Qed.

Lemma afterEvent_timer fuel order now (l : SessionLoop.t S) : (afterEvent fuel order now l).1.(timer) = l.(timer).
Proof.
  unfold afterEvent. set (l1 := if negb _ && _ then set_launched l else l).
  assert (E1 : l1.(timer) = l.(timer)) by (unfold l1; by case_match).
  set (l2 := if keepAliveDue l1 now then _ else _).
  assert (E2 : l2.(timer) = l.(timer)) by (unfold l2; case_match; rewrite ?lift_timer; done).
  pose proof (lift_timer (Scheduler.sendPacket fuel order now) l2) as E3. destruct (lift _ l2) as [l3 r]. cbn [fst] in E3.
  assert (Hend : forall l' : SessionLoop.t S, l'.(timer) = l.(timer) ->
    (if pathsFrameDue (closeOnTimeout now l').(sess) now then (lift (schedulePathsFrame now) (closeOnTimeout now l')).1
     else closeOnTimeout now l').(timer) = l.(timer)).
  { intros l' E. case_match; rewrite ?lift_timer; exact E. }
  destruct r as [b|e|]; cbn [fst]; [apply Hend; congruence|apply Hend; rewrite lift_timer; congruence|congruence].
Qed.

Lemma finish_timer e remote now (l : SessionLoop.t S) :
  (finish message errCloseSessionForNewVersion e remote now l).1.(timer) = l.(timer).
Proof.
  unfold finish. set (l1 := if _ : bool then l else _).
  pose proof (lift_timer (handleCloseError message errCloseSessionForNewVersion e remote now) l1) as E.
  destruct (lift _ l1) as [l2 r]. cbn [fst] in *. rewrite E. unfold l1. by case_match.
Qed.

(** A timer that has fired and was read is not started again for the same deadline. *)
Definition read_at (d : Z) (l : SessionLoop.t S) : Prop :=
  l.(timer).(Timer.timer) = Timer.Idle /\ l.(timer).(Timer.deadline) = Some d.

Lemma iterate_timer d fuel order ev now (l : SessionLoop.t S) : read_at d l -> deadline l = d ->
  (iterate newController message errCloseSessionForNewVersion fuel order ev now l).1.(timer) = l.(timer).
Proof.
  intros [E Ed] Hd. unfold iterate.
  assert (El : set_timer l (Timer.tick l.(timer) now) = l) by (unfold Timer.tick; rewrite E; by destruct l).
  rewrite El. destruct l.(sess).(closeErr) as [[e remote]|]; [apply (finish_timer e remote now (set_sess l _))|].
  unfold maybeResetTimer, Timer.Reset. rewrite Hd, Ed, bool_decide_true by done. cbn [fmap option_fmap option_map].
  assert (Es : set_timer l l.(timer) = l) by by destruct l. rewrite Es.
  pose proof (handleEvent_timer ev now l E) as H1. destruct (handleEvent _ ev now l) as [l1 o]. cbn [fst] in H1.
  destruct o; [|done..]. pose proof (afterEvent_timer fuel order now l1) as H2.
  destruct (afterEvent fuel order now l1) as [l2 []]; cbn [fst] in *; congruence.
Qed.

Lemma step_timer d i (l : SessionLoop.t S) : read_at d l -> deadline l = d ->
  (step newController message errCloseSessionForNewVersion i l).1.(timer) = l.(timer).
Proof.
  intros H Hd. destruct i; cbn [step fst]; try done; [by eapply iterate_timer| |by rewrite lift_timer..].
  unfold handlePacket. by case_match.
Qed.

(** The deadline for the activity of the peer *)
Definition activityDeadline (l : SessionLoop.t S) : Z :=
  l.(sess).(lastNetworkActivityTime)
  + (if l.(config).(KeepAlive) && negb l.(sess).(keepAlivePingSent) then Z.quot (idleTimeout l.(sess)) 2
     else idleTimeout l.(sess)).

Lemma deadline_overflow t0 (l : SessionLoop.t S) :
  overflowed (Some t0) l.(sess) -> t0 + PublicResetTimeout <= activityDeadline l -> deadline l = t0 + PublicResetTimeout.
Proof.
  intros Ho Hl. destruct (Ho t0 eq_refl) as [Hc Ht]. unfold deadline, activityDeadline in *. rewrite Hc, Ht.
  rewrite andb_true_r in *. cbn [negb]. unfold MinTime. repeat case_match; lia.
Qed.

End Lost.

(** Every state of a run, before each of its steps and at its end *)
Fixpoint throughout {S : Type} `{cong : SendAlgorithm S} (newController : Z -> S) (message : error -> list Z)
    (errNewVersion : error) (P : SessionLoop.t S -> Prop) (rs : list round) (l : SessionLoop.t S) : Prop :=
  P l /\
  match rs with
  | [] => True
  | r :: rs =>
      match step (crypto:=r.(keys)) (aead:=r.(opener)) newController message errNewVersion r.(what) l with
      | (l, Looping) => throughout newController message errNewVersion P rs l
      | _ => True
      end
  end.

Lemma lost_run {S : Type} `{cong : SendAlgorithm S} (newController : Z -> S) message errNewVersion t0 rs : forall n l,
  Forall opens_bytes rs -> loop_ok (Some t0) n l -> n + 2 * Z.of_nat (length rs) < 2 ^ 32 ->
  read_at (t0 + PublicResetTimeout) l ->
  throughout newController message errNewVersion (fun l => t0 + PublicResetTimeout <= activityDeadline l) rs l ->
  (run newController message errNewVersion rs l).1.(timer) = l.(timer).
Proof.
  induction rs as [|r rs IH]; intros n l Hrs H Hn Hr Ht; cbn [run]; [done|].
  inversion_clear Hrs as [|? ? Hr1 Hrs']. cbn [length throughout] in *. destruct Ht as [Hl Ht].
  pose proof H as (_ & _ & _ & Ho). pose proof (deadline_overflow t0 l Ho Hl) as Hd.
  pose proof (step_timer (crypto:=r.(keys)) (aead:=r.(opener)) newController message errNewVersion _ r.(what) l Hr Hd) as Hs.
  destruct (loop_step (crypto:=r.(keys)) (aead:=r.(opener)) newController message errNewVersion Hr1 (Some t0) n l r.(what) H)
    as [H1 _]; [lia|]. cbv zeta in *. destruct (step _ _ _ _ _) as [l' []]; cbn [fst snd] in *; try done.
  rewrite <-Hs. apply (IH (n + 2) l'); [done|done|lia| |done]. unfold read_at. by rewrite Hs.
Qed.

(** ** The end of a session *)

Section End_.
Context {S : Type} `{cong : SendAlgorithm S} `{crypto : CryptoSetup} `{aead : QuicAEAD}.
Context (newController : Z -> S) (message : error -> list Z) (errCloseSessionForNewVersion : error).

(** Every path is closed and every stream cancelled; [packets] were sent since [s]. *)
Record closed (s s' : Session.t S) (packets : list (Z * list Z)) : Prop := {
  closed_paths : forall id p, s'.(paths) !! id = Some p -> p.(Path.open) = false;
  closed_streams : forall id str, s'.(streams).1.(StreamsMap.streams) !! id = Some str ->
    str.(Stream.cancelled) = true /\ is_Some str.(Stream.err);
  closed_written : s'.(written) = s.(written) ++ packets
}.

Lemma Cancel_cancelled str e : (Stream.Cancel str (Some e)).(Stream.cancelled) = true
  /\ is_Some ((Stream.Cancel str (Some e)).(Stream.err)).
Proof. unfold Stream.Cancel. cbn. destruct str.(Stream.err) eqn:E; cbn; rewrite ?E; by split. Qed.

Lemma cancelAll_cancelled e ids : forall strs strs', StreamsMap.cancelAll e ids strs = Some strs' ->
  forall id str, strs' !! id = Some str ->
    ((id ∉ ids) /\ strs !! id = Some str) \/ (str.(Stream.cancelled) = true /\ is_Some str.(Stream.err)).
Proof.
  induction ids as [|x ids IH]; intros strs strs'; cbn [StreamsMap.cancelAll].
  - intros [= ->] id str E. left. by split; [apply not_elem_of_nil|].
  - destruct (strs !! x) as [sx|]; [|done]. intros Hc id str E.
    destruct (IH _ _ Hc id str E) as [[Hid Hl]|]; [|by right]. destruct (decide (x = id)) as [->|Hne].
    + rewrite lookup_insert_eq in Hl. injection Hl as <-. right. apply Cancel_cancelled.
    + rewrite lookup_insert_ne in Hl by done. left. split; [|done]. apply not_elem_of_cons. auto.
Qed.

Lemma CloseWithError_cancels m m' e : StreamsMapProofs.map_inv m -> StreamsMap.CloseWithError m e = Ok m' ->
  forall id str, m'.(StreamsMap.streams) !! id = Some str -> str.(Stream.cancelled) = true /\ is_Some str.(Stream.err).
Proof.
  intros Hi. unfold StreamsMap.CloseWithError. destruct (StreamsMap.cancelAll _ _ _) as [strs|] eqn:E; [|done].
  intros [= <-] id str Hl. cbn in Hl. destruct (cancelAll_cancelled _ _ _ _ E id str Hl) as [[Hn Hs]|]; [|done].
  destruct Hn. apply (StreamsMapProofs.inv_dom _ Hi). eauto.
Qed.

(** The nonce and the overhead of the crypto setup, and a reason that fits a packet *)
Definition packs (quicErr : error) : Prop :=
  (DiversificationNonce = [] \/ length DiversificationNonce = 32%nat) /\ GetSealer.2.(Overhead) <= 291
  /\ (length (message quicErr) <= 1000)%nat.

Definition close_frame (quicErr : error) : ConnectionCloseFrame.t :=
  ConnectionCloseFrame.mk (quicErrorCode quicErr) (message quicErr).

(** The packet of a local close: a public reset for the errors that ask for one, and
    the sealed CONNECTION_CLOSE frame for all others *)
Definition closing_packet (s : Session.t S) (quicErr : error) (raw : list Z) : Prop :=
  if sendsPublicReset quicErr
  then exists pn, PublicReset.WritePublicReset s.(packer).(PacketPacker.connectionID) pn 0 = WOk raw
  else exists header pn, raw = header ++ GetSealer.2.(Seal)
         (ConnectionCloseFrame.enc (close_frame quicErr) s.(packer).(PacketPacker.version)) pn header.

Lemma Write_close_frame f version b :
  ConnectionCloseFrame.Write f version b = WOk (b ++ ConnectionCloseFrame.enc f version)
  \/ (exists e b', ConnectionCloseFrame.Write f version b = WErr e b')
     /\ 2 ^ 16 <= Z.of_nat (length f.(ConnectionCloseFrame.ReasonPhrase)).
Proof.
  destruct (decide (Z.of_nat (length f.(ConnectionCloseFrame.ReasonPhrase)) < 2 ^ 16)) as [Hlt|Hge].
  - left. by apply ConnectionCloseFrame.cc_Write_enc.
  - right. split; [|lia]. unfold ConnectionCloseFrame.Write, wseq. rewrite writes_WriteByte, bo_WriteUint32.
    unfold wguard. replace (2 ^ 16 - 1 <? _) with true by lia. by eexists _, _.
Qed.

Lemma Write_getPublicHeader (p : PacketPacker.t) params level (pth : Path.t S) hc :
  let w := PublicHeader.Write (PacketPacker.getPublicHeader p params level pth hc) p.(PacketPacker.version)
             p.(PacketPacker.perspective) [] in
  (exists header, w = WOk header /\ (length header <= 52)%nat)
  \/ (exists e b, w = WErr e b) /\ ~ (DiversificationNonce = [] \/ length DiversificationNonce = 32%nat).
Proof.
  cbv zeta. set (h := PacketPacker.getPublicHeader _ _ _ _ _).
  assert (Hlen : pnlen_ok h.(PublicHeader.PacketNumberLen))
    by (subst h; cbn; unfold GetPacketNumberLengthForPublicHeader, pnlen_ok; repeat case_match; auto).
  destruct (decide (h.(PublicHeader.DiversificationNonce) = [] \/ length h.(PublicHeader.DiversificationNonce) = 32%nat)) as [Hn|Hn].
  - left. exists (HeaderProofs.enc h p.(PacketPacker.version) p.(PacketPacker.perspective)).
    split; [|by apply HeaderProofs.enc_short]. apply (HeaderProofs.header_Write_flags h); [done| |done|done].
    subst h. unfold PublicHeader.hasPacketNumber, PublicHeader.hasPacketNumber_flags. cbn.
    destruct (PacketPacker.perspective p); cbn; by rewrite ?andb_false_r.
  - right. split; [|intros Hd; apply Hn; subst h; cbn; destruct (isServer _ && _); auto].
    unfold PublicHeader.Write, wseq, wguard, PublicHeader.nonceLen. rewrite andb_false_r.
    replace (_ && _) with true; [by eexists _, _|]. symmetry. apply andb_true_iff. split.
    + apply Z.ltb_lt. destruct (PublicHeader.DiversificationNonce h); [destruct Hn; auto|cbn; lia].
    + apply negb_true_iff, Z.eqb_neq. intros ?. apply Hn. right. lia.
Qed.

Lemma PackConnectionClose_result (p : PacketPacker.t) params quicErr (pth : Path.t S) hc now num :
  match (PacketPacker.PackConnectionClose p params (close_frame quicErr) pth hc now num).2 with
  | Ok packet => exists header pn, packet.(PacketPacker.raw) = header ++ GetSealer.2.(Seal)
                   (ConnectionCloseFrame.enc (close_frame quicErr) p.(PacketPacker.version)) pn header
  | Err _ => ~ packs quicErr
  | Panic => False
  end.
Proof.
  unfold PacketPacker.PackConnectionClose, packs, PacketPacker.writeAndSealPacket. destruct GetSealer as [level sealer]. cbn [snd].
  destruct (Write_getPublicHeader p params level pth hc) as [(header & -> & Hh)|[(e & b & ->) Hn]]; [|cbn; tauto].
  unfold writeFrames. cbn [foldr]. unfold wseq, wskip. cbn [WriteFrame].
  destruct (Write_close_frame (close_frame quicErr) p.(PacketPacker.version) header) as [->|[(e & b & ->) Hb]];
    [|cbn in *; lia].
  destruct (MaxPacketSize <? _) eqn:Em.
  - cbn. intros (_ & Ho & Hl). rewrite length_app in Em. unfold ConnectionCloseFrame.enc in Em.
    rewrite !length_app, !bo_enc_length in Em. apply Z.ltb_lt in Em.
    unfold MaxPacketSize in Em. cbn [close_frame ConnectionCloseFrame.ReasonPhrase length] in Em. lia.
  - unfold PacketNumberGenerator.Pop. cbn [PacketPacker.getPublicHeader PublicHeader.PacketNumber].
    unfold PacketNumberGenerator.Peek. rewrite drop_app_length. destruct (_ =? _); rewrite Z.eqb_refl; by eexists _, _.
Qed.

(** A local close sends its packet on the initial path, or none when it does not pack. *)
Definition sends_close (s s' : Session.t S) (quicErr : error) (r : res unit) : Prop :=
  exists packets, closed s s' packets /\ r <> Panic
    /\ (packets = [] /\ ~ packs quicErr /\ sendsPublicReset quicErr = false
        \/ exists raw, packets = [(0, raw)] /\ closing_packet s quicErr raw).

Lemma sendConnectionClose_closed (s s' : Session.t S) quicErr now : wf s' -> closed s s' [] ->
  s'.(packer) = s.(packer) -> sendsPublicReset quicErr = false ->
  let r := sendConnectionClose (close_frame quicErr) now s' in sends_close s r.1 quicErr r.2.
Proof.
  intros H [C1 C2 C3] Hpk Hq. unfold sendConnectionClose, mbind, session_bind, getPath, nextRandom, get, putPath, modify.
  destruct (wf_initial s' H) as [p Ep]. rewrite Ep.
  set (p1 := Path.SetLeastUnacked p _). set (s1 := match s'.(randoms) with [] => _ | _ => _ end).
  assert (E1 : s1.1.(paths) = s'.(paths) /\ s1.1.(streams) = s'.(streams) /\ s1.1.(written) = s'.(written)
               /\ s1.1.(packer) = s'.(packer) /\ exists num, s1.2 = Ok num)
    by (unfold s1; destruct s'.(randoms); by split_and!; eauto).
  destruct s1 as [s1 r1]. cbn [fst snd] in E1. destruct E1 as (Ep1 & Es1 & Ew1 & Epk & num & ->). cbn [fst].
  pose proof (PackConnectionClose_path s1.(packer) s1.(streams).2.(FlowControlManager.params) (close_frame quicErr) p1
    s1.(handshakeComplete) now num) as (_ & _ & Hp).
  pose proof (PackConnectionClose_result s1.(packer) s1.(streams).2.(FlowControlManager.params) quicErr p1
    s1.(handshakeComplete) now num) as Hres.
  destruct (PacketPacker.PackConnectionClose _ _ _ _ _ _ _) as [p2 r2]. cbn [fst snd] in Hp, Hres.
  assert (C : forall w packets, w = s'.(written) ++ packets ->
    closed s (set_written (set_paths s1 (<[0 := p2]> s1.(paths))) w) packets).
  { intros w packets ->. split; cbn [paths streams written set_written set_paths]; [|by rewrite Es1|by rewrite C3, app_nil_r].
    intros id q. rewrite Ep1. destruct (decide (id = 0)) as [->|]; [|rewrite lookup_insert_ne by done; apply C1].
    rewrite lookup_insert_eq. intros [= <-]. rewrite Hp. exact (C1 0 p Ep). }
  destruct r2 as [packet|e|]; [|exists []|done].
  - destruct Hres as (header & pn & E). exists [(0, packet.(PacketPacker.raw))]. split; [apply C; cbn; by rewrite Ew1|].
    split; [done|]. right. eexists. split; [done|]. unfold closing_packet. rewrite Hq, <-Hpk, <-Epk. by exists header, pn.
  - destruct (C s'.(written) []) as [D1 D2 D3]; [by rewrite app_nil_r|]. split; [split; [exact D1|exact D2|]|].
    + rewrite <-D3. cbn. exact Ew1.
    + split; [done|]. by left.
Qed.

Lemma sendPublicReset_closed (s s' : Session.t S) quicErr pn : closed s s' [] ->
  s'.(packer) = s.(packer) -> sendsPublicReset quicErr = true ->
  let r := sendPublicReset pn s' in sends_close s r.1 quicErr r.2.
Proof.
  intros [C1 C2 C3] Hpk Hq. unfold sendPublicReset, PublicReset.WritePublicReset.
  match goal with |- context [?w []] => assert (Hw : exists raw, w [] = WOk raw) end.
  { unfold wseq. rewrite !writes_WriteByte. repeat rewrite ?(bo_WriteUint64 (bo:=LittleEndian)), ?(bo_WriteUint32 (bo:=LittleEndian)).
    by eexists. }
  destruct Hw as [raw Hw]. rewrite Hw. exists [(0, raw)]. split; [|split; [done|]].
  - split; [exact C1|exact C2|]. cbn. by rewrite C3, app_nil_r.
  - right. exists raw. split; [done|]. unfold closing_packet. rewrite Hq, <-Hpk. by exists pn.
Qed.

(** The end of a session is silent when the peer closed it or when it is replaced by
    one with another version. *)
Definition silent (e : error) (remote : bool) : Prop := remote = true \/ e = errCloseSessionForNewVersion.

Lemma handleCloseError_closed (s : Session.t S) e remote now : wf s ->
  (forall id p, s.(paths) !! id = Some p -> p.(Path.open) = false) ->
  let err := default (ErrorCode PeerGoingAway) e in
  let r := handleCloseError message errCloseSessionForNewVersion e remote now s in
  silent err remote /\ closed s r.1 [] /\ r.2 = Ok tt
  \/ ~ silent err remote /\ sends_close s r.1 (ToQuicError err) r.2.
Proof.
  intros H Hop. unfold handleCloseError, silent, mbind, session_bind, get. cbv zeta. set (err := default _ e).
  destruct (StreamsMapProofs.CloseWithError_ok s.(streams) (ToQuicError err) (wf_streams s H)) as (m & Em & Hev & Hn).
  pose proof (CloseWithError_cancels _ _ _ (wf_streams s H) Em) as Hc. rewrite Em. cbn [modify].
  assert (H1 : wf (closePaths (set_streams s (m, s.(streams).2)))).
  { apply becomes_closePaths, becomes_streams; [done|]. by split; [apply Hev|]. }
  set (s1 := closePaths (set_streams s (m, s.(streams).2))) in *. unfold modify.
  case_bool_decide as He.
  { left. split; [auto|]. split; [|done]. split; [exact Hop|exact Hc|by rewrite app_nil_r]. }
  fold s1. assert (C : closed s s1 []).
  { split; [|exact Hc|by rewrite app_nil_r]. intros id p. cbn [s1 closePaths set_paths paths].
    rewrite lookup_fmap. by intros (q & _ & ->)%fmap_Some. }
  destruct remote; [left; by split; [auto|]|]. right. split; [by intros [|]|].
  destruct (sendsPublicReset _) eqn:Eq; [|by apply sendConnectionClose_closed].
  unfold getPath. destruct (wf_initial s1 H1) as [p ->]. by apply sendPublicReset_closed.
Qed.

Lemma iterate_closed n (l : SessionLoop.t S) e remote fuel order ev now :
  loop_ok None n l -> l.(sess).(closeErr) = Some (e, remote) ->
  let err := default (ErrorCode PeerGoingAway) e in
  let r := iterate newController message errCloseSessionForNewVersion fuel order ev now l in
  r.2 = Ended e remote
  /\ r.1.(handshakeChan) = (if l.(sess).(handshakeComplete) then l.(handshakeChan) else l.(handshakeChan) ++ [inr e])
  /\ exists packets, closed l.(sess) r.1.(sess) packets
     /\ (silent err remote /\ packets = []
         \/ ~ silent err remote
            /\ (packets = [] /\ ~ packs (ToQuicError err) /\ sendsPublicReset (ToQuicError err) = false
                \/ exists raw, packets = [(0, raw)] /\ closing_packet l.(sess) (ToQuicError err) raw)).
Proof.
  intros (H & _) Hc. unfold iterate. cbv zeta. cbn [set_timer sess]. rewrite Hc. unfold finish.
  set (l0 := set_sess _ (closePaths l.(sess))).
  set (l1 := if l0.(sess).(handshakeComplete) then l0 else notify l0 (inr e)).
  assert (E : l1.(sess) = closePaths l.(sess)) by (unfold l1; by case_match).
  assert (Ech : l1.(handshakeChan) = if l.(sess).(handshakeComplete) then l.(handshakeChan) else l.(handshakeChan) ++ [inr e]).
  { unfold l1. change l0.(sess).(handshakeComplete) with l.(sess).(handshakeComplete). by case_match. }
  pose proof (handleCloseError_closed (closePaths l.(sess)) e remote now) as Hd.
  unfold lift. rewrite E. destruct (handleCloseError _ _ _ _ _ _) as [s' r]. cbn [fst snd set_sess sess handshakeChan] in *.
  assert (Hw : forall packets, closed (closePaths l.(sess)) s' packets -> closed l.(sess) s' packets)
    by (intros packets [C1 C2 C3]; by split).
  destruct Hd as [(Hs & Hcl & ->)|(Hs & packets & Hcl & Hr & Hp)].
  - by apply becomes_closePaths.
  - intros id p. cbn [closePaths set_paths paths]. rewrite lookup_fmap. by intros (q & _ & ->)%fmap_Some.
  - split; [done|]. split; [exact Ech|]. exists []. split; [by apply Hw|]. by left.
  - split; [by destruct r|]. split; [exact Ech|]. exists packets. split; [by apply Hw|]. by right.
Qed.

End End_.

(** ** Runs from the setup *)

(** C4: a session is well formed at all times.  After every run from the setup of a
    client or a server, whatever packets arrive, whichever events and orders its
    loop chooses, whatever the application does with the session and its streams,
    and however the run ends: every path is filed under its ID, and its sent packets
    are in order, accounted for as bytes in flight, with an alarm set while one is
    outstanding; the initial path is there; only known paths were closed, and
    exactly these have addresses; the streams map's books are right.  The loop
    never hangs in the reset of its timer.  Runs have fewer than 2^30 steps, so
    that the IDs of this side's streams do not wrap. *)
Theorem session_wellformed {S : Type} `{cong : SendAlgorithm S} (newController : Z -> S) (message : error -> list Z)
  (errNewVersion : error) (pers : Perspective) (v : Z) (createPaths : bool) (connectionID : Z) (config : Config)
  (locAddr remAddr : UDPAddr) (localAddrs : list UDPAddr) (choices : list (list Z)) (randoms : list (option Z)) (now : Z)
  (rs : list round) (Hopens : Forall opens_bytes rs) (Hlen : Z.of_nat (length rs) < 2 ^ 30) :
  let r := run newController message errNewVersion rs
             (setup newController pers v createPaths connectionID config locAddr remAddr localAddrs choices randoms now) in
  wf r.1.(sess) /\ r.2 <> Hangs.
Proof.
  cbv zeta. destruct (loop_run newController message errNewVersion None rs 3 (setup newController pers v createPaths connectionID
    config locAddr remAddr localAddrs choices randoms now) Hopens) as [[H _] Hh]; [apply setup_ok|lia|]. by split.
Qed.

(** C12: a session that was closed ends in the next round of its loop.  Whatever error
    is waiting, from the application (which may give none), a timeout, the peer or the
    change of the version, the loop ends with exactly it, without a panic, and every
    path is closed and every stream cancelled with an error.  The handshake channel
    gets what was given if the handshake was not complete.  Nothing is sent when the
    peer closed the session or it is replaced by one with another version; otherwise
    exactly one packet goes out on the initial path: a public reset for the errors that
    ask for it, else the sealed CONNECTION_CLOSE frame with the code and the message of
    the error ([PeerGoingAway] when there was none), provided the nonce has its length
    and the reason fits a packet. *)
Theorem session_closes {S : Type} `{cong : SendAlgorithm S} (newController : Z -> S) (message : error -> list Z)
  (errNewVersion : error) (pers : Perspective) (v : Z) (createPaths : bool) (connectionID : Z) (config : Config)
  (locAddr remAddr : UDPAddr) (localAddrs : list UDPAddr) (choices : list (list Z)) (randoms : list (option Z)) (now : Z)
  (rs : list round) (l : SessionLoop.t S) (e : option error) (remote : bool) (k : CryptoSetup) (o : QuicAEAD)
  (fuel : nat) (order : list Z) (ev : event) (time : Z)
  (Hopens : Forall opens_bytes rs) (Hlen : Z.of_nat (length rs) < 2 ^ 30)
  (Hrun : run newController message errNewVersion rs
            (setup newController pers v createPaths connectionID config locAddr remAddr localAddrs choices randoms now)
          = (l, Looping))
  (Hclosing : l.(sess).(closeErr) = Some (e, remote)) :
  let r := iterate (crypto:=k) (aead:=o) newController message errNewVersion fuel order ev time l in
  let err := default (ErrorCode PeerGoingAway) e in
  let quicErr := ToQuicError err in
  r.2 = Ended e remote
  /\ r.1.(handshakeChan) = (if l.(sess).(handshakeComplete) then l.(handshakeChan) else l.(handshakeChan) ++ [inr e])
  /\ exists packets, closed l.(sess) r.1.(sess) packets
     /\ (silent errNewVersion err remote /\ packets = []
         \/ ~ silent errNewVersion err remote
            /\ (packets = [] /\ ~ packs (crypto:=k) message quicErr /\ sendsPublicReset quicErr = false
                \/ exists raw, packets = [(0, raw)] /\ closing_packet (crypto:=k) message l.(sess) quicErr raw)).
Proof.
  apply (iterate_closed newController message errNewVersion (3 + 2 * Z.of_nat (length rs))); [|done].
  destruct (loop_run newController message errNewVersion None rs 3 (setup newController pers v createPaths connectionID
    config locAddr remAddr localAddrs choices randoms now) Hopens) as [H _]; [apply setup_ok|lia|]. by rewrite Hrun in H.
Qed.

(** C38: the session's timer can be lost.  In every session whose queue of undecryptable
    packets once overflowed, which has completed its handshake since, and whose timer
    has fired for that overflow and was read, the timer is never started again: in no
    continuation, whatever packets arrive and whatever the application does, as long as
    the deadlines for the activity of the peer lie after that of the overflow.  So the
    idle timeout has no timer of its own any more, and the loop notices it only when
    something else, such as the timer of a path, wakes it. *)
Theorem idle_timer_lost {S : Type} `{cong : SendAlgorithm S} (newController : Z -> S) (message : error -> list Z)
  (errNewVersion : error) (pers : Perspective) (v : Z) (createPaths : bool) (connectionID : Z) (config : Config)
  (locAddr remAddr : UDPAddr) (localAddrs : list UDPAddr) (choices : list (list Z)) (randoms : list (option Z)) (now : Z)
  (rs rs' : list round) (l : SessionLoop.t S) (t0 : Z)
  (Hopens : Forall opens_bytes (rs ++ rs')) (Hlen : Z.of_nat (length (rs ++ rs')) < 2 ^ 30)
  (Hrun : run newController message errNewVersion rs
            (setup newController pers v createPaths connectionID config locAddr remAddr localAddrs choices randoms now)
          = (l, Looping))
  (Hcomplete : l.(sess).(handshakeComplete) = true) (Hoverflow : l.(sess).(tooManyUndecryptableTime) = Some t0)
  (Hread : read_at (t0 + PublicResetTimeout) l)
  (Hlater : throughout newController message errNewVersion (fun l => t0 + PublicResetTimeout <= activityDeadline l) rs' l) :
  let l' := (run newController message errNewVersion rs' l).1 in
  l'.(timer).(Timer.timer) = Timer.Idle /\ forall time, Timer.tick l'.(timer) time = l'.(timer).
Proof.
  cbv zeta. rewrite length_app, Nat2Z.inj_add in Hlen. apply Forall_app in Hopens as [Ho1 Ho2].
  destruct (loop_run newController message errNewVersion None rs 3 (setup newController pers v createPaths connectionID
    config locAddr remAddr localAddrs choices randoms now) Ho1) as [H _]; [apply setup_ok|lia|]. rewrite Hrun in H.
  rewrite (lost_run newController message errNewVersion t0 rs' (3 + 2 * Z.of_nat (length rs)) l Ho2); [|..|lia|done|done].
  - destruct Hread as [E _]. split; [done|]. intros time. unfold Timer.tick. by rewrite E.
  - destruct H as (H1 & H2 & H3 & _). split_and!; [done..|]. by intros ? [= <-].
Qed.

(** ** Examples *)

Definition demo_config : Config := mkConfig false (10 * Second) (30 * Second) 1048576 1572864.
Definition demo_addr (port : Z) : UDPAddr := mkAddr [10; 0; 0; 1] port.
Definition demo_controller (_ : Z) : CubicSender.t :=
  CubicSender.NewCubicSender false InitialCongestionWindow DefaultMaxCongestionWindow.
Definition demo_message (e : error) : list Z := [].
Definition demo_new_version : error := ErrorsNew "closing session in order to recreate it with a new version".

(** Packets end with the 12 bytes of the sealer; before the keys are known, none opens. *)
Definition demo_opener : QuicAEAD :=
  Build_QuicAEAD (fun data _ _ => inr (map u8 (take (length data - 12) data), EncryptionForwardSecure)).
Definition demo_keyless : QuicAEAD := Build_QuicAEAD (fun _ _ _ => inl (ErrorsNew "decryption failed")).
Definition demo_round (i : input) : round := mkRound PackerProofs.demo_crypto demo_opener i.
Definition demo_early (i : input) : round := mkRound PackerProofs.demo_crypto demo_keyless i.

Lemma demo_opens i : opens_bytes (demo_round i).
Proof. intros data pn ad payload level [= <- _]. apply Forall_map, Forall_forall. intros x _. apply u8_range. Qed.
Lemma demo_early_opens i : opens_bytes (demo_early i).
Proof. by intros data pn ad payload level. Qed.

Definition demo_setup (pers : Perspective) : SessionLoop.t CubicSender.t :=
  setup demo_controller pers VersionMP true 0x1234 demo_config (demo_addr 1) (demo_addr 2) [] [] [] 0.

(** A client sends a hello on the crypto stream and data on a stream of its own,
    its handshake completes, and the application closes the session. *)
Definition demo_inputs : list input :=
  [OnStream 1 (Write [67; 72; 76; 79]) 0; Iteration 10 [] SendingScheduled 1000; OpenStream;
   OnStream 3 (Write [1; 2; 3]) 2000; Iteration 10 [] SendingScheduled 3000; Iteration 10 [] AeadClosed 4000;
   Iteration 10 [] PathsChanged 5000; AcceptStream; Negotiated ∅; Close None].

Lemma session_wellformed_witness :
  let r := run demo_controller demo_message demo_new_version (map demo_round demo_inputs) (demo_setup PerspectiveClient) in
  wf r.1.(sess) /\ r.2 = Looping /\ length r.1.(sess).(written) = 3%nat.
Proof.
  cbv zeta. split; [|split; vm_compute; reflexivity].
  apply (session_wellformed demo_controller demo_message demo_new_version PerspectiveClient VersionMP true 0x1234 demo_config
    (demo_addr 1) (demo_addr 2) [] [] [] 0).
  - apply Forall_map, Forall_forall. intros i _. apply demo_opens.
  - vm_compute. reflexivity.
Defined.

Definition demo_closing : SessionLoop.t CubicSender.t :=
  (run demo_controller demo_message demo_new_version (map demo_round demo_inputs) (demo_setup PerspectiveClient)).1.

Lemma session_closes_witness :
  let r := iterate (crypto:=PackerProofs.demo_crypto) (aead:=demo_opener) demo_controller demo_message demo_new_version 10 []
             SendingScheduled 6000 demo_closing in
  r.2 = Ended None false /\ length r.1.(sess).(written) = 4%nat
  /\ exists raw, closed demo_closing.(sess) r.1.(sess) [(0, raw)].
Proof.
  cbv zeta.
  destruct (session_closes demo_controller demo_message demo_new_version PerspectiveClient VersionMP true 0x1234 demo_config
    (demo_addr 1) (demo_addr 2) [] [] [] 0 (map demo_round demo_inputs) demo_closing None false
    PackerProofs.demo_crypto demo_opener 10 [] SendingScheduled 6000) as (Hend & _ & packets & Hc & Hp).
  - apply Forall_map, Forall_forall. intros i _. apply demo_opens.
  - vm_compute. reflexivity.
  - vm_compute. reflexivity.
  - vm_compute. reflexivity.
  - split; [exact Hend|]. split; [vm_compute; reflexivity|].
    destruct Hp as [[[H|H] _]|[_ [(_ & H & _)|(raw & -> & _)]]]; [discriminate..| |by exists raw].
    destruct H. repeat split; [by left|vm_compute; discriminate|cbn; lia].
Defined.

(** A path that sends, times out, and is taken by the session *)
Definition demo_choices : list (Path.t CubicSender.t * Z * PathRun.event * Z) :=
  [(PackerProofs.demo_path, 30 * Second, PathRun.SentPacket, 500 * Millisecond);
   (PackerProofs.demo_path, 30 * Second, PathRun.TimerFired, 1500 * Millisecond);
   (PackerProofs.demo_path, 30 * Second, PathRun.Relayed, 1600 * Millisecond)].

Lemma path_timer_fires_witness :
  exists r0 r, PathRun.start (Path.maybeResetTimer PackerProofs.demo_path (30 * Second) 0) 0 = Some r0
    /\ PathRun.run demo_choices r0 = Some r /\ r.(PathRun.at_) = PathRun.Waits
    /\ (Timer.tick r.(PathRun.timer) (2600 * Millisecond)).(Timer.timer) = Timer.Fired
    /\ (Timer.tick r.(PathRun.timer) (2599 * Millisecond)).(Timer.timer) <> Timer.Fired.
Proof.
  destruct (path_timer_fires PackerProofs.demo_path (30 * Second) 0 demo_choices) as (r0 & r & E0 & E & Ea & Hf & _).
  { repeat split; vm_compute; discriminate. }
  exists r0, r. split; [exact E0|]. split; [exact E|]. split; [rewrite Ea; vm_compute; reflexivity|].
  assert (Hw : forall later, 1600 * Millisecond <= later -> _) by (intros later H; apply (Hf eq_refl later H)).
  split; [apply Hw; vm_compute; discriminate|]. intros H. apply Hw in H; [|vm_compute; discriminate].
  vm_compute in H. by apply H.
Defined.

(** Packet [n] of the peer, with a PING frame *)
Definition demo_packet (n : Z) : receivedPacket :=
  mkReceived (demo_addr 1) (demo_addr 2)
    (PublicHeader.mk [] 0x1234 0 false false false false 1 n 0 [] []) (7 :: replicate 12 0) (Some Second).

(** Eleven packets come before the keys, one more than the session keeps; then the
    keys are there, the kept packets are read again and the handshake completes,
    and the timer for the overflow fires. *)
Definition demo_overflow : list round :=
  map (fun n => demo_early (Arrives (demo_packet n))) (seqZ 1 11)
  ++ replicate 11 (demo_early (Iteration 10 [] PacketReceived Second))
  ++ map demo_round (Iteration 10 [] (AeadChanged EncryptionForwardSecure) Second
                     :: replicate 10 (Iteration 10 [] PacketReceived Second)
                     ++ [Iteration 10 [] AeadClosed Second; Iteration 10 [] TimerFired (2 * Second)]).

(** One more packet is read and the application opens a stream; at 31 seconds the idle
    timeout has passed. *)
Definition demo_silence : list round :=
  map demo_round [Iteration 10 [] SendingScheduled (3 * Second); Arrives (demo_packet 12); Iteration 10 [] PacketReceived (4 * Second);
                  OpenStream; Iteration 10 [] TimerFired (20 * Second)].

Lemma idle_timer_lost_witness :
  let r := run demo_controller demo_message demo_new_version demo_overflow (demo_setup PerspectiveServer) in
  let l' := (run demo_controller demo_message demo_new_version demo_silence r.1).1 in
  l'.(timer).(Timer.timer) = Timer.Idle /\ l'.(sess).(closeErr) = None /\ idleTimedOut l'.(sess) (31 * Second) = true.
Proof.
  cbv zeta. split; [|split; vm_compute; reflexivity].
  apply (idle_timer_lost demo_controller demo_message demo_new_version PerspectiveServer VersionMP true 0x1234 demo_config
    (demo_addr 1) (demo_addr 2) [] [] [] 0 demo_overflow demo_silence _ Second).
  - unfold demo_overflow, demo_silence. repeat apply Forall_app_2; apply Forall_forall; intros r Hr.
    all: repeat match goal with
         | H : _ ∈ map _ _ |- _ => apply list_elem_of_fmap in H as (? & -> & _)
         | H : _ ∈ replicate _ _ |- _ => apply elem_of_replicate in H as [-> _]
         end; first [apply demo_opens|apply demo_early_opens].
  - vm_compute. reflexivity.
  - vm_compute. reflexivity.
  - vm_compute. reflexivity.
  - vm_compute. reflexivity.
  - split; vm_compute; reflexivity.
  - vm_compute. repeat split; discriminate.
Defined.

End SessionLoopProofs.
