(* ===== verification/Endpoints.v ===== *)
(** * Servers and clients ([server.go], [client.go])

    What stands between the sockets and the sessions: the server's table of
    sessions, its answers to packets without a session, and the client's checks and
    its version negotiation.  Sessions are used through the interface of
    [packetHandler]; the sessions of [SessionLoop.v] implement it.  A packet comes
    with the addresses of its socket and its sender; answers are collected in the
    order in which they are written. *)

From S2P Require Import CryptoSetup.
From S2P Require Import Prelude ByteOrder Protocol WireHeader WireFrames WireStream WireAck.
From S2P Require Import PacketUnpacker MinMax AckReceived ConnParams FlowControl StreamSorter Stream StreamsMap.
From S2P Require Import StreamFramer RTTStats SentPackets Cubic Path PacketPacker Session Scheduler HandshakeMessage.
From S2P Require Import SessionLoop.

(** ** Configurations *)

Definition DefaultHandshakeTimeout : Z := 10 * Second.
Definition DefaultIdleTimeout : Z := 30 * Second.
Definition DefaultMaxReceiveStreamFlowControlWindowServer : Z := 1048576.
Definition DefaultMaxReceiveConnectionFlowControlWindowServer : Z := 1572864.
Definition DefaultMaxReceiveStreamFlowControlWindowClient : Z := 16777216.
Definition DefaultMaxReceiveConnectionFlowControlWindowClient : Z := 25165824.

Module QuicConfig.

(** [Config]; a function for cookies is an element of [C]. *)
Record t (C : Type) : Type := mk {
  Versions : list Z;
  RequestConnectionIDTruncation : bool;
  HandshakeTimeout : Z;
  IdleTimeout : Z;
  AcceptCookie : option C;
  MaxReceiveStreamFlowControlWindow : Z;
  MaxReceiveConnectionFlowControlWindow : Z;
  KeepAlive : bool;
  CacheHandshake : bool;
  CreatePaths : bool
}.
Arguments mk {C}.
Arguments Versions {C}.
Arguments RequestConnectionIDTruncation {C}.
Arguments HandshakeTimeout {C}.
Arguments IdleTimeout {C}.
Arguments AcceptCookie {C}.
Arguments MaxReceiveStreamFlowControlWindow {C}.
Arguments MaxReceiveConnectionFlowControlWindow {C}.
Arguments KeepAlive {C}.
Arguments CacheHandshake {C}.
Arguments CreatePaths {C}.

(** [if v == 0 { v = d }] *)
Definition orDefault (v d : Z) : Z := if v =? 0 then d else v.

Section config.
Context {C : Type} (defaultAcceptCookie : C).

Definition versionsOrDefault (versions : list Z) : list Z :=
  match versions with [] => SupportedVersions | _ => versions end.

(** The fields that the result does not mention are zero. *)
Definition populateServerConfig (config : option (t C)) : t C :=
  let config := default (mk [] false 0 0 None 0 0 false false true) config in
  mk (versionsOrDefault config.(Versions)) false
    (orDefault config.(HandshakeTimeout) DefaultHandshakeTimeout)
    (orDefault config.(IdleTimeout) DefaultIdleTimeout)
    (Some (default defaultAcceptCookie config.(AcceptCookie)))
    (orDefault config.(MaxReceiveStreamFlowControlWindow) DefaultMaxReceiveStreamFlowControlWindowServer)
    (orDefault config.(MaxReceiveConnectionFlowControlWindow) DefaultMaxReceiveConnectionFlowControlWindowServer)
    config.(KeepAlive) false false.

Definition populateClientConfig (config : option (t C)) : t C :=
  let config := default (mk [] false 0 0 None 0 0 false false false) config in
  mk (versionsOrDefault config.(Versions)) config.(RequestConnectionIDTruncation)
    (orDefault config.(HandshakeTimeout) DefaultHandshakeTimeout)
    (orDefault config.(IdleTimeout) DefaultIdleTimeout)
    None
    (orDefault config.(MaxReceiveStreamFlowControlWindow) DefaultMaxReceiveStreamFlowControlWindowClient)
    (orDefault config.(MaxReceiveConnectionFlowControlWindow) DefaultMaxReceiveConnectionFlowControlWindowClient)
    config.(KeepAlive) config.(CacheHandshake) config.(CreatePaths).

(** What a session reads of it *)
Definition forSession (c : t C) : Config :=
  mkConfig c.(KeepAlive) c.(HandshakeTimeout) c.(IdleTimeout)
    c.(MaxReceiveStreamFlowControlWindow) c.(MaxReceiveConnectionFlowControlWindow).

End config.

End QuicConfig.

(** ** Sessions *)

(** [packetHandler], as far as servers and clients use it *)
Class PacketHandler (H : Type) : Type := {
  handlePacket : H -> receivedPacket -> H;
  GetVersion : H -> Z;
  RemoteAddr : H -> UDPAddr;
  closeRemote : H -> error -> H;
  Close : H -> option error -> H
}.

(** The interface's promises: the version of a session is fixed. *)
Class LawfulPacketHandler (H : Type) `{PacketHandler H} : Prop := {
  version_handlePacket h p : GetVersion (handlePacket h p) = GetVersion h;
  version_closeRemote h e : GetVersion (closeRemote h e) = GetVersion h;
  version_Close h e : GetVersion (Close h e) = GetVersion h
}.

#[global] Instance session_handler {S : Type} : PacketHandler (SessionLoop.t S) := {
  handlePacket := SessionLoop.handlePacket;
  GetVersion l := l.(SessionLoop.sess).(Session.version);
  RemoteAddr l := default (mkAddr [] 0) (snd <$> l.(SessionLoop.sess).(Session.pathAddrs) !! 0);
  closeRemote l e := SessionLoop.set_sess l (Session.closeRemote (Some e) l.(SessionLoop.sess)).1;
  Close l e := SessionLoop.set_sess l (Session.closeLocal e l.(SessionLoop.sess)).1
}.

#[global] Instance session_lawful {S : Type} : LawfulPacketHandler (SessionLoop.t S).
Proof.
  split.
  - intros h p. cbn. unfold SessionLoop.handlePacket. by case_match.
  - intros h e. cbn. by case_match.
  - intros h e. cbn. by case_match.
Qed.

(** [receivedRawPacket] *)
Record receivedRawPacket : Type := mkRaw {
  rawLocal : UDPAddr;
  rawRemote : UDPAddr;
  rawData : list Z;
  rawTime : option Z
}.

(** [hdr.Raw = packet[:len(packet)-r.Len()]] *)
Definition withRaw (hdr : PublicHeader.t) (raw : list Z) : PublicHeader.t :=
  PublicHeader.mk raw hdr.(PublicHeader.ConnectionID) hdr.(PublicHeader.PathID) hdr.(PublicHeader.VersionFlag)
    hdr.(PublicHeader.ResetFlag) hdr.(PublicHeader.TruncateConnectionID) hdr.(PublicHeader.MultipathFlag)
    hdr.(PublicHeader.PacketNumberLen) hdr.(PublicHeader.PacketNumber) hdr.(PublicHeader.VersionNumber)
    hdr.(PublicHeader.SupportedVersions) hdr.(PublicHeader.DiversificationNonce).

Definition headerBytes (packet rest : list Z) : list Z := take (length packet - length rest) packet.

(** The packet for the session; [hdr] and [rest] are what the header parser returned. *)
Definition toReceived (p : receivedRawPacket) (hdr : PublicHeader.t) (rest : list Z) : receivedPacket :=
  mkReceived p.(rawLocal) p.(rawRemote) (withRaw hdr (headerBytes p.(rawData) rest)) rest p.(rawTime).

Definition asBytes (w : wres) : list Z := match w with WOk b | WErr _ b => b | WPanic => [] end.

(** ** The server *)

Module QuicServer.

Section server.
Context {H C : Type} `{ph : PacketHandler H}.
(** [newSession]: the connection's addresses, whether paths are created, the version,
    the connection ID and the configuration *)
Context (newSession : UDPAddr -> UDPAddr -> bool -> Z -> Z -> QuicConfig.t C -> error + H).

(** [sessions] has [nil] for a session that was closed; [sessionQueue] are the IDs
    of the sessions that [Accept] may return, with those that wait for room. *)
Record t : Type := mk {
  config : QuicConfig.t C;
  sessions : gmap Z (option H);
  sessionQueue : list Z;
  serverError : option error;
  sent : list (UDPAddr * list Z)
}.

Definition New (config : QuicConfig.t C) : t := mk config ∅ [] None [].

Definition set_sessions (s : t) (m : gmap Z (option H)) : t :=
  mk s.(config) m s.(sessionQueue) s.(serverError) s.(sent).
Definition set_queue (s : t) (q : list Z) : t := mk s.(config) s.(sessions) q s.(serverError) s.(sent).
(** [pconn.WriteTo(b, addr)] *)
Definition WriteTo (s : t) (addr : UDPAddr) (b : list Z) : t :=
  mk s.(config) s.(sessions) s.(sessionQueue) s.(serverError) (s.(sent) ++ [(addr, b)]).

(** The rest of [handlePacket], once there is a session *)
Definition deliver (s : t) (connID : Z) (session : H) (p : receivedPacket) : t * res unit :=
  (set_sessions s (<[connID := Some (handlePacket session p)]> s.(sessions)), Ok tt).

(** The checks of a packet whose header was parsed; [session] is the one of its ID. *)
Definition handleHeader (s : t) (connID : Z) (session : option H) (raw : receivedRawPacket)
    (hdr : PublicHeader.t) (rest : list Z) : t * res unit :=
  let packet := raw.(rawData) in
  let p := toReceived raw hdr rest in
  let unsupported := hdr.(PublicHeader.VersionFlag)
                     && negb (IsSupportedVersion s.(config).(QuicConfig.Versions) hdr.(PublicHeader.VersionNumber)) in
  if hdr.(PublicHeader.ResetFlag) then
    match session, PublicReset.ParsePublicReset rest with
    | Some _, Panic => (s, Panic)
    | _, _ => (s, Ok tt)
    end
  else
    match session with
    | Some h => if unsupported then (s, Ok tt) else deliver s connID h p
    | None =>
        if unsupported then
          if Z.of_nat (length packet) <? ClientHelloMinimumSize + Z.of_nat (length (headerBytes packet rest))
          then (s, Err (ErrorsNew "dropping small packet with unknown version"))
          else (WriteTo s raw.(rawRemote)
                  (asBytes (ComposeVersionNegotiation hdr.(PublicHeader.ConnectionID) s.(config).(QuicConfig.Versions))),
                Ok tt)
        else if negb (IsSupportedVersion s.(config).(QuicConfig.Versions) hdr.(PublicHeader.VersionNumber))
        then (s, Err (ErrorsNew "Server BUG: negotiated version not supported"))
        else
          match newSession raw.(rawLocal) raw.(rawRemote) s.(config).(QuicConfig.CreatePaths)
                  hdr.(PublicHeader.VersionNumber) hdr.(PublicHeader.ConnectionID) s.(config) with
          | inl e => (s, Err e)
          | inr h => deliver s connID h p
          end
    end.

Definition handlePacket (s : t) (raw : receivedRawPacket) : t * res unit :=
  match PublicHeader.PeekConnectionID PerspectiveClient raw.(rawData) with
  | Err e => (s, Err (QuicErrorOf InvalidPacketHeader e))
  | Panic => (s, Panic)
  | Ok (connID, r) =>
      match s.(sessions) !! connID with
      | Some None => (s, Ok tt)
      | entry =>
          let session := mjoin entry in
          let version := match session with Some h => GetVersion h | None => VersionUnknown end in
          match PublicHeader.Parse PerspectiveClient version r with
          | Err e =>
              if decide (e = ErrPacketWithUnknownVersion)
              then (WriteTo s raw.(rawRemote) (asBytes (PublicReset.WritePublicReset connID 0 0)), Ok tt)
              else (s, Err (QuicErrorOf InvalidPacketHeader e))
          | Panic => (s, Panic)
          | Ok (hdr, rest) => handleHeader s connID session raw hdr rest
          end
      end
  end.

(** The session's [run] has returned; its entry stays for a minute. *)
Definition removeConnection (s : t) (id : Z) : t := set_sessions s (<[id := None]> s.(sessions)).
Definition deleteSession (s : t) (id : Z) : t := set_sessions s (delete id s.(sessions)).

(** The goroutine that reads the handshake events of a session: whether it queues the
    session, or [None] while it waits *)
Fixpoint awaitForwardSecure (evs : list (Z + error)) : option bool :=
  match evs with
  | [] => None
  | inr _ :: _ => Some false
  | inl encLevel :: evs => if encLevel =? EncryptionForwardSecure then Some true else awaitForwardSecure evs
  end.
Definition enqueue (s : t) (id : Z) (evs : list (Z + error)) : t :=
  match awaitForwardSecure evs with Some true => set_queue s (s.(sessionQueue) ++ [id]) | _ => s end.

(** [None] while it waits *)
Definition Accept (s : t) : t * option (error + Z) :=
  match s.(sessionQueue) with
  | id :: q => (set_queue s q, Some (inr id))
  | [] => (s, inl <$> s.(serverError))
  end.

Definition closeEntry (e : option H) : option H := option_map (fun h => Close h None) e.
(** Every session is closed; then [serve] has ended. *)
Definition CloseSessions (s : t) : t := 
  set_sessions s (closeEntry <$> s.(sessions)).
Definition connError (s : t) (e : error) : t :=
  let s := mk s.(config) s.(sessions) s.(sessionQueue) (Some e) s.(sent) in CloseSessions s.

(** *** Runs *)

(** A packet, the end of a session's loop, the minute after it, the events of a
    handshake, [Accept], an error of the sockets, [Close], and a step of a session,
    which keeps its version. *)
Inductive input : Type :=
| Packet (raw : receivedRawPacket)
| Ended (id : Z)
| Expired (id : Z)
| Events (id : Z) (evs : list (Z + error))
| Accepts
| Fails (e : error)
| Closes
| Works (id : Z) (f : H -> H).

Definition step (s : t) (i : input) : t :=
  match i with
  | Packet raw => (handlePacket s raw).1
  | Ended id => removeConnection s id
  | Expired id => deleteSession s id
  | Events id evs => enqueue s id evs
  | Accepts => (Accept s).1
  | Fails e => connError s e
  | Closes => CloseSessions s
  | Works id f => set_sessions s (alter (option_map f) id s.(sessions))
  end.

Definition run (s : t) (is_ : list input) : t := foldl step s is_.

End server.

Arguments t : clear implicits.
Arguments input : clear implicits.

End QuicServer.

(** ** The client *)

Definition InvalidVersion : Z := 20.
Definition PublicResetCode : Z := 19.

Module QuicClient.

Definition errCloseSessionForNewVersion : error :=
  ErrorsNew "closing session in order to recreate it with a new version".

Section client.
Context {H C : Type} `{ph : PacketHandler H}.
(** [newClientSession], with the versions of a version negotiation *)
Context (newClientSession : UDPAddr -> UDPAddr -> bool -> Z -> Z -> QuicConfig.t C -> list Z -> error + H).

(** [session] is [nil] when no session could be created; [replaced] is the session
    that was closed for a new version.  [versionNegotiationChan] is closed when
    [versionNegotiated] is set. *)
Record t : Type := mk {
  config : QuicConfig.t C;
  localAddr : UDPAddr;
  versionNegotiated : bool;
  receivedVersionNegotiationPacket : bool;
  connectionID : Z;
  version : Z;
  session : option H;
  replaced : option H
}.

Definition set_session (c : t) (h : option H) : t :=
  mk c.(config) c.(localAddr) c.(versionNegotiated) c.(receivedVersionNegotiationPacket) c.(connectionID) c.(version)
    h c.(replaced).
Definition set_negotiated (c : t) : t :=
  mk c.(config) c.(localAddr) true c.(receivedVersionNegotiationPacket) c.(connectionID) c.(version)
    c.(session) c.(replaced).
Definition set_receivedNegotiation (c : t) : t :=
  mk c.(config) c.(localAddr) c.(versionNegotiated) true c.(connectionID) c.(version) c.(session) c.(replaced).
Definition set_version (c : t) (v : Z) : t :=
  mk c.(config) c.(localAddr) c.(versionNegotiated) c.(receivedVersionNegotiationPacket) c.(connectionID) v
    c.(session) c.(replaced).
Definition set_connectionID (c : t) (id : Z) : t :=
  mk c.(config) c.(localAddr) c.(versionNegotiated) c.(receivedVersionNegotiationPacket) id c.(version)
    c.(session) c.(replaced).
Definition set_replaced (c : t) (h : option H) : t :=
  mk c.(config) c.(localAddr) c.(versionNegotiated) c.(receivedVersionNegotiationPacket) c.(connectionID) c.(version)
    c.(session) h.

Definition createNewSession (c : t) (negotiatedVersions : list Z) (remoteAddr : UDPAddr) : t * res unit :=
  match newClientSession c.(localAddr) remoteAddr c.(config).(QuicConfig.CreatePaths) c.(version) c.(connectionID)
          c.(config) negotiatedVersions with
  | inr h => (set_session c (Some h), Ok tt)
  | inl e => (set_session c None, Err e)
  end.

(** [DialNonFWSecure] up to the first session, for a configuration with defaults and
    a random connection ID *)
Definition Dial (config : QuicConfig.t C) (localAddr remoteAddr : UDPAddr) (connID : Z) : t * res unit :=
  match config.(QuicConfig.Versions) with
  | [] => (mk config localAddr false false connID 0 None None, Panic)
  | v :: _ => createNewSession (mk config localAddr false false connID v None None) [] remoteAddr
  end.

(** A method of a [nil] session *)
Definition withSession (c : t) (f : H -> H) : t * res unit :=
  match c.(session) with
  | Some h => (set_session c (Some (f h)), Ok tt)
  | None => (c, Panic)
  end.

(** [newID] is the result of [GenerateConnectionID]. *)
Definition handlePacketWithVersionFlag (c : t) (hdr : PublicHeader.t) (remoteAddr : UDPAddr) (newID : error + Z)
  : t * res unit :=
  if existsb (fun v => v =? c.(version)) hdr.(PublicHeader.SupportedVersions) then (c, Ok tt)
  else
    let c := set_receivedNegotiation c in
    let newVersion := ChooseSupportedVersion c.(config).(QuicConfig.Versions) hdr.(PublicHeader.SupportedVersions) in
    if newVersion =? VersionUnsupported then (c, Err (ErrorCode InvalidVersion))
    else
      let c := set_version c newVersion in
      match newID with
      | inl e => (set_connectionID c 0, Err e)
      | inr id =>
          let c := set_connectionID c id in
          match c.(session) with
          | None => (c, Panic)
          | Some oldSession =>
              let '(c, r) := createNewSession c hdr.(PublicHeader.SupportedVersions) remoteAddr in
              (set_replaced c (Some (Close oldSession (Some errCloseSessionForNewVersion))), r)
          end
      end.

Definition publicResetError (pr : PublicReset.t) : error :=
  QuicErrorf PublicResetCode "Received a Public Reset for packet number %#x" [pr.(PublicReset.RejectedPacketNumber)].

(** The packet after the checks of its header *)
Definition handleHeader (c : t) (raw : receivedRawPacket) (hdr : PublicHeader.t) (rest : list Z) (newID : error + Z)
  : t * res unit :=
  if hdr.(PublicHeader.ResetFlag) then
    match c.(session) with
    | None => (c, Panic)
    | Some h =>
        if negb (sameAddr (RemoteAddr h) raw.(rawRemote)) || negb (hdr.(PublicHeader.ConnectionID) =? c.(connectionID))
        then (c, Ok tt)
        else match PublicReset.ParsePublicReset rest with
             | Ok pr => withSession c (fun h => closeRemote h (publicResetError pr))
             | Err _ => (c, Ok tt)
             | Panic => (c, Panic)
             end
    end
  else if (c.(receivedVersionNegotiationPacket) || c.(versionNegotiated)) && hdr.(PublicHeader.VersionFlag) then (c, Ok tt)
  else
    let c := if negb hdr.(PublicHeader.VersionFlag) && negb c.(versionNegotiated) then set_negotiated c else c in
    if hdr.(PublicHeader.VersionFlag) then
      match handlePacketWithVersionFlag c hdr raw.(rawRemote) newID with
      | (c, Err e) => withSession c (fun h => Close h (Some e))
      | r => r
      end
    else withSession c (fun h => Endpoints.handlePacket h (toReceived raw hdr rest)).

Definition handlePacket (c : t) (raw : receivedRawPacket) (newID : error + Z) : t * res unit :=
  match PublicHeader.Parse PerspectiveServer c.(version) raw.(rawData) with
  | Err _ => (c, Ok tt)
  | Panic => (c, Panic)
  | Ok (hdr, rest) =>
      if hdr.(PublicHeader.TruncateConnectionID) && negb c.(config).(QuicConfig.RequestConnectionIDTruncation)
      then (c, Ok tt)
      else if negb hdr.(PublicHeader.TruncateConnectionID)
              && negb (hdr.(PublicHeader.ConnectionID) =? c.(connectionID)) then (c, Ok tt)
      else handleHeader c raw hdr rest newID
  end.

(** The loop of [listen]: a packet, or an error of the sockets *)
Definition connError (c : t) (e : error) : t * res unit := withSession c (fun h => Close h (Some e)).

(** The end of [establishSecureConnection]: what the first handshake event means *)
Definition secureResult (c : t) (ev : Z + error) : option error :=
  match ev with
  | inr e => Some e
  | inl encLevel =>
      if negb (UsesTLS c.(version)) && negb (encLevel =? EncryptionSecure)
      then Some (Errorf "Client BUG: Expected encryption level to be secure, was %s" [encLevel]) else None
  end.

(** *** Runs *)

Inductive input : Type :=
| Packet (raw : receivedRawPacket) (newID : error + Z)
| Fails (e : error)
| Works (f : H -> H).

Definition step (c : t) (i : input) : t * res unit :=
  match i with
  | Packet raw newID => handlePacket c raw newID
  | Fails e => connError c e
  | Works f => withSession c f
  end.

Fixpoint run (c : t) (is_ : list input) : t * res unit :=
  match is_ with
  | [] => (c, Ok tt)
  | i :: is_ => match step c i with (c, Ok _) => run c is_ | r => r end
  end.

End client.

Arguments t : clear implicits.
Arguments input : clear implicits.

End QuicClient.
