(* ===== verification/EndpointsProofs.v ===== *)
(** * Servers and clients: proofs ([Endpoints.v])

    Received bytes never make the server panic, and reach no session but the one of
    their connection ID; the version of a client settles; and a client and a server
    with a common version find one. *)

From S2P Require Import CryptoSetup.
From S2P Require Import Prelude ByteOrder Protocol WireHeader WireFrames WireStream WireAck.
From S2P Require Import PacketUnpacker MinMax AckReceived ConnParams FlowControl StreamSorter Stream StreamsMap.
From S2P Require Import StreamFramer RTTStats SentPackets Cubic Path PacketPacker PackerProofs Session Scheduler HandshakeMessage.
From S2P Require Import SessionStreams SessionProofs SessionLoop SessionLoopProofs Endpoints.

Module EndpointsProofs.

(** ** Headers *)

Section Headers.
Import PublicHeader.

Lemma rspec_ReadUint64 r : bytes_ok r -> rspec (fun _ r' => bytes_ok r') (ReadUint64 LittleEndian) r.
Proof.
  intros Hr. unfold rspec. destruct (le_lt_dec 8 (length r)) as [Hle|Hlt]; [|by rewrite bo_ReadUint64_short by done].
  rewrite <- (take_drop 8 r), bo_ReadUint64; [by apply Forall_drop|by apply Forall_take|rewrite length_take; lia].
Qed.

Lemma rspec_ReadUint32 r : bytes_ok r -> rspec (fun _ r' => bytes_ok r') (ReadUint32 LittleEndian) r.
Proof.
  intros Hr. unfold rspec. destruct (le_lt_dec 4 (length r)) as [Hle|Hlt]; [|by rewrite bo_ReadUint32_short by done].
  rewrite <- (take_drop 4 r), bo_ReadUint32; [by apply Forall_drop|by apply Forall_take|rewrite length_take; lia].
Qed.

Lemma rspec_ReadFull_bytes n r : bytes_ok r -> rspec (fun _ r' => bytes_ok r') (ReadFull n) r.
Proof. intros Hr. unfold rspec, ReadFull. repeat case_match; simplify_eq; try done. all: by apply Forall_drop. Qed.

(** Reading a header never panics and leaves bytes. *)
Lemma header_Parse_rspec pers v r : bytes_ok r -> rspec (fun _ r' => bytes_ok r') (Parse pers v) r.
Proof.
  intros Hr. unfold Parse. eapply rspec_bind; [by apply rspec_ReadByte|]. intros fb r1 [_ H1]. cbv zeta.
  apply rspec_guard. intros _. apply rspec_guard. intros _.
  eapply (rspec_bind (fun _ r' => bytes_ok r')); [apply rspec_if; intros _; [by apply rspec_ReadUint64|by apply rspec_ret]|].
  intros connID r2 H2. apply rspec_guard. intros _.
  eapply (rspec_bind (fun _ r' => bytes_ok r')); [apply rspec_if; intros _; [by apply rspec_ReadFull_bytes|by apply rspec_ret]|].
  intros nonce r3 H3. apply rspec_if; intros _.
  - eapply (rspec_bind (fun _ r' => bytes_ok r')); [done|]. intros len r4 H4. apply rspec_guard. intros _.
    eapply (rspec_bind (fun _ r' => bytes_ok r')); [by apply Forall_nil_2|]. intros vs r5 H5. by apply rspec_ret.
  - eapply (rspec_bind (fun _ r' => bytes_ok r')).
    { apply rspec_if; intros _; [|by apply rspec_ret]. eapply (rspec_bind (fun _ r' => bytes_ok r')); [by apply rspec_ReadUint32|].
      intros. by apply rspec_ret. }
    intros vn r4 H4. eapply (rspec_bind (fun _ r' => bytes_ok r')).
    { apply rspec_if; intros _; [|by apply rspec_ret]. eapply rspec_mono; [by apply rspec_ReadByte|]. by intros ? ? [_ ?]. }
    intros pathID r5 H5. eapply (rspec_bind (fun _ r' => bytes_ok r')); [|intros; by apply rspec_ret].
    apply rspec_if; intros Hpn; [|by apply rspec_ret]. rewrite Hpn.
    assert (Hl : exists n, readPacketNumberLen fb = Z.of_nat n /\ (n <= 8)%nat).
    { unfold readPacketNumberLen, PacketNumberLen6, PacketNumberLen4, PacketNumberLen2, PacketNumberLen1.
      repeat case_match; [exists 6%nat|exists 4%nat|exists 2%nat|exists 1%nat]; lia. }
    destruct Hl as (n & -> & Hn). eapply rspec_mono; [apply rspec_ReadUintN; [apply _|done..]|]. by intros ? ? [_ ?].
Qed.

Lemma PeekConnectionID_no_panic pers r : PeekConnectionID pers r <> Panic.
Proof.
  unfold PeekConnectionID. destruct r as [|fb r]; [done|]. cbn [ReadByte].
  pose proof (bo_ReadUint64_no_panic (bo:=LittleEndian) r) as Hp.
  repeat case_match; simplify_eq; done.
Qed.

Lemma PeekConnectionID_rest pers r id r' : PeekConnectionID pers r = Ok (id, r') -> r' = r.
Proof. unfold PeekConnectionID. destruct r as [|fb r]; [done|]. cbn [ReadByte]. repeat case_match; intros; by simplify_eq. Qed.

Lemma ParsePublicReset_no_panic r : bytes_ok r -> PublicReset.ParsePublicReset r <> Panic.
Proof.
  intros Hr. unfold PublicReset.ParsePublicReset. pose proof (HandshakeMessageProofs.Parse_valid r Hr) as Hp. unfold rspec in Hp.
  destruct (HandshakeMessage.ParseHandshakeMessage r) as [[msg r']| |]; [|done..].
  cbn. case_match; [|done]. unfold PublicReset.field. repeat case_match; done.
Qed.

(** A header with a version flag says how it is read. *)
Lemma Parse_version_flag pers v1 v2 fb r : (0 <? Z.land fb 0x01) = true -> (0 <? Z.land fb 0x02) = false ->
  Parse pers v1 (fb :: r) = Parse pers v2 (fb :: r).
Proof.
  intros H1 H2. unfold Parse. rewrite !(rbind_Ok _ _ _ _ _ (ReadByte_cons _ _)). cbv zeta. rewrite H1, H2.
  cbn [orb negb andb]. by rewrite !andb_false_r.
Qed.

(** Without a version, only a version flag or a reset flag is accepted. *)
Lemma Parse_unknown pers r hdr r' : Parse pers VersionUnknown r = Ok (hdr, r') ->
  hdr.(ResetFlag) = false -> hdr.(VersionFlag) = true.
Proof.
  intros HP. unfold Parse in HP. apply rbind_Ok_inv in HP as (fb & b1 & HB & HP). cbv zeta in HP.
  apply rbind_Ok_inv in HP as (? & ? & [Hg [= -> ->]]%rguard_Ok_inv & HP).
  change (VersionUnknown =? VersionUnknown) with true in Hg. cbn [andb] in Hg.
  assert (E : hdr.(ResetFlag) = (0 <? Z.land fb 0x02) /\ hdr.(VersionFlag) = (0 <? Z.land fb 0x01)).
  { rinv HP. case_match; rinv HP; cbv [mret reader_ret] in HP; by simplify_eq. }
  destruct E as [-> ->]. intros Hr. rewrite Hr, orb_false_r in Hg. by destruct (0 <? Z.land fb 1).
Qed.

End Headers.

(** ** The server *)

Section Server.
Context {H C : Type} `{ph : PacketHandler H}.
Context (newSession : UDPAddr -> UDPAddr -> bool -> Z -> Z -> QuicConfig.t C -> error + H).
Import QuicServer.

(** What becomes of the entry of a packet's connection ID *)
Definition delivered (s : QuicServer.t H C) (raw : receivedRawPacket) (connID : Z) (s' : QuicServer.t H C) : Prop :=
  match s.(sessions) !! connID with
  | Some None => s' = s
  | Some (Some h) =>
      s'.(sessions) = s.(sessions)
      \/ exists hdr rest, PublicHeader.Parse PerspectiveClient (GetVersion h) raw.(rawData) = Ok (hdr, rest)
         /\ hdr.(PublicHeader.ConnectionID) = connID
         /\ s'.(sessions) = <[connID := Some (Endpoints.handlePacket h (toReceived raw hdr rest))]> s.(sessions)
  | None =>
      s'.(sessions) = s.(sessions)
      \/ exists hdr rest h, PublicHeader.Parse PerspectiveClient VersionUnknown raw.(rawData) = Ok (hdr, rest)
         /\ hdr.(PublicHeader.ConnectionID) = connID /\ hdr.(PublicHeader.VersionFlag) = true
         /\ hdr.(PublicHeader.VersionNumber) ∈ s.(config).(QuicConfig.Versions)
         /\ newSession raw.(rawLocal) raw.(rawRemote) s.(config).(QuicConfig.CreatePaths)
              hdr.(PublicHeader.VersionNumber) connID s.(config) = inr h
         /\ s'.(sessions) = <[connID := Some (Endpoints.handlePacket h (toReceived raw hdr rest))]> s.(sessions)
  end.

(** Answers: at most one, to the sender, and then no session was touched *)
Definition answered (s : QuicServer.t H C) (raw : receivedRawPacket) (s' : QuicServer.t H C) : Prop :=
  s'.(sent) = s.(sent) \/ (exists b, s'.(sent) = s.(sent) ++ [(raw.(rawRemote), b)] /\ s'.(sessions) = s.(sessions)).

Lemma same_delivered s raw connID : delivered s raw connID s.
Proof. unfold delivered. destruct (s.(sessions) !! connID) as [[h|]|]; auto. Qed.

Lemma WriteTo_delivered s raw connID addr b : s.(sessions) !! connID <> Some None -> delivered s raw connID (WriteTo s addr b).
Proof. unfold delivered. destruct (s.(sessions) !! connID) as [[h|]|]; [|done|]; auto. Qed.

Lemma handleHeader_ok s raw connID hdr rest :
  bytes_ok rest -> s.(sessions) !! connID <> Some None ->
  let session := mjoin (s.(sessions) !! connID) in
  PublicHeader.Parse PerspectiveClient (match session with Some h => GetVersion h | None => VersionUnknown end) raw.(rawData)
    = Ok (hdr, rest) ->
  hdr.(PublicHeader.ConnectionID) = connID ->
  let r := handleHeader newSession s connID session raw hdr rest in
  r.2 <> Panic /\ delivered s raw connID r.1 /\ answered s raw r.1.
Proof.
  intros Hrest Hne session HP Hid. pose proof (ParsePublicReset_no_panic rest Hrest) as Hpr.
  assert (Hsame : delivered s raw connID s /\ answered s raw s) by (split; [apply same_delivered|by left]).
  unfold handleHeader. destruct hdr.(PublicHeader.ResetFlag) eqn:Hrf.
  { destruct session; [destruct (PublicReset.ParsePublicReset rest)|]; done. }
  unfold session in *. destruct (s.(sessions) !! connID) as [[h|]|] eqn:E; [|done|]; cbn [mjoin option_join] in *.
  - case_match; [done|]. split; [done|]. split; [|by left]. unfold delivered. rewrite E. right. by exists hdr, rest.
  - pose proof (Parse_unknown _ _ _ _ HP Hrf) as Hvf. rewrite Hvf. cbn [andb].
    destruct (IsSupportedVersion _ _) eqn:Hs; cbn [negb].
    + rewrite Hid. destruct (newSession _ _ _ _ _ _) as [e|h] eqn:En; [done|]. split; [done|]. split; [|by left].
      unfold delivered. rewrite E. right. exists hdr, rest, h. split_and!; try done. by apply IsSupportedVersion_In.
    + case_match; [done|]. split; [done|]. split; [apply WriteTo_delivered; by rewrite E|]. right. by eexists.
Qed.

Lemma handlePacket_ok s raw : bytes_ok raw.(rawData) ->
  let r := handlePacket newSession s raw in
  r.2 <> Panic /\ (r.1 = s \/ exists connID, PublicHeader.PeekConnectionID PerspectiveClient raw.(rawData) = Ok (connID, raw.(rawData))
    /\ delivered s raw connID r.1 /\ answered s raw r.1).
Proof.
  intros Hb. unfold handlePacket. pose proof (PeekConnectionID_no_panic PerspectiveClient raw.(rawData)) as Hnp.
  destruct (PublicHeader.PeekConnectionID PerspectiveClient raw.(rawData)) as [[connID r]|e|] eqn:Ep; [|by split; [|left]|done].
  pose proof (PeekConnectionID_rest _ _ _ _ Ep) as ->.
  destruct (s.(sessions) !! connID) as [[h|]|] eqn:E; [|by split; [|left]|]; cbn [mjoin option_join].
  all: set (session := mjoin (s.(sessions) !! connID)).
  all: match goal with |- context [PublicHeader.Parse _ ?v _] => pose proof (header_Parse_rspec PerspectiveClient v _ Hb) as Hs;
         unfold rspec in Hs; destruct (PublicHeader.Parse PerspectiveClient v raw.(rawData)) as [[hdr rest]|e|] eqn:HP; [| |done] end.
  all: try (case_decide; [|by split; [|left]]; split; [done|]; right; exists connID; split; [done|];
            split; [apply WriteTo_delivered; by rewrite E|right; by eexists]).
  all: assert (Hid : hdr.(PublicHeader.ConnectionID) = connID)
         by (pose proof (HeaderProofs.PeekConnectionID_agrees _ _ _ _ _ HP) as Ha; rewrite Ep in Ha; by simplify_eq).
  - destruct (handleHeader_ok s raw connID hdr rest Hs) as (H1 & H2); [by rewrite E|by rewrite E|done|].
    rewrite E in H1, H2. split; [exact H1|]. right. by exists connID.
  - destruct (handleHeader_ok s raw connID hdr rest Hs) as (H1 & H2); [by rewrite E|by rewrite E|done|].
    rewrite E in H1, H2. split; [exact H1|]. right. by exists connID.
Qed.

(** *** Runs *)

Context `{lph : !LawfulPacketHandler H}.
Context (Hnew : forall l r cp v id cfg h, newSession l r cp v id cfg = inr h -> GetVersion h = v).

(** Packets are bytes, and a session keeps its version. *)
Definition input_ok (i : QuicServer.input H) : Prop :=
  match i with
  | Packet raw => bytes_ok raw.(rawData)
  | Works _ f => forall h, GetVersion (f h) = GetVersion h
  | _ => True
  end.

Definition versions_ok (s : QuicServer.t H C) : Prop :=
  forall id h, s.(sessions) !! id = Some (Some h) -> GetVersion h ∈ s.(config).(QuicConfig.Versions).

Lemma delivered_versions s raw connID s' : s'.(config) = s.(config) ->
  delivered s raw connID s' -> versions_ok s -> versions_ok s'.
Proof using lph Hnew.
  intros Hc Hd Hv id h. rewrite Hc. unfold delivered in Hd. destruct (s.(sessions) !! connID) as [[h0|]|] eqn:E.
  - destruct Hd as [->|(hdr & rest & _ & _ & ->)]; [apply Hv|]. intros [[<- [= <-]]|[_ Hl]]%lookup_insert_Some; [|by apply (Hv id)].
    rewrite version_handlePacket. by apply (Hv connID).
  - subst. apply Hv.
  - destruct Hd as [->|(hdr & rest & h1 & _ & _ & _ & Hs & En & ->)]; [apply Hv|].
    intros [[<- [= <-]]|[_ Hl]]%lookup_insert_Some; [|by apply (Hv id)].
    rewrite version_handlePacket. by rewrite (Hnew _ _ _ _ _ _ _ En).
Qed.

Lemma handleHeader_config s connID session raw hdr rest : (handleHeader newSession s connID session raw hdr rest).1.(config) = s.(config).
Proof. unfold handleHeader, deliver. repeat case_match; done. Qed.

Lemma handlePacket_config s raw : (handlePacket newSession s raw).1.(config) = s.(config).
Proof. unfold handlePacket. repeat case_match; try done; apply handleHeader_config. Qed.

Lemma step_versions s i : input_ok i -> versions_ok s ->
  versions_ok (step newSession s i) /\ (step newSession s i).(config) = s.(config).
Proof using lph Hnew.
  intros Hi Hv. destruct i as [raw|id|id|id evs| |e| |id f]; cbn [step input_ok] in *.
  - pose proof (handlePacket_config s raw) as Hc. split; [|done].
    destruct (handlePacket_ok s raw Hi) as (_ & [E|(connID & _ & Hd & _)]); [by rewrite E|by eapply delivered_versions].
  - split; [|done]. intros x h. cbn. intros [[_ ?]|[_ Hl]]%lookup_insert_Some; [done|by apply (Hv x)].
  - split; [|done]. intros x h. cbn. intros [_ Hl]%lookup_delete_Some. by apply (Hv x).
  - unfold enqueue. by repeat case_match.
  - unfold Accept. by case_match.
  - split; [|done]. intros x h. cbn. rewrite lookup_fmap. intros ([h0|] & Hl & [= ->])%fmap_Some. rewrite version_Close. by apply (Hv x).
  - split; [|done]. intros x h. cbn. rewrite lookup_fmap. intros ([h0|] & Hl & [= ->])%fmap_Some. rewrite version_Close. by apply (Hv x).
  - split; [|done]. intros x h. cbn. intros [(-> & [h0|] & Hl & [= ->])|[_ Hl]]%lookup_alter_Some; [|by apply (Hv x)].
    rewrite Hi. by apply (Hv x).
Qed.

Lemma run_versions is_ : forall s, Forall input_ok is_ -> versions_ok s ->
  versions_ok (run newSession s is_) /\ (run newSession s is_).(config) = s.(config).
Proof using lph Hnew.
  induction is_ as [|i is_ IH]; intros s Hi Hv; cbn [run foldl]; [done|].
  inversion_clear Hi as [|? ? Hi1 Hi2]. destruct (step_versions s i Hi1 Hv) as [H1 E1].
  destruct (IH (step newSession s i) Hi2 H1) as [H2 E2]. split; [exact H2|]. by rewrite <- E1.
Qed.

End Server.

(** ** The client *)

Section Client.
Context {H C : Type} `{ph : PacketHandler H}.
Context (newClientSession : UDPAddr -> UDPAddr -> bool -> Z -> Z -> QuicConfig.t C -> list Z -> error + H).
Import QuicClient.

(** The client has seen an answer to the version it offered. *)
Definition settled (c : QuicClient.t H C) : bool := c.(receivedVersionNegotiationPacket) || c.(versionNegotiated).

(** Before it has settled nothing changes; once it has, neither version nor
    connection ID change again; the version is one of its own. *)
Definition settles (c c' : QuicClient.t H C) : Prop :=
  c'.(config) = c.(config)
  /\ (settled c = true -> settled c' = true /\ c'.(version) = c.(version) /\ c'.(connectionID) = c.(connectionID))
  /\ (settled c' = false -> c'.(version) = c.(version) /\ c'.(connectionID) = c.(connectionID))
  /\ (c.(version) ∈ c.(config).(QuicConfig.Versions) -> c'.(version) ∈ c.(config).(QuicConfig.Versions)).

Lemma settles_refl c : settles c c.
Proof. by split_and!. Qed.

Lemma settles_trans c1 c2 c3 : settles c1 c2 -> settles c2 c3 -> settles c1 c3.
Proof.
  intros (C1 & S1 & N1 & V1) (C2 & S2 & N2 & V2). split_and!.
  - congruence.
  - intros Hs. destruct (S1 Hs) as (Hs2 & <- & <-). by apply S2.
  - intros Hs. destruct (N2 Hs) as [-> ->]. apply N1. destruct (settled c2) eqn:E; [|done].
    destruct (S2 eq_refl) as [Hs3 _]. congruence.
  - intros Hv. rewrite <- C1. apply V2. rewrite C1. auto.
Qed.

(** A change of the session or of its replacement *)
Lemma settles_same c c' : c'.(config) = c.(config) -> settled c' = settled c -> c'.(version) = c.(version) ->
  c'.(connectionID) = c.(connectionID) -> settles c c'.
Proof. intros E1 E2 E3 E4. unfold settles. rewrite E1, E2, E3, E4. by split_and!. Qed.

Lemma withSession_settles c f : settles c (withSession c f).1.
Proof. unfold withSession. case_match; by apply settles_same. Qed.

Lemma createNewSession_fields c vs addr : let c' := (createNewSession newClientSession c vs addr).1 in
  c'.(config) = c.(config) /\ c'.(receivedVersionNegotiationPacket) = c.(receivedVersionNegotiationPacket)
  /\ c'.(versionNegotiated) = c.(versionNegotiated) /\ c'.(version) = c.(version) /\ c'.(connectionID) = c.(connectionID).
Proof. unfold createNewSession. by case_match. Qed.

Lemma chosen_version ours theirs : ChooseSupportedVersion ours theirs = VersionUnsupported
  \/ ChooseSupportedVersion ours theirs ∈ ours /\ ChooseSupportedVersion ours theirs ∈ theirs.
Proof.
  destruct (ChooseSupportedVersion_spec ours theirs) as [(pre & v & post & -> & Hv & _ & ->)|[_ ->]]; [right|by left].
  split; [apply elem_of_app; right; left|done].
Qed.

(** The client after a version negotiation packet has settled on one of its versions. *)
Lemma versionFlag_settles c hdr addr newID : settled c = false ->
  settles c (handlePacketWithVersionFlag newClientSession c hdr addr newID).1.
Proof.
  intros Hs. unfold handlePacketWithVersionFlag. case_match; [apply settles_refl|].
  assert (Hto : forall c', c'.(config) = c.(config) -> settled c' = true ->
    (c'.(version) = c.(version) \/ c'.(version) ∈ c.(config).(QuicConfig.Versions)) -> settles c c').
  { intros c' E1 E2 E3. split_and!; [done|congruence|congruence|]. intros Hv. by destruct E3 as [->|]. }
  destruct (Z.eqb_spec (ChooseSupportedVersion c.(config).(QuicConfig.Versions) hdr.(PublicHeader.SupportedVersions)) VersionUnsupported)
    as [|Hne]; cbn [set_receivedNegotiation config]; [rewrite (proj2 (Z.eqb_eq _ _)) by done; apply Hto; auto|].
  rewrite (proj2 (Z.eqb_neq _ _)) by done. destruct (chosen_version c.(config).(QuicConfig.Versions) hdr.(PublicHeader.SupportedVersions))
    as [|[Hin _]]; [done|].
  destruct newID as [e|id]; [apply Hto; auto|]. case_match; [|apply Hto; auto].
  match goal with |- context [createNewSession newClientSession ?x ?vs ?a] =>
    pose proof (createNewSession_fields x vs a) as (F1 & F2 & F3 & F4 & F5); destruct (createNewSession newClientSession x vs a) as [c' r] end.
  cbn [fst] in *. apply Hto; cbn [set_replaced config version]; [done|unfold settled; cbn; by rewrite F2|]. right. by rewrite F4.
Qed.

Lemma handleHeader_settles c raw hdr rest newID : settles c (handleHeader newClientSession c raw hdr rest newID).1.
Proof.
  unfold handleHeader. case_match.
  { repeat case_match; try apply settles_refl. apply withSession_settles. }
  fold (settled c). destruct (settled c && hdr.(PublicHeader.VersionFlag)) eqn:E; [apply settles_refl|].
  destruct hdr.(PublicHeader.VersionFlag); cbn [negb andb].
  - rewrite andb_true_r in E. pose proof (versionFlag_settles c hdr raw.(rawRemote) newID E) as Hv.
    destruct (handlePacketWithVersionFlag _ _ _ _ _) as [c' [| |]]; [exact Hv| |exact Hv].
    eapply settles_trans; [exact Hv|]. apply withSession_settles.
  - eapply settles_trans; [|apply withSession_settles]. case_match; [|apply settles_refl].
    split_and!; [done|..|done]; try done. unfold settled. cbn. rewrite orb_true_r. done.
Qed.

Lemma step_settles c i : settles c (step newClientSession c i).1.
Proof.
  destruct i as [raw newID|e|f]; cbn [step]; [|apply withSession_settles..].
  unfold handlePacket. repeat case_match; try apply settles_refl. apply handleHeader_settles.
Qed.

Lemma run_settles is_ : forall c, settles c (run newClientSession c is_).1.
Proof.
  induction is_ as [|i is_ IH]; intros c; cbn [run]; [apply settles_refl|].
  pose proof (step_settles c i) as Hs. destruct (step newClientSession c i) as [c' [[]| |]]; [|exact Hs..].
  eapply settles_trans; [exact Hs|apply IH].
Qed.

End Client.

(** ** Version negotiation between a client and a server *)

Section Negotiation.
Import HeaderProofs.

(** The server reads a packet with a version flag without knowing the connection. *)
Lemma first_packet_parsed h payload : regular h PerspectiveClient -> h.(PublicHeader.VersionFlag) = true ->
  let data := enc h h.(PublicHeader.VersionNumber) PerspectiveClient ++ payload in
  PublicHeader.PeekConnectionID PerspectiveClient data = Ok (h.(PublicHeader.ConnectionID), data)
  /\ PublicHeader.Parse PerspectiveClient VersionUnknown data = Ok (received h, payload).
Proof.
  intros Hreg Hvf data.
  assert (HP : PublicHeader.Parse PerspectiveClient h.(PublicHeader.VersionNumber) data = Ok (received h, payload)).
  { apply header_Parse_enc; [done| |unfold pn_version; by rewrite Hvf]. destruct Hreg as (_ & _ & _ & _ & _ & _ & _ & Hv & _).
    rewrite Hvf in Hv. unfold VersionUnknown. lia. }
  split; [exact (PeekConnectionID_agrees _ _ _ _ _ HP)|].
  rewrite <- HP. destruct (flag_bits h PerspectiveClient Hreg) as (F2 & F1 & _).
  unfold data, enc. cbn [app]. apply Parse_version_flag; [by rewrite F1|by rewrite F2; apply Hreg].
Qed.

Lemma headerBytes_length hd rest : length (headerBytes (hd ++ rest) rest) = length hd.
Proof. unfold headerBytes. rewrite length_take, length_app. lia. Qed.

Section Both.
Context {HS CS : Type} `{phs : PacketHandler HS} {HC CC : Type} `{phc : PacketHandler HC}.
Context (newSession : UDPAddr -> UDPAddr -> bool -> Z -> Z -> QuicConfig.t CS -> error + HS).
Context (newClientSession : UDPAddr -> UDPAddr -> bool -> Z -> Z -> QuicConfig.t CC -> list Z -> error + HC).

Lemma server_unsupported (s : QuicServer.t HS CS) h payload sa ca t1 :
  regular h PerspectiveClient -> h.(PublicHeader.VersionFlag) = true ->
  IsSupportedVersion s.(QuicServer.config).(QuicConfig.Versions) h.(PublicHeader.VersionNumber) = false ->
  s.(QuicServer.sessions) !! h.(PublicHeader.ConnectionID) = None -> ClientHelloMinimumSize <= Z.of_nat (length payload) ->
  QuicServer.handlePacket newSession s
    (mkRaw sa ca (enc h h.(PublicHeader.VersionNumber) PerspectiveClient ++ payload) t1)
  = (QuicServer.WriteTo s ca (asBytes (ComposeVersionNegotiation h.(PublicHeader.ConnectionID)
       s.(QuicServer.config).(QuicConfig.Versions))), Ok tt).
Proof.
  intros Hreg Hvf Hs Hfree Hlen. destruct (first_packet_parsed h payload Hreg Hvf) as [Hpeek HP].
  unfold QuicServer.handlePacket. cbn [rawData rawLocal rawRemote]. rewrite Hpeek, Hfree. cbn [mjoin option_join]. rewrite HP.
  unfold QuicServer.handleHeader. cbn [received PublicHeader.ResetFlag PublicHeader.VersionFlag PublicHeader.VersionNumber
    PublicHeader.ConnectionID rawData rawRemote].
  rewrite (proj1 Hreg), Hvf, Hs. cbn [negb andb]. rewrite headerBytes_length, length_app.
  by rewrite (proj2 (Z.ltb_ge _ _)) by lia.
Qed.

Lemma server_supported (s : QuicServer.t HS CS) h payload sa ca t1 hs :
  regular h PerspectiveClient -> h.(PublicHeader.VersionFlag) = true ->
  IsSupportedVersion s.(QuicServer.config).(QuicConfig.Versions) h.(PublicHeader.VersionNumber) = true ->
  s.(QuicServer.sessions) !! h.(PublicHeader.ConnectionID) = None ->
  newSession sa ca s.(QuicServer.config).(QuicConfig.CreatePaths) h.(PublicHeader.VersionNumber) h.(PublicHeader.ConnectionID)
    s.(QuicServer.config) = inr hs ->
  exists p, QuicServer.handlePacket newSession s
      (mkRaw sa ca (enc h h.(PublicHeader.VersionNumber) PerspectiveClient ++ payload) t1)
    = (QuicServer.set_sessions s (<[h.(PublicHeader.ConnectionID) := Some (Endpoints.handlePacket hs p)]> s.(QuicServer.sessions)), Ok tt)
    /\ p.(Session.data) = payload /\ p.(Session.remoteAddr) = ca.
Proof.
  intros Hreg Hvf Hs Hfree Hnew. destruct (first_packet_parsed h payload Hreg Hvf) as [Hpeek HP].
  eexists. split; [|split]. unfold QuicServer.handlePacket. cbn [rawData rawLocal rawRemote].
  rewrite Hpeek, Hfree. cbn [mjoin option_join]. rewrite HP. unfold QuicServer.handleHeader, QuicServer.deliver.
  cbn [received PublicHeader.ResetFlag PublicHeader.VersionFlag PublicHeader.VersionNumber PublicHeader.ConnectionID rawLocal rawRemote].
  rewrite (proj1 Hreg), Hvf, Hs. cbn [negb andb]. rewrite Hnew. reflexivity. all: reflexivity.
Qed.

Lemma client_switches (c : QuicClient.t HC CC) old versions sa ca b t2 newID hn :
  c.(QuicClient.session) = Some old -> settled c = false ->
  1 <= c.(QuicClient.connectionID) < 2 ^ 64 -> Forall (fun v => 0 <= v < 1000) versions ->
  ComposeVersionNegotiation c.(QuicClient.connectionID) versions = WOk b ->
  c.(QuicClient.version) ∉ versions ->
  ChooseSupportedVersion c.(QuicClient.config).(QuicConfig.Versions) versions <> VersionUnsupported ->
  newClientSession c.(QuicClient.localAddr) sa c.(QuicClient.config).(QuicConfig.CreatePaths)
    (ChooseSupportedVersion c.(QuicClient.config).(QuicConfig.Versions) versions) newID c.(QuicClient.config) versions = inr hn ->
  exists c', QuicClient.handlePacket newClientSession c (mkRaw ca sa b t2) (inr newID) = (c', Ok tt)
    /\ c'.(QuicClient.version) = ChooseSupportedVersion c.(QuicClient.config).(QuicConfig.Versions) versions
    /\ c'.(QuicClient.connectionID) = newID /\ c'.(QuicClient.session) = Some hn
    /\ c'.(QuicClient.replaced) = Some (Close old (Some QuicClient.errCloseSessionForNewVersion)) /\ settled c' = true.
Proof.
  intros Hold Hset Hid Hv Hb Hnot Hch Hnew. destruct (VersionNegotiation_roundtrip _ versions c.(QuicClient.version) Hid Hv) as (b' & Eb & HP).
  rewrite Hb in Eb. injection Eb as <-. unfold QuicClient.handlePacket. cbn [rawData]. rewrite HP.
  cbn [PublicHeader.TruncateConnectionID PublicHeader.ConnectionID negb andb]. rewrite Z.eqb_refl. cbn [negb].
  unfold QuicClient.handleHeader. cbn [PublicHeader.ResetFlag PublicHeader.VersionFlag]. fold (settled c). rewrite Hset. cbn [negb andb].
  unfold QuicClient.handlePacketWithVersionFlag. cbn [PublicHeader.SupportedVersions].
  assert (Ex : existsb (fun v => v =? c.(QuicClient.version)) versions = false).
  { apply not_true_is_false. intros (v & Hin & Heq%Z.eqb_eq)%existsb_exists. subst. apply Hnot. by apply list_elem_of_In. }
  rewrite Ex. cbv zeta. unfold QuicClient.set_receivedNegotiation, QuicClient.set_version, QuicClient.set_connectionID.
  cbn [QuicClient.config]. rewrite (proj2 (Z.eqb_neq _ _)) by done.
  cbn [QuicClient.session]. rewrite Hold. unfold QuicClient.createNewSession.
  cbn [QuicClient.localAddr QuicClient.config QuicClient.version QuicClient.connectionID rawRemote]. rewrite Hnew.
  eexists. split; [reflexivity|]. done.
Qed.

End Both.

End Negotiation.

(** ** Theorems *)

(** C11: what the server does with any bytes it receives.  After every run of the
    server, each of its sessions has one of the configured versions.  A received
    packet never makes it panic.  If the server changes at all, the packet has a
    connection ID, and only the entry of this ID may change: a session that was
    closed gets nothing, an open one is handed the packet with its parsed header,
    and a new one is created only for a packet that offers a configured version,
    with this version, this ID and the sender's address.  The server writes at most
    one packet, to the sender, and then touches no session. *)
Theorem server_serves {H C : Type} `{ph : PacketHandler H} `{lph : !LawfulPacketHandler H}
  (newSession : UDPAddr -> UDPAddr -> bool -> Z -> Z -> QuicConfig.t C -> error + H)
  (Hnew : forall l r cp v id cfg h, newSession l r cp v id cfg = inr h -> GetVersion h = v)
  (config : QuicConfig.t C) (is_ : list (QuicServer.input H)) (raw : receivedRawPacket)
  (Hin : Forall input_ok is_) (Hraw : bytes_ok raw.(rawData)) :
  let s := QuicServer.run newSession (QuicServer.New config) is_ in
  let r := QuicServer.handlePacket newSession s raw in
  (forall id h, s.(QuicServer.sessions) !! id = Some (Some h) -> GetVersion h ∈ config.(QuicConfig.Versions))
  /\ r.2 <> Panic
  /\ (r.1 = s \/ exists connID, PublicHeader.PeekConnectionID PerspectiveClient raw.(rawData) = Ok (connID, raw.(rawData))
        /\ delivered newSession s raw connID r.1 /\ answered s raw r.1).
Proof.
  cbv zeta. destruct (run_versions newSession Hnew is_ (QuicServer.New config) Hin) as [Hv Hc].
  { intros id h. cbn. by rewrite lookup_empty. }
  split; [|by apply handlePacket_ok]. intros id h E. pose proof (Hv id h E) as Hvi. by rewrite Hc in Hvi.
Qed.

(** C31: a client's version settles.  Whatever packets arrive, in whatever order, the
    client uses one of its configured versions.  It keeps the version and the
    connection ID it started with until it has seen an answer, a regular packet or
    a version negotiation; after that neither changes, so that late, repeated or
    forged version negotiation packets have no effect. *)
Theorem client_version_settles {H C : Type} `{ph : PacketHandler H}
  (newClientSession : UDPAddr -> UDPAddr -> bool -> Z -> Z -> QuicConfig.t C -> list Z -> error + H)
  (c : QuicClient.t H C) (before after : list (QuicClient.input H)) (c1 : QuicClient.t H C)
  (Hv : c.(QuicClient.version) ∈ c.(QuicClient.config).(QuicConfig.Versions))
  (Hbefore : QuicClient.run newClientSession c before = (c1, Ok tt)) :
  let c2 := (QuicClient.run newClientSession c1 after).1 in
  c2.(QuicClient.version) ∈ c.(QuicClient.config).(QuicConfig.Versions)
  /\ (settled c2 = false -> c2.(QuicClient.version) = c.(QuicClient.version)
        /\ c2.(QuicClient.connectionID) = c.(QuicClient.connectionID))
  /\ (settled c1 = true -> c2.(QuicClient.version) = c1.(QuicClient.version)
        /\ c2.(QuicClient.connectionID) = c1.(QuicClient.connectionID)).
Proof.
  pose proof (run_settles newClientSession before c) as H1. rewrite Hbefore in H1. cbn [fst] in H1.
  pose proof (run_settles newClientSession after c1) as H2. cbv zeta. set (c2 := (QuicClient.run newClientSession c1 after).1) in *.
  destruct (settles_trans _ _ _ H1 H2) as (_ & _ & HN & HV). split; [by apply HV|]. split; [exact HN|].
  intros Hs. destruct H2 as (_ & HS & _). by destruct (HS Hs) as (_ & ? & ?).
Qed.

(** C6: version negotiation between a client and a server.  A client offers, in a
    packet long enough for a hello, a version that the server does not support; the
    two have another version in common.  The server answers with one packet and
    creates no session.  When this packet reaches the client, it switches to the
    first of its versions that the server supports, under a new connection ID and
    with a new session, and closes the old one.  The packets of the new session are
    then accepted by the server, which creates a session with the same version and
    hands it the payload. *)
Theorem version_negotiated {HS CS HC CC : Type} `{phs : PacketHandler HS} `{phc : PacketHandler HC}
  (newSession : UDPAddr -> UDPAddr -> bool -> Z -> Z -> QuicConfig.t CS -> error + HS)
  (newClientSession : UDPAddr -> UDPAddr -> bool -> Z -> Z -> QuicConfig.t CC -> list Z -> error + HC)
  (s : QuicServer.t HS CS) (c : QuicClient.t HC CC) (old : HC) (sa ca : UDPAddr) (t1 t2 t3 : option Z)
  (h1 h2 : PublicHeader.t) (payload1 payload2 : list Z) (newID : Z) (hn : HC) (hs : HS) (common : Z)
  (Hold : c.(QuicClient.session) = Some old) (Hset : settled c = false)
  (Hsv : Forall (fun v => 0 <= v < 1000) s.(QuicServer.config).(QuicConfig.Versions))
  (Hc : common ∈ c.(QuicClient.config).(QuicConfig.Versions)) (Hs : common ∈ s.(QuicServer.config).(QuicConfig.Versions))
  (Hnot : c.(QuicClient.version) ∉ s.(QuicServer.config).(QuicConfig.Versions))
  (Hreg1 : HeaderProofs.regular h1 PerspectiveClient) (Hvf1 : h1.(PublicHeader.VersionFlag) = true)
  (Hv1 : h1.(PublicHeader.VersionNumber) = c.(QuicClient.version))
  (Hid1 : h1.(PublicHeader.ConnectionID) = c.(QuicClient.connectionID))
  (Hlen : ClientHelloMinimumSize <= Z.of_nat (length payload1))
  (Hfree1 : s.(QuicServer.sessions) !! c.(QuicClient.connectionID) = None)
  (v := ChooseSupportedVersion c.(QuicClient.config).(QuicConfig.Versions) s.(QuicServer.config).(QuicConfig.Versions))
  (Hnewc : newClientSession c.(QuicClient.localAddr) sa c.(QuicClient.config).(QuicConfig.CreatePaths) v newID
             c.(QuicClient.config) s.(QuicServer.config).(QuicConfig.Versions) = inr hn)
  (Hreg2 : HeaderProofs.regular h2 PerspectiveClient) (Hvf2 : h2.(PublicHeader.VersionFlag) = true)
  (Hv2 : h2.(PublicHeader.VersionNumber) = v) (Hid2 : h2.(PublicHeader.ConnectionID) = newID)
  (Hfree2 : s.(QuicServer.sessions) !! newID = None)
  (Hnews : newSession sa ca s.(QuicServer.config).(QuicConfig.CreatePaths) v newID s.(QuicServer.config) = inr hs) :
  exists b c' s' p,
    QuicServer.handlePacket newSession s
      (mkRaw sa ca (HeaderProofs.enc h1 c.(QuicClient.version) PerspectiveClient ++ payload1) t1)
    = (QuicServer.WriteTo s ca b, Ok tt)
    /\ QuicClient.handlePacket newClientSession c (mkRaw ca sa b t2) (inr newID) = (c', Ok tt)
    /\ c'.(QuicClient.version) = v /\ v ∈ c.(QuicClient.config).(QuicConfig.Versions)
    /\ v ∈ s.(QuicServer.config).(QuicConfig.Versions) /\ c'.(QuicClient.connectionID) = newID
    /\ c'.(QuicClient.session) = Some hn
    /\ c'.(QuicClient.replaced) = Some (Close old (Some QuicClient.errCloseSessionForNewVersion)) /\ settled c' = true
    /\ QuicServer.handlePacket newSession (QuicServer.WriteTo s ca b)
         (mkRaw sa ca (HeaderProofs.enc h2 v PerspectiveClient ++ payload2) t3) = (s', Ok tt)
    /\ s'.(QuicServer.sessions) = <[newID := Some (Endpoints.handlePacket hs p)]> s.(QuicServer.sessions)
    /\ p.(Session.data) = payload2 /\ p.(Session.remoteAddr) = ca.
Proof.
  assert (Hch : v <> VersionUnsupported /\ v ∈ c.(QuicClient.config).(QuicConfig.Versions) /\ v ∈ s.(QuicServer.config).(QuicConfig.Versions)).
  { unfold v. destruct (ChooseSupportedVersion_spec c.(QuicClient.config).(QuicConfig.Versions) s.(QuicServer.config).(QuicConfig.Versions))
      as [(pre & w & post & E & Hw & _ & ->)|[Hn _]]; [|by destruct (Hn common)].
    split_and!; [|rewrite E; apply elem_of_app; right; left|done].
    apply (proj1 (Forall_forall _ _) Hsv) in Hw. unfold VersionUnsupported. lia. }
  destruct Hch as (Hch & Hvc & Hvs).
  assert (Hid : 1 <= c.(QuicClient.connectionID) < 2 ^ 64).
  { rewrite <- Hid1. destruct Hreg1 as (_ & _ & _ & _ & Ht & _). destruct h1.(PublicHeader.TruncateConnectionID); [by destruct Ht|exact Ht]. }
  destruct (HeaderProofs.VersionNegotiation_roundtrip c.(QuicClient.connectionID) _ c.(QuicClient.version) Hid Hsv) as (b & Eb & _).
  destruct (client_switches newClientSession c old _ sa ca b t2 newID hn Hold Hset Hid Hsv Eb Hnot Hch Hnewc)
    as (c' & E1 & E2 & E3 & E4 & E5 & E6).
  rewrite <- Hv2, <- Hid2 in Hnews. rewrite <- Hid2 in Hfree2.
  destruct (server_supported newSession (QuicServer.WriteTo s ca b) h2 payload2 sa ca t3 hs Hreg2 Hvf2) as (p & Ep & Hd & Hr); [|done..|].
  { apply IsSupportedVersion_In. by rewrite Hv2. }
  rewrite Hv2, Hid2 in Ep. exists b, c'. eexists. exists p.
  split; [|split; [exact E1|]; do 7 (split; [done|]); split; [exact Ep|by split]].
  rewrite <- Hv1. rewrite (server_unsupported newSession s h1 payload1 sa ca t1 Hreg1 Hvf1); [by rewrite Hid1, Eb| |by rewrite Hid1|done].
  rewrite Hv1. apply not_true_is_false. by intros ?%IsSupportedVersion_In.
Qed.

(** ** Examples *)

Section Examples.
Import SessionLoopProofs.

(** Sessions of the session loop *)
Definition demo_newSession (loc rem : UDPAddr) (cp : bool) (v id : Z) (cfg : QuicConfig.t unit)
  : error + SessionLoop.t CubicSender.t :=
  inr (SessionLoop.setup demo_controller PerspectiveServer v cp id (QuicConfig.forSession cfg) loc rem [] [] [] 0).
Definition demo_newClientSession (loc rem : UDPAddr) (cp : bool) (v id : Z) (cfg : QuicConfig.t unit) (vs : list Z)
  : error + SessionLoop.t CubicSender.t :=
  inr (SessionLoop.setup demo_controller PerspectiveClient v cp id (QuicConfig.forSession cfg) loc rem [] [] [] 0).

Definition demo_server_config : QuicConfig.t unit :=
  QuicConfig.populateServerConfig tt (Some (QuicConfig.mk [Version39; Version38] false 0 0 None 0 0 false false true)).
Definition demo_client_config : QuicConfig.t unit := QuicConfig.populateClientConfig None.

Definition demo_server : QuicServer.t (SessionLoop.t CubicSender.t) unit := QuicServer.New demo_server_config.
Definition demo_client : QuicClient.t (SessionLoop.t CubicSender.t) unit :=
  (QuicClient.Dial demo_newClientSession demo_client_config (demo_addr 2) (demo_addr 1) 0x1111).1.

(** The first packet of a client with the version [v] *)
Definition demo_hello (id v : Z) : PublicHeader.t := PublicHeader.mk [] id 0 true false false false 1 1 v [] [].
Definition demo_first (id v : Z) : receivedRawPacket :=
  mkRaw (demo_addr 1) (demo_addr 2)
    (HeaderProofs.enc (demo_hello id v) v PerspectiveClient ++ replicate 1024 0) (Some 0).

Lemma demo_hello_regular id v : 1 <= id < 2 ^ 64 -> 0 <= v < 1000 -> HeaderProofs.regular (demo_hello id v) PerspectiveClient.
Proof. intros Hid Hv. unfold HeaderProofs.regular, pnlen_ok, in_width. cbn. repeat split; (lia || by auto). Qed.

Lemma version_negotiated_witness :
  exists b c' (s' : QuicServer.t (SessionLoop.t CubicSender.t) unit) p,
    QuicServer.handlePacket demo_newSession demo_server (demo_first 0x1111 VersionMP)
    = (QuicServer.WriteTo demo_server (demo_addr 2) b, Ok tt)
    /\ QuicClient.handlePacket demo_newClientSession demo_client (mkRaw (demo_addr 2) (demo_addr 1) b (Some 1)) (inr 0x2222)
       = (c', Ok tt)
    /\ c'.(QuicClient.version) = Version39
    /\ s'.(QuicServer.sessions) !! 0x2222 = Some (Some p).
Proof.
  destruct (version_negotiated demo_newSession demo_newClientSession demo_server demo_client
    (SessionLoop.setup demo_controller PerspectiveClient VersionMP false 0x1111 (QuicConfig.forSession demo_client_config)
       (demo_addr 2) (demo_addr 1) [] [] [] 0)
    (demo_addr 1) (demo_addr 2) (Some 0) (Some 1) (Some 2)
    (demo_hello 0x1111 VersionMP) (demo_hello 0x2222 Version39) (replicate 1024 0) (replicate 1024 0) 0x2222
    (SessionLoop.setup demo_controller PerspectiveClient Version39 false 0x2222 (QuicConfig.forSession demo_client_config)
       (demo_addr 2) (demo_addr 1) [] [] [] 0)
    (SessionLoop.setup demo_controller PerspectiveServer Version39 false 0x2222 (QuicConfig.forSession demo_server_config)
       (demo_addr 1) (demo_addr 2) [] [] [] 0) Version39)
    as (b & c' & s' & p & E1 & E2 & E3 & _ & _ & _ & _ & _ & _ & _ & E5 & _).
  - vm_compute. reflexivity.
  - vm_compute. reflexivity.
  - vm_compute. repeat constructor; discriminate.
  - apply IsSupportedVersion_In. vm_compute. reflexivity.
  - apply IsSupportedVersion_In. vm_compute. reflexivity.
  - intros Hin%IsSupportedVersion_In. vm_compute in Hin. discriminate.
  - apply demo_hello_regular; vm_compute; split; (discriminate || reflexivity).
  - reflexivity.
  - vm_compute. reflexivity.
  - vm_compute. reflexivity.
  - vm_compute. discriminate.
  - vm_compute. reflexivity.
  - vm_compute. reflexivity.
  - apply demo_hello_regular; vm_compute; split; (discriminate || reflexivity).
  - reflexivity.
  - vm_compute. reflexivity.
  - reflexivity.
  - vm_compute. reflexivity.
  - vm_compute. reflexivity.
  - exists b, c', s', (Endpoints.handlePacket (SessionLoop.setup demo_controller PerspectiveServer Version39 false 0x2222
      (QuicConfig.forSession demo_server_config) (demo_addr 1) (demo_addr 2) [] [] [] 0) p).
    split; [exact E1|]. split; [exact E2|]. split; [rewrite E3; vm_compute; reflexivity|].
    rewrite E5. apply lookup_insert_eq.
Defined.

(** A server with two clients, one of which was closed *)
Definition demo_server_run : list (QuicServer.input (SessionLoop.t CubicSender.t)) :=
  [QuicServer.Packet (demo_first 0x3333 Version39); QuicServer.Packet (demo_first 0x4444 Version38);
   QuicServer.Packet (demo_first 0x5555 VersionMP);
   QuicServer.Works 0x3333 (fun l => SessionLoop.set_receivedPackets l []);
   QuicServer.Ended 0x4444].

Lemma demo_first_bytes id v : bytes_ok (HeaderProofs.enc (demo_hello id v) v PerspectiveClient) -> bytes_ok (rawData (demo_first id v)).
Proof. intros Hh. apply Forall_app. split; [exact Hh|]. apply Forall_replicate. split; [lia|done]. Qed.

Lemma server_serves_witness :
  let s := QuicServer.run demo_newSession demo_server demo_server_run in
  size s.(QuicServer.sessions) = 2%nat /\ length s.(QuicServer.sent) = 1%nat
  /\ (QuicServer.handlePacket demo_newSession s (demo_first 0x4444 Version38)).1 = s
  /\ (QuicServer.handlePacket demo_newSession s (demo_first 0x3333 Version39)).2 <> Panic.
Proof.
  cbv zeta. split; [vm_compute; reflexivity|]. split; [vm_compute; reflexivity|]. split; [vm_compute; reflexivity|].
  destruct (server_serves demo_newSession) with (config := demo_server_config) (is_ := demo_server_run)
    (raw := demo_first 0x3333 Version39) as (_ & Hp & _).
  - intros l r cp v id cfg h E. injection E as <-. reflexivity.
  - unfold demo_server_run. do 3 (apply Forall_cons_2; [apply demo_first_bytes; vm_compute; repeat constructor; discriminate|]).
    apply Forall_cons_2; [intros h; reflexivity|]. apply Forall_cons_2; [exact I|apply Forall_nil_2].
  - apply demo_first_bytes. vm_compute. repeat constructor; discriminate.
  - exact Hp.
Defined.

(** A client that was answered ignores version negotiation packets. *)
Definition demo_answer : receivedRawPacket :=
  mkRaw (demo_addr 2) (demo_addr 1) [8; 0x11; 0x11; 0; 0; 0; 0; 0; 0; 1; 7] (Some 1).
Definition demo_late : receivedRawPacket :=
  mkRaw (demo_addr 2) (demo_addr 1) (asBytes (ComposeVersionNegotiation 0x1111 [Version38])) (Some 2).

Lemma client_version_settles_witness :
  (QuicClient.run demo_newClientSession
     (QuicClient.run demo_newClientSession demo_client [QuicClient.Packet demo_answer (inr 1)]).1
     [QuicClient.Packet demo_late (inr 2)]).1.(QuicClient.version) = VersionMP
  /\ (QuicClient.run demo_newClientSession demo_client [QuicClient.Packet demo_late (inr 2)]).1.(QuicClient.version) = Version38.
Proof.
  split; [|vm_compute; reflexivity].
  destruct (client_version_settles demo_newClientSession demo_client [QuicClient.Packet demo_answer (inr 1)]
    [QuicClient.Packet demo_late (inr 2)]
    (QuicClient.run demo_newClientSession demo_client [QuicClient.Packet demo_answer (inr 1)]).1) as (_ & _ & Hv).
  - apply IsSupportedVersion_In. vm_compute. reflexivity.
  - vm_compute. reflexivity.
  - destruct Hv as [Hv _]; [vm_compute; reflexivity|]. rewrite Hv. vm_compute. reflexivity.
Defined.

(** *** A transfer *)

(** What an application reads from the stream [id] of a session *)
Definition demo_read (l : SessionLoop.t CubicSender.t) (id len now : Z) : option Stream.readResult :=
  let st := l.(SessionLoop.sess).(Session.streams) in
  str ← st.1.(StreamsMap.streams) !! id; mret (Stream.Read len now (str, st.2, [])).2.

(** A client sends a hello, opens a stream and writes to it; its packets go through the server to
    the server's session, whose application reads the stream. *)
Definition demo_sender : SessionLoop.t CubicSender.t :=
  (SessionLoop.run demo_controller demo_message demo_new_version
     (map demo_round [SessionLoop.OnStream 1 (SessionLoop.Write [67; 72; 76; 79]) 0;
                      SessionLoop.Iteration 10 [] SessionLoop.SendingScheduled 500;
                      SessionLoop.OpenStream; SessionLoop.OnStream 3 (SessionLoop.Write [104; 101; 108; 108; 111]) 0;
                      SessionLoop.Iteration 10 [] SessionLoop.SendingScheduled 1000])
     (SessionLoop.setup demo_controller PerspectiveClient Version39 false 0x3333 (QuicConfig.forSession demo_client_config)
        (demo_addr 2) (demo_addr 1) [] [] [] 0)).1.

Definition demo_received : QuicServer.t (SessionLoop.t CubicSender.t) unit :=
  foldl (fun s b => (QuicServer.handlePacket demo_newSession s (mkRaw (demo_addr 1) (demo_addr 2) b (Some 2000))).1)
    demo_server demo_sender.(SessionLoop.sess).(Session.written).*2.

Definition demo_receiver : option (SessionLoop.t CubicSender.t) :=
  l ← mjoin (demo_received.(QuicServer.sessions) !! 0x3333);
  mret (SessionLoop.run demo_controller demo_message demo_new_version
          (map demo_round (replicate 2 (SessionLoop.Iteration 10 [] SessionLoop.PacketReceived 2000))) l).1.

Example transfer_read : (l ← demo_receiver; demo_read l 3 10 3000)
  = Some (Stream.ReadReturned [104; 101; 108; 108; 111] None).
Proof. vm_compute. reflexivity. Qed.

End Examples.

End EndpointsProofs.
