(* ===== verification/CertCompression.v ===== *)
(** * Certificate chains ([internal/crypto/cert_compression.go], [cert_cache.go], [cert_sets.go])

    How a server sends its certificates and how the client reads them: certificates
    that the client has in a common set are named by their place in it, the others
    are compressed with a dictionary.  zlib is an interface: a reader yields the
    data in portions of its own choice, as [io.Reader] allows.  The common sets and
    the fixed dictionary are parameters. *)

From S2P Require Import Prelude ByteOrder Protocol WireFrames WireHeader HandshakeMessage Fnv.

(** [zlib.NewWriterLevelDict] with all that is written until [Close], and
    [zlib.NewReaderDict] with the reader's [Read] of at most [n] bytes. *)
Class Zlib : Type := {
  compress : list Z -> list Z -> error + list Z;
  Rdr : Type;
  NewReaderDict : list Z -> list Z -> error + Rdr;
  Read : Rdr -> nat -> Rdr * list Z * option error
}.

Module CertCompression.

(** [entryType] and [entry] *)
Inductive entry : Type :=
| entryCompressed
| entryCached (h : Z)
| entryCommon (h i : Z).

Definition isCompressed (e : entry) : bool := match e with entryCompressed => true | _ => false end.

Section compression.
Context (certSets : gmap Z (list (list Z))) (certDictZlib : list Z) `{zlib : Zlib}.

(** *** Hashes *)

Fixpoint splitLoop (n : nat) (hashes : list Z) : list Z :=
  match n with O => [] | S n => Uint64 hashes :: splitLoop n (drop 8 hashes) end.

Definition splitHashes (hashes : list Z) : res (list Z) :=
  if (length hashes mod 8 =? 0)%nat then Ok (splitLoop (length hashes / 8) hashes)
  else Err (ErrorsNew "expected a multiple of 8 bytes for CCS / CCRT hashes").

(** The order of the sets is the order in which Go visits the map. *)
Definition getCommonCertificateHashes (order : list Z) : list Z := concat (map (le_split 8) order).

Definition HashCert (cert : list Z) : Z := fnv64a cert.

(** *** Entries *)

(** A negative position when it is not in the set *)
Fixpoint findCertInSet (cert : list Z) (set : list (list Z)) (i : Z) : Z :=
  match set with
  | [] => -1
  | c :: set => if decide (c = cert) then i else findCertInSet cert set (i + 1)
  end.

Fixpoint findCommon (cert : list Z) (setHashes : list Z) : entry :=
  match setHashes with
  | [] => entryCompressed
  | setHash :: setHashes =>
      match certSets !! setHash with
      | None => findCommon cert setHashes
      | Some set =>
          let pos := findCertInSet cert set 0 in
          if 0 <=? pos then entryCommon setHash (u32 pos) else findCommon cert setHashes
      end
  end.

Definition buildEntry (cachedHashes setHashes : list Z) (cert : list Z) : entry :=
  if existsb (fun h => HashCert cert =? h) cachedHashes then entryCached (HashCert cert)
  else findCommon cert setHashes.

Definition buildEntries (chain : list (list Z)) (cachedHashes setHashes : list Z) : list entry :=
  map (buildEntry cachedHashes setHashes) chain.

(** The certificates that are not compressed, from the last to the first, and the
    fixed dictionary *)
Definition buildZlibDictForEntries (entries : list entry) (chain : list (list Z)) : list Z :=
  concat (map snd (filter (fun ec => isCompressed ec.1 = false) (rev (zip entries chain)))) ++ certDictZlib.

(** *** Compression *)

Definition writeEntry (e : entry) : Writer :=
  match e with
  | entryCompressed => WriteByte 1
  | entryCached h => WriteByte 2 ;;; WriteUint64 LittleEndian h
  | entryCommon h i => WriteByte 3 ;;; WriteUint64 LittleEndian h ;;; WriteUint32 LittleEndian i
  end.

Definition writeEntries (entries : list entry) : Writer :=
  foldr (fun e w => writeEntry e ;;; w) (WriteByte 0) entries.

(** [totalUncompressedLen] *)
Definition uncompressedLen (entries : list entry) (chain : list (list Z)) : Z :=
  foldr (fun ec n => (if isCompressed ec.1 then 4 + Z.of_nat (length ec.2) else 0) + n) 0 (zip entries chain).

(** The four bytes of the length and the certificate, for those to compress *)
Definition uncompressed (entries : list entry) (chain : list (list Z)) : list Z :=
  concat (map (fun ec => if isCompressed ec.1 then le_split 4 (Z.of_nat (length ec.2)) ++ ec.2 else [])
            (zip entries chain)).

Definition bytesOf (w : Writer) : list Z := match w [] with WOk b | WErr _ b => b | WPanic => [] end.

Definition compressChain (chain : list (list Z)) (pCommonSetHashes pCachedHashes : list Z) : res (list Z) :=
  cachedHashes ← splitHashes pCachedHashes;
  setHashes ← splitHashes pCommonSetHashes;
  let entries := buildEntries chain cachedHashes setHashes in
  let total := uncompressedLen entries chain in
  if 0 <? total then
    match compress (buildZlibDictForEntries entries chain) (uncompressed entries chain) with
    | inl _ => Err (ErrorsNew "cert compression failed")
    | inr gz => Ok (bytesOf (writeEntries entries ;;; WriteUint32 LittleEndian (u32 total) ;;; Prelude.Write gz))
    end
  else Ok (bytesOf (writeEntries entries)).

(** *** Decompression *)

(** The loop over the list of entries; at the end of the data [ReadByte] gives
    a zero byte, which ends the list before its error is looked at.
    [fuel] is the length of the data, every round reads a byte of it. *)
Fixpoint readEntries (fuel : nat) : Reader (list entry * list (list Z)) := fun r =>
  match fuel, r with
  | O, _ | _, [] => Ok (([], []), r)
  | S fuel, et :: r =>
      if et =? 0 then Ok (([], []), r)
      else if et =? 2 then Err (ErrorsNew "unexpected cached certificate")
      else if et =? 3 then
        (h ← ReadUint64 LittleEndian;
         i ← ReadUint32 LittleEndian;
         match certSets !! h with
         | None => rfail (ErrorsNew "unknown certSet")
         | Some set =>
             match set !! Z.to_nat i with
             | None => rfail (ErrorsNew "certificate not found in certSet")
             | Some cert => '(es, chain) ← readEntries fuel; mret (entryCommon h i :: es, cert :: chain)
             end
         end) r
      else if et =? 1 then ('(es, chain) ← readEntries fuel; mret (entryCompressed :: es, [] :: chain)) r
      else Err (ErrorsNew "unknown entryType")
  end.

(** The next entry that waits for its certificate, from [certIndex] on *)
Fixpoint nextCompressed (entries : list entry) (certIndex : nat) : option nat :=
  match entries with
  | [] => None
  | e :: entries => if isCompressed e then Some certIndex else nextCompressed entries (S certIndex)
  end.

(** [make([]byte, n)], filled with what was read *)
Definition filled (n : nat) (l : list Z) : list Z := l ++ replicate (n - length l) 0.

(** The loop over the compressed certificates; every round fills an entry, so that
    the number of entries and one more is enough fuel. *)
Fixpoint readCerts (fuel : nat) (entries : list entry) (uncompressedLength totalLength : Z) (certIndex : nat)
    (gz : Rdr) (chain : list (list Z)) : res (list (list Z)) :=
  match fuel with
  | O => Panic
  | S fuel =>
      if totalLength <? uncompressedLength then
        let '(gz, lenBytes, err) := Read gz 4 in
        match err with
        | Some e => Err e
        | None =>
            let certLen := Uint32 (filled 4 lenBytes) in
            let '(gz, cert, err) := Read gz (Z.to_nat certLen) in
            if negb (Z.of_nat (length cert) =? certLen) && (match err with Some _ => true | None => false end)
            then Err (default EOF err)
            else
              match nextCompressed (drop certIndex entries) certIndex with
              | None => Err (ErrorsNew "CertCompression BUG: no element to save uncompressed certificate")
              | Some i =>
                  readCerts fuel entries uncompressedLength (u32 (totalLength + u32 (4 + certLen))) (S i) gz
                    (<[i := filled (Z.to_nat certLen) cert]> chain)
              end
        end
      else Ok chain
  end.

Definition decompressChain (data : list Z) : res (list (list Z)) :=
  match readEntries (length data) data with
  | Err e => Err e
  | Panic => Panic
  | Ok ((entries, chain), r) =>
      if existsb isCompressed entries then
        match ReadUint32 LittleEndian r with
        | Err e => Err e
        | Panic => Panic
        | Ok (uncompressedLength, r) =>
            match NewReaderDict r (buildZlibDictForEntries entries chain) with
            | inl e => Err e
            | inr gz => readCerts (S (length entries)) entries uncompressedLength 0 0 gz chain
            end
        end
      else Ok chain
  end.

(** *** The cache *)

(** The hash that names a result in the cache *)
Definition cacheKey (chain : list (list Z)) (pCommonSetHashes pCachedHashes : list Z) : Z :=
  fnv64a (concat chain ++ pCommonSetHashes ++ pCachedHashes).

(** [evict] is what the LRU cache drops when a result is added. *)
Definition getCompressedCert (evict : gmap Z (list Z) -> gmap Z (list Z)) (cache : gmap Z (list Z))
    (chain : list (list Z)) (pCommonSetHashes pCachedHashes : list Z) : gmap Z (list Z) * res (list Z) :=
  let hash := cacheKey chain pCommonSetHashes pCachedHashes in
  match cache !! hash with
  | Some result => (cache, Ok result)
  | None =>
      match compressChain chain pCommonSetHashes pCachedHashes with
      | Ok result => (evict (<[hash := result]> cache), Ok result)
      | Err e => (cache, Err e)
      | Panic => (cache, Panic)
      end
  end.

End compression.

End CertCompression.

(** ** Proofs *)

Module CertCompressionProofs.
Import CertCompression.

(** The contract of zlib and of [io.Reader]: what was compressed can be read with the
    same dictionary; every [Read] yields at most as many bytes as it is asked for,
    possibly fewer, the rest of the data stays to be read, and an error, the end of
    the data, is reported at most with the last of it. *)
Class ZlibReads `{zlib : Zlib} : Type := {
  yields : Rdr -> list Z -> Prop;
  yields_compressed dict data : exists gz rdr,
    compress dict data = inr gz /\ NewReaderDict gz dict = inr rdr /\ yields rdr data;
  yields_read rdr data n : yields rdr data ->
    exists rdr' l rest err, Read rdr n = (rdr', l, err) /\ data = l ++ rest /\ (length l <= n)%nat
      /\ yields rdr' rest /\ (rest <> [] -> err = None)
}.

(** The next reads, of the given sizes, are not short. *)
Fixpoint reads_full `{zlib : Zlib} (rdr : Rdr) (sizes : list nat) : Prop :=
  match sizes with
  | [] => True
  | n :: sizes => let '(rdr, l, _) := Read rdr n in length l = n /\ reads_full rdr sizes
  end.

(** The reads of [decompressChain] for a chain: four bytes and the certificate *)
Definition readSizes (es : list entry) (chain : list (list Z)) : list nat :=
  concat (map (fun ec => if isCompressed ec.1 then [4; length ec.2] else [])%nat (zip es chain)).

Lemma read_full `{zlib : Zlib} {reads : ZlibReads} rdr l rest sizes :
  yields rdr (l ++ rest) -> reads_full rdr (length l :: sizes) ->
  exists rdr' err, Read rdr (length l) = (rdr', l, err) /\ yields rdr' rest /\ reads_full rdr' sizes /\ (rest <> [] -> err = None).
Proof.
  intros Hy Hf. destruct (yields_read rdr _ (length l) Hy) as (rdr' & l' & rest' & err & E & Ed & _ & Hy' & He).
  cbn [reads_full] in Hf. rewrite E in Hf. destruct Hf as [Hl Hf]. apply app_inj_1 in Ed as [-> ->]; [|done]. by exists rdr', err.
Qed.

Section roundtrip.
Context (certSets : gmap Z (list (list Z))) (certDictZlib : list Z) `{zlib : Zlib}.

(** An entry names its certificate. *)
Definition entry_ok (e : entry) (cert : list Z) : Prop :=
  match e with
  | entryCompressed => cert <> []
  | entryCached _ => False
  | entryCommon h i => in_width 64 h /\ in_width 32 i
      /\ exists set, certSets !! h = Some set /\ set !! Z.to_nat i = Some cert
  end.

Definition enc (e : entry) : list Z :=
  match e with
  | entryCompressed => [1]
  | entryCached h => [2] ++ le_split 8 h
  | entryCommon h i => [3] ++ le_split 8 h ++ le_split 4 i
  end.
Definition encs (es : list entry) : list Z := concat (map enc es) ++ [0].

(** The chain after the list of entries was read *)
Definition blanks (es : list entry) (chain : list (list Z)) : list (list Z) :=
  zip_with (fun e c => if isCompressed e then [] else c) es chain.

Lemma findCert_spec cert set : forall i pos, findCertInSet cert set i = pos -> 0 <= i -> 0 <= pos ->
  i <= pos /\ set !! Z.to_nat (pos - i) = Some cert.
Proof.
  induction set as [|c set IH]; intros i pos; cbn [findCertInSet]; [lia|]. case_decide as Hc.
  - intros <- _ _. subst. replace (i - i) with 0 by lia. split; [lia|done].
  - intros Hf Hi Hp. destruct (IH (i + 1) pos Hf) as [Hle Hl]; [lia|lia|]. split; [lia|].
    replace (Z.to_nat (pos - i)) with (Datatypes.S (Z.to_nat (pos - (i + 1)))) by lia. exact Hl.
Qed.

(** The common sets have 64-bit hashes and fewer than 2^32 certificates. *)
Definition sets_ok : Prop := forall h set, certSets !! h = Some set -> in_width 64 h /\ Z.of_nat (length set) < 2 ^ 32.

Lemma findCommon_ok cert hs : sets_ok -> cert <> [] -> entry_ok (findCommon certSets cert hs) cert.
Proof.
  intros Hs Hc. induction hs as [|h hs IH]; cbn [findCommon]; [done|].
  destruct (certSets !! h) as [set|] eqn:E; [|done]. case_match eqn:Hp; [|done]. apply Z.leb_le in Hp.
  destruct (findCert_spec cert set 0 _ eq_refl) as [_ Hl]; [lia|done|]. rewrite Z.sub_0_r in Hl.
  destruct (Hs h set E) as [Hh Hlen]. pose proof (lookup_lt_Some _ _ _ Hl) as Hlt.
  rewrite u32_small by lia. split; [done|]. split; [unfold in_width; lia|]. by exists set.
Qed.

Lemma buildEntries_ok chain hs : sets_ok -> Forall (fun c => c <> []) chain ->
  Forall2 entry_ok (buildEntries certSets chain [] hs) chain.
Proof.
  intros Hs. induction 1 as [|c chain Hc _ IH]; [constructor|]. constructor; [|exact IH].
  unfold buildEntry. cbn [existsb]. by apply findCommon_ok.
Qed.

Lemma writeEntries_encs es : writes (writeEntries es) (encs es).
Proof.
  induction es as [|e es IH]; [apply writes_WriteByte|]. unfold encs. cbn [map concat].
  rewrite <- app_assoc. apply writes_seq; [|exact IH].
  pose proof (fun x => bo_WriteUint64 (bo:=LittleEndian) x) as W8. pose proof (fun x => bo_WriteUint32 (bo:=LittleEndian) x) as W4.
  destruct e as [|h|h i]; cbn [writeEntry enc]; repeat (apply writes_seq; [apply writes_WriteByte || apply W8|]);
    [apply writes_WriteByte|apply W8|apply W4].
Qed.

(** *** Reading the list of entries *)

Lemma readEntries_encs es chain : Forall2 entry_ok es chain -> forall fuel r, (length es < fuel)%nat ->
  readEntries certSets fuel (encs es ++ r) = Ok ((es, blanks es chain), r).
Proof.
  induction 1 as [|e c es chain He _ IH]; intros [|fuel] r Hf; cbn [length] in Hf; try lia; [done|].
  assert (E : encs (e :: es) ++ r = enc e ++ encs es ++ r) by (unfold encs; cbn [map concat]; by rewrite <- !app_assoc).
  rewrite E. pose proof (IH fuel r ltac:(lia)) as IH'. destruct e as [|h|h i]; [|done|].
  - cbn [enc app readEntries Z.eqb Pos.eqb]. by rewrite (rbind_Ok _ _ _ _ _ IH').
  - destruct He as (Hh & Hi & set & Es & Ec). cbn [enc app readEntries Z.eqb Pos.eqb]. rewrite <- app_assoc.
    pose proof (ReadUint64_enc LittleEndian h (le_split 4 i ++ encs es ++ r) Hh) as R8.
    pose proof (ReadUint32_enc LittleEndian i (encs es ++ r) Hi) as R4. cbn [bo_enc LittleEndian_spec] in R8, R4.
    rewrite (rbind_Ok _ _ _ _ _ R8), (rbind_Ok _ _ _ _ _ R4). rewrite Es, Ec.
    by rewrite (rbind_Ok _ _ _ _ _ IH').
Qed.

(** Both ends use the same dictionary. *)
Lemma dict_blanks es chain : length es = length chain ->
  buildZlibDictForEntries certDictZlib es (blanks es chain) = buildZlibDictForEntries certDictZlib es chain.
Proof.
  intros Hl. unfold buildZlibDictForEntries. f_equal. f_equal. revert chain Hl.
  induction es as [|e es IH]; intros [|c chain] Hl; try done. cbn [length] in Hl. unfold blanks in *. cbn [zip_with zip rev].
  rewrite !filter_app, !map_app, IH by lia. f_equal. destruct e; [|done..]. rewrite !filter_cons, !decide_False by done. done.
Qed.

(** *** Reading the certificates *)

Context {reads : ZlibReads}.

Lemma uncompressedLen_nonneg es chain : 0 <= uncompressedLen es chain.
Proof. unfold uncompressedLen. induction (zip es chain) as [|[e c] l IH]; cbn [foldr]; [lia|]. cbn [fst snd]. case_match; lia. Qed.

Lemma nextCompressed_skip pre es j : Forall (fun e => isCompressed e = false) pre ->
  nextCompressed (pre ++ entryCompressed :: es) j = Some (j + length pre)%nat.
Proof.
  intros H. revert j. induction H as [|e pre He _ IH]; intros j; cbn [app nextCompressed isCompressed]; [f_equal; cbn; lia|].
  rewrite He, IH. f_equal. cbn. lia.
Qed.

Lemma filled_full l : filled (length l) l = l.
Proof. unfold filled. by rewrite Nat.sub_diag, app_nil_r. Qed.

Lemma Uint32_le_split n : in_width 32 n -> Uint32 (le_split 4 n) = n.
Proof.
  intros Hn. unfold Uint32. rewrite take_ge by (by rewrite length_le_split). rewrite le_combine_split. by apply Z.mod_small.
Qed.

(** [es] and [chain] are what is left, [done_] the certificates before them, [j] is
    [certIndex], between which and the rest only entries of common sets are. *)
Lemma readCerts_rest es chain : Forall2 entry_ok es chain -> forall fuel entries j pre done_ t gz,
  (length es < fuel)%nat -> drop j entries = pre ++ es -> Forall (fun e => isCompressed e = false) pre ->
  (j + length pre = length done_)%nat -> 0 <= t -> t + uncompressedLen es chain < 2 ^ 32 -> yields gz (uncompressed es chain) ->
  reads_full gz (readSizes es chain) ->
  readCerts fuel entries (t + uncompressedLen es chain) t j gz (done_ ++ blanks es chain) = Ok (done_ ++ chain).
Proof.
  induction 1 as [|e c es chain He _ IH]; intros [|fuel] entries j pre done_ t gz Hf Hdrop Hpre Hj Ht Htot Hy Hr;
    cbn [length] in Hf; try lia.
  { cbn [readCerts]. unfold uncompressedLen. cbn [zip_with foldr]. rewrite (proj2 (Z.ltb_ge _ _)) by lia. done. }
  destruct e as [|h|h i]; [| done|].
  - assert (Eu : uncompressedLen (entryCompressed :: es) (c :: chain) = 4 + Z.of_nat (length c) + uncompressedLen es chain) by done.
    pose proof (uncompressedLen_nonneg es chain) as Hnn. rewrite Eu in *.
    assert (Ed : uncompressed (entryCompressed :: es) (c :: chain)
                 = le_split 4 (Z.of_nat (length c)) ++ (c ++ uncompressed es chain)) by (symmetry; apply app_assoc).
    change (readSizes _ _) with (4%nat :: length c :: readSizes es chain) in Hr.
    rewrite <- (length_le_split 4 (Z.of_nat (length c))) in Hr at 1.
    rewrite Ed in Hy. destruct (read_full _ _ _ _ Hy Hr) as (gz1 & err1 & R1 & Hy1 & Hr1 & Hn1). rewrite length_le_split in R1.
    assert (Hne : c ++ uncompressed es chain <> []) by (intros [Hc _]%app_eq_nil; exact (He Hc)).
    rewrite (Hn1 Hne) in R1. destruct (read_full _ _ _ _ Hy1 Hr1) as (gz2 & err2 & R2 & Hy2 & Hr2 & _).
    cbn [readCerts]. rewrite (proj2 (Z.ltb_lt _ _)) by lia. rewrite R1.
    assert (EL : filled 4 (le_split 4 (Z.of_nat (length c))) = le_split 4 (Z.of_nat (length c))).
    { rewrite <- (length_le_split 4 (Z.of_nat (length c))) at 1. apply filled_full. }
    rewrite EL, Uint32_le_split by (unfold in_width; lia). rewrite Nat2Z.id, R2, Z.eqb_refl. cbn [negb andb].
    rewrite Hdrop, nextCompressed_skip, Hj by done. rewrite (u32_small (4 + _)), (u32_small (t + _)) by lia.
    rewrite filled_full.
    change (blanks (entryCompressed :: es) (c :: chain)) with ([] :: blanks es chain).
    rewrite <- (Nat.add_0_r (length done_)) at 2. rewrite insert_app_r. cbn [list_insert insert].
    replace (done_ ++ c :: blanks es chain) with ((done_ ++ [c]) ++ blanks es chain) by (by rewrite <- app_assoc).
    replace (t + (4 + Z.of_nat (length c) + uncompressedLen es chain))
      with (t + (4 + Z.of_nat (length c)) + uncompressedLen es chain) by lia.
    rewrite (IH fuel entries (Datatypes.S (length done_)) [] (done_ ++ [c]) _ gz2); try done; try lia.
    + by rewrite <- app_assoc.
    + rewrite <- Hj. replace (Datatypes.S (j + length pre)) with (j + Datatypes.S (length pre))%nat by lia.
      rewrite <- drop_drop, Hdrop. rewrite drop_app_ge by lia. by replace (Datatypes.S (length pre) - length pre)%nat with 1%nat by lia.
    + rewrite length_app. cbn. lia.
  - change (uncompressedLen (entryCommon h i :: es) (c :: chain)) with (0 + uncompressedLen es chain) in *. rewrite Z.add_0_l in *.
    change (blanks (entryCommon h i :: es) (c :: chain)) with (c :: blanks es chain).
    replace (done_ ++ c :: blanks es chain) with ((done_ ++ [c]) ++ blanks es chain) by (by rewrite <- app_assoc).
    rewrite (IH (Datatypes.S fuel) entries j (pre ++ [entryCommon h i]) (done_ ++ [c]) t gz); try done; try lia.
    + by rewrite <- app_assoc.
    + by rewrite <- app_assoc.
    + apply Forall_app. split; [done|]. by constructor.
    + rewrite !length_app. cbn. lia.
Qed.

(** The fuel is enough: every round that does not end moves [certIndex] on. *)
Lemma nextCompressed_ge es : forall j i, nextCompressed es j = Some i -> (j <= i < j + length es)%nat.
Proof.
  induction es as [|e es IH]; intros j i; cbn [nextCompressed length]; [done|]. case_match; [intros [= <-]; lia|].
  intros Hi%IH. lia.
Qed.

Lemma readCerts_fuel_enough fuel : forall entries total t j gz chain, (j <= length entries)%nat ->
  (length entries - j < fuel)%nat -> readCerts fuel entries total t j gz chain <> Panic.
Proof.
  clear reads. induction fuel as [|fuel IH]; intros entries total t j gz chain Hj Hf; [lia|]. cbn [readCerts].
  case_match; [|done]. destruct (Read gz 4) as [[gz1 b] [e|]]; [done|].
  destruct (Read gz1 _) as [[gz2 c] err]. case_match; [done|]. destruct (nextCompressed _ _) as [i|] eqn:E; [|done].
  apply nextCompressed_ge in E. rewrite length_drop in E. apply IH; lia.
Qed.

Lemma none_compressed es chain : length es = length chain -> existsb isCompressed es = false ->
  uncompressedLen es chain = 0 /\ blanks es chain = chain.
Proof.
  revert chain. induction es as [|e es IH]; intros [|c chain] Hl; try done. cbn [existsb]. intros [He Hes]%orb_false_iff.
  destruct (IH chain) as [E1 E2]; [by injection Hl|done|]. unfold uncompressedLen, blanks in *. cbn [zip_with foldr fst snd].
  rewrite He, E1, E2. by split.
Qed.

Lemma some_compressed es chain : length es = length chain -> existsb isCompressed es = true -> 0 < uncompressedLen es chain.
Proof.
  revert chain. induction es as [|e es IH]; intros [|c chain] Hl; try done. cbn [existsb].
  pose proof (uncompressedLen_nonneg es chain) as Hn. unfold uncompressedLen in *. cbn [zip_with foldr fst snd].
  destruct (isCompressed e); [intros _; lia|]. intros He. rewrite Z.add_0_l. apply IH; [by injection Hl|done].
Qed.

(** The reads of the chain that is compressed are not short. *)
Definition full_reads (es : list entry) (chain : list (list Z)) : Prop :=
  forall gz rdr, compress (buildZlibDictForEntries certDictZlib es chain) (uncompressed es chain) = inr gz ->
    NewReaderDict gz (buildZlibDictForEntries certDictZlib es chain) = inr rdr -> reads_full rdr (readSizes es chain).

Lemma roundtrip_entries chain es : Forall2 entry_ok es chain -> uncompressedLen es chain < 2 ^ 32 -> full_reads es chain ->
  exists data, (if 0 <? uncompressedLen es chain then
      match compress (buildZlibDictForEntries certDictZlib es chain) (uncompressed es chain) with
      | inl _ => Err (ErrorsNew "cert compression failed")
      | inr gz => Ok (bytesOf (writeEntries es ;;; WriteUint32 LittleEndian (u32 (uncompressedLen es chain)) ;;; Prelude.Write gz))
      end
    else Ok (bytesOf (writeEntries es))) = Ok data
    /\ decompressChain certSets certDictZlib data = Ok chain.
Proof using reads.
  intros Hok Hb Hfull. pose proof (Forall2_length _ _ _ Hok) as Hl. pose proof (uncompressedLen_nonneg es chain) as Hn.
  assert (Hlen : forall r, (length es < length (encs es ++ r))%nat).
  { intros r. unfold encs. rewrite !length_app. cbn. clear. induction es as [|e es IH]; cbn [map concat length]; [lia|].
    rewrite length_app. assert (1 <= length (enc e))%nat by (destruct e; cbn; lia). lia. }
  destruct (existsb isCompressed es) eqn:Ee.
  - pose proof (some_compressed es chain Hl Ee) as Hpos. rewrite (proj2 (Z.ltb_lt _ _)) by done.
    destruct (yields_compressed (buildZlibDictForEntries certDictZlib es chain) (uncompressed es chain)) as (gz & rdr & Ez & Er & Hy).
    pose proof (Hfull gz rdr Ez Er) as Hrd. rewrite Ez. eexists. split; [reflexivity|]. unfold bytesOf.
    assert (W : writes (writeEntries es ;;; WriteUint32 LittleEndian (u32 (uncompressedLen es chain)) ;;; Prelude.Write gz)
                  (encs es ++ le_split 4 (uncompressedLen es chain) ++ gz)).
    { apply writes_seq; [apply writeEntries_encs|]. apply writes_seq; [|apply writes_Write]. rewrite u32_small by lia.
      exact (bo_WriteUint32 (bo:=LittleEndian) _). }
    rewrite (W []). cbn [app]. unfold decompressChain. rewrite (readEntries_encs es chain Hok) by apply Hlen. rewrite Ee.
    pose proof (ReadUint32_enc LittleEndian (uncompressedLen es chain) gz) as R4. cbn [bo_enc LittleEndian_spec] in R4.
    rewrite R4 by (unfold in_width; lia). rewrite dict_blanks, Er by done.
    apply (readCerts_rest es chain Hok (Datatypes.S (length es)) es 0 [] [] 0 rdr); try done; lia.
  - destruct (none_compressed es chain Hl Ee) as [-> Eb]. eexists. split; [reflexivity|]. unfold bytesOf.
    rewrite (writeEntries_encs es []). cbn [app]. unfold decompressChain.
    pose proof (readEntries_encs es chain Hok (length (encs es)) []) as R. rewrite app_nil_r in R.
    rewrite R, Ee, Eb; [done|]. specialize (Hlen []). by rewrite app_nil_r in Hlen.
Qed.

Lemma chain_roundtrip chain pCommonSetHashes hs :
  sets_ok -> Forall (fun c => c <> []) chain -> splitHashes pCommonSetHashes = Ok hs ->
  uncompressedLen (buildEntries certSets chain [] hs) chain < 2 ^ 32 -> full_reads (buildEntries certSets chain [] hs) chain ->
  exists data, compressChain certSets certDictZlib chain pCommonSetHashes [] = Ok data
    /\ decompressChain certSets certDictZlib data = Ok chain.
Proof using reads.
  intros Hs Hc Hh Hl Hf. unfold compressChain. rewrite Hh. cbn [splitHashes length Nat.modulo Nat.eqb mbind res_bind].
  apply roundtrip_entries; [by apply buildEntries_ok|done..].
Qed.

End roundtrip.

(** C32: certificate chains.  With a zlib that keeps its contract, and unless one of the
    reads of this chain is short, the client gets from the server's certificate message
    exactly the chain of the server: certificates of the common sets the client named
    are taken from the sets, the others are decompressed with the same dictionary, in
    their order.  The certificates are not empty and together smaller than 2^32
    bytes.  (A short read, which the contract allows, corrupts the chain, see
    [short_read_corrupts].) *)
Theorem cert_chain_roundtrip (certSets : gmap Z (list (list Z))) (certDictZlib : list Z) `{zlib : Zlib} {reads : ZlibReads}
  (chain : list (list Z)) (pCommonSetHashes hs : list Z)
  (Hsets : sets_ok certSets) (Hcerts : Forall (fun c => c <> []) chain) (Hhashes : splitHashes pCommonSetHashes = Ok hs)
  (Hlen : uncompressedLen (buildEntries certSets chain [] hs) chain < 2 ^ 32)
  (Hfull : full_reads certDictZlib (buildEntries certSets chain [] hs) chain) :
  exists data, compressChain certSets certDictZlib chain pCommonSetHashes [] = Ok data
    /\ decompressChain certSets certDictZlib data = Ok chain.
Proof. by apply (chain_roundtrip certSets certDictZlib (reads:=reads) chain pCommonSetHashes hs). Qed.

Lemma readEntries_no_panic certSets fuel : no_panic (readEntries certSets fuel).
Proof.
  induction fuel as [|fuel IH]; intros [|et r]; cbn [readEntries]; try done.
  assert (Hk : forall (e : entry) (c : list Z), no_panic ('(es, chain) ← readEntries certSets fuel; mret (e :: es, c :: chain))).
  { intros e c. apply no_panic_bind; [exact IH|]. intros [es chain]. apply no_panic_ret. }
  repeat (case_match; [done|]). case_match; [|case_match; [apply Hk|done]].
  match goal with |- ?m r <> Panic => cut (no_panic m); [auto|] end. solve_no_panic.
  repeat case_match; first [apply Hk|solve_no_panic].
Qed.

(** Whatever the data and the zlib reader, [decompressChain] returns. *)
Theorem decompressChain_total (certSets : gmap Z (list (list Z))) (certDictZlib : list Z) `{zlib : Zlib} (data : list Z) :
  decompressChain certSets certDictZlib data <> Panic.
Proof.
  unfold decompressChain. pose proof (readEntries_no_panic certSets (length data) data) as Hr.
  destruct (readEntries _ _ _) as [[[entries chain] r]| |]; [|done..]. case_match; [|done].
  pose proof (bo_ReadUint32_no_panic (bo:=LittleEndian) r) as H4. destruct (ReadUint32 _ r) as [[n r']| |]; [|done..].
  case_match; [done|]. apply readCerts_fuel_enough; lia.
Qed.

(** ** Examples *)

(** No compression; the reader gives at most [portion] bytes at a time. *)
Definition stored_zlib (portion : nat) : Zlib :=
  {| compress _ data := inr data; Rdr := list Z; NewReaderDict data _ := inr data;
     Read rdr n := let m := Nat.min n portion in
       (drop m rdr, take m rdr, if (0 <? n)%nat && (length rdr =? 0)%nat then Some EOF else None) |}.

#[local] Instance stored_reads portion : ZlibReads (zlib:=stored_zlib portion).
Proof.
  refine {| yields := (fun rdr data => rdr = data) : Rdr (Zlib:=stored_zlib portion) -> list Z -> Prop |}.
  - intros dict data. by exists data, data.
  - intros rdr data n ->. cbn. eexists _, _, _, _. split; [reflexivity|]. split; [symmetry; apply take_drop|].
    split; [rewrite length_take; lia|]. split; [done|]. intros Hne. destruct data; [by rewrite drop_nil in Hne|].
    cbn [length]. by rewrite andb_false_r.
Defined.

Definition demo_sets : gmap Z (list (list Z)) := {[ 0x1111 := [[48; 1]; [48; 2; 2]] ]}.
Definition demo_chain : list (list Z) := [[48; 130; 5; 6; 7]; [48; 2; 2]; [48; 9]].
Definition demo_hashes : list Z := [0x11; 0x11; 0; 0; 0; 0; 0; 0].

Lemma cert_chain_roundtrip_witness :
  exists data, compressChain (zlib:=stored_zlib 1024) demo_sets [] demo_chain demo_hashes [] = Ok data
    /\ length data = 35%nat /\ decompressChain (zlib:=stored_zlib 1024) demo_sets [] data = Ok demo_chain.
Proof.
  destruct (cert_chain_roundtrip (zlib:=stored_zlib 1024) (reads:=stored_reads 1024) demo_sets [] demo_chain demo_hashes [0x1111])
    as (data & E & D).
  - intros h set. unfold demo_sets. rewrite lookup_singleton_Some. intros [<- <-]. split; [split; [lia|reflexivity]|reflexivity].
  - repeat constructor; discriminate.
  - vm_compute. reflexivity.
  - vm_compute. reflexivity.
  - intros gz rdr [= <-] [= <-]. vm_compute. repeat split.
  - exists data. split; [exact E|]. split; [|exact D]. vm_compute in E. injection E as <-. reflexivity.
Defined.

(** A short read corrupts a certificate.  [io.Reader] allows a reader to return
    fewer bytes than asked for without an error; then the rest of the certificate is
    zero and the client accepts the chain. *)
Theorem short_read_corrupts :
  exists data, compressChain (zlib:=stored_zlib 4) demo_sets [] [[48; 130; 5; 6; 7]] demo_hashes [] = Ok data
    /\ decompressChain (zlib:=stored_zlib 4) demo_sets [] data = Ok [[48; 130; 5; 6; 0]].
Proof. eexists. split; [vm_compute; reflexivity|]. vm_compute. reflexivity. Qed.

End CertCompressionProofs.
