(* ===== verification/CertChain.v ===== *)
(** * The certificates and the signature of a server ([internal/crypto/cert_chain.go], [server_proof.go])

    The choice of the certificate for a name, and the signature of the server config
    on both sides.  They are an instance of what the crypto setups ask of a
    certificate chain and of the client's certificate library; a matching pair of
    keys is shown to be all that the handshake needs. *)

From S2P Require Import Prelude ByteOrder Protocol MinMax WireHeader ConnParams HandshakeMessage Fnv Gcm Aes AesProofs Aead.
From S2P Require Import ServerConfig CryptoSetup CryptoSetupProofs Handshake CertCompression.
Import HandshakeMessageProofs HandshakeProofs.

(** SHA-256, [crypto.Signer.Sign] with its random numbers (a salt length selects PSS),
    [rsa.VerifyPSS], [asn1.Unmarshal] into two integers with the rest of the data,
    [ecdsa.Verify]; the keys are those of the library. *)
Class Signatures : Type := {
  Sum256 : list Z -> list Z;
  SK : Type;
  PK : Type;
  Sign : SK -> option Z -> list Z -> res (list Z);
  VerifyPSS : PK -> Z -> list Z -> list Z -> bool;
  Unmarshal : list Z -> option (Z * Z * list Z);
  VerifyECDSA : PK -> list Z -> Z -> Z -> bool
}.

Module ServerProof.
Section proof.
Context `{sigs : Signatures}.

(** What [cert.PrivateKey] is: an RSA key, another [crypto.Signer], or something else. *)
Inductive privateKey : Type := RSAPrivateKey (k : SK) | SignerKey (k : SK) | NoSigner.

(** What [cert.PublicKey] is *)
Inductive publicKey : Type := RSAPublicKey (k : PK) | ECDSAPublicKey (k : PK) | OtherPublicKey.

(** ["QUIC CHLO and server config signature\x00"] *)
Definition label : list Z :=
  [81; 85; 73; 67; 32; 67; 72; 76; 79; 32; 97; 110; 100; 32; 115; 101; 114; 118; 101; 114; 32; 99; 111; 110; 102; 105; 103;
   32; 115; 105; 103; 110; 97; 116; 117; 114; 101; 0].

Definition proofHash (chlo serverConfigData : list Z) : list Z :=
  Sum256 (label ++ [32; 0; 0; 0] ++ Sum256 chlo ++ serverConfigData).

Definition signServerProof (key : privateKey) (chlo serverConfigData : list Z) : res (list Z) :=
  match key with
  | RSAPrivateKey k => Sign k (Some 32) (proofHash chlo serverConfigData)
  | SignerKey k => Sign k None (proofHash chlo serverConfigData)
  | NoSigner => Err (ErrorsNew "expected PrivateKey to implement crypto.Signer")
  end.

(** A key that is neither RSA nor ECDSA fails the type assertion, after the proof was parsed. *)
Definition verifyServerProof (proof : list Z) (key : publicKey) (chlo serverConfigData : list Z) : res bool :=
  match key with
  | RSAPublicKey k => Ok (VerifyPSS k 32 (proofHash chlo serverConfigData) proof)
  | _ =>
      match Unmarshal proof with
      | Some (r, s, []) =>
          match key with
          | ECDSAPublicKey k => Ok (VerifyECDSA k (proofHash chlo serverConfigData) r s)
          | _ => Panic
          end
      | _ => Ok false
      end
  end.

End proof.
End ServerProof.

Module CertChain.
Section chain.
Context `{sigs : Signatures} `{zlib : Zlib}.
Context (certSets : gmap Z (list (list Z))) (certDictZlib : list Z).
(** [strings.ToLower] on names with other than ASCII characters *)
Context (unicodeLower : list Z -> list Z).

(** [tls.Certificate] *)
Record Certificate : Type := mkCert { certificate : list (list Z); PrivateKey : ServerProof.privateKey }.

(** What the code uses of a [tls.Config]; a callback that is [nil] is [None].  The
    callback for a configuration may return [nil] without an error. *)
Record config : Type := mkConfig {
  GetCertificate : option (list Z -> option Certificate * option error);
  Certificates : list Certificate;
  NameToCertificate : option (gmap (list Z) Certificate)
}.
Record t : Type := mk { conf : config; GetConfigForClient : option (list Z -> option config * option error) }.

Definition errNoMatchingCertificate : error := ErrorsNew "no matching certificate found".

Definition maybeGetConfigForClient (c : t) (sni : list Z) : option config * option error :=
  match c.(GetConfigForClient) with None => (Some c.(conf), None) | Some f => f sni end.

Definition lowerByte (b : Z) : Z := if (65 <=? b) && (b <=? 90) then b + 32 else b.
Definition ToLower (s : list Z) : list Z := if forallb (fun b => b <? 128) s then map lowerByte s else unicodeLower s.

(** The loop that cuts the dots at the end, on the reversed name *)
Fixpoint dropDots (r : list Z) : list Z :=
  match r with b :: r' => if b =? 46 then dropDots r' else r | [] => [] end.
Definition trimDots (name : list Z) : list Z := rev (dropDots (rev name)).

(** [strings.Split(name, ".")] and [strings.Join(labels, ".")] *)
Fixpoint Split (name : list Z) : list (list Z) :=
  match name with
  | [] => [[]]
  | b :: name =>
      if b =? 46 then [] :: Split name
      else match Split name with l :: ls => (b :: l) :: ls | [] => [[b]] end
  end.
Fixpoint Join (labels : list (list Z)) : list Z :=
  match labels with [] => [] | [l] => l | l :: ls => l ++ [46] ++ Join ls end.

(** The loop over the labels; those before the current one are stars already. *)
Fixpoint wildcard (names : gmap (list Z) Certificate) (stars labels : list (list Z)) : option Certificate :=
  match labels with
  | [] => None
  | _ :: labels =>
      let stars := stars ++ [[42]] in
      match names !! Join (stars ++ labels) with Some cert => Some cert | None => wildcard names stars labels end
  end.

(** The choice among several certificates *)
Definition lookupName (first : Certificate) (names : gmap (list Z) Certificate) (sni : list Z) : Certificate :=
  let name := trimDots (ToLower sni) in
  match names !! name with
  | Some cert => cert
  | None => default first (wildcard names [] (Split name))
  end.

Definition configured (c : config) (sni : list Z) : res Certificate :=
  match c.(Certificates) with
  | [] => Err errNoMatchingCertificate
  | [cert] => Ok cert
  | cert :: _ => match c.(NameToCertificate) with None => Ok cert | Some names => Ok (lookupName cert names sni) end
  end.

Definition getCertForSNI (cc : t) (sni : list Z) : res Certificate :=
  match maybeGetConfigForClient cc sni with
  | (_, Some e) => Err e
  | (None, None) => Panic
  | (Some c, None) =>
      match c.(GetCertificate) with
      | None => configured c sni
      | Some f =>
          match f sni with
          | (_, Some e) => Err e
          | (Some cert, None) => Ok cert
          | (None, None) => configured c sni
          end
      end
  end.

Definition SignServerProof (c : t) (sni chlo serverConfigData : list Z) : res (list Z) :=
  cert ← getCertForSNI c sni;
  ServerProof.signServerProof cert.(PrivateKey) chlo serverConfigData.

Definition GetCertsCompressed (evict : gmap Z (list Z) -> gmap Z (list Z)) (cache : gmap Z (list Z)) (c : t)
    (sni pCommonSetHashes pCachedHashes : list Z) : gmap Z (list Z) * res (list Z) :=
  match getCertForSNI c sni with
  | Ok cert => CertCompression.getCompressedCert certSets certDictZlib evict cache cert.(certificate) pCommonSetHashes pCachedHashes
  | Err e => (cache, Err e)
  | Panic => (cache, Panic)
  end.

Definition GetLeafCert (c : t) (sni : list Z) : res (list Z) :=
  cert ← getCertForSNI c sni;
  match cert.(certificate) with [] => Panic | leaf :: _ => Ok leaf end.

(** ** What the crypto setups use

    The server's chain, with the cache as the call finds it, and the client's library
    from the parsing and the verification of certificates; [order] is the order in
    which the client visits its common sets. *)

Definition server_chain (evict : gmap Z (list Z) -> gmap Z (list Z)) (cache : gmap Z (list Z)) (c : t) : ServerConfig.CertChain :=
  {| ServerConfig.SignServerProof := SignServerProof c;
     ServerConfig.GetCertsCompressed sni ccs ccrt := (GetCertsCompressed evict cache c sni ccs ccrt).2;
     ServerConfig.ChainLeafCert := GetLeafCert c |}.

Definition client_library (order : list Z) (parse : list Z -> res (list Z)) (publicKeyOf : list Z -> ServerProof.publicKey)
    (verify : list (list Z) -> list Z -> res unit) : X509Lib :=
  {| ServerConfig.decompressChain := CertCompression.decompressChain certSets certDictZlib;
     ServerConfig.ParseCertificate := parse;
     ServerConfig.verifyServerProof proof leaf := ServerProof.verifyServerProof proof (publicKeyOf leaf);
     ServerConfig.VerifyChain := verify;
     ServerConfig.getCommonCertificateHashes := CertCompression.getCommonCertificateHashes order |}.

End chain.
End CertChain.

(** ** Proofs *)

Module CertChainProofs.
Import CertChain.

(** *** The choice of a certificate *)

Lemma Split_cons name : exists l ls, Split name = l :: ls.
Proof. induction name as [|b name (l & ls & IH)]; cbn [Split]; [eauto|]. rewrite IH. case_match; eauto. Qed.

Lemma Join_Split name : Join (Split name) = name.
Proof.
  induction name as [|b name IH]; [done|]. cbn [Split]. destruct (Split_cons name) as (l & ls & E). rewrite E in *.
  destruct (Z.eqb_spec b 46) as [->|]; [by rewrite <- IH|]. by rewrite <- IH; destruct ls.
Qed.

(** The name with its first [n] labels replaced by stars *)
Definition pattern (name : list Z) (n : nat) : list Z := Join (replicate n [42] ++ drop n (Split name)).

Section lookup.
Context `{sigs : Signatures} (unicodeLower : list Z -> list Z).

Lemma wildcard_spec (names : gmap (list Z) Certificate) labels : forall n,
  match wildcard names (replicate n [42]) labels with
  | Some cert => exists i, (0 < i <= length labels)%nat
      /\ names !! Join (replicate (n + i) [42] ++ drop i labels) = Some cert
      /\ forall j, (0 < j < i)%nat -> names !! Join (replicate (n + j) [42] ++ drop j labels) = None
  | None => forall j, (0 < j <= length labels)%nat -> names !! Join (replicate (n + j) [42] ++ drop j labels) = None
  end.
Proof.
  induction labels as [|l labels IH]; intros n; cbn [wildcard length]; [lia|].
  change [[42]] with (replicate 1 [42]). rewrite <- replicate_add. specialize (IH (n + 1)%nat).
  assert (S : forall j, (0 < j)%nat -> Join (replicate (n + 1 + j) [42] ++ drop j labels)
    = Join (replicate (n + Datatypes.S j) [42] ++ drop (Datatypes.S j) (l :: labels))).
  { intros j _. cbn [drop]. by replace (n + 1 + j)%nat with (n + Datatypes.S j)%nat by lia. }
  destruct (names !! Join (replicate (n + 1) [42] ++ labels)) as [cert|] eqn:E.
  { exists 1%nat. split_and!; [lia|lia|exact E|lia]. }
  destruct (wildcard names _ labels) as [cert|].
  - destruct IH as (i & Hi & Hl & Hn). exists (Datatypes.S i). rewrite <- S by lia. split_and!; [lia|lia|exact Hl|].
    intros [|[|j]] Hj; [lia|exact E|]. rewrite <- S by lia. apply Hn. lia.
  - intros [|[|j]] Hj; [lia|exact E|]. rewrite <- S by lia. apply IH. lia.
Qed.

(** The certificate for a name: the one of the most specific pattern, or the first. *)
Theorem lookupName_spec (first : Certificate) (names : gmap (list Z) Certificate) sni :
  let name := trimDots (ToLower unicodeLower sni) in
  let cert := lookupName unicodeLower first names sni in
  (exists i, (i <= length (Split name))%nat /\ names !! pattern name i = Some cert
     /\ forall j, (j < i)%nat -> names !! pattern name j = None)
  \/ (cert = first /\ forall j, (j <= length (Split name))%nat -> names !! pattern name j = None).
Proof.
  cbv zeta. unfold lookupName. set (name := trimDots _). assert (E0 : pattern name 0 = name) by apply Join_Split.
  destruct (names !! name) as [cert|] eqn:E.
  { left. exists 0%nat. rewrite E0. split_and!; [lia|done|lia]. }
  pose proof (wildcard_spec names (Split name) 0) as W. cbn [replicate] in W. destruct (wildcard _ _ _) as [cert|].
  - left. destruct W as (i & Hi & Hl & Hn). exists i. split_and!; [lia|exact Hl|]. intros [|j] Hj; [by rewrite E0|apply Hn; lia].
  - right. split; [done|]. intros [|j] Hj; [by rewrite E0|apply W; lia].
Qed.

End lookup.

(** *** The cache *)

Section cache.
Context (certSets : gmap Z (list (list Z))) (certDictZlib : list Z) `{zlib : Zlib}.

(** The cache holds the right answer for these inputs, or none. *)
Definition cache_agrees (cache : gmap Z (list Z)) (chain : list (list Z)) (ccs ccrt : list Z) : Prop :=
  forall r, cache !! CertCompression.cacheKey chain ccs ccrt = Some r ->
    CertCompression.compressChain certSets certDictZlib chain ccs ccrt = Ok r.

Lemma getCompressedCert_agrees evict cache chain ccs ccrt : cache_agrees cache chain ccs ccrt ->
  (CertCompression.getCompressedCert certSets certDictZlib evict cache chain ccs ccrt).2
  = CertCompression.compressChain certSets certDictZlib chain ccs ccrt.
Proof.
  intros Ha. unfold CertCompression.getCompressedCert. destruct (cache !! _) as [r|] eqn:E; [by rewrite (Ha r E)|].
  by destruct (CertCompression.compressChain _ _ _ _ _).
Qed.

(** A call keeps the cache right for all inputs that do not share its key. *)
Lemma getCompressedCert_cache evict cache chain ccs ccrt chain' ccs' ccrt' :
  (forall m : gmap Z (list Z), evict m ⊆ m) -> cache_agrees cache chain' ccs' ccrt' ->
  (CertCompression.cacheKey chain' ccs' ccrt' = CertCompression.cacheKey chain ccs ccrt ->
     chain' = chain /\ ccs' = ccs /\ ccrt' = ccrt) ->
  cache_agrees (CertCompression.getCompressedCert certSets certDictZlib evict cache chain ccs ccrt).1 chain' ccs' ccrt'.
Proof.
  intros He Ha Hk. unfold CertCompression.getCompressedCert. destruct (cache !! _) as [?|] eqn:E; [done|].
  destruct (CertCompression.compressChain _ _ _ _ _) as [data| |] eqn:Ec; [|done..]. intros r Hr. cbn [fst] in Hr.
  apply (lookup_weaken _ _ _ _ Hr) in He as Hw. apply lookup_insert_Some in Hw as [[K ->]|[K Hc]]; [|by apply Ha].
  destruct (Hk (eq_sym K)) as (-> & -> & ->). exact Ec.
Qed.

(** The hashes of the client's sets are read as they were written. *)
Lemma splitLoop_hashes order : Forall (in_width 64) order ->
  CertCompression.splitLoop (length order) (concat (map (le_split 8) order)) = order.
Proof.
  induction 1 as [|h order Hh _ IH]; [done|]. cbn [length map concat CertCompression.splitLoop]. f_equal.
  - unfold Uint64. rewrite take_app_le by (by rewrite length_le_split). rewrite take_ge by (by rewrite length_le_split).
    rewrite le_combine_split. by apply Z.mod_small.
  - rewrite drop_app_ge by (by rewrite length_le_split). by rewrite length_le_split.
Qed.

Lemma splitHashes_common order : Forall (in_width 64) order ->
  CertCompression.splitHashes (CertCompression.getCommonCertificateHashes order) = Ok order.
Proof.
  intros Ho. unfold CertCompression.splitHashes, CertCompression.getCommonCertificateHashes.
  assert (El : length (concat (map (le_split 8) order)) = (length order * 8)%nat).
  { clear Ho. induction order as [|h order IH]; [done|]. cbn [map concat]. by rewrite length_app, IH, length_le_split. }
  by rewrite El, Nat.Div0.mod_mul, Nat.div_mul, splitLoop_hashes by done.
Qed.

End cache.

(** *** Signatures *)

Section trust.
Context `{sigs : Signatures} `{zlib : Zlib} {reads : CertCompressionProofs.ZlibReads}.
Context (certSets : gmap Z (list (list Z))) (certDictZlib : list Z) (unicodeLower : list Z -> list Z).

(** The two keys belong together: what the one signs, the other verifies.  A signature
    is not empty and fits into a message. *)
Definition key_pair (sk : ServerProof.privateKey) (pk : ServerProof.publicKey) : Prop :=
  match sk, pk with
  | ServerProof.RSAPrivateKey k, ServerProof.RSAPublicKey p => forall digest, exists sig,
      Sign k (Some 32) digest = Ok sig /\ sig <> [] /\ value_ok sig /\ VerifyPSS p 32 digest sig = true
  | ServerProof.SignerKey k, ServerProof.ECDSAPublicKey p => forall digest, exists sig r s,
      Sign k None digest = Ok sig /\ sig <> [] /\ value_ok sig
      /\ Unmarshal sig = Some (r, s, []) /\ VerifyECDSA p digest r s = true
  | _, _ => False
  end.

Lemma proof_verifies sk pk chlo scfg : key_pair sk pk -> exists proof,
  ServerProof.signServerProof sk chlo scfg = Ok proof /\ proof <> [] /\ value_ok proof
  /\ ServerProof.verifyServerProof proof pk chlo scfg = Ok true.
Proof.
  intros Hk. destruct sk as [k|k|], pk as [p|p|]; try done; specialize (Hk (ServerProof.proofHash chlo scfg)).
  - destruct Hk as (sig & H1 & H2 & H3 & H4). exists sig. cbn. by rewrite H1, H4.
  - destruct Hk as (sig & r & t & H1 & H2 & H3 & H4 & H5). exists sig. cbn. by rewrite H1, H4, H5.
Qed.

(** The client knows how to read the certificates of the chain. *)
Lemma parseAll_chain (x509 : X509Lib) chain : Forall (fun c => ParseCertificate c = Ok c) chain ->
  CertManager.parseAll chain = Ok chain.
Proof. induction 1 as [|c chain Hc _ IH]; [done|]. cbn [CertManager.parseAll]. by rewrite Hc, IH. Qed.

(** A chain the server can send: it is readable, not too long, the zlib reader of the
    client has no short read on it, and the cache has no other answer under its key. *)
Definition sendable (cache : gmap Z (list Z)) (order : list Z) (parse : list Z -> res (list Z)) (chain : list (list Z)) : Prop :=
  let ccs := CertCompression.getCommonCertificateHashes order in
  Forall (fun c => c <> [] /\ parse c = Ok c) chain
  /\ CertCompression.uncompressedLen (CertCompression.buildEntries certSets chain [] order) chain < 2 ^ 32
  /\ CertCompressionProofs.full_reads certDictZlib (CertCompression.buildEntries certSets chain [] order) chain
  /\ (forall data, CertCompression.compressChain certSets certDictZlib chain ccs [] = Ok data -> value_ok data)
  /\ cache_agrees certSets certDictZlib cache chain ccs [].

End trust.

(** C33: certificates and signatures.  A server whose certificate for the name has a
    private key that belongs to the public key of the leaf, and whose chain can be
    sent (its certificates parse and it fits a message, the reads of zlib are not short
    on it, and the cache holds no other chain under its key), fits a client that
    verifies the chain, always for the name quic.clemente.io, or skips the
    verification: the client gets the same chain through the compression,
    the common sets and the cache, and accepts the signature of every server config
    under every client hello.  This is what the handshake asks of the two ends. *)
Theorem certChain_trusted `{sigs : Signatures} `{zlib : Zlib} {reads : CertCompressionProofs.ZlibReads}
  (certSets : gmap Z (list (list Z))) (certDictZlib : list Z) (unicodeLower : list Z -> list Z)
  (evict : gmap Z (list Z) -> gmap Z (list Z)) (cache : gmap Z (list Z)) (c : CertChain.t) (order : list Z)
  (parse : list Z -> res (list Z)) (publicKeyOf : list Z -> ServerProof.publicKey) (verify : list (list Z) -> list Z -> res unit)
  (scfg : Server.config) (ccfg : Client.config) (skip : bool) (cert : CertChain.Certificate) (leaf : list Z) (rest : list (list Z))
  (Hsets : CertCompressionProofs.sets_ok certSets) (Horder : Forall (in_width 64) order)
  (Hcert : CertChain.getCertForSNI unicodeLower c ccfg.(Client.hostname) = Ok cert)
  (Hchain : cert.(CertChain.certificate) = leaf :: rest)
  (Hkeys : key_pair cert.(CertChain.PrivateKey) (publicKeyOf leaf))
  (Hsend : sendable certSets certDictZlib cache order parse (leaf :: rest))
  (Hverify : skip = true \/ verify (leaf :: rest) Client.verifiedHostname = Ok tt) :
  HandshakeProofs.trusts (chain:=CertChain.server_chain certSets certDictZlib unicodeLower evict cache c)
    (x509:=CertChain.client_library certSets certDictZlib order parse publicKeyOf verify) scfg ccfg skip leaf.
Proof.
  destruct Hsend as (Hp & Hlen & Hfull & Hfit & Hcache). apply Forall_and in Hp as [Hne Hparse]. split_and!.
  - cbn. unfold CertChain.GetLeafCert. rewrite Hcert. cbn. by rewrite Hchain.
  - by inversion Hne.
  - assert (R : exists data, CertCompression.compressChain certSets certDictZlib (leaf :: rest)
                  (CertCompression.getCommonCertificateHashes order) [] = Ok data
                /\ CertCompression.decompressChain certSets certDictZlib data = Ok (leaf :: rest)).
    { by apply (CertCompressionProofs.chain_roundtrip certSets certDictZlib (reads:=reads) _ _ order); [..|apply splitHashes_common| |]. }
    destruct R as (data & E1 & E2). exists data, (leaf :: rest), rest. split_and!; [|by apply Hfit|exact E2|by apply parseAll_chain|].
    + cbn. unfold CertChain.GetCertsCompressed. rewrite Hcert, Hchain. by rewrite getCompressedCert_agrees.
    + unfold CertManager.Verify. cbn [CertManager.chain CertManager.InsecureSkipVerify]. destruct skip; [done|].
      destruct Hverify as [?|Hv]; [done|exact Hv].
  - intros chlo. cbn. unfold CertChain.SignServerProof. rewrite Hcert. by apply proof_verifies.
Qed.

(** ** Examples *)

(** A signature that is a hash of the digest *)
Definition demo_sigs : Signatures :=
  {| Sum256 l := [fnv64a l]; SK := unit; PK := unit; Sign _ _ d := Ok [fnv64a d]; VerifyPSS _ _ d s := bool_decide (s = [fnv64a d]);
     Unmarshal l := match l with r :: rest => Some (r, 0, rest) | [] => None end; VerifyECDSA _ d r _ := bool_decide (r = fnv64a d) |}.

Definition demo_cert : CertChain.Certificate (sigs:=demo_sigs) :=
  CertChain.mkCert (sigs:=demo_sigs) CertCompressionProofs.demo_chain (ServerProof.RSAPrivateKey (sigs:=demo_sigs) tt).
Definition other_cert : CertChain.Certificate (sigs:=demo_sigs) :=
  CertChain.mkCert (sigs:=demo_sigs) [[7]] (ServerProof.NoSigner (sigs:=demo_sigs)).
(** ["*.io"] and ["quic.io."], in capital letters *)
Definition demo_server : CertChain.t (sigs:=demo_sigs) :=
  CertChain.mk (sigs:=demo_sigs)
    (CertChain.mkConfig (sigs:=demo_sigs) None [other_cert; demo_cert] (Some {[ [42; 46; 105; 111] := demo_cert ]})) None.
Definition demo_name : list Z := [81; 85; 73; 67; 46; 73; 79; 46].
Definition demo_client : Client.config := Client.mkConfig demo_name 7 Version39 [] false false.

Lemma certChain_trusted_witness :
  CertChain.getCertForSNI (sigs:=demo_sigs) id demo_server demo_name = Ok demo_cert
  /\ HandshakeProofs.trusts
    (chain:=CertChain.server_chain (sigs:=demo_sigs) (zlib:=CertCompressionProofs.stored_zlib 1024) CertCompressionProofs.demo_sets [] id id ∅ demo_server)
    (x509:=CertChain.client_library (sigs:=demo_sigs) (zlib:=CertCompressionProofs.stored_zlib 1024) CertCompressionProofs.demo_sets [] [0x1111] Ok
       (fun _ => ServerProof.RSAPublicKey (sigs:=demo_sigs) tt) (fun _ _ => Ok tt))
    HandshakeProofs.demo_scfg demo_client false [48; 130; 5; 6; 7].
Proof.
  assert (Ec : CertChain.getCertForSNI (sigs:=demo_sigs) id demo_server demo_name = Ok demo_cert).
  { change (Ok (CertChain.lookupName (sigs:=demo_sigs) id other_cert {[ [42; 46; 105; 111] := demo_cert ]} demo_name) = Ok demo_cert).
    unfold CertChain.lookupName. replace (CertChain.trimDots (CertChain.ToLower id demo_name)) with [113; 117; 105; 99; 46; 105; 111] by reflexivity.
    rewrite lookup_singleton_ne by discriminate. cbn [CertChain.Split CertChain.wildcard CertChain.Join app Z.eqb Pos.eqb].
    rewrite lookup_singleton_eq. reflexivity. }
  split; [exact Ec|].
  apply (certChain_trusted (sigs:=demo_sigs) (zlib:=CertCompressionProofs.stored_zlib 1024) (reads:=CertCompressionProofs.stored_reads 1024)
    CertCompressionProofs.demo_sets [] id id ∅ demo_server [0x1111] Ok
    (fun _ => ServerProof.RSAPublicKey (sigs:=demo_sigs) tt) (fun _ _ => Ok tt) HandshakeProofs.demo_scfg demo_client false
    demo_cert [48; 130; 5; 6; 7] [[48; 2; 2]; [48; 9]]).
  - intros h set. unfold CertCompressionProofs.demo_sets. rewrite lookup_singleton_Some. intros [<- <-].
    split; [split; [lia|reflexivity]|reflexivity].
  - constructor; [split; [lia|reflexivity]|constructor].
  - exact Ec.
  - reflexivity.
  - intros digest. exists [fnv64a digest]. split_and!; [reflexivity|discriminate|unfold value_ok; cbn; vm_compute; congruence|].
    by apply bool_decide_eq_true_2.
  - split_and!.
    + repeat constructor; discriminate.
    + vm_compute. reflexivity.
    + intros gz rdr [= <-] [= <-]. vm_compute. repeat split.
    + intros data E. vm_compute in E. injection E as <-. vm_compute. congruence.
    + intros r E. rewrite lookup_empty in E. discriminate.
  - right. reflexivity.
Defined.

End CertChainProofs.
