(* ===== verification/Mint.v ===== *)
(** * Connections of the TLS stack ([bifurcation/mint]: [conn.go], [crypto.go], the state machines)

    What the crypto setup of QUIC uses of the vendored TLS 1.3 stack: a connection with
    its configuration, the control of its handshake in blocking and non-blocking mode,
    the order of the handshake states, the exporter, and HKDF.  What the states compute
    from the messages of the peer is not modelled: every call of [Next] has an answer,
    the next state, its alert, and the alert of its actions, which the step relation
    [next] restricts to what the state machines return. *)

From S2P Require Import Prelude ByteOrder Protocol ServerConfig Fnv Aead CryptoSetup CertChain.

(** [crypto.Hash]: digests and HMAC of the standard library *)
Class StdHash : Type := {
  Digest : Z -> list Z -> list Z;
  HMAC : Z -> list Z -> list Z -> list Z
}.

Module Mint.

(** ** Hashes and HKDF *)

(** The sizes of the standard library's digests by their number, from [MD4] on *)
Definition digestSizes : list nat :=
  [16; 16; 20; 28; 32; 48; 64; 36; 20; 28; 32; 48; 64; 28; 32; 32; 32; 48; 64]%nat.
Definition SHA256 : Z := 5.
Definition SHA384 : Z := 6.

(** [Hash.Size] panics for an unknown hash, also for the zero value. *)
Definition HashSize (h : Z) : res nat :=
  if 0 <? h then match digestSizes !! Z.to_nat (h - 1) with Some n => Ok n | None => Panic end else Panic.

Section hkdf.
Context `{hash : StdHash}.

Definition hkdfEncodeLabel (labelIn : string) (hashValue : list Z) (outLen : nat) : list Z :=
  let label := labelBytes (String.append "tls13 " labelIn) in
  [u8 (Z.shiftr (Z.of_nat outLen) 8); u8 (Z.of_nat outLen); u8 (Z.of_nat (length label))] ++ label
  ++ [u8 (Z.of_nat (length hashValue))] ++ hashValue.

(** The loop; every round adds a digest, which is not empty, so that [outLen] is enough
    fuel. *)
Fixpoint expandLoop (fuel : nat) (h : Z) (prk info : list Z) (outLen : nat) (out T : list Z) (i : Z) : list Z :=
  match fuel with
  | O => out
  | S fuel =>
      if (length out <? outLen)%nat
      then let T := HMAC h prk (T ++ info ++ [i]) in expandLoop fuel h prk info outLen (out ++ T) T (u8 (i + 1))
      else out
  end.

Definition HkdfExpand (h : Z) (prk info : list Z) (outLen : nat) : list Z :=
  take outLen (expandLoop outLen h prk info outLen [] [] 1).

Definition HkdfExpandLabel (h : Z) (secret : list Z) (label : string) (hashValue : list Z) (outLen : nat) : list Z :=
  HkdfExpand h secret (hkdfEncodeLabel label hashValue outLen) outLen.

End hkdf.

(** ** Cipher suites *)

Record CipherSuiteParams : Type := mkSuite { Suite : Z; Hash : Z; KeyLen : nat; IvLen : nat }.

Definition TLS_AES_128_GCM_SHA256 : Z := 0x1301.
Definition TLS_AES_256_GCM_SHA384 : Z := 0x1302.

(** [cipherSuiteMap]; a suite that is not in the map gives the zero value. *)
Definition noSuite : CipherSuiteParams := mkSuite 0 0 0 0.
Definition cipherSuiteMap (suite : Z) : CipherSuiteParams :=
  if suite =? TLS_AES_128_GCM_SHA256 then mkSuite TLS_AES_128_GCM_SHA256 SHA256 16 12
  else if suite =? TLS_AES_256_GCM_SHA384 then mkSuite TLS_AES_256_GCM_SHA384 SHA384 32 12
  else noSuite.

(** ** Alerts *)

Definition AlertCloseNotify : Z := 0.
Definition AlertInternalError : Z := 80.
Definition AlertStatelessRetry : Z := 253.
Definition AlertWouldBlock : Z := 254.
Definition AlertNoAlert : Z := 255.

(** ** Handshake states *)

(** [StateConnected], as far as the exporter uses it *)
Record connected : Type := mkConnected {
  paramsCipherSuite : Z;
  cryptoParams : CipherSuiteParams;
  exporterSecret : option (list Z)
}.
Definition zeroConnected : connected := mkConnected 0 noSuite None.

Inductive HandshakeState : Type :=
| ClientStateStart
| ClientStateWaitSH
| ClientStateWaitEE
| ClientStateWaitCertCR
| ClientStateWaitCert
| ClientStateWaitCV
| ClientStateWaitFinished
| ServerStateStart
| ServerStateNegotiated
| ServerStateWaitEOED
| ServerStateWaitFlight2
| ServerStateWaitCert
| ServerStateWaitCV
| ServerStateWaitFinished
| StateConnected (c : connected).

(** What a call of [Next] returns: the next state ([nil] with an alert), the alert, and
    the first alert of the actions that go with it. *)
Record answer : Type := mkAnswer { nextState : option HandshakeState; alert : Z; actions : Z }.

(** The states that follow one another, as the [Next] methods of
    [client-state-machine.go] and [server-state-machine.go] return them *)
Inductive next : HandshakeState -> option HandshakeState -> Z -> Prop :=
| next_alert s a : a <> AlertNoAlert -> a <> AlertStatelessRetry -> next s None a
| client_start : next ClientStateStart (Some ClientStateWaitSH) AlertNoAlert
| client_retry : next ClientStateWaitSH (Some ClientStateStart) AlertNoAlert
| client_sh : next ClientStateWaitSH (Some ClientStateWaitEE) AlertNoAlert
| client_ee : next ClientStateWaitEE (Some ClientStateWaitCertCR) AlertNoAlert
| client_psk : next ClientStateWaitEE (Some ClientStateWaitFinished) AlertNoAlert
| client_cr_cert : next ClientStateWaitCertCR (Some ClientStateWaitCV) AlertNoAlert
| client_cr : next ClientStateWaitCertCR (Some ClientStateWaitCert) AlertNoAlert
| client_cert : next ClientStateWaitCert (Some ClientStateWaitCV) AlertNoAlert
| client_cv : next ClientStateWaitCV (Some ClientStateWaitFinished) AlertNoAlert
| client_finished c : next ClientStateWaitFinished (Some (StateConnected c)) AlertNoAlert
| server_retry : next ServerStateStart (Some ServerStateStart) AlertStatelessRetry
| server_start : next ServerStateStart (Some ServerStateNegotiated) AlertNoAlert
| server_early : next ServerStateNegotiated (Some ServerStateWaitEOED) AlertNoAlert
| server_negotiated : next ServerStateNegotiated (Some ServerStateWaitFlight2) AlertNoAlert
| server_eoed : next ServerStateWaitEOED (Some ServerStateWaitFlight2) AlertNoAlert
| server_auth : next ServerStateWaitFlight2 (Some ServerStateWaitCert) AlertNoAlert
| server_flight2 : next ServerStateWaitFlight2 (Some ServerStateWaitFinished) AlertNoAlert
| server_no_cert : next ServerStateWaitCert (Some ServerStateWaitFinished) AlertNoAlert
| server_cert : next ServerStateWaitCert (Some ServerStateWaitCV) AlertNoAlert
| server_cv : next ServerStateWaitCV (Some ServerStateWaitFinished) AlertNoAlert
| server_finished c : next ServerStateWaitFinished (Some (StateConnected c)) AlertNoAlert.

(** The answers are those of the state machine from the state [s] on. *)
Fixpoint follows (s : HandshakeState) (answers : list answer) : Prop :=
  match answers with
  | [] => True
  | a :: answers => next s a.(nextState) a.(alert)
      /\ match a.(nextState) with Some s => follows s answers | None => True end
  end.

Section conn.
Context `{sigs : Signatures}.

(** ** The configuration *)

(** [Config], as far as it is read here; the crypto setup leaves [RequireCookie] and
    [SendSessionTickets] off, so that their branches of the handshake are not taken. *)
Record Config : Type := mkConfig {
  NonBlocking : bool;
  CipherSuites : list Z;
  Certificates : list (list (list Z) * SK);
  ServerName : list Z
}.

Definition defaultSupportedCipherSuites : list Z := [TLS_AES_128_GCM_SHA256; TLS_AES_256_GCM_SHA384].

(** [selfSigned] makes a key and a certificate of its own for a name. *)
Definition Init (selfSigned : list Z -> res (list (list Z) * SK)) (c : Config) (isClient : bool) : res Config :=
  let suites := match c.(CipherSuites) with [] => defaultSupportedCipherSuites | l => l end in
  match c.(Certificates) with
  | [] =>
      if isClient then Ok (mkConfig c.(NonBlocking) suites [] c.(ServerName))
      else cert ← selfSigned c.(ServerName); Ok (mkConfig c.(NonBlocking) suites [cert] c.(ServerName))
  | certs => Ok (mkConfig c.(NonBlocking) suites certs c.(ServerName))
  end.

(** ** Connections *)

Record Conn : Type := mkConn {
  config : Config;
  isClient : bool;
  state : connected;
  hState : option HandshakeState;
  handshakeAlert : Z;
  handshakeComplete : bool
}.

(** [NewConn]; the zero value of the alert is [AlertCloseNotify]. *)
Definition NewConn (conf : Config) (client : bool) : Conn := mkConn conf client zeroConnected None 0 false.

Definition set_config (c : Conn) (conf : Config) : Conn :=
  mkConn conf c.(isClient) c.(state) c.(hState) c.(handshakeAlert) c.(handshakeComplete).

(** [c.hState = state], with the end of the handshake *)
Definition enter (c : Conn) (s : option HandshakeState) : Conn :=
  match s with
  | Some (StateConnected k) => mkConn c.(config) c.(isClient) k s c.(handshakeAlert) true
  | _ => mkConn c.(config) c.(isClient) c.(state) s c.(handshakeAlert) c.(handshakeComplete)
  end.

Context (selfSigned : list Z -> res (list (list Z) * SK)).

(** The first answer is that of [ClientStateStart.Next]; [None] stands for a call that
    has not returned. *)
Definition HandshakeSetup (answers : list answer) (c : Conn) : option (Conn * Z) :=
  match Init selfSigned c.(config) c.(isClient) with
  | Ok conf =>
      let c := set_config c conf in
      if c.(isClient) then
        match answers with
        | [] => None
        | a :: _ =>
            if negb (a.(alert) =? AlertNoAlert) then Some (c, a.(alert))
            else if negb (a.(actions) =? AlertNoAlert) then Some (c, a.(actions))
            else Some (enter c a.(nextState), AlertNoAlert)
        end
      else Some (enter c (Some ServerStateStart), AlertNoAlert)
  | _ => Some (c, AlertInternalError)
  end.

(** The loop of [Handshake]; it waits for a message when the answers end. *)
Fixpoint advance (answers : list answer) (c : Conn) : option (Conn * Z) :=
  match answers with
  | [] => None
  | a :: answers =>
      if negb (a.(alert) =? AlertNoAlert) && negb (a.(alert) =? AlertStatelessRetry) then Some (c, a.(alert))
      else if negb (a.(actions) =? AlertNoAlert) then Some (c, a.(actions))
      else
        let c := enter c a.(nextState) in
        if c.(config).(NonBlocking) then Some (c, a.(alert))
        else match a.(nextState) with
             | Some (StateConnected _) => Some (c, AlertNoAlert)
             | _ => advance answers c
             end
  end.

Definition reenter (answers : list answer) (c : Conn) : option (Conn * Z) :=
  match c.(hState) with Some (StateConnected _) => Some (c, AlertNoAlert) | _ => advance answers c end.

Definition Handshake (answers : list answer) (c : Conn) : option (Conn * Z) :=
  if negb (c.(handshakeAlert) =? AlertNoAlert) && negb (c.(handshakeAlert) =? AlertCloseNotify) then Some (c, c.(handshakeAlert))
  else if c.(handshakeComplete) then Some (c, AlertNoAlert)
  else
    match c.(hState) with
    | Some _ => reenter answers c
    | None =>
        match HandshakeSetup answers c with
        | None => None
        | Some (c, a) =>
            if negb (a =? AlertNoAlert) || c.(isClient) && c.(config).(NonBlocking) then Some (c, a)
            else reenter (if c.(isClient) then tail answers else answers) c
        end
    end.

(** [State().CipherSuite]; without a state [GetHsState] dereferences [nil]. *)
Definition StateCipherSuite (c : Conn) : res CipherSuiteParams :=
  match c.(hState) with
  | None => Panic
  | Some _ => Ok (if c.(handshakeComplete) then cipherSuiteMap c.(state).(paramsCipherSuite) else noSuite)
  end.

Definition deriveSecret `{hash : StdHash} (params : CipherSuiteParams) (secret : list Z) (label : string)
    (messageHash : list Z) : res (list Z) :=
  n ← HashSize params.(Hash); Ok (HkdfExpandLabel params.(Hash) secret label messageHash n).

Definition ComputeExporter `{hash : StdHash} (c : Conn) (label : string) (context : list Z) (keyLength : nat) : res (list Z) :=
  match c.(hState) with
  | Some (StateConnected _) =>
      match c.(state).(exporterSecret) with
      | None => Err (Errorf "Internal error: no exporter secret" [])
      | Some secret =>
          let params := c.(state).(cryptoParams) in
          tmpSecret ← deriveSecret params secret label (Digest params.(Hash) []);
          Ok (HkdfExpandLabel params.(Hash) tmpSecret "exporter" (context ++ Digest params.(Hash) []) keyLength)
      end
  | _ => Err (Errorf "Cannot compute exporter when state is not connected" [])
  end.

End conn.
End Mint.

(** ** Proofs *)

Module MintProofs.
Import Mint.

Section hkdf.
Context `{hash : StdHash}.

(** The digest of a hash that is not empty *)
Definition digests (h : Z) : Prop := forall key m, HMAC h key m <> [].

Lemma expandLoop_length h prk info outLen : digests h -> forall fuel out T i,
  (outLen <= fuel + length out)%nat -> (outLen <= length (expandLoop fuel h prk info outLen out T i))%nat.
Proof.
  intros Hd. induction fuel as [|fuel IH]; intros out T i Hf; cbn [expandLoop]; [lia|].
  destruct (Nat.ltb_spec (length out) outLen); [|lia]. apply IH. rewrite length_app.
  specialize (Hd prk (T ++ info ++ [i])). destruct (HMAC _ _ _); [done|]. cbn [length]. lia.
Qed.

(** HKDF yields as many bytes as it is asked for. *)
Lemma HkdfExpandLabel_length h secret label hashValue outLen : digests h ->
  length (HkdfExpandLabel h secret label hashValue outLen) = outLen.
Proof.
  intros Hd. unfold HkdfExpandLabel, HkdfExpand. rewrite length_take_le; [done|]. apply expandLoop_length; [done|lia].
Qed.

End hkdf.

Section conn.
Context `{sigs : Signatures}.

(** The second [Init] of a connection, in [HandshakeSetup], does nothing. *)
Lemma Init_again selfSigned c client c' name : Init selfSigned c client = Ok c' ->
  let c1 := mkConfig c'.(NonBlocking) c'.(CipherSuites) c'.(Certificates) name in Init selfSigned c1 client = Ok c1.
Proof.
  unfold Init. intros H. destruct c as [nb cs [|cert certs] sn]; cbn in *.
  - destruct client; [injection H as <-; by destruct cs|]. destruct (selfSigned sn); [|done..]. injection H as <-. by destruct cs.
  - injection H as <-. by destruct cs.
Qed.

Lemma Init_nonblocking selfSigned c client c' : Init selfSigned c client = Ok c' -> c'.(NonBlocking) = c.(NonBlocking).
Proof.
  unfold Init. intros H. destruct (Certificates c); [|by injection H as <-]. destruct client; [by injection H as <-|].
  destruct (selfSigned _); [|done..]. by injection H as <-.
Qed.

(** From the first state of an end, one call does not connect. *)
Lemma next_start (client : bool) o a : next (if client then ClientStateStart else ServerStateStart) o a ->
  o = None /\ a <> AlertNoAlert /\ a <> AlertStatelessRetry
  \/ exists s, o = Some s /\ (forall k, s <> StateConnected k) /\ (a = AlertNoAlert \/ a = AlertStatelessRetry /\ client = false).
Proof. destruct client; inversion 1; subst; eauto; right; eexists; split_and!; eauto. Qed.

(** What the first call on a non-blocking connection returns, by the first answer *)
Definition firstAlert (x : answer) : Z :=
  if negb (x.(alert) =? AlertNoAlert) && negb (x.(alert) =? AlertStatelessRetry) then x.(alert)
  else if negb (x.(actions) =? AlertNoAlert) then x.(actions) else x.(alert).

(** The handshake is not complete after it. *)
Lemma nonblocking_first selfSigned conf (client : bool) answers :
  Init selfSigned conf client = Ok conf -> conf.(NonBlocking) = true ->
  follows (if client then ClientStateStart else ServerStateStart) answers ->
  match Handshake selfSigned answers (NewConn conf client) with
  | None => answers = []
  | Some (c, a) => c.(handshakeComplete) = false /\ (a = AlertNoAlert -> is_Some c.(hState))
      /\ exists x rest, answers = x :: rest /\ a = firstAlert x
  end.
Proof.
  intros Hi Hn Hf. unfold Handshake, HandshakeSetup. cbn [NewConn handshakeAlert handshakeComplete hState config isClient Z.eqb Pos.eqb negb andb].
  rewrite Hi. destruct answers as [|x rest]; [by destruct client|]. destruct Hf as [Hx _]. apply next_start in Hx.
  assert (Hend : forall (hc : bool) (hs : option HandshakeState) a, hc = false -> (a = AlertNoAlert -> is_Some hs) -> a = firstAlert x ->
    hc = false /\ (a = AlertNoAlert -> is_Some hs) /\ exists x' rest', x :: rest = x' :: rest' /\ a = firstAlert x')
    by (intros; split_and!; eauto).
  unfold firstAlert in Hend at 1. destruct client; cbn [set_config isClient NewConn].
  - destruct Hx as [(_ & H1 & H2)|(s & Es & Hs & [H1|[_ ?]])]; [| |done].
    { rewrite (proj2 (Z.eqb_neq _ _) H1), (proj2 (Z.eqb_neq _ _) H2) in *. cbn. rewrite (proj2 (Z.eqb_neq _ _) H1). cbn. by apply Hend. }
    rewrite H1 in *. cbn [negb andb Z.eqb Pos.eqb AlertNoAlert] in *. fold AlertNoAlert in *.
    destruct (Z.eqb_spec x.(actions) AlertNoAlert) as [Ec|Ec]; cbn [negb] in *.
    + rewrite Es. destruct s; try (by edestruct Hs); cbn; rewrite Hn; by apply Hend.
    + rewrite (proj2 (Z.eqb_neq _ _) Ec). cbn. by apply Hend.
  - unfold reenter. cbn.
    destruct (negb (_ =? AlertNoAlert) && _) eqn:E1.
    { apply Hend; [done| |done]. intros E. rewrite E in E1. done. }
    destruct (Z.eqb_spec x.(actions) AlertNoAlert) as [Ec|Ec]; cbn [negb] in *; [|by apply Hend].
    destruct Hx as [(_ & H1 & H2)|(s & Es & Hs & _)].
    { rewrite (proj2 (Z.eqb_neq _ _) H1), (proj2 (Z.eqb_neq _ _) H2) in E1. done. }
    rewrite Es. destruct s; try (by edestruct Hs); cbn; rewrite Hn; by apply Hend.
Qed.

End conn.
End MintProofs.
