(* ===== verification/TlsSetup.v ===== *)
(** * The TLS crypto setup ([internal/handshake/crypto_setup_tls.go], [mint_utils.go],
      [internal/crypto/key_derivation.go], [aesgcm_aead.go])

    The handshake of the version that uses TLS 1.3: the TLS stack runs over the crypto
    stream, and the packet keys are derived from the secrets it exports.  The stack is
    that of [Mint.v]; AES-GCM of the standard library with its 16-byte tags is an
    interface.  Connected ends with the same exporter secret derive keys with which
    each opens what the other one seals, but the handler of the crypto stream, which
    calls a non-blocking handshake once, never gets that far. *)

From S2P Require Import Prelude ByteOrder Protocol WireHeader Fnv Gcm Aead HandshakeMessage ServerConfig CryptoSetup CertCompression CertChain Mint.

(** [aes.NewCipher] and [cipher.NewGCM] for a key of 16, 24 or 32 bytes: what a key seals
    with a nonce of 12 bytes it opens with the same nonce and associated data. *)
Class StdGCM : Type := {
  GcmSeal : list Z -> list Z -> list Z -> list Z -> list Z;
  GcmOpen : list Z -> list Z -> list Z -> list Z -> res (list Z);
  Gcm_roundtrip key nonce src ad : length nonce = 12%nat -> GcmOpen key nonce (GcmSeal key nonce src ad) ad = Ok src;
  Gcm_length key nonce src ad : length (GcmSeal key nonce src ad) = (length src + 16)%nat
}.

(** ** AES-GCM of the standard library *)

Module AesGcm.
Section gcm.
Context `{gcm : StdGCM}.

Definition ivLen : nat := 12.

(** The packet number as a big-endian integer of 12 bytes, xor the IV *)
Definition makeNonce (iv : list Z) (packetNumber : Z) : list Z :=
  zip_with Z.lxor (replicate (ivLen - 8) 0 ++ be_split 8 packetNumber) (take ivLen iv).

Definition checkKey (key : list Z) : res unit :=
  if decide (length key = 16 \/ length key = 24 \/ length key = 32)%nat then Ok tt
  else Err (Errorf "crypto/aes: invalid key size " [Z.of_nat (length key)]).

Definition NewAEADAESGCM (otherKey myKey otherIV myIV : list Z) : res AEAD :=
  if negb (Nat.eqb (length otherIV) ivLen) || negb (Nat.eqb (length myIV) ivLen)
  then Err (ErrorsNew "AES-GCM: expected 12 byte IVs")
  else
    _ ← checkKey myKey;
    _ ← checkKey otherKey;
    Ok (mkAEAD (fun src pn ad => GcmOpen otherKey (makeNonce otherIV pn) src ad)
               (fun src pn ad => Ok (GcmSeal myKey (makeNonce myIV pn) src ad)) 16).

End gcm.
End AesGcm.

(** ** Key derivation *)

Module TlsKeys.
Section keys.
Context `{hash : StdHash} `{gcm : StdGCM} `{sigs : Signatures}.

Definition clientExporterLabel : string := "EXPORTER-QUIC client 1-RTT Secret".
Definition serverExporterLabel : string := "EXPORTER-QUIC server 1-RTT Secret".

Definition computeKeyAndIV (mc : Mint.Conn) (label : string) : res (list Z * list Z) :=
  cs ← Mint.StateCipherSuite mc;
  size ← Mint.HashSize cs.(Mint.Hash);
  secret ← Mint.ComputeExporter mc label [] size;
  Ok (Mint.HkdfExpandLabel cs.(Mint.Hash) secret "key" [] cs.(Mint.KeyLen),
      Mint.HkdfExpandLabel cs.(Mint.Hash) secret "iv" [] cs.(Mint.IvLen)).

Definition DeriveAESKeys (mc : Mint.Conn) (pers : Perspective) : res AEAD :=
  let '(myLabel, otherLabel) :=
    if isClient pers then (clientExporterLabel, serverExporterLabel) else (serverExporterLabel, clientExporterLabel) in
  '(myKey, myIV) ← computeKeyAndIV mc myLabel;
  '(otherKey, otherIV) ← computeKeyAndIV mc otherLabel;
  AesGcm.NewAEADAESGCM otherKey myKey otherIV myIV.

End keys.
End TlsKeys.

(** ** The setup *)

Module TlsSetup.
Section setup.
Context `{hash : StdHash} `{gcm : StdGCM} `{sigs : Signatures}.

(** The certificates of a chain, parsed *)
Fixpoint parseChain (parse : list Z -> res (list Z)) (l : list (list Z)) : res (list (list Z)) :=
  match l with
  | [] => Ok []
  | d :: l => c ← parse d; cs ← parseChain parse l; Ok (c :: cs)
  end.

(** The key has to be a [crypto.Signer]; the type assertion is not checked. *)
Definition mintCertificate (parse : list Z -> res (list Z)) (c : CertChain.Certificate) : res (list (list Z) * SK) :=
  key ← match c.(CertChain.PrivateKey) with
        | ServerProof.RSAPrivateKey k | ServerProof.SignerKey k => Ok k
        | ServerProof.NoSigner => Panic
        end;
  chain ← parseChain parse c.(CertChain.certificate);
  Ok (chain, key).

Fixpoint mintCertificates (parse : list Z -> res (list Z)) (l : list CertChain.Certificate) : res (list (list (list Z) * SK)) :=
  match l with
  | [] => Ok []
  | c :: l => m ← mintCertificate parse c; ms ← mintCertificates parse l; Ok (m :: ms)
  end.

(** The handshake is non-blocking.  [selfSigned] is that of [Mint.Init]. *)
Definition tlsToMintConfig (parse : list Z -> res (list Z)) (selfSigned : list Z -> res (list (list Z) * SK))
    (tlsConf : option (list CertChain.Certificate)) (pers : Perspective) : res Mint.Config :=
  certs ← mintCertificates parse (default [] tlsConf);
  Mint.Init selfSigned (Mint.mkConfig true [Mint.TLS_AES_128_GCM_SHA256; Mint.TLS_AES_256_GCM_SHA384] certs []) (isClient pers).

Record t : Type := mk {
  perspective : Perspective;
  mintConf : Mint.Config;
  conn : Mint.Conn;
  nullAEAD : AEAD;
  aead : option AEAD;
  aeadChanged : AeadChan
}.

Definition set_conn (c : Mint.Conn) (h : t) : t := mk h.(perspective) h.(mintConf) c h.(nullAEAD) h.(aead) h.(aeadChanged).
Definition set_aead (a : AEAD) (h : t) : t := mk h.(perspective) h.(mintConf) h.(conn) h.(nullAEAD) (Some a) h.(aeadChanged).
Definition set_aeadChanged (c : AeadChan) (h : t) : t :=
  mk h.(perspective) h.(mintConf) h.(conn) h.(nullAEAD) h.(aead) c.

(** [mint.Server] or [mint.Client] over the crypto stream *)
Definition NewCryptoSetupTLS (parse : list Z -> res (list Z)) (selfSigned : list Z -> res (list (list Z) * SK))
    (hostname : list Z) (pers : Perspective) (version : Z) (tlsConf : option (list CertChain.Certificate)) : res t :=
  conf ← tlsToMintConfig parse selfSigned tlsConf pers;
  let conf := Mint.mkConfig conf.(Mint.NonBlocking) conf.(Mint.CipherSuites) conf.(Mint.Certificates) hostname in
  Ok (mk pers conf (Mint.NewConn conf (isClient pers)) (NullAEAD.NewNullAEAD pers version) None (mkChan [] false)).

Definition errHandshake (alert : Z) : error := Errorf "TLS handshake error: %s (Alert %d)" [alert].

(** After the call of [Handshake] *)
Definition afterHandshake (c : Mint.Conn) (alert : Z) : ST t unit :=
  h ← get;
  _ ← modify (set_conn c);
  _ ← require (alert =? Mint.AlertNoAlert) (errHandshake alert);
  a ← lift (TlsKeys.DeriveAESKeys c h.(perspective));
  _ ← modify (set_aead a);
  h ← get;
  ch ← lift (sendLevel h.(aeadChanged) EncryptionForwardSecure);
  _ ← modify (set_aeadChanged ch);
  ch ← lift (closeChan ch);
  modify (set_aeadChanged ch).

(** [None] while it waits for a message of the peer; [answers] are those of the TLS
    state machine *)
Definition HandleCryptoStream (selfSigned : list Z -> res (list (list Z) * SK)) (answers : list Mint.answer) (h : t)
  : option (t * res unit) :=
  match Mint.Handshake selfSigned answers h.(conn) with
  | None => None
  | Some (c, alert) => Some (afterHandshake c alert h)
  end.

Definition Open (src : list Z) (packetNumber : Z) (associatedData : list Z) (h : t) : res (list Z * Z) :=
  match h.(aead) with
  | Some a => data ← Aead.Open a src packetNumber associatedData; Ok (data, EncryptionForwardSecure)
  | None => data ← Aead.Open h.(nullAEAD) src packetNumber associatedData; Ok (data, EncryptionUnencrypted)
  end.

Definition GetSealer (h : t) : Z * AEAD :=
  match h.(aead) with Some a => (EncryptionForwardSecure, a) | None => (EncryptionUnencrypted, h.(nullAEAD)) end.

Definition errNoSealer (encLevel : Z) : error := Errorf "CryptoSetup: no sealer with encryption level %s" [encLevel].

Definition GetSealerWithEncryptionLevel (h : t) (encLevel : Z) : res AEAD :=
  if encLevel =? EncryptionUnencrypted then Ok h.(nullAEAD)
  else if encLevel =? EncryptionForwardSecure then
    match h.(aead) with None => Err (errNoSealer encLevel) | Some a => Ok a end
  else Err (errNoSealer encLevel).

Definition GetSealerForCryptoStream (h : t) : Z * AEAD := (EncryptionUnencrypted, h.(nullAEAD)).

(** Not for TLS *)
Definition DiversificationNonce (h : t) : res (list Z) := Panic.
Definition SetDiversificationNonce (h : t) (nonce : list Z) : res t := Panic.

End setup.
End TlsSetup.

(** ** Proofs *)

Module TlsSetupProofs.
Import AeadProofs.

Section proofs.
Context `{hash : StdHash} `{gcm : StdGCM} `{sigs : Signatures}.

Lemma length_makeNonce iv pn : length iv = 12%nat -> length (AesGcm.makeNonce iv pn) = 12%nat.
Proof.
  intros H. unfold AesGcm.makeNonce, be_split. rewrite length_zip_with, length_app, length_replicate, length_rev, length_le_split, length_take, H.
  reflexivity.
Qed.

Definition key_size (n : nat) : Prop := (n = 16 \/ n = 24 \/ n = 32)%nat.

Lemma gcm_matching k1 k2 iv1 iv2 : key_size (length k1) -> key_size (length k2) -> length iv1 = 12%nat -> length iv2 = 12%nat ->
  exists a b, AesGcm.NewAEADAESGCM k1 k2 iv1 iv2 = Ok a /\ AesGcm.NewAEADAESGCM k2 k1 iv2 iv1 = Ok b
    /\ matching a b /\ Overhead a = 16 /\ Overhead b = 16.
Proof.
  intros H1 H2 H3 H4. unfold AesGcm.NewAEADAESGCM, AesGcm.checkKey. rewrite H3, H4. cbn [Nat.eqb AesGcm.ivLen negb orb].
  rewrite !decide_True by assumption. cbn [mbind res_bind]. do 2 eexists.
  split; [reflexivity|]. split; [reflexivity|]. split; [|by split]. split; intros payload pn ad; cbn [Seal Open Overhead]; eexists; (split; [reflexivity|]);
    (split; [rewrite Gcm_length; lia|]); apply Gcm_roundtrip, length_makeNonce; assumption.
Qed.

(** A connection in which the handshake is complete, with a cipher suite of the stack *)
Definition is_connected (c : Mint.Conn) (suite : Z) (secret : list Z) : Prop :=
  let k := Mint.mkConnected suite (Mint.cipherSuiteMap suite) (Some secret) in
  c.(Mint.hState) = Some (Mint.StateConnected k) /\ c.(Mint.state) = k /\ c.(Mint.handshakeComplete) = true
  /\ (suite = Mint.TLS_AES_128_GCM_SHA256 \/ suite = Mint.TLS_AES_256_GCM_SHA384).

(** What both ends derive from their exporter secret *)
Definition exported (suite : Z) (secret : list Z) (label : string) (size : nat) : list Z :=
  let h := (Mint.cipherSuiteMap suite).(Mint.Hash) in
  Mint.HkdfExpandLabel h (Mint.HkdfExpandLabel h secret label (Digest h []) size) "exporter" (Digest h []) size.

Lemma computeKeyAndIV_connected c suite secret label : is_connected c suite secret ->
  exists size, let cs := Mint.cipherSuiteMap suite in
  TlsKeys.computeKeyAndIV c label
  = Ok (Mint.HkdfExpandLabel cs.(Mint.Hash) (exported suite secret label size) "key" [] cs.(Mint.KeyLen),
        Mint.HkdfExpandLabel cs.(Mint.Hash) (exported suite secret label size) "iv" [] cs.(Mint.IvLen))
  /\ Mint.HashSize cs.(Mint.Hash) = Ok size.
Proof.
  intros (E1 & E2 & E3 & Hs). unfold TlsKeys.computeKeyAndIV, Mint.StateCipherSuite, Mint.ComputeExporter, Mint.deriveSecret.
  rewrite E1, E2, E3. destruct Hs as [->| ->]; [exists 32%nat|exists 48%nat]; split; reflexivity.
Qed.

(** Two ends that are connected with the same cipher suite and exporter secret derive
    keys that match: each opens what the other one seals. *)
Theorem tls_keys_match c s suite secret :
  (forall h, MintProofs.digests h) -> is_connected c suite secret -> is_connected s suite secret ->
  exists a b, TlsKeys.DeriveAESKeys c PerspectiveClient = Ok a /\ TlsKeys.DeriveAESKeys s PerspectiveServer = Ok b
    /\ matching a b /\ Overhead a = 16 /\ Overhead b = 16.
Proof.
  intros Hd Hc Hs. unfold TlsKeys.DeriveAESKeys. cbn [isClient isServer negb].
  destruct (computeKeyAndIV_connected c suite secret TlsKeys.clientExporterLabel Hc) as (n1 & -> & S1).
  destruct (computeKeyAndIV_connected c suite secret TlsKeys.serverExporterLabel Hc) as (n2 & -> & S2).
  destruct (computeKeyAndIV_connected s suite secret TlsKeys.serverExporterLabel Hs) as (n3 & -> & S3).
  destruct (computeKeyAndIV_connected s suite secret TlsKeys.clientExporterLabel Hs) as (n4 & -> & S4).
  rewrite S1 in S2, S3, S4. injection S2 as <-. injection S3 as <-. injection S4 as <-. cbn [mbind res_bind].
  destruct Hc as (_ & _ & _ & Hsuite).
  apply gcm_matching; rewrite MintProofs.HkdfExpandLabel_length by apply Hd; unfold key_size; destruct Hsuite as [->| ->]; cbn; lia.
Qed.

(** A connection that is not complete has no cipher suite, and the size of its hash is
    not defined. *)
Lemma DeriveAESKeys_incomplete c pers : c.(Mint.handshakeComplete) = false -> is_Some c.(Mint.hState) ->
  TlsKeys.DeriveAESKeys c pers = Panic.
Proof.
  intros Hc [s Hs]. unfold TlsKeys.DeriveAESKeys, TlsKeys.computeKeyAndIV, Mint.StateCipherSuite. rewrite Hs, Hc. by destruct pers.
Qed.

End proofs.

(** C39: the TLS handshake never completes.  The setup makes a non-blocking connection,
    and the handler of the crypto stream calls its handshake once.  Whatever the peer
    sends and whatever the state machine of the TLS stack makes of it: the handler waits
    for the first message (a server), returns the alert of the stack as an error, or,
    when the first step of the handshake succeeds, goes on without a connection and
    panics, since the hash of a missing cipher suite has no size.  It never derives keys
    and never announces them, and the end goes on sealing without encryption. *)
Theorem tls_handshake_never_completes `{hash : StdHash} `{gcm : StdGCM} `{sigs : Signatures}
  (parse : list Z -> res (list Z)) (selfSigned : list Z -> res (list (list Z) * SK)) (hostname : list Z) (pers : Perspective)
  (version : Z) (conf : option (list CertChain.Certificate)) (h : TlsSetup.t) (answers : list Mint.answer)
  (Hnew : TlsSetup.NewCryptoSetupTLS parse selfSigned hostname pers version conf = Ok h)
  (Hanswers : Mint.follows (if isClient pers then Mint.ClientStateStart else Mint.ServerStateStart) answers) :
  match TlsSetup.HandleCryptoStream selfSigned answers h with
  | None => answers = []
  | Some (h', r) =>
      h'.(TlsSetup.aead) = None /\ h'.(TlsSetup.aeadChanged) = mkChan [] false
      /\ (TlsSetup.GetSealer h').1 = EncryptionUnencrypted
      /\ exists x rest, answers = x :: rest
         /\ r = (if MintProofs.firstAlert x =? Mint.AlertNoAlert then Panic
                 else Err (TlsSetup.errHandshake (MintProofs.firstAlert x)))
  end.
Proof.
  unfold TlsSetup.NewCryptoSetupTLS, TlsSetup.tlsToMintConfig in Hnew.
  destruct (TlsSetup.mintCertificates _ _) as [certs| |]; [|done..]. cbn [mbind res_bind] in Hnew.
  destruct (Mint.Init _ _ _) as [c0| |] eqn:Ei; [|done..]. cbn [mbind res_bind] in Hnew. injection Hnew as <-.
  pose proof (MintProofs.Init_nonblocking _ _ _ _ Ei) as Hnb. apply (MintProofs.Init_again _ _ _ _ hostname) in Ei. cbv zeta in Ei.
  unfold TlsSetup.HandleCryptoStream. cbn [TlsSetup.conn].
  pose proof (MintProofs.nonblocking_first selfSigned _ _ answers Ei Hnb Hanswers) as H.
  destruct (Mint.Handshake _ _ _) as [[c a]|]; [|exact H]. destruct H as (Hc & Hst & x & rest & -> & ->).
  unfold TlsSetup.afterHandshake, mbind, ST_bind, get, modify, lift, require, mret, ST_ret. cbn [fst snd].
  destruct (Z.eqb_spec (MintProofs.firstAlert x) Mint.AlertNoAlert) as [Ea|Ea].
  - rewrite (DeriveAESKeys_incomplete c _ Hc (Hst Ea)). cbn. split_and!; [done..|]. exists x, rest. split; [done|]. by rewrite Ea.
  - cbn. split_and!; [done..|]. exists x, rest. split; [done|]. by rewrite (proj2 (Z.eqb_neq _ _) Ea).
Qed.

(** ** Examples *)

(** A hash that counts, and a cipher that adds a tag of zeros *)
Definition demo_hash : StdHash := {| Digest h m := [h; Z.of_nat (length m)]; HMAC h key m := [Z.of_nat (length key + length m)] |}.

Definition demo_gcm : StdGCM.
Proof.
  refine {| GcmSeal key nonce src ad := src ++ replicate 16 0;
            GcmOpen key nonce src ad := Ok (take (length src - 16) src) |}.
  - intros key nonce src ad _. rewrite length_app, length_replicate, Nat.add_sub, take_app_length. reflexivity.
  - intros key nonce src ad. by rewrite length_app, length_replicate.
Defined.

(** A client whose hello is sent: the first step of its handshake succeeds. *)
Lemma tls_handshake_never_completes_witness :
  exists h h', TlsSetup.NewCryptoSetupTLS (sigs:=CertChainProofs.demo_sigs) Ok (fun _ => Err EOF) [113] PerspectiveClient VersionTLS None = Ok h
    /\ TlsSetup.HandleCryptoStream (hash:=demo_hash) (gcm:=demo_gcm) (fun _ => Err EOF)
         [Mint.mkAnswer (Some Mint.ClientStateWaitSH) Mint.AlertNoAlert Mint.AlertNoAlert] h = Some (h', Panic)
    /\ (TlsSetup.GetSealer h').1 = EncryptionUnencrypted.
Proof.
  eexists. pose proof (tls_handshake_never_completes (hash:=demo_hash) (gcm:=demo_gcm) (sigs:=CertChainProofs.demo_sigs)
    Ok (fun _ => Err EOF) [113] PerspectiveClient VersionTLS None _
    [Mint.mkAnswer (Some Mint.ClientStateWaitSH) Mint.AlertNoAlert Mint.AlertNoAlert] eq_refl) as H.
  destruct (TlsSetup.HandleCryptoStream _ _ _) as [[h' r]|] eqn:E.
  - destruct H as (_ & _ & Hs & x & rest & [= <- _] & Hr); [split; [apply Mint.client_start|exact I]|].
    exists h'. split; [reflexivity|]. split; [rewrite E, Hr; reflexivity|exact Hs].
  - discriminate H. split; [apply Mint.client_start|exact I].
Defined.

End TlsSetupProofs.
