(* ===== verification/PconnManager.v ===== *)
(** * The sockets of a connection ([pconn_manager.go], [conn.go], [buffer_pool.go])

    A manager opens a socket on every unicast address of the machine, listens on all
    of them, and looks for new addresses every two seconds; the path manager is told
    through a channel of one element.  What the operating system answers is an
    argument: the interfaces with their addresses, and the port of a new socket.  A
    socket is named by its address; resolving the printed address of a socket gives
    this address. *)

From S2P Require Import Prelude ByteOrder Protocol WireHeader WireFrames PacketUnpacker Session.
From S2P Require Import Endpoints.

(** [MaxReceivePacketSize] *)
Definition MaxReceivePacketSize : Z := 1452.

(** ** Packet buffers: their capacities *)

Module BufferPool.

Definition t : Type := list Z.

(** The pool may create a buffer although it has one. *)
Definition getPacketBuffer (reuse : bool) (p : t) : t * Z :=
  match p with c :: p' => if reuse then (p', c) else (p, MaxReceivePacketSize) | [] => ([], MaxReceivePacketSize) end.

Definition putPacketBuffer (c : Z) (p : t) : res t := if negb (c =? MaxReceivePacketSize) then Panic else Ok (c :: p).

End BufferPool.

(** ** The connection of a path: a socket and the address of the peer *)

Module Conn.

Record t : Type := mk { pconn : UDPAddr; currentAddr : UDPAddr }.

(** The socket, the data and the destination of the call of [WriteTo] *)
Definition Write (c : t) (p : list Z) : UDPAddr * list Z * UDPAddr := (c.(pconn), p, c.(currentAddr)).
Definition SetCurrentRemoteAddr (c : t) (addr : UDPAddr) : t := mk c.(pconn) addr.
Definition LocalAddr (c : t) : UDPAddr := c.(pconn).
Definition RemoteAddr (c : t) : UDPAddr := c.(currentAddr).

End Conn.

(** ** IP addresses of the standard library *)

Module NetIP.
Import AddAddressFrame.

Definition Equal (a b : list Z) : bool := bool_decide (To16 a = To16 b).

Definition IPv6zero : list Z := replicate 16 0.
Definition IPv6loopback : list Z := replicate 15 0 ++ [1].

Definition byte (ip : list Z) (i : nat) : Z := default 0 (ip !! i).

Definition IsUnspecified (ip : list Z) : bool := Equal ip (IPv4 0 0 0 0) || Equal ip IPv6zero.
Definition IsLoopback (ip : list Z) : bool :=
  match To4 ip with Some ip4 => byte ip4 0 =? 127 | None => Equal ip IPv6loopback end.
Definition IsMulticast (ip : list Z) : bool :=
  match To4 ip with
  | Some ip4 => Z.land (byte ip4 0) 0xf0 =? 0xe0
  | None => (length ip =? 16)%nat && (byte ip 0 =? 0xff)
  end.
Definition IsLinkLocalUnicast (ip : list Z) : bool :=
  match To4 ip with
  | Some ip4 => (byte ip4 0 =? 169) && (byte ip4 1 =? 254)
  | None => (length ip =? 16)%nat && (byte ip 0 =? 0xfe) && (Z.land (byte ip 1) 0xc0 =? 0x80)
  end.
Definition IsGlobalUnicast (ip : list Z) : bool :=
  ((length ip =? 4)%nat || (length ip =? 16)%nat) && negb (Equal ip (IPv4 255 255 255 255)) && negb (IsUnspecified ip)
  && negb (IsLoopback ip) && negb (IsMulticast ip) && negb (IsLinkLocalUnicast ip).

End NetIP.

(** ** The manager *)

Module PconnManager.

(** The text of an address, as a key *)
Definition addrKey (a : UDPAddr) : list Z * Z := (default a.(IP) (AddAddressFrame.To16 a.(IP)), a.(Port)).

(** The channels [changePaths] and [errorConn] have one element, [closed] is closed or
    not; [listening] are the sockets with a goroutine that reads them. *)
Record t : Type := mk {
  pconns : gmap (list Z * Z) UDPAddr;
  pconnAny : UDPAddr;
  localAddrs : list UDPAddr;
  perspective : Perspective;
  changePaths : bool;
  closed : bool;
  errorConn : option error;
  listening : list UDPAddr
}.

(** [setup] with the socket it gets or opens *)
Definition setup (pers : Perspective) (pconnArg : option UDPAddr) (ListenUDP : error + UDPAddr) : error + t :=
  match pconnArg, ListenUDP with
  | Some any, _ | None, inr any => inr (mk ∅ any [] pers false false None [])
  | None, inl e => inl e
  end.

(** A send that does not block *)
Definition signal (s : t) : t :=
  mk s.(pconns) s.(pconnAny) s.(localAddrs) s.(perspective) true s.(closed) s.(errorConn) s.(listening).
Definition takeChange (s : t) : t :=
  mk s.(pconns) s.(pconnAny) s.(localAddrs) s.(perspective) false s.(closed) s.(errorConn) s.(listening).
Definition addPconn (a : UDPAddr) (s : t) : t :=
  mk (<[addrKey a := a]> s.(pconns)) s.(pconnAny) s.(localAddrs) s.(perspective) s.(changePaths) s.(closed) s.(errorConn)
    (a :: s.(listening)).
Definition addLocal (a : UDPAddr) (s : t) : t :=
  mk s.(pconns) s.(pconnAny) (s.(localAddrs) ++ [a]) s.(perspective) s.(changePaths) s.(closed) s.(errorConn) s.(listening).
Definition listenAny (s : t) : t :=
  mk s.(pconns) s.(pconnAny) s.(localAddrs) s.(perspective) s.(changePaths) s.(closed) s.(errorConn) (s.(pconnAny) :: s.(listening)).

(** What one call of [ReadFrom] gives: a packet, cut to the size of the buffer, for
    [rcvRawPackets]; or an error, with which the goroutine ends. *)
Definition receive (reuse : bool) (sock remote : UDPAddr) (packet : list Z) (now : Z) (pool : BufferPool.t)
  : BufferPool.t * res receivedRawPacket :=
  let '(pool, c) := BufferPool.getPacketBuffer reuse pool in
  (pool, if c <? MaxReceivePacketSize then Panic
         else Ok (mkRaw sock remote (take (Z.to_nat MaxReceivePacketSize) packet) (Some now))).
Definition readFails (sock : UDPAddr) (e : error) (s : t) : t :=
  mk s.(pconns) s.(pconnAny) s.(localAddrs) s.(perspective) s.(changePaths) s.(closed)
    (match s.(errorConn) with None => Some e | some => some end) (filter (fun a => addrKey a <> addrKey sock) s.(listening)).

(** A network interface; [None] is an error of [Addrs] or of [ParseCIDR]. *)
Record iface : Type := mkIface { Name : string; Addrs : option (list (option (list Z))) }.

Definition Contains (s sub : string) : bool := match String.index 0 sub s with Some _ => true | None => false end.
Definition relevant (i : iface) : bool := Contains i.(Name) "eth" || Contains i.(Name) "rmnet" || Contains i.(Name) "wlan".

(** The addresses in the order of the two loops, with the errors that end them *)
Definition items (ifaces : option (list iface)) : list (option (list Z)) :=
  match ifaces with
  | None => [None]
  | Some l => concat (map (fun i => if relevant i then match i.(Addrs) with None => [None] | Some a => a end else []) l)
  end.

(** The port of a new socket, which may depend on those that are open *)
Definition OS : Type := nat -> list Z -> error + Z.

Definition createPconn (os : OS) (ip : list Z) (s : t) : t * (error + UDPAddr) :=
  match os (length s.(listening)) ip with
  | inl e => (s, inl e)
  | inr port => let a := mkAddr ip port in (signal (addPconn a s), inr a)
  end.

Definition found (ip : list Z) (s : t) : bool := existsb (fun a => NetIP.Equal ip a.(IP)) s.(localAddrs).

Definition errParse : error := ErrorsNew "invalid CIDR address".

Fixpoint scan (os : OS) (l : list (option (list Z))) (s : t) : t * option error :=
  match l with
  | [] => (s, None)
  | None :: _ => (s, Some errParse)
  | Some ip :: l =>
      if negb (NetIP.IsGlobalUnicast ip) then scan os l s
      else if found ip s then scan os l s
      else
        match createPconn os ip s with
        | (s, inl e) => (s, Some e)
        | (s, inr a) => scan os l (addLocal a s)
        end
  end.

Definition createPconns (os : OS) (ifaces : option (list iface)) (s : t) : t * option error := scan os (items ifaces) s.

(** Closing [closed] again panics. *)
Definition closePconns (s : t) : res t :=
  if s.(closed) then Panic
  else Ok (mk s.(pconns) s.(pconnAny) s.(localAddrs) s.(perspective) s.(changePaths) true s.(errorConn) []).

(** The beginning of [run]; the error of [createPconns] is dropped. *)
Definition start (os : OS) (ifaces : option (list iface)) (s : t) : t :=
  let s := listenAny s in
  signal (if isClient s.(perspective) then (createPconns os ifaces s).1 else s).

(** What happens to the manager: its timer, which only runs at a client, the channel
    [closeConns], which a server uses, and the call of [closePconns] by a client, which
    does not end the loop. *)
Inductive event : Type := Tick (os : OS) (ifaces : option (list iface)) | CloseConns | ClientCloses.

(** The second component tells whether the loop runs. *)
Definition step (e : event) (s : t * bool) : res (t * bool) :=
  match e with
  | Tick os ifaces => Ok (if s.2 && isClient s.1.(perspective) then ((createPconns os ifaces s.1).1, true) else s)
  | CloseConns => if s.2 then s' ← closePconns s.1; Ok (s', false) else Ok s
  | ClientCloses => s' ← closePconns s.1; Ok (s', s.2)
  end.

Fixpoint run (l : list event) (s : t * bool) : res (t * bool) :=
  match l with [] => Ok s | e :: l => s ← step e s; run l s end.

End PconnManager.

(** ** The manager beside the path manager

    The same loop in the steps that the other goroutines of the client see: they may run
    between the signal in [createPconn] and the update of [localAddrs] after it has
    returned.  The path manager waits for the end of the handshake, and then for the
    signals of the manager.  It calls [createPaths] for both, and the session calls it
    for an ADD_ADDRESS frame of the peer.  [known] are the local addresses as the last
    of these calls read them. *)

Module Interleaved.
Import PconnManager.

Inductive phase : Type :=
| Waiting
| Scanning (l : list (option (list Z)))
| Returning (a : UDPAddr) (l : list (option (list Z))).

(** Where [pathManager.run] is *)
Inductive pathRun : Type := AwaitsHandshake | AwaitsChange | Ended.

Record sys : Type := mkSys { mgr : t; ph : phase; pathMgr : pathRun; known : list UDPAddr }.

(** Who takes a step *)
Inductive actor : Type := Manager | PathManager | AddAddress.

Section steps.
Context (os : OS) (ifaces : option (list iface)) (createPaths : bool).

Definition skipped (m : t) (ip : list Z) : Prop := NetIP.IsGlobalUnicast ip = false \/ found ip m = true.

(** [if pm.sess.createPaths { pm.createPaths() }] *)
Definition reread (m : t) (k : list UDPAddr) : list UDPAddr := if createPaths then m.(localAddrs) else k.

Inductive sstep : actor -> sys -> sys -> Prop :=
| timer_fires m r k : sstep Manager (mkSys m Waiting r k) (mkSys m (Scanning (items ifaces)) r k)
| scan_ends m r k : sstep Manager (mkSys m (Scanning []) r k) (mkSys m Waiting r k)
| scan_error m r k l : sstep Manager (mkSys m (Scanning (None :: l)) r k) (mkSys m Waiting r k)
| scan_skip m r k ip l : skipped m ip ->
    sstep Manager (mkSys m (Scanning (Some ip :: l)) r k) (mkSys m (Scanning l) r k)
| scan_fails m r k ip l m' e : ~ skipped m ip -> createPconn os ip m = (m', inl e) ->
    sstep Manager (mkSys m (Scanning (Some ip :: l)) r k) (mkSys m' Waiting r k)
| scan_creates m r k ip l m' a : ~ skipped m ip -> createPconn os ip m = (m', inr a) ->
    sstep Manager (mkSys m (Scanning (Some ip :: l)) r k) (mkSys m' (Returning a l) r k)
| local_added m r k a l : sstep Manager (mkSys m (Returning a l) r k) (mkSys (addLocal a m) (Scanning l) r k)
| handshake_completed m p k : sstep PathManager (mkSys m p AwaitsHandshake k) (mkSys m p AwaitsChange (reread m k))
| creation_fails m p k : createPaths = true ->
    sstep PathManager (mkSys m p AwaitsHandshake k) (mkSys m p Ended m.(localAddrs))
| change_taken m p k : m.(changePaths) = true ->
    sstep PathManager (mkSys m p AwaitsChange k) (mkSys (takeChange m) p AwaitsChange (reread m k))
| run_closed m p r k : sstep PathManager (mkSys m p r k) (mkSys m p Ended k)
| address_added m p r k : sstep AddAddress (mkSys m p r k) (mkSys m p r (reread m k)).

(** A step of the two managers, without the peer *)
Definition ownStep (x y : sys) : Prop := exists who, who <> AddAddress /\ sstep who x y.

End steps.
End Interleaved.

(** ** Proofs *)

Module PconnProofs.
Import PconnManager Interleaved.

(** What the maps say of each other: an address of the list has its socket, there is
    one per IP address, and no other socket. *)
Definition books (s : t) : Prop :=
  NoDup ((fun a => AddAddressFrame.To16 a.(IP)) <$> s.(localAddrs))
  /\ (forall a, a ∈ s.(localAddrs) -> s.(pconns) !! addrKey a = Some a /\ NetIP.IsGlobalUnicast a.(IP) = true)
  /\ (forall k a, s.(pconns) !! k = Some a -> a ∈ s.(localAddrs)).

Lemma global_To16 ip : NetIP.IsGlobalUnicast ip = true -> is_Some (AddAddressFrame.To16 ip).
Proof.
  unfold NetIP.IsGlobalUnicast. rewrite !andb_true_iff, orb_true_iff, !Nat.eqb_eq. intros [[[[[Hl _] _] _] _] _].
  unfold AddAddressFrame.To16. repeat case_decide; eauto. destruct Hl; done.
Qed.

Lemma found_false ip s a : found ip s = false -> a ∈ s.(localAddrs) -> AddAddressFrame.To16 ip <> AddAddressFrame.To16 a.(IP).
Proof.
  unfold found. intros Hf Ha E. apply not_true_iff_false in Hf. apply Hf, existsb_exists. exists a.
  split; [by apply list_elem_of_In|]. by apply bool_decide_eq_true_2.
Qed.

Lemma new_key ip port s a : NetIP.IsGlobalUnicast ip = true -> found ip s = false -> books s -> a ∈ s.(localAddrs) ->
  addrKey (mkAddr ip port) <> addrKey a.
Proof.
  intros Hg Hf (_ & Hb & _) Ha E. destruct (Hb a Ha) as [_ Hga]. apply (found_false ip s a Hf Ha).
  destruct (global_To16 _ Hg) as [x Ex], (global_To16 _ Hga) as [y Ey]. unfold addrKey in E. cbn [IP] in E. rewrite Ex, Ey in *.
  by injection E as ->.
Qed.

Lemma created_books ip port s : NetIP.IsGlobalUnicast ip = true -> found ip s = false -> books s ->
  books (addLocal (mkAddr ip port) (signal (addPconn (mkAddr ip port) s))).
Proof.
  intros Hg Hf Hb. pose proof (fun a => new_key ip port s a Hg Hf Hb) as Hk. destruct Hb as (B1 & B2 & B3). split_and!; cbn.
  - rewrite fmap_app. apply NoDup_app. split_and!; [done| |apply NoDup_singleton].
    intros x Hx Hx'. apply list_elem_of_singleton in Hx' as ->. apply list_elem_of_fmap in Hx as (a & E & Ha).
    exact (found_false ip s a Hf Ha E).
  - intros a [Ha|Ha%list_elem_of_singleton]%elem_of_app.
    + rewrite lookup_insert_ne by (by apply Hk). by apply B2.
    + subst a. by rewrite lookup_insert_eq.
  - intros k a [[_ <-]|[_ H]]%lookup_insert_Some; apply elem_of_app; [right; by apply list_elem_of_singleton|left; by eapply B3].
Qed.

Lemma scan_books os l : forall s, books s -> books (scan os l s).1.
Proof.
  induction l as [|[ip|] l IH]; intros s Hb; cbn [scan]; [done| |done]. destruct (NetIP.IsGlobalUnicast ip) eqn:Eg; cbn [negb]; [|by apply IH].
  destruct (found ip s) eqn:Ef; [by apply IH|]. unfold createPconn. destruct (os _ ip) as [e|port]; [done|]. by apply IH, created_books.
Qed.

Lemma found_addLocal ip a s : found ip s = true -> found ip (addLocal a s) = true.
Proof. unfold found. cbn. rewrite existsb_app. by intros ->. Qed.

Lemma scan_keeps_found os ip l : forall s, found ip s = true -> found ip (scan os l s).1 = true.
Proof.
  induction l as [|[ip'|] l IH]; intros s Hf; cbn [scan]; [done| |done]. case_match; [by apply IH|]. case_match; [by apply IH|].
  unfold createPconn. destruct (os _ ip') as [e|port]; [done|]. apply IH, found_addLocal. exact Hf.
Qed.

(** The scan without an error leaves nothing to do. *)
Lemma scan_covers os l : forall s s', scan os l s = (s', None) -> Forall (fun i => exists ip, i = Some ip /\ skipped s' ip) l.
Proof.
  induction l as [|[ip|] l IH]; intros s s'; cbn [scan]; [constructor| |done].
  destruct (NetIP.IsGlobalUnicast ip) eqn:Eg; cbn [negb].
  2:{ intros H. constructor; [exists ip; split; [done|by left]|by apply (IH s)]. }
  destruct (found ip s) eqn:Ef.
  { intros H. constructor; [|by apply (IH s)]. exists ip. split; [done|]. right.
    pose proof (scan_keeps_found os ip l s Ef) as K. by rewrite H in K. }
  unfold createPconn. destruct (os _ ip) as [e|port]; [done|]. set (s1 := addLocal _ _). intros H.
  constructor; [|by apply (IH s1)]. exists ip. split; [done|]. right.
  pose proof (scan_keeps_found os ip l s1) as K. rewrite H in K. apply K. unfold found, s1. cbn. rewrite existsb_app. cbn.
  unfold NetIP.Equal. rewrite bool_decide_eq_true_2 by done. by rewrite orb_true_r.
Qed.

Lemma scan_idle os l s : Forall (fun i => exists ip, i = Some ip /\ skipped s ip) l -> scan os l s = (s, None).
Proof.
  induction 1 as [|i l (ip & -> & Hs) _ IH]; [done|]. cbn [scan]. destruct Hs as [->| ->]; [done|]. by case_match.
Qed.

Lemma skipped_found s ip : skipped s ip -> NetIP.IsGlobalUnicast ip = true -> exists a, a ∈ s.(localAddrs) /\ NetIP.Equal ip a.(IP) = true.
Proof.
  intros [H|H] Hg; [congruence|]. unfold found in H. apply existsb_exists in H as (a & Ha & E). exists a. split; [by apply list_elem_of_In|done].
Qed.

Lemma run_books evs : forall s b s' b', books s -> run evs (s, b) = Ok (s', b') -> books s'.
Proof.
  induction evs as [|e evs IH]; intros s b s' b' Hb; cbn [run]; [by intros [= <- <-]|]. destruct e as [os ifaces| |]; cbn [step fst snd].
  - cbn [mbind res_bind]. destruct (b && _); apply IH; [by apply scan_books|done].
  - destruct b; [|by apply IH]. unfold closePconns. destruct (closed s); [done|]. cbn [mbind res_bind]. by apply IH.
  - unfold closePconns. destruct (closed s); [done|]. cbn [mbind res_bind]. by apply IH.
Qed.

Lemma start_books os ifaces pers any : books (start os ifaces (mk ∅ any [] pers false false None [])).
Proof.
  assert (B0 : forall l, books (mk ∅ any [] pers false false None l)).
  { intros l. split_and!; cbn; [constructor|intros a Ha; by apply not_elem_of_nil in Ha|]. intros k a H. by rewrite lookup_empty in H. }
  assert (Bs : forall s, books s -> books (signal s)) by (intros s H; exact H). unfold start. cbv zeta.
  apply Bs. case_match; [apply scan_books|]; apply B0.
Qed.

(** C34: sockets and addresses.  In every run of the socket manager, whatever the
    operating system answers, the list of local addresses has one address per IP
    address, each with its socket under its own text, and there are no other sockets.
    A look for new addresses that meets no error ends with a socket for every global
    unicast address of the Ethernet, mobile and wireless interfaces, and a second
    look at the same interfaces changes nothing. *)
Theorem sockets_follow_interfaces (pers : Perspective) (any : UDPAddr) (listen : error + UDPAddr) (os0 : OS)
  (ifaces0 : option (list iface)) (evs : list event) (s0 s : t) (running : bool)
  (Hsetup : setup pers (Some any) listen = inr s0) (Hrun : run evs (start os0 ifaces0 s0, true) = Ok (s, running)) :
  books s
  /\ forall os ifaces s', createPconns os ifaces s = (s', None) ->
     books s'
     /\ (forall ip, Some ip ∈ items ifaces -> NetIP.IsGlobalUnicast ip = true ->
           exists a, a ∈ s'.(localAddrs) /\ NetIP.Equal ip a.(IP) = true /\ s'.(pconns) !! addrKey a = Some a)
     /\ forall os', createPconns os' ifaces s' = (s', None).
Proof.
  injection Hsetup as <-. assert (Hb : books s) by (eapply run_books; [apply start_books|exact Hrun]).
  split; [exact Hb|]. intros os ifaces s' Hc. assert (Hb' : books s').
  { pose proof (scan_books os (items ifaces) s Hb) as H. unfold createPconns in Hc. by rewrite Hc in H. }
  pose proof (scan_covers os (items ifaces) s s' Hc) as Hcov. split_and!; [exact Hb'| |intros os'; by apply scan_idle].
  intros ip Hip Hg. rewrite Forall_forall in Hcov. destruct (Hcov _ Hip) as (ip' & [= <-] & Hs).
  destruct (skipped_found s' ip Hs Hg) as (a & Ha & E). exists a. split_and!; [done..|]. by apply Hb'.
Qed.

(** The buffers of the pool are big enough for every packet, so that reading one does not
    panic; a packet that is not too long is received as it is. *)
Lemma receive_ok reuse sock remote packet now pool : Forall (fun c => c = MaxReceivePacketSize) pool ->
  Z.of_nat (length packet) <= MaxReceivePacketSize ->
  Forall (fun c => c = MaxReceivePacketSize) (receive reuse sock remote packet now pool).1
  /\ (receive reuse sock remote packet now pool).2 = Ok (mkRaw sock remote packet (Some now)).
Proof.
  intros Hp Hl. unfold receive. assert (E : take (Z.to_nat MaxReceivePacketSize) packet = packet) by (apply take_ge; lia).
  rewrite E. destruct pool as [|c pool]; [done|]. apply Forall_cons in Hp as [-> Hp]. destruct reuse; cbn; [done|].
  split; [by constructor|done].
Qed.

(** *** Interleavings *)

Section race.
Context (os : OS) (ifaces : option (list iface)) (createPaths : bool).

Lemma own_manager x y : sstep os ifaces createPaths Manager x y -> ownStep os ifaces createPaths x y.
Proof. by exists Manager. Qed.

Lemma steps_skip m p k l r : Forall (fun i => exists ip, i = Some ip /\ skipped m ip) l ->
  rtc (ownStep os ifaces createPaths) (mkSys m (Scanning (l ++ r)) p k) (mkSys m (Scanning r) p k).
Proof.
  induction 1 as [|i l (ip & -> & Hs) _ IH]; [apply rtc_refl|]. eapply rtc_l; [by apply own_manager, scan_skip|exact IH].
Qed.

(** Without the path manager in between, the steps are [createPconns]. *)
Lemma steps_scan p k l : forall m,
  rtc (ownStep os ifaces createPaths) (mkSys m (Scanning l) p k) (mkSys (scan os l m).1 Waiting p k).
Proof.
  induction l as [|[ip|] l IH]; intros m; cbn [scan];
    [apply rtc_once, own_manager, scan_ends| |apply rtc_once, own_manager, scan_error].
  destruct (NetIP.IsGlobalUnicast ip) eqn:Eg; cbn [negb]; [|eapply rtc_l; [apply own_manager, scan_skip; by left|apply IH]].
  destruct (found ip m) eqn:Ef; [eapply rtc_l; [apply own_manager, scan_skip; by right|apply IH]|].
  assert (Hn : ~ skipped m ip) by (unfold skipped; rewrite Eg, Ef; by intros [|]).
  destruct (createPconn os ip m) as [m' [e|a]] eqn:E; [by eapply rtc_once, own_manager, scan_fails|].
  eapply rtc_l; [by eapply own_manager, scan_creates|]. eapply rtc_l; [apply own_manager, local_added|apply IH].
Qed.

(** A manager with nothing to do and no change to report stays as it is. *)
Definition quiet (m : t) (k : list UDPAddr) (x : sys) : Prop :=
  x.(mgr) = m /\ x.(known) = k /\ x.(pathMgr) <> AwaitsHandshake
  /\ match x.(ph) with
     | Waiting => True
     | Scanning l => Forall (fun i => exists ip, i = Some ip /\ skipped m ip) l
     | Returning _ _ => False
     end.

Lemma quiet_step m k x y : Forall (fun i => exists ip, i = Some ip /\ skipped m ip) (items ifaces) -> m.(changePaths) = false ->
  quiet m k x -> ownStep os ifaces createPaths x y -> quiet m k y.
Proof.
  intros Hi Hc (E1 & E2 & E3 & Hp) (who & Hw & Hs).
  destruct Hs; cbn in E1, E2, E3, Hp |- *; subst; try done; try congruence.
  - apply Forall_cons in Hp as [_ Hp]. done.
  - apply Forall_cons in Hp as [(ip' & [= <-] & Hs) _]. done.
  - apply Forall_cons in Hp as [(ip' & [= <-] & Hs) _]. done.
Qed.

Lemma quiet_steps m k x y : Forall (fun i => exists ip, i = Some ip /\ skipped m ip) (items ifaces) -> m.(changePaths) = false ->
  rtc (ownStep os ifaces createPaths) x y -> quiet m k x -> quiet m k y.
Proof. intros Hi Hc. induction 1 as [|x y z Hxy _ IH]; [done|]. intros Hq. apply IH. by eapply quiet_step. Qed.

Lemma skipped_more m m' ip : (forall i, found i m = true -> found i m' = true) -> skipped m ip -> skipped m' ip.
Proof. intros H [?|?]; [by left|right; auto]. Qed.

End race.

(** C40: a change that is lost.  The manager signals a new socket before it adds its
    address to the list.  When, after the handshake, an address appears and the path
    manager takes the signal between the two, it sees the list without the address.
    However the two managers go on from there, as long as the interfaces stay as they
    are, the path manager is not told again and no path is created on the new address,
    unless the peer sends an ADD_ADDRESS frame, for which the list is read again. *)
Theorem path_change_lost (os : OS) (ifaces : option (list iface)) (m : t) (k : list UDPAddr)
  (pre post : list (option (list Z))) (ip : list Z) (port : Z)
  (Hitems : items ifaces = pre ++ Some ip :: post)
  (Hseen : Forall (fun i => exists ip, i = Some ip /\ skipped m ip) (pre ++ post))
  (Hnew : NetIP.IsGlobalUnicast ip = true) (Hnotfound : found ip m = false)
  (Hport : os (length m.(listening)) ip = inr port) :
  exists x, rtc (ownStep os ifaces true) (mkSys m Waiting AwaitsChange k) x
    /\ mkAddr ip port ∈ x.(mgr).(localAddrs) /\ ~ (mkAddr ip port ∈ x.(known)) /\ x.(pathMgr) = AwaitsChange
    /\ (forall y, rtc (ownStep os ifaces true) x y -> y.(mgr) = x.(mgr) /\ y.(known) = x.(known))
    /\ forall y z, rtc (ownStep os ifaces true) x y -> sstep os ifaces true AddAddress y z -> mkAddr ip port ∈ z.(known).
Proof.
  set (a := mkAddr ip port). set (m1 := signal (addPconn a m)). set (m2 := addLocal a (takeChange m1)).
  assert (Hmore : forall i, found i m = true -> found i m2 = true).
  { intros i Hi. apply (found_addLocal i a (takeChange m1)). exact Hi. }
  assert (Hip : found ip m2 = true).
  { unfold found, m2. cbn. rewrite existsb_app. cbn. unfold NetIP.Equal. rewrite bool_decide_eq_true_2 by done. by rewrite orb_true_r. }
  apply Forall_app in Hseen as [Hpre Hpost].
  assert (Hall : Forall (fun i => exists ip, i = Some ip /\ skipped m2 ip) (items ifaces)).
  { rewrite Hitems. apply Forall_app. split; [|constructor; [exists ip; split; [done|by right]|]];
      (eapply Forall_impl; [eassumption|]); intros i (ip' & -> & Hs); exists ip'; (split; [done|]); by eapply skipped_more. }
  assert (Hna : a ∉ m.(localAddrs)).
  { intros Ha. by apply (found_false ip m a Hnotfound Ha). }
  assert (Ha : a ∈ m2.(localAddrs)) by (cbn; apply elem_of_app; right; by apply list_elem_of_singleton).
  set (x := mkSys m2 (Scanning post) AwaitsChange m.(localAddrs)).
  assert (Q : forall y, rtc (ownStep os ifaces true) x y -> quiet m2 m.(localAddrs) y).
  { intros y Hy. eapply quiet_steps; [exact Hall|reflexivity|exact Hy|]. split_and!; [done..|]. cbn. rewrite Hitems in Hall.
    apply Forall_app in Hall as [_ Hall]. by apply Forall_cons in Hall as [_ Hall]. }
  exists x. split; [|split_and!; [exact Ha|exact Hna|done|..]].
  - eapply rtc_l; [apply own_manager, timer_fires|]. rewrite Hitems. etransitivity; [by apply steps_skip|].
    eapply rtc_l.
    { apply own_manager. apply (scan_creates os ifaces true m AwaitsChange k ip post m1 a);
        [unfold skipped; rewrite Hnew, Hnotfound; by intros [|]|]. unfold createPconn. by rewrite Hport. }
    eapply rtc_l; [exists PathManager; split; [done|]; by apply change_taken|]. apply rtc_once, own_manager, local_added.
  - intros y Hy. by destruct (Q y Hy) as (-> & -> & _).
  - intros y z Hy Hs. destruct (Q y Hy) as (Em & _). inversion Hs; subst. cbn in *. unfold reread. by rewrite Em.
Qed.

(** ** Examples *)

Definition demo_ifaces (wireless : bool) : option (list iface) :=
  Some [mkIface "lo" (Some [Some [127; 0; 0; 1]]); mkIface "eth0" (Some [Some [10; 0; 0; 2]; Some [169; 254; 3; 4]]);
        mkIface "wlan0" (Some (if wireless then [Some [192; 168; 1; 5]] else []))].
Definition demo_os : OS := fun n ip => inr (4000 + Z.of_nat n).
Definition demo_any : UDPAddr := mkAddr [0; 0; 0; 0] 3999.
Definition demo_first : t := start demo_os (demo_ifaces false) (mk ∅ demo_any [] PerspectiveClient false false None []).
Definition demo_second : t := (createPconns demo_os (demo_ifaces true) demo_first).1.

Lemma sockets_follow_interfaces_witness :
  books demo_first /\ demo_second.(localAddrs) = [mkAddr [10; 0; 0; 2] 4001; mkAddr [192; 168; 1; 5] 4002]
  /\ forall os', createPconns os' (demo_ifaces true) demo_second = (demo_second, None).
Proof.
  destruct (sockets_follow_interfaces PerspectiveClient demo_any (inr demo_any) demo_os (demo_ifaces false) []
    (mk ∅ demo_any [] PerspectiveClient false false None []) demo_first true eq_refl eq_refl) as [H1 H2].
  split; [exact H1|]. split; [reflexivity|]. apply (H2 demo_os). reflexivity.
Defined.

Lemma path_change_lost_witness :
  exists x, rtc (ownStep demo_os (demo_ifaces true) true)
              (mkSys (takeChange demo_first) Waiting AwaitsChange [mkAddr [10; 0; 0; 2] 4001]) x
    /\ mkAddr [192; 168; 1; 5] 4002 ∈ x.(mgr).(localAddrs) /\ ~ (mkAddr [192; 168; 1; 5] 4002 ∈ x.(known)).
Proof.
  destruct (path_change_lost demo_os (demo_ifaces true) (takeChange demo_first) [mkAddr [10; 0; 0; 2] 4001]
    [Some [10; 0; 0; 2]; Some [169; 254; 3; 4]] [] [192; 168; 1; 5] 4002) as (x & H1 & H2 & H3 & _).
  - reflexivity.
  - constructor; [eexists; split; [reflexivity|right; reflexivity]|].
    constructor; [eexists; split; [reflexivity|left; reflexivity]|constructor].
  - reflexivity.
  - reflexivity.
  - reflexivity.
  - exists x. split; [exact H1|]. split; [exact H2|exact H3].
Defined.

(** The manager of a client that was closed opens a socket when an address appears. *)
Example socket_after_close :
  exists s, run [ClientCloses; Tick demo_os (demo_ifaces true)] (demo_first, true) = Ok (s, true)
    /\ s.(closed) = true /\ s.(listening) = [mkAddr [192; 168; 1; 5] 4000].
Proof. eexists. split; [reflexivity|]. split; reflexivity. Qed.

End PconnProofs.
