(* ===== verification/Http.v ===== *)
(** * HTTP requests and responses over QUIC ([h2quic/request.go], [request_writer.go],
      [response.go], [response_writer.go], and the exchange in [client.go])

    The header fields a client writes for a request and what the server reads from
    them, and the way back.  HPACK and the frames of HTTP/2 are packages of third
    parties and do not change a list of fields, so a header block is its list.  A
    header is a map from canonical names to values; the order in which Go visits it is
    an argument.  Names are ASCII, which the encoder checks. *)

From S2P Require Import Prelude.
From Stdlib Require Import DecimalString DecimalZ Ascii.

(** ** Strings of the standard library *)

Module Text.

Definition lowerA (a : ascii) : ascii :=
  let n := nat_of_ascii a in if (65 <=? n)%nat && (n <=? 90)%nat then ascii_of_nat (n + 32) else a.
Definition upperA (a : ascii) : ascii :=
  let n := nat_of_ascii a in if (97 <=? n)%nat && (n <=? 122)%nat then ascii_of_nat (n - 32) else a.

Fixpoint ToLower (s : string) : string := match s with EmptyString => EmptyString | String a s => String (lowerA a) (ToLower s) end.

(** The bytes of a token of RFC 7230 *)
Definition isTokenA (a : ascii) : bool :=
  let n := nat_of_ascii a in
  ((48 <=? n)%nat && (n <=? 57)%nat) || ((65 <=? n)%nat && (n <=? 90)%nat) || ((97 <=? n)%nat && (n <=? 122)%nat)
  || existsb (Nat.eqb n) [33; 35; 36; 37; 38; 39; 42; 43; 45; 46; 94; 95; 96; 124; 126]%nat.
Fixpoint isToken (s : string) : bool := match s with EmptyString => true | String a s => isTokenA a && isToken s end.

Definition isDash (a : ascii) : bool := (nat_of_ascii a =? 45)%nat.

(** Capital letters at the beginning and after a dash *)
Fixpoint canonical (upper : bool) (s : string) : string :=
  match s with
  | EmptyString => EmptyString
  | String a s => let a := if upper then upperA a else lowerA a in String a (canonical (isDash a) s)
  end.
(** [http.CanonicalHeaderKey] *)
Definition CanonicalHeaderKey (s : string) : string := if isToken s then canonical true s else s.

(** [strconv.FormatInt(n, 10)] and [strconv.ParseInt(s, 10, 64)] *)
Definition FormatInt (n : Z) : string := NilZero.string_of_int (Z.to_int n).
Definition errSyntax : error := ErrorsNew "strconv.ParseInt: invalid syntax".
Definition errRange : error := ErrorsNew "strconv.ParseInt: value out of range".
Definition ParseInt (s : string) : res Z :=
  let d := match s with
           | String a s' => if (nat_of_ascii a =? 43)%nat then option_map Decimal.Pos (NilZero.uint_of_string s') else NilZero.int_of_string s
           | EmptyString => None
           end in
  match d with
  | None => Err errSyntax
  | Some d => let n := Z.of_int d in if (- 2 ^ 63 <=? n) && (n <? 2 ^ 63) then Ok n else Err errRange
  end.

(** [strings.Join] *)
Fixpoint Join (l : list string) (sep : string) : string :=
  match l with [] => EmptyString | [s] => s | s :: l => String.append s (String.append sep (Join l sep)) end.

End Text.

Import Text.

(** [hpack.HeaderField] and [http.Header] *)
Record HeaderField : Type := mkField { Name : string; Value : string }.
Definition IsPseudo (h : HeaderField) : bool :=
  match h.(Name) with String a _ => (nat_of_ascii a =? 58)%nat | EmptyString => false end.

Notation Header := (gmap string (list string)).
Definition hget (h : Header) (k : string) : list string := default [] (h !! k).
Definition Add (h : Header) (name value : string) : Header :=
  let k := CanonicalHeaderKey name in <[k := hget h k ++ [value]]> h.

(** ** Requests *)

Module HttpRequest.

(** What the code uses of [url.URL], with the result of [RequestURI] *)
Record URL : Type := mkURL { Scheme : string; UHost : string; Opaque : string; RequestURI : string }.

Record t : Type := mk {
  Method : string;
  url : URL;
  Host : string;
  header : Header;
  hasBody : bool;
  ContentLength : Z
}.

Definition hostnameFromRequest (Host : string) (url : option URL) : string :=
  if negb (String.eqb Host "") then Host else match url with Some u => u.(UHost) | None => "" end.

(** *** The client *)

Section writer.
(** [httplex]: the host in ASCII, and the checks of names and values *)
Context (PunycodeHostPort : string -> res string) (ValidHeaderFieldName ValidHeaderFieldValue : string -> bool).

Definition shouldSendReqContentLength (method : string) (contentLength : Z) : bool :=
  if 0 <? contentLength then true
  else if contentLength <? 0 then false
  else String.eqb method "POST" || String.eqb method "PUT" || String.eqb method "PATCH".

Definition charAt (s : string) (i : nat) (a : ascii) : bool := match String.get i s with Some b => Ascii.eqb a b | None => false end.
Definition validPseudoPath (v : string) : bool :=
  (charAt v 0 "/" && ((String.length v =? 1)%nat || negb (charAt v 1 "/"))) || String.eqb v "*".

Definition actualContentLength (req : t) : Z :=
  if negb req.(hasBody) then 0 else if negb (req.(ContentLength) =? 0) then req.(ContentLength) else -1.

Definition TrimPrefix (s prefix : string) : string :=
  if String.prefix prefix s then String.substring (String.length prefix) (String.length s - String.length prefix) s else s.

Definition errPathOpaque : error := ErrorsNew "invalid request :path from URL.Opaque".
Definition errPath : error := ErrorsNew "invalid request :path".
Definition errName : error := ErrorsNew "invalid HTTP header name".
Definition errValue : error := ErrorsNew "invalid HTTP header value".

Definition requestPath (req : t) (host : string) : res string :=
  if String.eqb req.(Method) "CONNECT" then Ok ""
  else
    let path := req.(url).(RequestURI) in
    if validPseudoPath path then Ok path
    else
      let path := TrimPrefix path (String.append req.(url).(Scheme) (String.append "://" host)) in
      if validPseudoPath path then Ok path
      else Err (if negb (String.eqb req.(url).(Opaque) "") then errPathOpaque else errPath).

(** The check of all headers before anything is encoded *)
Fixpoint checkHeaders (order : list string) (h : Header) : res unit :=
  match order with
  | [] => Ok tt
  | k :: order =>
      if negb (ValidHeaderFieldName k) then Err errName
      else if negb (forallb ValidHeaderFieldValue (hget h k)) then Err errValue
      else checkHeaders order h
  end.

Definition connectionSpecific : list string := ["connection"; "proxy-connection"; "transfer-encoding"; "upgrade"; "keep-alive"]%string.

(** The values of a header that are sent *)
Definition sentValues (lowKey : string) (vv : list string) : list string :=
  if bool_decide (lowKey ∈ ["host"; "content-length"]%string) then []
  else if bool_decide (lowKey ∈ connectionSpecific) then []
  else if String.eqb lowKey "user-agent" then
    match vv with [] => [] | v :: _ => if String.eqb v "" then [] else [v] end
  else vv.

Definition headerFields (k : string) (vv : list string) : list HeaderField :=
  mkField (ToLower k) <$> sentValues (ToLower k) vv.

Definition defaultUserAgent : string := "quic-go".

Definition encodeHeaders (req : t) (order : list string) (addGzipHeader : bool) (trailers : string) (contentLength : Z)
  : res (list HeaderField) :=
  let host := if String.eqb req.(Host) "" then req.(url).(UHost) else req.(Host) in
  host ← PunycodeHostPort host;
  path ← requestPath req host;
  _ ← checkHeaders order req.(header);
  let didUA := existsb (fun k => String.eqb (ToLower k) "user-agent") order in
  Ok ([mkField ":authority" host; mkField ":method" req.(Method)]
      ++ (if negb (String.eqb req.(Method) "CONNECT") then [mkField ":path" path; mkField ":scheme" req.(url).(Scheme)] else [])
      ++ (if negb (String.eqb trailers "") then [mkField "trailer" trailers] else [])
      ++ concat (map (fun k => headerFields k (hget req.(header) k)) order)
      ++ (if shouldSendReqContentLength req.(Method) contentLength then [mkField "content-length" (FormatInt contentLength)] else [])
      ++ (if addGzipHeader then [mkField "accept-encoding" "gzip"] else [])
      ++ (if negb didUA then [mkField "user-agent" defaultUserAgent] else [])).

(** [http2.HeadersFrame] *)
Record HeadersFrame : Type := mkHeaders { StreamID : Z; EndStream : bool; BlockFragment : list HeaderField }.

(** The result of [encodeHeaders] is dropped: after an error the buffer is empty. *)
Definition WriteRequest (req : t) (order : list string) (dataStreamID : Z) (endStream requestGzip : bool) : HeadersFrame :=
  mkHeaders dataStreamID endStream
    (match encodeHeaders req order requestGzip "" (actualContentLength req) with Ok fs => fs | _ => [] end).

End writer.

(** *** The server *)

(** The request that the handler gets *)
Record served : Type := mkServed {
  sMethod : string;
  sURL : URL;
  sHeader : Header;
  sContentLength : Z;
  sHost : string;
  sRequestURI : string
}.

Record parts : Type := mkParts { path : string; authority : string; method : string; contentLengthStr : string; httpHeaders : Header }.

Definition addField (p : parts) (h : HeaderField) : parts :=
  if String.eqb h.(Name) ":path" then mkParts h.(Value) p.(authority) p.(method) p.(contentLengthStr) p.(httpHeaders)
  else if String.eqb h.(Name) ":method" then mkParts p.(path) p.(authority) h.(Value) p.(contentLengthStr) p.(httpHeaders)
  else if String.eqb h.(Name) ":authority" then mkParts p.(path) h.(Value) p.(method) p.(contentLengthStr) p.(httpHeaders)
  else if String.eqb h.(Name) "content-length" then mkParts p.(path) p.(authority) p.(method) h.(Value) p.(httpHeaders)
  else if negb (IsPseudo h) then
    mkParts p.(path) p.(authority) p.(method) p.(contentLengthStr) (Add p.(httpHeaders) h.(Name) h.(Value))
  else p.

Definition joinCookies (h : Header) : Header :=
  match hget h "Cookie" with [] => h | l => <["Cookie"%string := [Join l "; "]]> h end.

Definition errEmpty : error := ErrorsNew ":path, :authority and :method must not be empty".

(** [Parse] is [url.Parse]. *)
Definition requestFromHeaders (Parse : string -> res URL) (headers : list HeaderField) : res served :=
  let p := foldl addField (mkParts "" "" "" "" ∅) headers in
  let h := joinCookies p.(httpHeaders) in
  if String.eqb p.(path) "" || String.eqb p.(authority) "" || String.eqb p.(method) "" then Err errEmpty
  else
    u ← Parse p.(path);
    contentLength ← (if String.eqb p.(contentLengthStr) "" then Ok 0 else ParseInt p.(contentLengthStr));
    Ok (mkServed p.(method) u h contentLength p.(authority) p.(path)).

End HttpRequest.

(** ** Responses *)

Module HttpResponse.

(** *** The server *)

Record writer : Type := mkWriter {
  dataStreamID : Z;
  wheader : Header;
  status : Z;
  headerWritten : bool;
  headerFrames : list HttpRequest.HeadersFrame;
  body : list Z
}.

Definition newResponseWriter (dataStreamID : Z) : writer := mkWriter dataStreamID ∅ 0 false [] [].

Definition statusFields (status : Z) (order : list string) (h : Header) : list HeaderField :=
  mkField ":status" (FormatInt status) :: concat (map (fun k => mkField (ToLower k) <$> hget h k) order).

Definition WriteHeader (order : list string) (st : Z) (w : writer) : writer :=
  if w.(headerWritten) then w
  else mkWriter w.(dataStreamID) w.(wheader) st true
         (w.(headerFrames) ++ [HttpRequest.mkHeaders w.(dataStreamID) false (statusFields st order w.(wheader))]) w.(body).

Definition bodyAllowedForStatus (status : Z) : bool :=
  negb ((100 <=? status) && (status <=? 199)) && negb (status =? 204) && negb (status =? 304).

Definition ErrBodyNotAllowed : error := ErrorsNew "http: request method or response status code does not allow body".

Definition Write (order : list string) (p : list Z) (w : writer) : writer * res Z :=
  let w := if negb w.(headerWritten) then WriteHeader order 200 w else w in
  if negb (bodyAllowedForStatus w.(status)) then (w, Err ErrBodyNotAllowed)
  else (mkWriter w.(dataStreamID) w.(wheader) w.(status) w.(headerWritten) w.(headerFrames) (w.(body) ++ p), Ok (Z.of_nat (length p))).

(** *** The client *)

Record t : Type := mk { StatusCode : Z; rHeader : Header; Trailer : list string; ContentLength : Z }.

(** [MetaHeadersFrame.PseudoValue] and [RegularFields] *)
Fixpoint PseudoValue (fields : list HeaderField) (pseudo : string) : string :=
  match fields with
  | [] => ""
  | f :: fields =>
      if negb (IsPseudo f) then ""
      else if String.eqb f.(Name) (String ":" pseudo) then f.(Value) else PseudoValue fields pseudo
  end.
Fixpoint RegularFields (fields : list HeaderField) : list HeaderField :=
  match fields with [] => [] | f :: fs => if IsPseudo f then RegularFields fs else fields end.

(** [textproto.TrimString] and [strings.Split(v, ",")] on the characters of a string *)
Definition isSpaceA (a : ascii) : bool := existsb (Nat.eqb (nat_of_ascii a)) [32; 9; 10; 13]%nat.
Fixpoint dropSpace (l : list ascii) : list ascii := match l with a :: l' => if isSpaceA a then dropSpace l' else l | [] => [] end.
Definition TrimString (l : list ascii) : list ascii := rev (dropSpace (rev (dropSpace l))).
Fixpoint SplitComma (l : list ascii) : list (list ascii) :=
  match l with
  | [] => [[]]
  | a :: l =>
      if (nat_of_ascii a =? 44)%nat then [] :: SplitComma l
      else match SplitComma l with w :: ws => (a :: w) :: ws | [] => [[a]] end
  end.
(** The elements on which [foreachHeaderElement] calls its function *)
Definition headerElements (v : string) : list string :=
  map string_of_list_ascii (filter (fun l => l <> []) (map TrimString (SplitComma (TrimString (list_ascii_of_string v))))).

Definition addRegular (r : t) (f : HeaderField) : t :=
  let key := CanonicalHeaderKey f.(Name) in
  if String.eqb key "Trailer" then
    mk r.(StatusCode) r.(rHeader) (r.(Trailer) ++ map CanonicalHeaderKey (headerElements f.(Value))) r.(ContentLength)
  else mk r.(StatusCode) (<[key := hget r.(rHeader) key ++ [f.(Value)]]> r.(rHeader)) r.(Trailer) r.(ContentLength).

Definition errNoStatus : error := ErrorsNew "missing status pseudo header".
Definition errStatus : error := ErrorsNew "malformed non-numeric status pseudo header".

(** The frame is not truncated: the client sets no limit on the list. *)
Definition responseFromHeaders (fields : list HeaderField) : res t :=
  let st := PseudoValue fields "status" in
  if String.eqb st "" then Err errNoStatus
  else
    match ParseInt st with
    | Ok code => Ok (foldl addRegular (mk code ∅ [] 0) (RegularFields fields))
    | _ => Err errStatus
    end.

Definition setLength (r : t) (isHead streamEnded : bool) : t :=
  if negb streamEnded || isHead then
    mk r.(StatusCode) r.(rHeader) r.(Trailer)
      (match hget r.(rHeader) "Content-Length" with [c] => match ParseInt c with Ok n => n | _ => -1 end | _ => -1 end)
  else r.

(** *** The exchange *)

Definition InternalErrorCode : Z := 1.

(** What the goroutine of the header stream does with a frame of headers: it hands the
    response, or [nil], to the request that waits on the stream, or it stops. *)
Inductive outcome : Type := Deliver (id : Z) (rsp : option t) (headerErr : option error) | Stop (headerErr : error).

Definition handleHeaders (responses : list Z) (f : HttpRequest.HeadersFrame) : outcome :=
  let id := f.(HttpRequest.StreamID) in
  if bool_decide (id ∈ responses) then
    match responseFromHeaders f.(HttpRequest.BlockFragment) with
    | Ok r => Deliver id (Some r) None
    | Err e => Deliver id None (Some (QuicErrorOf InternalErrorCode e))
    | Panic => Deliver id None None
    end
  else Stop (QuicErrorf InternalErrorCode "h2client BUG: response channel for stream %d not found" [id]).

(** The end of [RoundTrip], with the response it received *)
Definition finishRoundTrip (isHead requestedGzip : bool) (rsp : option t) : res (t * bool) :=
  match rsp with
  | None => Panic
  | Some r =>
      let r := setLength r isHead false in
      if negb isHead && requestedGzip && String.eqb (default ""%string (head (hget r.(rHeader) "Content-Encoding"))) "gzip" then
        Ok (mk r.(StatusCode) (delete "Content-Length"%string (delete "Content-Encoding"%string r.(rHeader))) r.(Trailer) (-1), true)
      else Ok (r, false)
  end.

End HttpResponse.

(** ** Proofs *)

Module HttpProofs.
Import HttpRequest.

(** *** Strings *)

Lemma upper_lower a : upperA (lowerA a) = upperA a.
Proof. destruct a as [[][][][][][][][]]; reflexivity. Qed.
Lemma lower_lower a : lowerA (lowerA a) = lowerA a.
Proof. destruct a as [[][][][][][][][]]; reflexivity. Qed.
Lemma token_lower a : isTokenA (lowerA a) = isTokenA a.
Proof. destruct a as [[][][][][][][][]]; reflexivity. Qed.

Lemma canonical_lower s : forall u, canonical u (ToLower s) = canonical u s.
Proof.
  induction s as [|a s IH]; intros u; [done|]. cbn [ToLower canonical]. rewrite upper_lower, lower_lower. by destruct u; rewrite IH.
Qed.

Lemma isToken_lower s : isToken (ToLower s) = isToken s.
Proof. induction s as [|a s IH]; [done|]. cbn [ToLower isToken]. by rewrite token_lower, IH. Qed.

(** Names that are keys of a header *)
Definition is_key (k : string) : Prop := isToken k = true /\ CanonicalHeaderKey k = k.

Lemma key_of_lower k : is_key k -> CanonicalHeaderKey (ToLower k) = k.
Proof.
  intros [Ht Hc]. unfold CanonicalHeaderKey in *. rewrite isToken_lower, Ht in *. by rewrite canonical_lower.
Qed.

Lemma lower_not_pseudo k : isToken k = true -> forall v, IsPseudo (mkField (ToLower k) v) = false.
Proof.
  intros Ht v. unfold IsPseudo. cbn [Name]. rewrite <- isToken_lower in Ht. destruct (ToLower k) as [|a s]; [done|].
  cbn [isToken] in Ht. apply andb_true_iff in Ht as [Ha _]. destruct (nat_of_ascii a =? 58)%nat eqn:E; [|done].
  apply Nat.eqb_eq in E. unfold isTokenA in Ha. by rewrite E in Ha.
Qed.

Lemma ParseInt_Format n : - 2 ^ 63 <= n < 2 ^ 63 -> FormatInt n <> ""%string /\ ParseInt (FormatInt n) = Ok n.
Proof.
  intros Hn. unfold FormatInt. assert (E : NilZero.int_of_string (NilZero.string_of_int (Z.to_int n)) = Some (Z.to_int n)).
  { assert (Hnil : forall p, Pos.to_uint p <> Decimal.Nil)
      by (intros p E; pose proof (DecimalPos.Unsigned.of_to p) as O; by rewrite E in O).
    apply NilZero.isi; destruct n as [|p|p]; cbn; congruence. }
  destruct (NilZero.string_of_int (Z.to_int n)) as [|a s] eqn:Es; [done|]. split; [discriminate|]. unfold ParseInt.
  destruct (nat_of_ascii a =? 43)%nat eqn:Ea.
  - exfalso. apply Nat.eqb_eq in Ea. assert (Ha : a = ascii_of_nat 43) by (rewrite <- Ea; symmetry; apply ascii_nat_embedding).
    subst a. cbn in E. destruct (NilEmpty.uint_of_string s); discriminate.
  - rewrite E. cbv zeta. rewrite DecimalZ.of_to. rewrite (proj2 (Z.leb_le _ _)), (proj2 (Z.ltb_lt _ _)) by lia. reflexivity.
Qed.

(** *** Reading fields *)

Definition addAll (h : Header) (fs : list HeaderField) : Header := foldl (fun h f => Add h f.(Name) f.(Value)) h fs.

Definition set_headers (p : parts) (h : Header) : parts := mkParts p.(path) p.(authority) p.(method) p.(contentLengthStr) h.

Definition regular (f : HeaderField) : Prop := IsPseudo f = false /\ f.(Name) <> "content-length"%string.

Lemma addField_regular p f : regular f -> addField p f = set_headers p (Add p.(httpHeaders) f.(Name) f.(Value)).
Proof.
  intros [Hp Hc]. unfold addField. assert (N : forall s, f.(Name) = String ":" s -> False).
  { intros s E. unfold IsPseudo in Hp. by rewrite E in Hp. }
  destruct (String.eqb_spec f.(Name) ":path") as [E|_]; [by apply N in E|].
  destruct (String.eqb_spec f.(Name) ":method") as [E|_]; [by apply N in E|].
  destruct (String.eqb_spec f.(Name) ":authority") as [E|_]; [by apply N in E|].
  destruct (String.eqb_spec f.(Name) "content-length") as [E|_]; [done|]. by rewrite Hp.
Qed.

Lemma addFields_regular fs : Forall regular fs -> forall p, foldl addField p fs = set_headers p (addAll p.(httpHeaders) fs).
Proof.
  induction 1 as [|f fs Hf _ IH]; intros p; [by destruct p|]. cbn [foldl]. rewrite addField_regular by done. rewrite IH. reflexivity.
Qed.

(** The values of a key, in the order of the fields *)
Definition valuesOf (k : string) (fs : list HeaderField) : list string :=
  Value <$> filter (fun f => CanonicalHeaderKey f.(Name) = k) fs.

Lemma valuesOf_app k l1 l2 : valuesOf k (l1 ++ l2) = valuesOf k l1 ++ valuesOf k l2.
Proof. unfold valuesOf. by rewrite filter_app, fmap_app. Qed.

Lemma hget_Add h n v k : hget (Add h n v) k = hget h k ++ (if decide (CanonicalHeaderKey n = k) then [v] else []).
Proof.
  unfold Add, hget. cbv zeta. destruct (decide (CanonicalHeaderKey n = k)) as [<-|Hk].
  - by rewrite lookup_insert_eq.
  - by rewrite lookup_insert_ne, app_nil_r by done.
Qed.

Lemma addAll_values fs : forall h k, hget (addAll h fs) k = hget h k ++ valuesOf k fs.
Proof.
  induction fs as [|f fs IH]; intros h k; [by rewrite app_nil_r|]. change (addAll h (f :: fs)) with (addAll (Add h f.(Name) f.(Value)) fs).
  rewrite IH, hget_Add, <- app_assoc. f_equal. unfold valuesOf. rewrite filter_cons. by case_decide.
Qed.

(** *** Writing fields *)

Lemma lowered_values k k' vv : is_key k' -> valuesOf k (mkField (ToLower k') <$> vv) = if decide (k' = k) then vv else [].
Proof.
  intros Hk. unfold valuesOf. induction vv as [|v vv IH]; [by case_decide|]. cbn [fmap list_fmap]. rewrite filter_cons. cbn [Name].
  rewrite (key_of_lower k' Hk). case_decide; [|exact IH]. cbn [fmap list_fmap Value]. by rewrite IH.
Qed.

(** The fields of all keys, where [F] are the values that are sent *)
Lemma order_values (F : string -> list string) k order : Forall is_key order -> NoDup order ->
  valuesOf k (concat (map (fun k => mkField (ToLower k) <$> F k) order)) = if decide (k ∈ order) then F k else [].
Proof.
  intros Hk. induction order as [|k' order IH]; intros Hn; [by rewrite decide_False by apply not_elem_of_nil|].
  apply Forall_cons in Hk as [Hk' Hk]. apply NoDup_cons in Hn as [Hn' Hn]. cbn [map concat]. rewrite valuesOf_app, IH, lowered_values by done.
  destruct (decide (k' = k)) as [->|Hne].
  - rewrite (decide_False (P := k ∈ order)), decide_True by (done || by left). by rewrite app_nil_r.
  - apply decide_ext. rewrite elem_of_cons. naive_solver.
Qed.

Lemma fields_regular h order : Forall is_key order -> Forall regular (concat (map (fun k => headerFields k (hget h k)) order)).
Proof.
  induction 1 as [|k order [Ht _] _ IH]; [constructor|]. cbn [map concat]. apply Forall_app. split; [|exact IH].
  unfold headerFields. apply Forall_fmap, Forall_forall. intros v Hv. split; [by apply lower_not_pseudo|]. cbn. intros E.
  unfold sentValues in Hv. rewrite E in Hv. cbn in Hv. by apply not_elem_of_nil in Hv.
Qed.

(** The order in which Go visits a header, whose keys are canonical *)
Definition visits (order : list string) (h : Header) : Prop :=
  NoDup order /\ Forall is_key order /\ forall k, k ∈ order <-> is_Some (h !! k).

(** What the server should find under a key *)
Definition expected (req : t) (gzip : bool) (k : string) : list string :=
  sentValues (ToLower k) (hget req.(header) k)
  ++ (if gzip && String.eqb k "Accept-Encoding" then ["gzip"%string] else [])
  ++ (if bool_decide (is_Some (req.(header) !! "User-Agent"%string)) then []
      else if String.eqb k "User-Agent" then [defaultUserAgent] else []).

Lemma sentValues_nil k : sentValues k [] = [].
Proof. unfold sentValues. by repeat case_match. Qed.

(** A name that is the same as another in small letters has the same key. *)
Lemma user_agent_key k : is_key k -> String.eqb (ToLower k) "user-agent" = String.eqb k "User-Agent".
Proof.
  intros Hk. destruct (String.eqb_spec k "User-Agent") as [->|Hne]; [done|]. apply String.eqb_neq. intros E.
  apply Hne. rewrite <- (key_of_lower k Hk), E. reflexivity.
Qed.

Lemma didUA_spec order h : visits order h ->
  existsb (fun k => String.eqb (ToLower k) "user-agent") order = bool_decide (is_Some (h !! "User-Agent"%string)).
Proof.
  intros (_ & Hk & Ho). rewrite Forall_forall in Hk. apply eq_true_iff_eq. rewrite existsb_exists, bool_decide_eq_true, <- Ho. split.
  - intros (k & Hin & E). apply list_elem_of_In in Hin. rewrite user_agent_key in E by auto. apply String.eqb_eq in E. by subst.
  - intros Hin. exists "User-Agent"%string. split; [by apply list_elem_of_In|done].
Qed.

Lemma values_of_one k n v : valuesOf k [mkField n v] = if String.eqb k (CanonicalHeaderKey n) then [v] else [].
Proof.
  unfold valuesOf. rewrite filter_cons. cbn [Name]. destruct (String.eqb_spec k (CanonicalHeaderKey n)) as [->|Hne].
  - by rewrite decide_True.
  - by rewrite decide_False by congruence.
Qed.

Lemma path_valid req host path : req.(Method) <> "CONNECT"%string -> requestPath req host = Ok path -> validPseudoPath path = true.
Proof.
  intros Hm. unfold requestPath. rewrite (proj2 (String.eqb_neq _ _) Hm). cbv zeta.
  destruct (validPseudoPath (RequestURI _)) eqn:E1; [by intros [= <-]|].
  destruct (validPseudoPath (TrimPrefix _ _)) eqn:E2; [by intros [= <-]|done].
Qed.

Lemma joinCookies_values (f : string -> list string) H : (forall k, hget H k = f k) -> forall k,
  hget (joinCookies H) k = if String.eqb k "Cookie" then match f k with [] => [] | l => [Join l "; "] end else f k.
Proof.
  intros HH k. unfold joinCookies. rewrite HH. destruct (String.eqb_spec k "Cookie") as [->|Hne].
  - destruct (f "Cookie"%string) eqn:E; [by rewrite HH|]. unfold hget. by rewrite lookup_insert_eq.
  - case_match; [done|]. rewrite <- HH. unfold hget. by rewrite lookup_insert_ne by done.
Qed.

Section roundtrip.
Context (PunycodeHostPort : string -> res string) (ValidHeaderFieldName ValidHeaderFieldValue : string -> bool).

(** The fields of a request in their groups *)
Lemma encode_fields req order gzip len fs :
  encodeHeaders PunycodeHostPort ValidHeaderFieldName ValidHeaderFieldValue req order gzip "" len = Ok fs ->
  req.(Method) <> "CONNECT"%string -> visits order req.(header) ->
  exists host path, PunycodeHostPort (if String.eqb req.(Host) "" then req.(url).(UHost) else req.(Host)) = Ok host
    /\ requestPath req host = Ok path
    /\ fs = [mkField ":authority" host; mkField ":method" req.(Method); mkField ":path" path; mkField ":scheme" req.(url).(Scheme)]
        ++ concat (map (fun k => headerFields k (hget req.(header) k)) order)
        ++ (if shouldSendReqContentLength req.(Method) len then [mkField "content-length" (FormatInt len)] else [])
        ++ (if gzip then [mkField "accept-encoding" "gzip"] else [])
        ++ (if bool_decide (is_Some (req.(header) !! "User-Agent"%string)) then [] else [mkField "user-agent" defaultUserAgent]).
Proof.
  intros He Hm Hv. unfold encodeHeaders in He. destruct (PunycodeHostPort _) as [host| |] eqn:Eh; [|done..]. cbn [mbind res_bind] in He.
  destruct (requestPath req host) as [path| |] eqn:Ep; [|done..]. cbn [mbind res_bind] in He.
  destruct (checkHeaders _ _ _ _); [|done..]. cbn [mbind res_bind] in He. injection He as <-. exists host, path. split_and!; [done..|].
  rewrite (didUA_spec order _ Hv), (proj2 (String.eqb_neq _ _) Hm). by destruct (bool_decide _).
Qed.

(** The last three groups *)
Lemma trailing_fields p (b1 b2 b3 : bool) len :
  foldl addField p ((if b1 then [mkField "content-length" (FormatInt len)] else [])
    ++ (if b2 then [mkField "accept-encoding" "gzip"] else []) ++ (if b3 then [] else [mkField "user-agent" defaultUserAgent]))
  = mkParts p.(path) p.(authority) p.(method) (if b1 then FormatInt len else p.(contentLengthStr))
      (addAll p.(httpHeaders) ((if b2 then [mkField "accept-encoding" "gzip"] else []) ++ (if b3 then [] else [mkField "user-agent" defaultUserAgent]))).
Proof. destruct b1, b2, b3, p; reflexivity. Qed.

Lemma trailing_values k (b2 b3 : bool) :
  valuesOf k ((if b2 then [mkField "accept-encoding" "gzip"] else []) ++ (if b3 then [] else [mkField "user-agent" defaultUserAgent]))
  = (if b2 && String.eqb k "Accept-Encoding" then ["gzip"%string] else []) ++ (if b3 then [] else if String.eqb k "User-Agent" then [defaultUserAgent] else []).
Proof.
  rewrite valuesOf_app. f_equal; [destruct b2|destruct b3]; try done.
  - exact (values_of_one k "accept-encoding" "gzip").
  - exact (values_of_one k "user-agent" defaultUserAgent).
Qed.

End roundtrip.

(** C35: an HTTP request.  What a client writes for a request without CONNECT is read by
    the server as the same request: the method, the host in ASCII, the path and what
    [url.Parse] makes of it, the content length when it is sent and 0 otherwise (also
    for an unknown one), and under every key the values of the client, but for those
    that must not be sent, with the additions for compression and the name of the
    client, and with cookies joined.  The server refuses a request with an empty host
    or method, and one whose path [url.Parse] refuses, with the error of [url.Parse]. *)
Theorem request_roundtrip (PunycodeHostPort : string -> res string) (ValidHeaderFieldName ValidHeaderFieldValue : string -> bool)
  (Parse : string -> res URL) (req : t) (order : list string) (gzip : bool) (len : Z) (fs : list HeaderField)
  (Hencode : encodeHeaders PunycodeHostPort ValidHeaderFieldName ValidHeaderFieldValue req order gzip "" len = Ok fs)
  (Hmethod : req.(Method) <> "CONNECT"%string) (Hvisits : visits order req.(header))
  (Hlen : - 2 ^ 63 <= len < 2 ^ 63) :
  exists host path, PunycodeHostPort (if String.eqb req.(Host) "" then req.(url).(UHost) else req.(Host)) = Ok host
    /\ requestPath req host = Ok path
    /\ if String.eqb host "" || String.eqb req.(Method) "" then requestFromHeaders Parse fs = Err errEmpty
       else match Parse path with
            | Err e => requestFromHeaders Parse fs = Err e
            | Panic => requestFromHeaders Parse fs = Panic
            | Ok u => exists r, requestFromHeaders Parse fs = Ok r
                /\ r.(sMethod) = req.(Method) /\ r.(sHost) = host /\ r.(sRequestURI) = path /\ r.(sURL) = u
                /\ r.(sContentLength) = (if shouldSendReqContentLength req.(Method) len then len else 0)
                /\ forall k, hget r.(sHeader) k
                   = if String.eqb k "Cookie" then match expected req gzip k with [] => [] | l => [Join l "; "] end
                     else expected req gzip k
            end.
Proof.
  destruct (encode_fields _ _ _ _ _ _ _ _ Hencode Hmethod Hvisits) as (host & path & Eh & Ep & ->).
  exists host, path. split; [done|]. split; [done|].
  pose proof (path_valid req host path Hmethod Ep) as Hvp. assert (Hp0 : path <> ""%string) by (intros ->; discriminate).
  destruct (ParseInt_Format len Hlen) as [Hf0 Hf]. pose proof Hvisits as (Hnd & Hkeys & Hdom).
  unfold requestFromHeaders. rewrite foldl_app. cbn [foldl].
  match goal with |- context [foldl addField ?q (concat _ ++ _)] => set (p0 := q) end.
  rewrite foldl_app, (addFields_regular _ (fields_regular req.(header) order Hkeys)), trailing_fields.
  unfold set_headers. cbn [HttpRequest.path authority method contentLengthStr httpHeaders].
  set (H := addAll _ _).
  assert (HH : forall k, hget H k = expected req gzip k).
  { intros k. unfold H. rewrite !addAll_values, (order_values (fun k => sentValues (ToLower k) (hget req.(header) k))), trailing_values by done. unfold expected.
    change (hget p0.(httpHeaders) k) with (hget ∅ k). unfold hget at 1. rewrite lookup_empty. cbn [default app]. f_equal.
    destruct (decide (k ∈ order)) as [_|Hk]; [done|]. unfold hget. destruct (req.(header) !! k) eqn:E; [|symmetry; apply sentValues_nil].
    exfalso. apply Hk, Hdom. eauto. }
  change p0.(HttpRequest.path) with path. change p0.(authority) with host. change p0.(method) with req.(Method).
  change p0.(contentLengthStr) with ""%string.
  rewrite (proj2 (String.eqb_neq _ _) Hp0). cbn [orb]. destruct (String.eqb host "" || _); [done|].
  destruct (Parse path) as [u|e|]; [|done..]. cbn [mbind res_bind].
  destruct (shouldSendReqContentLength req.(Method) len); cbn [String.eqb];
    [rewrite (proj2 (String.eqb_neq _ _) Hf0), Hf|]; cbn [mbind res_bind];
    (eexists; split; [reflexivity|]); cbn [sMethod sHost sRequestURI sURL sContentLength sHeader]; split_and!; try done; apply joinCookies_values; exact HH.
Qed.

(** *** Responses *)

Import HttpResponse.

Lemma regular_fields fs : Forall (fun f => IsPseudo f = false) fs -> RegularFields fs = fs.
Proof. destruct 1 as [|f fs Hf]; [done|]. cbn [RegularFields]. by rewrite Hf. Qed.

Lemma addRegulars fs : Forall (fun f => CanonicalHeaderKey f.(Name) <> "Trailer"%string) fs -> forall r,
  foldl addRegular r fs = HttpResponse.mk r.(StatusCode) (addAll r.(rHeader) fs) r.(Trailer) r.(HttpResponse.ContentLength).
Proof.
  induction 1 as [|f fs Hf _ IH]; intros r; [by destruct r|]. cbn [foldl]. rewrite IH. unfold addRegular.
  rewrite (proj2 (String.eqb_neq _ _) Hf). reflexivity.
Qed.

Lemma lowered_fields (P : HeaderField -> Prop) h order :
  (forall k v, k ∈ order -> P (mkField (ToLower k) v)) -> Forall P (concat (map (fun k => mkField (ToLower k) <$> hget h k) order)).
Proof.
  intros HP. apply Forall_concat, Forall_map, Forall_forall. intros k Hk. apply Forall_fmap, Forall_forall. intros v _. by apply HP.
Qed.

(** The client reads the status and the header of the handler. *)
Theorem response_roundtrip (order : list string) (st : Z) (w : writer) :
  w.(headerWritten) = false -> - 2 ^ 63 <= st < 2 ^ 63 -> visits order w.(wheader) -> ~ "Trailer"%string ∈ order ->
  exists f r, (WriteHeader order st w).(headerFrames) = w.(headerFrames) ++ [f] /\ f.(StreamID) = w.(dataStreamID)
    /\ responseFromHeaders f.(BlockFragment) = Ok r /\ r.(StatusCode) = st /\ (forall k, hget r.(rHeader) k = hget w.(wheader) k)
    /\ forall order' st', WriteHeader order' st' (WriteHeader order st w) = WriteHeader order st w.
Proof.
  intros Hw Hst (Hn & Hk & Hdom) Htr. destruct (ParseInt_Format st Hst) as [Hf0 Hf]. pose proof Hk as Hk'. rewrite Forall_forall in Hk'.
  unfold WriteHeader. rewrite Hw. cbn [headerFrames headerWritten]. eexists _, _. split; [reflexivity|]. split; [reflexivity|].
  cbn [BlockFragment]. unfold responseFromHeaders, statusFields. set (rest := concat _).
  change (PseudoValue (mkField ":status" (FormatInt st) :: rest) "status") with (FormatInt st).
  change (RegularFields (mkField ":status" (FormatInt st) :: rest)) with (RegularFields rest).
  rewrite (proj2 (String.eqb_neq _ _) Hf0), Hf. unfold rest.
  rewrite regular_fields by (apply lowered_fields; intros k v Hin; apply lower_not_pseudo; by apply Hk').
  rewrite addRegulars by (apply lowered_fields; intros k v Hin; cbn [Name]; rewrite key_of_lower by auto; by intros ->).
  split; [reflexivity|]. split; [reflexivity|]. split; [|done]. intros k. cbn [rHeader].
  rewrite addAll_values, (order_values (hget w.(wheader))) by done. change (hget ∅ k ++ ?l) with l. case_decide as Hin; [done|].
  unfold hget. destruct (w.(wheader) !! k) eqn:E; [|done]. exfalso. apply Hin, Hdom. eauto.
Qed.

(** *** What goes wrong *)

(** A request that cannot be encoded is sent all the same, without fields: the error is
    dropped, and the server, which finds no path, closes the session. *)
Theorem invalid_request_sent PunycodeHostPort ValidHeaderFieldName ValidHeaderFieldValue Parse req order id endStream gzip e :
  encodeHeaders PunycodeHostPort ValidHeaderFieldName ValidHeaderFieldValue req order gzip "" (actualContentLength req) = Err e ->
  requestFromHeaders Parse (WriteRequest PunycodeHostPort ValidHeaderFieldName ValidHeaderFieldValue req order id endStream gzip).(BlockFragment)
  = Err errEmpty.
Proof. intros H. unfold WriteRequest. by rewrite H. Qed.

(** A response without a status crashes the client: the request that waits gets [nil]. *)
Theorem malformed_response_panics responses f isHead gzip :
  f.(StreamID) ∈ responses -> PseudoValue f.(BlockFragment) "status" = ""%string ->
  exists err, handleHeaders responses f = Deliver f.(StreamID) None err /\ finishRoundTrip isHead gzip None = Panic.
Proof.
  intros Hin Hst. unfold handleHeaders. rewrite bool_decide_eq_true_2 by done. unfold responseFromHeaders. rewrite Hst. by eexists.
Qed.

(** ** Examples *)

Definition demo_request : HttpRequest.t :=
  HttpRequest.mk "POST" (mkURL "https" "quic.io" "" "/search?q=1") ""
    {[ "Cookie" := ["a=1"; "b=2"]; "Connection" := ["close"]; "X-Id" := ["7"] ]}%string true 42.
Definition demo_order : list string := ["X-Id"; "Connection"; "Cookie"]%string.
(** A parser that refuses an escape without its digits, as that of the library does *)
Definition demo_parse (path : string) : res URL :=
  if String.eqb path "/%zz" then Err (ErrorsNew "invalid URL escape") else Ok (mkURL "" "" "" path).

Lemma request_roundtrip_witness :
  exists fs r, encodeHeaders Ok isToken (fun _ => true) demo_request demo_order true "" 42 = Ok fs
    /\ requestFromHeaders demo_parse fs = Ok r /\ r.(sMethod) = "POST"%string /\ r.(sHost) = "quic.io"%string /\ r.(sContentLength) = 42
    /\ hget r.(sHeader) "Cookie" = ["a=1; b=2"]%string /\ hget r.(sHeader) "Connection" = []
    /\ hget r.(sHeader) "Accept-Encoding" = ["gzip"]%string.
Proof.
  eexists. destruct (request_roundtrip Ok isToken (fun _ => true) demo_parse demo_request demo_order true 42 _ eq_refl)
    as (host & path & H1 & H2 & H3).
  - discriminate.
  - split_and!.
    + repeat (apply NoDup_cons; split; [intros H; repeat (apply elem_of_cons in H as [H|H]; [discriminate|]); by apply not_elem_of_nil in H|]).
      apply NoDup_nil. exact I.
    + repeat constructor.
    + intros k. unfold demo_request, demo_order. cbn [header].
      rewrite !lookup_insert_is_Some', lookup_singleton_is_Some, !elem_of_cons, elem_of_nil. naive_solver.
  - lia.
  - injection H1 as <-. vm_compute in H2. injection H2 as <-.
    destruct H3 as (r & E & Hm & Hh & _ & _ & Hl & Hv).
    exists r. rewrite !Hv. split_and!; [reflexivity|exact E|exact Hm|exact Hh|exact Hl|reflexivity..].
Defined.

End HttpProofs.
